(* ===== verification/_CoqProject ===== *)
-Q . S2P
Prelude.v
Riscv.v
State.v
Kstring.v
Lock.v
Spinlock.v
Kalloc.v
Vm.v
PageTable.v
Cow.v
Uvm.v
Kvm.v
Uvmcopy.v
Spaces.v
Copy.v
Proc.v
Sched.v
Fair.v
Sleeplock.v
Virtio.v
Disk.v
Bio.v
Lru.v
Log.v
Cache.v
Printf.v
Console.v
Fs.v
Ondisk.v
Commit.v
Blocks.v
Content.v
Alloc.v
Grow.v
Write.v
Writei.v
Readwrite.v
Dirs.v
Pipe.v
Fifo.v
File.v
ProcLife.v
Exec.v
Syscall.v
Trap.v
Calls.v
Locks.v
User.v
Shell.v
Parse.v
Show.v
Grep.v
Programs.v
Umalloc.v
Malloc.v
Mkfs.v
Image.v
Build.v
Boot.v
Booted.v
