(* ===== verification/Prelude.v ===== *)
(** A verification of xv6 with priority scheduling and copy-on-write fork.

    The sources are under src/initial-xv6/src: the kernel (kernel/), the programs that run on
    it (user/) and the tool that builds its first disk (mkfs/).  The development translates the C
    code function by function, under the names of the source, into functions that compute, and
    proves what they promise one another and the user.

    * The machine and the monad (this file, Riscv, State)

    A C function is a value of [M W A], a state monad over a world [W] whose outcomes are a
    result, a panic, undefined behaviour ([Fault]), going to sleep or spinning for ever
    ([Blocked]), and the end of the fuel of a loop.  [wp] is its weakest precondition; proofs
    go by its rules and the tactics [kstep], [wp_step] and so on that apply them.  An integer is
    a [Z] with the wrap-around of its type written at each operation that can overflow
    ([u8] to [u64], [s16], [s32]).  Riscv has the constants and the page-table macros of kernel/riscv.h,
    param.h and memlayout.h; State has every struct of kernel/*.h as a record and every global
    variable as a field of [kernel].  Memory is bytes, [ram]; free pages, page tables and user
    pages are in it, and what the compiler lays out - the structs of static data, the pages of a pipe
    and of a trapframe, the driver's queue - are records beside it.  The linker's symbols are
    the class [Layout], with what kernel.ld promises of them in [LayoutOk].

    A process runs until it gives up the CPU in [sched]; a [world] carries the schedule
    [w_env], what the others - processes, devices and interrupts - do to the kernel until it runs
    again.  Theorems hold for every schedule, or for the ones a hypothesis describes.

    * The files

    Kernel, from the bottom:
    - Kstring: kernel/string.c.
    - Spinlock: kernel/spinlock.c on several harts, interleaved one memory operation at a
      time; Lock: the abstract list of held locks the other files use, which Spinlock proves
      the code implements.
    - Kalloc: kernel/kalloc.c, the free list in memory with its invariant [kmem_inv].
    - Vm: kernel/vm.c and [cow_page_fault].  PageTable: a table in memory as a function from
      pages to entries.  Cow, Uvm, Uvmcopy, Copy: several address spaces that share pages
      copy-on-write, the invariant [vm_inv], and what faults, fork and copies do to it.
      Kvm, Spaces: the kernel's own page table, and the address spaces made while booting.
    - Proc: kernel/proc.c without what needs files; Sched: [scheduler], [update_time] and
      [clockintr]; Fair: no starvation among equals; Sleeplock: kernel/sleeplock.c.
    - Virtio: kernel/virtio_disk.c and kernel/plic.c; Disk: a request served by any device that
      obeys the law [device_ok]; Bio: kernel/bio.c; Lru: the order of the cache's list; Log:
      kernel/log.c; Cache: what the cache promises its clients; Commit: crash atomicity.
    - Printf: kernel/printf.c and kernel/uart.c; Console: kernel/console.c.
    - Fs: kernel/fs.c; Ondisk: its formats on disk, and paths.  On the contents of files:
      Blocks: [bread], [log_write] and [brelse] in a transaction, over the contents of the
      blocks, whether cached, logged or on the disk ([mine]); Content: the bytes of a file,
      [bmap] of a block that is there, [readi]; Alloc: the bitmap and [balloc]; Grow: the
      invariants of bitmap and file, and what a new block does to them; Write: [bmap] with
      allocation; Writei: [writei] and [iupdate]; Readwrite: the theorems on them; Dirs: inodes and
      directories, written and found again.
    - Pipe: kernel/pipe.c; Fifo: a pipe is a queue; File: kernel/file.c.
    - ProcLife: [userinit], [fork], [exit], [wait], [waitx]; Exec: kernel/exec.c; Syscall:
      kernel/syscall.c, sysproc.c and sysfile.c; Trap: kernel/trap.c; Calls: theorems on
      system calls and traps; Locks: the lock discipline of all of it.
    - Boot: kernel/start.c and kernel/main.c; Booted: the state they leave.

    User programs:
    - User: system calls, user/ulib.c and user/printf.c; Umalloc, Malloc: user/umalloc.c and
      its theorems; Shell, Parse, Show: user/sh.c, its parser's totality, and the round trip;
      Grep: user/grep.c; Programs: the small programs.  The kernel is to them a strategy
      [u_os] that answers each call from the calls so far.

    Host:
    - Mkfs, Image, Build: mkfs/mkfs.c, the invariant of the image, and the whole run.

    How they meet: [usertrap] (Trap) calls [syscall] (Syscall), whose handlers call ProcLife,
    Exec, File and Pipe; File calls Fs, Fs goes through Log, Log through Bio, Bio through Virtio, and there
    a process sleeps (Proc) until the schedule runs the device and its interrupt.  Copies to
    and from user memory go through Vm, whose pages come from Kalloc.

    * What the theorems show

    - Memory: after [uvmcopy] what the kernel writes for the parent or the child is seen by that one
      only; a copy-on-write
      fault, [uvmcopy] and [copyout] keep [vm_inv] - no page that a process maps is free, a shared
      page is writable nowhere - and move the reference counts exactly as stated, with
      the leak of [uvmcopy] when memory runs out; [copyout] fails only for a cause; [kalloc] and [kfree] on every branch; the kernel's table
      maps what it should and nothing for the user.
    - Crashes: whatever disk a crash during a commit leaves, and however often recovery is
      interrupted, recovery gives all of the transaction or nothing; the driver, with any
      device that serves well-formed requests without an error, transfers the block asked for when one process uses
      the disk; the cache hands out the right buffer.
    - Scheduling: a round runs the process minimal for the order of the assignment; a tick
      recomputes every priority by its formula and in its range; equals do not starve as long as no
      process is created and no better priority appears (new children do come first).
    - Concurrency: mutual exclusion in every interleaving of the harts; the code of
      spinlock.c implements the abstract lock list; every trap goes back to user space without
      a spinlock, a type discipline checked through the text of every function.
    - Devices and pipes: the console refines a line discipline; a pipe is a queue for a
      reader that need not wait and for a writer that sleeps whenever it is full.
    - Files: [readi] gives the bytes of the file; [writei] puts its bytes there, allocating
      blocks as it needs them, and leaves the rest of the file, the other files, the
      other inodes and the bitmap right; what was written is read back; a crash leaves all of the write or
      nothing; a piece as [filewrite] cuts them fits the log blocks reserved for it.  [writei] is for bytes
      of the kernel or readable bytes of the process, [readi] for a destination in the kernel, on a disk
      with enough free blocks (two for each block
      written): of a full disk, or of user memory that cannot be read, only the code is modelled.
    - Inodes and directories: what [iupdate] stores, [ilock] finds, and a name that [dirlink] adds is
      the one [dirlookup] finds, both through the cache and the log; path resolution ends.
    - Boot: [main] reaches the scheduler, without a panic, in the state the rest starts from.
    - User: the shell parses back every command it could print, and on every line stops with a command made of
      the words of the line or an error that has a reason in it; grep
      accepts a regular language and writes the lines that match, however reads cut the
      input; [malloc] and [free] refine a set of free memory; mkfs builds the
      image of its files.

    Where the code does not do what it means to, the theorem states what it does, and its
    comment says so.

    * Bounds and fuel

    [OutOfFuel] is an artefact of the model, and no postcondition of [wp] allows it: the theorem on
    a function shows that the rounds given to its loops are enough.
    - A loop over a table or a range has the size of the range (for example [NBUF + 1] in
      [bget], four levels in [freewalk], the string's length in [namex], whose theorem holds for any
      greater fuel as well).
    - A loop that sleeps has a round for each step of the schedule ([loop_env]), one that
      polls a device a round for each answer still to come ([loop_input]), one that makes a
      system call a round for each call the run lasts ([loop_calls]): without a next step it is
      [Blocked] before the fuel ends.
    - The shell's parser has [parse_fuel], four calls per character of the line; the walks
      of the allocator of user programs twice the number of headers ([ring_fuel]).
    - [kvmmake] needs 137 pages (the tables and 64 stacks), the boot 151.

    * Not modelled

    - Assembly (entry.S, swtch.S, kernelvec.S, trampoline.S, initcode.S, usys.pl): a switch is a
      step of the schedule, the entries are addresses in [Layout]; a system call of a user
      program is the call of its strategy.
    - The one-instruction accessors of riscv.h: reading or writing a field of the record
      of registers stands for them; fences do nothing in a model without reordering.
    - The kernel's accesses to memory after [kvminithart] go to the physical address: the
      theorem on [kvmmake] shows that its table maps memory to itself.
    - kernel/defs.h and user/user.h only declare; kernel/ramdisk.c is not built.
    - The tests - usertests, cowtest, alarmtest, grind and the three schedulertests: no part of
      the system depends on them.
    - What mkfs prints on the host.

    * This file

    - machine integers: the wrap-around functions [u8] ... [u64] and [s32] that
      C's [uchar] ... [uint64] and [int] conversions perform;
    - byte-addressed memory ([ram]) with little-endian 64-bit loads and stores;
    - the kernel monad [M W A] with its loops, and the bytes of string literals;
    - the weakest-precondition predicate [wp] used for every state-changing
      operation, its rules and the tactics that apply them, a rule for loops with an
      invariant and a measure among them ([wp_loop_rounds]);
    - record update notation [r <| f := v |>]. *)

From Stdlib Require Export ZArith Lia.
From stdpp Require Export base gmap strings numbers option list.
Export stdpp.list_basics.list stdpp.list_relations.list stdpp.list_misc.list.

#[global] Open Scope Z_scope.

(** * Machine integers *)

Definition u8 (x : Z) : Z := x mod 256.
Definition u16 (x : Z) : Z := x mod 65536.
Definition u32 (x : Z) : Z := x mod 4294967296.
Definition u64 (x : Z) : Z := x mod 18446744073709551616.

(** Conversion to a signed 32-bit [int], as every compiler xv6 supports does it. *)
Definition s32 (x : Z) : Z :=
  if u32 x <? 2147483648 then u32 x else u32 x - 4294967296.

(** Conversion to a signed 16-bit [short]. *)
Definition s16 (x : Z) : Z :=
  if u16 x <? 32768 then u16 x else u16 x - 65536.

(** C's truth value. *)
Definition cbool (b : bool) : Z := if b then 1 else 0.

(** [lia] after replacing [/] and [mod] by their defining equations. *)
Ltac zlia := Z.to_euclidean_division_equations; lia.

(** Boolean comparisons in the hypotheses as propositions, then [lia]. *)
Ltac bool_hyps := repeat match goal with
  | H : @eq bool _ _ |- _ => progress rewrite ?Z.gtb_ltb, ?Z.geb_leb, ?andb_true_iff, ?andb_false_iff, ?orb_true_iff,
      ?orb_false_iff, ?negb_true_iff, ?negb_false_iff, ?Z.leb_le, ?Z.leb_gt, ?Z.ltb_lt, ?Z.ltb_ge,
      ?Z.eqb_eq, ?Z.eqb_neq in H
  end.
Ltac blia := bool_hyps; lia.

Lemma u8_range x : 0 <= u8 x < 256.
Proof. unfold u8. zlia. Qed.
Lemma u16_range x : 0 <= u16 x < 65536.
Proof. unfold u16. zlia. Qed.
Lemma u32_range x : 0 <= u32 x < 4294967296.
Proof. unfold u32. zlia. Qed.
Lemma u64_range x : 0 <= u64 x < 18446744073709551616.
Proof. unfold u64. zlia. Qed.
Lemma u8_small x : 0 <= x < 256 -> u8 x = x.
Proof. apply Z.mod_small. Qed.
Lemma u16_small x : 0 <= x < 65536 -> u16 x = x.
Proof. apply Z.mod_small. Qed.
Lemma u32_small x : 0 <= x < 4294967296 -> u32 x = x.
Proof. apply Z.mod_small. Qed.
Lemma u64_small x : 0 <= x < 18446744073709551616 -> u64 x = x.
Proof. apply Z.mod_small. Qed.
Lemma u32_idem x : u32 (u32 x) = u32 x.
Proof. apply u32_small, u32_range. Qed.
Lemma u64_idem x : u64 (u64 x) = u64 x.
Proof. apply u64_small, u64_range. Qed.
Lemma s32_range x : -2147483648 <= s32 x < 2147483648.
Proof. unfold s32. pose proof (u32_range x). case_match eqn:E; lia. Qed.
Lemma s32_small x : -2147483648 <= x < 2147483648 -> s32 x = x.
Proof. unfold s32, u32. intros. case_match eqn:E; zlia. Qed.
Lemma s32_u32 x : s32 (u32 x) = s32 x.
Proof. unfold s32. by rewrite u32_idem. Qed.

Lemma land_low_high a b n : 0 <= n -> 0 <= b < 2 ^ n -> Z.land (a * 2 ^ n) b = 0.
Proof.
  intros Hn Hb. apply Z.bits_inj'. intros i Hi. rewrite Z.land_spec, Z.bits_0.
  destruct (Z.lt_ge_cases i n).
  - by rewrite Z.mul_pow2_bits_low by lia.
  - rewrite <- (Z.mod_small b (2 ^ n)) by lia.
    rewrite Z.mod_pow2_bits_high by lia. by rewrite andb_false_r.
Qed.

(** Disjoint bit fields: [|] is addition. *)
Lemma lor_low_high a b n : 0 <= n -> 0 <= b < 2 ^ n -> Z.lor (a * 2 ^ n) b = a * 2 ^ n + b.
Proof.
  intros Hn Hb. pose proof (land_low_high a b n Hn Hb) as H.
  by rewrite <- Z.lxor_lor, <- Z.add_nocarry_lxor.
Qed.

Lemma bits_bound n x : 0 <= n -> 0 <= x -> (forall i, n <= i -> Z.testbit x i = false) ->
  0 <= x < 2 ^ n.
Proof.
  intros Hn Hx Hb. rewrite <- (Z.land_ones_low x (Z.max n (Z.succ (Z.log2 x)))) by lia.
  replace (Z.land x _) with (Z.land x (Z.ones n)).
  - rewrite Z.land_ones by done. apply Z.mod_pos_bound. lia.
  - apply Z.bits_inj'. intros i Hi. rewrite !Z.land_spec, !Z.testbit_ones_nonneg by lia.
    destruct (Z.lt_ge_cases i n); [|by rewrite Hb by lia].
    by rewrite !(proj2 (Z.ltb_lt _ _)) by lia.
Qed.

Lemma bits_above n x i : 0 <= x < 2 ^ n -> 0 <= n <= i -> Z.testbit x i = false.
Proof. intros Hx Hi. rewrite <- (Z.mod_small x (2 ^ n)) by done. apply Z.mod_pow2_bits_high. lia. Qed.

(** Bitwise operations stay within the width of their operands. *)
Lemma lor_range n a b : 0 <= n -> 0 <= a < 2 ^ n -> 0 <= b < 2 ^ n -> 0 <= Z.lor a b < 2 ^ n.
Proof.
  intros Hn Ha Hb. apply bits_bound; [done|apply Z.lor_nonneg; lia|]. intros i Hi.
  by rewrite Z.lor_spec, !(bits_above n) by lia.
Qed.

Lemma land_range n a b : 0 <= n -> 0 <= a < 2 ^ n -> 0 <= Z.land a b < 2 ^ n.
Proof.
  intros Hn Ha. apply bits_bound; [done|apply Z.land_nonneg; lia|]. intros i Hi.
  by rewrite Z.land_spec, (bits_above n) by lia.
Qed.

Create HintDb kint.
Create Rewrite HintDb kint.
#[export] Hint Rewrite u32_idem u64_idem s32_u32 : kint.
#[export] Hint Resolve u8_range u16_range u32_range u64_range s32_range : kint.

(** * Byte-addressed memory *)

(** The memory the kernel addresses directly: an address gives a byte. *)
Definition ram : Type := Z -> Z.

Definition in_range (a n x : Z) : bool := (a <=? x) && (x <? a + n).

Definition load_bytes (m : ram) (a : Z) (n : nat) : list Z :=
  (fun i => u8 (m (a + Z.of_nat i))) <$> seq 0 n.

Definition store_bytes (m : ram) (a : Z) (l : list Z) : ram := fun x =>
  if in_range a (Z.of_nat (length l)) x then nth (Z.to_nat (x - a)) l 0 else m x.

(** [n] bytes equal to [c] from [a] on. *)
Definition fill_bytes (m : ram) (a n c : Z) : ram := fun x =>
  if in_range a n x then c else m x.

(** [n] bytes copied from [src] to [dst], all read before the first is written. *)
Definition blit_bytes (m : ram) (dst src n : Z) : ram := fun x =>
  if in_range dst n x then m (src + (x - dst)) else m x.

(** Little-endian numbers. *)
Fixpoint le_bytes (n : nat) (v : Z) : list Z :=
  match n with
  | O => []
  | S n' => v mod 256 :: le_bytes n' (v / 256)
  end.

Definition le_val (l : list Z) : Z := foldr (fun b acc => b + 256 * acc) 0 l.

Definition load64 (m : ram) (a : Z) : Z := le_val (load_bytes m a 8).
Definition store64 (m : ram) (a v : Z) : ram := store_bytes m a (le_bytes 8 v).

Section Memory.
Implicit Types (m : ram) (a b v x : Z).

Lemma length_le_bytes n v : length (le_bytes n v) = n.
Proof. revert v. induction n as [|n IH]; intros v; cbn; [done|by rewrite IH]. Qed.

Lemma le_val_le_bytes n v : le_val (le_bytes n v) = v mod 256 ^ Z.of_nat n.
Proof.
  revert v. induction n as [|n IH]; intros v.
  - cbn. by rewrite Z.mod_1_r.
  - cbn [le_bytes]. change (le_val (?b :: ?l)) with (b + 256 * le_val l).
    rewrite IH, Nat2Z.inj_succ, Z.pow_succ_r by lia.
    rewrite Z.rem_mul_r by lia. lia.
Qed.

Lemma le_val_range l : Forall (fun b => 0 <= b < 256) l ->
  0 <= le_val l < 256 ^ Z.of_nat (length l).
Proof.
  induction 1 as [|b l Hb _ IH]; [done|].
  change (le_val (b :: l)) with (b + 256 * le_val l).
  cbn [length]. rewrite Nat2Z.inj_succ, Z.pow_succ_r by lia. lia.
Qed.

Lemma le_bytes_range n v : Forall (fun b => 0 <= b < 256) (le_bytes n v).
Proof. revert v. induction n; intros v; cbn; constructor; [zlia|done]. Qed.

Lemma length_load_bytes m a n : length (load_bytes m a n) = n.
Proof. unfold load_bytes. by rewrite length_fmap, length_seq. Qed.

Lemma load_bytes_range m a n : Forall (fun b => 0 <= b < 256) (load_bytes m a n).
Proof. apply Forall_fmap, Forall_true. intros i. apply u8_range. Qed.

Lemma in_range_true a n x : in_range a n x = true <-> a <= x < a + n.
Proof. unfold in_range. rewrite andb_true_iff. lia. Qed.
Lemma in_range_false a n x : in_range a n x = false <-> ~ (a <= x < a + n).
Proof. rewrite <- in_range_true. by destruct (in_range a n x). Qed.

Lemma store_bytes_in m a l x : a <= x < a + Z.of_nat (length l) ->
  store_bytes m a l x = nth (Z.to_nat (x - a)) l 0.
Proof. intros H. unfold store_bytes. by rewrite (proj2 (in_range_true _ _ _)). Qed.
Lemma store_bytes_out m a l x : ~ (a <= x < a + Z.of_nat (length l)) ->
  store_bytes m a l x = m x.
Proof. intros H. unfold store_bytes. by rewrite (proj2 (in_range_false _ _ _)). Qed.
Lemma fill_bytes_in m a n c x : a <= x < a + n -> fill_bytes m a n c x = c.
Proof. intros H. unfold fill_bytes. by rewrite (proj2 (in_range_true _ _ _)). Qed.
Lemma fill_bytes_out m a n c x : ~ (a <= x < a + n) -> fill_bytes m a n c x = m x.
Proof. intros H. unfold fill_bytes. by rewrite (proj2 (in_range_false _ _ _)). Qed.
Lemma blit_bytes_in m d s n x : d <= x < d + n -> blit_bytes m d s n x = m (s + (x - d)).
Proof. intros H. unfold blit_bytes. by rewrite (proj2 (in_range_true _ _ _)). Qed.
Lemma blit_bytes_out m d s n x : ~ (d <= x < d + n) -> blit_bytes m d s n x = m x.
Proof. intros H. unfold blit_bytes. by rewrite (proj2 (in_range_false _ _ _)). Qed.

Lemma load_bytes_ext m m' a n :
  (forall x, a <= x < a + Z.of_nat n -> m x = m' x) ->
  load_bytes m a n = load_bytes m' a n.
Proof.
  intros H. unfold load_bytes. apply list_fmap_ext. intros i x Hx.
  apply lookup_seq in Hx as [-> ?]. rewrite H by lia. done.
Qed.

Lemma load64_ext m m' a :
  (forall x, a <= x < a + 8 -> m x = m' x) -> load64 m a = load64 m' a.
Proof. intros H. unfold load64. by rewrite (load_bytes_ext m m') by (intros; apply H; lia). Qed.

Lemma load64_range m a : 0 <= load64 m a < 18446744073709551616.
Proof.
  pose proof (le_val_range _ (load_bytes_range m a 8)) as H.
  rewrite length_load_bytes in H. exact H.
Qed.

Lemma load_store_bytes m a l : Forall (fun b => 0 <= b < 256) l ->
  load_bytes (store_bytes m a l) a (length l) = l.
Proof.
  intros Hl. apply list_eq. intros i. unfold load_bytes. rewrite list_lookup_fmap.
  destruct (decide (i < length l)%nat) as [Hi|Hi].
  - rewrite lookup_seq_lt by lia. cbn. rewrite store_bytes_in by lia.
    replace (Z.to_nat (a + Z.of_nat i - a)) with i by lia.
    destruct (lookup_lt_is_Some_2 l i Hi) as [b Hb]. rewrite Hb.
    rewrite (nth_lookup_Some _ _ _ _ Hb), u8_small; [done|].
    by apply (Forall_lookup_1 _ _ _ _ Hl Hb).
  - rewrite (lookup_ge_None_2 l) by lia. rewrite lookup_seq_ge by lia. done.
Qed.

Lemma load_store64_same m a v : load64 (store64 m a v) a = u64 v.
Proof.
  unfold load64, store64. rewrite <- (length_le_bytes 8 v) at 2.
  rewrite load_store_bytes by apply le_bytes_range. apply le_val_le_bytes.
Qed.

Lemma store64_out m a v x : ~ (a <= x < a + 8) -> store64 m a v x = m x.
Proof. intros. apply store_bytes_out. by rewrite length_le_bytes. Qed.

Lemma load_store64_other m a b v : a + 8 <= b \/ b + 8 <= a ->
  load64 (store64 m a v) b = load64 m b.
Proof. intros. apply load64_ext. intros. apply store64_out. lia. Qed.

Lemma load64_fill0 m a n b : a <= b -> b + 8 <= a + n ->
  load64 (fill_bytes m a n 0) b = 0.
Proof.
  intros. transitivity (load64 (fun _ => 0) b); [|done].
  apply load64_ext. intros. apply fill_bytes_in. lia.
Qed.
End Memory.

Create Rewrite HintDb kmem.
#[export] Hint Rewrite load_store64_same length_le_bytes length_load_bytes : kmem.

#[global] Arguments u8 _ : simpl never.
#[global] Arguments u16 _ : simpl never.
#[global] Arguments u32 _ : simpl never.
#[global] Arguments u64 _ : simpl never.
#[global] Arguments s32 _ : simpl never.
#[global] Arguments load64 _ _ : simpl never.
#[global] Arguments store64 _ _ _ _ : simpl never.
#[global] Arguments store_bytes _ _ _ _ : simpl never.
#[global] Arguments fill_bytes _ _ _ _ _ : simpl never.
#[global] Arguments blit_bytes _ _ _ _ _ : simpl never.

(** * Ring buffers *)

(** 32-bit counters that may wrap around. *)
Lemma u32_sub r n : 0 <= n < 4294967296 -> u32 (u32 (r + n) - r) = n.
Proof. unfold u32. intros. rewrite Zminus_mod_idemp_l. replace (r + n - r) with n by lia. by apply Z.mod_small. Qed.
Lemma u32_succ x : u32 (u32 x + 1) = u32 (x + 1).
Proof. unfold u32. apply Zplus_mod_idemp_l. Qed.
Lemma u32_pred x : u32 (u32 x - 1) = u32 (x - 1).
Proof. unfold u32. apply Zminus_mod_idemp_l. Qed.
Lemma u32_mod N x : (N | 4294967296) -> u32 x mod N = x mod N.
Proof. apply Z.mod_mod_divide. Qed.

(** The array [buf] of [N] elements holds [q], the first one at the counter [r]. *)
Definition ring (N : Z) (buf : list Z) (r : Z) (q : list Z) : Prop :=
  Z.of_nat (length buf) = N /\ Z.of_nat (length q) <= N /\
  forall j x, q !! j = Some x -> buf !! Z.to_nat ((r + Z.of_nat j) mod N) = Some x.

Section Ring.
Context (N : Z) (HN : 0 < N) (buf : list Z) (r : Z).

Lemma ring_lookup q j x : ring N buf r q -> q !! j = Some x ->
  buf !! Z.to_nat ((r + Z.of_nat j) mod N) = Some x.
Proof. intros (_ & _ & H). apply H. Qed.

Lemma ring_index i : ring N buf r [] -> (Z.to_nat (i mod N) < length buf)%nat.
Proof. intros (Hl & _). pose proof (Z.mod_pos_bound i N HN). lia. Qed.

Lemma ring_nil q : ring N buf r q -> ring N buf r [].
Proof. intros (Hl & _). split_and!; [done|cbn; lia|done]. Qed.

Lemma ring_push q x e : Z.of_nat (length q) < N -> e mod N = (r + Z.of_nat (length q)) mod N ->
  ring N buf r q -> ring N (<[Z.to_nat (e mod N) := x]> buf) r (q ++ [x]).
Proof.
  intros Hq He (Hl & _ & Hby). pose proof (Z.mod_pos_bound (r + Z.of_nat (length q)) N HN). rewrite He.
  split_and!; [by rewrite length_insert|rewrite length_app; cbn; lia|]. intros j y Hj.
  destruct (decide (j < length q)%nat) as [Hlt|Hge].
  - rewrite lookup_app_l in Hj by done. pose proof (Z.mod_pos_bound (r + Z.of_nat j) N HN).
    rewrite list_lookup_insert_ne; [by apply Hby|]. intros Heq.
    assert ((r + Z.of_nat (length q)) mod N = (r + Z.of_nat j) mod N) as Hm by lia.
    apply (f_equal (fun z => (z - r) mod N)) in Hm. rewrite !Zminus_mod_idemp_l in Hm.
    rewrite !(Z.add_comm r), !Z.add_simpl_r, !Z.mod_small in Hm by lia. lia.
  - rewrite lookup_app_r in Hj by lia. apply list_lookup_singleton_Some in Hj as [Hj <-].
    replace j with (length q) by lia. apply list_lookup_insert_eq. lia.
Qed.

Lemma ring_head x q : ring N buf r (x :: q) -> buf !! Z.to_nat (r mod N) = Some x.
Proof. intros (_ & _ & H). rewrite <- (H 0%nat x eq_refl). by rewrite Z.add_0_r. Qed.

Lemma ring_pop r' x q : r' mod N = (r + 1) mod N -> ring N buf r (x :: q) -> ring N buf r' q.
Proof.
  intros Hr (Hl & Hs & H). split_and!; [done|cbn in Hs; lia|]. intros j y Hj.
  rewrite <- (H (S j) y Hj). do 2 f_equal. rewrite <- Zplus_mod_idemp_l, Hr, Zplus_mod_idemp_l. f_equal. lia.
Qed.

Lemma ring_prefix q q' : ring N buf r (q ++ q') -> ring N buf r q.
Proof.
  intros (Hl & Hs & H). rewrite length_app in Hs. split_and!; [done|lia|]. intros j y Hj.
  apply H. by apply lookup_app_l_Some.
Qed.
End Ring.

(** * The kernel monad *)

(** What running a kernel function from a world can come to.  [Panic] is a call of
    [panic()]; [Fault] is an access C leaves undefined (a null pointer, an index
    out of an array); [Blocked] is a process that sleeps and is not woken within
    the schedule at hand; [OutOfFuel] is a loop whose bound was too small. *)
Inductive res (W A : Type) : Type :=
| Ok (a : A) (w : W)
| Panic (msg : string) (w : W)
| Fault (msg : string) (w : W)
| Blocked (w : W)
| OutOfFuel.
Arguments Ok {W A} a w.
Arguments Panic {W A} msg w.
Arguments Fault {W A} msg w.
Arguments Blocked {W A} w.
Arguments OutOfFuel {W A}.

(** The value a run returned, [d] if it did not return. *)
Definition returns {W A} (m : res W A) (d : A) : A := match m with Ok r _ => r | _ => d end.

(** Whether a run returned. *)
Definition returned {W A} (m : res W A) : bool := match m with Ok _ _ => true | _ => false end.

Definition M (W A : Type) : Type := W -> res W A.

Section Operations.
Context {W : Type}.

Definition ret {A} (a : A) : M W A := fun w => Ok a w.
Definition bind {A B} (m : M W A) (f : A -> M W B) : M W B := fun w =>
  match m w with
  | Ok a w' => f a w'
  | Panic s w' => Panic s w'
  | Fault s w' => Fault s w'
  | Blocked w' => Blocked w'
  | OutOfFuel => OutOfFuel
  end.
Definition gets {A} (f : W -> A) : M W A := fun w => Ok (f w) w.
Definition modify (f : W -> W) : M W unit := fun w => Ok tt (f w).
Definition panic {A} (msg : string) : M W A := fun w => Panic msg w.
Definition fault {A} (msg : string) : M W A := fun w => Fault msg w.
Definition blocked {A} : M W A := fun w => Blocked w.
Definition out_of_fuel {A} : M W A := fun _ => OutOfFuel.
(** An access that is undefined behaviour when there is no value. *)
Definition from_option_or_fault {A} (msg : string) (o : option A) : M W A :=
  match o with Some a => ret a | None => fault msg end.

(** [if(b) m;] *)
Definition when (b : bool) (m : M W unit) : M W unit := if b then m else ret tt.

(** A [for] loop over [xs] without early exit. *)
Fixpoint for_do {X} (xs : list X) (body : X -> M W unit) : M W unit :=
  match xs with
  | [] => ret tt
  | x :: xs' => bind (body x) (fun _ => for_do xs' body)
  end.

(** A [for] loop over [xs] whose body may return from the function. *)
Fixpoint for_ret {X R} (xs : list X) (body : X -> M W (option R)) : M W (option R) :=
  match xs with
  | [] => ret None
  | x :: xs' => bind (body x) (fun r =>
      match r with Some a => ret (Some a) | None => for_ret xs' body end)
  end.

(** A [while] loop on local variables [s]: [inl] goes round again with the new
    values, [inr] leaves the loop. *)
Fixpoint loop {S R} (fuel : nat) (body : S -> M W (S + R)) (s : S) : M W R :=
  match fuel with
  | O => out_of_fuel
  | Datatypes.S n => bind (body s) (fun r =>
      match r with inl s' => loop n body s' | inr a => ret a end)
  end.
End Operations.

Declare Scope kern_scope.
Delimit Scope kern_scope with kern.
Notation "x <- m ;; k" := (bind m (fun x => k))
  (at level 62, m at next level, right associativity) : kern_scope.
Notation "'let!' p := m 'in' k" := (bind m (fun x => match x with p => k end))
  (at level 62, p pattern, m at level 60, k at level 62) : kern_scope.
Notation "m ;;; k" := (bind m (fun _ => k))
  (at level 62, right associativity) : kern_scope.
#[global] Open Scope kern_scope.

(** ** String literals *)

(** The bytes of a string literal. *)
Fixpoint bytes (s : string) : list Z :=
  match s with
  | EmptyString => []
  | String a s' => Z.of_nat (Ascii.nat_of_ascii a) :: bytes s'
  end.

(** A literal with its newline. *)
Definition line (s : string) : list Z := bytes s ++ [10].

(** ** Weakest preconditions *)

(** Which outcomes other than a return a property allows, and in what worlds. *)
Record xpost (W : Type) : Type := XPost {
  on_panic : string -> W -> Prop;
  on_fault : string -> W -> Prop;
  on_blocked : W -> Prop }.
Arguments XPost {W} _ _ _.
Arguments on_panic {W} _ _ _.
Arguments on_fault {W} _ _ _.
Arguments on_blocked {W} _ _.

(** The function returns: no panic, no undefined behaviour, no lost wakeup. *)
Definition total {W} : xpost W := XPost (fun _ _ => False) (fun _ _ => False) (fun _ => False).
(** The function returns or sleeps. *)
Definition may_sleep {W} : xpost W := XPost (fun _ _ => False) (fun _ _ => False) (fun _ => True).
(** The function returns, sleeps or calls [panic()]; it never has undefined behaviour. *)
Definition may_panic {W} : xpost W := XPost (fun _ _ => True) (fun _ _ => False) (fun _ => True).

(** Running [m] from [w] returns in a world that satisfies [Q], or ends in an
    outcome [E] allows.  A loop never runs out of fuel. *)
Definition wp {W A} (E : xpost W) (m : M W A) (Q : A -> W -> Prop) (w : W) : Prop :=
  match m w with
  | Ok a w' => Q a w'
  | Panic s w' => on_panic E s w'
  | Fault s w' => on_fault E s w'
  | Blocked w' => on_blocked E w'
  | OutOfFuel => False
  end.

Section WpRules.
Context {W : Type} (E : xpost W).

Lemma wp_ret {A} (a : A) (Q : A -> W -> Prop) w : Q a w -> wp E (ret a) Q w.
Proof. done. Qed.

Lemma wp_bind {A B} (m : M W A) (f : A -> M W B) Q w :
  wp E m (fun a w' => wp E (f a) Q w') w -> wp E (bind m f) Q w.
Proof. unfold wp, bind. by destruct (m w). Qed.

Lemma wp_gets {A} (f : W -> A) (Q : A -> W -> Prop) w : Q (f w) w -> wp E (gets f) Q w.
Proof. done. Qed.

Lemma wp_modify (f : W -> W) (Q : unit -> W -> Prop) w : Q tt (f w) -> wp E (modify f) Q w.
Proof. done. Qed.

Lemma wp_when b (m : M W unit) (Q : unit -> W -> Prop) w :
  (b = true -> wp E m Q w) -> (b = false -> Q tt w) -> wp E (when b m) Q w.
Proof. intros H1 H2. destruct b; [by apply H1|by apply wp_ret, H2]. Qed.

Lemma wp_mono {A} (m : M W A) (Q Q' : A -> W -> Prop) w :
  wp E m Q w -> (forall a w', Q a w' -> Q' a w') -> wp E m Q' w.
Proof. unfold wp. destruct (m w); auto. Qed.

Lemma wp_and {A} (m : M W A) (Q Q' : A -> W -> Prop) w :
  wp E m Q w -> wp E m Q' w -> wp E m (fun a w' => Q a w' /\ Q' a w') w.
Proof. unfold wp. destruct (m w); auto. Qed.

Lemma wp_Ok {A} (m : M W A) (Q : A -> W -> Prop) w a w' :
  m w = Ok a w' -> Q a w' -> wp E m Q w.
Proof. unfold wp. by intros ->. Qed.

(** The loop over a list keeps an invariant indexed by what is left to do. *)
Lemma wp_for_do {X} (I : list X -> W -> Prop) (body : X -> M W unit) xs (Q : unit -> W -> Prop) w :
  I xs w ->
  (forall x xs' w', I (x :: xs') w' -> wp E (body x) (fun _ w'' => I xs' w'') w') ->
  (forall w', I [] w' -> Q tt w') ->
  wp E (for_do xs body) Q w.
Proof.
  intros HI Hb HQ. revert w HI. induction xs as [|x xs IH]; intros w HI; cbn [for_do].
  - apply wp_ret. auto.
  - apply wp_bind. eapply wp_mono; [by apply Hb|]. intros [] w' H. cbn. auto.
Qed.

Lemma wp_for_ret {X R} (I : list X -> W -> Prop) (body : X -> M W (option R)) xs
    (Q : option R -> W -> Prop) w :
  I xs w ->
  (forall x xs' w', I (x :: xs') w' ->
    wp E (body x) (fun r w'' =>
      match r with Some a => Q (Some a) w'' | None => I xs' w'' end) w') ->
  (forall w', I [] w' -> Q None w') ->
  wp E (for_ret xs body) Q w.
Proof.
  intros HI Hb HQ. revert w HI. induction xs as [|x xs IH]; intros w HI; cbn [for_ret].
  - apply wp_ret. auto.
  - apply wp_bind. eapply wp_mono; [by apply Hb|].
    intros [a|] w' H; cbn; [by apply wp_ret|auto].
Qed.

(** A loop over an array that skips the elements without [P] and returns at the first
    one with it. *)
Lemma wp_scan_list {X R} (P : X -> Prop) `{!forall x, Decision (P x)} (l : list X)
    (body : nat -> M W (option R)) (Q : option R -> W -> Prop) w :
  (forall i x, l !! i = Some x -> ~ P x -> wp E (body i) (fun r w' => r = None /\ w' = w) w) ->
  (forall i x, list_find P l = Some (i, x) -> l !! i = Some x -> P x ->
    wp E (body i) (fun r w' => r <> None /\ Q r w') w) ->
  (list_find P l = None -> Q None w) ->
  wp E (for_ret (seq 0 (length l)) body) Q w.
Proof.
  intros Hno Hyes Hend.
  apply (wp_for_ret (fun xs w' => w' = w /\ exists j, (j <= length l)%nat /\
    xs = seq j (length l - j) /\ forall i x, (i < j)%nat -> l !! i = Some x -> ~ P x)).
  - split; [done|]. exists 0%nat. split; [lia|]. split; [by rewrite Nat.sub_0_r|lia].
  - intros i xs w' (-> & j & Hj & Hxs & Hbefore).
    destruct (decide (j = length l)) as [->|Hn]; [by rewrite Nat.sub_diag in Hxs|].
    replace (length l - j)%nat with (S (length l - S j)) in Hxs by lia. injection Hxs as -> ->.
    destruct (lookup_lt_is_Some_2 l j) as [x Hx]; [lia|].
    destruct (decide (P x)) as [HP|HP].
    + assert (Hf : list_find P l = Some (j, x)).
      { apply list_find_Some. split_and!; [done..|]. intros i y Hy Hi. by apply (Hbefore i). }
      eapply wp_mono; [by apply (Hyes j x)|]. by intros [a|] w' [? ?].
    + eapply wp_mono; [by apply (Hno j x)|]. intros r w' [-> ->]. split; [done|].
      exists (S j). split; [lia|]. split; [done|]. intros i q Hi Hq.
      destruct (decide (i = j)) as [->|]; [congruence|]. apply (Hbefore i q); [lia|done].
  - intros w' (-> & j & Hj & Hxs & Hbefore). apply Hend, list_find_None, Forall_lookup.
    intros i x Hx. apply (Hbefore i); [|done].
    apply (f_equal length) in Hxs. rewrite length_seq in Hxs. cbn [length] in Hxs.
    apply lookup_lt_Some in Hx. lia.
Qed.

(** A [while] loop with an invariant and a measure that decreases; the fuel is
    enough when it exceeds the measure. *)
Lemma wp_loop {S R} (I : S -> W -> Prop) (mu : S -> W -> nat)
    (body : S -> M W (S + R)) fuel s (Q : R -> W -> Prop) w :
  I s w -> (mu s w < fuel)%nat ->
  (forall s w, I s w ->
    wp E (body s) (fun r w' =>
      match r with
      | inl s' => I s' w' /\ (mu s' w' < mu s w)%nat
      | inr a => Q a w'
      end) w) ->
  wp E (loop fuel body s) Q w.
Proof.
  intros HI Hmu Hb. revert s w HI Hmu.
  induction fuel as [|fuel IH]; intros s w HI Hmu; [lia|].
  cbn [loop]. apply wp_bind. eapply wp_mono; [by apply Hb|].
  intros [s'|a] w'; cbn; [|by intros; apply wp_ret].
  intros [HI' Hlt]. apply IH; [done|lia].
Qed.

(** The same with the number of rounds left as part of the invariant. *)
Lemma wp_loop_rounds {S R} (I : nat -> S -> W -> Prop) (body : S -> M W (S + R)) fuel n s (Q : R -> W -> Prop) w :
  I n s w -> (n < fuel)%nat ->
  (forall n s w, I n s w ->
    wp E (body s) (fun r w' => match r with inl s' => exists n', (n' < n)%nat /\ I n' s' w' | inr a => Q a w' end) w) ->
  wp E (loop fuel body s) Q w.
Proof.
  intros HI Hn Hb. revert n s w HI Hn. induction fuel as [|fuel IH]; intros n s w HI Hn; [lia|].
  cbn [loop]. apply wp_bind. eapply wp_mono; [by apply Hb|].
  intros [s'|a] w'; cbn; [|by intros; apply wp_ret]. intros (n' & Hlt & HI'). apply (IH n'); [done|lia].
Qed.
End WpRules.

Lemma wp_weaken {W A} (E E' : xpost W) (m : M W A) (Q : A -> W -> Prop) w :
  (forall s w, on_panic E s w -> on_panic E' s w) ->
  (forall s w, on_fault E s w -> on_fault E' s w) ->
  (forall w, on_blocked E w -> on_blocked E' w) ->
  wp E m Q w -> wp E' m Q w.
Proof. unfold wp. destruct (m w); auto. Qed.

Lemma wp_total {W A} (E : xpost W) (m : M W A) (Q : A -> W -> Prop) w :
  wp total m Q w -> wp E m Q w.
Proof. apply wp_weaken; done. Qed.

Lemma wp_total_Ok {W A} (m : M W A) (Q : A -> W -> Prop) w :
  wp total m Q w -> exists a w', m w = Ok a w' /\ Q a w'.
Proof. unfold wp. destruct (m w); cbn; try done. eauto. Qed.

(** The only outcome allowed is [r]: running [m] step by step proves [m w = r]. *)
Definition exactly {W A} (r : res W A) : xpost W :=
  XPost (fun s w' => Panic s w' = r) (fun s w' => Fault s w' = r) (fun w' => Blocked w' = r).
Lemma wp_exact {W A} (m : M W A) w (r : res W A) :
  wp (exactly r) m (fun a w' => Ok a w' = r) w -> m w = r.
Proof. unfold wp. by destruct (m w). Qed.

Lemma wp_panic {W A} (E : xpost W) s (Q : A -> W -> Prop) w : on_panic E s w -> wp E (panic s) Q w.
Proof. done. Qed.
Lemma wp_fault {W A} (E : xpost W) s (Q : A -> W -> Prop) w : on_fault E s w -> wp E (fault s) Q w.
Proof. done. Qed.

Lemma wp_returned {W A} E (m : M W A) (Q : A -> W -> Prop) w :
  wp E m Q w -> returned (m w) = true -> exists a w', m w = Ok a w' /\ Q a w'.
Proof. unfold wp. destruct (m w); [eauto|done..]. Qed.

Lemma wp_blocked {W A} E (m : M W A) Q (w : W) : wp E m Q w -> (if m w is Blocked _ then true else false) = true ->
  exists w', m w = Blocked w' /\ on_blocked E w'.
Proof. unfold wp. destruct (m w); intros H He; try done. eauto. Qed.

Lemma bind_Ok {W A B} (m : M W A) (f : A -> M W B) w a w' :
  m w = Ok a w' -> bind m f w = f a w'.
Proof. unfold bind. by intros ->. Qed.

(** One step of symbolic execution of a [wp] goal. *)
Ltac wp_step :=
  lazymatch goal with
  | |- wp _ (bind _ _) _ _ => apply wp_bind
  | |- wp _ (ret _) _ _ => apply wp_ret
  | |- wp _ (gets _) _ _ => apply wp_gets
  | |- wp _ (modify _) _ _ => apply wp_modify
  | |- wp _ (when _ _) _ _ => apply wp_when; intros ?
  | |- wp ?E (if ?b then ?m1 else ?m2) ?Q ?w =>
    let b' := eval cbn in b in
    lazymatch b' with
    | true => change (wp E m1 Q w)
    | false => change (wp E m2 Q w)
    | _ => destruct b eqn:?
    end
  | |- wp _ (match ?x with _ => _ end) _ _ => destruct x eqn:?
  end; cbn beta iota.
Ltac wp_steps := repeat wp_step.

Create HintDb kwp.
#[export] Hint Resolve wp_ret wp_gets wp_modify : kwp.

(** * Record update *)

(** [set_field p f r] is [r] with [f] applied to its field [p]; each record of the
    development has one instance per field. *)
Class Setter {R T : Type} (proj : R -> T) : Type := set_field : (T -> T) -> R -> R.
Arguments set_field {R T} proj {_} f r /.

Notation "r <| p := v |>" := (set_field p (fun _ => v) r)
  (at level 1, left associativity, p constr at level 9,
   format "r  <| p  :=  v |>") : kern_scope.
Notation "r <| p ::= f |>" := (set_field p f r)
  (at level 1, left associativity, p constr at level 9,
   format "r  <| p  ::=  f |>") : kern_scope.

(** [derive_setter eta]: the setter of a field, from the record's expansion
    [eta := fun r => Mk (p1 r) ... (pn r)]. *)
Ltac derive_setter eta :=
  lazymatch goal with
  | |- @Setter ?R ?T ?proj =>
    let e := eval unfold eta in eta in
    let e' := eval pattern proj in e in
    lazymatch e' with
    | ?g _ => let t := eval cbv beta in (fun (f : T -> T) (r : R) => g (fun r => f (proj r)) r) in
              exact t
    end
  end.
