(* ===== verification/Riscv.v ===== *)
(** The RISC-V page-table and address macros of kernel/riscv.h and the constants of
    kernel/param.h and kernel/memlayout.h, on 64-bit unsigned integers. *)

From S2P Require Export Prelude.

(** * kernel/param.h *)
Definition NPROC : nat := 64.
Definition NCPU : nat := 8.
Definition NOFILE : nat := 16.
Definition NFILE : nat := 100.
Definition NINODE : nat := 50.
Definition NDEV : Z := 10.
Definition ROOTDEV : Z := 1.
Definition MAXARG : Z := 32.
Definition MAXOPBLOCKS : Z := 10.
Definition LOGSIZE : Z := MAXOPBLOCKS * 3.
Definition NBUF : nat := 30.
Definition FSSIZE : Z := 2000.
Definition MAXPATH : Z := 128.
Definition PBS_DEF_SP : Z := 50.
Definition PBS_DEF_RBI : Z := 25.
Definition PBS_DEF_DP : Z := PBS_DEF_SP + PBS_DEF_RBI.

(** * kernel/riscv.h *)
Definition PGSIZE : Z := 4096.
Definition PGROUNDUP (sz : Z) : Z := Z.land (u64 (sz + PGSIZE - 1)) (Z.lnot (PGSIZE - 1)).
Definition PGROUNDDOWN (a : Z) : Z := Z.land (u64 a) (Z.lnot (PGSIZE - 1)).

Definition PTE_V : Z := 1.
Definition PTE_R : Z := 2.
Definition PTE_W : Z := 4.
Definition PTE_X : Z := 8.
Definition PTE_U : Z := 16.
Definition PTE_COW : Z := 32.

Definition PA2PTE (pa : Z) : Z := u64 (Z.shiftl (Z.shiftr (u64 pa) 12) 10).
Definition PTE2PA (pte : Z) : Z := u64 (Z.shiftl (Z.shiftr pte 10) 12).
Definition PTE_FLAGS (pte : Z) : Z := Z.land pte 1023.

Definition PXMASK : Z := 511.
Definition PXSHIFT (level : Z) : Z := 12 + 9 * level.
Definition PX (level va : Z) : Z := Z.land (Z.shiftr (u64 va) (PXSHIFT level)) PXMASK.
Definition MAXVA : Z := 2 ^ (9 + 9 + 9 + 12 - 1).

Definition SATP_SV39 : Z := 2 ^ 63.
Definition MAKE_SATP (pagetable : Z) : Z := Z.lor SATP_SV39 (Z.shiftr pagetable 12).
Definition SSTATUS_SPP : Z := 256.
Definition SSTATUS_SPIE : Z := 32.

(** [flags & f] as a condition. *)
Definition has (flags f : Z) : bool := negb (Z.land flags f =? 0).

(** * kernel/memlayout.h *)
Definition UART0 : Z := 268435456.
Definition UART0_IRQ : Z := 10.
Definition VIRTIO0 : Z := 268439552.
Definition VIRTIO0_IRQ : Z := 1.
Definition PLIC : Z := 201326592.
Definition PLIC_SENABLE (hart : Z) : Z := PLIC + 8320 + hart * 256.
Definition PLIC_SPRIORITY (hart : Z) : Z := PLIC + 2101248 + hart * 8192.
Definition PLIC_SCLAIM (hart : Z) : Z := PLIC + 2101252 + hart * 8192.
Definition KERNBASE : Z := 2147483648.
Definition PHYSTOP : Z := KERNBASE + 128 * 1024 * 1024.
Definition TRAMPOLINE : Z := MAXVA - PGSIZE.
Definition KSTACK (p : Z) : Z := TRAMPOLINE - (p + 1) * 2 * PGSIZE.
Definition TRAPFRAME : Z := TRAMPOLINE - PGSIZE.

(** * Page-table arithmetic *)

Lemma land_lnot_pow2 a n : 0 <= n -> Z.land a (Z.lnot (2 ^ n - 1)) = a - a mod 2 ^ n.
Proof.
  intros Hn. rewrite <- Z.ldiff_land.
  replace (2 ^ n - 1) with (Z.ones n) by (rewrite Z.ones_equiv; lia).
  rewrite Z.ldiff_ones_r, Z.shiftl_mul_pow2, Z.shiftr_div_pow2 by lia.
  pose proof (Z.div_mod a (2 ^ n)). lia.
Qed.

Lemma PGROUNDDOWN_eq a : 0 <= a < 2 ^ 64 -> PGROUNDDOWN a = a - a mod 4096.
Proof.
  intros H. unfold PGROUNDDOWN. rewrite u64_small by lia.
  change (PGSIZE - 1) with (2 ^ 12 - 1). by rewrite land_lnot_pow2.
Qed.

Lemma PGROUNDUP_eq a : 0 <= a < 2 ^ 64 - 4095 ->
  PGROUNDUP a = (a + 4095) - (a + 4095) mod 4096.
Proof.
  intros H. unfold PGROUNDUP. change (PGSIZE - 1) with (2 ^ 12 - 1).
  rewrite land_lnot_pow2 by lia. unfold PGSIZE.
  replace (a + 4096 - 1) with (a + 4095) by lia. by rewrite u64_small by lia.
Qed.

Lemma PGROUNDUP_aligned a : 0 <= a < 2 ^ 64 - 4095 -> PGROUNDUP a mod 4096 = 0.
Proof. intros. rewrite PGROUNDUP_eq by done. zlia. Qed.

Lemma PGROUNDUP_bounds a : 0 <= a < 2 ^ 64 - 4095 ->
  a <= PGROUNDUP a < a + 4096.
Proof. intros. rewrite PGROUNDUP_eq by done. zlia. Qed.

Lemma PGROUNDDOWN_bounds a : 0 <= a < 2 ^ 64 ->
  PGROUNDDOWN a <= a < PGROUNDDOWN a + 4096.
Proof. intros. rewrite PGROUNDDOWN_eq by done. zlia. Qed.

Lemma PGROUNDDOWN_aligned a : 0 <= a < 2 ^ 64 -> PGROUNDDOWN a mod 4096 = 0.
Proof. intros. rewrite PGROUNDDOWN_eq by done. zlia. Qed.

Lemma PX_eq level va : 0 <= level <= 2 -> 0 <= va < 2 ^ 64 ->
  PX level va = va / 2 ^ (12 + 9 * level) mod 512.
Proof.
  intros Hl Hv. unfold PX, PXSHIFT. rewrite u64_small by lia.
  change PXMASK with (Z.ones 9). rewrite Z.land_ones by lia.
  by rewrite Z.shiftr_div_pow2 by lia.
Qed.

Lemma PX_range level va : 0 <= PX level va < 512.
Proof.
  unfold PX. change PXMASK with (Z.ones 9). rewrite Z.land_ones by lia.
  apply Z.mod_pos_bound. lia.
Qed.

(** Two page-aligned user addresses with the same three indices are the same page. *)
Lemma PX_inj va vb : 0 <= va < MAXVA -> 0 <= vb < MAXVA ->
  va mod 4096 = 0 -> vb mod 4096 = 0 ->
  PX 0 va = PX 0 vb -> PX 1 va = PX 1 vb -> PX 2 va = PX 2 vb -> va = vb.
Proof.
  unfold MAXVA. cbn [Z.add]. intros Ha Hb. rewrite !PX_eq by lia. cbn [Z.mul Z.add].
  change (2 ^ (12 + 0)) with 4096. change (2 ^ (12 + 9)) with 2097152.
  change (2 ^ (12 + 18)) with 1073741824. change (2 ^ (27 + 12 - 1)) with 274877906944 in *.
  intros. zlia.
Qed.

Lemma PTE_FLAGS_eq pte : PTE_FLAGS pte = pte mod 1024.
Proof. unfold PTE_FLAGS. change 1023 with (Z.ones 10). by rewrite Z.land_ones. Qed.

Lemma PTE_FLAGS_range pte : 0 <= PTE_FLAGS pte < 1024.
Proof. rewrite PTE_FLAGS_eq. zlia. Qed.

Lemma PA2PTE_eq pa : 0 <= pa < 2 ^ 64 -> PA2PTE pa = pa / 4096 * 1024.
Proof.
  intros. unfold PA2PTE. rewrite u64_small with (x := pa) by lia.
  rewrite Z.shiftr_div_pow2, Z.shiftl_mul_pow2 by lia.
  change (2 ^ 12) with 4096. change (2 ^ 10) with 1024. rewrite u64_small; zlia.
Qed.

Lemma PTE2PA_eq pte : 0 <= pte < 2 ^ 62 -> PTE2PA pte = pte / 1024 * 4096.
Proof.
  intros. unfold PTE2PA. rewrite Z.shiftr_div_pow2, Z.shiftl_mul_pow2 by lia.
  change (2 ^ 12) with 4096. change (2 ^ 10) with 1024. rewrite u64_small; zlia.
Qed.

(** An entry built from a frame and flags, as a sum. *)
Lemma pte_lor pa flags : 0 <= pa < 2 ^ 56 -> 0 <= flags < 1024 ->
  Z.lor (PA2PTE pa) flags = pa / 4096 * 1024 + flags.
Proof.
  intros Hp Hf. rewrite PA2PTE_eq by lia. change 1024 with (2 ^ 10).
  by apply lor_low_high.
Qed.

(** The frame and the flags of an entry are independent of each other. *)
Lemma PTE2PA_lor pa flags : 0 <= pa < 2 ^ 56 -> pa mod 4096 = 0 -> 0 <= flags < 1024 ->
  PTE2PA (Z.lor (PA2PTE pa) flags) = pa.
Proof. intros. rewrite pte_lor, PTE2PA_eq by zlia. zlia. Qed.

Lemma PTE_FLAGS_lor pa flags : 0 <= pa < 2 ^ 56 -> 0 <= flags < 1024 ->
  PTE_FLAGS (Z.lor (PA2PTE pa) flags) = flags.
Proof. intros. rewrite pte_lor, PTE_FLAGS_eq by done. zlia. Qed.

Lemma pte_range pa flags : 0 <= pa < 2 ^ 56 -> 0 <= flags < 1024 ->
  0 <= Z.lor (PA2PTE pa) flags < 2 ^ 54.
Proof. intros. rewrite pte_lor by done. zlia. Qed.

(** An entry is its frame and its flags. *)
Lemma pte_split e : 0 <= e < 2 ^ 54 -> Z.lor (PA2PTE (PTE2PA e)) (PTE_FLAGS e) = e.
Proof.
  intros. rewrite PTE2PA_eq by lia. rewrite pte_lor; rewrite ?PTE_FLAGS_eq; zlia.
Qed.

Lemma PTE2PA_facts e : 0 <= e < 2 ^ 54 -> 0 <= PTE2PA e < 2 ^ 56 /\ PTE2PA e mod 4096 = 0.
Proof. intros. rewrite PTE2PA_eq by lia. zlia. Qed.

Create Rewrite HintDb kpte.
#[export] Hint Rewrite PTE2PA_lor PTE_FLAGS_lor using (cbn; lia) : kpte.

#[global] Arguments PGROUNDUP _ : simpl never.
#[global] Arguments PGROUNDDOWN _ : simpl never.
#[global] Arguments PA2PTE _ : simpl never.
#[global] Arguments PTE2PA _ : simpl never.
#[global] Arguments PTE_FLAGS _ : simpl never.
#[global] Arguments PX _ _ : simpl never.
#[global] Arguments has _ _ : simpl never.
