(* ===== verification/State.v ===== *)
(** The kernel's data: the structs of kernel/*.h and the globals of kernel/*.c.

    Every C struct is a [Record] with the fields of the source in their order;
    every global variable is a field of [kernel].  A pointer into a global array
    is the element's index ([option nat] where it can be null); a pointer to a
    page that [kalloc()] returned is the page's address.  Fields that only name
    a lock for debugging are left out.  A [world] is the kernel's state together
    with the schedule: what the other processes and the interrupt handlers do to
    the state each time this process gives up the CPU. *)

From S2P Require Export Prelude Riscv.

(** * Names of locks, sleep-locks and sleep channels *)

(** A sleep-lock is embedded in a buffer or in an inode. *)
Inductive slid : Type := SlBuf (i : nat) | SlInode (i : nat).

(** The spinlocks of the kernel. *)
Inductive lockid : Type :=
| LkKmem | LkPid | LkWait | LkProc (i : nat) | LkTicks | LkBcache | LkItable | LkFtable
| LkLog | LkCons | LkUart | LkPr | LkDisk | LkPipe (pi : Z) | LkSleep (s : slid).

(** Sleep channels: the distinct addresses given to [sleep()] and [wakeup()]. *)
Inductive chan : Type :=
| ChNone | ChProc (i : nat) | ChTicks | ChLog | ChPipeRead (pi : Z) | ChPipeWrite (pi : Z)
| ChCons | ChUart | ChSleep (s : slid) | ChDiskFree | ChBuf (i : nat).

#[export] Instance slid_eq_dec : EqDecision slid.
Proof. solve_decision. Defined.
#[export] Instance lockid_eq_dec : EqDecision lockid.
Proof. solve_decision. Defined.
#[export] Instance chan_eq_dec : EqDecision chan.
Proof. solve_decision. Defined.

(** * Enumerations *)

(** [enum procstate] of kernel/proc.h. *)
Inductive procstate : Type := UNUSED | USED | SLEEPING | RUNNABLE | RUNNING | ZOMBIE.
#[export] Instance procstate_eq_dec : EqDecision procstate.
Proof. solve_decision. Defined.

(** The type of a [struct file]. *)
Inductive filetype : Type := FD_NONE | FD_PIPE | FD_INODE | FD_DEVICE.
#[export] Instance filetype_eq_dec : EqDecision filetype.
Proof. solve_decision. Defined.

(** [prev]/[next] of a buffer: the list head or a buffer. *)
Inductive bptr : Type := BHead | BBuf (i : nat).
#[export] Instance bptr_eq_dec : EqDecision bptr.
Proof. solve_decision. Defined.

(** What [devsw[major]] holds: xv6 has one device, the console. *)
Inductive device : Type := DevConsole.

(** * Processes (kernel/proc.h) *)

(** Saved registers for kernel context switches. *)
Record context : Type := Context {
  ctx_ra : Z;
  ctx_sp : Z;
  ctx_s0 : Z;
  ctx_s1 : Z;
  ctx_s2 : Z;
  ctx_s3 : Z;
  ctx_s4 : Z;
  ctx_s5 : Z;
  ctx_s6 : Z;
  ctx_s7 : Z;
  ctx_s8 : Z;
  ctx_s9 : Z;
  ctx_s10 : Z;
  ctx_s11 : Z }.
Definition eta_context (r : context) : context :=
  Context (ctx_ra r) (ctx_sp r) (ctx_s0 r) (ctx_s1 r) (ctx_s2 r) (ctx_s3 r) (ctx_s4 r) (ctx_s5 r)
    (ctx_s6 r) (ctx_s7 r) (ctx_s8 r) (ctx_s9 r) (ctx_s10 r) (ctx_s11 r).
#[export] Instance set_ctx_ra : Setter ctx_ra := ltac:(derive_setter eta_context).
#[export] Instance set_ctx_sp : Setter ctx_sp := ltac:(derive_setter eta_context).
#[export] Instance set_ctx_s0 : Setter ctx_s0 := ltac:(derive_setter eta_context).
#[export] Instance set_ctx_s1 : Setter ctx_s1 := ltac:(derive_setter eta_context).
#[export] Instance set_ctx_s2 : Setter ctx_s2 := ltac:(derive_setter eta_context).
#[export] Instance set_ctx_s3 : Setter ctx_s3 := ltac:(derive_setter eta_context).
#[export] Instance set_ctx_s4 : Setter ctx_s4 := ltac:(derive_setter eta_context).
#[export] Instance set_ctx_s5 : Setter ctx_s5 := ltac:(derive_setter eta_context).
#[export] Instance set_ctx_s6 : Setter ctx_s6 := ltac:(derive_setter eta_context).
#[export] Instance set_ctx_s7 : Setter ctx_s7 := ltac:(derive_setter eta_context).
#[export] Instance set_ctx_s8 : Setter ctx_s8 := ltac:(derive_setter eta_context).
#[export] Instance set_ctx_s9 : Setter ctx_s9 := ltac:(derive_setter eta_context).
#[export] Instance set_ctx_s10 : Setter ctx_s10 := ltac:(derive_setter eta_context).
#[export] Instance set_ctx_s11 : Setter ctx_s11 := ltac:(derive_setter eta_context).

(** The page the trampoline saves the user registers in. *)
Record trapframe : Type := Trapframe {
  kernel_satp : Z;
  kernel_sp : Z;
  kernel_trap : Z;
  epc : Z;
  kernel_hartid : Z;
  tf_ra : Z;
  tf_sp : Z;
  tf_gp : Z;
  tf_tp : Z;
  tf_t0 : Z;
  tf_t1 : Z;
  tf_t2 : Z;
  tf_s0 : Z;
  tf_s1 : Z;
  a0 : Z;
  a1 : Z;
  a2 : Z;
  a3 : Z;
  a4 : Z;
  a5 : Z;
  a6 : Z;
  a7 : Z;
  tf_s2 : Z;
  tf_s3 : Z;
  tf_s4 : Z;
  tf_s5 : Z;
  tf_s6 : Z;
  tf_s7 : Z;
  tf_s8 : Z;
  tf_s9 : Z;
  tf_s10 : Z;
  tf_s11 : Z;
  tf_t3 : Z;
  tf_t4 : Z;
  tf_t5 : Z;
  tf_t6 : Z }.
Definition eta_trapframe (r : trapframe) : trapframe :=
  Trapframe (kernel_satp r) (kernel_sp r) (kernel_trap r) (epc r) (kernel_hartid r) (tf_ra r)
    (tf_sp r) (tf_gp r) (tf_tp r) (tf_t0 r) (tf_t1 r) (tf_t2 r) (tf_s0 r) (tf_s1 r) (a0 r)
    (a1 r) (a2 r) (a3 r) (a4 r) (a5 r) (a6 r) (a7 r) (tf_s2 r) (tf_s3 r) (tf_s4 r) (tf_s5 r)
    (tf_s6 r) (tf_s7 r) (tf_s8 r) (tf_s9 r) (tf_s10 r) (tf_s11 r) (tf_t3 r) (tf_t4 r)
    (tf_t5 r) (tf_t6 r).
#[export] Instance set_kernel_satp : Setter kernel_satp := ltac:(derive_setter eta_trapframe).
#[export] Instance set_kernel_sp : Setter kernel_sp := ltac:(derive_setter eta_trapframe).
#[export] Instance set_kernel_trap : Setter kernel_trap := ltac:(derive_setter eta_trapframe).
#[export] Instance set_epc : Setter epc := ltac:(derive_setter eta_trapframe).
#[export] Instance set_kernel_hartid : Setter kernel_hartid := ltac:(derive_setter eta_trapframe).
#[export] Instance set_tf_ra : Setter tf_ra := ltac:(derive_setter eta_trapframe).
#[export] Instance set_tf_sp : Setter tf_sp := ltac:(derive_setter eta_trapframe).
#[export] Instance set_tf_gp : Setter tf_gp := ltac:(derive_setter eta_trapframe).
#[export] Instance set_tf_tp : Setter tf_tp := ltac:(derive_setter eta_trapframe).
#[export] Instance set_tf_t0 : Setter tf_t0 := ltac:(derive_setter eta_trapframe).
#[export] Instance set_tf_t1 : Setter tf_t1 := ltac:(derive_setter eta_trapframe).
#[export] Instance set_tf_t2 : Setter tf_t2 := ltac:(derive_setter eta_trapframe).
#[export] Instance set_tf_s0 : Setter tf_s0 := ltac:(derive_setter eta_trapframe).
#[export] Instance set_tf_s1 : Setter tf_s1 := ltac:(derive_setter eta_trapframe).
#[export] Instance set_a0 : Setter a0 := ltac:(derive_setter eta_trapframe).
#[export] Instance set_a1 : Setter a1 := ltac:(derive_setter eta_trapframe).
#[export] Instance set_a2 : Setter a2 := ltac:(derive_setter eta_trapframe).
#[export] Instance set_a3 : Setter a3 := ltac:(derive_setter eta_trapframe).
#[export] Instance set_a4 : Setter a4 := ltac:(derive_setter eta_trapframe).
#[export] Instance set_a5 : Setter a5 := ltac:(derive_setter eta_trapframe).
#[export] Instance set_a6 : Setter a6 := ltac:(derive_setter eta_trapframe).
#[export] Instance set_a7 : Setter a7 := ltac:(derive_setter eta_trapframe).
#[export] Instance set_tf_s2 : Setter tf_s2 := ltac:(derive_setter eta_trapframe).
#[export] Instance set_tf_s3 : Setter tf_s3 := ltac:(derive_setter eta_trapframe).
#[export] Instance set_tf_s4 : Setter tf_s4 := ltac:(derive_setter eta_trapframe).
#[export] Instance set_tf_s5 : Setter tf_s5 := ltac:(derive_setter eta_trapframe).
#[export] Instance set_tf_s6 : Setter tf_s6 := ltac:(derive_setter eta_trapframe).
#[export] Instance set_tf_s7 : Setter tf_s7 := ltac:(derive_setter eta_trapframe).
#[export] Instance set_tf_s8 : Setter tf_s8 := ltac:(derive_setter eta_trapframe).
#[export] Instance set_tf_s9 : Setter tf_s9 := ltac:(derive_setter eta_trapframe).
#[export] Instance set_tf_s10 : Setter tf_s10 := ltac:(derive_setter eta_trapframe).
#[export] Instance set_tf_s11 : Setter tf_s11 := ltac:(derive_setter eta_trapframe).
#[export] Instance set_tf_t3 : Setter tf_t3 := ltac:(derive_setter eta_trapframe).
#[export] Instance set_tf_t4 : Setter tf_t4 := ltac:(derive_setter eta_trapframe).
#[export] Instance set_tf_t5 : Setter tf_t5 := ltac:(derive_setter eta_trapframe).
#[export] Instance set_tf_t6 : Setter tf_t6 := ltac:(derive_setter eta_trapframe).

(** Per-process state, as built with the priority scheduler ([PBS]). *)
Record proc : Type := Proc {
  p_state : procstate;
  p_chan : chan;
  p_killed : Z;
  p_xstate : Z;
  p_pid : Z;
  p_parent : option nat;
  p_kstack : Z;
  p_sz : Z;
  p_pagetable : Z;
  p_trapframe : Z;
  p_context : context;
  p_ofile : list (option nat);
  p_cwd : option nat;
  p_name : list Z;
  p_rtime : Z;
  p_ctime : Z;
  p_etime : Z;
  p_rntime : Z;
  p_wtime : Z;
  p_stime : Z;
  p_num_sch : Z;
  p_sp : Z;
  p_rbi : Z;
  p_dp : Z }.
Definition eta_proc (r : proc) : proc :=
  Proc (p_state r) (p_chan r) (p_killed r) (p_xstate r) (p_pid r) (p_parent r) (p_kstack r)
    (p_sz r) (p_pagetable r) (p_trapframe r) (p_context r) (p_ofile r) (p_cwd r) (p_name r)
    (p_rtime r) (p_ctime r) (p_etime r) (p_rntime r) (p_wtime r) (p_stime r) (p_num_sch r)
    (p_sp r) (p_rbi r) (p_dp r).
#[export] Instance set_p_state : Setter p_state := ltac:(derive_setter eta_proc).
#[export] Instance set_p_chan : Setter p_chan := ltac:(derive_setter eta_proc).
#[export] Instance set_p_killed : Setter p_killed := ltac:(derive_setter eta_proc).
#[export] Instance set_p_xstate : Setter p_xstate := ltac:(derive_setter eta_proc).
#[export] Instance set_p_pid : Setter p_pid := ltac:(derive_setter eta_proc).
#[export] Instance set_p_parent : Setter p_parent := ltac:(derive_setter eta_proc).
#[export] Instance set_p_kstack : Setter p_kstack := ltac:(derive_setter eta_proc).
#[export] Instance set_p_sz : Setter p_sz := ltac:(derive_setter eta_proc).
#[export] Instance set_p_pagetable : Setter p_pagetable := ltac:(derive_setter eta_proc).
#[export] Instance set_p_trapframe : Setter p_trapframe := ltac:(derive_setter eta_proc).
#[export] Instance set_p_context : Setter p_context := ltac:(derive_setter eta_proc).
#[export] Instance set_p_ofile : Setter p_ofile := ltac:(derive_setter eta_proc).
#[export] Instance set_p_cwd : Setter p_cwd := ltac:(derive_setter eta_proc).
#[export] Instance set_p_name : Setter p_name := ltac:(derive_setter eta_proc).
#[export] Instance set_p_rtime : Setter p_rtime := ltac:(derive_setter eta_proc).
#[export] Instance set_p_ctime : Setter p_ctime := ltac:(derive_setter eta_proc).
#[export] Instance set_p_etime : Setter p_etime := ltac:(derive_setter eta_proc).
#[export] Instance set_p_rntime : Setter p_rntime := ltac:(derive_setter eta_proc).
#[export] Instance set_p_wtime : Setter p_wtime := ltac:(derive_setter eta_proc).
#[export] Instance set_p_stime : Setter p_stime := ltac:(derive_setter eta_proc).
#[export] Instance set_p_num_sch : Setter p_num_sch := ltac:(derive_setter eta_proc).
#[export] Instance set_p_sp : Setter p_sp := ltac:(derive_setter eta_proc).
#[export] Instance set_p_rbi : Setter p_rbi := ltac:(derive_setter eta_proc).
#[export] Instance set_p_dp : Setter p_dp := ltac:(derive_setter eta_proc).

(** * Physical memory allocator (kernel/kalloc.c) *)

(** The free list and the number of page-table references of every page. *)
Record kmem : Type := Kmem {
  freelist : Z;
  pte_count : Z -> Z }.
Definition eta_kmem (r : kmem) : kmem :=
  Kmem (freelist r) (pte_count r).
#[export] Instance set_freelist : Setter freelist := ltac:(derive_setter eta_kmem).
#[export] Instance set_pte_count : Setter pte_count := ltac:(derive_setter eta_kmem).

(** * Sleep-locks, buffers, the log (kernel/sleeplock.h, buf.h, log.c) *)

(** A long-term lock. *)
Record sleeplock : Type := Sleeplock {
  sl_locked : Z;
  sl_pid : Z }.
Definition eta_sleeplock (r : sleeplock) : sleeplock :=
  Sleeplock (sl_locked r) (sl_pid r).
#[export] Instance set_sl_locked : Setter sl_locked := ltac:(derive_setter eta_sleeplock).
#[export] Instance set_sl_pid : Setter sl_pid := ltac:(derive_setter eta_sleeplock).

(** A cached disk block. *)
Record buf : Type := Buf {
  b_valid : Z;
  b_disk : Z;
  b_dev : Z;
  b_blockno : Z;
  b_lock : sleeplock;
  b_refcnt : Z;
  b_prev : bptr;
  b_next : bptr;
  b_data : list Z }.
Definition eta_buf (r : buf) : buf :=
  Buf (b_valid r) (b_disk r) (b_dev r) (b_blockno r) (b_lock r) (b_refcnt r) (b_prev r)
    (b_next r) (b_data r).
#[export] Instance set_b_valid : Setter b_valid := ltac:(derive_setter eta_buf).
#[export] Instance set_b_disk : Setter b_disk := ltac:(derive_setter eta_buf).
#[export] Instance set_b_dev : Setter b_dev := ltac:(derive_setter eta_buf).
#[export] Instance set_b_blockno : Setter b_blockno := ltac:(derive_setter eta_buf).
#[export] Instance set_b_lock : Setter b_lock := ltac:(derive_setter eta_buf).
#[export] Instance set_b_refcnt : Setter b_refcnt := ltac:(derive_setter eta_buf).
#[export] Instance set_b_prev : Setter b_prev := ltac:(derive_setter eta_buf).
#[export] Instance set_b_next : Setter b_next := ltac:(derive_setter eta_buf).
#[export] Instance set_b_data : Setter b_data := ltac:(derive_setter eta_buf).

(** The buffer cache: the buffers and the two links of the list head. *)
Record bcache : Type := Bcache {
  bc_buf : list buf;
  head_prev : bptr;
  head_next : bptr }.
Definition eta_bcache (r : bcache) : bcache :=
  Bcache (bc_buf r) (head_prev r) (head_next r).
#[export] Instance set_bc_buf : Setter bc_buf := ltac:(derive_setter eta_bcache).
#[export] Instance set_head_prev : Setter head_prev := ltac:(derive_setter eta_bcache).
#[export] Instance set_head_next : Setter head_next := ltac:(derive_setter eta_bcache).

(** The log: [lh_n] and [lh_block] are the in-memory [struct logheader]. *)
Record log : Type := Log {
  lg_start : Z;
  lg_size : Z;
  lg_outstanding : Z;
  lg_committing : Z;
  lg_dev : Z;
  lh_n : Z;
  lh_block : list Z }.
Definition eta_log (r : log) : log :=
  Log (lg_start r) (lg_size r) (lg_outstanding r) (lg_committing r) (lg_dev r) (lh_n r)
    (lh_block r).
#[export] Instance set_lg_start : Setter lg_start := ltac:(derive_setter eta_log).
#[export] Instance set_lg_size : Setter lg_size := ltac:(derive_setter eta_log).
#[export] Instance set_lg_outstanding : Setter lg_outstanding := ltac:(derive_setter eta_log).
#[export] Instance set_lg_committing : Setter lg_committing := ltac:(derive_setter eta_log).
#[export] Instance set_lg_dev : Setter lg_dev := ltac:(derive_setter eta_log).
#[export] Instance set_lh_n : Setter lh_n := ltac:(derive_setter eta_log).
#[export] Instance set_lh_block : Setter lh_block := ltac:(derive_setter eta_log).

(** * Files (kernel/fs.h, kernel/file.h, kernel/pipe.c) *)

(** The super block. *)
Record superblock : Type := Superblock {
  sb_magic : Z;
  sb_size : Z;
  sb_nblocks : Z;
  sb_ninodes : Z;
  sb_nlog : Z;
  sb_logstart : Z;
  sb_inodestart : Z;
  sb_bmapstart : Z }.
Definition eta_superblock (r : superblock) : superblock :=
  Superblock (sb_magic r) (sb_size r) (sb_nblocks r) (sb_ninodes r) (sb_nlog r) (sb_logstart r)
    (sb_inodestart r) (sb_bmapstart r).
#[export] Instance set_sb_magic : Setter sb_magic := ltac:(derive_setter eta_superblock).
#[export] Instance set_sb_size : Setter sb_size := ltac:(derive_setter eta_superblock).
#[export] Instance set_sb_nblocks : Setter sb_nblocks := ltac:(derive_setter eta_superblock).
#[export] Instance set_sb_ninodes : Setter sb_ninodes := ltac:(derive_setter eta_superblock).
#[export] Instance set_sb_nlog : Setter sb_nlog := ltac:(derive_setter eta_superblock).
#[export] Instance set_sb_logstart : Setter sb_logstart := ltac:(derive_setter eta_superblock).
#[export] Instance set_sb_inodestart : Setter sb_inodestart := ltac:(derive_setter eta_superblock).
#[export] Instance set_sb_bmapstart : Setter sb_bmapstart := ltac:(derive_setter eta_superblock).

(** In-memory copy of an inode. *)
Record inode : Type := Inode {
  i_dev : Z;
  i_inum : Z;
  i_ref : Z;
  i_lock : sleeplock;
  i_valid : Z;
  i_type : Z;
  i_major : Z;
  i_minor : Z;
  i_nlink : Z;
  i_size : Z;
  i_addrs : list Z }.
Definition eta_inode (r : inode) : inode :=
  Inode (i_dev r) (i_inum r) (i_ref r) (i_lock r) (i_valid r) (i_type r) (i_major r) (i_minor r)
    (i_nlink r) (i_size r) (i_addrs r).
#[export] Instance set_i_dev : Setter i_dev := ltac:(derive_setter eta_inode).
#[export] Instance set_i_inum : Setter i_inum := ltac:(derive_setter eta_inode).
#[export] Instance set_i_ref : Setter i_ref := ltac:(derive_setter eta_inode).
#[export] Instance set_i_lock : Setter i_lock := ltac:(derive_setter eta_inode).
#[export] Instance set_i_valid : Setter i_valid := ltac:(derive_setter eta_inode).
#[export] Instance set_i_type : Setter i_type := ltac:(derive_setter eta_inode).
#[export] Instance set_i_major : Setter i_major := ltac:(derive_setter eta_inode).
#[export] Instance set_i_minor : Setter i_minor := ltac:(derive_setter eta_inode).
#[export] Instance set_i_nlink : Setter i_nlink := ltac:(derive_setter eta_inode).
#[export] Instance set_i_size : Setter i_size := ltac:(derive_setter eta_inode).
#[export] Instance set_i_addrs : Setter i_addrs := ltac:(derive_setter eta_inode).

(** An open file. *)
Record file : Type := File {
  f_type : filetype;
  f_ref : Z;
  f_readable : Z;
  f_writable : Z;
  f_pipe : Z;
  f_ip : option nat;
  f_off : Z;
  f_major : Z }.
Definition eta_file (r : file) : file :=
  File (f_type r) (f_ref r) (f_readable r) (f_writable r) (f_pipe r) (f_ip r) (f_off r)
    (f_major r).
#[export] Instance set_f_type : Setter f_type := ltac:(derive_setter eta_file).
#[export] Instance set_f_ref : Setter f_ref := ltac:(derive_setter eta_file).
#[export] Instance set_f_readable : Setter f_readable := ltac:(derive_setter eta_file).
#[export] Instance set_f_writable : Setter f_writable := ltac:(derive_setter eta_file).
#[export] Instance set_f_pipe : Setter f_pipe := ltac:(derive_setter eta_file).
#[export] Instance set_f_ip : Setter f_ip := ltac:(derive_setter eta_file).
#[export] Instance set_f_off : Setter f_off := ltac:(derive_setter eta_file).
#[export] Instance set_f_major : Setter f_major := ltac:(derive_setter eta_file).

(** A pipe, at the page [kalloc()] gave for it. *)
Record pipe : Type := Pipe {
  pi_data : list Z;
  pi_nread : Z;
  pi_nwrite : Z;
  pi_readopen : Z;
  pi_writeopen : Z }.
Definition eta_pipe (r : pipe) : pipe :=
  Pipe (pi_data r) (pi_nread r) (pi_nwrite r) (pi_readopen r) (pi_writeopen r).
#[export] Instance set_pi_data : Setter pi_data := ltac:(derive_setter eta_pipe).
#[export] Instance set_pi_nread : Setter pi_nread := ltac:(derive_setter eta_pipe).
#[export] Instance set_pi_nwrite : Setter pi_nwrite := ltac:(derive_setter eta_pipe).
#[export] Instance set_pi_readopen : Setter pi_readopen := ltac:(derive_setter eta_pipe).
#[export] Instance set_pi_writeopen : Setter pi_writeopen := ltac:(derive_setter eta_pipe).

(** * Devices (kernel/console.c, kernel/uart.c, kernel/printf.c) *)

(** The console's input buffer. *)
Record console : Type := Console {
  c_buf : list Z;
  c_r : Z;
  c_w : Z;
  c_e : Z }.
Definition eta_console (r : console) : console :=
  Console (c_buf r) (c_r r) (c_w r) (c_e r).
#[export] Instance set_c_buf : Setter c_buf := ltac:(derive_setter eta_console).
#[export] Instance set_c_r : Setter c_r := ltac:(derive_setter eta_console).
#[export] Instance set_c_w : Setter c_w := ltac:(derive_setter eta_console).
#[export] Instance set_c_e : Setter c_e := ltac:(derive_setter eta_console).

(** The UART's transmit buffer. *)
Record uart : Type := Uart {
  u_buf : list Z;
  u_w : Z;
  u_r : Z }.
Definition eta_uart (r : uart) : uart :=
  Uart (u_buf r) (u_w r) (u_r r).
#[export] Instance set_u_buf : Setter u_buf := ltac:(derive_setter eta_uart).
#[export] Instance set_u_w : Setter u_w := ltac:(derive_setter eta_uart).
#[export] Instance set_u_r : Setter u_r := ltac:(derive_setter eta_uart).

(** * The disk driver (kernel/virtio.h, kernel/virtio_disk.c) *)

(** What a descriptor's address points to: a request header, a buffer's data, a status
    byte. *)
Inductive daddr : Type := DNull | DOps (i : nat) | DData (b : nat) | DStatus (i : nat).

(** A DMA descriptor. *)
Record virtq_desc : Type := VirtqDesc {
  d_addr : daddr;
  d_len : Z;
  d_flags : Z;
  d_next : Z }.
Definition eta_virtq_desc (r : virtq_desc) : virtq_desc :=
  VirtqDesc (d_addr r) (d_len r) (d_flags r) (d_next r).
#[export] Instance set_d_addr : Setter d_addr := ltac:(derive_setter eta_virtq_desc).
#[export] Instance set_d_len : Setter d_len := ltac:(derive_setter eta_virtq_desc).
#[export] Instance set_d_flags : Setter d_flags := ltac:(derive_setter eta_virtq_desc).
#[export] Instance set_d_next : Setter d_next := ltac:(derive_setter eta_virtq_desc).

(** The header of a disk request. *)
Record virtio_blk_req : Type := VirtioBlkReq {
  rq_type : Z;
  rq_reserved : Z;
  rq_sector : Z }.
Definition eta_virtio_blk_req (r : virtio_blk_req) : virtio_blk_req :=
  VirtioBlkReq (rq_type r) (rq_reserved r) (rq_sector r).
#[export] Instance set_rq_type : Setter rq_type := ltac:(derive_setter eta_virtio_blk_req).
#[export] Instance set_rq_reserved : Setter rq_reserved := ltac:(derive_setter eta_virtio_blk_req).
#[export] Instance set_rq_sector : Setter rq_sector := ltac:(derive_setter eta_virtio_blk_req).

(** A request in flight: its buffer and the status byte. *)
Record dinfo : Type := Dinfo {
  di_b : option nat;
  di_status : Z }.
Definition eta_dinfo (r : dinfo) : dinfo :=
  Dinfo (di_b r) (di_status r).
#[export] Instance set_di_b : Setter di_b := ltac:(derive_setter eta_dinfo).
#[export] Instance set_di_status : Setter di_status := ltac:(derive_setter eta_dinfo).

(** [struct disk], with the three pages it shares with the device: the descriptors,
    the available ring ([av_idx], [av_ring]) and the used ring ([us_idx], [us_ring], the
    identifiers only).  [dev_idx] is the device's own count of the requests it took. *)
Record vdisk : Type := Vdisk {
  vd_desc_pa : Z;
  vd_avail_pa : Z;
  vd_used_pa : Z;
  vd_desc : list virtq_desc;
  av_idx : Z;
  av_ring : list Z;
  us_idx : Z;
  us_ring : list Z;
  vd_free : list Z;
  vd_used_idx : Z;
  vd_info : list dinfo;
  vd_ops : list virtio_blk_req;
  dev_idx : Z }.
Definition eta_vdisk (r : vdisk) : vdisk :=
  Vdisk (vd_desc_pa r) (vd_avail_pa r) (vd_used_pa r) (vd_desc r) (av_idx r) (av_ring r)
    (us_idx r) (us_ring r) (vd_free r) (vd_used_idx r) (vd_info r) (vd_ops r) (dev_idx r).
#[export] Instance set_vd_desc_pa : Setter vd_desc_pa := ltac:(derive_setter eta_vdisk).
#[export] Instance set_vd_avail_pa : Setter vd_avail_pa := ltac:(derive_setter eta_vdisk).
#[export] Instance set_vd_used_pa : Setter vd_used_pa := ltac:(derive_setter eta_vdisk).
#[export] Instance set_vd_desc : Setter vd_desc := ltac:(derive_setter eta_vdisk).
#[export] Instance set_av_idx : Setter av_idx := ltac:(derive_setter eta_vdisk).
#[export] Instance set_av_ring : Setter av_ring := ltac:(derive_setter eta_vdisk).
#[export] Instance set_us_idx : Setter us_idx := ltac:(derive_setter eta_vdisk).
#[export] Instance set_us_ring : Setter us_ring := ltac:(derive_setter eta_vdisk).
#[export] Instance set_vd_free : Setter vd_free := ltac:(derive_setter eta_vdisk).
#[export] Instance set_vd_used_idx : Setter vd_used_idx := ltac:(derive_setter eta_vdisk).
#[export] Instance set_vd_info : Setter vd_info := ltac:(derive_setter eta_vdisk).
#[export] Instance set_vd_ops : Setter vd_ops := ltac:(derive_setter eta_vdisk).
#[export] Instance set_dev_idx : Setter dev_idx := ltac:(derive_setter eta_vdisk).

(** The supervisor registers the code reads and writes; [r_tp] is the hart's number. *)
Record csrs : Type := Csrs {
  stvec : Z;
  sepc : Z;
  sstatus : Z;
  scause : Z;
  stval : Z;
  satp : Z;
  sip : Z;
  r_tp : Z }.
Definition eta_csrs (r : csrs) : csrs :=
  Csrs (stvec r) (sepc r) (sstatus r) (scause r) (stval r) (satp r) (sip r) (r_tp r).
#[export] Instance set_stvec : Setter stvec := ltac:(derive_setter eta_csrs).
#[export] Instance set_sepc : Setter sepc := ltac:(derive_setter eta_csrs).
#[export] Instance set_sstatus : Setter sstatus := ltac:(derive_setter eta_csrs).
#[export] Instance set_scause : Setter scause := ltac:(derive_setter eta_csrs).
#[export] Instance set_stval : Setter stval := ltac:(derive_setter eta_csrs).
#[export] Instance set_satp : Setter satp := ltac:(derive_setter eta_csrs).
#[export] Instance set_sip : Setter sip := ltac:(derive_setter eta_csrs).
#[export] Instance set_r_tp : Setter r_tp := ltac:(derive_setter eta_csrs).

(** * The kernel's globals *)

(** All global variables.  [k_held] is the list of spinlocks the running hart
    holds, the last acquired first; [k_cur] is this hart's [c->proc].  [k_disk] is
    the disk's contents by block number and [k_dwrites] the blocks written to it, in
    order.  [k_mmio_in] holds the values the next reads of device registers give and
    [k_mmio_out] the writes made to device registers, in order. *)
Record kernel : Type := Kernel {
  k_held : list lockid;
  k_cur : option nat;
  k_ram : ram;
  k_kmem : kmem;
  k_pagetable : Z;
  k_proc : list proc;
  k_initproc : option nat;
  k_nextpid : Z;
  k_tf : gmap Z trapframe;
  k_ticks : Z;
  k_bcache : bcache;
  k_disk : Z -> list Z;
  k_dwrites : list (Z * list Z);
  k_vdisk : vdisk;
  k_log : log;
  k_sb : superblock;
  k_inode : list inode;
  k_file : list file;
  k_pipe : gmap Z pipe;
  k_devsw : list (option device);
  k_cons : console;
  k_uart : uart;
  k_prlocking : Z;
  k_panicked : Z;
  k_readcount : Z;
  k_first : Z;
  k_csr : csrs;
  k_mmio_in : list Z;
  k_mmio_out : list (Z * Z) }.
Definition eta_kernel (r : kernel) : kernel :=
  Kernel (k_held r) (k_cur r) (k_ram r) (k_kmem r) (k_pagetable r) (k_proc r) (k_initproc r)
    (k_nextpid r) (k_tf r) (k_ticks r) (k_bcache r) (k_disk r) (k_dwrites r) (k_vdisk r)
    (k_log r) (k_sb r) (k_inode r) (k_file r) (k_pipe r) (k_devsw r) (k_cons r) (k_uart r)
    (k_prlocking r) (k_panicked r) (k_readcount r) (k_first r) (k_csr r) (k_mmio_in r)
    (k_mmio_out r).
#[export] Instance set_k_held : Setter k_held := ltac:(derive_setter eta_kernel).
#[export] Instance set_k_cur : Setter k_cur := ltac:(derive_setter eta_kernel).
#[export] Instance set_k_ram : Setter k_ram := ltac:(derive_setter eta_kernel).
#[export] Instance set_k_kmem : Setter k_kmem := ltac:(derive_setter eta_kernel).
#[export] Instance set_k_pagetable : Setter k_pagetable := ltac:(derive_setter eta_kernel).
#[export] Instance set_k_proc : Setter k_proc := ltac:(derive_setter eta_kernel).
#[export] Instance set_k_initproc : Setter k_initproc := ltac:(derive_setter eta_kernel).
#[export] Instance set_k_nextpid : Setter k_nextpid := ltac:(derive_setter eta_kernel).
#[export] Instance set_k_tf : Setter k_tf := ltac:(derive_setter eta_kernel).
#[export] Instance set_k_ticks : Setter k_ticks := ltac:(derive_setter eta_kernel).
#[export] Instance set_k_bcache : Setter k_bcache := ltac:(derive_setter eta_kernel).
#[export] Instance set_k_disk : Setter k_disk := ltac:(derive_setter eta_kernel).
#[export] Instance set_k_dwrites : Setter k_dwrites := ltac:(derive_setter eta_kernel).
#[export] Instance set_k_vdisk : Setter k_vdisk := ltac:(derive_setter eta_kernel).
#[export] Instance set_k_log : Setter k_log := ltac:(derive_setter eta_kernel).
#[export] Instance set_k_sb : Setter k_sb := ltac:(derive_setter eta_kernel).
#[export] Instance set_k_inode : Setter k_inode := ltac:(derive_setter eta_kernel).
#[export] Instance set_k_file : Setter k_file := ltac:(derive_setter eta_kernel).
#[export] Instance set_k_pipe : Setter k_pipe := ltac:(derive_setter eta_kernel).
#[export] Instance set_k_devsw : Setter k_devsw := ltac:(derive_setter eta_kernel).
#[export] Instance set_k_cons : Setter k_cons := ltac:(derive_setter eta_kernel).
#[export] Instance set_k_uart : Setter k_uart := ltac:(derive_setter eta_kernel).
#[export] Instance set_k_prlocking : Setter k_prlocking := ltac:(derive_setter eta_kernel).
#[export] Instance set_k_panicked : Setter k_panicked := ltac:(derive_setter eta_kernel).
#[export] Instance set_k_readcount : Setter k_readcount := ltac:(derive_setter eta_kernel).
#[export] Instance set_k_first : Setter k_first := ltac:(derive_setter eta_kernel).
#[export] Instance set_k_csr : Setter k_csr := ltac:(derive_setter eta_kernel).
#[export] Instance set_k_mmio_in : Setter k_mmio_in := ltac:(derive_setter eta_kernel).
#[export] Instance set_k_mmio_out : Setter k_mmio_out := ltac:(derive_setter eta_kernel).

(** The kernel's state and the schedule: one function per time the running
    process gives up the CPU, what happens to the state until it runs again. *)
Record world : Type := World {
  w_k : kernel;
  w_env : list (kernel -> kernel) }.
Definition eta_world (r : world) : world :=
  World (w_k r) (w_env r).
#[export] Instance set_w_k : Setter w_k := ltac:(derive_setter eta_world).
#[export] Instance set_w_env : Setter w_env := ltac:(derive_setter eta_world).

(** * What the linker decides *)

(** The addresses the linker script gives to symbols the code takes the address of. *)
Class Layout : Type := {
  end_ : Z;                (* first address after the kernel *)
  etext : Z;               (* end of the kernel's code *)
  trampoline : Z;          (* trampoline.S *)
  uservec : Z;
  userret : Z;
  kernelvec : Z;
  usertrap_addr : Z;
  forkret_addr : Z }.

(** The kernel is linked at [KERNBASE] and leaves memory below [PHYSTOP]; the
    trampoline is a page of the kernel. *)
Class LayoutOk (L : Layout) : Prop := {
  layout_end : KERNBASE < end_ < PHYSTOP;
  layout_etext : KERNBASE <= etext <= end_ /\ etext mod PGSIZE = 0;
  layout_trampoline : KERNBASE <= trampoline < etext /\ trampoline mod PGSIZE = 0 }.

(** A layout for the examples. *)
Definition demo_layout : Layout := {|
  end_ := 2147619840; etext := 2147516416; trampoline := 2147512320; uservec := 2147512320;
  userret := 2147512476; kernelvec := 2147508224; usertrap_addr := 2147490000;
  forkret_addr := 2147487000 |}.
Lemma demo_layout_ok : LayoutOk demo_layout.
Proof. split; vm_compute; repeat split; congruence. Qed.

(** * The state the kernel boots in: all static data is zero (entry.S, kernel.ld) *)
Definition context0 : context := Context 0 0 0 0 0 0 0 0 0 0 0 0 0 0.
Definition trapframe0 : trapframe := Trapframe 0 0 0 0 0 0 0 0 0 0 0 0 0 0 0 0 0 0 0 0 0 0 0 0
  0 0 0 0 0 0 0 0 0 0 0 0.
Definition proc0 : proc :=
  Proc UNUSED ChNone 0 0 0 None 0 0 0 0 context0 (replicate NOFILE None) None (replicate 16 0)
    0 0 0 0 0 0 0 0 0 0.
Definition sleeplock0 : sleeplock := Sleeplock 0 0.
Definition buf0 : buf := Buf 0 0 0 0 sleeplock0 0 BHead BHead (replicate 1024 0).
Definition inode0 : inode := Inode 0 0 0 sleeplock0 0 0 0 0 0 0 (replicate 13 0).
Definition desc0 : virtq_desc := VirtqDesc DNull 0 0 0.
Definition vdisk0 : vdisk := Vdisk 0 0 0 (replicate 8 desc0) 0 (replicate 8 0) 0 (replicate 8 0)
  (replicate 8 0) 0 (replicate 8 (Dinfo None 0)) (replicate 8 (VirtioBlkReq 0 0 0)) 0.
Definition file0 : file := File FD_NONE 0 0 0 0 None 0 0.
Definition kernel0 : kernel :=
  Kernel [] None (fun _ => 0) (Kmem 0 (fun _ => 0)) 0 (replicate NPROC proc0) None 1 ∅ 0
    (Bcache (replicate NBUF buf0) BHead BHead) (fun _ => replicate 1024 0) [] vdisk0
    (Log 0 0 0 0 0 0 (replicate (Z.to_nat LOGSIZE) 0)) (Superblock 0 0 0 0 0 0 0 0)
    (replicate NINODE inode0) (replicate NFILE file0) ∅ (replicate (Z.to_nat NDEV) None)
    (Console (replicate 128 0) 0 0 0) (Uart (replicate 32 0) 0 0) 0 0 0 1
    (Csrs 0 0 0 0 0 0 0 0) [] [].
Definition world0 : world := World kernel0 [].

(** The kernel monad at this world. *)
Abbreviation K A := (M world A).

Definition getk {A} (f : kernel -> A) : K A := gets (fun w => f (w_k w)).
Definition modk (f : kernel -> kernel) : K unit := modify (fun w => w <| w_k ::= f |>).

(** [wp] rules for the two accessors. *)
Lemma wp_getk {A} E (f : kernel -> A) (Q : A -> world -> Prop) w :
  Q (f (w_k w)) w -> wp E (getk f) Q w.
Proof. done. Qed.
Lemma wp_modk E (f : kernel -> kernel) (Q : unit -> world -> Prop) w :
  Q tt (w <| w_k ::= f |>) -> wp E (modk f) Q w.
Proof. done. Qed.
#[export] Hint Resolve wp_getk wp_modk : kwp.

(** * Array elements *)

(** [proc[i]], [inode[i]], ... : an index outside the array is undefined behaviour. *)
Definition get_proc (i : nat) : K proc :=
  ps <- getk k_proc ;; from_option_or_fault "proc" (ps !! i).
Definition put_proc (i : nat) (p : proc) : K unit :=
  ps <- getk k_proc ;;
  if (i <? length ps)%nat then modk (fun k => k <| k_proc ::= <[i := p]> |>) else fault "proc".
Definition upd_proc (i : nat) (f : proc -> proc) : K unit :=
  p <- get_proc i ;; put_proc i (f p).

Definition get_buf (i : nat) : K buf :=
  bc <- getk k_bcache ;; from_option_or_fault "buf" (bc_buf bc !! i).
Definition upd_buf (i : nat) (f : buf -> buf) : K unit :=
  b <- get_buf i ;;
  modk (fun k => k <| k_bcache ::= fun c => c <| bc_buf ::= <[i := f b]> |> |>).

Definition get_inode (i : nat) : K inode :=
  tab <- getk k_inode ;; from_option_or_fault "inode" (tab !! i).
Definition upd_inode (i : nat) (f : inode -> inode) : K unit :=
  ip <- get_inode i ;; modk (fun k => k <| k_inode ::= <[i := f ip]> |>).

Definition get_file (i : nat) : K file :=
  fs <- getk k_file ;; from_option_or_fault "file" (fs !! i).
Definition upd_file (i : nat) (f : file -> file) : K unit :=
  fl <- get_file i ;; modk (fun k => k <| k_file ::= <[i := f fl]> |>).

Definition get_pipe (pi : Z) : K pipe :=
  ps <- getk k_pipe ;; from_option_or_fault "pipe" (ps !! pi).
Definition upd_pipe (pi : Z) (f : pipe -> pipe) : K unit :=
  p <- get_pipe pi ;; modk (fun k => k <| k_pipe ::= <[pi := f p]> |>).

Definition get_tf (pa : Z) : K trapframe :=
  ts <- getk k_tf ;; from_option_or_fault "trapframe" (ts !! pa).
Definition upd_tf (pa : Z) (f : trapframe -> trapframe) : K unit :=
  t <- get_tf pa ;; modk (fun k => k <| k_tf ::= <[pa := f t]> |>).

(** A sleep-lock is a field of a buffer or of an inode. *)
Definition get_sl (s : slid) : K sleeplock :=
  match s with
  | SlBuf i => b <- get_buf i ;; ret (b_lock b)
  | SlInode i => ip <- get_inode i ;; ret (i_lock ip)
  end.
Definition upd_sl (s : slid) (f : sleeplock -> sleeplock) : K unit :=
  match s with
  | SlBuf i => upd_buf i (fun b => b <| b_lock ::= f |>)
  | SlInode i => upd_inode i (fun ip => ip <| i_lock ::= f |>)
  end.

(** [l[i]] and [l] after [l[i] = x]. *)
Definition arr_get {A} (l : list A) (i : Z) : K A :=
  if i <? 0 then fault "index" else from_option_or_fault "index" (l !! Z.to_nat i).
Definition arr_set {A} (l : list A) (i : Z) (x : A) : K (list A) :=
  if (i <? 0) || (i >=? Z.of_nat (length l)) then fault "index" else ret (<[Z.to_nat i := x]> l).

(** Device registers: a read takes the next value of the input, a write is recorded. *)
Definition mmio_read (a : Z) : K Z :=
  i <- getk k_mmio_in ;;
  match i with
  | [] => blocked
  | v :: i' => modk (fun k => k <| k_mmio_in := i' |>) ;;; ret v
  end.
Definition mmio_write (a v : Z) : K unit :=
  modk (fun k => k <| k_mmio_out ::= fun l => l ++ [(a, v)] |>).

(** ** Rules *)
Section ArrayRules.
Context (E : xpost world) (w : world).

Lemma wp_get_proc i p Q : k_proc (w_k w) !! i = Some p -> Q p w -> wp E (get_proc i) Q w.
Proof. intros H HQ. unfold wp, get_proc, bind, getk, gets. by rewrite H. Qed.

Lemma wp_upd_proc i p f Q : k_proc (w_k w) !! i = Some p ->
  Q tt (w <| w_k ::= fun k => k <| k_proc ::= <[i := f p]> |> |>) ->
  wp E (upd_proc i f) Q w.
Proof.
  intros H HQ. apply wp_bind, (wp_get_proc _ p); [done|].
  unfold put_proc, wp, bind, getk, gets. apply lookup_lt_Some in H.
  by rewrite (proj2 (Nat.ltb_lt _ _) H).
Qed.

Lemma wp_get_buf i b Q : bc_buf (k_bcache (w_k w)) !! i = Some b -> Q b w ->
  wp E (get_buf i) Q w.
Proof. intros H HQ. unfold wp, get_buf, bind, getk, gets. by rewrite H. Qed.

Lemma wp_upd_buf i b f Q : bc_buf (k_bcache (w_k w)) !! i = Some b ->
  Q tt (w <| w_k ::= fun k => k <| k_bcache ::= fun c => c <| bc_buf ::= <[i := f b]> |> |> |>) ->
  wp E (upd_buf i f) Q w.
Proof. intros H HQ. apply wp_bind, (wp_get_buf _ b); [done|]. by apply wp_modk. Qed.

Lemma wp_get_pipe pi p Q : k_pipe (w_k w) !! pi = Some p -> Q p w -> wp E (get_pipe pi) Q w.
Proof. intros H HQ. unfold wp, get_pipe, bind, getk, gets. by rewrite H. Qed.

Lemma wp_upd_pipe pi p f Q : k_pipe (w_k w) !! pi = Some p ->
  Q tt (w <| w_k ::= fun k => k <| k_pipe ::= <[pi := f p]> |> |>) ->
  wp E (upd_pipe pi f) Q w.
Proof. intros H HQ. apply wp_bind, (wp_get_pipe _ p); [done|]. by apply wp_modk. Qed.
End ArrayRules.

(** ** The tables after the update of one element *)

Lemma insert_is_alter {A} (f : A -> A) i (l : list A) x :
  l !! i = Some x -> <[i := f x]> l = alter f i l.
Proof.
  intros H. apply list_eq. intros j. destruct (decide (i = j)) as [<-|Hn].
  - rewrite list_lookup_alter_eq, H, list_lookup_insert_eq; [done|by apply lookup_lt_Some in H].
  - by rewrite list_lookup_alter_ne, list_lookup_insert_ne.
Qed.

Lemma alter_alter {A} (f g : A -> A) (i : nat) (l : list A) : alter f i (alter g i l) = alter (fun x => f (g x)) i l.
Proof.
  apply list_eq. intros j. destruct (decide (i = j)) as [<-|].
  - rewrite !list_lookup_alter_eq. by destruct (_ !! _).
  - by rewrite !list_lookup_alter_ne.
Qed.
Lemma alter_ext_at {A} (f g : A -> A) i (l : list A) x :
  l !! i = Some x -> f x = g x -> alter f i l = alter g i l.
Proof. intros H E. by rewrite <- (insert_is_alter f i l x), <- (insert_is_alter g i l x), E by done. Qed.

Definition upd_procs (i : nat) (f : proc -> proc) (k : kernel) : kernel :=
  k <| k_proc ::= alter f i |>.
Definition upd_bufs (i : nat) (f : buf -> buf) (k : kernel) : kernel :=
  k <| k_bcache ::= fun c => c <| bc_buf ::= alter f i |> |>.
Definition upd_inodes (i : nat) (f : inode -> inode) (k : kernel) : kernel :=
  k <| k_inode ::= alter f i |>.
Definition upd_files (i : nat) (f : file -> file) (k : kernel) : kernel :=
  k <| k_file ::= alter f i |>.

Lemma set_procs_ext g h k : g (k_proc k) = h (k_proc k) ->
  k <| k_proc ::= g |> = k <| k_proc ::= h |>.
Proof. intros H. transitivity (k <| k_proc := g (k_proc k) |>); [by destruct k|]. rewrite H. by destruct k. Qed.
Lemma set_bufs_ext g h k : g (bc_buf (k_bcache k)) = h (bc_buf (k_bcache k)) ->
  k <| k_bcache ::= fun c => c <| bc_buf ::= g |> |> = k <| k_bcache ::= fun c => c <| bc_buf ::= h |> |>.
Proof.
  intros H. transitivity (k <| k_bcache := (k_bcache k) <| bc_buf := g (bc_buf (k_bcache k)) |> |>);
    [by destruct k as [? ? ? ? ? ? ? ? ? ? []]|]. rewrite H. by destruct k as [? ? ? ? ? ? ? ? ? ? []].
Qed.
Lemma set_inodes_ext g h k : g (k_inode k) = h (k_inode k) ->
  k <| k_inode ::= g |> = k <| k_inode ::= h |>.
Proof. intros H. transitivity (k <| k_inode := g (k_inode k) |>); [by destruct k|]. rewrite H. by destruct k. Qed.
Lemma set_files_ext g h k : g (k_file k) = h (k_file k) ->
  k <| k_file ::= g |> = k <| k_file ::= h |>.
Proof. intros H. transitivity (k <| k_file := g (k_file k) |>); [by destruct k|]. rewrite H. by destruct k. Qed.

Lemma upd_procs_upd_procs i f g k : upd_procs i f (upd_procs i g k) = upd_procs i (fun p => f (g p)) k.
Proof. 
  etransitivity; [|apply (set_procs_ext (fun l => alter f i (alter g i l))), alter_alter]. by destruct k.
Qed.
Lemma upd_bufs_upd_bufs i f g k : upd_bufs i f (upd_bufs i g k) = upd_bufs i (fun p => f (g p)) k.
Proof.
  etransitivity; [|apply (set_bufs_ext (fun l => alter f i (alter g i l))), alter_alter]. by destruct k.
Qed.
Lemma upd_inodes_upd_inodes i f g k : upd_inodes i f (upd_inodes i g k) = upd_inodes i (fun p => f (g p)) k.
Proof.
  etransitivity; [|apply (set_inodes_ext (fun l => alter f i (alter g i l))), alter_alter]. by destruct k.
Qed.

Section TableRules.
Context (E : xpost world) (w : world).

Lemma wp_upd_procs i f p (Q : unit -> world -> Prop) : k_proc (w_k w) !! i = Some p ->
  Q tt (World (upd_procs i f (w_k w)) (w_env w)) -> wp E (upd_proc i f) Q w.
Proof.
  intros Hp HQ. eapply wp_upd_proc; [exact Hp|]. unfold upd_procs in HQ.
  rewrite <- (set_procs_ext <[i := f p]>) in HQ by by apply insert_is_alter. exact HQ.
Qed.

Lemma wp_upd_bufs i f b (Q : unit -> world -> Prop) : bc_buf (k_bcache (w_k w)) !! i = Some b ->
  Q tt (World (upd_bufs i f (w_k w)) (w_env w)) -> wp E (upd_buf i f) Q w.
Proof.
  intros Hp HQ. eapply wp_upd_buf; [exact Hp|]. unfold upd_bufs in HQ.
  rewrite <- (set_bufs_ext <[i := f b]>) in HQ by by apply insert_is_alter. exact HQ.
Qed.

Lemma wp_get_inode i ip (Q : inode -> world -> Prop) : k_inode (w_k w) !! i = Some ip -> Q ip w ->
  wp E (get_inode i) Q w.
Proof. intros H HQ. unfold wp, get_inode, bind, getk, gets. by rewrite H. Qed.

Lemma wp_upd_inodes i f ip (Q : unit -> world -> Prop) : k_inode (w_k w) !! i = Some ip ->
  Q tt (World (upd_inodes i f (w_k w)) (w_env w)) -> wp E (upd_inode i f) Q w.
Proof.
  intros Hp HQ. apply wp_bind, (wp_get_inode _ ip); [done|]. apply wp_modk. unfold upd_inodes in HQ.
  rewrite <- (set_inodes_ext <[i := f ip]>) in HQ by by apply insert_is_alter. exact HQ.
Qed.

Lemma wp_get_file i fl (Q : file -> world -> Prop) : k_file (w_k w) !! i = Some fl -> Q fl w ->
  wp E (get_file i) Q w.
Proof. intros H HQ. unfold wp, get_file, bind, getk, gets. by rewrite H. Qed.

Lemma wp_upd_files i f fl (Q : unit -> world -> Prop) : k_file (w_k w) !! i = Some fl ->
  Q tt (World (upd_files i f (w_k w)) (w_env w)) -> wp E (upd_file i f) Q w.
Proof.
  intros Hp HQ. apply wp_bind, (wp_get_file _ fl); [done|]. apply wp_modk. unfold upd_files in HQ.
  rewrite <- (set_files_ext <[i := f fl]>) in HQ by by apply insert_is_alter. exact HQ.
Qed.
End TableRules.
