(* ===== verification/Kstring.v ===== *)
(** Byte and string routines of kernel/string.c.

    The routines that write memory are loops over [ram] one byte at a time, as the C
    code is; the ones that only read take what the pointer points to as a function
    from offsets to characters, so that they apply to memory ([at_ram]) and to the
    arrays the kernel's structs hold ([at_list]).  The theorems give each routine its
    meaning in one step: [memset] is [fill_bytes], [memmove] is [blit_bytes] whether
    or not the regions overlap, [strncpy] and [safestrcpy] store [strncpy_bytes] and
    [safestrcpy_bytes].  The rest of the development uses those meanings. *)

From S2P Require Export State.

(** Store one byte. *)
Definition store8 (m : ram) (a v : Z) : ram := fun x => if x =? a then u8 v else m x.

(** What a pointer gives at an offset. *)
Definition at_ram (m : ram) (a : Z) : Z -> Z := fun i => m (a + i).
Definition at_list (l : list Z) : Z -> Z := fun i => nth (Z.to_nat i) l 0.

(** * memset *)

(** [for(i = 0; i < n; i++) cdst[i] = c;] *)
Fixpoint memset_loop (m : ram) (cdst c : Z) (i : Z) (n : nat) : ram :=
  match n with
  | O => m
  | S n' => memset_loop (store8 m (cdst + i) c) cdst c (i + 1) n'
  end.
Definition memset (m : ram) (dst c : Z) (n : nat) : ram := memset_loop m dst c 0 n.

(** * memcmp *)
Fixpoint memcmp (s1 s2 : Z -> Z) (n : nat) : Z :=
  match n with
  | O => 0
  | S n' =>
    if negb (u8 (s1 0) =? u8 (s2 0)) then u8 (s1 0) - u8 (s2 0)
    else memcmp (fun i => s1 (i + 1)) (fun i => s2 (i + 1)) n'
  end.

(** * memmove *)

(** [while(n-- > 0) *--d = *--s;] *)
Fixpoint copy_down (m : ram) (d s : Z) (n : nat) : ram :=
  match n with
  | O => m
  | S n' => copy_down (store8 m (d - 1) (m (s - 1))) (d - 1) (s - 1) n'
  end.

(** [while(n-- > 0) *d++ = *s++;] *)
Fixpoint copy_up (m : ram) (d s : Z) (n : nat) : ram :=
  match n with
  | O => m
  | S n' => copy_up (store8 m d (m s)) (d + 1) (s + 1) n'
  end.

Definition memmove (m : ram) (dst src : Z) (n : nat) : ram :=
  if (n =? 0)%nat then m
  else if (src <? dst) && (src + Z.of_nat n >? dst)
  then copy_down m (dst + Z.of_nat n) (src + Z.of_nat n) n
  else copy_up m dst src n.

(** * strncmp *)
Fixpoint strncmp (p q : Z -> Z) (n : nat) : Z :=
  match n with
  | O => 0
  | S n' =>
    if negb (u8 (p 0) =? 0) && (u8 (p 0) =? u8 (q 0))
    then strncmp (fun i => p (i + 1)) (fun i => q (i + 1)) n'
    else u8 (p 0) - u8 (q 0)
  end.

(** * strncpy *)

(** [while(n-- > 0) *s++ = 0;] *)
Fixpoint strncpy_pad (m : ram) (s : Z) (n : nat) : ram :=
  match n with
  | O => m
  | S n' => strncpy_pad (store8 m s 0) (s + 1) n'
  end.

(** [while(n-- > 0 && ( *s++ = *t++) != 0) ;] then the padding. *)
Fixpoint strncpy (m : ram) (s t : Z) (n : nat) : ram :=
  match n with
  | O => m
  | S n' =>
    let m' := store8 m s (m t) in
    if u8 (m t) =? 0 then strncpy_pad m' (s + 1) n' else strncpy m' (s + 1) (t + 1) n'
  end.

(** * safestrcpy *)

(** [while(--n > 0 && ( *s++ = *t++) != 0) ; *s = 0;] with [n] already decremented. *)
Fixpoint safestrcpy_loop (m : ram) (s t : Z) (n : nat) : ram :=
  match n with
  | O => store8 m s 0
  | S n' =>
    let m' := store8 m s (m t) in
    if u8 (m t) =? 0 then store8 m' (s + 1) 0 else safestrcpy_loop m' (s + 1) (t + 1) n'
  end.
Definition safestrcpy (m : ram) (s t n : Z) : ram :=
  if n <=? 0 then m else safestrcpy_loop m s t (Z.to_nat (n - 1)).

(** * strlen, with a bound on how far the terminating NUL may be *)
Fixpoint strlen (s : Z -> Z) (fuel : nat) : option Z :=
  match fuel with
  | O => None
  | S f => if u8 (s 0) =? 0 then Some 0
           else (fun n => n + 1) <$> strlen (fun i => s (i + 1)) f
  end.

(** * What the routines compute *)

(** The C string a pointer gives, looking at no more than [n] characters. *)
Fixpoint cstr (p : Z -> Z) (n : nat) : list Z :=
  match n with
  | O => []
  | S n' => if u8 (p 0) =? 0 then [] else u8 (p 0) :: cstr (fun i => p (i + 1)) n'
  end.

(** The [n] bytes [strncpy] stores. *)
Definition strncpy_bytes (t : Z -> Z) (n : nat) : list Z :=
  cstr t n ++ replicate (n - length (cstr t n)) 0.

(** The bytes [safestrcpy] stores: the NUL that ends a string shorter than the
    bound is stored twice. *)
Definition safestrcpy_bytes (t : Z -> Z) (n : nat) : list Z :=
  cstr t (n - 1) ++ (if (length (cstr t (n - 1)) <? n - 1)%nat then [0; 0] else [0]).

Definition is_bytes (m : ram) : Prop := forall x, 0 <= m x < 256.
Definition disjoint (a n b k : Z) : Prop := a + n <= b \/ b + k <= a.

Section Facts.
Implicit Types (m : ram) (a d s x : Z) (n : nat).

Lemma store8_same m a v : store8 m a v a = u8 v.
Proof. unfold store8. by rewrite Z.eqb_refl. Qed.
Lemma store8_other m a v x : x <> a -> store8 m a v x = m x.
Proof. intros. unfold store8. by rewrite (proj2 (Z.eqb_neq _ _)). Qed.

Lemma store8_bytes m a v : is_bytes m -> is_bytes (store8 m a v).
Proof. intros H x. unfold store8. case_match; [apply u8_range|apply H]. Qed.

(** Splitting off the first byte of a stored list. *)
Lemma store_bytes_cons m a b l x : 0 <= b < 256 ->
  store_bytes m a (b :: l) x = store_bytes (store8 m a b) (a + 1) l x.
Proof.
  intros Hb. destruct (Z.eq_dec x a) as [->|Hx].
  - rewrite store_bytes_in, store_bytes_out, store8_same, u8_small by (cbn; lia).
    by replace (Z.to_nat (a - a)) with 0%nat by lia.
  - destruct (in_range a (Z.of_nat (length (b :: l))) x) eqn:E.
    + apply in_range_true in E. cbn [length] in E.
      rewrite !store_bytes_in by (cbn [length]; lia).
      by replace (Z.to_nat (x - a)) with (S (Z.to_nat (x - (a + 1)))) by lia.
    + apply in_range_false in E. cbn [length] in E.
      by rewrite !store_bytes_out, store8_other by (cbn [length]; lia).
Qed.

Lemma store_bytes_ext m m' a l x : m x = m' x -> store_bytes m a l x = store_bytes m' a l x.
Proof. unfold store_bytes. by intros ->. Qed.

Lemma memset_loop_fill n : forall m d c i x,
  memset_loop m d c i n x = fill_bytes m (d + i) (Z.of_nat n) (u8 c) x.
Proof.
  induction n as [|n IH]; intros m d c i x; cbn [memset_loop].
  - by rewrite fill_bytes_out by lia.
  - rewrite IH. destruct (Z.eq_dec x (d + i)) as [->|Hx].
    + by rewrite fill_bytes_out, store8_same, fill_bytes_in by lia.
    + destruct (in_range (d + i) (Z.of_nat (S n)) x) eqn:E.
      * apply in_range_true in E. by rewrite !fill_bytes_in by lia.
      * apply in_range_false in E. by rewrite !fill_bytes_out, store8_other by lia.
Qed.

Lemma copy_up_blit n : forall m d s x, is_bytes m ->
  ~ (s < d /\ s + Z.of_nat n > d) -> copy_up m d s n x = blit_bytes m d s (Z.of_nat n) x.
Proof.
  induction n as [|n IH]; intros m d s x Hm Hno; cbn [copy_up].
  - by rewrite blit_bytes_out by lia.
  - rewrite IH by (try apply store8_bytes; auto; lia).
    destruct (Z.eq_dec x d) as [->|Hx].
    + rewrite blit_bytes_out, store8_same, blit_bytes_in, u8_small by (auto; lia).
      f_equal. lia.
    + destruct (in_range d (Z.of_nat (S n)) x) eqn:E.
      * apply in_range_true in E. rewrite !blit_bytes_in by lia.
        rewrite store8_other by lia. f_equal. lia.
      * apply in_range_false in E. by rewrite !blit_bytes_out, store8_other by lia.
Qed.

Lemma copy_down_blit n : forall m d s x, is_bytes m -> s < d ->
  copy_down m d s n x = blit_bytes m (d - Z.of_nat n) (s - Z.of_nat n) (Z.of_nat n) x.
Proof.
  induction n as [|n IH]; intros m d s x Hm Hlt; cbn [copy_down].
  - by rewrite blit_bytes_out by lia.
  - rewrite IH by (try apply store8_bytes; auto; lia).
    destruct (Z.eq_dec x (d - 1)) as [->|Hx].
    + rewrite blit_bytes_out, store8_same, blit_bytes_in, u8_small by (auto; lia).
      f_equal. lia.
    + destruct (in_range (d - Z.of_nat (S n)) (Z.of_nat (S n)) x) eqn:E.
      * apply in_range_true in E. rewrite !blit_bytes_in by lia.
        rewrite store8_other by lia. f_equal. lia.
      * apply in_range_false in E. by rewrite !blit_bytes_out, store8_other by lia.
Qed.

Lemma cstr_length n : forall p, (length (cstr p n) <= n)%nat.
Proof.
  induction n as [|n IH]; intros p; cbn; [lia|]. case_match; cbn; [lia|].
  specialize (IH (fun i => p (i + 1))). lia.
Qed.

Lemma cstr_nonzero n : forall p, Forall (fun c => 0 < c < 256) (cstr p n).
Proof.
  induction n as [|n IH]; intros p; cbn; [constructor|].
  case_match eqn:E; constructor; [|apply IH]. pose proof (u8_range (p 0)). lia.
Qed.

Lemma cstr_ext n : forall p q, (forall i, 0 <= i < Z.of_nat n -> p i = q i) ->
  cstr p n = cstr q n.
Proof.
  induction n as [|n IH]; intros p q H; cbn; [done|].
  rewrite (H 0) by lia. case_match; [done|]. f_equal. apply IH. intros. apply H. lia.
Qed.

Lemma strncpy_bytes_ext n (p q : Z -> Z) :
  (forall i, 0 <= i < Z.of_nat n -> p i = q i) -> strncpy_bytes p n = strncpy_bytes q n.
Proof. intros H. unfold strncpy_bytes. by rewrite (cstr_ext n p q H). Qed.

Lemma safestrcpy_bytes_ext n (p q : Z -> Z) :
  (forall i, 0 <= i < Z.of_nat n -> p i = q i) ->
  safestrcpy_bytes p (S n) = safestrcpy_bytes q (S n).
Proof.
  intros H. unfold safestrcpy_bytes. replace (S n - 1)%nat with n by lia.
  by rewrite (cstr_ext n p q H).
Qed.

(** A list of non-NUL characters followed by a NUL, read back. *)
Lemma cstr_at_list_nul l l' n : Forall (fun c => 0 < c < 256) l ->
  (length l < n)%nat -> cstr (at_list (l ++ 0 :: l')) n = l.
Proof.
  intros Hl. revert n. induction Hl as [|c l Hc _ IH]; intros [|n] Hn; cbn in Hn; try lia.
  - done.
  - cbn [cstr]. change (at_list ((c :: l) ++ 0 :: l') 0) with c.
    rewrite u8_small by lia. rewrite (proj2 (Z.eqb_neq _ _)) by lia. f_equal.
    transitivity (cstr (at_list (l ++ 0 :: l')) n); [|by apply IH; lia]. apply cstr_ext. intros i Hi. unfold at_list.
    by replace (Z.to_nat (i + 1)) with (S (Z.to_nat i)) by lia.
Qed.

Lemma length_strncpy_bytes (t : Z -> Z) n : length (strncpy_bytes t n) = n.
Proof.
  unfold strncpy_bytes. rewrite length_app, length_replicate.
  pose proof (cstr_length n t). lia.
Qed.

Lemma strncpy_pad_store n : forall m s x,
  strncpy_pad m s n x = store_bytes m s (replicate n 0) x.
Proof.
  induction n as [|n IH]; intros m s x; cbn [strncpy_pad replicate].
  - by rewrite store_bytes_out by (cbn; lia).
  - by rewrite store_bytes_cons, IH by lia.
Qed.

Lemma strncpy_bytes_S (t : Z -> Z) n : strncpy_bytes t (S n) =
  if u8 (t 0) =? 0 then 0 :: replicate n 0
  else u8 (t 0) :: strncpy_bytes (fun i => t (i + 1)) n.
Proof. unfold strncpy_bytes. cbn [cstr]. by destruct (u8 (t 0) =? 0). Qed.

Lemma strncpy_store n : forall m s (t : Z) x, disjoint s (Z.of_nat n) t (Z.of_nat n) ->
  strncpy m s t n x = store_bytes m s (strncpy_bytes (at_ram m t) n) x.
Proof.
  induction n as [|n IH]; intros m s t x Hd; cbn [strncpy].
  - by rewrite store_bytes_out by (cbn; lia).
  - rewrite strncpy_bytes_S. unfold at_ram at 1 2. rewrite Z.add_0_r.
    unfold disjoint in Hd. pose proof (u8_range (m t)) as Hr.
    destruct (u8 (m t) =? 0) eqn:E.
    + rewrite store_bytes_cons, strncpy_pad_store by lia. apply store_bytes_ext.
      apply Z.eqb_eq in E. unfold store8. by rewrite E.
    + rewrite store_bytes_cons, IH by (unfold disjoint; lia).
      rewrite (strncpy_bytes_ext n _ (fun i => at_ram m t (i + 1))).
      * apply store_bytes_ext. unfold store8. by rewrite (u8_small (u8 _)).
      * intros i Hi. unfold at_ram. rewrite store8_other by lia. f_equal. lia.
Qed.

Lemma safestrcpy_bytes_S (t : Z -> Z) n : safestrcpy_bytes t (S (S n)) =
  if u8 (t 0) =? 0 then [0; 0]
  else u8 (t 0) :: safestrcpy_bytes (fun i => t (i + 1)) (S n).
Proof.
  unfold safestrcpy_bytes. replace (S (S n) - 1)%nat with (S n) by lia.
  replace (S n - 1)%nat with n by lia. cbn [cstr].
  by destruct (u8 (t 0) =? 0).
Qed.

Lemma safestrcpy_loop_store n : forall m s (t : Z) x,
  disjoint s (Z.of_nat n + 1) t (Z.of_nat n + 1) ->
  safestrcpy_loop m s t n x = store_bytes m s (safestrcpy_bytes (at_ram m t) (S n)) x.
Proof.
  induction n as [|n IH]; intros m s t x Hd; cbn [safestrcpy_loop].
  - change (safestrcpy_bytes (at_ram m t) 1) with [0].
    by rewrite store_bytes_cons, store_bytes_out by (cbn; lia).
  - rewrite safestrcpy_bytes_S. unfold at_ram at 1 2. rewrite Z.add_0_r.
    unfold disjoint in Hd. pose proof (u8_range (m t)) as Hr.
    destruct (u8 (m t) =? 0) eqn:E.
    + rewrite !store_bytes_cons, store_bytes_out by (cbn; lia).
      apply Z.eqb_eq in E. unfold store8. by rewrite E.
    + rewrite store_bytes_cons, IH by (unfold disjoint; lia).
      rewrite (safestrcpy_bytes_ext n _ (fun i => at_ram m t (i + 1))).
      * apply store_bytes_ext. unfold store8. by rewrite (u8_small (u8 _)).
      * intros i Hi. unfold at_ram. rewrite store8_other by lia. f_equal. lia.
Qed.

Lemma length_safestrcpy_bytes (t : Z -> Z) n : (0 < n)%nat ->
  (length (safestrcpy_bytes t n) <= n)%nat.
Proof.
  intros Hn. unfold safestrcpy_bytes. rewrite length_app.
  pose proof (cstr_length (n - 1) t).
  destruct (length (cstr t (n - 1)) <? n - 1)%nat eqn:E; cbn [length]; [|lia].
  apply Nat.ltb_lt in E. lia.
Qed.
End Facts.

(** * Theorems *)

Lemma memmove_blit (m : ram) (dst src : Z) (n : nat) (x : Z) :
  is_bytes m -> memmove m dst src n x = blit_bytes m dst src (Z.of_nat n) x.
Proof.
  intros Hm. unfold memmove. destruct (Nat.eqb_spec n 0) as [->|Hn].
  - by rewrite blit_bytes_out by lia.
  - destruct ((src <? dst) && (src + Z.of_nat n >? dst)) eqn:E.
    + rewrite copy_down_blit by (auto; lia). f_equal; lia.
    + apply copy_up_blit; [done|]. lia.
Qed.

(** The copy depends on the low eight bits of memory only. *)
Lemma store8_u8 m m' a v v' x : (forall y, u8 (m y) = u8 (m' y)) -> u8 v = u8 v' ->
  u8 (store8 m a v x) = u8 (store8 m' a v' x).
Proof. intros Hm Hv. unfold store8. destruct (x =? a); [by rewrite Hv|done]. Qed.

Lemma copy_up_u8 n : forall m m' d s x, (forall y, u8 (m y) = u8 (m' y)) ->
  u8 (copy_up m d s n x) = u8 (copy_up m' d s n x).
Proof.
  induction n as [|n IH]; intros m m' d s x Hm; cbn [copy_up]; [done|].
  apply IH. intros y. by apply store8_u8.
Qed.

Lemma copy_down_u8 n : forall m m' d s x, (forall y, u8 (m y) = u8 (m' y)) ->
  u8 (copy_down m d s n x) = u8 (copy_down m' d s n x).
Proof.
  induction n as [|n IH]; intros m m' d s x Hm; cbn [copy_down]; [done|].
  apply IH. intros y. by apply store8_u8.
Qed.

Lemma u8_idem x : u8 (u8 x) = u8 x.
Proof. apply u8_small, u8_range. Qed.

Lemma memmove_u8 (m : ram) (dst src : Z) (n : nat) (x : Z) :
  u8 (memmove m dst src n x) = u8 (blit_bytes m dst src (Z.of_nat n) x).
Proof.
  set (m' := fun y => u8 (m y)). assert (Hm : forall y, u8 (m y) = u8 (m' y))
    by (intros y; symmetry; apply u8_idem).
  transitivity (u8 (memmove m' dst src n x)).
  - unfold memmove. destruct (n =? 0)%nat; [apply Hm|].
    destruct (_ && _); [by apply copy_down_u8|by apply copy_up_u8].
  - rewrite memmove_blit by (intros y; apply u8_range).
    unfold blit_bytes. destruct (in_range _ _ _); apply u8_idem.
Qed.

Lemma copy_up_out n : forall m d s x, ~ (d <= x < d + Z.of_nat n) -> copy_up m d s n x = m x.
Proof.
  induction n as [|n IH]; intros m d s x Hx; cbn [copy_up]; [done|].
  rewrite IH by lia. apply store8_other. lia.
Qed.

Lemma copy_down_out n : forall m d s x, ~ (d - Z.of_nat n <= x < d) -> copy_down m d s n x = m x.
Proof.
  induction n as [|n IH]; intros m d s x Hx; cbn [copy_down]; [done|].
  rewrite IH by lia. apply store8_other. lia.
Qed.

Lemma memmove_out m dst src n x : ~ (dst <= x < dst + Z.of_nat n) -> memmove m dst src n x = m x.
Proof.
  intros Hx. unfold memmove. destruct (n =? 0)%nat; [done|].
  destruct (_ && _); [apply copy_down_out; lia|by apply copy_up_out].
Qed.

Lemma strncmp_cstr (n : nat) (p q : Z -> Z) :
  strncmp p q n = 0 <-> cstr p n = cstr q n.
Proof.
  revert p q. induction n as [|n IH]; intros p q; cbn [strncmp cstr]; [done|].
  destruct (u8 (p 0) =? 0) eqn:Ep, (u8 (q 0) =? 0) eqn:Eq; cbn [negb andb].
  - split; [done|]. lia.
  - split; [lia|done].
  - destruct (u8 (p 0) =? u8 (q 0)) eqn:E; split; try done; lia.
  - destruct (u8 (p 0) =? u8 (q 0)) eqn:E; rewrite ?IH.
    + apply Z.eqb_eq in E. rewrite E. split; [by intros ->|by intros [= ]].
    + split; [lia|]. intros [= H _]. lia.
Qed.

(** [memset] fills exactly the [n] bytes from [dst] on with the low byte of [c]. *)
Theorem memset_correct (m : ram) (dst c : Z) (n : nat) (x : Z) :
  memset m dst c n x = fill_bytes m dst (Z.of_nat n) (u8 c) x.
Proof. unfold memset. by rewrite memset_loop_fill, Z.add_0_r. Qed.

(** [memmove] copies as if every source byte were read before the first one is
    written, whichever way the two regions overlap: the choice between the upward
    and the downward loop is the right one. *)
Theorem memmove_correct (m : ram) (dst src : Z) (n : nat) (x : Z) :
  is_bytes m -> memmove m dst src n x = blit_bytes m dst src (Z.of_nat n) x.
Proof.
  apply memmove_blit.
Qed.

Lemma memmove_correct_witness :
  let m := store_bytes (fun _ => 0) 100 [1; 2; 3; 4] in
  is_bytes m /\ memmove m 102 100 4 105 = blit_bytes m 102 100 4 105.
Proof.
  intros m. assert (Hm : is_bytes m).
  { intros x. unfold m, store_bytes. case_match; [|lia].
    generalize (Z.to_nat (x - 100)). intros [|[|[|[|k]]]]; cbn; try lia. destruct k; cbn; lia. }
  split; [exact Hm|exact (memmove_correct m 102 100 4 105 Hm)].
Defined.

(** [strncmp] returns 0 exactly when the two strings agree up to a NUL or up to
    [n] characters. *)
Theorem strncmp_zero (n : nat) (p q : Z -> Z) :
  strncmp p q n = 0 <-> cstr p n = cstr q n.
Proof. apply strncmp_cstr. Qed.

(** [safestrcpy] stores at most [n] bytes from [s] on and leaves a
    NUL-terminated string there: the source up to its NUL, cut at [n - 1]
    characters.  Everything else is untouched. *)
Theorem safestrcpy_correct (m : ram) (s t n x : Z) :
  0 < n -> disjoint s n t n ->
  safestrcpy m s t n x = store_bytes m s (safestrcpy_bytes (at_ram m t) (Z.to_nat n)) x
  /\ (length (safestrcpy_bytes (at_ram m t) (Z.to_nat n)) <= Z.to_nat n)%nat
  /\ cstr (at_list (safestrcpy_bytes (at_ram m t) (Z.to_nat n))) (Z.to_nat n)
      = cstr (at_ram m t) (Z.to_nat (n - 1)).
Proof.
  intros Hn Hd. split_and!.
  - unfold safestrcpy. rewrite (proj2 (Z.leb_gt _ _)) by lia.
    rewrite safestrcpy_loop_store by (unfold disjoint in *; lia).
    by replace (S (Z.to_nat (n - 1))) with (Z.to_nat n) by lia.
  - apply length_safestrcpy_bytes. lia.
  - unfold safestrcpy_bytes. replace (Z.to_nat n - 1)%nat with (Z.to_nat (n - 1)) by lia.
    case_match; apply cstr_at_list_nul; auto using cstr_nonzero;
    pose proof (cstr_length (Z.to_nat (n - 1)) (at_ram m t)); lia.
Qed.

Lemma safestrcpy_correct_witness :
  let m := store_bytes (fun _ => 7) 100 [115; 104; 0] in
  0 < 16 /\ disjoint 200 16 100 16
  /\ safestrcpy m 200 100 16 202 = 0
  /\ safestrcpy_bytes (at_ram m 100) 16 = [115; 104; 0; 0]
  /\ cstr (at_list (safestrcpy_bytes (at_ram m 100) 16)) 16 = [115; 104].
Proof.
  intros m. assert (Hd : disjoint 200 16 100 16) by (unfold disjoint; lia).
  pose proof (safestrcpy_correct m 200 100 16 202 ltac:(lia) Hd) as (H1 & _ & H3).
  split_and!; [lia|exact Hd|rewrite H1; vm_compute; reflexivity|vm_compute; reflexivity|].
  etransitivity; [exact H3|vm_compute; reflexivity].
Defined.
