(* ===== verification/Lock.v ===== *)
(** Spinlocks as the rest of the kernel uses them: the list of the locks the running
    hart holds.

    A process runs on one hart between two points where it gives up the CPU, and the
    data a spinlock protects is only changed by the hart that holds it; what a
    function sees of its locks is therefore which ones it holds itself, in
    [k_held], with [mycpu()->noff] the length of that list.  [acquire] and [release]
    call [panic()] where kernel/spinlock.c does.  File Spinlock proves that the code
    of kernel/spinlock.c implements [acquire_held] and [release_held]. *)

From S2P Require Export State.

(** The lock becomes the last acquired; holding it already is the panic
    ["acquire"]. *)
Definition acquire_held (lk : lockid) (held : list lockid) : option (list lockid) :=
  if decide (lk ∈ held) then None else Some (lk :: held).

(** The lock is dropped; not holding it is the panic ["release"]. *)
Fixpoint release_held (lk : lockid) (held : list lockid) : option (list lockid) :=
  match held with
  | [] => None
  | l :: h => if decide (lk = l) then Some h else cons l <$> release_held lk h
  end.

Definition set_held (h : list lockid) : K unit := modk (fun k => k <| k_held := h |>).

Definition acquire (lk : lockid) : K unit :=
  held <- getk k_held ;;
  match acquire_held lk held with
  | Some held' => set_held held'
  | None => panic "acquire"
  end.

Definition release (lk : lockid) : K unit :=
  held <- getk k_held ;;
  match release_held lk held with
  | Some held' => set_held held'
  | None => panic "release"
  end.

Definition holding (lk : lockid) : K bool :=
  held <- getk k_held ;; ret (bool_decide (lk ∈ held)).

(** [mycpu()->noff] *)
Definition noff : K Z := held <- getk k_held ;; ret (Z.of_nat (length held)).

(** [acquire(lk); body; release(lk);] *)
Definition with_lock {A} (lk : lockid) (body : K A) : K A :=
  acquire lk ;;; a <- body ;; release lk ;;; ret a.

Section Rules.
Context (E : xpost world) (w : world).

Lemma wp_acquire lk (Q : unit -> world -> Prop) : lk ∉ k_held (w_k w) ->
  Q tt (w <| w_k ::= fun k => k <| k_held ::= cons lk |> |>) -> wp E (acquire lk) Q w.
Proof.
  intros H HQ. unfold wp, acquire, bind, getk, gets, acquire_held.
  by rewrite decide_False.
Qed.

Lemma wp_release lk h (Q : unit -> world -> Prop) :
  release_held lk (k_held (w_k w)) = Some h ->
  Q tt (w <| w_k ::= fun k => k <| k_held := h |> |>) -> wp E (release lk) Q w.
Proof. intros H HQ. unfold wp, release, bind, getk, gets. by rewrite H. Qed.
End Rules.

Lemma release_held_head lk h : release_held lk (lk :: h) = Some h.
Proof. cbn. by rewrite decide_True. Qed.

Lemma release_held_ne lk lk' h : lk <> lk' ->
  release_held lk (lk' :: h) = cons lk' <$> release_held lk h.
Proof. intros. cbn. by rewrite decide_False. Qed.

(** Acquiring and then releasing leaves the list as it was, also when other locks
    are taken in between and still held. *)
Lemma release_held_app lk l h : lk ∉ l -> release_held lk (l ++ lk :: h) = Some (l ++ h).
Proof.
  induction l as [|x l IH]; intros H; cbn [app].
  - apply release_held_head.
  - apply not_elem_of_cons in H as [Hx Hl]. rewrite release_held_ne by done.
    by rewrite IH.
Qed.

Lemma release_held_None lk h : release_held lk h = None <-> lk ∉ h.
Proof.
  induction h as [|l h IH]; cbn; [split; [intros _; apply not_elem_of_nil|done]|].
  rewrite not_elem_of_cons. case_decide as E; [split; [done|tauto]|].
  rewrite fmap_None, IH. tauto.
Qed.

(** Without repetitions, releasing is removing. *)
Lemma release_held_spec lk h h' : NoDup h -> release_held lk h = Some h' ->
  NoDup h' /\ lk ∈ h /\ length h = S (length h') /\ (forall l, l ∈ h' <-> l ∈ h /\ l <> lk).
Proof.
  intros Hnd. revert h'. induction Hnd as [|l h Hl Hnd IH]; intros h' H; cbn in H; [done|].
  setoid_rewrite elem_of_cons. case_decide as E.
  - simplify_eq. split_and!; [done|by left|done|]. intros x. split; [|naive_solver].
    intros Hx. split; [by right|congruence].
  - apply fmap_Some in H as (h1 & H1 & ->). destruct (IH _ H1) as (A & B & C & D).
    setoid_rewrite elem_of_cons. cbn [length]. rewrite C.
    split_and!; [constructor; naive_solver|by right|done|naive_solver].
Qed.

#[export] Hint Resolve wp_acquire wp_release : kwp.
#[export] Hint Rewrite release_held_head : kint.

Lemma lookup_insert_here {A} (l : list A) i x y :
  l !! i = Some y -> <[i := x]> l !! i = Some x.
Proof. intros H. apply list_lookup_insert_eq. by apply lookup_lt_Some in H. Qed.

Lemma wp_arr_get {A} E (l : list A) i x (Q : A -> world -> Prop) w : 0 <= i -> l !! Z.to_nat i = Some x ->
  Q x w -> wp E (arr_get l i) Q w.
Proof.
  intros Hi Hx HQ. unfold arr_get. rewrite (proj2 (Z.ltb_ge _ _)) by lia. rewrite Hx. by apply wp_ret.
Qed.

Lemma wp_arr_set {A} E (l : list A) i x (Q : list A -> world -> Prop) w : 0 <= i < Z.of_nat (length l) ->
  Q (<[Z.to_nat i := x]> l) w -> wp E (arr_set l i x) Q w.
Proof.
  intros Hi HQ. unfold arr_set. rewrite (proj2 (Z.ltb_ge _ _)) by lia.
  rewrite Z.geb_leb, (proj2 (Z.leb_gt _ _)) by lia. by apply wp_ret.
Qed.

(** The element of an array that the context knows, also after it was updated. *)
Ltac find_elem :=
  cbn; first [eassumption | eapply lookup_insert_here; find_elem].

(** Symbolic execution of kernel code: one step of the goal [wp E m Q w].  Locks must
    be released in the reverse order, which is what the code does nearly everywhere. *)
Ltac kstep :=
  lazymatch goal with
  | |- wp _ (bind _ _) _ _ => apply wp_bind
  | |- wp _ (getk _) _ _ => apply wp_getk
  | |- wp _ (modk _) _ _ => apply wp_modk
  | |- wp _ (set_held _) _ _ => apply wp_modk
  | |- wp _ (acquire _) _ _ => apply wp_acquire; [cbn; try done|]
  | |- wp _ (release _) _ _ => eapply wp_release; [cbn; apply release_held_head|]
  | |- wp _ (with_lock _ _) _ _ => unfold with_lock
  | |- wp _ (get_proc _) _ _ => eapply wp_get_proc; [find_elem|]
  | |- wp _ (upd_proc _ _) _ _ => eapply wp_upd_proc; [find_elem|]
  | |- wp _ (from_option_or_fault _ (Some _)) _ _ => apply wp_ret
  | |- wp _ (let _ := _ in _) _ _ => cbv zeta
  | |- wp ?E (when ?b ?m) ?Q ?w =>
    let b' := eval cbn in b in
    lazymatch b' with
    | true => change (wp E m Q w)
    | false => change (wp E (ret tt) Q w)
    | _ => apply wp_when; intros ?
    end
  | |- _ => wp_step
  end; cbn beta iota.
Ltac ksteps := repeat kstep.

(** Worlds that differ only in how they are written are equal. *)
Lemma wp_world_eq {A} (Q : A -> world -> Prop) a w w' : Q a w -> w = w' -> Q a w'.
Proof. by intros ? <-. Qed.
Ltac world_eq :=
  lazymatch goal with
  | H : ?Q ?a ?w |- ?Q ?a ?w' =>
    apply (wp_world_eq Q a w w' H);
    repeat match goal with w : world |- _ => destruct w end;
    repeat match goal with k : kernel |- _ => destruct k end;
    cbn in *; subst; try reflexivity
  end.
