(* ===== verification/Spinlock.v ===== *)
(** Spinlocks on several harts: kernel/spinlock.c.

    [smp] is what the code touches: every hart's [noff], [intena] and the interrupt
    bit of its [sstatus], and every lock's two fields.  [push_off], [pop_off],
    [acquire], [release] and [holding] are the C functions run by one hart without
    interference; a lock another hart holds makes [acquire] spin, which is the
    outcome [Blocked].  [hart_step] is the same code one memory operation at a time,
    so that the harts interleave; [reachable] are the configurations every
    interleaving can reach from the initial one.

    Shown: nesting of [push_off]/[pop_off] restores the interrupt bit; mutual
    exclusion and correctness of [holding()] in every interleaving; the sequential
    functions implement the list of held locks that file Lock gives the rest of the
    kernel. *)

From S2P Require Import Lock.

Record spinlock : Type := Spinlock { locked : Z; lk_cpu : option nat }.
Record cpu : Type := Cpu { cpu_noff : Z; intena : bool; intr : bool }.
Record smp : Type := Smp { cpus : list cpu; locks : lockid -> spinlock }.

Definition eta_spinlock (r : spinlock) : spinlock := Spinlock (locked r) (lk_cpu r).
#[export] Instance set_locked : Setter locked := ltac:(derive_setter eta_spinlock).
#[export] Instance set_lk_cpu : Setter lk_cpu := ltac:(derive_setter eta_spinlock).
Definition eta_cpu (r : cpu) : cpu := Cpu (cpu_noff r) (intena r) (intr r).
#[export] Instance set_cpu_noff : Setter cpu_noff := ltac:(derive_setter eta_cpu).
#[export] Instance set_intena : Setter intena := ltac:(derive_setter eta_cpu).
#[export] Instance set_intr : Setter intr := ltac:(derive_setter eta_cpu).

Definition upd_lock (lk : lockid) (f : spinlock -> spinlock) (s : smp) : smp :=
  Smp (cpus s) (fun l => if decide (l = lk) then f (locks s l) else locks s l).
Definition upd_cpu (h : nat) (f : cpu -> cpu) (s : smp) : smp :=
  Smp (alter f h (cpus s)) (locks s).

(** [mycpu()] *)
Definition mycpu (h : nat) : M smp cpu :=
  c <- gets (fun s => cpus s !! h) ;; from_option_or_fault "cpus" c.
Definition set_cpu (h : nat) (f : cpu -> cpu) : M smp unit := modify (upd_cpu h f).

(** * The functions *)

Definition initlock (lk : lockid) : M smp unit :=
  modify (upd_lock lk (fun l => l <| locked := 0 |> <| lk_cpu := None |>)).

Definition holding (h : nat) (lk : lockid) : M smp bool :=
  l <- gets (fun s => locks s lk) ;;
  ret (negb (locked l =? 0) && bool_decide (lk_cpu l = Some h)).

Definition push_off (h : nat) : M smp unit :=
  c <- mycpu h ;;
  let old := intr c in
  set_cpu h (fun c => c <| intr := false |>) ;;;
  c <- mycpu h ;;
  when (cpu_noff c =? 0) (set_cpu h (fun c => c <| intena := old |>)) ;;;
  set_cpu h (fun c => c <| cpu_noff ::= fun n => n + 1 |>).

Definition pop_off (h : nat) : M smp unit :=
  c <- mycpu h ;;
  if intr c then panic "pop_off - interruptible"
  else if cpu_noff c <? 1 then panic "pop_off"
  else
    set_cpu h (fun c => c <| cpu_noff ::= fun n => n - 1 |>) ;;;
    c <- mycpu h ;;
    when ((cpu_noff c =? 0) && intena c) (set_cpu h (fun c => c <| intr := true |>)).

(** [__sync_lock_test_and_set(&lk->locked, 1)] *)
Definition test_and_set (lk : lockid) : M smp Z :=
  l <- gets (fun s => locks s lk) ;;
  modify (upd_lock lk (fun l => l <| locked := 1 |>)) ;;;
  ret (locked l).

Definition acquire (h : nat) (lk : lockid) : M smp unit :=
  push_off h ;;;
  r <- holding h lk ;;
  if r then panic "acquire"
  else
    old <- test_and_set lk ;;
    if negb (old =? 0) then blocked
    else modify (upd_lock lk (fun l => l <| lk_cpu := Some h |>)).

Definition release (h : nat) (lk : lockid) : M smp unit :=
  r <- holding h lk ;;
  if negb r then panic "release"
  else
    modify (upd_lock lk (fun l => l <| lk_cpu := None |>)) ;;;
    modify (upd_lock lk (fun l => l <| locked := 0 |>)) ;;;
    pop_off h.

Lemma lookup_upd_cpu h f s c : cpus s !! h = Some c -> cpus (upd_cpu h f s) !! h = Some (f c).
Proof. intros H. cbn. by rewrite list_lookup_alter_eq, H. Qed.

Lemma wp_mycpu E h c (Q : cpu -> smp -> Prop) s :
  cpus s !! h = Some c -> Q c s -> wp E (mycpu h) Q s.
Proof. intros H HQ. unfold wp, mycpu, bind, gets. by rewrite H. Qed.

(** What [push_off] does to its hart. *)
Definition pushed (c : cpu) : cpu :=
  Cpu (cpu_noff c + 1) (if cpu_noff c =? 0 then intr c else intena c) false.
(** What [pop_off] does to its hart. *)
Definition popped (c : cpu) : cpu :=
  Cpu (cpu_noff c - 1) (intena c) ((cpu_noff c =? 1) && intena c).

Lemma upd_cpu_upd_cpu h f g s : upd_cpu h f (upd_cpu h g s) = upd_cpu h (fun c => f (g c)) s.
Proof.
  unfold upd_cpu. cbn. f_equal. apply list_eq. intros i. rewrite !list_lookup_alter.
  case_decide; [|done]. rewrite decide_True by done. by destruct (cpus s !! h).
Qed.

Lemma upd_cpu_ext h f g s c : cpus s !! h = Some c -> f c = g c -> upd_cpu h f s = upd_cpu h g s.
Proof.
  intros H Hfg. unfold upd_cpu. f_equal. apply list_eq. intros i.
  rewrite !list_lookup_alter. case_decide; [|done]. rewrite H. cbn. by rewrite Hfg.
Qed.

Lemma push_off_eq h s c : cpus s !! h = Some c ->
  push_off h s = Ok tt (upd_cpu h (fun _ => pushed c) s).
Proof.
  intros H. unfold push_off, mycpu, set_cpu, modify, gets, bind, from_option_or_fault, ret.
  rewrite H. cbn beta iota. rewrite (lookup_upd_cpu _ _ _ _ H). cbn.
  destruct (cpu_noff c =? 0) eqn:En; cbn; rewrite !upd_cpu_upd_cpu; apply (f_equal (Ok tt));
    apply (upd_cpu_ext _ _ _ _ _ H); unfold pushed; rewrite En; done.
Qed.

Lemma pop_off_eq h s c : cpus s !! h = Some c -> intr c = false -> 1 <= cpu_noff c ->
  pop_off h s = Ok tt (upd_cpu h (fun _ => popped c) s).
Proof.
  intros H Hi Hn. unfold pop_off, mycpu, set_cpu, modify, gets, bind, from_option_or_fault, ret.
  rewrite H, Hi. rewrite (proj2 (Z.ltb_ge _ _)) by lia. cbn beta iota.
  rewrite (lookup_upd_cpu _ _ _ _ H). cbn.
  replace (cpu_noff c - 1 =? 0) with (cpu_noff c =? 1) by (destruct (cpu_noff c =? 1) eqn:E; lia).
  destruct ((cpu_noff c =? 1) && intena c) eqn:En; cbn; rewrite ?upd_cpu_upd_cpu; apply (f_equal (Ok tt));
    apply (upd_cpu_ext _ _ _ _ _ H); unfold popped; rewrite En; destruct c; cbn in *; by subst.
Qed.

(** * Nesting of push_off and pop_off *)

Inductive onoff : Type := Push | Pop.
Definition run_onoff (h : nat) (o : onoff) : M smp unit :=
  match o with Push => push_off h | Pop => pop_off h end.

(** Matched sequences: it takes two [pop_off]s to undo two [push_off]s. *)
Inductive balanced : list onoff -> Prop :=
| balanced_nil : balanced []
| balanced_wrap l l' : balanced l -> balanced l' -> balanced (Push :: l ++ Pop :: l').

Definition same_hart (c c' : cpu) : Prop :=
  cpu_noff c' = cpu_noff c /\ intr c' = intr c /\ (0 < cpu_noff c -> intena c' = intena c).

Lemma for_do_app {W X} (body : X -> M W unit) l l' w :
  for_do (l ++ l') body w = bind (for_do l body) (fun _ => for_do l' body) w.
Proof.
  revert w. induction l as [|x l IH]; intros w; cbn [app for_do]; [done|].
  unfold bind in *. by destruct (body x w).
Qed.

Lemma balanced_run h l : balanced l -> forall s c, cpus s !! h = Some c -> 0 <= cpu_noff c ->
  (0 < cpu_noff c -> intr c = false) ->
  exists s' c', for_do l (run_onoff h) s = Ok tt s' /\ cpus s' !! h = Some c' /\ same_hart c c'.
Proof.
  induction 1 as [|l l' _ IH1 _ IH2]; intros s c Hc Hn Hi.
  - exists s, c. by unfold same_hart.
  - cbn [for_do run_onoff]. unfold bind at 1. rewrite (push_off_eq _ _ _ Hc).
    rewrite for_do_app. unfold bind at 1.
    destruct (IH1 (upd_cpu h (fun _ => pushed c) s) (pushed c)) as (s1 & c1 & -> & Hc1 & Hs1).
    { by rewrite (lookup_upd_cpu _ _ _ _ Hc). } { cbn. lia. } { done. }
    destruct Hs1 as (Hs1a & Hs1b & Hs1c). cbn in Hs1a, Hs1b, Hs1c.
    cbn [for_do run_onoff]. unfold bind at 1.
    rewrite (pop_off_eq _ _ _ Hc1) by (done || lia).
    destruct (IH2 (upd_cpu h (fun _ => popped c1) s1) (popped c1)) as (s2 & c2 & -> & Hc2 & Hs2).
    { by rewrite (lookup_upd_cpu _ _ _ _ Hc1). } { cbn. lia. }
    { cbn. intros. rewrite (proj2 (Z.eqb_neq _ _)) by lia. done. }
    exists s2, c2. split_and!; [done|done|]. destruct Hs2 as (A & B & C). cbn in A, B, C.
    rewrite Hs1a in *. unfold same_hart. rewrite A, B, Hs1c by lia.
    destruct (Z.eqb_spec (cpu_noff c) 0) as [H0|H0].
    + rewrite H0. cbn. repeat split; lia.
    + rewrite (proj2 (Z.eqb_neq _ _)) by lia. cbn. repeat split; [lia|symmetry; apply Hi; lia|].
      intros. rewrite C by lia. rewrite Hs1c by lia. done.
Qed.

(** Any matched sequence of [push_off] and [pop_off] runs without a panic and
    leaves the nesting depth and the interrupt bit as they were; inside a critical
    section the saved [intena] is kept too. *)
Theorem push_pop_nesting h l s c :
  balanced l -> cpus s !! h = Some c -> 0 <= cpu_noff c ->
  (0 < cpu_noff c -> intr c = false) ->
  exists s' c', for_do l (run_onoff h) s = Ok tt s' /\ cpus s' !! h = Some c'
    /\ cpu_noff c' = cpu_noff c /\ intr c' = intr c
    /\ (0 < cpu_noff c -> intena c' = intena c).
Proof. intros Hl Hc Hn Hi. exact (balanced_run h l Hl s c Hc Hn Hi). Qed.

Lemma push_pop_nesting_witness :
  let s := Smp [Cpu 0 false true] (fun _ => Spinlock 0 None) in
  balanced [Push; Push; Pop; Pop]
  /\ exists s' c', for_do [Push; Push; Pop; Pop] (run_onoff 0) s = Ok tt s'
     /\ cpus s' !! 0%nat = Some c' /\ cpu_noff c' = 0 /\ intr c' = true.
Proof.
  intros s.
  assert (Hb : balanced [Push; Push; Pop; Pop]).
  { apply (balanced_wrap [Push; Pop] []); [|constructor].
    apply (balanced_wrap [] []); constructor. }
  split; [exact Hb|].
  destruct (push_pop_nesting 0 _ s (Cpu 0 false true) Hb eq_refl ltac:(cbn; lia) ltac:(cbn; lia))
    as (s' & c' & H1 & H2 & H3 & H4 & _).
  exists s', c'. auto.
Defined.

(** * Interleaving *)

(** Where a hart is in [acquire] or [release], between two memory operations. *)
Inductive pc : Type :=
| Idle                         (* in neither function *)
| AcqHolding (lk : lockid)     (* push_off() done, about to test holding() *)
| AcqSpin (lk : lockid)        (* about to try the atomic swap *)
| AcqSetCpu (lk : lockid)      (* the swap gave 0: about to set lk->cpu *)
| RelClearCpu (lk : lockid)    (* holding() was true: about to clear lk->cpu *)
| RelUnlock (lk : lockid)      (* about to store 0 in lk->locked *)
| RelPop                       (* about to call pop_off() *)
| Panicked.

(** A hart's place in the code and the locks whose critical sections it is in: the
    ones [acquire] has returned from and [release] has not been called on. *)
Record hart : Type := Hart { h_pc : pc; h_crit : list lockid }.
Record config : Type := Config { c_smp : smp; c_hart : nat -> hart }.

Definition set_hart (c : config) (h : nat) (s : smp) (x : hart) : config :=
  Config s (fun h' => if decide (h' = h) then x else c_hart c h').

(** One memory operation of hart [h]. *)
Inductive hart_step (h : nat) (c : config) : config -> Prop :=
| step_acquire lk s' : h_pc (c_hart c h) = Idle -> push_off h (c_smp c) = Ok tt s' ->
    hart_step h c (set_hart c h s' (Hart (AcqHolding lk) (h_crit (c_hart c h))))
| step_acq_panic lk : h_pc (c_hart c h) = AcqHolding lk ->
    holding h lk (c_smp c) = Ok true (c_smp c) ->
    hart_step h c (set_hart c h (c_smp c) (Hart Panicked (h_crit (c_hart c h))))
| step_acq_free lk : h_pc (c_hart c h) = AcqHolding lk ->
    holding h lk (c_smp c) = Ok false (c_smp c) ->
    hart_step h c (set_hart c h (c_smp c) (Hart (AcqSpin lk) (h_crit (c_hart c h))))
| step_spin lk old s' : h_pc (c_hart c h) = AcqSpin lk ->
    test_and_set lk (c_smp c) = Ok old s' -> old <> 0 ->
    hart_step h c (set_hart c h s' (Hart (AcqSpin lk) (h_crit (c_hart c h))))
| step_swap lk s' : h_pc (c_hart c h) = AcqSpin lk ->
    test_and_set lk (c_smp c) = Ok 0 s' ->
    hart_step h c (set_hart c h s' (Hart (AcqSetCpu lk) (h_crit (c_hart c h))))
| step_set_cpu lk : h_pc (c_hart c h) = AcqSetCpu lk ->
    hart_step h c (set_hart c h (upd_lock lk (fun l => l <| lk_cpu := Some h |>) (c_smp c))
      (Hart Idle (lk :: h_crit (c_hart c h))))
| step_rel_panic lk : h_pc (c_hart c h) = Idle ->
    holding h lk (c_smp c) = Ok false (c_smp c) ->
    hart_step h c (set_hart c h (c_smp c) (Hart Panicked (h_crit (c_hart c h))))
| step_release lk : h_pc (c_hart c h) = Idle ->
    holding h lk (c_smp c) = Ok true (c_smp c) ->
    hart_step h c (set_hart c h (c_smp c)
      (Hart (RelClearCpu lk) (filter (fun l => l <> lk) (h_crit (c_hart c h)))))
| step_clear_cpu lk : h_pc (c_hart c h) = RelClearCpu lk ->
    hart_step h c (set_hart c h (upd_lock lk (fun l => l <| lk_cpu := None |>) (c_smp c))
      (Hart (RelUnlock lk) (h_crit (c_hart c h))))
| step_unlock lk : h_pc (c_hart c h) = RelUnlock lk ->
    hart_step h c (set_hart c h (upd_lock lk (fun l => l <| locked := 0 |>) (c_smp c))
      (Hart RelPop (h_crit (c_hart c h))))
| step_pop s' : h_pc (c_hart c h) = RelPop -> pop_off h (c_smp c) = Ok tt s' ->
    hart_step h c (set_hart c h s' (Hart Idle (h_crit (c_hart c h))))
| step_pop_panic s' msg : h_pc (c_hart c h) = RelPop -> pop_off h (c_smp c) = Panic msg s' ->
    hart_step h c (set_hart c h s' (Hart Panicked (h_crit (c_hart c h)))).

(** All locks as [initlock] leaves them, all harts outside the two functions. *)
Definition initial (c : config) : Prop :=
  (forall lk, locks (c_smp c) lk = Spinlock 0 None) /\ (forall h, c_hart c h = Hart Idle []).

Inductive reachable : config -> Prop :=
| reach_init c : initial c -> reachable c
| reach_step h c c' : reachable c -> hart_step h c c' -> reachable c'.

(** The hart has won the swap for the lock and has not stored 0 in it yet. *)
Definition owns (x : hart) (lk : lockid) : Prop :=
  lk ∈ h_crit x \/ h_pc x = AcqSetCpu lk \/ h_pc x = RelClearCpu lk \/ h_pc x = RelUnlock lk.

(** [lk->cpu] is this hart. *)
Definition named (x : hart) (lk : lockid) : Prop := lk ∈ h_crit x \/ h_pc x = RelClearCpu lk.

Record lock_inv (c : config) : Prop := LockInv {
  inv_free : forall lk h, locked (locks (c_smp c) lk) = 0 -> ~ owns (c_hart c h) lk;
  inv_one : forall lk h h', owns (c_hart c h) lk -> owns (c_hart c h') lk -> h = h';
  inv_cpu : forall lk h, lk_cpu (locks (c_smp c) lk) = Some h <-> named (c_hart c h) lk;
  inv_rel : forall lk h, h_pc (c_hart c h) = RelClearCpu lk \/ h_pc (c_hart c h) = RelUnlock lk ->
    lk ∉ h_crit (c_hart c h) }.

Lemma named_owns x lk : named x lk -> owns x lk.
Proof. unfold named, owns. tauto. Qed.

Lemma locks_push_off h s s' a : push_off h s = Ok a s' -> locks s' = locks s.
Proof.
  destruct (cpus s !! h) as [c|] eqn:Hc.
  - rewrite (push_off_eq _ _ _ Hc). by intros [= <- <-].
  - unfold push_off, mycpu, bind, gets. by rewrite Hc.
Qed.

Lemma locks_pop_off h s :
  match pop_off h s with Ok _ s' | Panic _ s' => locks s' = locks s | _ => True end.
Proof.
  unfold pop_off, mycpu, bind, gets. destruct (cpus s !! h) as [c|] eqn:Hc; [|done].
  cbn. destruct (intr c); [done|]. destruct (cpu_noff c <? 1); [done|].
  rewrite list_lookup_alter_eq, Hc. cbn.
  by destruct ((cpu_noff c - 1 =? 0) && intena c).
Qed.

Lemma holding_true h lk s b : holding h lk s = Ok b s ->
  b = negb (locked (locks s lk) =? 0) && bool_decide (lk_cpu (locks s lk) = Some h).
Proof. unfold holding, bind, gets, ret. by intros [= <-]. Qed.

Lemma owns_pc x x' lk : h_crit x' = h_crit x ->
  (forall lk, h_pc x' <> AcqSetCpu lk /\ h_pc x' <> RelClearCpu lk /\ h_pc x' <> RelUnlock lk) ->
  (forall lk, h_pc x <> AcqSetCpu lk /\ h_pc x <> RelClearCpu lk /\ h_pc x <> RelUnlock lk) ->
  (owns x' lk <-> owns x lk) /\ (named x' lk <-> named x lk).
Proof. intros Hc H' H. unfold owns, named. rewrite Hc. destruct (H' lk), (H lk). tauto. Qed.

(** A step that keeps what a hart owns and does not change any lock's state. *)
Lemma quiet_step c h s x : lock_inv c ->
  (forall lk, lk_cpu (locks s lk) = lk_cpu (locks (c_smp c) lk)) ->
  (forall lk, locked (locks s lk) = 0 -> locked (locks (c_smp c) lk) = 0) ->
  h_crit x = h_crit (c_hart c h) ->
  (forall lk, h_pc x <> AcqSetCpu lk /\ h_pc x <> RelClearCpu lk /\ h_pc x <> RelUnlock lk) ->
  (forall lk, h_pc (c_hart c h) <> AcqSetCpu lk /\ h_pc (c_hart c h) <> RelClearCpu lk
     /\ h_pc (c_hart c h) <> RelUnlock lk) ->
  lock_inv (set_hart c h s x).
Proof.
  intros [If Io Ic Ir] Hcpu Hlk Hcrit Hx Hold.
  assert (Ho : forall h' lk, owns (c_hart (set_hart c h s x) h') lk <-> owns (c_hart c h') lk).
  { intros h' lk. cbn. case_decide; subst; [|done]. by apply owns_pc. }
  assert (Hn : forall h' lk, named (c_hart (set_hart c h s x) h') lk <-> named (c_hart c h') lk).
  { intros h' lk. cbn. case_decide; subst; [|done]. by apply owns_pc. }
  split; cbn [c_smp set_hart].
  - intros lk h' H0. rewrite Ho. auto.
  - intros lk h1 h2. rewrite !Ho. apply Io.
  - intros lk h'. rewrite Hcpu, Hn. apply Ic.
  - intros lk h'. cbn. case_decide; subst; [|apply Ir]. destruct (Hx lk). tauto.
Qed.

Ltac hart_cases := cbn; repeat case_decide; subst; cbn;
  unfold owns, named in *; cbn in *.

Lemma swap_inv c h lk s' : lock_inv c -> h_pc (c_hart c h) = AcqSpin lk ->
  test_and_set lk (c_smp c) = Ok 0 s' ->
  lock_inv (set_hart c h s' (Hart (AcqSetCpu lk) (h_crit (c_hart c h)))).
Proof.
  intros [If Io Ic Ir] Hpc Ht. unfold test_and_set, bind, gets, modify, ret in Ht.
  injection Ht as H0 <-. specialize (If lk) as If0. rewrite H0 in If0.
  assert (Hno : forall h', ~ owns (c_hart c h') lk) by auto.
  split; cbn [c_smp set_hart].
  - intros lk' h' Hl. cbn in Hl. destruct (decide (lk' = lk)) as [->|Hne].
    { done. }
    specialize (If lk' h' Hl). revert If. hart_cases; [|tauto].
    rewrite Hpc. intros If [?|[?|[?|?]]]; simplify_eq. tauto.
  - intros lk' h1 h2. destruct (decide (lk' = lk)) as [->|Hne].
    + specialize (Hno h1) as N1. specialize (Hno h2) as N2. revert N1 N2. hart_cases; tauto.
    + specialize (Io lk' h1 h2). revert Io. hart_cases; rewrite ?Hpc; intuition congruence.
  - intros lk' h'. specialize (Ic lk' h'). revert Ic. hart_cases; rewrite ?Hpc; intuition congruence.
  - intros lk' h'. specialize (Ir lk' h'). revert Ir. hart_cases; intuition congruence.
Qed.

Lemma set_cpu_inv c h lk : lock_inv c -> h_pc (c_hart c h) = AcqSetCpu lk ->
  lock_inv (set_hart c h (upd_lock lk (fun l => l <| lk_cpu := Some h |>) (c_smp c))
      (Hart Idle (lk :: h_crit (c_hart c h)))).
Proof.
  intros [If Io Ic Ir] Hpc.
  assert (Hown : owns (c_hart c h) lk) by (unfold owns; tauto).
  split; cbn [c_smp set_hart].
  - intros lk' h' Hl. assert (Hl' : locked (locks (c_smp c) lk') = 0).
    { cbn in Hl. by case_decide. }
    assert (lk' <> lk) by (intros ->; by eapply If).
    specialize (If lk' h' Hl'). revert If. hart_cases; rewrite ?elem_of_cons; intuition congruence.
  - intros lk' h1 h2 H1 H2. apply (Io lk'); [revert H1|revert H2];
      hart_cases; rewrite ?elem_of_cons; intuition congruence.
  - intros lk' h'. specialize (Ic lk' h'). destruct (decide (lk' = lk)) as [->|Hne].
    + specialize (Io lk h h' Hown). revert Ic Io. hart_cases; rewrite ?elem_of_cons; intuition congruence.
    + revert Ic. hart_cases; rewrite ?elem_of_cons, ?Hpc; intuition congruence.
  - intros lk' h'. specialize (Ir lk' h'). revert Ir. hart_cases; intuition congruence.
Qed.

Lemma release_inv c h lk : lock_inv c -> h_pc (c_hart c h) = Idle -> lk ∈ h_crit (c_hart c h) ->
  lock_inv (set_hart c h (c_smp c)
    (Hart (RelClearCpu lk) (filter (fun l => l <> lk) (h_crit (c_hart c h))))).
Proof.
  intros [If Io Ic Ir] Hpc Hin.
  assert (Ho : forall h' lk', owns (c_hart (set_hart c h (c_smp c)
    (Hart (RelClearCpu lk) (filter (fun l => l <> lk) (h_crit (c_hart c h))))) h') lk'
    <-> owns (c_hart c h') lk').
  { intros h' lk'. hart_cases; [|done]. rewrite list_elem_of_filter, Hpc.
    destruct (decide (lk' = lk)); subst; intuition congruence. }
  split; cbn [c_smp set_hart].
  - intros lk' h' H0. rewrite Ho. auto.
  - intros lk' h1 h2. rewrite !Ho. apply Io.
  - intros lk' h'. rewrite Ic. hart_cases; [|done]. rewrite list_elem_of_filter, Hpc.
    destruct (decide (lk' = lk)); subst; intuition congruence.
  - intros lk' h'. specialize (Ir lk' h'). revert Ir. hart_cases; [|tauto].
    rewrite list_elem_of_filter. intuition congruence.
Qed.

Lemma clear_cpu_inv c h lk : lock_inv c -> h_pc (c_hart c h) = RelClearCpu lk ->
  lock_inv (set_hart c h (upd_lock lk (fun l => l <| lk_cpu := None |>) (c_smp c))
      (Hart (RelUnlock lk) (h_crit (c_hart c h)))).
Proof.
  intros [If Io Ic Ir] Hpc. pose proof (Ir lk h (or_introl Hpc)) as Hni.
  assert (Hown : owns (c_hart c h) lk) by (unfold owns; tauto).
  assert (Ho : forall h' lk', owns (c_hart (set_hart c h
      (upd_lock lk (fun l => l <| lk_cpu := None |>) (c_smp c))
      (Hart (RelUnlock lk) (h_crit (c_hart c h)))) h') lk' <-> owns (c_hart c h') lk').
  { intros h' lk'. hart_cases; [|done]. rewrite Hpc. intuition congruence. }
  split; cbn [c_smp set_hart].
  - intros lk' h' Hl. rewrite Ho. apply If. cbn in Hl. by case_decide.
  - intros lk' h1 h2. rewrite !Ho. apply Io.
  - intros lk' h'. specialize (Ic lk' h'). destruct (decide (lk' = lk)) as [->|Hne].
    + specialize (Io lk h h' Hown). revert Ic Io. hart_cases; intuition congruence.
    + revert Ic. hart_cases; rewrite ?Hpc; intuition congruence.
  - intros lk' h'. specialize (Ir lk' h'). revert Ir. hart_cases; [|tauto].
    intros Ir [?|?]; simplify_eq. tauto.
Qed.

Lemma unlock_inv c h lk : lock_inv c -> h_pc (c_hart c h) = RelUnlock lk ->
  lock_inv (set_hart c h (upd_lock lk (fun l => l <| locked := 0 |>) (c_smp c))
      (Hart RelPop (h_crit (c_hart c h)))).
Proof.
  intros [If Io Ic Ir] Hpc. pose proof (Ir lk h (or_intror Hpc)) as Hni.
  assert (Hown : owns (c_hart c h) lk) by (unfold owns; tauto).
  split; cbn [c_smp set_hart].
  - intros lk' h' Hl. destruct (decide (lk' = lk)) as [->|Hne].
    + specialize (Io lk h h' Hown). revert Io. hart_cases; intuition congruence.
    + assert (Hl' : locked (locks (c_smp c) lk') = 0) by (cbn in Hl; by rewrite decide_False in Hl).
      specialize (If lk' h' Hl'). revert If. hart_cases; intuition congruence.
  - intros lk' h1 h2 H1 H2. apply (Io lk'); [revert H1|revert H2]; hart_cases; intuition congruence.
  - intros lk' h'. specialize (Ic lk' h').
    assert (Hc : lk_cpu (locks (upd_lock lk (fun l => l <| locked := 0 |>) (c_smp c)) lk')
      = lk_cpu (locks (c_smp c) lk')) by (cbn; by case_decide).
    rewrite Hc, Ic. hart_cases; rewrite ?Hpc; intuition congruence.
  - intros lk' h'. specialize (Ir lk' h'). revert Ir. hart_cases; intuition congruence.
Qed.

Ltac pc_neq := let lk := fresh in intros lk; cbn; repeat split; congruence.

Lemma step_inv h c c' : lock_inv c -> hart_step h c c' -> lock_inv c'.
Proof.
  intros Hinv Hs. destruct Hs;
    try solve [eauto using swap_inv, set_cpu_inv, clear_cpu_inv, unlock_inv].
  - apply quiet_step; auto; rewrite ?(locks_push_off _ _ _ _ H0); try done; pc_neq.
  - apply quiet_step; auto; pc_neq.
  - apply quiet_step; auto; pc_neq.
  - unfold test_and_set, bind, gets, modify, ret in H0. injection H0 as <- <-.
    apply quiet_step; auto; try pc_neq; intros lk'; cbn; case_decide; subst; cbn; try done.
  - apply quiet_step; auto; pc_neq.
  - apply release_inv; auto. apply holding_true in H0. symmetry in H0.
    apply andb_true_iff in H0 as [_ H0]. apply bool_decide_eq_true in H0.
    apply (inv_cpu _ Hinv) in H0 as [?|?]; [done|congruence].
  - pose proof (locks_pop_off h (c_smp c)) as Hl. rewrite H0 in Hl.
    apply quiet_step; auto; rewrite ?Hl; try done; pc_neq.
  - pose proof (locks_pop_off h (c_smp c)) as Hl. rewrite H0 in Hl.
    apply quiet_step; auto; rewrite ?Hl; try done; pc_neq.
Qed.

Lemma reachable_inv c : reachable c -> lock_inv c.
Proof.
  induction 1 as [c [Hl Hh]|]; [|by eapply step_inv].
  split; setoid_rewrite Hh; unfold owns, named; cbn; intros; rewrite ?Hl; cbn;
    rewrite ?elem_of_nil in *; intuition congruence.
Qed.

(** C39. Mutual exclusion: in every interleaving of the harts, one memory operation at a
    time, two harts are never in the critical section of the same lock. *)
Theorem mutual_exclusion c lk h h' :
  reachable c -> lk ∈ h_crit (c_hart c h) -> lk ∈ h_crit (c_hart c h') -> h = h'.
Proof. intros Hr H H'. apply (inv_one _ (reachable_inv _ Hr) lk); by left. Qed.

(** In every interleaving, [holding(lk)] tested by a hart outside [acquire] and
    [release] is true exactly when this hart is in the lock's critical section: the
    two separate fields it reads are never seen in a misleading combination. *)
Theorem holding_correct c lk h :
  reachable c -> h_pc (c_hart c h) = Idle ->
  holding h lk (c_smp c) = Ok (bool_decide (lk ∈ h_crit (c_hart c h))) (c_smp c).
Proof.
  intros Hr Hpc. pose proof (reachable_inv _ Hr) as Hinv.
  unfold holding, bind, gets, ret. do 2 f_equal.
  pose proof (inv_cpu _ Hinv lk h) as Hc. pose proof (inv_free _ Hinv lk h) as Hf.
  unfold named, owns in *. rewrite Hpc in *.
  destruct (Z.eqb_spec (locked (locks (c_smp c) lk)) 0) as [E|E]; cbn.
  - symmetry. apply bool_decide_eq_false. intros ?. apply Hf; auto.
  - apply bool_decide_ext. rewrite Hc. intuition congruence.
Qed.

(** A hart that calls [acquire] on a free lock and is not interrupted gets it. *)
Lemma acquire_reachable c h lk x :
  reachable c -> h_pc (c_hart c h) = Idle -> cpus (c_smp c) !! h = Some x ->
  locked (locks (c_smp c) lk) = 0 ->
  exists c', reachable c' /\ h_pc (c_hart c' h) = Idle /\ lk ∈ h_crit (c_hart c' h).
Proof.
  intros R0 Hpc Hx Hl.
  pose proof (reach_step h _ _ R0 (step_acquire h c lk _ Hpc (push_off_eq h _ _ Hx))) as R1.
  set (c1 := set_hart _ _ _ _) in R1.
  assert (H1 : c_hart c1 h = Hart (AcqHolding lk) (h_crit (c_hart c h))).
  { cbn. by rewrite decide_True. }
  assert (Hh : holding h lk (c_smp c1) = Ok false (c_smp c1)).
  { unfold holding, bind, gets, ret. cbn. by rewrite Hl. }
  pose proof (reach_step h _ _ R1 (step_acq_free h c1 lk (f_equal h_pc H1) Hh)) as R2.
  rewrite H1 in R2. set (c2 := set_hart _ _ _ _) in R2.
  assert (H2 : c_hart c2 h = Hart (AcqSpin lk) (h_crit (c_hart c h))).
  { cbn. by rewrite decide_True. }
  assert (Ht : exists s, test_and_set lk (c_smp c2) = Ok 0 s).
  { unfold test_and_set, bind, gets, modify, ret. cbn. rewrite Hl. by eexists. }
  destruct Ht as [s Ht].
  pose proof (reach_step h _ _ R2 (step_swap h c2 lk _ (f_equal h_pc H2) Ht)) as R3.
  rewrite H2 in R3. set (c3 := set_hart _ _ _ _) in R3.
  assert (H3 : c_hart c3 h = Hart (AcqSetCpu lk) (h_crit (c_hart c h))).
  { cbn. by rewrite decide_True. }
  pose proof (reach_step h _ _ R3 (step_set_cpu h c3 lk (f_equal h_pc H3))) as R4.
  eexists. split; [exact R4|]. cbn. rewrite decide_True by done. cbn. split; [done|by left].
Qed.

(** Two harts, no lock held. *)
Definition demo0 : config :=
  Config (Smp [Cpu 0 false true; Cpu 0 false true] (fun _ => Spinlock 0 None))
    (fun _ => Hart Idle []).

Lemma demo_reachable : exists c, reachable c /\ h_pc (c_hart c 1) = Idle
  /\ LkKmem ∈ h_crit (c_hart c 1).
Proof.
  apply (acquire_reachable demo0 1 LkKmem (Cpu 0 false true)); try done.
  by apply reach_init.
Qed.

Lemma mutual_exclusion_witness :
  exists c, reachable c /\ LkKmem ∈ h_crit (c_hart c 1)
    /\ forall h, LkKmem ∈ h_crit (c_hart c h) -> h = 1%nat.
Proof.
  destruct demo_reachable as (c & Hr & _ & Hin). exists c. split; [exact Hr|].
  split; [exact Hin|]. intros h Hh. exact (mutual_exclusion c LkKmem h 1 Hr Hh Hin).
Defined.

Lemma holding_correct_witness :
  exists c, reachable c /\ holding 1 LkKmem (c_smp c) = Ok true (c_smp c).
Proof.
  destruct demo_reachable as (c & Hr & Hpc & Hin). exists c. split; [exact Hr|].
  rewrite (holding_correct c LkKmem 1 Hr Hpc). by rewrite bool_decide_true.
Defined.

(** * Refinement of the list of held locks *)

(** Hart [h] holds the locks [held]: each has its two fields set to that, the
    nesting depth counts them and interrupts are off while there is one. *)
Record rep (s : smp) (h : nat) (held : list lockid) : Prop := Rep {
  rep_cpu : exists c, cpus s !! h = Some c /\ cpu_noff c = Z.of_nat (length held)
    /\ (held <> [] -> intr c = false);
  rep_held : forall lk, lk ∈ held <-> locked (locks s lk) <> 0 /\ lk_cpu (locks s lk) = Some h;
  rep_nodup : NoDup held }.

Lemma rep_holding s h held lk : rep s h held ->
  holding h lk s = Ok (bool_decide (lk ∈ held)) s.
Proof.
  intros [_ Hh _]. unfold holding, bind, gets, ret. do 2 f_equal.
  rewrite (bool_decide_ext _ _ (Hh lk)).
  destruct (Z.eqb_spec (locked (locks s lk)) 0) as [E|E]; cbn.
  - symmetry. apply bool_decide_eq_false. tauto.
  - apply bool_decide_ext. tauto.
Qed.

(** C40. The C functions implement the abstract lock operations the rest of the kernel
    is modelled with: with [held] the locks the hart holds, [acquire] panics exactly
    when [acquire_held] has no result and otherwise, the lock being free, returns
    with the new list held; [release] likewise. *)
Theorem spinlock_refines s h held lk :
  rep s h held ->
  match acquire_held lk held with
  | None => exists s', acquire h lk s = Panic "acquire" s'
  | Some held' => locked (locks s lk) = 0 ->
      exists s', acquire h lk s = Ok tt s' /\ rep s' h held'
  end
  /\ match release_held lk held with
     | None => release h lk s = Panic "release" s
     | Some held' => exists s', release h lk s = Ok tt s' /\ rep s' h held'
     end.
Proof.
  intros Hrep. destruct (rep_cpu _ _ _ Hrep) as (c & Hc & Hn & Hi). split.
  - unfold acquire_held, acquire. rewrite (bind_Ok _ _ _ _ _ (push_off_eq _ _ _ Hc)).
    set (s1 := upd_cpu h _ s).
    assert (Hh1 : holding h lk s1 = Ok (bool_decide (lk ∈ held)) s1).
    { pose proof (rep_holding s h held lk Hrep) as H. unfold holding, bind, gets, ret in *.
      injection H as H. cbn. by rewrite H. }
    rewrite (bind_Ok _ _ _ _ _ Hh1). case_decide as E.
    + rewrite bool_decide_true by done. by eexists.
    + rewrite bool_decide_false by done. intros H0. eexists. split.
      * unfold test_and_set, bind, gets, modify, ret. cbn. rewrite H0. reflexivity.
      * split.
        { exists (pushed c). subst s1. cbn. rewrite list_lookup_alter_eq, Hc.
          split_and!; [done|cbn; lia|done]. }
        { intros l. cbn. rewrite elem_of_cons, (rep_held _ _ _ Hrep).
          case_decide; subst; cbn; [|tauto]. split; [done|auto]. }
        { constructor; [done|apply (rep_nodup _ _ _ Hrep)]. }
  - unfold release. rewrite (bind_Ok _ _ _ _ _ (rep_holding s h held lk Hrep)).
    destruct (release_held lk held) as [held'|] eqn:Er.
    + destruct (release_held_spec _ _ _ (rep_nodup _ _ _ Hrep) Er) as (Hnd & Hin & Hlen & Hel).
      rewrite bool_decide_true by done. cbn [negb]. unfold bind, modify.
      erewrite pop_off_eq; [|exact Hc|apply Hi; by intros ->|lia].
      eexists. split; [reflexivity|]. split; [|intros l|done].
      * exists (popped c). cbn. rewrite list_lookup_alter_eq, Hc. split_and!; [done|cbn; lia|].
        intros Hne. cbn. rewrite (proj2 (Z.eqb_neq _ _)); [done|].
        destruct held'; [done|]. cbn in Hlen. lia.
      * cbn. rewrite Hel, (rep_held _ _ _ Hrep). repeat case_decide; subst; cbn; [|tauto].
        split; [tauto|]. by intros [].
    + apply release_held_None in Er. by rewrite bool_decide_false.
Qed.

Lemma spinlock_refines_witness :
  rep (c_smp demo0) 1 []
  /\ exists s', acquire 1 LkKmem (c_smp demo0) = Ok tt s' /\ rep s' 1 [LkKmem].
Proof.
  assert (Hr : rep (c_smp demo0) 1 []).
  { split; [by exists (Cpu 0 false true)| |constructor].
    intros lk. cbn. rewrite elem_of_nil. intuition congruence. }
  split; [exact Hr|]. exact (proj1 (spinlock_refines _ 1 [] LkKmem Hr) eq_refl).
Defined.
