(* ===== verification/Kalloc.v ===== *)
(** Physical page allocator with reference counts: kernel/kalloc.c.

    A free page holds the address of the next free page in its first eight bytes, as
    [struct run] does; [freelist_is] relates that chain in memory to the list of free
    pages.  [kmem_inv] is the allocator's invariant: the chain is well formed, has no
    page twice, holds only pages the allocator manages, and every page on it has
    count 0.  The theorems are the functional behaviour of [kalloc] and [kfree] on
    every branch in terms of that list, and that [kinit] establishes the invariant. *)

From S2P Require Export Lock Kstring.

Definition PA_COUNT : Z := PGROUNDUP PHYSTOP / PGSIZE.

(** Kernel states that differ in memory only. *)
Definition only_mem (k k' : kernel) : Prop :=
  k' = k <| k_ram := k_ram k' |> <| k_kmem := k_kmem k' |>.

Lemma only_mem_refl k : only_mem k k.
Proof. by destruct k. Qed.

Lemma only_mem_trans k1 k2 k3 : only_mem k1 k2 -> only_mem k2 k3 -> only_mem k1 k3.
Proof. unfold only_mem. intros H1 H2. rewrite H1 in H2. by rewrite H2. Qed.

Lemma only_mem_held k k' : only_mem k k' -> k_held k' = k_held k.
Proof. unfold only_mem. intros ->. done. Qed.

Section Kalloc.
Context {L : Layout}.

(** [kmem.pte_count[(uint64)pa / PGSIZE] = f(...)]. *)
Definition upd_count (pa : Z) (f : Z -> Z) (k : kernel) : kernel :=
  k <| k_kmem ::= fun km => km <| pte_count ::= fun c i =>
    if i =? u64 pa / PGSIZE then f (c i) else c i |> |>.

Definition modify_count (pa : Z) (f : Z -> Z) : K unit :=
  if u64 pa / PGSIZE <? PA_COUNT then modk (upd_count pa f) else fault "pte_count".

Definition inc_count (pa : Z) : K unit := modify_count pa (fun c => c + 1).
Definition dec_count (pa : Z) : K unit := modify_count pa (fun c => c - 1).
Definition set_count (pa cnt : Z) : K unit := modify_count pa (fun _ => cnt).
Definition get_count (pa : Z) : K Z :=
  if u64 pa / PGSIZE <? PA_COUNT
  then getk (fun k => pte_count (k_kmem k) (u64 pa / PGSIZE)) else fault "pte_count".

Definition safe_inc_count (pa : Z) : K unit :=
  acquire LkKmem ;;; inc_count pa ;;; release LkKmem.

(** [memset(pa, c, PGSIZE)] *)
Definition memset_page (pa c : Z) : K unit :=
  modk (fun k => k <| k_ram ::= fun m => fill_bytes m pa PGSIZE c |>).

Definition kfree (pa : Z) : K unit :=
  if negb (u64 pa mod PGSIZE =? 0) || (pa <? end_) || (u64 pa >=? PHYSTOP)
  then panic "kfree"
  else
    acquire LkKmem ;;;
    dec_count pa ;;;
    c <- get_count pa ;;
    if c >? 0 then release LkKmem
    else
      (* Fill with junk to catch dangling refs. *)
      memset_page pa 1 ;;;
      fl <- getk (fun k => freelist (k_kmem k)) ;;
      modk (fun k => k <| k_ram ::= fun m => store64 m pa fl |>) ;;;
      modk (fun k => k <| k_kmem ::= fun km => km <| freelist := pa |> |>) ;;;
      release LkKmem.

Definition kalloc : K Z :=
  acquire LkKmem ;;;
  r <- getk (fun k => freelist (k_kmem k)) ;;
  when (negb (r =? 0))
    (next <- getk (fun k => load64 (k_ram k) r) ;;
     modk (fun k => k <| k_kmem ::= fun km => km <| freelist := next |> |>)) ;;;
  release LkKmem ;;;
  when (negb (r =? 0)) (memset_page r 5 ;;; set_count r 1) ;;;
  ret r.

Definition freerange (pa_start pa_end : Z) : K unit :=
  loop (Z.to_nat (pa_end / PGSIZE) + 1) (fun p =>
    if p + PGSIZE <=? pa_end
    then set_count p 1 ;;; kfree p ;;; ret (inl (p + PGSIZE))
    else ret (inr tt)) (PGROUNDUP pa_start).

Definition kinit : K unit :=
  modk (fun k => k <| k_kmem ::= fun km => km <| pte_count := fun _ => 0 |> |>) ;;;
  freerange end_ PHYSTOP.

(** * The free list *)

(** The chain of pages that starts at [head]. *)
Fixpoint freelist_is (m : ram) (head : Z) (l : list Z) : Prop :=
  match l with
  | [] => head = 0
  | p :: l' => head = p /\ freelist_is m (load64 m p) l'
  end.

(** A page the allocator manages. *)
Definition page_ok (p : Z) : Prop := p mod PGSIZE = 0 /\ end_ <= p < PHYSTOP.

Definition count (k : kernel) (p : Z) : Z := pte_count (k_kmem k) (p / PGSIZE).

Record kmem_inv (k : kernel) (l : list Z) : Prop := KmemInv {
  inv_list : freelist_is (k_ram k) (freelist (k_kmem k)) l;
  inv_nodup : NoDup l;
  inv_pages : Forall page_ok l;
  inv_counts : Forall (fun p => count k p = 0) l }.

(** The state after a page has been taken off the list. *)
Definition alloc_page (p : Z) (k : kernel) : kernel :=
  upd_count p (fun _ => 1)
    (k <| k_kmem ::= fun km => km <| freelist := load64 (k_ram k) p |> |>
       <| k_ram ::= fun m => fill_bytes m p PGSIZE 5 |>).

(** The state after a reference to a page has been dropped. *)
Definition drop_ref (p : Z) (k : kernel) : kernel := upd_count p (fun c => c - 1) k.
Definition free_page (p : Z) (k : kernel) : kernel :=
  drop_ref p k <| k_ram ::= fun m => store64 (fill_bytes m p PGSIZE 1) p (freelist (k_kmem k)) |>
    <| k_kmem ::= fun km => km <| freelist := p |> |>.

Context {LO : LayoutOk L}.

(** ** Pages *)

Lemma page_ok_facts p : page_ok p ->
  u64 p = p /\ p / PGSIZE < PA_COUNT /\ p mod 4096 = 0 /\ 0 < p < 2 ^ 56 /\ p mod PGSIZE = 0.
Proof.
  intros [Hm Hr]. pose proof layout_end as He. unfold PHYSTOP, KERNBASE in *.
  unfold PGSIZE in *. change PA_COUNT with 557056. rewrite u64_small by lia.
  repeat split; try lia. zlia.
Qed.

Lemma page_disjoint p q : page_ok p -> page_ok q -> p <> q -> p + PGSIZE <= q \/ q + PGSIZE <= p.
Proof. unfold page_ok, PGSIZE. intros [Hp _] [Hq _] Hne. zlia. Qed.

Lemma page_index_inj p q : page_ok p -> page_ok q -> p / PGSIZE = q / PGSIZE -> p = q.
Proof. unfold page_ok, PGSIZE. intros [Hp _] [Hq _] H. zlia. Qed.

Lemma count_upd p q f k : page_ok p -> page_ok q ->
  count (upd_count p f k) q = if decide (q = p) then f (count k p) else count k q.
Proof.
  intros Hp Hq. unfold count. cbn. destruct (page_ok_facts _ Hp) as (-> & _).
  case_decide as E; [subst; by rewrite Z.eqb_refl|].
  rewrite (proj2 (Z.eqb_neq _ _)); [done|]. intros H. by apply page_index_inj in H.
Qed.

Lemma count_upd_eq p f k : page_ok p -> count (upd_count p f k) p = f (count k p).
Proof. intros. rewrite count_upd by done. by rewrite decide_True. Qed.

Lemma count_upd_ne p q f k : page_ok p -> page_ok q -> q <> p ->
  count (upd_count p f k) q = count k q.
Proof. intros. rewrite count_upd by done. by rewrite decide_False. Qed.

Lemma freelist_ext m m' l : forall h,
  (forall p x, p ∈ l -> p <= x < p + 8 -> m x = m' x) -> freelist_is m h l -> freelist_is m' h l.
Proof.
  induction l as [|p l IH]; intros h Hx Hl; cbn [freelist_is] in *; [done|]. destruct Hl as [-> Hl].
  split; [done|]. rewrite <- (load64_ext m m') by (intros; apply (Hx p); [left|]; done).
  apply IH; [|done]. intros q x Hq. apply (Hx q). by right.
Qed.

Lemma freelist_head m h l : freelist_is m h l -> Forall page_ok l ->
  0 <= h < 18446744073709551616 /\ (h = 0 <-> l = []).
Proof.
  intros Hl Hp. destruct l as [|p l]; cbn [freelist_is] in Hl; [subst; split; [lia|done]|].
  destruct Hl as [-> _]. destruct (page_ok_facts p) as (_ & _ & _ & Hr & _); [by apply Forall_cons in Hp as [? _]|]. split; [lia|]. split; [lia|done].
Qed.

(** ** The invariant is kept *)

Lemma alloc_page_inv k p l : kmem_inv k (p :: l) -> kmem_inv (alloc_page p k) l.
Proof.
  intros [Hl Hn Hp Hc]. destruct Hl as [_ Hl]. apply NoDup_cons in Hn as [Hni Hn].
  apply Forall_cons in Hp as [Hpp Hp]. apply Forall_cons_1 in Hc as [_ Hc].
  split; [|done|done|].
  - unfold alloc_page. cbn. eapply freelist_ext; [|exact Hl]. intros q x Hq Hx.
    symmetry. apply fill_bytes_out. rewrite Forall_forall in Hp.
    destruct (page_disjoint p q); auto; [by intros ->|unfold PGSIZE in *; lia..].
  - rewrite Forall_forall in *. intros q Hq. unfold alloc_page.
    rewrite count_upd_ne by (auto; by intros ->). by apply Hc.
Qed.

Lemma drop_ref_inv k p l : page_ok p -> p ∉ l -> kmem_inv k l -> kmem_inv (drop_ref p k) l.
Proof.
  intros Hpp Hni [Hl Hn Hp Hc]. split; try done.
  rewrite Forall_forall in *. intros q Hq. unfold drop_ref.
  rewrite count_upd_ne by (auto; by intros ->). by apply Hc.
Qed.

Lemma free_page_inv k p l : page_ok p -> p ∉ l -> count k p = 1 ->
  kmem_inv k l -> kmem_inv (free_page p k) (p :: l).
Proof.
  intros Hpp Hni Hc1 Hinv. pose proof (drop_ref_inv k p l Hpp Hni Hinv) as [Hl Hn Hp Hc].
  destruct (freelist_head _ _ _ (inv_list _ _ Hinv) Hp) as [Hr _].
  split; cbn; [|by constructor|by constructor|].
  - split; [done|]. rewrite load_store64_same, u64_small by done.
    eapply freelist_ext; [|exact (inv_list _ _ Hinv)]. intros q x Hq Hx. symmetry.
    rewrite Forall_forall in Hp.
    assert (p + PGSIZE <= q \/ q + PGSIZE <= p) as Hd
      by (apply page_disjoint; auto; by intros ->). unfold PGSIZE in *.
    rewrite store64_out, fill_bytes_out by lia. done.
  - constructor; [|exact Hc]. change (count (drop_ref p k) p = 0). unfold drop_ref.
    rewrite count_upd_eq by done. lia.
Qed.

(** ** What the operations do *)

Lemma modify_count_eq p f w : page_ok p ->
  modify_count p f w = Ok tt (w <| w_k ::= upd_count p f |>).
Proof.
  intros H. destruct (page_ok_facts _ H) as (Hu & Hlt & _). unfold modify_count.
  rewrite Hu. by rewrite (proj2 (Z.ltb_lt _ _)).
Qed.

Lemma get_count_eq p w : page_ok p -> get_count p w = Ok (count (w_k w) p) w.
Proof.
  intros H. destruct (page_ok_facts _ H) as (Hu & Hlt & _). unfold get_count.
  rewrite Hu. by rewrite (proj2 (Z.ltb_lt _ _)).
Qed.

Lemma wp_modify_count E p f (Q : unit -> world -> Prop) w : page_ok p ->
  Q tt (w <| w_k ::= upd_count p f |>) -> wp E (modify_count p f) Q w.
Proof. intros H HQ. eapply wp_Ok; [by apply modify_count_eq|done]. Qed.

Lemma wp_get_count E p (Q : Z -> world -> Prop) w : page_ok p ->
  Q (count (w_k w) p) w -> wp E (get_count p) Q w.
Proof. intros H HQ. eapply wp_Ok; [by apply get_count_eq|done]. Qed.

Lemma wp_kalloc E l (Q : Z -> world -> Prop) w :
  LkKmem ∉ k_held (w_k w) -> kmem_inv (w_k w) l ->
  (l = [] -> Q 0 w) ->
  (forall p l', l = p :: l' -> Q p (w <| w_k ::= alloc_page p |>)) ->
  wp E kalloc Q w.
Proof.
  intros Hh Hinv Q0 Q1. unfold kalloc. do 4 kstep.
  destruct (freelist_head _ _ _ (inv_list _ _ Hinv) (inv_pages _ _ Hinv)) as [_ Hz].
  destruct l as [|p l].
  - assert (Hf : freelist (k_kmem (w_k w)) = 0) by by apply Hz.
    cbn. rewrite Hf. ksteps. specialize (Q0 eq_refl). world_eq.
  - assert (Hf : freelist (k_kmem (w_k w)) = p) by apply (inv_list _ _ Hinv).
    assert (Hp : page_ok p) by (apply (Forall_inv (inv_pages _ _ Hinv))).
    assert (Hp0 : (p =? 0) = false) by (destruct (page_ok_facts _ Hp); lia).
    cbn. rewrite Hf, Hp0. ksteps.
    apply wp_modify_count; [done|]. ksteps. specialize (Q1 p l eq_refl). world_eq.
Qed.

Lemma wp_kfree E p (Q : unit -> world -> Prop) w :
  LkKmem ∉ k_held (w_k w) -> page_ok p ->
  (1 < count (w_k w) p -> Q tt (w <| w_k ::= drop_ref p |>)) ->
  (count (w_k w) p <= 1 -> Q tt (w <| w_k ::= free_page p |>)) ->
  wp E (kfree p) Q w.
Proof.
  intros Hh Hp Q1 Q2. destruct (page_ok_facts _ Hp) as (Hu & _ & _ & _ & Hm). destruct Hp as [Hm' Hr].
  assert (Hp : page_ok p) by done. unfold kfree, memset_page. rewrite Hu.
  destruct (negb (p mod PGSIZE =? 0) || (p <? end_) || (p >=? PHYSTOP)) eqn:Eb; [exfalso; lia|].
  ksteps. apply wp_modify_count; [done|]. ksteps. apply wp_get_count; [done|].
  assert (Hc : count (upd_count p (fun c => c - 1) ((w_k w) <| k_held ::= cons LkKmem |>)) p
               = count (w_k w) p - 1).
  { by rewrite count_upd_eq. }
  cbn [w_k set_field set_w_k] in *. rewrite Hc.
  destruct (count (w_k w) p - 1 >? 0) eqn:Ec.
  - ksteps. assert (H : Q tt (w <| w_k ::= drop_ref p |>)) by (apply Q1; lia). world_eq.
  - ksteps. assert (H : Q tt (w <| w_k ::= free_page p |>)) by (apply Q2; lia). world_eq.
Qed.

Lemma wp_safe_inc_count E p (Q : unit -> world -> Prop) w :
  LkKmem ∉ k_held (w_k w) -> page_ok p ->
  Q tt (w <| w_k ::= upd_count p (fun c => c + 1) |>) -> wp E (safe_inc_count p) Q w.
Proof.
  intros Hh Hp HQ. unfold safe_inc_count, inc_count. ksteps. apply wp_modify_count; [done|].
  ksteps. world_eq.
Qed.

Lemma set_count_inv k p c l : page_ok p -> p ∉ l -> kmem_inv k l ->
  kmem_inv (upd_count p (fun _ => c) k) l.
Proof.
  intros Hpp Hni [Hl Hn Hp Hc]. split; try done.
  rewrite Forall_forall in *. intros q Hq.
  rewrite count_upd_ne by (auto; by intros ->). by apply Hc.
Qed.

Lemma free_page_frame p k : k_held (free_page p k) = k_held k.
Proof. done. Qed.

(** The pages below [a] are free. *)
Definition free_below (a : Z) (w : world) : Prop :=
  (LkKmem ∉ k_held (w_k w)) /\
  exists l, kmem_inv (w_k w) l /\ forall q, q ∈ l <-> page_ok q /\ q < a.

Lemma free_below_step a w : free_below a w -> page_ok a ->
  wp total (set_count a 1 ;;; kfree a ;;; ret (@inl Z unit (a + PGSIZE)))
    (fun r w' => r = inl (a + PGSIZE) /\ free_below (a + PGSIZE) w') w.
Proof.
  intros (Hh & l & Hinv & Hl) Ha.
  assert (Hni : a ∉ l) by (rewrite Hl; lia).
  ksteps. apply wp_modify_count; [done|]. ksteps.
  pose proof (set_count_inv _ a 1 l Ha Hni Hinv) as Hinv1.
  assert (Hc1 : count (upd_count a (fun _ => 1) (w_k w)) a = 1) by by rewrite count_upd_eq.
  apply wp_kfree; [done|done|cbn [w_k set_field set_w_k]; lia|]. intros _. ksteps.
  split; [done|]. split; [done|]. exists (a :: l). split.
  - by apply free_page_inv.
  - intros q. rewrite elem_of_cons, Hl. destruct Ha as [Ham Har]. unfold page_ok, PGSIZE in *.
    split; [intros [->|?]; [|lia]; split; [done|lia]|]. intros [[Hq1 Hq2] Hq3]. zlia.
Qed.

(** * Theorems *)

(** C37. [kalloc] on every branch: out of memory it returns 0 and changes nothing;
    otherwise it returns the first free page, filled with 5, with one reference, no
    longer free, and no other page's contents or count change.  It never panics and
    gives its lock back. *)
Theorem kalloc_correct l w :
  LkKmem ∉ k_held (w_k w) -> kmem_inv (w_k w) l ->
  wp total kalloc (fun r w' =>
    w_env w' = w_env w /\ k_held (w_k w') = k_held (w_k w) /\
    match l with
    | [] => r = 0 /\ w' = w
    | p :: l' =>
      r = p /\ page_ok r /\ (r ∉ l') /\ kmem_inv (w_k w') l' /\ count (w_k w') r = 1
      /\ (forall x, k_ram (w_k w') x = if in_range r PGSIZE x then 5 else k_ram (w_k w) x)
      /\ (forall q, page_ok q -> q <> r -> count (w_k w') q = count (w_k w) q)
    end) w.
Proof.
  intros Hh Hinv. apply (wp_kalloc _ l); [done|done|by intros ->|].
  intros p l' ->. assert (Hp : page_ok p) by apply (Forall_inv (inv_pages _ _ Hinv)).
  split_and!; try done.
  - by apply (NoDup_cons p l'), (inv_nodup _ _ Hinv).
  - by apply alloc_page_inv.
  - cbn [w_k set_field set_w_k]. unfold alloc_page. by rewrite count_upd_eq.
  - intros q Hq Hne. cbn [w_k set_field set_w_k]. unfold alloc_page. by rewrite count_upd_ne.
Qed.

(** C38. [kfree] on every branch, for a page that is not free: with more than one
    reference it only drops one and the page's contents stay; with the last one the
    page becomes the first free page.  An address that is not a page of the allocator
    panics. *)
Theorem kfree_correct l p w :
  LkKmem ∉ k_held (w_k w) -> kmem_inv (w_k w) l -> 0 <= p < 2 ^ 64 -> p ∉ l ->
  (page_ok p -> 1 <= count (w_k w) p) ->
  match decide (p mod PGSIZE = 0 /\ end_ <= p < PHYSTOP) with
  | left _ =>
    wp total (kfree p) (fun _ w' =>
      k_held (w_k w') = k_held (w_k w) /\ count (w_k w') p = count (w_k w) p - 1 /\
      (forall q, page_ok q -> q <> p -> count (w_k w') q = count (w_k w) q) /\
      (forall x, in_range p PGSIZE x = false -> k_ram (w_k w') x = k_ram (w_k w) x) /\
      if decide (1 < count (w_k w) p)
      then kmem_inv (w_k w') l /\ k_ram (w_k w') = k_ram (w_k w)
      else kmem_inv (w_k w') (p :: l)) w
  | right _ => kfree p w = Panic "kfree" w
  end.
Proof.
  intros Hh Hinv Hpr Hni Hc. case_decide as Hp.
  - specialize (Hc Hp). apply wp_kfree; [done|done| |]; intros Hcp;
      cbn [w_k set_field set_w_k]; split_and!; try done.
    + unfold drop_ref. by rewrite count_upd_eq.
    + intros q Hq Hne. unfold drop_ref. by rewrite count_upd_ne.
    + case_decide; [|lia]. split; [by apply drop_ref_inv|done].
    + change (count (drop_ref p (w_k w)) p = count (w_k w) p - 1). unfold drop_ref.
      by rewrite count_upd_eq.
    + intros q Hq Hne. change (count (drop_ref p (w_k w)) q = count (w_k w) q).
      unfold drop_ref. by rewrite count_upd_ne.
    + intros x Hx. apply in_range_false in Hx. unfold PGSIZE in Hx. unfold free_page. cbn.
      by rewrite store64_out, fill_bytes_out by (unfold PGSIZE; lia).
    + case_decide; [lia|]. apply free_page_inv; auto. lia.
  - unfold kfree. rewrite u64_small by lia.
    destruct (negb (p mod PGSIZE =? 0) || (p <? end_) || (p >=? PHYSTOP)) eqn:E; [done|].
    exfalso. apply Hp. lia.
Qed.

Lemma wp_kinit w : LkKmem ∉ k_held (w_k w) -> freelist (k_kmem (w_k w)) = 0 ->
  wp total kinit (fun _ w' => (only_mem (w_k w) (w_k w') /\ w_env w' = w_env w) /\
    exists l, kmem_inv (w_k w') l /\ forall p, p ∈ l <-> page_ok p) w.
Proof.
  intros Hh Hf. unfold kinit, freerange. ksteps.
  pose proof layout_end as He. unfold PHYSTOP, KERNBASE in He.
  assert (He' : 0 <= end_ < 2 ^ 64 - 4095) by lia.
  pose proof (PGROUNDUP_bounds _ He') as Hb. pose proof (PGROUNDUP_aligned _ He') as Ha.
  apply (wp_loop _ (fun a w' => free_below a w' /\ a mod 4096 = 0 /\ end_ <= a <= PHYSTOP
      /\ (only_mem (w_k w) (w_k w') /\ w_env w' = w_env w))
    (fun a _ => Z.to_nat ((PHYSTOP - a) / PGSIZE))).
  - split_and!; [|done|lia|unfold PHYSTOP, KERNBASE in *; zlia|by destruct w as [[]]|done]. split; [done|]. exists [].
    split; [split; cbn; try done; constructor|].
    intros q. rewrite elem_of_nil. unfold page_ok, PGSIZE. split; [done|]. intros [[? ?] ?]. zlia.
  - unfold PHYSTOP, KERNBASE, PGSIZE in *. zlia.
  - intros a w' (Hfb & Ham & Har & Hk & Hev). unfold PHYSTOP, KERNBASE, PGSIZE in *.
    destruct (a + 4096 <=? _) eqn:E.
    + eapply wp_mono; [apply wp_and|].
      * apply (free_below_step a); [done|]. split; [done|]. unfold PHYSTOP, KERNBASE. lia.
      * instantiate (1 := fun _ w'' => only_mem (w_k w) (w_k w'') /\ w_env w'' = w_env w).
        ksteps. apply wp_modify_count; [|ksteps].
        { split; [done|]. unfold PHYSTOP, KERNBASE. lia. }
        assert (Ho : forall k', only_mem (w_k w') k' -> only_mem (w_k w) k') by (intros k'; by apply only_mem_trans).
        apply wp_kfree; [cbn; by rewrite (only_mem_held _ _ Hk)|split; [done|]; unfold PHYSTOP, KERNBASE; lia| |];
          intros _; (split; [apply Ho; by destruct w' as [[]]|done]).
      * intros r w'' [[-> Hfb'] [Hk' Hk'']]. unfold PGSIZE in *. split_and!; try done; zlia.
    + apply wp_ret. split; [by split|]. destruct Hfb as (_ & l & Hl & Hq). exists l.
      split; [done|]. intros p. rewrite Hq. split; [tauto|]. intros Hp. split; [done|].
      destruct Hp as [Hp1 Hp2]. unfold PHYSTOP, KERNBASE, PGSIZE in *. zlia.
Qed.

(** [kinit] makes exactly the pages between the end of the kernel and [PHYSTOP]
    free and establishes the allocator's invariant; its loop ends. *)
Theorem kinit_correct w :
  LkKmem ∉ k_held (w_k w) -> freelist (k_kmem (w_k w)) = 0 ->
  wp total kinit (fun _ w' => k_held (w_k w') = k_held (w_k w) /\
    exists l, kmem_inv (w_k w') l /\ forall p, p ∈ l <-> page_ok p) w.
Proof.
  intros Hh Hf. eapply wp_mono; [by apply wp_kinit|]. intros _ w' [[Ho _] Hl]. split; [by apply only_mem_held|done].
Qed.

End Kalloc.

(** * Witnesses: a machine with two free pages *)

Definition two_pages : world := world0 <| w_k ::= fun k =>
  k <| k_kmem := Kmem 2147622912 (fun i =>
         if (i =? 2147622912 / PGSIZE) || (i =? 2147667968 / PGSIZE) then 0 else 1) |>
    <| k_ram := fun x => if x =? 2147622913 then 16 * 13 else if x =? 2147622914 then 2
                         else if x =? 2147622915 then 128 else 0 |> |>.

Lemma two_pages_inv : kmem_inv (L := demo_layout) (w_k two_pages) [2147622912; 2147667968].
Proof.
  split; [by vm_compute| | |].
  - repeat constructor; rewrite ?list_elem_of_In; cbn; lia.
  - repeat constructor; vm_compute; congruence.
  - repeat constructor.
Qed.

Lemma kalloc_correct_witness :
  exists w', kalloc two_pages = Ok 2147622912 w'
  /\ kmem_inv (L := demo_layout) (w_k w') [2147667968].
Proof.
  pose proof demo_layout_ok as LO.
  pose proof (kalloc_correct (L := demo_layout) [2147622912; 2147667968] two_pages) as H.
  specialize (H (not_elem_of_nil _) two_pages_inv).
  apply wp_total_Ok in H as (r & w' & E & _ & _ & -> & _ & _ & Hinv & _).
  exists w'. split; [exact E|exact Hinv].
Defined.

Lemma kfree_correct_witness :
  exists w', kfree (L := demo_layout) 2147672064 two_pages = Ok tt w'
  /\ kmem_inv (L := demo_layout) (w_k w') [2147672064; 2147622912; 2147667968].
Proof.
  pose proof demo_layout_ok as LO.
  assert (Hni : 2147672064 ∉ [2147622912; 2147667968])
    by (rewrite list_elem_of_In; cbn; lia).
  pose proof (kfree_correct (L := demo_layout) [2147622912; 2147667968] 2147672064 two_pages
    (not_elem_of_nil _) two_pages_inv ltac:(lia) Hni ltac:(by vm_compute)) as H.
  rewrite decide_True in H by by vm_compute.
  apply wp_total_Ok in H as ([] & w' & E & _ & _ & _ & _ & Hinv).
  rewrite decide_False in Hinv by by vm_compute.
  exists w'. split; [exact E|exact Hinv].
Defined.

Lemma kinit_correct_witness :
  exists w', kinit (L := demo_layout) world0 = Ok tt w'
  /\ exists l, kmem_inv (L := demo_layout) (w_k w') l /\ 2147622912 ∈ l.
Proof.
  pose proof demo_layout_ok as LO.
  assert (Hp : page_ok (L := demo_layout) 2147622912) by by vm_compute.
  pose proof (kinit_correct (L := demo_layout) world0 (not_elem_of_nil _) eq_refl) as H.
  apply wp_total_Ok in H as ([] & w' & E & _ & l & Hinv & Hl).
  exists w'. split; [exact E|]. exists l. split; [exact Hinv|]. apply Hl, Hp.
Defined.
