(* ===== verification/Vm.v ===== *)
(** Page tables and user memory: kernel/vm.c, and [cow_page_fault] of kernel/trap.c.

    A page table is a page of 512 eight-byte entries in the kernel's memory; [walk]
    returns the address of an entry, 0 for none.  The source and destination
    buffers that [copyout], [copyin] and [copyinstr] have in the kernel are byte
    lists: [copyin] and [copyinstr] return the bytes they stored next to their
    result.  Theorems about these definitions are in the files PageTable, Cow, Uvm,
    Uvmcopy, Copy, Kvm and Spaces. *)

From S2P Require Export Kalloc.

(** [memset(pa, 0, PGSIZE)], which [kalloc]'s null pointer makes a wild write. *)
Definition clear_page (pa : Z) : K unit :=
  if pa =? 0 then fault "null page" else memset_page pa 0.

Definition load_pte (a : Z) : K Z := getk (fun k => load64 (k_ram k) a).
Definition store_pte (a v : Z) : K unit :=
  modk (fun k => k <| k_ram ::= fun m => store64 m a v |>).

(** [&pagetable[PX(level, va)]] *)
Definition pte_addr (pagetable level va : Z) : Z := pagetable + 8 * PX level va.

(** The body of [walk]'s loop; [None] is its [return 0]. *)
Definition walk_level (pagetable level va : Z) (alloc : bool) : K (option Z) :=
  let pte := pte_addr pagetable level va in
  e <- load_pte pte ;;
  if has e PTE_V then ret (Some (PTE2PA e))
  else if negb alloc then ret None
  else
    pagetable' <- kalloc ;;
    if pagetable' =? 0 then ret None
    else
      memset_page pagetable' 0 ;;;
      store_pte pte (Z.lor (PA2PTE pagetable') PTE_V) ;;;
      ret (Some pagetable').

Fixpoint walk_levels (levels : list Z) (pagetable va : Z) (alloc : bool) : K (option Z) :=
  match levels with
  | [] => ret (Some pagetable)
  | level :: levels' =>
    r <- walk_level pagetable level va alloc ;;
    match r with
    | None => ret None
    | Some pagetable' => walk_levels levels' pagetable' va alloc
    end
  end.

Definition walk (pagetable va : Z) (alloc : bool) : K Z :=
  if va >=? MAXVA then panic "walk"
  else
    r <- walk_levels [2; 1] pagetable va alloc ;;
    match r with
    | None => ret 0
    | Some p => ret (pte_addr p 0 va)
    end.

Definition walkaddr (pagetable va : Z) : K Z :=
  if va >=? MAXVA then ret 0
  else
    pte <- walk pagetable va false ;;
    if pte =? 0 then ret 0
    else
      e <- load_pte pte ;;
      if negb (has e PTE_V) then ret 0
      else if negb (has e PTE_U) then ret 0
      else ret (PTE2PA e).

Definition mappages (pagetable va size pa perm : Z) : K Z :=
  if size =? 0 then panic "mappages: size"
  else
    let last := PGROUNDDOWN (u64 (va + size - 1)) in
    loop (Z.to_nat (u64 (last - PGROUNDDOWN va) / PGSIZE) + 1) (fun '(a, pa) =>
      pte <- walk pagetable a true ;;
      if pte =? 0 then ret (inr (-1))
      else
        e <- load_pte pte ;;
        if has e PTE_V then panic "mappages: remap"
        else
          store_pte pte (Z.lor (Z.lor (PA2PTE pa) perm) PTE_V) ;;;
          if a =? last then ret (inr 0)
          else ret (inl (u64 (a + PGSIZE), u64 (pa + PGSIZE))))
      (PGROUNDDOWN va, pa).

Definition kvmmap (kpgtbl va pa sz perm : Z) : K unit :=
  r <- mappages kpgtbl va sz pa perm ;;
  if negb (r =? 0) then panic "kvmmap" else ret tt.

Section Vm.
Context {L : Layout}.

Definition uvmunmap (pagetable va npages : Z) (do_free : bool) : K unit :=
  if negb (va mod PGSIZE =? 0) then panic "uvmunmap: not aligned"
  else
    loop (Z.to_nat npages + 1) (fun a =>
      if a <? u64 (va + npages * PGSIZE) then
        pte <- walk pagetable a false ;;
        if pte =? 0 then panic "uvmunmap: walk"
        else
          e <- load_pte pte ;;
          if negb (has e PTE_V) then panic "uvmunmap: not mapped"
          else if PTE_FLAGS e =? PTE_V then panic "uvmunmap: not a leaf"
          else
            when do_free (kfree (PTE2PA e)) ;;;
            store_pte pte 0 ;;;
            ret (inl (u64 (a + PGSIZE)))
      else ret (inr tt)) va.

Definition uvmcreate : K Z :=
  pagetable <- kalloc ;;
  if pagetable =? 0 then ret 0
  else memset_page pagetable 0 ;;; ret pagetable.

Definition uvmfirst (pagetable : Z) (src : list Z) : K unit :=
  if Z.of_nat (length src) >=? PGSIZE then panic "uvmfirst: more than a page"
  else
    mem <- kalloc ;;
    clear_page mem ;;;
    mappages pagetable 0 PGSIZE mem (Z.lor (Z.lor (Z.lor PTE_W PTE_R) PTE_X) PTE_U) ;;;
    modk (fun k => k <| k_ram ::= fun m => store_bytes m mem src |>).

Definition uvmdealloc (pagetable oldsz newsz : Z) : K Z :=
  if newsz >=? oldsz then ret oldsz
  else
    when (PGROUNDUP newsz <? PGROUNDUP oldsz)
      (let npages := s32 ((PGROUNDUP oldsz - PGROUNDUP newsz) / PGSIZE) in
       uvmunmap pagetable (PGROUNDUP newsz) (u64 npages) true) ;;;
    ret newsz.

Definition uvmalloc (pagetable oldsz newsz xperm : Z) : K Z :=
  if newsz <? oldsz then ret oldsz
  else
    let oldsz := PGROUNDUP oldsz in
    loop (Z.to_nat ((newsz - oldsz) / PGSIZE) + 2) (fun a =>
      if a <? newsz then
        mem <- kalloc ;;
        if mem =? 0 then
          uvmdealloc pagetable a oldsz ;;; ret (inr 0)
        else
          memset_page mem 0 ;;;
          r <- mappages pagetable a PGSIZE mem (Z.lor (Z.lor PTE_R PTE_U) xperm) ;;
          if negb (r =? 0) then
            kfree mem ;;; uvmdealloc pagetable a oldsz ;;; ret (inr 0)
          else ret (inl (u64 (a + PGSIZE)))
      else ret (inr newsz)) oldsz.

(** The recursion descends one level of the table at a time. *)
Fixpoint freewalk_fuel (fuel : nat) (pagetable : Z) : K unit :=
  match fuel with
  | O => out_of_fuel
  | S fuel' =>
    for_do (Z.of_nat <$> seq 0 512) (fun i =>
      pte <- load_pte (pagetable + 8 * i) ;;
      if has pte PTE_V && (Z.land pte (Z.lor (Z.lor PTE_R PTE_W) PTE_X) =? 0) then
        freewalk_fuel fuel' (PTE2PA pte) ;;;
        store_pte (pagetable + 8 * i) 0
      else if has pte PTE_V then panic "freewalk: leaf"
      else ret tt) ;;;
    kfree pagetable
  end.

Definition freewalk (pagetable : Z) : K unit := freewalk_fuel 4 pagetable.

Definition uvmfree (pagetable sz : Z) : K unit :=
  when (sz >? 0) (uvmunmap pagetable 0 (PGROUNDUP sz / PGSIZE) true) ;;;
  freewalk pagetable.

Definition uvmcopy (old new sz : Z) : K Z :=
  loop (Z.to_nat (sz / PGSIZE) + 2) (fun i =>
    if i <? sz then
      pte <- walk old i false ;;
      if pte =? 0 then panic "uvmcopy: pte should exist"
      else
        e <- load_pte pte ;;
        if negb (has e PTE_V) then panic "uvmcopy: page not present"
        else
          (* set the old pte as non-writable and COW-enabled *)
          store_pte pte (Z.lor (Z.land e (Z.lnot PTE_W)) PTE_COW) ;;;
          e <- load_pte pte ;;
          let pa := PTE2PA e in
          safe_inc_count pa ;;;
          r <- mappages new i PGSIZE pa (PTE_FLAGS e) ;;
          if negb (r =? 0) then
            uvmunmap new 0 (i / PGSIZE) true ;;; ret (inr (-1))
          else ret (inl (u64 (i + PGSIZE)))
    else ret (inr 0)) 0.

Definition uvmclear (pagetable va : Z) : K unit :=
  pte <- walk pagetable va false ;;
  if pte =? 0 then panic "uvmclear"
  else
    e <- load_pte pte ;;
    store_pte pte (Z.land e (Z.lnot PTE_U)).

Definition cow_page_fault (pt va : Z) : K Z :=
  if va >=? MAXVA then ret (-1)
  else
    my_pte <- walk pt va false ;;
    if my_pte =? 0 then ret (-1)
    else
      e <- load_pte my_pte ;;
      let flags := PTE_FLAGS e in
      if negb (has flags PTE_U) || negb (has flags PTE_V) || negb (has flags PTE_COW)
      then ret (-1)
      else
        let old_pa := PTE2PA e in
        if old_pa =? 0 then ret (-1)
        else
          (* Make it writable and remove cow *)
          let flags := Z.land (Z.lor flags PTE_W) (Z.lnot PTE_COW) in
          new_pa <- kalloc ;;
          if new_pa =? 0 then ret (-1)
          else
            modk (fun k => k <| k_ram ::= fun m => memmove m new_pa old_pa (Z.to_nat PGSIZE) |>) ;;;
            store_pte my_pte (Z.lor (PA2PTE new_pa) flags) ;;;
            kfree old_pa ;;;
            ret 0.

Definition copyout (pagetable dstva : Z) (src : list Z) : K Z :=
  loop (length src / Z.to_nat PGSIZE + 3) (fun '(dstva, src) =>
    let len := Z.of_nat (length src) in
    if len >? 0 then
      let va0 := PGROUNDDOWN dstva in
      if va0 >=? MAXVA then ret (inr (-1))
      else
        p <- walk pagetable va0 false ;;
        if p =? 0 then ret (inr (-1))
        else
          e <- load_pte p ;;
          if negb (has e PTE_U) || negb (has e PTE_V) then ret (inr (-1))
          else
            let flags := PTE_FLAGS e in
            c <- (if has flags PTE_COW then r <- cow_page_fault pagetable va0 ;; ret (negb (r =? 0))
                  else ret false) ;;
            if (c : bool) then ret (inr (-1))
            else
              pa0 <- walkaddr pagetable va0 ;;
              if pa0 =? 0 then ret (inr (-1))
              else
                let n := Z.to_nat (Z.min (PGSIZE - (dstva - va0)) len) in
                modk (fun k => k <| k_ram ::= fun m =>
                  store_bytes m (pa0 + (dstva - va0)) (take n src) |>) ;;;
                ret (inl (u64 (va0 + PGSIZE), drop n src))
    else ret (inr 0)) (dstva, src).

(** The result and the bytes stored at [dst], also when it fails on the way. *)
Definition copyin (pagetable srcva len : Z) : K (Z * list Z) :=
  loop (Z.to_nat (len / PGSIZE) + 3) (fun '(srcva, len, dst) =>
    if len >? 0 then
      let va0 := PGROUNDDOWN srcva in
      pa0 <- walkaddr pagetable va0 ;;
      if pa0 =? 0 then ret (inr (-1, dst))
      else
        let n := Z.min (PGSIZE - (srcva - va0)) len in
        b <- getk (fun k => load_bytes (k_ram k) (pa0 + (srcva - va0)) (Z.to_nat n)) ;;
        ret (inl (u64 (va0 + PGSIZE), len - n, dst ++ b))
    else ret (inr (0, dst))) (srcva, len, []).

(** [copyinstr]'s inner loop: the bytes stored and whether a NUL was reached. *)
Fixpoint copyinstr_page (m : ram) (p : Z) (n : nat) : list Z * bool :=
  match n with
  | O => ([], false)
  | S n' =>
    if u8 (m p) =? 0 then ([0], true)
    else let '(bs, got_null) := copyinstr_page m (p + 1) n' in (u8 (m p) :: bs, got_null)
  end.

Definition copyinstr (pagetable srcva max : Z) : K (Z * list Z) :=
  loop (Z.to_nat (max / PGSIZE) + 3) (fun '(srcva, max, dst) =>
    if max >? 0 then
      let va0 := PGROUNDDOWN srcva in
      pa0 <- walkaddr pagetable va0 ;;
      if pa0 =? 0 then ret (inr (-1, dst))
      else
        let n := Z.min (PGSIZE - (srcva - va0)) max in
        m <- getk k_ram ;;
        let '(bs, got_null) := copyinstr_page m (pa0 + (srcva - va0)) (Z.to_nat n) in
        if got_null : bool then ret (inr (0, dst ++ bs))
        else ret (inl (u64 (va0 + PGSIZE), max - n, dst ++ bs))
    else ret (inr (-1, dst))) (srcva, max, []).

(** * The kernel's own page table *)

Definition proc_mapstacks (kpgtbl : Z) : K unit :=
  for_do (seq 0 NPROC) (fun i =>
    pa <- kalloc ;;
    if pa =? 0 then panic "kalloc"
    else kvmmap kpgtbl (KSTACK (Z.of_nat i)) pa PGSIZE (Z.lor PTE_R PTE_W)).

Definition kvmmake : K Z :=
  kpgtbl <- kalloc ;;
  clear_page kpgtbl ;;;
  kvmmap kpgtbl UART0 UART0 PGSIZE (Z.lor PTE_R PTE_W) ;;;
  kvmmap kpgtbl VIRTIO0 VIRTIO0 PGSIZE (Z.lor PTE_R PTE_W) ;;;
  kvmmap kpgtbl PLIC PLIC 4194304 (Z.lor PTE_R PTE_W) ;;;
  kvmmap kpgtbl KERNBASE KERNBASE (etext - KERNBASE) (Z.lor PTE_R PTE_X) ;;;
  kvmmap kpgtbl etext etext (PHYSTOP - etext) (Z.lor PTE_R PTE_W) ;;;
  kvmmap kpgtbl TRAMPOLINE trampoline PGSIZE (Z.lor PTE_R PTE_X) ;;;
  proc_mapstacks kpgtbl ;;;
  ret kpgtbl.

Definition kvminit : K unit :=
  pt <- kvmmake ;; modk (fun k => k <| k_pagetable := pt |>).

End Vm.
