(* ===== verification/PageTable.v ===== *)
(** What the page-table code of file Vm does, as a function from virtual pages to
    entries.

    A [tree] names the pages a page table consists of: the root by [[]], the table
    its entry [i] points to by [[i]], and so on; [shape] says that memory holds that
    tree.  [view] is what the table maps: the last-level entry of an address, 0 when
    there is no table for it.  [grows] relates the state before and after a walk
    that may allocate tables: pages have been taken off the free list, the tree has
    grown, and exactly the entries [ed] gives have changed in the view. *)

From S2P Require Export Vm.

Abbreviation tree := (gmap (list Z) Z).

Definition in_page (p x : Z) : Prop := p <= x < p + PGSIZE.
Definition in_pages (ps : list Z) (x : Z) : Prop := exists p, p ∈ ps /\ in_page p x.
Definition in_tree (t : tree) (x : Z) : Prop := exists a p, t !! a = Some p /\ in_page p x.

Definition leaf_addr (t : tree) (va : Z) : option Z :=
  (fun p => pte_addr p 0 va) <$> t !! [PX 2 va; PX 1 va].

Definition view (m : ram) (t : tree) (va : Z) : Z :=
  match leaf_addr t va with Some a => load64 m a | None => 0 end.

(** A user page's address. *)
Definition upage (va : Z) : Prop := 0 <= va < MAXVA /\ va mod 4096 = 0.

Definition no_edit : Z -> option Z := fun _ => None.
Definition edit_then (ed1 ed2 : Z -> option Z) : Z -> option Z := fun va =>
  match ed2 va with Some e => Some e | None => ed1 va end.

Section PageTable.
Context {L : Layout}.

Record shape (m : ram) (root : Z) (t : tree) : Prop := Shape {
  sh_root : t !! [] = Some root;
  sh_depth : forall a p, t !! a = Some p -> (length a <= 2)%nat;
  sh_parent : forall a i, is_Some (t !! (a ++ [i])) -> is_Some (t !! a);
  sh_entry : forall a p i, t !! a = Some p -> (length a < 2)%nat -> 0 <= i < 512 ->
    match t !! (a ++ [i]) with
    | Some q => load64 m (p + 8 * i) = Z.lor (PA2PTE q) PTE_V
    | None => has (load64 m (p + 8 * i)) PTE_V = false
    end;
  sh_page : forall a p, t !! a = Some p -> page_ok p;
  sh_inj : forall a b p, t !! a = Some p -> t !! b = Some p -> a = b }.

(** A page table next to the free list [l]. *)
Record table_inv (k : kernel) (l : list Z) (root : Z) (t : tree) : Prop := TableInv {
  ti_kmem : kmem_inv k l;
  ti_shape : shape (k_ram k) root t;
  ti_free : forall a p, t !! a = Some p -> p ∉ l }.

Record grows (tk : list Z) (ed : Z -> option Z) (k : kernel) (t : tree) (k' : kernel) (t' : tree)
    : Prop := Grows {
  g_only : only_mem k k';
  g_nodes : t ⊆ t';
  g_new : forall a p, t' !! a = Some p -> t !! a = Some p \/ p ∈ tk;
  g_used : forall p, p ∈ tk -> exists a, t' !! a = Some p;
  g_ram : forall x, ~ in_tree t x -> ~ in_pages tk x -> k_ram k' x = k_ram k x;
  g_count : forall q, page_ok q -> count k' q = if decide (q ∈ tk) then 1 else count k q;
  g_view : forall va, upage va ->
    view (k_ram k') t' va = default (view (k_ram k) t va) (ed va) }.

(** From [k] with free list [l] and table [t], the state [k'] with [l'] and [t']. *)
Definition reaches (root : Z) (k : kernel) (l : list Z) (t : tree) (ed : Z -> option Z)
    (k' : kernel) (l' : list Z) (t' : tree) : Prop :=
  exists tk, l = tk ++ l' /\ table_inv k' l' root t' /\ grows tk ed k t k' t'.

Context {LO : LayoutOk L}.

(** ** Entries *)

Lemma has_pow2 x n : 0 <= n -> has x (2 ^ n) = Z.testbit x n.
Proof.
  intros Hn. unfold has. destruct (Z.testbit x n) eqn:E.
  - apply negb_true_iff, Z.eqb_neq. intros H.
    assert (Z.testbit (Z.land x (2 ^ n)) n = false) by by rewrite H, Z.bits_0.
    rewrite Z.land_spec, E, Z.pow2_bits_true in *; done.
  - apply negb_false_iff, Z.eqb_eq, Z.bits_inj'. intros i Hi.
    rewrite Z.land_spec, Z.bits_0, Z.pow2_bits_eqb by lia.
    destruct (Z.eqb_spec n i); [subst; by rewrite E|by rewrite andb_false_r].
Qed.

Lemma has_V x : has x PTE_V = Z.testbit x 0.
Proof. exact (has_pow2 x 0 ltac:(lia)). Qed.
Lemma has_W x : has x PTE_W = Z.testbit x 2.
Proof. exact (has_pow2 x 2 ltac:(lia)). Qed.
Lemma has_U x : has x PTE_U = Z.testbit x 4.
Proof. exact (has_pow2 x 4 ltac:(lia)). Qed.
Lemma has_COW x : has x PTE_COW = Z.testbit x 5.
Proof. exact (has_pow2 x 5 ltac:(lia)). Qed.

Lemma has_flags e f : Z.land f 1023 = f -> has (PTE_FLAGS e) f = has e f.
Proof. intros Hf. unfold has, PTE_FLAGS. by rewrite <- Z.land_assoc, (Z.land_comm 1023 f), Hf. Qed.

Lemma node_pte_V q : has (Z.lor (PA2PTE q) PTE_V) PTE_V = true.
Proof. rewrite has_V, Z.lor_spec. by rewrite orb_true_r. Qed.

Lemma node_pte_pa q : page_ok q -> PTE2PA (Z.lor (PA2PTE q) PTE_V) = q.
Proof.
  intros Hq. destruct (page_ok_facts _ Hq) as (_ & _ & Hm & Hr & _).
  apply PTE2PA_lor; [lia|done|unfold PTE_V; lia].
Qed.

(** ** Memory of different pages *)

Lemma pte_addr_in p level va : in_page p (pte_addr p level va) /\ in_page p (pte_addr p level va + 7).
Proof. unfold in_page, pte_addr, PGSIZE. pose proof (PX_range level va). lia. Qed.

Lemma pages_apart p q x : page_ok p -> page_ok q -> p <> q -> in_page p x -> ~ in_page q x.
Proof. intros Hp Hq Hne. destruct (page_disjoint p q Hp Hq Hne); unfold in_page in *; lia. Qed.

Lemma entry_apart p q i j : page_ok p -> page_ok q -> 0 <= i < 512 -> 0 <= j < 512 ->
  (p <> q \/ i <> j) -> p + 8 * i + 8 <= q + 8 * j \/ q + 8 * j + 8 <= p + 8 * i.
Proof.
  intros Hp Hq Hi Hj [Hne|Hne].
  - destruct (page_disjoint p q Hp Hq Hne); unfold PGSIZE in *; lia.
  - destruct (decide (p = q)) as [->|Hpq]; [lia|].
    destruct (page_disjoint p q Hp Hq Hpq); unfold PGSIZE in *; lia.
Qed.

Lemma load64_page m m' p i : (forall x, in_page p x -> m x = m' x) -> 0 <= i < 512 ->
  load64 m (p + 8 * i) = load64 m' (p + 8 * i).
Proof. intros H Hi. apply load64_ext. intros x Hx. apply H. unfold in_page, PGSIZE. lia. Qed.

Lemma shape_ext m m' root t : (forall x, in_tree t x -> m x = m' x) ->
  shape m root t -> shape m' root t.
Proof.
  intros Hx [H1 H2 Hp H3 H4 H5]. split; try done. intros a p i Ha Hl Hi.
  specialize (H3 a p i Ha Hl Hi).
  rewrite <- (load64_page m m') by (done || (intros; apply Hx; by exists a, p)). done.
Qed.

Lemma view_ext m m' t va : (forall x, in_tree t x -> m x = m' x) -> view m t va = view m' t va.
Proof.
  intros Hx. unfold view, leaf_addr. destruct (t !! _) as [p|] eqn:E; [|done]. cbn.
  apply load64_page; [|apply PX_range]. intros x H. apply Hx. by eexists _, p.
Qed.

(** ** Walking without allocating *)

Lemma walk_level_find m root t p a level va w : k_ram (w_k w) = m ->
  shape m root t -> t !! a = Some p -> (length a < 2)%nat ->
  walk_level p level va false w = Ok (t !! (a ++ [PX level va])) w.
Proof.
  intros <- Hs Ha Hl. pose proof (sh_entry _ _ _ Hs a p (PX level va) Ha Hl (PX_range _ _)) as He.
  unfold walk_level, load_pte, bind, getk, gets, pte_addr. cbn zeta.
  destruct (t !! (a ++ _)) as [q|] eqn:Eq.
  - rewrite He, node_pte_V, node_pte_pa; [done|]. by apply (sh_page _ _ _ Hs _ _ Eq).
  - rewrite He. done.
Qed.

Lemma walk_find root t va w : shape (k_ram (w_k w)) root t -> 0 <= va < MAXVA ->
  walk root va false w = Ok (default 0 (leaf_addr t va)) w.
Proof.
  intros Hs Hva. unfold walk. destruct (va >=? MAXVA) eqn:E; [lia|]. cbn [walk_levels].
  unfold bind at 1 2. erewrite (walk_level_find _ root t root []); [|done|done|apply Hs|cbn; lia].
  cbn [app]. unfold leaf_addr. destruct (t !! [PX 2 va]) as [p|] eqn:Ep.
  - unfold bind. erewrite (walk_level_find _ root t p [PX 2 va]); [|done|done|done|cbn; lia].
    cbn [app]. by destruct (t !! [PX 2 va; PX 1 va]).
  - destruct (t !! [PX 2 va; PX 1 va]) as [p|] eqn:Ep2; [|done].
    destruct (sh_parent _ _ _ Hs [PX 2 va] (PX 1 va)) as [q Hq]; [by eexists|congruence].
Qed.

Lemma leaf_addr_some m root t va a : shape m root t -> leaf_addr t va = Some a ->
  exists p, t !! [PX 2 va; PX 1 va] = Some p /\ page_ok p /\ a = pte_addr p 0 va /\ 0 < a < 2 ^ 56.
Proof.
  intros Hs. unfold leaf_addr. destruct (t !! _) as [p|] eqn:E; cbn; [|done]. intros [= <-].
  exists p. assert (Hp : page_ok p) by by apply (sh_page _ _ _ Hs _ _ E).
  pose proof (pte_addr_in p 0 va) as [Hi _]. destruct (page_ok_facts _ Hp) as (_ & _ & _ & Hr & _).
  pose proof (proj2 Hp) as Hp2. unfold in_page, PHYSTOP, KERNBASE, PGSIZE in *. split_and!; try done; lia.
Qed.

(** ** Walking and allocating *)

Lemma grows_refl k root t : shape (k_ram k) root t -> grows [] no_edit k t k t.
Proof.
  intros Hs. split; try done.
  - apply only_mem_refl.
  - by left.
  - by intros p ?%elem_of_nil.
Qed.

Lemma in_tree_grows tk ed k t k' t' x : grows tk ed k t k' t' -> in_tree t' x ->
  in_tree t x \/ in_pages tk x.
Proof.
  intros Hg (a & p & Ha & Hx). destruct (g_new _ _ _ _ _ _ Hg _ _ Ha) as [H|H];
    [left; by exists a, p|right; by exists p].
Qed.

Lemma grows_trans tk1 tk2 ed1 ed2 k t k1 t1 k2 t2 : (forall p, p ∈ tk2 -> p ∉ tk1) ->
  grows tk1 ed1 k t k1 t1 -> grows tk2 ed2 k1 t1 k2 t2 ->
  grows (tk1 ++ tk2) (edit_then ed1 ed2) k t k2 t2.
Proof.
  intros Hd G1 G2. assert (Hin := fun x => in_tree_grows _ _ _ _ _ _ x G1). destruct G1, G2. split.
  - by eapply only_mem_trans.
  - by trans t1.
  - intros a p H. rewrite elem_of_app. destruct (g_new1 _ _ H) as [H1|H1]; [|by auto].
    destruct (g_new0 _ _ H1); auto.
  - intros p [H|H]%elem_of_app; [|auto]. destruct (g_used0 _ H) as [a Ha]. exists a.
    by apply (lookup_weaken t1).
  - intros x H1 H2. rewrite g_ram1, g_ram0; [done|done| | |].
    + intros (p & Hp & Hx). apply H2. exists p. split; [apply elem_of_app; by left|done].
    + intros H. destruct (Hin x H) as [|(p & Hp & Hx)]; [done|]. apply H2. exists p.
      split; [apply elem_of_app; by left|done].
    + intros (p & Hp & Hx). apply H2. exists p. split; [apply elem_of_app; by right|done].
  - intros q Hq. rewrite g_count1, g_count0 by done.
    destruct (decide (q ∈ tk1 ++ tk2)) as [H|H]; rewrite elem_of_app in H;
      repeat case_decide; tauto || reflexivity.
  - intros va Hva. rewrite g_view1, g_view0 by done. unfold edit_then. by destruct (ed2 va).
Qed.

(** The state after [walk_level] has put a new table for entry [i] of table [p]. *)
Definition add_table (p i q : Z) (k : kernel) : kernel :=
  (alloc_page q k) <| k_ram ::= fun m =>
    store64 (fill_bytes m q PGSIZE 0) (p + 8 * i) (Z.lor (PA2PTE q) PTE_V) |>.

Section AddTable.
Context (k : kernel) (l : list Z) (root : Z) (t : tree) (a : list Z) (p i q : Z).
Context (Hinv : table_inv k (q :: l) root t) (Ha : t !! a = Some p)
  (Hlen : (length a < 2)%nat) (Hi : 0 <= i < 512) (Hnone : t !! (a ++ [i]) = None).

Lemma add_q_ok : page_ok q /\ (q ∉ l) /\ (forall b r, t !! b = Some r -> r <> q /\ page_ok r).
Proof.
  destruct Hinv as [Hk Hs Hf]. split_and!.
  - apply (Forall_inv (inv_pages _ _ Hk)).
  - by apply (NoDup_cons q l), (inv_nodup _ _ Hk).
  - intros b r Hb. split; [|by apply (sh_page _ _ _ Hs _ _ Hb)]. intros ->.
    apply (Hf _ _ Hb). by left.
Qed.

Lemma add_table_ram x : ~ in_page q x -> ~ (p + 8 * i <= x < p + 8 * i + 8) ->
  k_ram (add_table p i q k) x = k_ram k x.
Proof.
  intros Hq Hx. unfold add_table, alloc_page, in_page in *. cbn.
  by rewrite store64_out, !fill_bytes_out by lia.
Qed.

(** Entries of the old tables other than the one written, and of the new one. *)
Lemma add_table_entry b r j : t !! b = Some r -> 0 <= j < 512 -> (b, j) <> (a, i) ->
  load64 (k_ram (add_table p i q k)) (r + 8 * j) = load64 (k_ram k) (r + 8 * j).
Proof.
  intros Hb Hj Hne. destruct add_q_ok as (Hq & _ & Ht). destruct (Ht _ _ Hb) as [Hrq Hr].
  destruct (Ht _ _ Ha) as [_ Hp].
  assert (p <> r \/ i <> j) as Hd.
  { destruct (decide (p = r)) as [->|]; [right|by left]. intros ->. apply Hne. f_equal.
    by apply (sh_inj _ _ _ (ti_shape _ _ _ _ Hinv) b a r). }
  pose proof (entry_apart p r i j Hp Hr Hi Hj Hd).
  apply load64_ext. intros x Hx. apply add_table_ram; [|lia].
  destruct (page_disjoint r q Hr Hq Hrq); unfold in_page, PGSIZE in *; lia.
Qed.

Lemma add_table_new : load64 (k_ram (add_table p i q k)) (p + 8 * i) = Z.lor (PA2PTE q) PTE_V.
Proof.
  destruct add_q_ok as (Hq & _ & _). destruct (page_ok_facts _ Hq) as (_ & _ & _ & Hr & _).
  unfold add_table. cbn. rewrite load_store64_same. apply u64_small.
  pose proof (pte_range q PTE_V). unfold PTE_V in *. lia.
Qed.

Lemma add_table_zero j : 0 <= j < 512 -> load64 (k_ram (add_table p i q k)) (q + 8 * j) = 0.
Proof.
  intros Hj. destruct add_q_ok as (Hq & _ & Ht). destruct (Ht _ _ Ha) as [Hpq Hp].
  pose proof (entry_apart p q i j Hp Hq Hi Hj (or_introl Hpq)).
  unfold add_table. cbn. rewrite load_store64_other by lia.
  apply load64_fill0; unfold PGSIZE; lia.
Qed.

Lemma add_lookup b r : <[a ++ [i] := q]> t !! b = Some r ->
  (b = a ++ [i] /\ r = q) \/ (t !! b = Some r /\ b <> a ++ [i]).
Proof. rewrite lookup_insert_Some. naive_solver. Qed.

Lemma add_table_shape : shape (k_ram (add_table p i q k)) root (<[a ++ [i] := q]> t).
Proof.
  destruct add_q_ok as (Hq & _ & Ht). pose proof (ti_shape _ _ _ _ Hinv) as Hs.
  assert (Hroot : [] <> a ++ [i]) by by destruct a.
  split.
  - rewrite lookup_insert_ne by done. apply Hs.
  - intros b r [[-> ->]|[Hb _]]%add_lookup; [rewrite length_app; cbn; lia|].
    by apply (sh_depth _ _ _ Hs _ _ Hb).
  - intros b j [r [[E ->]|[Hb _]]%add_lookup].
    + apply app_inj_tail in E as [-> ->]. rewrite lookup_insert_ne; [by eexists|].
      intros E. apply (f_equal length) in E. rewrite length_app in E. cbn in E. lia.
    + destruct (sh_parent _ _ _ Hs b j) as [r' Hr]; [by eexists|].
      destruct (decide (b = a ++ [i])) as [->|]; [congruence|].
      rewrite lookup_insert_ne by done. by eexists.
  - intros b r j [[-> ->]|[Hb Hne]]%add_lookup Hl Hj.
    + rewrite add_table_zero by done.
      assert (E : <[a ++ [i] := q]> t !! ((a ++ [i]) ++ [j]) = None); [|by rewrite E].
      rewrite lookup_insert_ne by (intros E; apply (f_equal length) in E;
        rewrite !length_app in E; cbn in E; lia).
      destruct (t !! ((a ++ [i]) ++ [j])) eqn:E; [|done].
      destruct (sh_parent _ _ _ Hs (a ++ [i]) j) as [r' Hr]; [by eexists|congruence].
    + destruct (decide ((b, j) = (a, i))) as [[= -> ->]|Hd].
      * rewrite lookup_insert_eq. simplify_eq. apply add_table_new.
      * rewrite (add_table_entry b) by done. rewrite lookup_insert_ne.
        -- by apply (sh_entry _ _ _ Hs).
        -- intros E. apply app_inj_tail in E as [-> ->]. done.
  - intros b r [[-> ->]|[Hb _]]%add_lookup; [done|by apply (Ht b)].
  - intros b c r [[-> ->]|[Hb _]]%add_lookup [[-> E]|[Hc _]]%add_lookup; try done.
    + by destruct (Ht _ _ Hc).
    + subst. by destruct (Ht _ _ Hb).
    + by apply (sh_inj _ _ _ Hs b c r).
Qed.

Lemma add_table_inv : table_inv (add_table p i q k) l root (<[a ++ [i] := q]> t).
Proof.
  destruct add_q_ok as (Hq & Hql & Ht). destruct Hinv as [Hk Hs Hf].
  pose proof (alloc_page_inv _ _ _ Hk) as [Hl Hn Hp Hc]. split.
  - split; try done. eapply freelist_ext; [|exact Hl]. intros r x Hr Hx. symmetry.
    assert (Hrok : page_ok r) by (rewrite Forall_forall in Hp; auto).
    assert (r <> q) by by intros ->. destruct (Ht _ _ Ha) as [_ Hpok].
    assert (r <> p) by (intros ->; apply (Hf _ _ Ha); by right).
    pose proof (page_disjoint r q Hrok Hq). pose proof (page_disjoint r p Hrok Hpok).
    unfold add_table, alloc_page. cbn. unfold PGSIZE in *.
    rewrite store64_out, !fill_bytes_out by lia. done.
  - apply add_table_shape.
  - intros b r [[-> ->]|[Hb _]]%add_lookup; [done|]. intros Hr. apply (Hf _ _ Hb). by right.
Qed.

Lemma add_table_grows : grows [q] no_edit k t (add_table p i q k) (<[a ++ [i] := q]> t).
Proof.
  destruct add_q_ok as (Hq & Hql & Ht). destruct Hinv as [Hk Hs Hf].
  split.
  - by destruct k.
  - by apply insert_subseteq.
  - intros b r [[-> ->]|[Hb _]]%add_lookup; [right; by left|by left].
  - intros r ->%list_elem_of_singleton. eexists. apply lookup_insert_eq.
  - intros x H1 H2. apply add_table_ram.
    + intros Hx. apply H2. exists q. split; [by left|done].
    + intros Hx. apply H1. exists a, p. split; [done|]. unfold in_page, PGSIZE. lia.
  - intros r Hr. change (count (alloc_page q k) r = if decide (r ∈ [q]) then 1 else count k r).
    unfold alloc_page. rewrite count_upd by done.
    repeat case_decide; rewrite ?list_elem_of_singleton in *; done.
  - intros va Hva. unfold view, leaf_addr, pte_addr.
    destruct (decide ([PX 2 va; PX 1 va] = a ++ [i])) as [E|E].
    + rewrite E, lookup_insert_eq, Hnone. cbn. apply add_table_zero, PX_range.
    + rewrite lookup_insert_ne by done. destruct (t !! [PX 2 va; PX 1 va]) as [r|] eqn:Er; [|done].
      cbn. apply (add_table_entry [PX 2 va; PX 1 va]); [done|apply PX_range|].
      intros [= <- <-]. cbn in Hlen. lia.
Qed.
End AddTable.

Lemma wp_walk_level_alloc E a p level va l root t (Q : option Z -> world -> Prop) w :
  LkKmem ∉ k_held (w_k w) -> table_inv (w_k w) l root t ->
  t !! a = Some p -> (length a < 2)%nat ->
  (forall q, t !! (a ++ [PX level va]) = Some q -> Q (Some q) w) ->
  (t !! (a ++ [PX level va]) = None -> l = [] -> Q None w) ->
  (forall q l', t !! (a ++ [PX level va]) = None -> l = q :: l' ->
    Q (Some q) (w <| w_k ::= add_table p (PX level va) q |>)) ->
  wp E (walk_level p level va true) Q w.
Proof.
  intros Hh [Hk Hs Hf] Ha Hlen Q1 Q2 Q3. unfold walk_level, load_pte, pte_addr, store_pte, memset_page.
  do 2 kstep.
  pose proof (sh_entry _ _ _ Hs a p (PX level va) Ha Hlen (PX_range _ _)) as He.
  destruct (t !! (a ++ _)) as [q|] eqn:Eq.
  - rewrite He, node_pte_V. apply wp_ret. rewrite node_pte_pa by by apply (sh_page _ _ _ Hs _ _ Eq).
    by apply Q1.
  - rewrite He. cbn [negb]. kstep. apply (wp_kalloc _ l); [done|done| |].
    + intros Hl. by apply Q2.
    + intros q l' ->. assert (Hq : page_ok q) by apply (Forall_inv (inv_pages _ _ Hk)).
      destruct (page_ok_facts _ Hq) as (_ & _ & _ & Hr & _).
      destruct (q =? 0) eqn:E0; [lia|]. ksteps. specialize (Q3 q l' eq_refl eq_refl).
      revert Q3. generalize (PX level va). intros j Q3. destruct w as [k env].
      eapply wp_world_eq; [exact Q3|]. unfold add_table, alloc_page. destruct k, k_kmem. cbn.
      reflexivity.
Qed.

(** A walk that may allocate: the entry's address, or 0 with no page left. *)
(** The nodes [walk] goes through below the root. *)
Definition on_path (va : Z) (a : list Z) : Prop := a = [PX 2 va] \/ a = [PX 2 va; PX 1 va].

(** The nodes of [t'] are nodes of [t] or on the way to a page with [P]. *)
Definition nodes_for (P : Z -> Prop) (t t' : tree) : Prop :=
  forall a, is_Some (t' !! a) -> is_Some (t !! a) \/ exists va, P va /\ on_path va a.

Lemma nodes_for_refl P t : nodes_for P t t.
Proof. intros a. by left. Qed.
Lemma nodes_for_trans P t t1 t2 : nodes_for P t t1 -> nodes_for P t1 t2 -> nodes_for P t t2.
Proof. intros H1 H2 a Ha. destruct (H2 a Ha) as [Ha1|]; [by apply H1|by right]. Qed.
Lemma nodes_for_mono (P P' : Z -> Prop) t t' : (forall v, P v -> P' v) -> nodes_for P t t' -> nodes_for P' t t'.
Proof. intros HP H a Ha. destruct (H a Ha) as [|(v & Hv & Hp)]; [by left|right]. exists v. auto. Qed.
Lemma nodes_for_insert (P : Z -> Prop) va t a q : P va -> on_path va a -> nodes_for P t (<[a := q]> t).
Proof.
  intros HP Hp b [p Hb]. destruct (decide (a = b)) as [<-|Hn]; [right; by exists va|left].
  rewrite lookup_insert_ne in Hb by done. by exists p.
Qed.

Definition walked (l : list Z) (root : Z) (t : tree) (va : Z) (w : world) (r : Z) (w' : world) : Prop :=
  exists tk l' t', l = tk ++ l' /\ table_inv (w_k w') l' root t' /\
    grows tk no_edit (w_k w) t (w_k w') t' /\ w_env w' = w_env w /\ nodes_for (eq va) t t' /\
    match leaf_addr t' va with Some a => r = a | None => r = 0 /\ l' = [] end.

Lemma leaf_addr_is t va p : t !! [PX 2 va; PX 1 va] = Some p -> leaf_addr t va = Some (pte_addr p 0 va).
Proof. unfold leaf_addr. by intros ->. Qed.

Lemma leaf_addr_none m root t va : shape m root t -> t !! [PX 2 va] = None -> leaf_addr t va = None.
Proof.
  intros Hs H. unfold leaf_addr. destruct (t !! [PX 2 va; PX 1 va]) eqn:E; [|done].
  destruct (sh_parent _ _ _ Hs [PX 2 va] (PX 1 va)) as [q Hq]; [by eexists|congruence].
Qed.

Lemma wp_walk_alloc E l root t va w : LkKmem ∉ k_held (w_k w) -> table_inv (w_k w) l root t ->
  0 <= va < MAXVA -> wp E (walk root va true) (walked l root t va w) w.
Proof.
  intros Hh Hinv Hva. unfold walk. destruct (va >=? MAXVA) eqn:E0; [lia|]. cbn [walk_levels].
  assert (Hsnd : forall w1 tk1 l1 t1 p1, l = tk1 ++ l1 -> LkKmem ∉ k_held (w_k w1) ->
    table_inv (w_k w1) l1 root t1 -> grows tk1 no_edit (w_k w) t (w_k w1) t1 -> w_env w1 = w_env w ->
    nodes_for (eq va) t t1 -> t1 !! [PX 2 va] = Some p1 ->
    wp E (walk_level p1 1 va true) (fun r w2 =>
      wp E (match r with Some p => ret (Some p) | None => ret None end) (fun r w3 =>
      wp E (match r with Some p => ret (pte_addr p 0 va) | None => ret 0 end)
        (walked l root t va w) w3) w2) w1).
  { intros w1 tk1 l1 t1 p1 -> Hh1 Hinv1 Hg He Hnd Hp1.
    apply (wp_walk_level_alloc _ [PX 2 va] _ _ _ l1 root t1); [done|done|done|cbn; lia| | |]; cbn [app].
    - intros q Hq. apply wp_ret, wp_ret. exists tk1, l1, t1.
      rewrite (leaf_addr_is _ _ _ Hq). split_and!; done.
    - intros Hn ->. apply wp_ret, wp_ret. exists tk1, [], t1. unfold leaf_addr.
      rewrite Hn. split_and!; done.
    - intros q l2 Hn ->. apply wp_ret, wp_ret.
      exists (tk1 ++ [q]), l2, (<[[PX 2 va; PX 1 va] := q]> t1).
      rewrite (leaf_addr_is _ _ q) by apply lookup_insert_eq. split_and!; try done.
      + by rewrite <- app_assoc.
      + apply (add_table_inv _ l2 root t1 [PX 2 va]); try done; [cbn; lia|apply PX_range].
      + eapply (grows_trans _ _ no_edit no_edit); [|exact Hg|].
        * intros p ->%list_elem_of_singleton Hp. destruct (g_used _ _ _ _ _ _ Hg q Hp) as [b Hb].
          apply (ti_free _ _ _ _ Hinv1 _ _ Hb). by left.
        * apply (add_table_grows _ l2 root t1 [PX 2 va]); try done; [cbn; lia|apply PX_range].
      + eapply nodes_for_trans; [exact Hnd|]. apply (nodes_for_insert _ va); [done|by right]. }
  apply wp_bind, wp_bind.
  pose proof (sh_root _ _ _ (ti_shape _ _ _ _ Hinv)) as Hroot.
  apply (wp_walk_level_alloc _ [] _ _ _ l root t); [done|done|done|cbn; lia| | |]; cbn [app].
  - intros q Hq. apply wp_bind. apply (Hsnd w [] l t q); try done.
    + eapply grows_refl, Hinv.
    + apply nodes_for_refl.
  - intros Hn ->. apply wp_ret, wp_ret. exists [], [], t.
    rewrite (leaf_addr_none (k_ram (w_k w)) root) by (done || apply Hinv). split_and!; try done.
    + eapply grows_refl, Hinv.
    + apply nodes_for_refl.
  - intros q l2 Hn ->. apply wp_bind. apply (Hsnd _ [q] l2 (<[[PX 2 va] := q]> t)); try done.
    + apply (add_table_inv _ l2 root t []); try done; [cbn; lia|apply PX_range].
    + apply (add_table_grows _ l2 root t []); try done; [cbn; lia|apply PX_range].
    + apply (nodes_for_insert _ va); [done|by left].
    + apply lookup_insert_eq.
Qed.

(** ** Storing to an entry *)

Lemma leaf_addr_inj m root t va vb a : shape m root t -> upage va -> upage vb ->
  leaf_addr t va = Some a -> leaf_addr t vb = Some a -> va = vb.
Proof.
  intros Hs [Hva Hma] [Hvb Hmb] Ha Hb.
  destruct (leaf_addr_some _ _ _ _ _ Hs Ha) as (p & Hp & Hpok & -> & _).
  destruct (leaf_addr_some _ _ _ _ _ Hs Hb) as (q & Hq & Hqok & E & _).
  unfold pte_addr in E. pose proof (PX_range 0 va). pose proof (PX_range 0 vb).
  assert (p = q) as ->.
  { destruct (decide (p = q)) as [|Hne]; [done|].
    destruct (page_disjoint p q Hpok Hqok Hne); unfold PGSIZE in *; lia. }
  pose proof (sh_inj _ _ _ Hs _ _ _ Hp Hq) as [= H2 H1]. apply PX_inj; try done. lia.
Qed.

Lemma upd_only_mem f k : only_mem k (k <| k_ram ::= f |>).
Proof. by destruct k. Qed.

Definition edit (va e : Z) : Z -> option Z := fun v => if v =? va then Some e else None.

(** Storing to the entry of [va] changes the view there and nowhere else. *)
Lemma set_leaf k l root t va a e : table_inv k l root t -> upage va ->
  leaf_addr t va = Some a -> 0 <= e < 2 ^ 64 ->
  table_inv (k <| k_ram ::= fun m => store64 m a e |>) l root t
  /\ grows [] (edit va e) k t (k <| k_ram ::= fun m => store64 m a e |>) t.
Proof.
  intros [Hk Hs Hf] Hva Ha He. destruct (leaf_addr_some _ _ _ _ _ Hs Ha) as (p & Hp & Hpok & Ea & _).
  set (k' := k <| k_ram ::= _ |>).
  assert (Hram : forall x, ~ (a <= x < a + 8) -> k_ram k' x = k_ram k x)
    by (intros x Hx; by apply store64_out).
  assert (Hent : forall b r j, t !! b = Some r -> 0 <= j < 512 -> (b, j) <> ([PX 2 va; PX 1 va], PX 0 va) ->
    load64 (k_ram k') (r + 8 * j) = load64 (k_ram k) (r + 8 * j)).
  { intros b r j Hb Hj Hne. pose proof (sh_page _ _ _ Hs _ _ Hb) as Hr.
    assert (p <> r \/ PX 0 va <> j) as Hd.
    { destruct (decide (p = r)) as [->|]; [right|by left]. intros <-. apply Hne. f_equal.
      by apply (sh_inj _ _ _ Hs b _ r). }
    pose proof (entry_apart p r _ j Hpok Hr (PX_range 0 va) Hj Hd).
    apply load64_ext. intros x Hx. apply Hram. unfold pte_addr in Ea. lia. }
  split; [split|split].
  - destruct Hk as [Hl Hn Hpg Hc]. split; try done. eapply freelist_ext; [|exact Hl].
    intros r x Hr Hx. symmetry. apply Hram. rewrite Forall_forall in Hpg.
    assert (r <> p) as Hne by (intros ->; by apply (Hf _ _ Hp)).
    pose proof (PX_range 0 va). unfold pte_addr in Ea.
    destruct (page_disjoint r p (Hpg _ Hr) Hpok Hne); unfold PGSIZE in *; lia.
  - destruct Hs as [H1 H2 H3 H4 H5 H6]. split; try done. intros b r j Hb Hl Hj.
    rewrite (Hent b) by (done || (intros [= -> ->]; cbn in Hl; lia)). by apply H4.
  - done.
  - apply upd_only_mem.
  - done.
  - by left.
  - by intros r ?%elem_of_nil.
  - intros x Hx _. apply Hram. intros H. apply Hx. exists [PX 2 va; PX 1 va], p. split; [done|].
    pose proof (PX_range 0 va). unfold pte_addr, in_page, PGSIZE in *. lia.
  - intros q Hq. done.
  - intros vb Hvb. unfold view, edit. destruct (Z.eqb_spec vb va) as [->|Hne].
    + rewrite Ha. cbn. rewrite load_store64_same. by apply u64_small.
    + destruct (leaf_addr t vb) as [b|] eqn:Eb; [|done]. cbn [default].
      destruct (leaf_addr_some _ _ _ _ _ Hs Eb) as (r & Hr & _ & -> & _).
      apply (Hent _ _ _ Hr (PX_range 0 vb)). intros E. apply Hne.
      assert (Hpx : PX 2 vb = PX 2 va /\ PX 1 vb = PX 1 va /\ PX 0 vb = PX 0 va) by by simplify_eq.
      destruct Hva, Hvb, Hpx as (? & ? & ?). by apply PX_inj.
Qed.

(** ** [mappages] *)

Definition pte_of (pa perm : Z) : Z := Z.lor (Z.lor (PA2PTE pa) perm) PTE_V.

(** The pages from [a0] up to [a] mapped to the frames from [pa0] on. *)
Definition map_edit (a0 pa0 perm a : Z) : Z -> option Z := fun v =>
  if (a0 <=? v) && (v <? a) then Some (pte_of (pa0 + (v - a0)) perm) else None.

Lemma pte_of_lor pa perm : pte_of pa perm = Z.lor (PA2PTE pa) (Z.lor perm PTE_V).
Proof. unfold pte_of. by rewrite Z.lor_assoc. Qed.

Lemma perm_V_range perm : 0 <= perm < 1024 -> 0 <= Z.lor perm PTE_V < 1024.
Proof. intros. apply (lor_range 10); unfold PTE_V; lia. Qed.

Lemma pte_of_range pa perm : 0 <= pa < 2 ^ 56 -> 0 <= perm < 1024 -> 0 <= pte_of pa perm < 2 ^ 54.
Proof. intros. rewrite pte_of_lor. apply pte_range; [done|by apply perm_V_range]. Qed.

Lemma pte_of_pa pa perm : 0 <= pa < 2 ^ 56 -> pa mod 4096 = 0 -> 0 <= perm < 1024 ->
  PTE2PA (pte_of pa perm) = pa.
Proof. intros. rewrite pte_of_lor. apply PTE2PA_lor; [done..|by apply perm_V_range]. Qed.

Lemma pte_of_flags pa perm : 0 <= pa < 2 ^ 56 -> 0 <= perm < 1024 ->
  PTE_FLAGS (pte_of pa perm) = Z.lor perm PTE_V.
Proof. intros. rewrite pte_of_lor. apply PTE_FLAGS_lor; [done|by apply perm_V_range]. Qed.

Lemma grows_ext tk ed ed' k t k' t' : (forall v, upage v -> ed v = ed' v) ->
  grows tk ed k t k' t' -> grows tk ed' k t k' t'.
Proof. intros He []. split; try done. intros v Hv. rewrite <- He by done. auto. Qed.

Lemma reaches_trans root k l t ed1 k1 l1 t1 ed2 k2 l2 t2 : table_inv k l root t ->
  reaches root k l t ed1 k1 l1 t1 -> reaches root k1 l1 t1 ed2 k2 l2 t2 ->
  reaches root k l t (edit_then ed1 ed2) k2 l2 t2.
Proof.
  intros Hinv (tk1 & -> & H1 & G1) (tk2 & -> & H2 & G2).
  exists (tk1 ++ tk2). rewrite <- app_assoc. split_and!; try done.
  eapply grows_trans; [|exact G1|exact G2]. intros p Hp Hp1.
  pose proof (inv_nodup _ _ (ti_kmem _ _ _ _ Hinv)) as Hn.
  apply NoDup_app in Hn as (_ & Hn & _). apply (Hn p Hp1), elem_of_app. by left.
Qed.

Lemma reaches_ext root k l t ed ed' k' l' t' : (forall v, upage v -> ed v = ed' v) ->
  reaches root k l t ed k' l' t' -> reaches root k l t ed' k' l' t'.
Proof. intros He (tk & Hl & Hi & Hg). exists tk. split_and!; try done. by eapply grows_ext. Qed.

Lemma reaches_refl root k l t : table_inv k l root t -> reaches root k l t no_edit k l t.
Proof. intros H. exists []. split_and!; try done. eapply grows_refl, H. Qed.

Lemma reaches_set_leaf root k l t va a e : table_inv k l root t -> upage va ->
  leaf_addr t va = Some a -> 0 <= e < 2 ^ 64 ->
  reaches root k l t (edit va e) (k <| k_ram ::= fun m => store64 m a e |>) l t.
Proof. intros. exists []. split; [done|]. by eapply set_leaf. Qed.

Lemma reaches_held root k l t ed k' l' t' : reaches root k l t ed k' l' t' -> k_held k' = k_held k.
Proof. intros (tk & _ & _ & Hg). apply only_mem_held, (g_only _ _ _ _ _ _ Hg). Qed.

Lemma reaches_inv root k l t ed k' l' t' : reaches root k l t ed k' l' t' -> table_inv k' l' root t'.
Proof. by intros (tk & _ & H & _). Qed.

Lemma reaches_view root k l t ed k' l' t' va : reaches root k l t ed k' l' t' -> upage va ->
  view (k_ram k') t' va = default (view (k_ram k) t va) (ed va).
Proof. intros (tk & _ & _ & Hg). apply (g_view _ _ _ _ _ _ Hg). Qed.

Section Mappages.
Context (E : xpost world) (l : list Z) (root : Z) (t : tree) (va size pa perm : Z) (w : world).
Context (Hheld : LkKmem ∉ k_held (w_k w)) (Hinv : table_inv (w_k w) l root t)
  (Hsize : 0 < size) (Hva : 0 <= va) (Hend : va + size <= MAXVA)
  (Hpa : 0 <= pa) (Hpaend : pa + size + PGSIZE <= 2 ^ 56) (Hperm : 0 <= perm < 1024).

Let a0 := PGROUNDDOWN va.
Let last := PGROUNDDOWN (va + size - 1).

Definition map_state (a : Z) (w' : world) (l' : list Z) (t' : tree) : Prop :=
  reaches root (w_k w) l t (map_edit a0 pa perm a) (w_k w') l' t' /\ w_env w' = w_env w.

Definition ranged (v : Z) : Prop := upage v /\ a0 <= v <= last.

Lemma map_bounds : upage a0 /\ upage last /\ a0 <= last /\ a0 <= va /\ last <= va + size - 1.
Proof.
  unfold upage, a0, last, MAXVA in *. change (2 ^ (9 + 9 + 9 + 12 - 1)) with 274877906944 in *.
  rewrite !PGROUNDDOWN_eq by lia. zlia.
Qed.

Lemma map_edit_step a : upage a -> a0 <= a ->
  forall v, upage v ->
  edit_then (map_edit a0 pa perm a) (edit a (pte_of (pa + (a - a0)) perm)) v
  = map_edit a0 pa perm (a + 4096) v.
Proof.
  intros [_ Ha] Hle v [_ Hv]. unfold edit_then, edit, map_edit.
  destruct (Z.eqb_spec v a) as [->|Hne].
  - destruct (_ && _) eqn:Ev; [done|lia].
  - destruct (_ && (v <? a)) eqn:E1, (_ && (v <? a + 4096)) eqn:E2; try done; zlia.
Qed.

Lemma map_state_step a w1 l1 t1 la : map_state a w1 l1 t1 -> upage a -> a0 <= a <= last ->
  leaf_addr t1 a = Some la ->
  map_state (a + 4096) (w1 <| w_k ::= fun k => k <| k_ram ::= fun m =>
    store64 m la (pte_of (pa + (a - a0)) perm) |> |>) l1 t1.
Proof.
  intros [Hr He] Ha Hle Hla. split; [|done]. destruct map_bounds as (_ & _ & Hb & Hb1 & Hb2).
  eapply reaches_ext; [apply map_edit_step; [done|lia]|].
  eapply reaches_trans; [done|exact Hr|]. apply reaches_set_leaf; [by eapply reaches_inv|done..|].
  assert (Hb3 : a0 > va - 4096).
  { unfold a0, MAXVA in *. rewrite PGROUNDDOWN_eq by lia. zlia. }
  unfold PGSIZE in *.
  assert (Hp : 0 <= pa + (a - a0) < 2 ^ 56) by lia.
  pose proof (pte_of_range _ perm Hp Hperm). lia.
Qed.

(** [mappages], when no page of the range is mapped: it returns 0 with the whole range
    mapped, or -1 with a part of it mapped and no memory left.  The new nodes are on the way
    to the pages of the range. *)
Lemma wp_mappages_nodes :
  (forall v, upage v -> a0 <= v <= last -> has (view (k_ram (w_k w)) t v) PTE_V = false) ->
  wp E (mappages root va size pa perm) (fun r w' => exists a l' t', map_state a w' l' t' /\
    nodes_for ranged t t' /\
    ((r = 0 /\ a = last + PGSIZE) \/ (r = -1 /\ a <= last /\ l' = []))) w.
Proof.
  intros Hun. destruct map_bounds as (Ha0 & Hla & Hle & Hb1 & Hb2).
  assert (HM : MAXVA = 274877906944) by done.
  unfold mappages. destruct (size =? 0) eqn:E0; [lia|]. cbv zeta.
  rewrite (u64_small (va + size - 1)) by lia. fold a0 last. destruct Ha0 as [Ha0 Ha0m], Hla as [Hla Hlam].
  rewrite (u64_small (last - a0)) by lia.
  apply (wp_loop _ (fun '(a, p) w' => upage a /\ a0 <= a <= last /\ p = pa + (a - a0) /\
      exists l' t', map_state a w' l' t' /\ nodes_for ranged t t')
    (fun '(a, _) _ => Z.to_nat ((last - a) / PGSIZE))).
  - split_and!; try done; try lia. exists l, t. split; [split; [|done]|apply nodes_for_refl].
    eapply reaches_ext; [|by apply reaches_refl]. intros v Hv. unfold map_edit, no_edit.
    destruct (_ && _) eqn:Ev; [lia|done].
  - lia.
  - intros [a p] w1 (Ha & Har & -> & l1 & t1 & [Hst He1] & Hnd1). ksteps.
    eapply wp_mono; [apply (wp_walk_alloc _ l1 root t1)|].
    + by rewrite (reaches_held _ _ _ _ _ _ _ _ Hst).
    + by eapply reaches_inv.
    + apply Ha.
    + intros r w2 (tk & l2 & t2 & -> & Hi2 & Hg & He2 & Hnd2 & Hleaf).
      pose proof (nodes_for_trans _ _ _ _ Hnd1 (nodes_for_mono (eq a) ranged _ _ (fun v Ev => eq_ind a ranged (conj Ha Har) v Ev) Hnd2)) as Hnd.
      assert (Hr2 : reaches root (w_k w) l t (map_edit a0 pa perm a) (w_k w2) l2 t2).
      { eapply reaches_ext; [|eapply reaches_trans; [done|exact Hst|by exists tk]]. done. }
      destruct (leaf_addr t2 a) as [la|] eqn:Eleaf.
      * subst r. destruct (leaf_addr_some _ _ _ _ _ (ti_shape _ _ _ _ Hi2) Eleaf)
          as (pg & _ & _ & _ & Hlar). destruct (la =? 0) eqn:Ela; [lia|].
        pose proof (map_state_step a w2 l2 t2 la (conj Hr2 (eq_trans He2 He1)) Ha Har Eleaf) as Hst2.
        unfold load_pte, store_pte. ksteps.
        -- exfalso. assert (Hv : view (k_ram (w_k w2)) t2 a = load64 (k_ram (w_k w2)) la)
             by (unfold view; by rewrite Eleaf).
           rewrite <- Hv, (reaches_view _ _ _ _ _ _ _ _ a Hr2 Ha) in *. unfold map_edit in *.
           rewrite Z.ltb_irrefl, andb_false_r in *. cbn in *. rewrite Hun in *; done || lia.
        -- exists (a + 4096), l2, t2. split; [exact Hst2|].
           split; [exact Hnd|]. left. split; [done|]. unfold PGSIZE. lia.
        -- destruct Ha as [Ha Ham]. unfold PGSIZE in *. rewrite !u64_small by lia.
           assert (upage (a + 4096)) by (split; zlia). split; [|zlia]. split_and!; try done; try lia; [zlia|].
           exists l2, t2. by split.
      * destruct Hleaf as [-> ->]. rewrite Z.eqb_refl. apply wp_ret. exists a, [], t2. split; [split; [done|congruence]|].
        split; [exact Hnd|]. right. split_and!; try done; lia.
Qed.

Lemma wp_mappages :
  (forall v, upage v -> a0 <= v <= last -> has (view (k_ram (w_k w)) t v) PTE_V = false) ->
  wp E (mappages root va size pa perm) (fun r w' => exists a l' t', map_state a w' l' t' /\
    ((r = 0 /\ a = last + PGSIZE) \/ (r = -1 /\ a <= last /\ l' = []))) w.
Proof.
  intros Hun. eapply wp_mono; [by apply wp_mappages_nodes|]. intros r w' (a & l' & t' & Hs & _ & Hr). by exists a, l', t'.
Qed.
End Mappages.
End PageTable.
