(* ===== verification/Cow.v ===== *)
(** Copy-on-write memory: several address spaces over one page allocator.

    [ts] lists the address spaces, each a root page and the tree of its tables
    (file PageTable).  [entry k ts i va] is what space [i] maps [va] to, [maps] the
    page it maps it to.  The invariant [vm_inv hold k l ts] says that tables, free
    pages and mapped pages are disjoint, that a page mapped more than once is mapped
    copy-on-write and read-only everywhere, and that a page's count is at least the
    number of places that map it plus the references [hold] the kernel code itself
    has at that point (a page it just allocated, an entry it just cleared).  So a
    page some process maps is never on the free list. *)

From S2P Require Export PageTable.

Abbreviation space := (Z * tree)%type.

Definition entry (k : kernel) (ts : list space) (i : nat) (va : Z) : Z :=
  match ts !! i with Some (_, t) => view (k_ram k) t va | None => 0 end.

(** Space [i] maps the page at [va] to the page at [p].  The two pages at the top, the
    trapframe and the trampoline, are the kernel's own business. *)
Definition maps (k : kernel) (ts : list space) (i : nat) (va p : Z) : Prop :=
  upage va /\ va < TRAPFRAME /\ has (entry k ts i va) PTE_V = true /\ PTE2PA (entry k ts i va) = p.

(** A copy-on-write mapping: not writable before the next page fault. *)
Definition cow_only (e : Z) : Prop := has e PTE_COW = true /\ has e PTE_W = false.

(** The references an entry is to a page: 0 or 1. *)
Definition refs (va e p : Z) : Z :=
  if (va <? TRAPFRAME) && has e PTE_V && (PTE2PA e =? p) then 1 else 0.

Definition hold_none : Z -> Z := fun _ => 0.
Definition hold_add (p n : Z) (h : Z -> Z) : Z -> Z := fun q => if q =? p then h q + n else h q.

(** [p] is a page of the tables of a space. *)
Definition is_node (ts : list space) (p : Z) : Prop :=
  exists i root t a, ts !! i = Some (root, t) /\ t !! a = Some p.

Section Cow.
Context {L : Layout}.

Record vm_mem (k : kernel) (l : list Z) (ts : list space) : Prop := VmMem {
  vm_kmem : kmem_inv k l;
  vm_table : forall i root t, ts !! i = Some (root, t) -> table_inv k l root t;
  vm_apart : forall i j r1 t1 r2 t2 a b p, ts !! i = Some (r1, t1) -> ts !! j = Some (r2, t2) ->
    t1 !! a = Some p -> t2 !! b = Some p -> i = j }.

Record vm_inv (hold : Z -> Z) (k : kernel) (l : list Z) (ts : list space) : Prop := VmInv {
  vi_mem : vm_mem k l ts;
  vi_range : forall i va, upage va -> 0 <= entry k ts i va < 2 ^ 54;
  vi_user : forall i va, upage va -> has (entry k ts i va) PTE_V = true ->
    has (entry k ts i va) PTE_U = true ->
    page_ok (PTE2PA (entry k ts i va)) /\ va < TRAPFRAME;
  vi_node : forall p, is_node ts p -> hold p = 0 /\ forall i va, ~ maps k ts i va p;
  vi_share : forall i va j vb p, page_ok p -> maps k ts i va p -> maps k ts j vb p ->
    (i, va) <> (j, vb) -> cow_only (entry k ts i va);
  vi_count : forall p, page_ok p -> 0 <= hold p /\ exists R : gset (nat * Z),
    (forall i va, (i, va) ∈ R <-> maps k ts i va p) /\ Z.of_nat (size R) + hold p <= count k p }.

(** The byte user code of space [i] reads at [va]. *)
Definition user_byte (k : kernel) (ts : list space) (i : nat) (va : Z) : option Z :=
  let e := entry k ts i (PGROUNDDOWN va) in
  if has e PTE_V && has e PTE_U then Some (u8 (k_ram k (PTE2PA e + va mod PGSIZE))) else None.

Context {LO : LayoutOk L}.

(** ** Memory *)

Lemma entry_ext k k' ts i va :
  (forall x, (exists p, is_node ts p /\ in_page p x) -> k_ram k x = k_ram k' x) ->
  entry k ts i va = entry k' ts i va.
Proof.
  intros H. unfold entry. destruct (ts !! i) as [[root t]|] eqn:Ei; [|done].
  apply view_ext. intros x (a & p & Ha & Hx). apply H. exists p. split; [|done].
  by exists i, root, t, a.
Qed.

Lemma node_page_ok k l ts p : vm_mem k l ts -> is_node ts p -> page_ok p /\ p ∉ l.
Proof.
  intros Hm (i & root & t & a & Hi & Ha). pose proof (vm_table _ _ _ Hm _ _ _ Hi) as [_ Hs Hf].
  split; [by apply (sh_page _ _ _ Hs _ _ Ha)|by apply (Hf _ _ Ha)].
Qed.

(** Changing memory, counts and the free list, but none of the tables. *)
Lemma vm_mem_change k k' l l' ts : vm_mem k l ts -> kmem_inv k' l' ->
  (forall x, (exists p, is_node ts p /\ in_page p x) -> k_ram k x = k_ram k' x) ->
  (forall p, is_node ts p -> p ∉ l') ->
  vm_mem k' l' ts.
Proof.
  intros [Hk Ht Ha] Hk' Hx Hl. split; [done| |done].
  intros i root t Hi. destruct (Ht i root t Hi) as [_ Hs Hf]. split; [done| |].
  - eapply shape_ext; [|done]. intros x (a & p & Hp & Hpx). apply Hx. exists p.
    split; [by exists i, root, t, a|done].
  - intros a p Hp. apply Hl. by exists i, root, t, a.
Qed.

Lemma lookup_insert_space (ts : list space) i j s r t : (i < length ts)%nat ->
  <[i:=s]> ts !! j = Some (r, t) -> (j = i /\ s = (r, t)) \/ (j <> i /\ ts !! j = Some (r, t)).
Proof.
  intros Hi H. destruct (decide (j = i)) as [->|Hne].
  - left. rewrite list_lookup_insert_eq in H by done. by simplify_eq.
  - right. by rewrite list_lookup_insert_ne in H by done.
Qed.

(** An operation on the tables of space [i]. *)
Section Reach.
Context (k k' : kernel) (l l' : list Z) (ts : list space) (i : nat) (root : Z) (t t' : tree)
  (ed : Z -> option Z).
Context (Hm : vm_mem k l ts) (Hi : ts !! i = Some (root, t))
  (Hr : reaches root k l t ed k' l' t').
Let ts' := <[i := (root, t')]> ts.

Lemma reach_lt : (i < length ts)%nat.
Proof. by eapply lookup_lt_Some. Qed.

Lemma reach_node p : is_node ts' p -> is_node ts p \/ (p ∈ l /\ p ∉ l').
Proof.
  intros (j & r & s & a & Hj & Ha). destruct Hr as (tk & -> & Hinv & Hg).
  apply lookup_insert_space in Hj as [[-> [= <- <-]]|[_ Hj]]; [| |apply reach_lt].
  - destruct (g_new _ _ _ _ _ _ Hg _ _ Ha) as [H|H]; [left; by exists i, root, t, a|right].
    split; [apply elem_of_app; by left|]. by apply (ti_free _ _ _ _ Hinv _ _ Ha).
  - left. by exists j, r, s, a.
Qed.

Lemma reach_mono p : is_node ts p -> is_node ts' p.
Proof.
  intros (j & r & s & a & Hj & Ha). destruct Hr as (tk & -> & Hinv & Hg).
  destruct (decide (j = i)) as [->|Hne].
  - simplify_eq. exists i, root, t', a. subst ts'. rewrite list_lookup_insert_eq by apply reach_lt.
    split; [done|]. eapply lookup_weaken; [done|apply (g_nodes _ _ _ _ _ _ Hg)].
  - exists j, r, s, a. subst ts'. by rewrite list_lookup_insert_ne by done.
Qed.

(** Nothing changes outside the tables and the pages taken. *)
Lemma reach_ram x : (forall p, is_node ts p \/ (p ∈ l /\ p ∉ l') -> ~ in_page p x) ->
  k_ram k' x = k_ram k x.
Proof.
  intros H. destruct Hr as (tk & -> & Hinv & Hg). apply (g_ram _ _ _ _ _ _ Hg).
  - intros (a & p & Ha & Hx). apply (H p); [|done]. left. by exists i, root, t, a.
  - intros (p & Hp & Hx). apply (H p); [|done]. right. split; [apply elem_of_app; by left|].
    destruct (g_used _ _ _ _ _ _ Hg _ Hp) as [a Ha]. by apply (ti_free _ _ _ _ Hinv _ _ Ha).
Qed.

(** The other spaces' tables are where they were. *)
Lemma reach_other j r s x : ts !! j = Some (r, s) -> j <> i -> in_tree s x -> k_ram k' x = k_ram k x.
Proof.
  intros Hj Hne (a & p & Ha & Hx). pose proof (vm_table _ _ _ Hm _ _ _ Hj) as [Hk Hs Hf].
  pose proof (sh_page _ _ _ Hs _ _ Ha) as Hp. destruct Hr as (tk & El & Hinv & Hg).
  apply (g_ram _ _ _ _ _ _ Hg).
  - intros (b & q & Hb & Hq).
    pose proof (sh_page _ _ _ (ti_shape _ _ _ _ (vm_table _ _ _ Hm _ _ _ Hi)) _ _ Hb) as Hqok.
    destruct (decide (p = q)) as [->|Hpq]; [|by destruct (pages_apart p q x Hp Hqok Hpq Hx Hq)].
    apply Hne. by eapply (vm_apart _ _ _ Hm).
  - intros (q & Hq & Hqx). assert (Hql : q ∈ l) by (rewrite El; apply elem_of_app; by left).
    pose proof (inv_pages _ _ Hk) as Hpg. rewrite Forall_forall in Hpg.
    destruct (decide (p = q)) as [->|Hpq]; [by apply (Hf _ _ Ha)|].
    by destruct (pages_apart p q x Hp (Hpg _ Hql) Hpq Hx Hqx).
Qed.

Lemma reach_mem : vm_mem k' l' ts'.
Proof.
  pose proof reach_lt as Hlt. destruct Hr as (tk & El & Hinv & Hg). split.
  - apply Hinv.
  - intros j r s Hj. apply lookup_insert_space in Hj as [[-> [= <- <-]]|[Hne Hj]]; [done| |done].
    destruct (vm_table _ _ _ Hm _ _ _ Hj) as [_ Hs Hf]. split; [apply Hinv| |].
    + eapply shape_ext; [|done]. intros x Hx. symmetry. by eapply reach_other.
    + intros a p Ha Hp. apply (Hf _ _ Ha). rewrite El. apply elem_of_app. by right.
  - intros j1 j2 r1 s1 r2 s2 a b p Hj1 Hj2 Ha Hb.
    apply lookup_insert_space in Hj1 as [[-> [= <- <-]]|[Hne1 Hj1]]; [| |done];
    apply lookup_insert_space in Hj2 as [[-> [= <- <-]]|[Hne2 Hj2]]; try done.
    + destruct (g_new _ _ _ _ _ _ Hg _ _ Ha) as [H|H]; [by eapply (vm_apart _ _ _ Hm)|].
      destruct (vm_table _ _ _ Hm _ _ _ Hj2) as [_ _ Hf]. exfalso. apply (Hf _ _ Hb).
      rewrite El. apply elem_of_app. by left.
    + destruct (g_new _ _ _ _ _ _ Hg _ _ Hb) as [H|H]; [by eapply (vm_apart _ _ _ Hm)|].
      destruct (vm_table _ _ _ Hm _ _ _ Hj1) as [_ _ Hf]. exfalso. apply (Hf _ _ Ha).
      rewrite El. apply elem_of_app. by left.
    + by eapply (vm_apart _ _ _ Hm).
Qed.

Lemma reach_entry j va : upage va ->
  entry k' ts' j va =
    if decide (j = i) then default (entry k ts i va) (ed va) else entry k ts j va.
Proof.
  intros Hva. unfold entry. subst ts'. case_decide as Hj.
  - subst j. rewrite list_lookup_insert_eq, Hi by apply reach_lt. by eapply reaches_view.
  - rewrite list_lookup_insert_ne by done. destruct (ts !! j) as [[r s]|] eqn:Ej; [|done].
    apply view_ext. intros x Hx. by eapply reach_other.
Qed.

Lemma reach_count p : page_ok p -> count k' p = if decide (p ∈ l /\ p ∉ l') then 1 else count k p.
Proof.
  intros Hp. destruct Hr as (tk & El & Hinv & Hg). rewrite (g_count _ _ _ _ _ _ Hg) by done.
  pose proof (inv_nodup _ _ (vm_kmem _ _ _ Hm)) as Hn. rewrite El in *.
  apply NoDup_app in Hn as (_ & Hn & _). specialize (Hn p).
  destruct (decide (p ∈ tk)) as [H|H], (decide _) as [H'|H']; try done; exfalso;
    rewrite elem_of_app in H'; tauto.
Qed.
End Reach.

(** ** The invariant *)

Lemma refs_range va e p : 0 <= refs va e p <= 1.
Proof. unfold refs. by destruct (_ && _). Qed.

Lemma refs_one va e p :
  refs va e p = 1 <-> va < TRAPFRAME /\ has e PTE_V = true /\ PTE2PA e = p.
Proof.
  unfold refs. destruct (Z.ltb_spec va TRAPFRAME), (has _ _), (Z.eqb_spec (PTE2PA e) p);
    cbn [andb]; split; intros; try done; lia.
Qed.

Lemma refs_maps k ts i va p : upage va -> (refs va (entry k ts i va) p = 1 <-> maps k ts i va p).
Proof.
  intros Hva. rewrite refs_one. unfold maps. tauto.
Qed.

Lemma vi_refs hold k l ts p : vm_inv hold k l ts -> page_ok p ->
  0 <= hold p /\ hold p <= count k p /\
  (forall i va, maps k ts i va p -> 1 + hold p <= count k p) /\
  (forall i va j vb, maps k ts i va p -> maps k ts j vb p -> (i, va) <> (j, vb) ->
    2 + hold p <= count k p).
Proof.
  intros Hv Hp. destruct (vi_count _ _ _ _ Hv p Hp) as (H0 & R & HR & Hc). split_and!; [done|lia| |].
  - intros i va Hm. apply HR in Hm.
    assert (Hs : (size ({[(i, va)]} : gset (nat * Z)) <= size R)%nat) by (apply subseteq_size; set_solver).
    rewrite size_singleton in Hs. lia.
  - intros i va j vb H1 H2 Hne. apply HR in H1, H2.
    assert (Hs : (size ({[(i, va)]} ∪ {[(j, vb)]} : gset (nat * Z)) <= size R)%nat)
      by (apply subseteq_size; set_solver).
    rewrite size_union, !size_singleton in Hs by set_solver. lia.
Qed.

(** A page that is mapped or held is not free. *)
Lemma vi_not_free hold k l ts p : vm_inv hold k l ts -> page_ok p ->
  (0 < hold p \/ exists i va, maps k ts i va p) -> p ∉ l.
Proof.
  intros Hv Hp Hor Hl. destruct (vi_refs _ _ _ _ p Hv Hp) as (H0 & H1 & H2 & _).
  pose proof (inv_counts _ _ (vm_kmem _ _ _ (vi_mem _ _ _ _ Hv))) as Hc.
  rewrite Forall_forall in Hc. specialize (Hc _ Hl).
  destruct Hor as [|(i & va & Hm)]; [lia|]. specialize (H2 _ _ Hm). lia.
Qed.

Lemma vi_not_node hold k l ts p i va : vm_inv hold k l ts -> maps k ts i va p -> ~ is_node ts p.
Proof. intros Hv Hm Hn. by apply (proj2 (vi_node _ _ _ _ Hv p Hn) i va). Qed.

Definition same_entries (k : kernel) (ts : list space) (k' : kernel) (ts' : list space) : Prop :=
  forall j vb, upage vb -> entry k' ts' j vb = entry k ts j vb.

(** One entry changes and references are moved between the tables and the kernel code:
    what has to be checked. *)
Lemma inv_change hold k l ts hold' k' l' ts' i va e' :
  vm_inv hold k l ts -> vm_mem k' l' ts' -> upage va ->
  (forall j vb, upage vb ->
    entry k' ts' j vb = if decide ((j, vb) = (i, va)) then e' else entry k ts j vb) ->
  0 <= e' < 2 ^ 54 ->
  (has e' PTE_V = true -> has e' PTE_U = true -> page_ok (PTE2PA e') /\ va < TRAPFRAME) ->
  (va < TRAPFRAME -> has e' PTE_V = true -> page_ok (PTE2PA e') ->
    forall j vb, maps k ts j vb (PTE2PA e') -> (j, vb) <> (i, va) ->
    cow_only e' /\ cow_only (entry k ts j vb)) ->
  (forall p, is_node ts' p -> hold' p = 0 /\ (forall j vb, ~ maps k ts j vb p) /\ refs va e' p = 0) ->
  (forall p, page_ok p -> 0 <= hold' p /\
    refs va e' p + hold' p - refs va (entry k ts i va) p - hold p <= count k' p - count k p) ->
  vm_inv hold' k' l' ts'.
Proof.
  intros Hv Hm Hva He He' Hu Hs Hn Hc.
  assert (Hmap : forall j vb p, maps k' ts' j vb p <->
    if decide ((j, vb) = (i, va)) then refs va e' p = 1 else maps k ts j vb p).
  { intros j vb p. destruct (decide (upage vb)) as [Hvb|Hvb]; cycle 1.
    { unfold maps. case_decide as Ed; [simplify_eq|]; tauto. }
    rewrite <- refs_maps by done. rewrite He by done. case_decide; [by simplify_eq|].
    by rewrite refs_maps. }
  split.
  - done.
  - intros j vb Hvb. rewrite He by done. case_decide; [done|]. by apply (vi_range _ _ _ _ Hv).
  - intros j vb Hvb. rewrite He by done. case_decide; [by simplify_eq|]. by apply (vi_user _ _ _ _ Hv).
  - intros p Hp. destruct (Hn p Hp) as (H1 & H2 & H3). split; [done|]. intros j vb H.
    apply Hmap in H. case_decide; [lia|]. by apply (H2 j vb).
  - intros j vb j2 vb2 p Hp H1 H2 Hne. pose proof H1 as [Hvb _]. rewrite He by done.
    apply Hmap in H1, H2. repeat case_decide; simplify_eq.
    + apply refs_one in H2 as (Hlo & HV & <-). by apply (Hs Hlo HV Hp j vb).
    + apply refs_one in H1 as (Hlo & HV & <-). by apply (Hs Hlo HV Hp j2 vb2).
    + by apply (vi_share _ _ _ _ Hv j vb j2 vb2 p).
  - intros p Hp. destruct (Hc p Hp) as [H0 Hle]. split; [done|].
    destruct (vi_count _ _ _ _ Hv p Hp) as (_ & R & HR & Hsz).
    pose proof (refs_range va (entry k ts i va) p). pose proof (refs_range va e' p).
    assert (Hrem : Z.of_nat (size (R ∖ {[(i, va)]})) = Z.of_nat (size R) - refs va (entry k ts i va) p).
    { destruct (decide ((i, va) ∈ R)) as [Hin|Hin].
      - rewrite (proj2 (refs_maps k ts i va p Hva)) by by apply HR.
        rewrite size_difference by set_solver. rewrite size_singleton.
        assert (size R <> 0%nat); [|lia]. intros Hz%size_empty_inv. set_solver.
      - assert (refs va (entry k ts i va) p <> 1) by (rewrite refs_maps by done; by rewrite <- HR).
        replace (R ∖ {[(i, va)]}) with R by set_solver. lia. }
    exists (R ∖ {[(i, va)]} ∪ if decide (refs va e' p = 1) then {[(i, va)]} else ∅). split.
    + intros j vb. rewrite Hmap, elem_of_union, elem_of_difference, elem_of_singleton.
      repeat case_decide; rewrite ?elem_of_singleton, ?elem_of_empty, ?HR; tauto.
    + case_decide.
      * rewrite size_union by set_solver. rewrite size_singleton. lia.
      * rewrite union_empty_r_L. lia.
Qed.

Lemma inv_keep hold k l ts hold' k' l' ts' :
  vm_inv hold k l ts -> vm_mem k' l' ts' -> same_entries k ts k' ts' ->
  (forall p, is_node ts' p -> hold' p = 0 /\ (forall j vb, ~ maps k ts j vb p)) ->
  (forall p, page_ok p -> 0 <= hold' p /\ hold' p - hold p <= count k' p - count k p) ->
  vm_inv hold' k' l' ts'.
Proof.
  intros Hv Hm He Hn Hc. assert (H0 : upage 0) by done.
  apply (inv_change hold k l ts _ _ _ _ 0%nat 0 (entry k ts 0%nat 0)); try done.
  - intros j vb Hvb. rewrite He by done. case_decide; [by simplify_eq|done].
  - by apply (vi_range _ _ _ _ Hv).
  - by apply (vi_user _ _ _ _ Hv).
  - intros _ HV Hp j vb Hj Hne.
    assert (H0m : maps k ts 0%nat 0 (PTE2PA (entry k ts 0%nat 0))) by done.
    split; [by eapply (vi_share _ _ _ _ Hv 0%nat 0 j vb)|by eapply (vi_share _ _ _ _ Hv j vb 0%nat 0)].
  - intros p Hp. destruct (Hn p Hp) as [H1 H2]. split_and!; [done|done|].
    pose proof (refs_range 0 (entry k ts 0%nat 0) p).
    assert (refs 0 (entry k ts 0%nat 0) p <> 1); [|lia]. intros Hr1. by apply refs_maps, H2 in Hr1.
  - intros p Hp. destruct (Hc p Hp). split; [done|]. lia.
Qed.

(** References the kernel code forgets. *)
Lemma inv_weaken hold hold' k l ts : vm_inv hold k l ts ->
  (forall p, hold p = 0 -> hold' p = 0) -> (forall p, page_ok p -> 0 <= hold' p <= hold p) ->
  vm_inv hold' k l ts.
Proof.
  intros Hv H0 Hle. apply (inv_keep hold k l ts); [done|apply Hv|done| |].
  - intros p Hp. destruct (vi_node _ _ _ _ Hv p Hp) as [H1 H2]. split; [by apply H0|done].
  - intros p Hp. specialize (Hle p Hp). lia.
Qed.

(** Memory that is not in a table or a free page. *)
Lemma inv_ram hold k l ts p f : vm_inv hold k l ts -> page_ok p -> (p ∉ l) -> ~ is_node ts p ->
  (forall x, ~ in_page p x -> f (k_ram k) x = k_ram k x) ->
  let k' := k <| k_ram ::= f |> in vm_inv hold k' l ts /\ same_entries k ts k' ts.
Proof.
  intros Hv Hp Hl Hn Hf k'. pose proof (vi_mem _ _ _ _ Hv) as Hm.
  assert (Hx : forall x, (exists q, is_node ts q /\ in_page q x) -> k_ram k x = k_ram k' x).
  { intros x (q & Hq & Hqx). symmetry. apply Hf. destruct (node_page_ok _ _ _ _ Hm Hq) as [Hqok _].
    assert (q <> p) as Hne by by intros ->. by apply (pages_apart q p x). }
  assert (He : same_entries k ts k' ts) by (intros j vb _; symmetry; by apply entry_ext).
  split; [|done]. apply (inv_keep hold k l ts); try done.
  - apply (vm_mem_change k k' l l); try done; [|by intros q Hq; apply (node_page_ok _ _ _ _ Hm Hq)].
    destruct (vm_kmem _ _ _ Hm) as [H1 H2 H3 H4]. split; try done.
    eapply freelist_ext; [|exact H1]. intros q x Hq Hx'. symmetry. apply Hf.
    rewrite Forall_forall in H3. assert (q <> p) as Hne by by intros ->.
    assert (Hqx : in_page q x) by (unfold in_page, PGSIZE; lia).
    by apply (pages_apart q p x (H3 _ Hq) Hp Hne).
  - apply (vi_node _ _ _ _ Hv).
  - intros q Hq. destruct (vi_refs _ _ _ _ q Hv Hq) as (? & _). change (count k' q) with (count k q). lia.
Qed.

(** [kalloc] hands the kernel code a reference to an unmapped page. *)
Lemma inv_kalloc hold k q l ts : vm_inv hold k (q :: l) ts ->
  vm_inv (hold_add q 1 hold) (alloc_page q k) l ts /\ same_entries k ts (alloc_page q k) ts
  /\ page_ok q /\ (q ∉ l) /\ ~ is_node ts q /\ (forall i va, ~ maps k ts i va q) /\ hold q = 0.
Proof.
  intros Hv. pose proof (vi_mem _ _ _ _ Hv) as Hm. pose proof (vm_kmem _ _ _ Hm) as Hk.
  assert (Hq : page_ok q) by apply (Forall_inv (inv_pages _ _ Hk)).
  assert (Hc : count k q = 0) by apply (Forall_inv (inv_counts _ _ Hk)).
  assert (Hql : q ∉ l) by by apply (NoDup_cons q l), (inv_nodup _ _ Hk).
  destruct (vi_refs _ _ _ _ q Hv Hq) as (Hh0 & Hh1 & Hh2 & _).
  assert (Hn : ~ is_node ts q).
  { intros H. apply (node_page_ok _ _ _ _ Hm H). by left. }
  assert (Hum : forall i va, ~ maps k ts i va q) by (intros i va H; specialize (Hh2 _ _ H); lia).
  assert (Hx : forall x, (exists p, is_node ts p /\ in_page p x) -> k_ram k x = k_ram (alloc_page q k) x).
  { intros x (p & Hp & Hpx). symmetry. apply fill_bytes_out.
    destruct (node_page_ok _ _ _ _ Hm Hp) as [Hpok _].
    assert (p <> q) as Hne by by intros ->. by apply (pages_apart p q x). }
  assert (He : same_entries k ts (alloc_page q k) ts) by (intros j vb _; symmetry; by apply entry_ext).
  split_and!; try done; [|lia]. apply (inv_keep hold k (q :: l) ts); try done.
  - apply (vm_mem_change k _ (q :: l)); try done; [by apply alloc_page_inv|].
    intros p Hp Hpl. destruct (node_page_ok _ _ _ _ Hm Hp) as [_ H]. apply H. by right.
  - intros p Hp. destruct (vi_node _ _ _ _ Hv p Hp) as [H1 H2]. split; [|done].
    unfold hold_add. destruct (Z.eqb_spec p q) as [->|]; [done|done].
  - intros p Hp. destruct (vi_refs _ _ _ _ p Hv Hp) as (Hp0 & _). unfold hold_add.
    change (count (alloc_page q k) p) with (count (upd_count q (fun _ => 1) k) p).
    rewrite count_upd by done. case_decide as E; destruct (Z.eqb_spec p q); subst; try done; lia.
Qed.

(** The state after [kfree]. *)
Definition freed (p : Z) (k k' : kernel) (l l' : list Z) : Prop :=
  (1 < count k p /\ k' = drop_ref p k /\ l' = l) \/ (count k p <= 1 /\ k' = free_page p k /\ l' = p :: l).

Lemma freed_count p q k k' l l' : page_ok p -> page_ok q -> freed p k k' l l' ->
  count k' q = if decide (q = p) then count k p - 1 else count k q.
Proof.
  intros Hp Hq [(_ & -> & _)|(_ & -> & _)]; [|change (count (free_page p k) q) with (count (drop_ref p k) q)];
  unfold drop_ref; by rewrite count_upd.
Qed.

Lemma freed_ram p k k' l l' x : freed p k k' l l' -> ~ in_page p x -> k_ram k' x = k_ram k x.
Proof.
  intros [(_ & -> & _)|(_ & -> & _)] Hx; [done|]. unfold in_page, PGSIZE in Hx.
  unfold free_page. cbn. by rewrite store64_out, fill_bytes_out by (unfold PGSIZE; lia).
Qed.

Lemma freed_only_mem p k k' l l' : freed p k k' l l' -> only_mem k k'.
Proof. by intros [(_ & -> & _)|(_ & -> & _)]; destruct k. Qed.

Lemma mem_kfree k k' p l l' ts : vm_mem k l ts -> page_ok p -> (p ∉ l) -> ~ is_node ts p ->
  1 <= count k p -> freed p k k' l l' -> vm_mem k' l' ts /\ same_entries k ts k' ts.
Proof.
  intros Hm Hp Hl Hn Hc Hfr.
  assert (Hx : forall x, (exists q, is_node ts q /\ in_page q x) -> k_ram k x = k_ram k' x).
  { intros x (q & Hq & Hqx). symmetry. eapply freed_ram; [done|].
    destruct (node_page_ok _ _ _ _ Hm Hq) as [Hqok _].
    assert (q <> p) as Hne by by intros ->. by apply (pages_apart q p x). }
  split; [|intros j vb _; symmetry; by apply entry_ext].
  apply (vm_mem_change k _ l); try done; pose proof (vm_kmem _ _ _ Hm) as Hk.
  - destruct Hfr as [(_ & -> & ->)|(? & -> & ->)]; [by apply drop_ref_inv|].
    apply free_page_inv; auto. lia.
  - intros q Hq. destruct (node_page_ok _ _ _ _ Hm Hq) as [Hqok Hql].
    destruct Hfr as [(_ & _ & ->)|(_ & _ & ->)]; [done|]. rewrite elem_of_cons.
    intros [->|]; done.
Qed.

(** [kfree] gives a reference of the kernel code back. *)
Lemma inv_kfree hold k k' p l l' ts : vm_inv hold k l ts -> page_ok p -> 1 <= hold p ->
  freed p k k' l l' ->
  vm_inv (hold_add p (-1) hold) k' l' ts /\ same_entries k ts k' ts
  /\ (forall i va x, maps k ts i va p -> k_ram k' x = k_ram k x).
Proof.
  intros Hv Hp Hh Hfr. pose proof (vi_mem _ _ _ _ Hv) as Hm.
  destruct (vi_refs _ _ _ _ p Hv Hp) as (_ & Hc1 & Hc2 & _).
  assert (Hl : p ∉ l) by (apply (vi_not_free hold k _ ts); auto; left; lia).
  assert (Hn : ~ is_node ts p) by (intros H; destruct (vi_node _ _ _ _ Hv p H); lia).
  destruct (mem_kfree k k' p l l' ts) as [Hm' He]; try done; [lia|].
  split_and!; [|done|].
  - apply (inv_keep hold k l ts); try done.
    + intros q Hq. destruct (vi_node _ _ _ _ Hv q Hq) as [H1 H2]. split; [|done].
      unfold hold_add. destruct (Z.eqb_spec q p) as [->|]; [done|done].
    + intros q Hq. destruct (vi_refs _ _ _ _ q Hv Hq) as (Hq0 & _). unfold hold_add.
      rewrite (freed_count p) with (l := l) (l' := l') (k := k) by done.
      case_decide as E; destruct (Z.eqb_spec q p); subst; try done; lia.
  - intros i va x Hma. specialize (Hc2 _ _ Hma). destruct Hfr as [(_ & -> & _)|(Hc & _)]; [done|lia].
Qed.

(** [safe_inc_count] takes another reference to a page that is mapped or held. *)
Lemma inv_inc hold k p l ts : vm_inv hold k l ts -> page_ok p ->
  (0 < hold p \/ exists i va, maps k ts i va p) ->
  let k' := upd_count p (fun c => c + 1) k in
  vm_inv (hold_add p 1 hold) k' l ts /\ same_entries k ts k' ts.
Proof.
  intros Hv Hp Hor k'. pose proof (vi_mem _ _ _ _ Hv) as Hm.
  assert (Hl : p ∉ l) by by apply (vi_not_free hold k _ ts).
  assert (Hn : ~ is_node ts p).
  { intros H. destruct (vi_node _ _ _ _ Hv p H) as [H1 H2]. destruct Hor as [|(i & va & Hma)]; [lia|].
    by apply (H2 i va). }
  split; [|done]. apply (inv_keep hold k l ts); try done.
  - apply (vm_mem_change k _ l); try done; [|by intros q Hq; apply (node_page_ok _ _ _ _ Hm Hq)].
    destruct (vm_kmem _ _ _ Hm) as [H1 H2 H3 H4]. split; try done.
    rewrite Forall_forall in *. intros q Hq. unfold k'. rewrite count_upd_ne; auto. by intros ->.
  - intros q Hq. destruct (vi_node _ _ _ _ Hv q Hq) as [H1 H2]. split; [|done].
    unfold hold_add. destruct (Z.eqb_spec q p) as [->|]; [done|done].
  - intros q Hq. destruct (vi_refs _ _ _ _ q Hv Hq) as (Hq0 & _). unfold hold_add, k'.
    rewrite count_upd by done. case_decide as E; destruct (Z.eqb_spec q p); subst; try done; lia.
Qed.

(** An operation on the tables of one space that changes at most the entry of [va]. *)
Section Change.
Context (hold hold' : Z -> Z) (k k' : kernel) (l l' : list Z) (ts : list space) (i : nat)
  (root : Z) (t t' : tree) (ed : Z -> option Z) (va e' : Z).
Let ts' := <[i := (root, t')]> ts.
Let e := entry k ts i va.
Context (Hv : vm_inv hold k l ts) (Hi : ts !! i = Some (root, t))
  (Hr : reaches root k l t ed k' l' t') (Hva : upage va)
  (Hed : forall v, upage v ->
    default (entry k ts i v) (ed v) = if decide (v = va) then e' else entry k ts i v).

Lemma reach_entry_at j vb : upage vb ->
  entry k' ts' j vb = if decide ((j, vb) = (i, va)) then e' else entry k ts j vb.
Proof.
  intros Hvb. unfold ts'. erewrite reach_entry; [|apply Hv|done|done|done].
  destruct (decide (j = i)) as [->|Hne]; [|rewrite decide_False; [done|congruence]].
  rewrite Hed by done. repeat case_decide; try congruence.
Qed.

Lemma inv_reach :
  0 <= e' < 2 ^ 54 ->
  (has e' PTE_V = true -> has e' PTE_U = true -> page_ok (PTE2PA e') /\ va < TRAPFRAME) ->
  (va < TRAPFRAME -> has e' PTE_V = true -> page_ok (PTE2PA e') ->
    forall j vb, maps k ts j vb (PTE2PA e') -> (j, vb) <> (i, va) ->
    cow_only e' /\ cow_only (entry k ts j vb)) ->
  (forall p, page_ok p -> 0 <= hold' p /\ refs va e' p + hold' p <= refs va e p + hold p) ->
  vm_inv hold' k' l' ts'.
Proof.
  intros He' Hu Hs Hc. pose proof (vi_mem _ _ _ _ Hv) as Hm.
  assert (Hm' : vm_mem k' l' ts') by by eapply reach_mem.
  assert (Hum : forall p, is_node ts p \/ (p ∈ l /\ p ∉ l') -> page_ok p /\
    hold p = 0 /\ (forall j vb, ~ maps k ts j vb p)).
  { intros p [Hn|[Hl _]].
    - destruct (node_page_ok _ _ _ _ Hm Hn). by destruct (vi_node _ _ _ _ Hv p Hn).
    - pose proof (vm_kmem _ _ _ Hm) as Hk. pose proof (inv_pages _ _ Hk) as Hpg.
      rewrite Forall_forall in Hpg. specialize (Hpg _ Hl).
      assert (Hnot : ~ (0 < hold p \/ exists j vb, maps k ts j vb p))
        by (intros Hor; by apply (vi_not_free hold k l ts p)).
      destruct (vi_refs _ _ _ _ p Hv Hpg) as (H0 & _). split_and!; [done|lia|].
      intros j vb H. apply Hnot. right. by exists j, vb. }
  apply (inv_change hold k l ts _ _ _ _ i va e'); try done.
  - by apply reach_entry_at.
  - intros p Hp. eapply reach_node in Hp; [|done..].
    destruct (Hum p Hp) as (Hpok & H0 & Hmp). destruct (Hc p Hpok) as [Hc0 Hc1].
    pose proof (refs_range va e' p). pose proof (refs_range va e p).
    assert (refs va e p <> 1) by (unfold e; rewrite refs_maps by done; apply Hmp).
    split_and!; [lia|done|lia].
  - intros p Hp. destruct (Hc p Hp) as [Hc0 Hc1]. split; [done|]. fold e.
    erewrite (reach_count k k'); [|done..]. case_decide as Hl; [|lia].
    pose proof (inv_counts _ _ (vm_kmem _ _ _ Hm)) as Hcl. rewrite Forall_forall in Hcl.
    rewrite Hcl by tauto. lia.
Qed.
End Change.

(** A walk keeps the invariant, whether it allocates tables or not. *)
Lemma inv_walked hold k k' l l' ts i root t t' : vm_inv hold k l ts -> ts !! i = Some (root, t) ->
  reaches root k l t no_edit k' l' t' ->
  vm_inv hold k' l' (<[i := (root, t')]> ts) /\ same_entries k ts k' (<[i := (root, t')]> ts).
Proof.
  intros Hv Hi Hr. assert (H0 : upage 0) by done.
  assert (Hed : forall v, upage v -> default (entry k ts i v) (no_edit v)
    = if decide (v = 0) then entry k ts i 0 else entry k ts i v)
    by (intros v _; case_decide; by subst).
  split; cycle 1.
  - intros j vb Hvb. erewrite reach_entry_at; [|done..].
    case_decide; [by simplify_eq|done].
  - apply (inv_reach hold hold k k' l l' ts i root t t' no_edit 0 (entry k ts i 0)); try done.
    + by apply (vi_range _ _ _ _ Hv).
    + by apply (vi_user _ _ _ _ Hv).
    + intros _ HV Hp j vb Hj Hne. assert (H0m : maps k ts i 0 (PTE2PA (entry k ts i 0))) by done.
      split; [by eapply (vi_share _ _ _ _ Hv i 0 j vb)|by eapply (vi_share _ _ _ _ Hv j vb i 0)].
    + intros p Hp. destruct (vi_refs _ _ _ _ p Hv Hp). lia.
Qed.

(** Data pages are left alone by operations on tables. *)
Lemma reach_data hold k k' l l' ts i root t t' ed p x : vm_inv hold k l ts ->
  ts !! i = Some (root, t) -> reaches root k l t ed k' l' t' ->
  page_ok p -> (0 < hold p \/ exists j vb, maps k ts j vb p) -> in_page p x ->
  k_ram k' x = k_ram k x.
Proof.
  intros Hv Hi Hr Hp Hor Hx. apply (reach_ram k k' l l' ts i root t t' ed (vi_mem _ _ _ _ Hv) Hi Hr). intros q Hq Hqx.
  pose proof (vi_mem _ _ _ _ Hv) as Hm.
  assert (page_ok q /\ q <> p) as [Hqok Hne].
  { destruct Hq as [Hn|[Hl _]].
    - split; [by destruct (node_page_ok _ _ _ _ Hm Hn)|]. intros ->.
      destruct (vi_node _ _ _ _ Hv p Hn) as [H0 H1]. destruct Hor as [|(j & vb & H)]; [lia|].
      by apply (H1 j vb).
    - pose proof (inv_pages _ _ (vm_kmem _ _ _ Hm)) as Hpg. rewrite Forall_forall in Hpg.
      split; [by apply Hpg|]. intros ->. by apply (vi_not_free hold k l ts p). }
  by apply (pages_apart q p x Hqok Hp Hne).
Qed.

(** ** User memory *)

Lemma round_upage va : 0 <= va < MAXVA ->
  upage (PGROUNDDOWN va) /\ PGROUNDDOWN va = va - va mod 4096 /\ 0 <= va mod PGSIZE < PGSIZE.
Proof.
  unfold upage, MAXVA, PGSIZE. change (2 ^ (9 + 9 + 9 + 12 - 1)) with 274877906944.
  intros H. rewrite PGROUNDDOWN_eq by lia. zlia.
Qed.

(** What user code reads does not change when the entries and the mapped pages do not. *)
Lemma user_byte_keep hold k l ts k' ts' i va : vm_inv hold k l ts -> 0 <= va < MAXVA ->
  same_entries k ts k' ts' ->
  (forall p x, maps k ts i (PGROUNDDOWN va) p -> page_ok p -> in_page p x ->
    k_ram k' x = k_ram k x) ->
  user_byte k' ts' i va = user_byte k ts i va.
Proof.
  intros Hv Hva He Hx. destruct (round_upage va Hva) as (Hup & _ & Hoff).
  unfold user_byte. cbv zeta. rewrite !He by done.
  destruct (has (entry k ts i (PGROUNDDOWN va)) PTE_V) eqn:EV; [|done].
  destruct (has (entry k ts i (PGROUNDDOWN va)) PTE_U) eqn:EU; [|done]. cbn [andb].
  destruct (vi_user _ _ _ _ Hv i _ Hup EV EU).
  do 2 f_equal. apply (Hx (PTE2PA (entry k ts i (PGROUNDDOWN va)))); [done|done|unfold in_page; lia].
Qed.

(** Two mappings of the same page give the same byte. *)
Lemma user_byte_same k ts j k' ts' j' va :
  let e := entry k ts j (PGROUNDDOWN va) in let e' := entry k' ts' j' (PGROUNDDOWN va) in
  has e' PTE_V = has e PTE_V -> has e' PTE_U = has e PTE_U -> PTE2PA e' = PTE2PA e ->
  (has e PTE_V = true -> has e PTE_U = true ->
    k_ram k' (PTE2PA e + va mod PGSIZE) = k_ram k (PTE2PA e + va mod PGSIZE)) ->
  user_byte k' ts' j' va = user_byte k ts j va.
Proof.
  cbv zeta. intros HV HU Hp Hr. unfold user_byte. cbv zeta. rewrite HV, HU, Hp.
  destruct (has (entry k ts j _) PTE_V); [|done].
  destruct (has (entry k ts j _) PTE_U); [|done]. cbn [andb]. by rewrite Hr.
Qed.

(** [walk] without allocation, in a space: the address of the entry. *)
Lemma walk_entry hold k l ts i root t va w : w_k w = k -> vm_inv hold k l ts ->
  ts !! i = Some (root, t) -> 0 <= va < MAXVA ->
  (exists a, walk root va false w = Ok a w /\ leaf_addr t va = Some a /\ 0 < a
     /\ entry k ts i va = load64 (k_ram k) a)
  \/ (walk root va false w = Ok 0 w /\ leaf_addr t va = None /\ entry k ts i va = 0).
Proof.
  intros <- Hv Hi Hva. pose proof (vm_table _ _ _ (vi_mem _ _ _ _ Hv) _ _ _ Hi) as [_ Hs _].
  rewrite (walk_find root t) by done. unfold entry, view. rewrite Hi.
  destruct (leaf_addr t va) as [a|] eqn:Ea; [left; exists a|by right].
  destruct (leaf_addr_some _ _ _ _ _ Hs Ea) as (_ & _ & _ & _ & Hr). split_and!; done || lia.
Qed.

(** ** [cow_page_fault] *)

Definition cow_flags (e : Z) : Z := Z.land (Z.lor (PTE_FLAGS e) PTE_W) (Z.lnot PTE_COW).

Lemma cow_flags_range e : 0 <= cow_flags e < 1024.
Proof.
  apply (land_range 10); [lia|]. apply (lor_range 10); [lia| |unfold PTE_W; lia].
  apply PTE_FLAGS_range.
Qed.

Lemma cow_flags_bits e i : 0 <= i < 10 -> Z.testbit (cow_flags e) i =
  (Z.testbit e i || (i =? 2)) && negb (i =? 5).
Proof.
  intros Hi. unfold cow_flags, PTE_FLAGS, PTE_W, PTE_COW.
  rewrite Z.land_spec, Z.lor_spec, Z.land_spec, Z.lnot_spec by lia.
  change 1023 with (Z.ones 10). change 4 with (2 ^ 2). change 32 with (2 ^ 5).
  rewrite Z.ones_spec_low, !Z.pow2_bits_eqb, andb_true_r by lia. do 2 f_equal; lia.
Qed.

Lemma new_pte_bits q e i : page_ok q -> 0 <= i < 10 ->
  Z.testbit (Z.lor (PA2PTE q) (cow_flags e)) i = (Z.testbit e i || (i =? 2)) && negb (i =? 5).
Proof.
  intros Hq Hi. destruct (page_ok_facts _ Hq) as (_ & _ & _ & Hr & _).
  rewrite <- cow_flags_bits by done.
  rewrite <- (PTE_FLAGS_lor q (cow_flags e)) at 2; [|lia|apply cow_flags_range].
  unfold PTE_FLAGS. change 1023 with (Z.ones 10).
  by rewrite Z.land_spec, Z.ones_spec_low, andb_true_r by lia.
Qed.
End Cow.
