(* ===== verification/Uvm.v ===== *)
(** User memory: what [cow_page_fault], [uvmcopy], [copyout], [copyin] and
    [uvmunmap] do to the address spaces of file Cow. *)

From S2P Require Export Cow.

Section Uvm.
Context {L : Layout} {LO : LayoutOk L}.

Lemma hold_add_eq p n h : hold_add p n h p = h p + n.
Proof. unfold hold_add. by rewrite Z.eqb_refl. Qed.
Lemma hold_add_ne p q n h : q <> p -> hold_add p n h q = h q.
Proof. intros. unfold hold_add. by rewrite (proj2 (Z.eqb_neq _ _)). Qed.

Lemma upage_px va : upage va -> 0 <= va < MAXVA.
Proof. by intros []. Qed.

(** Of all the reference counts, page [new] now has one and page [old] one less. *)
Definition ref_moved (old new : Z) (k k' : kernel) : Prop := forall p, page_ok p ->
  count k' p = if decide (p = new) then 1 else if decide (p = old) then count k p - 1 else count k p.

(** The steps of [cow_page_fault] when there is a page for the copy. *)
Section Fault.
Context (hold : Z -> Z) (k : kernel) (q : Z) (l : list Z) (ts : list space) (i : nat)
  (root : Z) (t : tree) (va a : Z).
Let e := entry k ts i va.
Let old := PTE2PA e.
Let e' := Z.lor (PA2PTE q) (cow_flags e).
Let k2 := (alloc_page q k) <| k_ram ::= fun m => memmove m q old (Z.to_nat PGSIZE) |>.
Let k3 := k2 <| k_ram ::= fun m => store64 m a e' |>.
Context (Hv : vm_inv hold k (q :: l) ts) (Hi : ts !! i = Some (root, t)) (Hva : upage va)
  (Ha : leaf_addr t va = Some a)
  (HV : has e PTE_V = true) (HU : has e PTE_U = true) (HC : has e PTE_COW = true).

Lemma fault_old : page_ok old /\ maps k ts i va old /\ old <> q /\ va < TRAPFRAME.
Proof.
  destruct (vi_user _ _ _ _ Hv i va Hva HV HU) as [Hp Hlo]. fold e old in Hp.
  assert (Hm : maps k ts i va old) by done. split_and!; [done|done| |done]. intros ->.
  destruct (inv_kalloc _ _ _ _ _ Hv) as (_ & _ & _ & _ & _ & Hum & _). by apply (Hum i va).
Qed.

Lemma fault_new : page_ok q /\ (q ∉ l) /\ ~ is_node ts q /\ (forall j vb, ~ maps k ts j vb q) /\ hold q = 0
  /\ vm_inv (hold_add q 1 hold) (alloc_page q k) l ts /\ same_entries k ts (alloc_page q k) ts.
Proof. destruct (inv_kalloc _ _ _ _ _ Hv) as (? & ? & ? & ? & ? & ? & ?). done. Qed.

Lemma fault_e' : 0 <= e' < 2 ^ 54 /\ PTE2PA e' = q /\
  (forall n, 0 <= n < 10 -> Z.testbit e' n = (Z.testbit e n || (n =? 2)) && negb (n =? 5)).
Proof.
  destruct fault_new as (Hq & _). destruct (page_ok_facts _ Hq) as (_ & _ & Hm & Hr & _).
  pose proof (cow_flags_range e). split; [apply pte_range; [lia|done]|].
  split; [apply PTE2PA_lor; [lia|done|done]|]. intros. by apply new_pte_bits.
Qed.

Lemma fault_k2 : vm_inv (hold_add q 1 hold) k2 l ts /\ same_entries k ts k2 ts.
Proof.
  destruct fault_new as (Hq & Hql & Hqn & Hum & Hh & Hv1 & He1).
  destruct (inv_ram _ _ _ _ q (fun m => memmove m q old (Z.to_nat PGSIZE)) Hv1 Hq Hql Hqn)
    as [Hv2 He2].
  - intros x Hx. apply memmove_out. change (Z.of_nat (Z.to_nat PGSIZE)) with PGSIZE. done.
  - split; [exact Hv2|]. intros j vb Hvb.
    transitivity (entry (alloc_page q k) ts j vb); [by apply He2|by apply He1].
Qed.

Lemma fault_table : table_inv k2 l root t.
Proof. destruct fault_k2 as [Hv2 _]. by apply (vm_table _ _ _ (vi_mem _ _ _ _ Hv2) i). Qed.

Lemma fault_reach : reaches root k2 l t (edit va e') k3 l t.
Proof. apply reaches_set_leaf; [apply fault_table|done|done|]. destruct fault_e'. lia. Qed.

Lemma fault_edit v : upage v ->
  default (entry k2 ts i v) (edit va e' v) = if decide (v = va) then e' else entry k2 ts i v.
Proof. intros Hup. unfold edit. destruct (Z.eqb_spec v va), (decide (v = va)); done. Qed.

Lemma fault_entry j vb : upage vb ->
  entry k3 ts j vb = if decide ((j, vb) = (i, va)) then e' else entry k ts j vb.
Proof.
  intros Hvb. destruct fault_k2 as [Hv2 He2].
  pose proof (reach_entry_at _ k2 k3 l l ts i root t t _ va e' Hv2 Hi fault_reach fault_edit j vb Hvb) as H.
  rewrite list_insert_id in H by done. rewrite H. case_decide; [done|]. by apply He2.
Qed.

Lemma fault_k3 : vm_inv (hold_add old 1 hold) k3 l ts.
Proof.
  destruct fault_k2 as [Hv2 He2]. destruct fault_new as (Hq & Hql & Hqn & Hum & Hh & _).
  destruct fault_e' as (Hr & Hpa & Hbits). destruct fault_old as (Hold & Hmo & Hne & Hlo).
  assert (Hmaps : forall j vb p, maps k2 ts j vb p -> maps k ts j vb p).
  { intros j vb p (Hvb & H). split; [done|]. by rewrite He2 in H. }
  pose proof (inv_reach _ (hold_add old 1 hold) k2 k3 l l ts i root t t _ va e' Hv2 Hi fault_reach
    Hva fault_edit) as H.
  rewrite list_insert_id in H by done. apply H; [done|by rewrite Hpa|..].
  - rewrite Hpa. intros _ _ _ j vb Hm. by apply Hmaps, Hum in Hm.
  - intros p Hp. destruct (vi_refs _ _ _ _ p Hv Hp) as (Hp0 & _). rewrite He2 by done. fold e.
    unfold hold_add, refs. rewrite Hpa, HV, (proj2 (Z.ltb_lt _ _) Hlo). fold old. cbn [andb].
    destruct (has e' PTE_V), (Z.eqb_spec q p), (Z.eqb_spec p old), (Z.eqb_spec p q),
      (Z.eqb_spec old p); cbn [andb]; lia.
Qed.

Lemma fault_ram p x : page_ok p -> (exists j vb, maps k ts j vb p) -> in_page p x ->
  k_ram k3 x = k_ram k x.
Proof.
  intros Hp Hm Hx. destruct fault_k2 as [Hv2 He2]. destruct fault_new as (Hq & _ & _ & Hum & _).
  assert (Hpq : p <> q) by (intros ->; destruct Hm as (j & vb & H); by apply (Hum j vb)).
  assert (Hxq : ~ in_page q x) by by apply (pages_apart p q x).
  rewrite (reach_data _ k2 k3 l l ts i root t t _ p x Hv2 Hi fault_reach Hp); [| |done].
  - unfold k2. cbn. rewrite memmove_out by (change (Z.of_nat (Z.to_nat PGSIZE)) with PGSIZE; done).
    apply fill_bytes_out. done.
  - right. destruct Hm as (j & vb & Hvb & H). exists j, vb. split; [done|]. by rewrite He2.
Qed.

Lemma fault_copy x : in_page q x -> u8 (k_ram k3 x) = u8 (k_ram k (old + (x - q))).
Proof.
  intros Hx. destruct fault_k2 as [Hv2 He2]. destruct fault_new as (Hq & _ & _ & Hum & _).
  destruct fault_old as (Hold & _ & Hne & _).
  rewrite (reach_data _ k2 k3 l l ts i root t t _ q x Hv2 Hi fault_reach Hq); [| |done].
  - unfold k2. cbn. rewrite memmove_u8. change (Z.of_nat (Z.to_nat PGSIZE)) with PGSIZE. rewrite blit_bytes_in by done.
    rewrite fill_bytes_out; [done|]. apply (pages_apart old q); try done. unfold in_page in *. lia.
  - left. rewrite hold_add_eq. destruct (vi_refs _ _ _ _ q Hv Hq). lia.
Qed.

Section Freed.
Context (k4 : kernel) (l4 : list Z) (Hfr : freed old k3 k4 l l4).

Lemma fault_k4 : vm_inv hold k4 l4 ts /\ same_entries k3 ts k4 ts
  /\ (forall j vb x, maps k3 ts j vb old -> k_ram k4 x = k_ram k3 x).
Proof.
  destruct fault_old as (Hold & _). destruct (vi_refs _ _ _ _ old Hv Hold) as (Hh & _).
  destruct (inv_kfree _ k3 k4 old l l4 ts fault_k3 Hold) as (Hv4 & He4 & Hx4);
    [rewrite hold_add_eq; lia|done|].
  split_and!; [|done|done]. eapply inv_weaken; [exact Hv4| |].
  - intros p Hp. unfold hold_add in *. destruct (p =? old); [lia|done].
  - intros p Hp. destruct (vi_refs _ _ _ _ p Hv Hp). unfold hold_add. destruct (p =? old); lia.
Qed.

Lemma fault_user j vb : 0 <= vb < MAXVA -> user_byte k4 ts j vb = user_byte k ts j vb.
Proof.
  intros Hvb. destruct fault_k4 as (Hv4 & He4 & Hx4). destruct (round_upage vb Hvb) as (Hup & _ & Hoff).
  transitivity (user_byte k3 ts j vb).
  { eapply user_byte_keep; [apply fault_k3|done|done|]. intros p x Hm Hp Hx.
    destruct (decide (p = old)) as [->|Hne]; [by apply (Hx4 j (PGROUNDDOWN vb))|].
    destruct fault_old as (Hold & _). apply (freed_ram _ _ _ _ _ _ Hfr).
    by apply (pages_apart p old x). }
  unfold user_byte. cbv zeta. rewrite fault_entry by done.
  destruct fault_e' as (_ & Hpa & Hbits).
  destruct (decide ((j, PGROUNDDOWN vb) = (i, va))) as [[= -> Ev]|Hne].
  - rewrite Ev. fold e. rewrite !has_V, !has_U, !Hbits by lia. rewrite !orb_false_r, !andb_true_r.
    destruct (Z.testbit e 0 && Z.testbit e 4); [|done]. f_equal.
    rewrite Hpa, fault_copy by (unfold in_page; lia). do 2 f_equal. fold old. lia.
  - destruct (has (entry k ts j (PGROUNDDOWN vb)) PTE_V) eqn:EV; [|done].
    destruct (has (entry k ts j (PGROUNDDOWN vb)) PTE_U) eqn:EU; [|done]. cbn [andb].
    do 2 f_equal. eapply fault_ram.
    + by apply (vi_user _ _ _ _ Hv j _ Hup).
    + exists j, (PGROUNDDOWN vb). split_and!; try done. by apply (vi_user _ _ _ _ Hv j).
    + unfold in_page. lia.
Qed.
Lemma fault_private :
  let e4 := entry k4 ts i va in
  has e4 PTE_V = true /\ has e4 PTE_U = true /\ has e4 PTE_W = true /\ has e4 PTE_COW = false /\
  forall j vb, maps k4 ts j vb (PTE2PA e4) -> j = i /\ vb = va.
Proof.
  destruct fault_k4 as (Hv4 & He4 & _). destruct fault_e' as (_ & Hpa & Hbits).
  destruct fault_new as (_ & _ & _ & Hum & _).
  cbv zeta. rewrite !He4, !fault_entry, !decide_True by done.
  rewrite Hpa, has_V, has_U, has_W, has_COW, !Hbits by lia. rewrite has_V in HV. rewrite has_U in HU.
  rewrite HV, HU. rewrite !orb_true_r, !andb_false_r. split_and!; try done.
  intros j vb (Hvb & Hlo & H). rewrite He4, fault_entry in H by done. case_decide as Hd; [by simplify_eq|].
  by destruct (Hum j vb).
Qed.

(** One reference moves from the old page to the new one. *)
Lemma fault_count_k3 p : page_ok p -> count k3 p = if decide (p = q) then 1 else count k p.
Proof. intros Hp. destruct fault_new as (Hq & _). by apply (count_upd q p (fun _ => 1) k). Qed.

Lemma fault_counts : ref_moved old (PTE2PA (entry k4 ts i va)) k k4.
Proof.
  destruct fault_k4 as (_ & He4 & _). destruct fault_e' as (_ & Hpa & _). destruct fault_old as (Hold & _ & Hne & _).
  rewrite He4, fault_entry, decide_True, Hpa by done. intros p Hp.
  rewrite (freed_count old p k3 k4 l l4) by done. rewrite !fault_count_k3 by done.
  repeat case_decide; congruence.
Qed.

Lemma fault_freed : old ∈ l4 <-> count k old <= 1.
Proof.
  destruct fault_old as (Hold & Hmo & Hne & _). pose proof (fault_count_k3 old Hold) as Hc. rewrite decide_False in Hc by done.
  assert (Hnl : old ∉ l).
  { intros Hl. apply (vi_not_free hold k (q :: l) ts old Hv Hold); [right; by eauto|]. by right. }
  destruct Hfr as [(H & _ & ->)|(H & _ & ->)]; rewrite Hc in H; [split; [done|lia]|].
  split; [done|]. intros _. by left.
Qed.
End Freed.
End Fault.

Lemma wp_cow_page_fault hold l ts i root t va w :
  LkKmem ∉ k_held (w_k w) -> vm_inv hold (w_k w) l ts -> ts !! i = Some (root, t) -> upage va ->
  let e := entry (w_k w) ts i va in
  wp total (cow_page_fault root va) (fun r w' =>
    if has e PTE_V && has e PTE_U && has e PTE_COW && negb (bool_decide (l = []))
    then r = 0 /\ w_env w' = w_env w /\ only_mem (w_k w) (w_k w') /\ exists l',
      vm_inv hold (w_k w') l' ts /\
      (let e' := entry (w_k w') ts i va in
       has e' PTE_V = true /\ has e' PTE_U = true /\ has e' PTE_W = true /\ has e' PTE_COW = false /\
       forall j vb, maps (w_k w') ts j vb (PTE2PA e') -> j = i /\ vb = va) /\
      (forall j vb, upage vb -> (j, vb) <> (i, va) ->
         entry (w_k w') ts j vb = entry (w_k w) ts j vb) /\
      (forall j vb, 0 <= vb < MAXVA -> user_byte (w_k w') ts j vb = user_byte (w_k w) ts j vb) /\
      ref_moved (PTE2PA e) (PTE2PA (entry (w_k w') ts i va)) (w_k w) (w_k w') /\
      (PTE2PA e ∈ l' <-> count (w_k w) (PTE2PA e) <= 1)
    else r = -1 /\ w' = w) w.
Proof.
  intros Hh Hv Hi Hva e. unfold cow_page_fault. destruct (upage_px _ Hva) as [Hva0 Hva1].
  destruct (va >=? MAXVA) eqn:E0; [lia|]. kstep.
  destruct (walk_entry hold _ l ts i root t va w eq_refl Hv Hi (conj Hva0 Hva1))
    as [(a & Ew & Ea & Ha0 & Ee)|(Ew & Ea & Ee)]; (eapply wp_Ok; [exact Ew|]).
  - destruct (a =? 0) eqn:Ea0; [lia|]. unfold load_pte. do 2 kstep. fold e in Ee. rewrite <- Ee.
    cbv zeta. rewrite !has_flags by done.
    destruct (has e PTE_U) eqn:HU, (has e PTE_V) eqn:HV, (has e PTE_COW) eqn:HC; cbn [negb orb andb];
      try (by apply wp_ret).
    assert (Hold : page_ok (PTE2PA e)) by by apply (vi_user _ _ _ _ Hv i).
    destruct (page_ok_facts _ Hold) as (_ & _ & _ & Hor & _).
    destruct (PTE2PA e =? 0) eqn:Eo; [lia|]. fold (cow_flags e). kstep.
    apply (wp_kalloc _ l); [done|apply Hv|intros ->; by apply wp_ret|].
    intros q l' ->. destruct (inv_kalloc _ _ _ _ _ Hv) as (_ & _ & Hq & _).
    destruct (page_ok_facts _ Hq) as (_ & _ & _ & Hqr & _).
    destruct (q =? 0) eqn:Eq; [lia|]. rewrite bool_decide_false by done. cbn [negb].
    do 2 kstep. unfold store_pte. do 3 kstep.
    set (k3 := (alloc_page q (w_k w)) <| k_ram ::= fun m => memmove m q (PTE2PA e) (Z.to_nat PGSIZE) |>
      <| k_ram ::= fun m => store64 m a (Z.lor (PA2PTE q) (cow_flags e)) |>).
    assert (Hfin : forall k4 l4, freed (PTE2PA e) k3 k4 l' l4 -> exists l5,
      vm_inv hold k4 l5 ts /\
      (let e' := entry k4 ts i va in
       has e' PTE_V = true /\ has e' PTE_U = true /\ has e' PTE_W = true /\ has e' PTE_COW = false /\
       forall j vb, maps k4 ts j vb (PTE2PA e') -> j = i /\ vb = va) /\
      (forall j vb, upage vb -> (j, vb) <> (i, va) -> entry k4 ts j vb = entry (w_k w) ts j vb) /\
      (forall j vb, 0 <= vb < MAXVA -> user_byte k4 ts j vb = user_byte (w_k w) ts j vb) /\
      ref_moved (PTE2PA e) (PTE2PA (entry k4 ts i va)) (w_k w) k4 /\
      (PTE2PA e ∈ l5 <-> count (w_k w) (PTE2PA e) <= 1)).
    { intros k4 l4 Hf. exists l4.
      destruct (fault_k4 hold (w_k w) q l' ts i root t va a Hv Hi Hva Ea HV HU k4 l4 Hf) as (Hv4 & He4 & _).
      split; [done|]. split_and!.
      - apply (fault_private hold (w_k w) q l' ts i root t va a Hv Hi Hva Ea HV HU k4 l4 Hf).
      - intros j vb Hvb Hne. rewrite He4 by done.
        rewrite (fault_entry hold (w_k w) q l' ts i root t va a Hv Hi Hva Ea) by done.
        by rewrite decide_False.
      - apply (fault_user hold (w_k w) q l' ts i root t va a Hv Hi Hva Ea HV HU k4 l4 Hf).
      - apply (fault_counts hold (w_k w) q l' ts i root t va a Hv Hi Hva Ea HV HU k4 l4 Hf).
      - eapply fault_freed; eauto. }
    eapply wp_kfree; [done|done| |]; intros Hc; apply wp_ret;
      (split; [done|split; [done|split; [by destruct w as [[] ?]|]]]).
    + exact (Hfin (drop_ref _ k3) l' (or_introl (conj Hc (conj eq_refl eq_refl)))).
    + exact (Hfin (free_page _ k3) _ (or_intror (conj Hc (conj eq_refl eq_refl)))).
  - ksteps. fold e in Ee. rewrite Ee. done.
Qed.

(** C2. [cow_page_fault] on every branch.  It fails, changing nothing, when the page is
    not mapped copy-on-write for user code or when there is no memory.  Otherwise the
    page is writable and no longer copy-on-write, no other address in any process maps
    the same physical page, every byte every process reads is what it was before, and no
    other entry of any page table has changed.  Of the reference counts, the new page has one,
    the old page exactly one less than before, and no other has changed; the old page is on the free
    list exactly if that was its last reference. *)
Theorem cow_page_fault_correct hold l ts i root t va w :
  LkKmem ∉ k_held (w_k w) -> vm_inv hold (w_k w) l ts -> ts !! i = Some (root, t) -> upage va ->
  let e := entry (w_k w) ts i va in
  wp total (cow_page_fault root va) (fun r w' =>
    if has e PTE_V && has e PTE_U && has e PTE_COW && negb (bool_decide (l = []))
    then r = 0 /\ w_env w' = w_env w /\ only_mem (w_k w) (w_k w') /\ exists l',
      vm_inv hold (w_k w') l' ts /\
      (let e' := entry (w_k w') ts i va in
       has e' PTE_V = true /\ has e' PTE_U = true /\ has e' PTE_W = true /\ has e' PTE_COW = false /\
       forall j vb, maps (w_k w') ts j vb (PTE2PA e') -> j = i /\ vb = va) /\
      (forall j vb, upage vb -> (j, vb) <> (i, va) ->
         entry (w_k w') ts j vb = entry (w_k w) ts j vb) /\
      (forall j vb, 0 <= vb < MAXVA -> user_byte (w_k w') ts j vb = user_byte (w_k w) ts j vb) /\
      ref_moved (PTE2PA e) (PTE2PA (entry (w_k w') ts i va)) (w_k w) (w_k w') /\
      (PTE2PA e ∈ l' <-> count (w_k w) (PTE2PA e) <= 1)
    else r = -1 /\ w' = w) w.
Proof. apply wp_cow_page_fault. Qed.

(** ** [uvmunmap] *)

Lemma edit_default (f : Z -> Z) va e' v :
  default (f v) (edit va e' v) = if decide (v = va) then e' else f v.
Proof. unfold edit. destruct (Z.eqb_spec v va), (decide (v = va)); done. Qed.

Lemma has_0 f : has 0 f = false.
Proof. by unfold has. Qed.

Lemma refs_0 va p : refs va 0 p = 0.
Proof. unfold refs. by rewrite has_0, andb_false_r. Qed.

(** What is left of the mapped pages is untouched. *)
Definition data_kept (k : kernel) (k' : kernel) (ts : list space) : Prop :=
  forall p x, page_ok p -> (exists j vb, maps k' ts j vb p) -> in_page p x -> k_ram k' x = k_ram k x.

Section Unmap.
Context (hold : Z -> Z) (k : kernel) (l : list Z) (ts : list space) (i : nat)
  (root : Z) (t : tree) (va a : Z).
Let e := entry k ts i va.
Let p := PTE2PA e.
Context (Hv : vm_inv hold k l ts) (Hi : ts !! i = Some (root, t)) (Hva : upage va)
  (Ha : leaf_addr t va = Some a).

(** Clearing an entry. *)
Section Clear.
Context (k1 : kernel) (l1 : list Z).
Let k2 := k1 <| k_ram ::= fun m => store64 m a 0 |>.
Context (Hm1 : vm_mem k1 l1 ts) (He1 : same_entries k ts k1 ts)
  (Hc1 : forall q, page_ok q -> hold q + refs va e q + count k1 q >= hold q + count k q).

Lemma clear_reach : reaches root k1 l1 t (edit va 0) k2 l1 t.
Proof. apply reaches_set_leaf; [by apply (vm_table _ _ _ Hm1 i)|done|done|lia]. Qed.

Lemma clear_mem : vm_mem k2 l1 ts.
Proof.
  rewrite <- (list_insert_id ts i _ Hi). by eapply reach_mem; [|done|apply clear_reach].
Qed.

Lemma clear_entry j vb : upage vb ->
  entry k2 ts j vb = if decide ((j, vb) = (i, va)) then 0 else entry k ts j vb.
Proof.
  intros Hvb. rewrite <- (list_insert_id ts i _ Hi) at 1.
  rewrite (reach_entry k1 k2 l1 l1 ts i root t t _ Hm1 Hi clear_reach) by done.
  rewrite edit_default, !He1 by done. destruct (decide (j = i)) as [->|Hne].
  - destruct (decide (vb = va)) as [->|Hvne]; [by rewrite decide_True|].
    by rewrite decide_False by congruence.
  - by rewrite decide_False by congruence.
Qed.

Lemma clear_inv : vm_inv hold k2 l1 ts.
Proof.
  apply (inv_change hold k l ts _ _ _ _ i va 0); try done.
  - apply clear_mem.
  - apply clear_entry.
  - intros q Hq. destruct (vi_node _ _ _ _ Hv q Hq). rewrite refs_0. done.
  - intros q Hq. destruct (vi_refs _ _ _ _ q Hv Hq). specialize (Hc1 _ Hq).
    change (count k2 q) with (count k1 q). rewrite refs_0. fold e. lia.
Qed.

Lemma clear_data : (forall q x, page_ok q -> (exists j vb, maps k2 ts j vb q) -> in_page q x ->
    k_ram k1 x = k_ram k x) -> data_kept k k2 ts.
Proof.
  intros Hd q x Hq Hm Hx. rewrite <- (Hd q x) by done.
  assert (Hk1 : vm_inv hold k2 l1 ts) by apply clear_inv.
  change (k_ram k2 x) with (store64 (k_ram k1) a 0 x). apply store64_out.
  destruct (leaf_addr_some _ _ _ _ _ (ti_shape _ _ _ _ (vm_table _ _ _ Hm1 _ _ _ Hi)) Ha)
    as (pg & Hpg & Hpgok & -> & _).
  assert (Hne : q <> pg).
  { intros ->. destruct Hm as (j & vb & Hm). apply (vi_not_node _ _ _ _ _ _ _ Hk1 Hm).
    by exists i, root, t, [PX 2 va; PX 1 va]. }
  destruct (page_disjoint q pg Hq Hpgok Hne); pose proof (PX_range 0 va);
    unfold pte_addr, in_page, PGSIZE in *; lia.
Qed.
End Clear.

(** Unmapping a page and freeing it. *)
Lemma unmap_free k1 l1 : va < TRAPFRAME -> has e PTE_V = true -> page_ok p -> freed p k k1 l l1 ->
  let k2 := k1 <| k_ram ::= fun m => store64 m a 0 |> in
  vm_inv hold k2 l1 ts /\ data_kept k k2 ts /\
  forall j vb, upage vb -> entry k2 ts j vb = if decide ((j, vb) = (i, va)) then 0 else entry k ts j vb.
Proof.
  intros Hlo HV Hp Hfr k2. pose proof (vi_mem _ _ _ _ Hv) as Hm.
  assert (Hmap : maps k ts i va p) by done.
  destruct (vi_refs _ _ _ _ p Hv Hp) as (H0 & _ & H1 & H2). specialize (H1 _ _ Hmap).
  destruct (mem_kfree k k1 p l l1 ts) as [Hm1 He1]; try done.
  - apply (vi_not_free hold k _ ts); eauto.
  - by eapply vi_not_node.
  - lia.
  - assert (Hc1 : forall q, page_ok q -> hold q + refs va e q + count k1 q >= hold q + count k q).
    { intros q Hq. rewrite (freed_count p q k k1 l l1) by done. case_decide as Eq; [|pose proof (refs_range va e q); lia].
      subst q. assert (Hr1 : refs va e p = 1) by by apply refs_one. lia. }
    split_and!.
    + by apply (clear_inv k1).
    + apply (clear_data k1 l1); try done. intros q x Hq (j & vb & Hmq) Hx.
      assert (Hmk : maps k ts j vb q /\ (j, vb) <> (i, va)).
      { destruct Hmq as (Hup & Hlo' & Hmq). rewrite (clear_entry k1 l1) in Hmq by done.
        case_decide; [by rewrite has_0 in Hmq; destruct Hmq|done]. }
      destruct (decide (q = p)) as [->|Hne].
      * assert (2 + hold p <= count k p) by (apply (H2 j vb i va); tauto).
        destruct Hfr as [(_ & -> & _)|(Hc & _)]; [done|lia].
      * apply (freed_ram _ _ _ _ _ _ Hfr). by apply (pages_apart q p x).
    + by apply (clear_entry k1 l1).
Qed.

(** Unmapping without freeing. *)
Lemma unmap_keep :
  let k2 := k <| k_ram ::= fun m => store64 m a 0 |> in
  vm_inv hold k2 l ts /\ data_kept k k2 ts /\
  forall j vb, upage vb -> entry k2 ts j vb = if decide ((j, vb) = (i, va)) then 0 else entry k ts j vb.
Proof.
  intros k2. pose proof (vi_mem _ _ _ _ Hv) as Hm.
  assert (Hc1 : forall q, page_ok q -> hold q + refs va e q + count k q >= hold q + count k q)
    by (intros q _; pose proof (refs_range va e q); lia).
  assert (Hse : same_entries k ts k ts) by (by intros ? ?).
  split_and!; [by apply (clear_inv k)|by apply (clear_data k l)|by apply (clear_entry k l)].
Qed.
End Unmap.

(** The pages of [va .. va + n), and how many of the addresses [vs] space [i] maps to page [p]. *)
Definition pages (va n : Z) : list Z := (fun j => va + 4096 * j) <$> seqZ 0 (n / 4096).
Definition refs_to (k : kernel) (ts : list space) (i : nat) (p : Z) (vs : list Z) : Z :=
  Z.of_nat (length (filter (fun v => PTE2PA (entry k ts i v) = p) vs)).

Lemma pages_next va n : 0 <= n -> n mod 4096 = 0 -> pages va (n + 4096) = pages va n ++ [va + n].
Proof.
  intros H0 Hn. unfold pages. replace ((n + 4096) / 4096) with (n / 4096 + 1) by zlia.
  rewrite seqZ_app, fmap_app by zlia. assert (E : 4096 * (n / 4096) = n) by zlia. f_equal. unfold seqZ.
  change (seq 0 (Z.to_nat 1)) with [0%nat]. rewrite !list_fmap_singleton. f_equal. lia.
Qed.
Lemma refs_to_app k ts i p vs vs' : refs_to k ts i p (vs ++ vs') = refs_to k ts i p vs + refs_to k ts i p vs'.
Proof. unfold refs_to. rewrite filter_app, length_app. lia. Qed.
Lemma refs_to_one k ts i p v : refs_to k ts i p [v] = if decide (p = PTE2PA (entry k ts i v)) then 1 else 0.
Proof. unfold refs_to. rewrite filter_cons. repeat case_decide; done || congruence. Qed.
Lemma elem_of_pages va n v : 0 <= n -> n mod 4096 = 0 -> va mod 4096 = 0 -> v ∈ pages va n <-> v mod 4096 = 0 /\ va <= v < va + n.
Proof.
  intros H0 Hn Hva. unfold pages. rewrite list_elem_of_fmap. setoid_rewrite elem_of_seqZ. split.
  - intros (j & -> & Hj). zlia.
  - intros [Hv Hr]. exists ((v - va) / 4096). zlia.
Qed.
Lemma refs_to_ext k k' ts ts' i i' p vs : (forall v, v ∈ vs -> PTE2PA (entry k' ts' i' v) = PTE2PA (entry k ts i v)) ->
  refs_to k' ts' i' p vs = refs_to k ts i p vs.
Proof.
  intros H. unfold refs_to. do 2 f_equal. induction vs as [|v vs IH]; [done|]. rewrite !filter_cons, (H v) by by left.
  rewrite IH by (intros; apply H; by right). done.
Qed.

(** Entries that are 0 in [va .. va + n) of space [i] and otherwise as before. *)
Definition cleared (i : nat) (va n : Z) (k k' : kernel) (ts : list space) : Prop :=
  forall j vb, upage vb -> entry k' ts j vb =
    if bool_decide (j = i) && (va <=? vb) && (vb <? va + n) then 0 else entry k ts j vb.

Lemma cleared_step i va n k k1 k2 ts : 0 <= n -> upage (va + n) ->
  cleared i va n k k1 ts ->
  (forall j vb, upage vb ->
    entry k2 ts j vb = if decide ((j, vb) = (i, va + n)) then 0 else entry k1 ts j vb) ->
  cleared i va (n + 4096) k k2 ts.
Proof.
  intros Hn [_ Hal] Hc H j vb Hvb. pose proof (proj2 Hvb) as Hbl. rewrite H, Hc by done.
  destruct (decide (j = i)) as [->|Hne].
  - rewrite bool_decide_true by done. cbn [andb].
    destruct (decide ((i, vb) = (i, va + n))) as [[= ->]|Hne].
    + destruct ((va <=? va + n) && (va + n <? va + (n + 4096))) eqn:E; [done|lia].
    + assert (vb <> va + n) by congruence.
      destruct ((va <=? vb) && (vb <? va + n)) eqn:E1, ((va <=? vb) && (vb <? va + (n + 4096))) eqn:E2;
        try done; exfalso; zlia.
  - rewrite bool_decide_false by done. cbn [andb]. by rewrite decide_False by congruence.
Qed.

Lemma cleared_maps i va n k k' ts j vb p : cleared i va n k k' ts -> maps k' ts j vb p -> maps k ts j vb p.
Proof.
  intros Hc (Hup & Hlo & H). rewrite Hc in H by done. destruct (_ && _); [|done].
  rewrite has_0 in H. by destruct H.
Qed.

Lemma data_kept_trans i va n k k1 k2 ts : cleared i va n k1 k2 ts ->
  data_kept k k1 ts -> data_kept k1 k2 ts -> data_kept k k2 ts.
Proof.
  intros Hc H1 H2 p x Hp (j & vb & Hm) Hx. rewrite H2 by (eauto; done). apply (H1 p x); [done| |done].
  exists j, vb. by eapply cleared_maps.
Qed.

Lemma cleared_refl i va k ts : cleared i va 0 k k ts.
Proof. intros j vb _. destruct (_ && _) eqn:E; [lia|done]. Qed.

Lemma cleared_one i va k k' ts : upage va ->
  (forall j vb, upage vb ->
    entry k' ts j vb = if decide ((j, vb) = (i, va)) then 0 else entry k ts j vb) ->
  cleared i va 4096 k k' ts.
Proof.
  intros Hva H. apply (cleared_step i va 0 k k k'); [lia|by rewrite Z.add_0_r|apply cleared_refl|].
  by rewrite Z.add_0_r.
Qed.

Section Uvmunmap.
Context (hold : Z -> Z) (l : list Z) (ts : list space) (i : nat) (root : Z) (t : tree)
  (va npages : Z) (do_free : bool) (w : world).
Context (Hheld : LkKmem ∉ k_held (w_k w)) (Hv : vm_inv hold (w_k w) l ts)
  (Hi : ts !! i = Some (root, t)) (Hva : upage va) (Hnp : 0 <= npages)
  (Hend : va + npages * 4096 <= (if do_free then TRAPFRAME else MAXVA)).
Context (Hmapped : forall v, upage v -> va <= v < va + npages * 4096 ->
  let e := entry (w_k w) ts i v in
  has e PTE_V = true /\ PTE_FLAGS e <> PTE_V /\ (do_free = true -> page_ok (PTE2PA e))).

(** The references dropped. *)
Definition dropped (p : Z) (vs : list Z) : Z := if do_free then refs_to (w_k w) ts i p vs else 0.

Definition unmapped_to (n : Z) (w' : world) : Prop :=
  w_env w' = w_env w /\ only_mem (w_k w) (w_k w') /\ exists l',
  vm_inv hold (w_k w') l' ts /\ data_kept (w_k w) (w_k w') ts /\ cleared i va n (w_k w) (w_k w') ts /\
  forall p, page_ok p -> count (w_k w') p = count (w_k w) p - dropped p (pages va n).

Lemma unmapped_step n w1 k1 : 0 <= n -> n mod 4096 = 0 -> upage (va + n) -> unmapped_to n w1 -> only_mem (w_k w1) k1 ->
  (exists l1, vm_inv hold k1 l1 ts /\ data_kept (w_k w1) k1 ts /\
    forall j vb, upage vb ->
      entry k1 ts j vb = if decide ((j, vb) = (i, va + n)) then 0 else entry (w_k w1) ts j vb) ->
  (forall p, page_ok p -> count k1 p = count (w_k w1) p - dropped p [va + n]) ->
  unmapped_to (n + 4096) (World k1 (w_env w1)).
Proof.
  intros Hn Hnm Hup (He & Ho & l' & Hv' & Hd & Hc & Hp) Ho1 (l1 & Hv1 & Hd1 & Hc1) Hp1.
  split; [done|]. split; [by eapply only_mem_trans|]. exists l1. split_and!; [done|..].
  - eapply data_kept_trans; [by apply cleared_one|done|done].
  - by apply (cleared_step i va n (w_k w) (w_k w1)).
  - intros p Hpp. cbn [w_k]. rewrite Hp1, Hp, pages_next by done. unfold dropped. rewrite refs_to_app. destruct do_free; lia.
Qed.

Lemma wp_uvmunmap E (Q : unit -> world -> Prop) :
  (forall w', unmapped_to (npages * 4096) w' -> Q tt w') ->
  wp E (uvmunmap root va npages do_free) Q w.
Proof.
  intros HQ. unfold uvmunmap. destruct Hva as [Hva0 Hvam].
  assert (HM : MAXVA = 274877906944) by done. assert (HT : TRAPFRAME = MAXVA - 8192) by done.
  assert (Hend' : va + npages * 4096 <= MAXVA) by (destruct do_free; lia).
  unfold PGSIZE. rewrite Hvam. cbn [negb Z.eqb]. rewrite (u64_small (va + npages * 4096)) by lia.
  apply (wp_loop _ (fun a w' => a mod 4096 = 0 /\ va <= a <= va + npages * 4096 /\ unmapped_to (a - va) w')
    (fun a _ => Z.to_nat ((va + npages * 4096 - a) / 4096))).
  - split; [done|]. split; [lia|]. rewrite Z.sub_diag. split; [done|]. split; [apply only_mem_refl|].
    exists l. split; [done|]. split; [by intros|]. split; [apply cleared_refl|]. intros p _. unfold dropped. change (pages va 0) with (@nil Z). change (refs_to (w_k w) ts i p []) with 0. destruct do_free; lia.
  - zlia.
  - intros a w1 (Ham & Har & Hu). destruct (a <? va + npages * 4096) eqn:Ea; cycle 1.
    { apply wp_ret, HQ. by replace (npages * 4096) with (a - va) by lia. }
    assert (Hup : upage a) by (split; [lia|done]).
    pose proof Hu as (He & Ho & l1 & Hv1 & Hd1 & Hc1 & Hn1).
    assert (Hent : entry (w_k w1) ts i a = entry (w_k w) ts i a).
    { rewrite Hc1 by done. destruct (_ && (a <? _)) eqn:Eb; [lia|done]. }
    destruct (Hmapped a Hup) as (HV & HF & Hpg); [lia|]. rewrite <- Hent in HV, HF, Hpg.
    kstep. destruct (walk_entry hold _ l1 ts i root t a w1 eq_refl Hv1 Hi (upage_px _ Hup))
      as [(la & Ew & El & Hla & Ee)|(_ & _ & Ee)]; [|by rewrite Ee, has_0 in HV].
    eapply wp_Ok; [exact Ew|]. destruct (la =? 0) eqn:E0; [lia|]. unfold load_pte, store_pte.
    do 2 kstep. rewrite <- Ee, HV. cbn [negb]. rewrite (proj2 (Z.eqb_neq _ _) HF).
    assert (Hstep : forall k1, only_mem (w_k w1) k1 ->
      (exists l2, vm_inv hold k1 l2 ts /\ data_kept (w_k w1) k1 ts /\
        forall j vb, upage vb ->
          entry k1 ts j vb = if decide ((j, vb) = (i, a)) then 0 else entry (w_k w1) ts j vb) ->
      (forall p, page_ok p -> count k1 p = count (w_k w1) p - dropped p [a]) ->
      forall R, wp E (ret (inl (u64 (a + 4096)))) (fun (r : Z + unit) w' => match r with
        | inl s' => (s' mod 4096 = 0 /\ va <= s' <= va + npages * 4096 /\ unmapped_to (s' - va) w') /\
            (Z.to_nat ((va + npages * 4096 - s') / 4096) < Z.to_nat ((va + npages * 4096 - a) / 4096))%nat
        | inr a => R a w' end) (World k1 (w_env w1))).
    { intros k1 Ho1 Hk1 Hp1 R. apply wp_ret. rewrite u64_small by lia. split; [|zlia].
      split; [zlia|]. split; [zlia|]. replace (a + 4096 - va) with ((a - va) + 4096) by lia.
      assert (Ea' : va + (a - va) = a) by lia. eapply unmapped_step; rewrite ?Ea'; try done; [lia|zlia]. }
    assert (Hdrop : forall k2 k3 l2 l3, do_free = true -> page_ok (PTE2PA (entry (w_k w1) ts i a)) ->
      freed (PTE2PA (entry (w_k w1) ts i a)) (w_k w1) k2 l2 l3 -> k_kmem k3 = k_kmem k2 ->
      forall p, page_ok p -> count k3 p = count (w_k w1) p - dropped p [a]).
    { intros k2 k3 l2 l3 Hdo Hpo Hfr Hk3 p Hp. transitivity (count k2 p); [unfold count; by rewrite Hk3|].
      rewrite (freed_count (PTE2PA (entry (w_k w1) ts i a)) p (w_k w1) k2 l2 l3) by done.
      unfold dropped. rewrite Hdo, refs_to_one, <- Hent. case_decide; subst; lia. }
    assert (Hh1 : LkKmem ∉ k_held (w_k w1)) by by rewrite (only_mem_held _ _ Ho).
    destruct do_free eqn:Edo; cbn [when].
    + specialize (Hpg eq_refl). kstep.
      eapply wp_kfree; [done|done| |]; intros Hc; do 2 kstep; destruct w1 as [k1 env1]; cbn [w_k w_env] in *.
      * assert (Hfr : freed (PTE2PA (entry k1 ts i a)) k1 (drop_ref (PTE2PA (entry k1 ts i a)) k1) l1 l1) by by left.
        eapply (Hstep ((drop_ref (PTE2PA (entry k1 ts i a)) k1) <| k_ram ::= fun m => store64 m la 0 |>)); [by destruct k1| |].
        -- eexists. eapply (unmap_free hold k1 l1 ts i root t a la Hv1 Hi Hup El); [lia|done|done|exact Hfr].
        -- by eapply Hdrop.
      * assert (Hfr : freed (PTE2PA (entry k1 ts i a)) k1 (free_page (PTE2PA (entry k1 ts i a)) k1) l1 (PTE2PA (entry k1 ts i a) :: l1)) by by right.
        eapply (Hstep ((free_page (PTE2PA (entry k1 ts i a)) k1) <| k_ram ::= fun m => store64 m la 0 |>)); [by destruct k1| |].
        -- eexists. eapply (unmap_free hold k1 l1 ts i root t a la Hv1 Hi Hup El); [lia|done|done|exact Hfr].
        -- by eapply Hdrop.
    + do 3 kstep. destruct w1 as [k1 env1]; cbn [w_k w_env] in *.
      eapply (Hstep (k1 <| k_ram ::= fun m => store64 m la 0 |>)); [by destruct k1| |].
      * eexists. by eapply (unmap_keep hold k1 l1 ts i root t a la Hv1 Hi Hup El).
      * intros p _. unfold dropped. rewrite Edo. change (count (k1 <| k_ram ::= fun m => store64 m la 0 |>) p) with (count k1 p). lia.
Qed.
End Uvmunmap.

(** ** [uvmcopy] *)

(** Storing to one entry of a space. *)
Lemma edit_leaf hold hold' k l ts i root t va a e' :
  vm_inv hold k l ts -> ts !! i = Some (root, t) -> upage va -> leaf_addr t va = Some a ->
  0 <= e' < 2 ^ 54 ->
  (has e' PTE_V = true -> has e' PTE_U = true -> page_ok (PTE2PA e') /\ va < TRAPFRAME) ->
  (va < TRAPFRAME -> has e' PTE_V = true -> page_ok (PTE2PA e') ->
    forall j vb, maps k ts j vb (PTE2PA e') -> (j, vb) <> (i, va) ->
    cow_only e' /\ cow_only (entry k ts j vb)) ->
  (forall p, page_ok p -> 0 <= hold' p /\
    refs va e' p + hold' p <= refs va (entry k ts i va) p + hold p) ->
  let k2 := k <| k_ram ::= fun m => store64 m a e' |> in
  vm_inv hold' k2 l ts
  /\ (forall j vb, upage vb ->
       entry k2 ts j vb = if decide ((j, vb) = (i, va)) then e' else entry k ts j vb)
  /\ (forall p x, page_ok p -> (0 < hold p \/ exists j vb, maps k ts j vb p) -> in_page p x ->
       k_ram k2 x = k_ram k x).
Proof.
  intros Hv Hi Hva Ha He' Hu Hs Hc k2.
  assert (Hr : reaches root k l t (edit va e') k2 l t).
  { apply reaches_set_leaf; [by apply (vm_table _ _ _ (vi_mem _ _ _ _ Hv) i)|done|done|lia]. }
  assert (Hed : forall v, upage v -> default (entry k ts i v) (edit va e' v)
    = if decide (v = va) then e' else entry k ts i v) by (intros; apply edit_default).
  pose proof (inv_reach hold hold' k k2 l l ts i root t t _ va e' Hv Hi Hr Hva Hed He' Hu Hs Hc) as H1.
  pose proof (reach_entry_at hold k k2 l l ts i root t t _ va e' Hv Hi Hr Hed) as H2.
  rewrite list_insert_id in H1, H2 by done. split_and!; [done|done|].
  intros p x Hp Hor Hx. by eapply (reach_data hold k k2 l l ts i root t t).
Qed.

Definition cow (e : Z) : Z := Z.lor (Z.land e (Z.lnot PTE_W)) PTE_COW.

Lemma cow_bits e i : 0 <= i -> Z.testbit (cow e) i = (Z.testbit e i && negb (i =? 2)) || (i =? 5).
Proof.
  intros Hi. unfold cow, PTE_W, PTE_COW. change 4 with (2 ^ 2). change 32 with (2 ^ 5).
  rewrite Z.lor_spec, Z.land_spec, Z.lnot_spec, !Z.pow2_bits_eqb by lia.
  by rewrite (Z.eqb_sym 2 i), (Z.eqb_sym 5 i).
Qed.

Lemma cow_range e : 0 <= e < 2 ^ 54 -> 0 <= cow e < 2 ^ 54.
Proof.
  intros He. apply lor_range; [lia| |unfold PTE_COW; lia]. by apply land_range.
Qed.

Lemma cow_pa e : PTE2PA (cow e) = PTE2PA e.
Proof.
  unfold PTE2PA. do 2 f_equal. apply Z.bits_inj'. intros i Hi. rewrite !Z.shiftr_spec, cow_bits by lia.
  rewrite (proj2 (Z.eqb_neq (i + 10) 2)), (proj2 (Z.eqb_neq (i + 10) 5)) by lia.
  by rewrite andb_true_r, orb_false_r.
Qed.

Lemma cow_cow_only e : cow_only (cow e).
Proof.
  unfold cow_only. rewrite has_COW, has_W, !cow_bits by lia. rewrite andb_false_r. split; [|done].
  by rewrite orb_true_r.
Qed.

Lemma cow_V e : has (cow e) PTE_V = has e PTE_V.
Proof. rewrite !has_V, cow_bits by lia. by rewrite andb_true_r, orb_false_r. Qed.
Lemma cow_U e : has (cow e) PTE_U = has e PTE_U.
Proof. rewrite !has_U, cow_bits by lia. by rewrite andb_true_r, orb_false_r. Qed.

Lemma cow_refs va e p : refs va (cow e) p = refs va e p.
Proof. unfold refs. by rewrite cow_V, cow_pa. Qed.

Lemma pte_of_split e : 0 <= e < 2 ^ 54 -> has e PTE_V = true -> pte_of (PTE2PA e) (PTE_FLAGS e) = e.
Proof.
  intros He HV. unfold pte_of. rewrite pte_split by done. rewrite has_V in HV.
  apply Z.bits_inj'. intros i Hi. rewrite Z.lor_spec. unfold PTE_V. change 1 with (2 ^ 0).
  rewrite Z.pow2_bits_eqb by lia. destruct (Z.eqb_spec 0 i) as [<-|]; [by rewrite HV|by rewrite orb_false_r].
Qed.

(** ** Mapping one page *)

Definition edited (k k' : kernel) (ts ts' : list space) (i : nat) (va e' : Z) : Prop :=
  forall j vb, upage vb ->
    entry k' ts' j vb = if decide ((j, vb) = (i, va)) then e' else entry k ts j vb.

(** Pages that are mapped or held keep their contents. *)
Definition pages_kept (hold : Z -> Z) (k : kernel) (ts : list space) (k' : kernel) : Prop :=
  forall p x, page_ok p -> (0 < hold p \/ exists j vb, maps k ts j vb p) -> in_page p x ->
    k_ram k' x = k_ram k x.

(** The only pages taken were free ones, for tables. *)
Definition tables_only (l l' : list Z) (k k' : kernel) : Prop :=
  (forall p, p ∈ l' -> p ∈ l) /\ forall p, page_ok p -> (p ∉ l) -> count k' p = count k p.

Section MapPage.
Context (hold : Z -> Z) (l : list Z) (ts : list space) (i : nat) (root : Z) (t : tree)
  (va pa perm : Z) (w : world).
Let e' := pte_of pa perm.
Context (Hheld : LkKmem ∉ k_held (w_k w)) (Hv : vm_inv hold (w_k w) l ts)
  (Hi : ts !! i = Some (root, t)) (Hva : upage va) (Hlo : va < TRAPFRAME)
  (Hun : has (entry (w_k w) ts i va) PTE_V = false)
  (Hpa : page_ok pa) (Hhold : 1 <= hold pa) (Hperm : 0 <= perm < 1024)
  (Hshare : forall j vb, maps (w_k w) ts j vb pa ->
    cow_only e' /\ cow_only (entry (w_k w) ts j vb)).

Definition page_mapped (r : Z) (w' : world) : Prop :=
  w_env w' = w_env w /\ only_mem (w_k w) (w_k w') /\ exists l' t',
  let ts' := <[i := (root, t')]> ts in
  pages_kept hold (w_k w) ts (w_k w') /\ tables_only l l' (w_k w) (w_k w') /\
  ((r = 0 /\ vm_inv (hold_add pa (-1) hold) (w_k w') l' ts' /\ edited (w_k w) (w_k w') ts ts' i va e')
   \/ (r = -1 /\ l' = [] /\ vm_inv hold (w_k w') l' ts' /\ same_entries (w_k w) ts (w_k w') ts')).

Lemma page_mapped_ok k' l' t' : reaches root (w_k w) l t (edit va e') k' l' t' ->
  let ts' := <[i := (root, t')]> ts in
  vm_inv (hold_add pa (-1) hold) k' l' ts' /\ edited (w_k w) k' ts ts' i va e'.
Proof.
  intros Hr ts'. destruct (page_ok_facts _ Hpa) as (_ & _ & Hm & Hpr & _).
  assert (He' : 0 <= e' < 2 ^ 54) by (apply pte_of_range; [lia|done]).
  assert (Hpa' : PTE2PA e' = pa) by (apply pte_of_pa; [lia|done|done]).
  assert (Hed : forall v, upage v -> default (entry (w_k w) ts i v) (edit va e' v)
    = if decide (v = va) then e' else entry (w_k w) ts i v) by (intros; apply edit_default).
  split.
  - apply (inv_reach hold _ (w_k w) k' l l' ts i root t t' _ va e' Hv Hi Hr Hva Hed); try done.
    + by rewrite Hpa'.
    + rewrite Hpa'. intros _ _ _ j vb Hmj _. by apply Hshare.
    + intros p Hp. destruct (vi_refs _ _ _ _ p Hv Hp) as (Hp0 & _).
      assert (refs va (entry (w_k w) ts i va) p = 0) as ->.
      { unfold refs. by rewrite Hun, andb_false_r. }
      unfold hold_add, refs. rewrite Hpa'. rewrite (Z.eqb_sym pa p). destruct (Z.eqb_spec p pa).
      * assert (hold p = hold pa) by congruence. destruct (_ && _); lia.
      * rewrite andb_false_r. lia.
  - exact (reach_entry_at hold (w_k w) k' l l' ts i root t t' _ va e' Hv Hi Hr Hed).
Qed.

Lemma wp_map_page E : wp E (mappages root va PGSIZE pa perm) page_mapped w.
Proof.
  assert (HM : MAXVA = 274877906944) by done. assert (HT : TRAPFRAME = MAXVA - 8192) by done.
  destruct (page_ok_facts _ Hpa) as (_ & _ & Hm & Hpr & _). destruct Hva as [Hva0 Hval].
  assert (Hpm : pa <= PHYSTOP) by (destruct Hpa; lia). unfold PHYSTOP, KERNBASE in Hpm.
  assert (Ha0 : PGROUNDDOWN va = va) by (rewrite PGROUNDDOWN_eq; lia).
  assert (Hla : PGROUNDDOWN (va + PGSIZE - 1) = va)
    by (unfold PGSIZE; rewrite PGROUNDDOWN_eq by lia; zlia).
  pose proof (vm_table _ _ _ (vi_mem _ _ _ _ Hv) _ _ _ Hi) as Hti.
  eapply wp_mono; [apply (wp_mappages E l root t va PGSIZE pa perm w)|]; try done;
    try (unfold PGSIZE in *; lia).
  - rewrite Ha0, Hla. intros v Hup Hr. assert (v = va) as -> by lia. unfold entry in Hun.
    by rewrite Hi in Hun.
  - intros r w' (a & l' & t' & [Hr He] & Hor). rewrite Ha0, Hla in *.
    split; [done|]. destruct Hr as (tk & Etk & Hti' & Hg).
    assert (Hr : reaches root (w_k w) l t (map_edit va pa perm a) (w_k w') l' t') by by exists tk.
    split; [apply (g_only _ _ _ _ _ _ Hg)|]. exists l', t'. split_and!.
    + intros p x Hp Hor' Hx. by eapply (reach_data hold (w_k w) (w_k w') l l' ts i root t t').
    + split; [intros p Hp; rewrite Etk; apply elem_of_app; by right|]. intros p Hp Hpl.
      erewrite (reach_count (w_k w)); [|apply Hv|exact Hr|exact Hp]. by rewrite decide_False by tauto.
    + destruct Hor as [[-> ->]|(-> & Hle & ->)]; [left|right].
      * split; [done|]. apply page_mapped_ok. eapply reaches_ext; [|exact Hr].
        intros v [_ Hvm]. unfold map_edit, edit, PGSIZE.
        destruct (Z.eqb_spec v va) as [->|Hne].
        { destruct (_ && _) eqn:Eb; [|lia]. by rewrite Z.sub_diag, Z.add_0_r. }
        destruct (_ && _) eqn:Eb; [exfalso; zlia|done].
      * split; [done|]. split; [done|]. apply (inv_walked hold (w_k w) (w_k w') l [] ts i root t t'); try done.
        eapply reaches_ext; [|exact Hr]. intros v _. unfold map_edit, no_edit.
        destruct (_ && _) eqn:Eb; [lia|done].
Qed.
End MapPage.

(** ** New address spaces *)

Lemma inv_empty k l : kmem_inv k l -> (forall p, page_ok p -> 0 <= count k p) ->
  vm_inv hold_none k l [].
Proof.
  intros Hk Hc. assert (He : forall i va, entry k [] i va = 0) by done.
  assert (Hno : forall i va p, ~ maps k [] i va p) by (intros i va p (_ & _ & H & _); by rewrite He, has_0 in H).
  split.
  - by split.
  - intros i va _. rewrite He. lia.
  - intros i va _. by rewrite He, has_0.
  - by intros p (i & r & t & a & H & _).
  - by intros i va j vb p _ Hm%Hno.
  - intros p Hp. split; [done|]. exists ∅. split; [|rewrite size_empty; specialize (Hc p Hp); unfold hold_none; lia].
    intros i va. rewrite elem_of_empty. split; [done|]. by intros Hm%Hno.
Qed.

Definition root_only (q : Z) : tree := {[ [] := q ]}.

Lemma root_only_lookup q a p : root_only q !! a = Some p <-> a = [] /\ p = q.
Proof. unfold root_only. rewrite lookup_singleton_Some. naive_solver. Qed.

Lemma root_only_shape m q : page_ok q -> (forall x, in_page q x -> m x = 0) -> shape m q (root_only q).
Proof.
  intros Hq Hz. split.
  - by apply root_only_lookup.
  - intros a p [-> ->]%root_only_lookup. cbn. lia.
  - intros a i [p [E _]%root_only_lookup]. by destruct a.
  - intros a p i [-> ->]%root_only_lookup _ Hi. cbn [app].
    destruct (root_only q !! [i]) as [r|] eqn:E; [by apply root_only_lookup in E as [? _]|].
    rewrite (load64_page m (fun _ => 0)) by done. done.
  - by intros a p [-> ->]%root_only_lookup.
  - by intros a b p [-> ->]%root_only_lookup [-> _]%root_only_lookup.
Qed.

Lemma root_only_view m q va : view m (root_only q) va = 0.
Proof.
  unfold view, leaf_addr. destruct (root_only q !! _) eqn:E; [|done].
  by apply root_only_lookup in E as [? _].
Qed.

(** [uvmcreate]: an empty table. *)
Definition new_space (q : Z) (k : kernel) : kernel :=
  (alloc_page q k) <| k_ram ::= fun m => fill_bytes m q PGSIZE 0 |>.

Section NewSpace.
Context (hold : Z -> Z) (k : kernel) (q : Z) (l : list Z) (ts : list space).
Context (Hv : vm_inv hold k (q :: l) ts).
Let ts' := ts ++ [(q, root_only q)].

Lemma new_lookup j r s : ts' !! j = Some (r, s) ->
  ts !! j = Some (r, s) \/ (j = length ts /\ r = q /\ s = root_only q).
Proof.
  unfold ts'. intros H. apply lookup_app_Some in H as [H|[Hl H]]; [by left|right].
  apply list_lookup_singleton_Some in H as [Hj [= <- <-]]. split; [lia|done].
Qed.

Lemma new_entry j va : entry (new_space q k) ts' j va = entry (new_space q k) ts j va.
Proof.
  unfold entry. destruct (ts' !! j) as [[r s]|] eqn:E.
  - apply new_lookup in E as [H|(-> & -> & ->)]; [by rewrite H|].
    rewrite lookup_ge_None_2 by lia. apply root_only_view.
  - unfold ts' in E. apply lookup_ge_None_1 in E. rewrite length_app in E. cbn in E.
    by rewrite lookup_ge_None_2 by lia.
Qed.

Lemma inv_new_space : vm_inv hold (new_space q k) l ts' /\ same_entries k ts (new_space q k) ts'
  /\ pages_kept hold k ts (new_space q k).
Proof.
  destruct (inv_kalloc _ _ _ _ _ Hv) as (Hv1 & He1 & Hq & Hql & Hqn & Hum & Hh).
  destruct (inv_ram _ _ _ _ q (fun m => fill_bytes m q PGSIZE 0) Hv1 Hq Hql Hqn) as [Hv2 He2];
    [intros x Hx; by apply fill_bytes_out|]. fold (new_space q k) in Hv2, He2.
  assert (He : same_entries k ts (new_space q k) ts').
  { intros j vb Hvb. rewrite new_entry. transitivity (entry (alloc_page q k) ts j vb); [by apply He2|by apply He1]. }
  pose proof (vi_mem _ _ _ _ Hv2) as Hm2.
  split_and!; [|done|].
  - assert (Hmaps : forall j vb p, maps (new_space q k) ts' j vb p <-> maps (new_space q k) ts j vb p)
      by (intros; unfold maps; by rewrite new_entry).
    assert (Hnode : forall p, is_node ts' p -> is_node ts p \/ p = q).
    { intros p (j & r & s & a & Hj & Ha). apply new_lookup in Hj as [Hj|(_ & _ & ->)];
        [left; by exists j, r, s, a|right]. by apply root_only_lookup in Ha as [_ ->]. }
    split.
    + destruct Hm2 as [Hk2 Ht2 Ha2]. split; [done| |].
      * intros j r s [Hj|(-> & -> & ->)]%new_lookup; [by apply (Ht2 j)|]. split; [done| |].
        -- apply root_only_shape; [done|]. intros x Hx. by apply fill_bytes_in.
        -- by intros a p [-> ->]%root_only_lookup.
      * assert (Hno : forall j r s a, ts !! j = Some (r, s) -> s !! a <> Some q)
          by (intros j r s a Hj Ha; apply Hqn; by exists j, r, s, a).
        intros i j r1 t1 r2 t2 a b p [Hi|(-> & -> & ->)]%new_lookup [Hj|(-> & -> & ->)]%new_lookup Ha Hb;
          try done; [by eapply Ha2| |].
        -- apply root_only_lookup in Hb as [-> ->]. by destruct (Hno _ _ _ _ Hi Ha).
        -- apply root_only_lookup in Ha as [-> ->]. by destruct (Hno _ _ _ _ Hj Hb).
    + intros j vb Hvb. rewrite new_entry. by apply (vi_range _ _ _ _ Hv2).
    + intros j vb Hvb. rewrite new_entry. by apply (vi_user _ _ _ _ Hv2).
    + intros p [Hn| ->]%Hnode.
      * destruct (vi_node _ _ _ _ Hv p Hn) as [H1 _]. split; [done|].
        destruct (vi_node _ _ _ _ Hv2 p Hn) as [_ H2]. intros j vb. by rewrite Hmaps.
      * split; [done|]. intros j vb. rewrite Hmaps. intros Hmq. apply (Hum j vb).
        destruct Hmq as (Hup & Hlo & H). split; [done|]. split; [done|].
        rewrite <- new_entry, He in H by done. done.
    + intros j vb j2 vb2 p Hp H1 H2 Hd. rewrite new_entry. apply Hmaps in H1, H2.
      by apply (vi_share _ _ _ _ Hv2 j vb j2 vb2 p).
    + intros p Hp. destruct (vi_count _ _ _ _ Hv2 p Hp) as (_ & R & HR & Hc).
      destruct (vi_refs _ _ _ _ p Hv Hp) as (Hp0 & _). split; [done|]. exists R. split.
      * intros j vb. by rewrite Hmaps.
      * unfold hold_add in Hc. destruct (p =? q); lia.
  - intros p x Hp Hor Hx. assert (Hpq : p <> q).
    { intros ->. destruct Hor as [|(j & vb & Hj)]; [lia|]. by apply (Hum j vb). }
    assert (Hnq : ~ in_page q x) by by apply (pages_apart p q x).
    unfold new_space, alloc_page. cbn. by rewrite !fill_bytes_out by done.
Qed.
End NewSpace.
End Uvm.

(** * Witnesses: two address spaces, the first with a page at address 0 *)
Section Demo.
#[local] Existing Instances demo_layout demo_layout_ok.

Definition demo_page (n : Z) : Z := 2147622912 + 4096 * n.

(** Twelve free pages. *)
Definition demo_ram : ram := foldr (fun n m => store64 m (demo_page n) (demo_page (n + 1)))
  (fun _ => 0) [0; 1; 2; 3; 4; 5; 6; 7; 8; 9; 10].
Definition demo_free : list Z := demo_page <$> [0; 1; 2; 3; 4; 5; 6; 7; 8; 9; 10; 11].
Definition demo_kernel : kernel :=
  kernel0 <| k_ram := demo_ram |> <| k_kmem := Kmem (demo_page 0) (fun _ => 0) |>.

Lemma demo_kmem_inv : kmem_inv demo_kernel demo_free.
Proof.
  split; [by vm_compute| | |].
  - apply (bool_decide_unpack _). by vm_compute.
  - repeat (apply Forall_cons; split; [by vm_compute|]). by apply Forall_nil.
  - repeat (apply Forall_cons; split; [done|]). by apply Forall_nil.
Qed.

Definition demo_spaces (t : tree) : list space :=
  [(demo_page 0, t); (demo_page 1, root_only (demo_page 1))].

(** Two empty tables and a page for the first one. *)
Definition demo_world1 : world :=
  World (alloc_page (demo_page 2) (new_space (demo_page 1) (new_space (demo_page 0) demo_kernel))) [].

Lemma demo_inv1 :
  vm_inv (hold_add (demo_page 2) 1 hold_none) (w_k demo_world1) (drop 3 demo_free)
    (demo_spaces (root_only (demo_page 0)))
  /\ forall i va, upage va -> entry (w_k demo_world1) (demo_spaces (root_only (demo_page 0))) i va = 0.
Proof.
  destruct (inv_new_space hold_none demo_kernel (demo_page 0) (drop 1 demo_free) []) as (H0 & E0 & _).
  { apply (inv_empty _ _ demo_kmem_inv). by intros. }
  destruct (inv_new_space _ _ _ (drop 2 demo_free) _ H0) as (H1 & E1 & _).
  destruct (inv_kalloc _ _ _ (drop 3 demo_free) _ H1) as (H2 & E2 & _).
  split; [exact H2|]. intros i va Hva. etransitivity; [by apply E2|].
  etransitivity; [by apply E1|]. etransitivity; [by apply E0|]. done.
Qed.

Definition demo_map (perm : Z) : world :=
  match mappages (demo_page 0) 0 PGSIZE (demo_page 2) perm demo_world1 with
  | Ok _ w => w | _ => demo_world1
  end.

Lemma demo_map_inv perm : 0 <= perm < 1024 -> has (pte_of (demo_page 2) perm) PTE_V = true ->
  (if mappages (demo_page 0) 0 PGSIZE (demo_page 2) perm demo_world1 is Ok r _ then r else -1) = 0 ->
  exists l t, let ts := demo_spaces t in
    k_held (w_k (demo_map perm)) = [] /\ vm_inv hold_none (w_k (demo_map perm)) l ts /\
    forall i va, upage va -> entry (w_k (demo_map perm)) ts i va =
      if decide ((i, va) = (0%nat, 0)) then pte_of (demo_page 2) perm else 0.
Proof.
  intros Hp HV. destruct demo_inv1 as [Hv He].
  assert (H : wp total (mappages (demo_page 0) 0 PGSIZE (demo_page 2) perm)
    (page_mapped (hold_add (demo_page 2) 1 hold_none) (drop 3 demo_free) (demo_spaces (root_only (demo_page 0))) 0
       (demo_page 0) 0 (demo_page 2) perm demo_world1) demo_world1).
  { apply (wp_map_page _ (drop 3 demo_free) _ _ _ (root_only (demo_page 0))); try done.
    - by apply not_elem_of_nil.
    - intros j vb (Hup & _ & H & _). by rewrite He in H. }
  apply wp_total_Ok in H as (r & w' & Ew & _ & Ho & l' & t' & _ & _ & Hor). unfold demo_map.
  rewrite Ew. intros Hr. subst r. destruct Hor as [(_ & Hv' & Hed)|(? & _)]; [|done].
  exists l', t'. cbv zeta. split; [by rewrite (only_mem_held _ _ Ho)|]. split.
  - eapply inv_weaken; [exact Hv'| |].
    + intros p _. done.
    + intros p Hpp. unfold hold_none, hold_add. destruct (p =? demo_page 2); lia.
  - intros i va Hva. etransitivity; [exact (Hed i va Hva)|]. case_decide; [done|]. by apply He.
Qed.

Lemma cow_page_fault_correct_witness : exists w w' l t,
  cow_page_fault (demo_page 0) 0 w = Ok 0 w' /\ vm_inv hold_none (w_k w') l (demo_spaces t)
  /\ has (entry (w_k w') (demo_spaces t) 0 0) PTE_W = true.
Proof.
  assert (Hup : upage 0) by done.
  assert (Hc : forall b, has (pte_of (demo_page 2) 50) PTE_V && has (pte_of (demo_page 2) 50) PTE_U
    && has (pte_of (demo_page 2) 50) PTE_COW && b = b) by (intros []; by vm_compute).
  assert (Hr : returns (cow_page_fault (demo_page 0) 0 (demo_map 50)) (-1) = 0) by (vm_compute; exact eq_refl).
  destruct (demo_map_inv 50) as (l & t & Hh & Hv & He);
    [lia|vm_compute; exact eq_refl|vm_compute; exact eq_refl|].
  assert (Hheld : LkKmem ∉ k_held (w_k (demo_map 50))) by (rewrite Hh; apply not_elem_of_nil).
  pose proof (cow_page_fault_correct hold_none l (demo_spaces t) 0%nat (demo_page 0) t 0 (demo_map 50)
    Hheld Hv eq_refl Hup) as H.
  cbv zeta in H. rewrite (He 0%nat 0 Hup) in H. rewrite decide_True in H by exact eq_refl.
  rewrite Hc in H. apply wp_total_Ok in H as (r & w' & Er & H).
  rewrite Er in Hr. cbn [returns] in Hr. subst r.
  destruct (negb _) in H; [|destruct H as [H _]; discriminate H].
  destruct H as (_ & _ & _ & l' & Hv' & (_ & _ & HW & _) & _).
  exists (demo_map 50), w', l', t. exact (conj Er (conj Hv' HW)).
Defined.
End Demo.
