(* ===== verification/Kvm.v ===== *)
(** The kernel's own page table: [kvmmake] of kernel/vm.c maps what it should and nothing else.

    The table is described by a list of regions; [translates] is the entry the regions give
    to an address.  [kvm] is the state between two calls of [kvmmap]: the table translates
    by the regions mapped so far, and the pages taken from the free list are accounted
    for, so that with 137 free pages [kvmmake] cannot fail. *)

From S2P Require Export Uvm.

(** * Regions *)

Record region : Type := Region { rg_va : Z; rg_pa : Z; rg_size : Z; rg_perm : Z }.

Definition covers (r : region) (va : Z) : bool := (rg_va r <=? va) && (va <? rg_va r + rg_size r).
Definition region_pte (r : region) (va : Z) : Z := pte_of (rg_pa r + (va - rg_va r)) (rg_perm r).

(** The entry of the page [va]. *)
Fixpoint translates (rs : list region) (va : Z) : Z :=
  match rs with
  | [] => 0
  | r :: rs' => if covers r va then region_pte r va else translates rs' va
  end.

Definition disjoint_from (r s : region) : Prop :=
  rg_va r + rg_size r <= rg_va s \/ rg_va s + rg_size s <= rg_va r.

Lemma translates_out rs va : Forall (fun s => covers s va = false) rs -> translates rs va = 0.
Proof. induction 1 as [|s rs Hs _ IH]; [done|]. cbn. by rewrite Hs. Qed.

Lemma translates_snoc rs r va : Forall (disjoint_from r) rs ->
  translates (rs ++ [r]) va = if covers r va then region_pte r va else translates rs va.
Proof.
  induction 1 as [|s rs Hs _ IH]; [done|]. cbn [translates app]. rewrite IH.
  destruct (covers s va) eqn:Es, (covers r va) eqn:Er; try done.
  exfalso. unfold disjoint_from, covers in *. lia.
Qed.

Section Kvm.
Context {L : Layout} {LO : LayoutOk L}.

(** What the kernel maps besides the stacks of the processes. *)
Definition kernel_regions : list region := [
  Region UART0 UART0 PGSIZE (Z.lor PTE_R PTE_W);
  Region VIRTIO0 VIRTIO0 PGSIZE (Z.lor PTE_R PTE_W);
  Region PLIC PLIC 4194304 (Z.lor PTE_R PTE_W);
  Region KERNBASE KERNBASE (etext - KERNBASE) (Z.lor PTE_R PTE_X);
  Region etext etext (PHYSTOP - etext) (Z.lor PTE_R PTE_W);
  Region TRAMPOLINE trampoline PGSIZE (Z.lor PTE_R PTE_X)].
Definition stack_region (i : nat) (pa : Z) : region := Region (KSTACK (Z.of_nat i)) pa PGSIZE (Z.lor PTE_R PTE_W).
Definition stack_regions (stacks : list Z) : list region := imap stack_region stacks.

(** ** The nodes of the table *)

(** The pages the kernel's table is about. *)
Definition in_kernel (v : Z) : Prop := upage v /\
  (UART0 <= v < UART0 + 8192 \/ PLIC <= v < PLIC + 4194304 \/ KERNBASE <= v < PHYSTOP \/ KSTACK 63 <= v < MAXVA).

Definition kernel_nodes : list (list Z) :=
  [[]; [0]; [2]; [255]; [0; 96]; [0; 97]; [0; 128]; [255; 511]] ++ ((fun i => [2; Z.of_nat i]) <$> seq 0 64).

Lemma kernel_path v a : in_kernel v -> on_path v a -> a ∈ kernel_nodes.
Proof.
  intros [[Hv _] Hr] Ha. unfold MAXVA in Hv. change (2 ^ (9 + 9 + 9 + 12 - 1)) with 274877906944 in Hv.
  assert (E2 : PX 2 v = v / 1073741824 mod 512) by (apply PX_eq; lia).
  assert (E1 : PX 1 v = v / 2097152 mod 512) by (apply PX_eq; lia).
  assert (Hcase : (PX 2 v = 0 /\ (PX 1 v = 96 \/ PX 1 v = 97 \/ PX 1 v = 128)) \/ (PX 2 v = 255 /\ PX 1 v = 511) \/
    (PX 2 v = 2 /\ 0 <= PX 1 v < 64)).
  { rewrite E1, E2. unfold UART0, PLIC, PHYSTOP, KERNBASE in Hr.
    change (KSTACK 63) with 274877378560 in Hr. change MAXVA with 274877906944 in Hr.
    destruct Hr as [Hr|[Hr|[Hr|Hr]]]; [left|left|right; right|right; left]; zlia. }
  unfold kernel_nodes. apply elem_of_app.
  destruct Hcase as [[E2' E1']|[[E2' E1']|[E2' E1']]], Ha as [-> | ->]; rewrite E2'.
  1, 3, 5: left; set_solver.
  - left. destruct E1' as [-> |[-> | ->]]; set_solver.
  - left. rewrite E1'. set_solver.
  - right. apply list_elem_of_fmap. exists (Z.to_nat (PX 1 v)). split; [by rewrite Z2Nat.id by lia|].
    apply elem_of_seq. lia.
Qed.

(** A table has more nodes than it took pages. *)
Lemma grows_size root t l tk ed k k' t' : table_inv k (tk ++ l) root t -> grows tk ed k t k' t' -> (size t + length tk <= size t')%nat.
Proof.
  intros Hi Hg. pose proof (ti_shape _ _ _ _ Hi) as Hs. rewrite <- !length_map_to_list, <- (length_fmap snd (map_to_list t)), <- (length_fmap snd (map_to_list t')).
  rewrite <- length_app. apply submseteq_length, NoDup_submseteq.
  - apply NoDup_app. split_and!.
    + apply NoDup_fmap_2_strong; [|apply NoDup_map_to_list]. intros [a p] [b q] Ha Hb E. cbn in E. subst q.
      apply elem_of_map_to_list in Ha, Hb. by rewrite (sh_inj _ _ _ Hs a b p Ha Hb).
    + intros p Hp Hp'. apply list_elem_of_fmap in Hp as ([a q] & -> & Ha). apply elem_of_map_to_list in Ha.
      apply (ti_free _ _ _ _ Hi a q Ha), elem_of_app. by left.
    + pose proof (inv_nodup _ _ (ti_kmem _ _ _ _ Hi)) as Hn. by apply NoDup_app in Hn as [? _].
  - intros p [Hp|Hp]%elem_of_app.
    + apply list_elem_of_fmap in Hp as ([a q] & -> & Ha). apply elem_of_map_to_list in Ha. cbn.
      apply list_elem_of_fmap. exists (a, q). split; [done|]. apply elem_of_map_to_list.
      by apply (lookup_weaken _ _ _ _ Ha), (g_nodes _ _ _ _ _ _ Hg).
    + destruct (g_used _ _ _ _ _ _ Hg p Hp) as [a Ha]. apply list_elem_of_fmap. exists (a, p). split; [done|].
      by apply elem_of_map_to_list.
Qed.

Lemma kernel_size root t : nodes_for in_kernel (root_only root) t -> (size t <= 72)%nat.
Proof.
  intros H. rewrite <- size_dom. transitivity (size (list_to_set kernel_nodes : gset (list Z))); [|by vm_compute].
  apply subseteq_size. intros a Ha. apply elem_of_dom in Ha. apply elem_of_list_to_set.
  destruct (H a Ha) as [[p Hp]|(v & Hv & Hp)]; [|by apply (kernel_path v)].
  apply root_only_lookup in Hp as [-> _]. unfold kernel_nodes. set_solver.
Qed.

(** ** Between two calls of [kvmmap] *)

(** [n] pages were free at first; [stacks] are the pages taken for stacks. *)
Record kvm (n : nat) (root : Z) (rs : list region) (stacks : list Z) (k : kernel) (l : list Z) (t : tree) : Prop := Kvm {
  kv_table : table_inv k l root t;
  kv_view : forall va, upage va -> view (k_ram k) t va = translates rs va;
  kv_nodes : nodes_for in_kernel (root_only root) t;
  kv_free : (n <= length l + size t + length stacks)%nat;
  kv_stacks : NoDup stacks;
  kv_stack : forall p, p ∈ stacks -> page_ok p /\ (p ∉ l) /\ (forall a, t !! a <> Some p) /\ count k p = 1;
  kv_count : forall p, page_ok p -> 0 <= count k p }.

(** A region the kernel may map after [rs]. *)
Record mappable (rs : list region) (r : region) : Prop := Mappable {
  mb_va : upage (rg_va r);
  mb_size : 0 < rg_size r /\ rg_size r mod 4096 = 0;
  mb_end : rg_va r + rg_size r <= MAXVA;
  mb_pa : 0 <= rg_pa r /\ rg_pa r + rg_size r + PGSIZE <= 2 ^ 56;
  mb_perm : 0 <= rg_perm r < 1024;
  mb_kernel : forall v, upage v -> covers r v = true -> in_kernel v;
  mb_apart : Forall (disjoint_from r) rs }.

Section Kvmmap.
Context (n : nat) (root : Z) (rs : list region) (stacks : list Z) (r : region) (l : list Z) (t : tree).
Context (w : world) (Hheld : LkKmem ∉ k_held (w_k w)).
Context (Hk : kvm n root rs stacks (w_k w) l t) (Hr : mappable rs r).

Lemma region_free v : covers r v = true -> translates rs v = 0.
Proof.
  intros Hv. apply translates_out, (Forall_impl _ _ _ (mb_apart _ _ Hr)). unfold disjoint_from, covers in *. intros s Hs. lia.
Qed.

(** The pages [mappages] visits are those of the region. *)
Lemma region_pages : PGROUNDDOWN (rg_va r) = rg_va r /\
  PGROUNDDOWN (rg_va r + rg_size r - 1) = rg_va r + rg_size r - 4096.
Proof.
  destruct (mb_va _ _ Hr) as [Hv Hm], (mb_size _ _ Hr) as [Hs Hsm]. pose proof (mb_end _ _ Hr) as He.
  unfold MAXVA in *. change (2 ^ (9 + 9 + 9 + 12 - 1)) with 274877906944 in *.
  rewrite !PGROUNDDOWN_eq by lia. zlia.
Qed.

Lemma map_edit_region v : map_edit (rg_va r) (rg_pa r) (rg_perm r) (rg_va r + rg_size r) v =
  if covers r v then Some (region_pte r v) else None.
Proof. done. Qed.

Lemma kvm_grow k' l' t' : reaches root (w_k w) l t (fun v => if covers r v then Some (region_pte r v) else None) k' l' t' ->
  nodes_for in_kernel t t' -> kvm n root (rs ++ [r]) stacks k' l' t'.
Proof.
  intros Hre Hnd. pose proof Hre as (tk & -> & Hi' & Hg). destruct Hk as [Hi Hv Hn Hf Hs Hst Hc].
  pose proof (grows_size _ _ _ _ _ _ _ _ Hi Hg) as Hsz. rewrite length_app in Hf.
  split; [done| | |lia|done| |].
  - intros va Hva. rewrite (reaches_view _ _ _ _ _ _ _ _ va Hre Hva), translates_snoc by apply Hr.
    destruct (covers r va); [done|]. by apply Hv.
  - by eapply nodes_for_trans.
  - intros p Hp. destruct (Hst p Hp) as (Hok & Hpl & Hpt & Hpc).
    assert (Hpk : p ∉ tk) by (intros Hin; apply Hpl, elem_of_app; by left). split_and!; [done| | |].
    + intros Hin. apply Hpl, elem_of_app. by right.
    + intros a Ha. by destruct (g_new _ _ _ _ _ _ Hg a p Ha) as [Ha'|]; [apply (Hpt a)|].
    + rewrite (g_count _ _ _ _ _ _ Hg p Hok). by rewrite decide_False.
  - intros p Hp. rewrite (g_count _ _ _ _ _ _ Hg p Hp). case_decide; [lia|]. by apply Hc.
Qed.

(** With enough free pages it does not fail. *)
Lemma wp_kvmmap E (Q : unit -> world -> Prop) : (72 + length stacks < n)%nat ->
  (forall w' l' t', kvm n root (rs ++ [r]) stacks (w_k w') l' t' -> only_mem (w_k w) (w_k w') -> w_env w' = w_env w -> Q tt w') ->
  wp E (kvmmap root (rg_va r) (rg_pa r) (rg_size r) (rg_perm r)) Q w.
Proof.
  intros Hbig HQ. destruct region_pages as [Ea Eb].
  destruct Hr as [Hva [Hs Hsm] He [Hp Hpe] Hpm Hin Hap]. pose proof Hva as [Hv _]. unfold kvmmap. apply wp_bind.
  eapply wp_mono; [apply (wp_mappages_nodes _ l root t); try done; [apply Hk|lia|]|].
  - rewrite Ea, Eb. intros v Hv' Hvr. rewrite (kv_view _ _ _ _ _ _ _ Hk v Hv'), region_free; [done|].
    unfold covers. lia.
  - intros q w' (a & l' & t' & [Hre Henv] & Hnd & Hq).
    assert (Hnd' : nodes_for in_kernel t t').
    { apply (nodes_for_mono _ _ _ _) with (2 := Hnd). intros v [Hv1 Hv2]. rewrite Ea, Eb in Hv2.
      apply Hin; [done|]. unfold covers. lia. }
    destruct Hq as [[-> ->]|(-> & Hle & ->)]; [|exfalso].
    + apply wp_ret. pose proof Hre as (tk & _ & _ & Hg). unfold PGSIZE in Hre. rewrite Ea, Eb in Hre.
      replace (rg_va r + rg_size r - 4096 + 4096) with (rg_va r + rg_size r) in Hre by lia.
      apply (HQ w' l' t'); [exact (kvm_grow (w_k w') l' t' Hre Hnd')|apply (g_only _ _ _ _ _ _ Hg)|done].
    + destruct Hre as (tk & El & _ & Hg). pose proof (kv_table _ _ _ _ _ _ _ Hk) as Hi.
      rewrite El in Hi. pose proof (grows_size _ _ _ _ _ _ _ _ Hi Hg) as Hsz. rewrite app_nil_r in El. subst l.
      pose proof (kv_free _ _ _ _ _ _ _ Hk).
      pose proof (kernel_size root t' (nodes_for_trans _ _ _ _ (kv_nodes _ _ _ _ _ _ _ Hk) Hnd')). lia.
Qed.
End Kvmmap.

(** ** Pages for the table and for the stacks *)

Lemma upage_const v : upage v <-> 0 <= v < 274877906944 /\ v mod 4096 = 0.
Proof. done. Qed.

Lemma kvm_start k q l : kmem_inv k (q :: l) -> (forall p, page_ok p -> 0 <= count k p) ->
  kvm (S (length l)) q [] [] (new_space q k) l (root_only q).
Proof.
  intros Hk Hc. destruct (inv_new_space _ _ _ _ _ (inv_empty k (q :: l) Hk Hc)) as [Hv _].
  pose proof (Forall_inv (inv_pages _ _ Hk)) as Hq.
  split; [| |apply nodes_for_refl| |constructor|by intros p ?%elem_of_nil|].
  - apply (vm_table _ _ _ (vi_mem _ _ _ _ Hv) 0 q (root_only q)). done.
  - intros va _. apply root_only_view.
  - unfold root_only. rewrite map_size_singleton. cbn. lia.
  - intros p Hp. change (count (new_space q k) p) with (count (alloc_page q k) p). unfold alloc_page.
    rewrite (count_upd q p) by done. case_decide; [lia|]. apply (Hc p Hp).
Qed.

Lemma kvm_alloc n root rs stacks k q l t : kvm n root rs stacks k (q :: l) t ->
  kvm n root rs (stacks ++ [q]) (alloc_page q k) l t.
Proof.
  intros [[Hk Hsh Hfr] Hv Hn Hf Hs Hst Hc]. pose proof (Forall_inv (inv_pages _ _ Hk)) as Hq.
  assert (Hql : q ∉ l) by (by pose proof (inv_nodup _ _ Hk) as [? _]%NoDup_cons).
  assert (Hqt : forall a p, t !! a = Some p -> q <> p) by (intros a p Ha ->; apply (Hfr a p Ha); by left).
  assert (Hram : forall x, in_tree t x -> k_ram k x = k_ram (alloc_page q k) x).
  { intros x (a & p & Ha & Hx). symmetry. apply fill_bytes_out.
    apply (pages_apart p q x); [by apply (sh_page _ _ _ Hsh a)|done|by apply not_eq_sym, (Hqt a)|done]. }
  assert (Hcount : forall p, page_ok p -> count (alloc_page q k) p = if decide (p = q) then 1 else count k p).
  { intros p Hp. unfold alloc_page. by rewrite count_upd. }
  split.
  - split; [by apply alloc_page_inv|by eapply shape_ext|]. intros a p Ha Hp. apply (Hfr a p Ha). by right.
  - intros va Hva. rewrite <- (view_ext (k_ram k)) by done. by apply Hv.
  - done.
  - rewrite length_app. cbn [length] in *. lia.
  - apply NoDup_app. split_and!; [done| |apply NoDup_singleton]. intros p Hp ->%list_elem_of_singleton.
    destruct (Hst q Hp) as (_ & Hl & _). apply Hl. by left.
  - intros p [Hp| ->%list_elem_of_singleton]%elem_of_app.
    + destruct (Hst p Hp) as (Hok & Hpl & Hpt & Hpc). split_and!; [done| |done|].
      * intros Hin. apply Hpl. by right.
      * rewrite Hcount by done. case_decide as E; [done|exact Hpc].
    + split_and!; [done|done| |].
      * intros a Ha. by apply (Hqt a q Ha).
      * rewrite Hcount by done. by rewrite decide_True.
  - intros p Hp. rewrite Hcount by done. case_decide; [lia|]. by apply Hc.
Qed.

Lemma layout_facts : etext mod 4096 = 0 /\ 2147483648 < etext < 2281701376 /\ 2147483648 <= trampoline < etext /\
  trampoline mod 4096 = 0.
Proof.
  pose proof layout_end as He. destruct layout_etext as [Ht Htm], layout_trampoline as [Hr Hrm].
  unfold PHYSTOP, KERNBASE, PGSIZE in *. lia.
Qed.

(** The regions of the kernel can be mapped one after the other. *)
Lemma region_mappable i r : kernel_regions !! i = Some r -> mappable (take i kernel_regions) r.
Proof.
  intros Hi. pose proof layout_facts.
  assert (Hall : Forall (fun r => upage (rg_va r) /\ (0 < rg_size r /\ rg_size r mod 4096 = 0) /\ rg_va r + rg_size r <= MAXVA /\
    (0 <= rg_pa r /\ rg_pa r + rg_size r + PGSIZE <= 2 ^ 56) /\ 0 <= rg_perm r < 1024 /\
    forall v, upage v -> covers r v = true -> in_kernel v) kernel_regions).
  { unfold kernel_regions, in_kernel, UART0, VIRTIO0, PLIC, PHYSTOP, KERNBASE, PGSIZE, PTE_R, PTE_W, PTE_X, covers.
    change TRAMPOLINE with 274877902848. change (KSTACK 63) with 274877378560. change MAXVA with 274877906944.
    repeat (apply Forall_cons_2 || apply Forall_nil_2); cbn [rg_va rg_size rg_pa rg_perm]; (split; [apply upage_const; zlia|]);
      (split_and!; [try done; zlia..|by vm_compute|by vm_compute|]); intros v Hv Hc; (split; [done|]); lia. }
  destruct (Forall_lookup_1 _ _ _ _ Hall Hi) as (? & ? & ? & ? & ? & ?). split; try done.
  unfold kernel_regions, UART0, VIRTIO0, PLIC, PHYSTOP, KERNBASE, PGSIZE in *. change TRAMPOLINE with 274877902848 in *.
  do 6 (destruct i as [|i]; [injection Hi as <-; cbn [take]; unfold disjoint_from; 
    repeat (apply Forall_cons_2 || apply Forall_nil_2); cbn [rg_va rg_size]; lia|]). done.
Qed.

Lemma stack_mappable i stacks q : length stacks = i -> (i < NPROC)%nat -> page_ok q ->
  mappable (kernel_regions ++ stack_regions stacks) (stack_region i q).
Proof.
  intros Hl Hi [Hq Hqr]. pose proof layout_facts. pose proof layout_end as He. change NPROC with 64%nat in Hi.
  assert (HT : forall j, KSTACK (Z.of_nat j) = 274877902848 - (Z.of_nat j + 1) * 2 * 4096) by done.
  unfold PHYSTOP, KERNBASE, PGSIZE in *. split; unfold stack_region; cbn [rg_va rg_size rg_pa rg_perm]; rewrite ?HT.
  - apply upage_const. zlia.
  - done.
  - change MAXVA with 274877906944. unfold PGSIZE. lia.
  - unfold PGSIZE. lia.
  - by vm_compute.
  - intros v Hv Hc. split; [done|]. right. right. right. change MAXVA with 274877906944.
    change (KSTACK 63) with 274877378560. unfold covers, PGSIZE in Hc. cbn [rg_va rg_size] in Hc. rewrite ?HT in Hc. lia.
  - apply Forall_app. split.
    + unfold kernel_regions, disjoint_from, UART0, VIRTIO0, PLIC, PHYSTOP, KERNBASE, PGSIZE. change TRAMPOLINE with 274877902848.
      repeat (apply Forall_cons_2 || apply Forall_nil_2); cbn [rg_va rg_size]; rewrite ?HT; lia.
    + apply Forall_lookup_2. intros j s Hs. unfold stack_regions in Hs. rewrite list_lookup_imap in Hs.
      destruct (stacks !! j) as [pj|] eqn:Ej; [|done]. injection Hs as <-. apply lookup_lt_Some in Ej.
      unfold disjoint_from, stack_region, PGSIZE. cbn [rg_va rg_size]. rewrite !HT. lia.
Qed.

Lemma stack_regions_snoc stacks q : stack_regions (stacks ++ [q]) = stack_regions stacks ++ [stack_region (length stacks) q].
Proof. unfold stack_regions. rewrite imap_app. cbn. by rewrite Nat.add_0_r. Qed.

(** ** The whole table *)

(** The state during [kvmmake], begun in [w]. *)
Definition kvm_world (n : nat) (root : Z) (rs : list region) (stacks : list Z) (w w' : world) : Prop :=
  (exists l t, kvm n root rs stacks (w_k w') l t) /\ only_mem (w_k w) (w_k w') /\ w_env w' = w_env w.

Lemma wp_kvmmap_world n root rs stacks r w w1 E (Q : unit -> world -> Prop) : LkKmem ∉ k_held (w_k w) ->
  kvm_world n root rs stacks w w1 -> mappable rs r -> (72 + length stacks < n)%nat ->
  (forall w', kvm_world n root (rs ++ [r]) stacks w w' -> Q tt w') ->
  wp E (kvmmap root (rg_va r) (rg_pa r) (rg_size r) (rg_perm r)) Q w1.
Proof.
  intros Hh ((l & t & Hk) & Ho & He) Hr Hn HQ.
  apply (wp_kvmmap n root rs stacks r l t); [by rewrite (only_mem_held _ _ Ho)|done..|].
  intros w' l' t' Hk' Ho' He'. apply HQ. split; [by exists l', t'|]. split; [by eapply only_mem_trans|congruence].
Qed.

(** The regions of the kernel, in the order of the code. *)
Lemma wp_kvmmap_kernel n root i r w w1 E (Q : unit -> world -> Prop) : LkKmem ∉ k_held (w_k w) -> (72 < n)%nat ->
  kernel_regions !! i = Some r -> kvm_world n root (take i kernel_regions) [] w w1 ->
  (forall w', kvm_world n root (take (S i) kernel_regions) [] w w' -> Q tt w') ->
  wp E (kvmmap root (rg_va r) (rg_pa r) (rg_size r) (rg_perm r)) Q w1.
Proof.
  intros Hh Hn Hi Hk HQ. apply (wp_kvmmap_world n root (take i kernel_regions) [] r w); [done|done|by apply region_mappable|done|].
  by rewrite <- take_S_r by done.
Qed.

Lemma alloc_only_mem q k : only_mem k (alloc_page q k).
Proof. by destruct k. Qed.

Lemma wp_proc_mapstacks n root w w1 E (Q : unit -> world -> Prop) : LkKmem ∉ k_held (w_k w) -> (136 < n)%nat ->
  kvm_world n root kernel_regions [] w w1 ->
  (forall w' stacks, length stacks = NPROC -> kvm_world n root (kernel_regions ++ stack_regions stacks) stacks w w' -> Q tt w') ->
  wp E (proc_mapstacks root) Q w1.
Proof.
  intros Hh Hn Hk HQ. unfold proc_mapstacks.
  apply (wp_for_do _ (fun xs w' => exists stacks, (length stacks <= NPROC)%nat /\
    xs = seq (length stacks) (NPROC - length stacks) /\ kvm_world n root (kernel_regions ++ stack_regions stacks) stacks w w')).
  - exists []. split; [cbn; lia|]. split; [done|]. by rewrite app_nil_r.
  - intros i xs w2 (stacks & Hl & Hxs & (l & t & Hk2) & Ho & He).
    destruct (NPROC - length stacks)%nat as [|m] eqn:Em; [done|]. injection Hxs as -> ->.
    change NPROC with 64%nat in *.
    assert (Hlen : (0 < length l)%nat).
    { pose proof (kernel_size root t (kv_nodes _ _ _ _ _ _ _ Hk2)). pose proof (kv_free _ _ _ _ _ _ _ Hk2). lia. }
    apply wp_bind, (wp_kalloc _ l); [by rewrite (only_mem_held _ _ Ho)|apply Hk2|intros ->; cbn in Hlen; lia|]. intros q l' ->.
    pose proof (Forall_inv (inv_pages _ _ (ti_kmem _ _ _ _ (kv_table _ _ _ _ _ _ _ Hk2)))) as Hq.
    destruct (page_ok_facts q Hq) as (_ & _ & _ & Hq0 & _). rewrite (proj2 (Z.eqb_neq q 0)) by lia.
    apply (wp_kvmmap_world n root (kernel_regions ++ stack_regions stacks) (stacks ++ [q]) (stack_region (length stacks) q) w).
    + done.
    + split; [exists l', t; by apply kvm_alloc|]. split; [|exact He]. eapply only_mem_trans; [exact Ho|apply alloc_only_mem].
    + apply stack_mappable; [done|change NPROC with 64%nat; lia|done].
    + rewrite length_app. cbn. lia.
    + intros w3 Hk3. exists (stacks ++ [q]). rewrite length_app. cbn [length].
      split; [lia|]. split; [f_equal; lia|]. by rewrite stack_regions_snoc, app_assoc.
  - intros w2 (stacks & Hl & Hxs & Hk2). apply (HQ w2 stacks); [|done].
    apply (f_equal length) in Hxs. rewrite length_seq in Hxs. cbn in Hxs. change NPROC with 64%nat in *. lia.
Qed.

Lemma wp_kvmmake l w E (Q : Z -> world -> Prop) : LkKmem ∉ k_held (w_k w) -> kmem_inv (w_k w) l ->
  (forall p, page_ok p -> 0 <= count (w_k w) p) -> (136 < length l)%nat ->
  (forall root w' stacks, length stacks = NPROC ->
    kvm_world (length l) root (kernel_regions ++ stack_regions stacks) stacks w w' -> Q root w') ->
  wp E kvmmake Q w.
Proof.
  intros Hh Hk Hc Hn HQ. unfold kvmmake. apply wp_bind, (wp_kalloc _ l); [done|done|intros ->; cbn in Hn; lia|]. intros q l' ->.
  pose proof (Forall_inv (inv_pages _ _ Hk)) as Hq. destruct (page_ok_facts q Hq) as (_ & _ & _ & Hq0 & _).
  unfold clear_page. rewrite (proj2 (Z.eqb_neq q 0)) by lia. apply wp_bind. unfold memset_page. apply wp_modk.
  set (w1 := _ <| w_k ::= _ |>). cbn [length] in *.
  assert (H1 : kvm_world (S (length l')) q (take 0 kernel_regions) [] w w1).
  { split; [exists l', (root_only q); by apply kvm_start|]. split; [|done]. unfold w1. by destruct w as [[]]. }
  assert (Hn' : (72 < S (length l'))%nat) by lia. clearbody w1.
  let region i := (apply wp_bind; apply (wp_kvmmap_kernel (S (length l')) q i _ w _ _ _ Hh Hn' eq_refl H1); clear H1 w1; intros w1 H1) in
  region 0%nat; region 1%nat; region 2%nat; region 3%nat; region 4%nat; region 5%nat.
  apply wp_bind, (wp_proc_mapstacks (S (length l')) q w); [done|lia|exact H1|]. intros w2 stacks Hs H2.
  apply wp_ret. by apply (HQ q w2 stacks).
Qed.

(** ** What the regions say *)

(** A part of the kernel's state the page tables do not depend on has changed. *)
Definition same_mem (k k' : kernel) : Prop := k_ram k' = k_ram k /\ k_kmem k' = k_kmem k.

Lemma same_mem_kmem k k' l : same_mem k k' -> kmem_inv k l -> kmem_inv k' l.
Proof. intros [Hr Hm] []. split; unfold count in *; by rewrite ?Hr, ?Hm. Qed.
Lemma same_mem_table k k' l root t : same_mem k k' -> table_inv k l root t -> table_inv k' l root t.
Proof. intros H [Hk Hs Hf]. split; [by eapply same_mem_kmem| |done]. destruct H as [-> _]. done. Qed.

Lemma region_flags r v f : 0 <= rg_pa r + (v - rg_va r) < 2 ^ 56 -> 0 <= rg_perm r < 1024 -> Z.land f 1023 = f ->
  has (region_pte r v) f = has (Z.lor (rg_perm r) PTE_V) f.
Proof. intros Hp Hm Hf. unfold region_pte. by rewrite <- (has_flags _ f Hf), pte_of_flags. Qed.

Lemma translates_elem rs v : translates rs v = 0 \/
  exists r, r ∈ rs /\ covers r v = true /\ translates rs v = region_pte r v.
Proof.
  induction rs as [|r rs IH]; [by left|]. cbn. destruct (covers r v) eqn:E.
  - right. exists r. split; [by left|done].
  - destruct IH as [IH|(s & Hs & H)]; [by left|]. right. exists s. split; [by right|done].
Qed.

Lemma region_addr rs r v : r ∈ rs -> Forall (fun r => 0 <= rg_pa r /\ rg_pa r + rg_size r + PGSIZE <= 2 ^ 56) rs ->
  covers r v = true -> 0 <= rg_pa r + (v - rg_va r) < 2 ^ 56.
Proof.
  intros Hr HF Hc. rewrite Forall_forall in HF. specialize (HF r Hr). unfold covers, PGSIZE in *. lia.
Qed.

Lemma kernel_all stacks : Forall page_ok stacks -> Forall (fun r => (0 <= rg_pa r /\ rg_pa r + rg_size r + PGSIZE <= 2 ^ 56) /\
  (rg_perm r = Z.lor PTE_R PTE_W \/ rg_perm r = Z.lor PTE_R PTE_X)) (kernel_regions ++ stack_regions stacks).
Proof.
  intros Hs. pose proof layout_facts. apply Forall_app. split.
  - unfold kernel_regions, UART0, VIRTIO0, PLIC, PHYSTOP, KERNBASE, PGSIZE.
    repeat (apply Forall_cons_2 || apply Forall_nil_2); cbn [rg_pa rg_size rg_perm]; (split; [lia|]); by (left + right).
  - apply Forall_lookup_2. intros i r Hi. unfold stack_regions in Hi. rewrite list_lookup_imap in Hi.
    destruct (stacks !! i) as [p|] eqn:Ep; [|done]. injection Hi as <-. split; [|by left].
    destruct (page_ok_facts p (Forall_lookup_1 _ _ _ _ Hs Ep)) as (_ & _ & _ & Hp & _).
    destruct (Forall_lookup_1 _ _ _ _ Hs Ep) as [_ Hp']. cbn. unfold PHYSTOP, KERNBASE, PGSIZE in *. lia.
Qed.

(** Nothing is both writable and executable, and nothing is the user's. *)
Lemma kernel_protection stacks v : Forall page_ok stacks ->
  let e := translates (kernel_regions ++ stack_regions stacks) v in
  has e PTE_U = false /\ has e PTE_W && has e PTE_X = false.
Proof.
  intros Hs e. unfold e. destruct (translates_elem (kernel_regions ++ stack_regions stacks) v) as [->|(r & Hr & Hc & ->)]; [done|].
  pose proof (kernel_all _ Hs) as HF. rewrite Forall_forall in HF. destruct (HF r Hr) as [Hp Hperm].
  assert (Ha : 0 <= rg_pa r + (v - rg_va r) < 2 ^ 56) by (unfold covers, PGSIZE in *; lia).
  assert (Hm : 0 <= rg_perm r < 1024) by (destruct Hperm as [-> | ->]; by vm_compute).
  rewrite !region_flags by done. by destruct Hperm as [-> | ->].
Qed.

(** The memory of the machine is mapped where it is, the text of the kernel read-only. *)
Lemma kernel_direct stacks v : upage v -> KERNBASE <= v < PHYSTOP ->
  translates (kernel_regions ++ stack_regions stacks) v =
    pte_of v (if v <? etext then Z.lor PTE_R PTE_X else Z.lor PTE_R PTE_W).
Proof.
  intros Hv Hr. pose proof layout_facts. unfold kernel_regions, region_pte. cbn [translates app].
  unfold covers, UART0, VIRTIO0, PLIC, PHYSTOP, KERNBASE, PGSIZE in *. cbn [rg_va rg_size rg_pa rg_perm].
  repeat match goal with |- context [if ?b then region_pte _ _ else _] =>
    first [rewrite (proj2 (not_true_iff_false b)) by lia | destruct b eqn:?] end;
  unfold region_pte; cbn [rg_va rg_pa rg_perm]; destruct (v <? etext) eqn:?; (lia || (f_equal; lia)).
Qed.

(** Below each stack there is a page that is not mapped. *)
Lemma kernel_guard stacks i : length stacks = NPROC -> (i < NPROC)%nat ->
  translates (kernel_regions ++ stack_regions stacks) (KSTACK (Z.of_nat i) - PGSIZE) = 0.
Proof.
  intros Hl Hi. pose proof layout_facts. change NPROC with 64%nat in *.
  assert (HT : forall j, KSTACK (Z.of_nat j) = 274877902848 - (Z.of_nat j + 1) * 2 * 4096) by done.
  apply translates_out. apply Forall_app. rewrite HT. split.
  - unfold kernel_regions, covers, UART0, VIRTIO0, PLIC, PHYSTOP, KERNBASE, PGSIZE. change TRAMPOLINE with 274877902848.
    repeat (apply Forall_cons_2 || apply Forall_nil_2); cbn [rg_va rg_size]; lia.
  - apply Forall_lookup_2. intros j r Hj. unfold stack_regions in Hj. rewrite list_lookup_imap in Hj.
    destruct (stacks !! j); [|done]. injection Hj as <-. unfold covers, stack_region, PGSIZE. cbn [rg_va rg_size].
    rewrite HT. lia.
Qed.

(** ** The kernel's table *)

(** [root] is the kernel's page table: it translates by the kernel's regions, with the page
    [stacks !! i] as the stack of process [i]; [l] are the free pages. *)
Record kernel_table (k : kernel) (l : list Z) (root : Z) (t : tree) (stacks : list Z) : Prop := KernelTable {
  kt_table : table_inv k l root t;
  kt_view : forall va, upage va -> view (k_ram k) t va = translates (kernel_regions ++ stack_regions stacks) va;
  kt_stacks : length stacks = NPROC /\ NoDup stacks;
  kt_stack : forall p, p ∈ stacks -> page_ok p /\ (p ∉ l) /\ (forall a, t !! a <> Some p) /\ count k p = 1;
  kt_count : forall p, page_ok p -> 0 <= count k p }.

Lemma kernel_table_same k k' l root t stacks : same_mem k k' -> kernel_table k l root t stacks -> kernel_table k' l root t stacks.
Proof.
  intros Hs [Ht Hv Hst Hsp Hc]. pose proof Hs as [Hr Hm].
  split; [by eapply same_mem_table|by rewrite Hr|done| |]; unfold count in *; by rewrite Hm.
Qed.

Lemma kvm_kernel_table n root stacks k l t : length stacks = NPROC ->
  kvm n root (kernel_regions ++ stack_regions stacks) stacks k l t ->
  kernel_table k l root t stacks /\ (n - 136 <= length l)%nat.
Proof.
  intros Hl [Ht Hv Hn Hf Hs Hst Hc]. split.
  - split; done.
  - pose proof (kernel_size root t Hn). change NPROC with 64%nat in Hl. lia.
Qed.

(** Only the memory and the page table's address have changed. *)
Definition only_table (k k' : kernel) : Prop :=
  k' = k <| k_ram := k_ram k' |> <| k_kmem := k_kmem k' |> <| k_pagetable := k_pagetable k' |>.

Lemma wp_kvminit l w E (Q : unit -> world -> Prop) : LkKmem ∉ k_held (w_k w) -> kmem_inv (w_k w) l ->
  (forall p, page_ok p -> 0 <= count (w_k w) p) -> (136 < length l)%nat ->
  (forall w' t l' stacks, only_table (w_k w) (w_k w') -> w_env w' = w_env w ->
    kernel_table (w_k w') l' (k_pagetable (w_k w')) t stacks -> (length l - 136 <= length l')%nat -> Q tt w') ->
  wp E kvminit Q w.
Proof.
  intros Hh Hk Hc Hn HQ. unfold kvminit. apply wp_bind, (wp_kvmmake l); [done..|].
  intros root w1 stacks Hl ((l1 & t & H1) & Ho & He). destruct (kvm_kernel_table _ _ _ _ _ _ Hl H1) as [H1' Hn1].
  apply wp_modk. apply (HQ _ t l1 stacks); [|exact He| |exact Hn1].
  - unfold only_table, only_mem in *. cbn [w_k set_field set_w_k]. rewrite Ho. by destruct (w_k w).
  - by apply (kernel_table_same (w_k w1)).
Qed.

(** C36. [kvminit] builds the page table the kernel runs on.  With 137 free pages it cannot fail, and
    every address translates as the list of regions says: the devices and the whole of the physical memory
    where they are, the text not writable and the rest not executable, the trampoline at the top, one stack for each process
    with a page below it that is not mapped; nothing is the user's, and no entry allows both to write and to execute.
    The pages of the table and of the stacks are taken from the free list. *)
Theorem kvminit_correct l w : LkKmem ∉ k_held (w_k w) -> kmem_inv (w_k w) l ->
  (forall p, page_ok p -> 0 <= count (w_k w) p) -> (136 < length l)%nat ->
  wp total kvminit (fun _ w' => w_env w' = w_env w /\ k_held (w_k w') = k_held (w_k w) /\ exists t l' stacks,
    kernel_table (w_k w') l' (k_pagetable (w_k w')) t stacks /\
    (forall va, upage va -> let e := view (k_ram (w_k w')) t va in
      has e PTE_U = false /\ has e PTE_W && has e PTE_X = false /\
      (KERNBASE <= va < PHYSTOP -> e = pte_of va (if va <? etext then Z.lor PTE_R PTE_X else Z.lor PTE_R PTE_W))) /\
    (forall i, (i < NPROC)%nat -> view (k_ram (w_k w')) t (KSTACK (Z.of_nat i) - PGSIZE) = 0)) w.
Proof.
  intros Hh Hk Hc Hn. apply (wp_kvminit l); [done..|]. intros w' t l' stacks Ho He Ht _.
  assert (Hok : Forall page_ok stacks) by (apply Forall_forall; intros p Hp; by apply (kt_stack _ _ _ _ _ Ht)).
  destruct (kt_stacks _ _ _ _ _ Ht) as [Hl _].
  split; [done|]. split; [unfold only_table in Ho; by rewrite Ho|]. exists t, l', stacks. split; [done|]. split.
  - intros va Hva e. subst e. rewrite (kt_view _ _ _ _ _ Ht va Hva). destruct (kernel_protection stacks va Hok) as [Hu Hx].
    split_and!; [done..|]. intros Hr. by apply kernel_direct.
  - intros i Hi. rewrite (kt_view _ _ _ _ _ Ht); [by apply kernel_guard|].
    apply upage_const. change NPROC with 64%nat in Hi.
    replace (KSTACK (Z.of_nat i) - PGSIZE) with (274877902848 - (Z.of_nat i + 1) * 2 * 4096 - 4096) by done. zlia.
Qed.

(** ** The free pages after [kinit] *)

Lemma free_length k l m : kmem_inv k l -> (forall p, p ∈ l <-> page_ok p) -> end_ + 4096 * (Z.of_nat m + 1) <= PHYSTOP ->
  (m <= length l)%nat.
Proof.
  intros Hk Hl Hm. pose proof layout_end as He. unfold PHYSTOP, KERNBASE in *.
  assert (He' : 0 <= end_ < 2 ^ 64 - 4095) by lia.
  pose proof (PGROUNDUP_bounds _ He') as Hb. pose proof (PGROUNDUP_aligned _ He') as Ha.
  set (f := fun i : nat => PGROUNDUP end_ + 4096 * Z.of_nat i).
  rewrite <- (length_seq m 0), <- (length_fmap f). apply submseteq_length, NoDup_submseteq.
  - apply NoDup_fmap_2; [|apply NoDup_seq]. intros i j. unfold f. lia.
  - intros p (i & -> & Hi%elem_of_seq)%list_elem_of_fmap. apply Hl. unfold page_ok, f, PHYSTOP, KERNBASE, PGSIZE. zlia.
Qed.
End Kvm.

(** * Witness *)
Section Demo.
#[local] Existing Instances demo_layout demo_layout_ok.

Lemma demo_kinit : exists w' l, kinit world0 = Ok tt w' /\ k_held (w_k w') = [] /\ kmem_inv (w_k w') l /\ (136 < length l)%nat /\
  forall p, page_ok p -> 0 <= count (w_k w') p.
Proof.
  pose proof (wp_kinit world0 (not_elem_of_nil _) eq_refl) as H. apply wp_total_Ok in H as ([] & w' & E & [Ho _] & l & Hk & Hl).
  exists w', l. split_and!; [done|by rewrite (only_mem_held _ _ Ho)|done| |].
  - pose proof (free_length _ _ 137 Hk Hl ltac:(by vm_compute)). lia.
  - intros p Hp%Hl. pose proof (inv_counts _ _ Hk) as Hc. rewrite Forall_forall in Hc. by rewrite (Hc p Hp).
Qed.

Lemma kvminit_correct_witness : exists w w' t, kvminit w = Ok tt w' /\
  view (k_ram (w_k w')) t KERNBASE = pte_of KERNBASE 10.
Proof.
  destruct demo_kinit as (w & l & _ & Hh & Hk & Hn & Hc).
  pose proof (kvminit_correct l w ltac:(rewrite Hh; apply not_elem_of_nil) Hk Hc Hn) as H.
  apply wp_total_Ok in H as ([] & w' & E & _ & _ & t & _ & _ & _ & Hv & _). exists w, w', t. split; [done|].
  by destruct (Hv KERNBASE ltac:(by vm_compute)) as (_ & _ & ->).
Defined.
End Demo.
