(* ===== verification/Uvmcopy.v ===== *)
(** [uvmcopy], the copy-on-write half of [fork]: the child's address space shares
    every page of the parent's, and both are marked copy-on-write. *)

From S2P Require Export Uvm.

Section Mark.
Context {L : Layout} {LO : LayoutOk L}.
Context (hold : Z -> Z) (k : kernel) (l : list Z) (ts : list space) (o : nat) (root : Z) (t : tree)
  (va a : Z).
Let e := entry k ts o va.
Let k2 := k <| k_ram ::= fun m => store64 m a (cow e) |>.
Context (Hv : vm_inv hold k l ts) (Ho : ts !! o = Some (root, t)) (Hva : upage va)
  (Hlo : va < TRAPFRAME) (Ha : leaf_addr t va = Some a)
  (HV : has e PTE_V = true) (Hp : page_ok (PTE2PA e)).

(** Marking a mapping copy-on-write. *)
Lemma mark_step : vm_inv hold k2 l ts /\ edited k k2 ts ts o va (cow e) /\ pages_kept hold k ts k2.
Proof.
  pose proof (vi_range _ _ _ _ Hv o va Hva) as Hr.
  assert (Hm : maps k ts o va (PTE2PA e)) by done.
  apply (edit_leaf hold hold k l ts o root t va a (cow e)); try done.
  - by apply cow_range.
  - intros _ _. by rewrite cow_pa.
  - rewrite cow_pa. intros _ _ _ j vb Hj Hne. split; [apply cow_cow_only|].
    by apply (vi_share _ _ _ _ Hv j vb o va (PTE2PA e)).
  - intros p Hpp. destruct (vi_refs _ _ _ _ p Hv Hpp). rewrite cow_refs. fold e. lia.
Qed.

(** Then every mapping of the page is copy-on-write. *)
Lemma mark_share j vb : maps k2 ts j vb (PTE2PA e) -> cow_only (entry k2 ts j vb).
Proof.
  destruct mark_step as (_ & He & _). intros (Hvb & Hl & H). rewrite He in * by done.
  case_decide as Hd; [apply cow_cow_only|].
  apply (vi_share _ _ _ _ Hv j vb o va (PTE2PA e)); done.
Qed.

Lemma mark_maps j vb p : maps k2 ts j vb p <-> maps k ts j vb p.
Proof.
  destruct mark_step as (_ & He & _). unfold maps. split; intros (Hvb & Hl & H); rewrite He in * by done;
    case_decide as Hd; try done; simplify_eq; rewrite cow_V, cow_pa in *; done.
Qed.
End Mark.

Section Uvmcopy.
Context {L : Layout} {LO : LayoutOk L}.
Context (hold : Z -> Z) (l : list Z) (ts : list space) (o n : nat) (old new : Z) (told tnew : tree)
  (sz : Z) (w : world).
Context (Hheld : LkKmem ∉ k_held (w_k w)) (Hv : vm_inv hold (w_k w) l ts)
  (Ho : ts !! o = Some (old, told)) (Hn : ts !! n = Some (new, tnew)) (Hne : o <> n)
  (Hsz : 0 <= sz <= TRAPFRAME).
Context
  (Hpages : forall v, upage v -> v < sz ->
    has (entry (w_k w) ts o v) PTE_V = true /\ page_ok (PTE2PA (entry (w_k w) ts o v)))
  (Hfree : forall v, upage v -> v < sz -> has (entry (w_k w) ts n v) PTE_V = false).

(** The entries below [i] of the parent are marked, those of the child are [f] of them. *)
Definition shared_entries (i : Z) (ic : Z) (k' : kernel) (ts' : list space) (child : Z -> Z) : Prop :=
  forall j vb, upage vb -> entry k' ts' j vb =
    if bool_decide (j = o) && (vb <? i) then cow (entry (w_k w) ts o vb)
    else if bool_decide (j = n) && (vb <? ic) then child (entry (w_k w) ts o vb)
    else entry (w_k w) ts j vb.

Definition mapped_kept (k' : kernel) : Prop := forall p x, page_ok p ->
  (exists j vb, maps (w_k w) ts j vb p) -> in_page p x -> k_ram k' x = k_ram (w_k w) x.

(** What the reference counts of the pages that were in use have grown by. *)
Definition counted (more : Z -> Z) (k' : kernel) : Prop :=
  forall p, page_ok p -> (p ∉ l) -> count k' p = count (w_k w) p + more p.

Definition copied (i : Z) (w' : world) : Prop :=
  w_env w' = w_env w /\ only_mem (w_k w) (w_k w') /\ exists l' t',
  let ts' := <[n := (new, t')]> ts in
  vm_inv hold (w_k w') l' ts' /\ shared_entries i i (w_k w') ts' cow /\ mapped_kept (w_k w') /\
  (forall p, p ∈ l' -> p ∈ l) /\ counted (fun p => refs_to (w_k w) ts o p (pages 0 i)) (w_k w').

(** No memory for a page of the child's table: its pages are unmapped again; the
    parent's stay copy-on-write, and the page at which it failed keeps the reference just taken. *)
Definition copy_failed (i : Z) (w' : world) : Prop :=
  w_env w' = w_env w /\ only_mem (w_k w) (w_k w') /\ exists l' t',
  let ts' := <[n := (new, t')]> ts in
  vm_inv hold (w_k w') l' ts' /\ shared_entries (i + 4096) i (w_k w') ts' (fun _ => 0)
  /\ mapped_kept (w_k w') /\
  counted (fun p => if decide (p = PTE2PA (entry (w_k w) ts o i)) then 1 else 0) (w_k w').

Lemma shared_maps i ic k' ts' child j vb p : shared_entries i ic k' ts' child ->
  (forall v, upage v -> v < ic -> v < sz) ->
  maps (w_k w) ts j vb p -> maps k' ts' j vb p.
Proof.
  intros Hs Hic (Hvb & Hlo & HV & Hp). split; [done|]. split; [done|]. rewrite Hs by done.
  destruct (bool_decide (j = o) && (vb <? i)) eqn:E1.
  - apply andb_true_iff in E1 as [E1%bool_decide_eq_true _]. subst j. by rewrite cow_V, cow_pa.
  - destruct (bool_decide (j = n) && (vb <? ic)) eqn:E2; [|done].
    apply andb_true_iff in E2 as [E2%bool_decide_eq_true E3]. subst j.
    rewrite Hfree in HV; [done|done|]. apply Hic; [done|lia].
Qed.

Lemma below_next i vb : upage i -> upage vb -> vb <> i -> (vb <? i + 4096) = (vb <? i).
Proof. intros [_ Hi] [_ Hvm] Hne'. destruct (vb <? i + 4096) eqn:E1, (vb <? i) eqn:E2; zlia || done. Qed.

Lemma shared_next i k1 ts1 k' ts' : upage i -> shared_entries i i k1 ts1 cow ->
  (forall j vb, upage vb -> entry k' ts' j vb =
    if decide ((j, vb) = (n, i)) then cow (entry (w_k w) ts o i)
    else if decide ((j, vb) = (o, i)) then cow (entry (w_k w) ts o i) else entry k1 ts1 j vb) ->
  shared_entries (i + 4096) (i + 4096) k' ts' cow.
Proof.
  intros Hi Hs He j vb Hvb. rewrite He, Hs by done.
  destruct (decide (vb = i)) as [->|Hvi].
  - rewrite Z.ltb_irrefl, !andb_false_r, (proj2 (Z.ltb_lt i _)), !andb_true_r by lia.
    repeat case_decide; repeat case_bool_decide; simplify_eq; congruence.
  - rewrite !below_next by done. rewrite !decide_False by congruence. done.
Qed.

Lemma shared_failed i k1 ts1 k' ts' : upage i -> shared_entries i i k1 ts1 cow ->
  (forall j vb, upage vb -> entry k' ts' j vb =
    if bool_decide (j = n) && (0 <=? vb) && (vb <? 0 + i) then 0
    else if decide ((j, vb) = (o, i)) then cow (entry (w_k w) ts o i) else entry k1 ts1 j vb) ->
  shared_entries (i + 4096) i k' ts' (fun _ => 0).
Proof.
  intros Hi Hs He j vb Hvb. rewrite He, Hs by done.
  assert ((0 <=? vb) = true) as -> by (destruct Hvb; lia). rewrite andb_true_r, Z.add_0_l.
  destruct (decide (vb = i)) as [->|Hvi].
  - rewrite Z.ltb_irrefl, !andb_false_r, (proj2 (Z.ltb_lt i _)), !andb_true_r by lia.
    repeat case_decide; repeat case_bool_decide; simplify_eq; congruence.
  - rewrite !below_next by done. rewrite !decide_False by congruence.
    repeat case_bool_decide; destruct (vb <? i); subst; cbn [andb]; try done; congruence.
Qed.

Lemma wp_uvmcopy E (Q : Z -> world -> Prop) :
  (forall i w', sz <= i < sz + 4096 -> i mod 4096 = 0 -> copied i w' -> Q 0 w') ->
  (forall i w', upage i -> i < sz -> copy_failed i w' -> Q (-1) w') ->
  wp E (uvmcopy old new sz) Q w.
Proof.
  intros Q0 Q1. assert (HM : MAXVA = 274877906944) by done.
  assert (HT : TRAPFRAME = MAXVA - 8192) by done. unfold uvmcopy.
  apply (wp_loop _ (fun i w' => i mod 4096 = 0 /\ 0 <= i < sz + 4096 /\ copied i w')
    (fun i _ => Z.to_nat ((sz + 4096 - i) / 4096))).
  - split; [done|]. split; [lia|]. split; [done|]. split; [apply only_mem_refl|].
    exists l, tnew. cbv zeta. rewrite list_insert_id by done. split_and!; [done| |by intros|done|].
    2: { intros p _ _. change (pages 0 0) with (@nil Z). change (refs_to (w_k w) ts o p []) with 0. lia. }
    intros j vb [Hvb _]. destruct (vb <? 0) eqn:E0; [lia|]. by rewrite !andb_false_r.
  - unfold PGSIZE. zlia.
  - intros i w1 (Him & Hir & Hc). destruct (i <? sz) eqn:Ei; cycle 1.
    { apply wp_ret, (Q0 i); [lia|done|done]. }
    assert (Hup : upage i) by (split; [lia|done]).
    destruct Hc as (He1 & Ho1 & l1 & t1 & Hv1 & Hs1 & Hk1 & Hl1 & Hn1). cbv zeta in *.
    set (ts1 := <[n := (new, t1)]> ts) in *. set (e := entry (w_k w) ts o i).
    assert (Ho' : ts1 !! o = Some (old, told)) by (subst ts1; by rewrite list_lookup_insert_ne by done).
    assert (Hee : entry (w_k w1) ts1 o i = e).
    { rewrite Hs1 by done. rewrite Z.ltb_irrefl, !andb_false_r. done. }
    destruct (Hpages i Hup) as [HV Hpok]; [lia|]. fold e in HV, Hpok.
    kstep. destruct (walk_entry hold _ l1 ts1 o old told i w1 eq_refl Hv1 Ho' (upage_px _ Hup))
      as [(a & Ew & El & Hla & Ee)|(_ & _ & Ee)]; [|by rewrite Hee in Ee; rewrite Ee, has_0 in HV].
    eapply wp_Ok; [exact Ew|]. destruct (a =? 0) eqn:E0; [lia|]. unfold load_pte, store_pte.
    do 2 kstep. rewrite <- Ee, Hee, HV. cbn [negb].
    destruct (mark_step hold (w_k w1) l1 ts1 o old told i a) as (Hv2 & He2 & Hk2);
      rewrite ?Hee; try done; [lia|].
    pose proof (mark_share hold (w_k w1) l1 ts1 o old told i a Hv1 Ho' Hup) as Hsh2.
    pose proof (mark_maps hold (w_k w1) l1 ts1 o old told i a Hv1 Ho' Hup) as Hmm2.
    rewrite Hee in *. fold (cow e) in *.
    do 2 kstep. pose proof (vi_range _ _ _ _ Hv o i Hup) as Hrange. fold e in Hrange.
    pose proof (cow_range e Hrange) as Hcr.
    do 2 kstep. cbn [w_k set_field set_w_k set_k_ram k_ram]. rewrite load_store64_same, u64_small by lia.
    cbv zeta. rewrite cow_pa.
    set (k2 := (w_k w1) <| k_ram ::= fun m => store64 m a (cow e) |>) in *.
    set (pa := PTE2PA e) in *.
    assert (Hmo : maps k2 ts1 o i pa).
    { apply Hmm2; try done; [lia|]. split; [done|]. split; [lia|]. by rewrite Hee. }
    destruct (inv_inc hold k2 pa l1 ts1 Hv2 Hpok) as [Hv3 He3]; [right; by exists o, i|].
    assert (Hh1 : LkKmem ∉ k_held (w_k w1)) by by rewrite (only_mem_held _ _ Ho1).
    kstep. apply wp_safe_inc_count; [done|done|]. kstep.
    set (k3 := upd_count pa (fun c => c + 1) k2) in *.
    set (w3 := World k3 (w_env w1)).
    assert (Hv1' : ts1 !! n = Some (new, t1)).
    { subst ts1. apply list_lookup_insert_eq. by eapply lookup_lt_Some. }
    assert (Hent3 : forall j vb, upage vb ->
      entry k3 ts1 j vb = if decide ((j, vb) = (o, i)) then cow e else entry (w_k w1) ts1 j vb).
    { intros j vb Hvb. rewrite He3 by done. by apply He2. }
    assert (Hpte : pte_of pa (PTE_FLAGS (cow e)) = cow e).
    { unfold pa. rewrite <- cow_pa. apply pte_of_split; [done|by rewrite cow_V]. }
    assert (Hmap : wp E (mappages new i PGSIZE pa (PTE_FLAGS (cow e)))
      (page_mapped (hold_add pa 1 hold) l1 ts1 n new i pa (PTE_FLAGS (cow e)) w3) w3).
    { apply (wp_map_page _ l1 ts1 n new t1); try done.
      - lia.
      - cbn [w_k]. rewrite Hent3 by done. rewrite decide_False by congruence. rewrite Hs1 by done.
        rewrite Z.ltb_irrefl, !andb_false_r. apply Hfree; [done|lia].
      - unfold hold_add. rewrite Z.eqb_refl. destruct (vi_refs _ _ _ _ pa Hv2 Hpok). lia.
      - apply PTE_FLAGS_range.
      - intros j vb Hm. rewrite Hpte. split; [apply cow_cow_only|]. cbn [w_k] in *.
        rewrite He3 by apply Hm. apply Hsh2; try done; lia. }
    eapply wp_mono; [exact Hmap|]. clear Hmap. intros r w4 (He4 & Ho4 & l4 & t4 & Hk4 & [Hl4 Hn4] & Hor).
    assert (Hcount : counted (fun p => refs_to (w_k w) ts o p (pages 0 (i + 4096))) (w_k w4)).
    { intros p Hp Hpl. assert (Hpl1 : p ∉ l1) by (intros H; by apply Hpl, Hl1).
      rewrite Hn4 by done. transitivity (count (upd_count pa (fun c => c + 1) (w_k w1)) p); [done|].
      rewrite count_upd, pages_next, refs_to_app, refs_to_one by (done || lia).
      change (entry (w_k w) ts o (0 + i)) with e. fold pa. case_decide as Ep; [rewrite <- Ep|]; rewrite Hn1 by done; lia. }
    assert (Hkeep : mapped_kept (w_k w4)).
    { intros p x Hp (j & vb & Hm) Hx.
      assert (Hm1 : maps (w_k w1) ts1 j vb p).
      { apply (shared_maps i i _ _ cow); try done. intros. lia. }
      assert (Hm2 : maps k2 ts1 j vb p) by (apply Hmm2; try done; lia).
      rewrite (Hk4 p x Hp); [|right; by exists j, vb|done].
      transitivity (k_ram (w_k w1) x); [apply (Hk2 p x Hp); [right; by exists j, vb|done]|].
      apply (Hk1 p); try done. by exists j, vb. }
    assert (Hfin_env : w_env w4 = w_env w) by (rewrite He4; exact He1).
    assert (Hfin_mem : only_mem (w_k w) (w_k w4)).
    { apply (only_mem_trans _ (w_k w1)); [done|]. apply (only_mem_trans _ k3); [|done].
      unfold k3, k2. by destruct (w_k w1). }
    destruct Hor as [(-> & Hv4 & Hed4)|(-> & -> & Hv4 & Hs4)].
    + cbn [Z.eqb negb]. apply wp_ret. unfold PGSIZE. rewrite u64_small by lia.
      split; [|zlia]. split; [zlia|]. split; [lia|]. split; [exact Hfin_env|]. split; [exact Hfin_mem|].
      exists l4, t4. cbv zeta. subst ts1. rewrite list_insert_insert_eq in *. split_and!; [| |done|by intros; apply Hl1, Hl4|done].
      * eapply inv_weaken; [exact Hv4| |].
        -- intros p Hp. unfold hold_add in *. destruct (p =? pa); [lia|done].
        -- intros p Hp. destruct (vi_refs _ _ _ _ p Hv Hp). unfold hold_add. destruct (p =? pa); lia.
      * eapply shared_next; [done|exact Hs1|]. intros j vb Hvb. rewrite Hed4 by done. fold e.
        rewrite Hpte. case_decide; [done|]. by apply Hent3.
    + cbn [Z.eqb negb]. kstep. unfold PGSIZE.
      assert (Hv4' : vm_inv hold (w_k w4) [] (<[n := (new, t4)]> ts1)).
      { eapply inv_weaken; [exact Hv4| |].
        - intros p Hp. unfold hold_add in *. destruct (p =? pa) eqn:Epa; [|done].
          destruct (vi_refs _ _ _ _ pa Hv2 Hpok). apply Z.eqb_eq in Epa. subst p. lia.
        - intros p Hp. destruct (vi_refs _ _ _ _ p Hv Hp). unfold hold_add. destruct (p =? pa); lia. }
      assert (Hent4 : forall j vb, upage vb -> entry (w_k w4) (<[n := (new, t4)]> ts1) j vb =
        if decide ((j, vb) = (o, i)) then cow e else entry (w_k w1) ts1 j vb).
      { intros j vb Hvb. rewrite Hs4 by done. by apply Hent3. }
      eapply (wp_uvmunmap hold [] _ n new t4 0 (i / 4096) true w4 ltac:(by rewrite (only_mem_held _ _ Hfin_mem))
        Hv4'); [by apply list_lookup_insert_eq, lookup_lt_Some with (x := (new, t1))|done|zlia|zlia| |].
      * intros v Hvu Hvr. rewrite Hent4 by done. rewrite decide_False by congruence.
        rewrite Hs1 by done. rewrite bool_decide_false by congruence. cbn [andb].
        rewrite bool_decide_true by done. cbn [andb]. rewrite (proj2 (Z.ltb_lt v i)) by zlia.
        destruct (Hpages v Hvu) as [HVv Hpv]; [zlia|]. rewrite cow_V, cow_pa. split_and!; try done.
        intros Hfl. pose proof (cow_cow_only (entry (w_k w) ts o v)) as [Hc _].
        rewrite <- has_flags, Hfl in Hc by done. done.
      * intros w5 (He5 & Ho5 & l5 & Hv5 & Hd5 & Hc5 & Hn5). kstep.
        apply (Q1 i); [done|lia|]. split; [congruence|]. split; [by eapply only_mem_trans|].
        exists l5, t4. cbv zeta. subst ts1. rewrite list_insert_insert_eq in *.
        assert (Hs5 : shared_entries (i + 4096) i (w_k w5) (<[n := (new, t4)]> ts) (fun _ => 0)).
        { eapply shared_failed; [done|exact Hs1|]. intros j vb Hvb. rewrite Hc5 by done.
          replace (i / 4096 * 4096) with i by zlia. by rewrite Hent4. }
        split_and!; [done|done| |].
        -- intros p x Hp Hm Hx. rewrite (Hd5 p x Hp); [by apply (Hkeep p)| |done]. destruct Hm as (j & vb & Hm).
           exists j, vb. eapply shared_maps; [exact Hs5| |done]. intros. lia.
        -- intros p Hp Hpl. rewrite Hn5, Hcount by done. unfold dropped. rewrite pages_next, refs_to_app, refs_to_one by (done || lia).
           replace (i / 4096 * 4096) with i by zlia. rewrite (refs_to_ext (w_k w) _ ts _ o n); [rewrite Z.add_0_l; lia|].
           intros v [Hvm Hvr]%elem_of_pages; [|lia|done|done]. assert (Hvu : upage v) by (split; [lia|done]).
           rewrite Hent4 by done. rewrite decide_False by congruence. rewrite Hs1 by done.
           rewrite bool_decide_false, bool_decide_true, (proj2 (Z.ltb_lt v i)) by (done || congruence || lia). apply cow_pa.
Qed.

(** What user code reads after a successful or a failed copy. *)
Lemma shared_user k' ts' j j' va : mapped_kept k' -> 0 <= va < MAXVA ->
  (entry k' ts' j' (PGROUNDDOWN va) = entry (w_k w) ts j (PGROUNDDOWN va) \/
   entry k' ts' j' (PGROUNDDOWN va) = cow (entry (w_k w) ts j (PGROUNDDOWN va))) ->
  user_byte k' ts' j' va = user_byte (w_k w) ts j va.
Proof.
  intros Hk Hva. set (e := entry (w_k w) ts j _). set (e' := entry k' ts' j' _). intros Hor. destruct (round_upage va Hva) as (Hup & _ & Hoff).
  apply user_byte_same; fold e e'.
  - destruct Hor as [->| ->]; [done|apply cow_V].
  - destruct Hor as [->| ->]; [done|apply cow_U].
  - destruct Hor as [->| ->]; [done|apply cow_pa].
  - intros HV HU. destruct (vi_user _ _ _ _ Hv j _ Hup HV HU) as [Hp Hlo]. fold e in Hp.
    apply (Hk (PTE2PA e)); [done|by exists j, (PGROUNDDOWN va)|unfold in_page; lia].
Qed.

(** What [uvmcopy] returns and leaves. *)
Definition uvmcopy_post (r : Z) (w' : world) : Prop :=
  w_env w' = w_env w /\ only_mem (w_k w) (w_k w') /\ exists l' tnew', let ts' := <[n := (new, tnew')]> ts in
  vm_inv hold (w_k w') l' ts' /\
  (forall j va, 0 <= va < MAXVA -> j <> n -> user_byte (w_k w') ts' j va = user_byte (w_k w) ts j va) /\
  if r =? 0 then
    (forall j va, upage va -> entry (w_k w') ts' j va =
       if bool_decide (j = o \/ j = n) && (va <? sz) then cow (entry (w_k w) ts o va) else entry (w_k w) ts j va) /\
    (forall va, 0 <= va < sz -> user_byte (w_k w') ts' n va = user_byte (w_k w) ts o va) /\
    counted (fun p => refs_to (w_k w) ts o p (pages 0 (PGROUNDUP sz))) (w_k w')
  else r = -1 /\ exists i, upage i /\ i < sz /\
    (forall j va, upage va -> entry (w_k w') ts' j va =
       if bool_decide (j = o) && (va <=? i) then cow (entry (w_k w) ts o va)
       else if bool_decide (j = n) && (va <? i) then 0 else entry (w_k w) ts j va) /\
    (forall va, 0 <= va < sz -> user_byte (w_k w') ts' n va = None) /\
    counted (fun p => if decide (p = PTE2PA (entry (w_k w) ts o i)) then 1 else 0) (w_k w').

Lemma shared_other i ic k' ts' child j va : shared_entries i ic k' ts' child -> upage va -> j <> n ->
  entry k' ts' j va = entry (w_k w) ts j va \/ entry k' ts' j va = cow (entry (w_k w) ts j va).
Proof.
  intros Hs Hva Hj. rewrite Hs by done. rewrite (bool_decide_false (j = n)) by done. cbn [andb].
  case_bool_decide; cbn [andb]; [subst j|by left]. destruct (va <? i); [by right|by left].
Qed.
End Uvmcopy.

Section Theorems.
Context {L : Layout} {LO : LayoutOk L}.

Lemma wp_uvmcopy_user hold l ts o n old new told tnew sz w :
  LkKmem ∉ k_held (w_k w) -> vm_inv hold (w_k w) l ts ->
  ts !! o = Some (old, told) -> ts !! n = Some (new, tnew) -> o <> n -> 0 <= sz <= TRAPFRAME ->
  (forall v, upage v -> v < sz ->
    has (entry (w_k w) ts o v) PTE_V = true /\ page_ok (PTE2PA (entry (w_k w) ts o v))) ->
  (forall v, upage v -> v < sz -> has (entry (w_k w) ts n v) PTE_V = false) ->
  wp total (uvmcopy old new sz) (uvmcopy_post hold l ts o n new sz w) w.
Proof.
  intros Hh Hv Ho Hn Hne Hsz Hpages Hfree.
  assert (HM : MAXVA = 274877906944) by done. assert (HT : TRAPFRAME = MAXVA - 8192) by done.
  apply (wp_uvmcopy hold l ts o n old new told tnew sz w Hh Hv Ho Hn Hne Hsz Hpages Hfree).
  - intros i w' Hi Him (He & Hm & l' & t' & Hv' & Hs & Hk & _ & Hc).
    split; [done|]. split; [done|]. exists l', t'. cbv zeta in *. cbn [Z.eqb]. split_and!; [done|..].
    + intros j va Hva Hj. eapply shared_user; try done.
      eapply shared_other; try done. by apply round_upage.
    + intros j va Hva. rewrite Hs by done. assert ((va <? i) = (va <? sz)) as ->.
      { destruct Hva as [_ Hvm], (Z.ltb_spec va i), (Z.ltb_spec va sz); done || zlia. }
      repeat case_bool_decide; subst; cbn [andb]; destruct (va <? sz); try done; naive_solver.
    + intros va Hva. assert (Hva' : 0 <= va < MAXVA) by lia.
      destruct (round_upage va Hva') as (Hup & Hr & _).
      eapply shared_user; try done. right. rewrite Hs by done.
      rewrite (proj2 (Z.ltb_lt (PGROUNDDOWN va) i)) by zlia.
      rewrite bool_decide_false by done. by rewrite bool_decide_true.
    + assert (PGROUNDUP sz = i) as ->; [|done]. rewrite PGROUNDUP_eq by lia. zlia.
  - intros i w' [Hi0 Him] Hi (He & Hm & l' & t' & Hv' & Hs & Hk & Hc).
    split; [done|]. split; [done|]. exists l', t'. cbv zeta in *. cbn [Z.eqb]. split_and!; [done| |done|].
    + intros j va Hva Hj. eapply shared_user; try done.
      eapply shared_other; try done. by apply round_upage.
    + exists i. split_and!; [by split|done| | |done].
      * intros j va Hva. rewrite Hs by done. assert ((va <? i + 4096) = (va <=? i)) as ->; [|done].
        destruct Hva as [_ Hvm], (Z.ltb_spec va (i + 4096)), (Z.leb_spec va i); done || zlia.
      * intros va Hva. assert (Hva' : 0 <= va < MAXVA) by lia.
        destruct (round_upage va Hva') as (Hup & Hr & _).
        unfold user_byte. cbv zeta. rewrite Hs by done. rewrite bool_decide_false by done.
        rewrite bool_decide_true by done. cbn [andb]. destruct (_ <? i); [by rewrite has_0|].
        rewrite Hfree; [done|done|zlia].
Qed.

(** C3. [uvmcopy] of an address space of [sz] bytes.  In every case no byte that the parent or any
    other process reads has changed, and [vm_inv] holds.  When it returns 0 the child maps
    every page the parent maps, to the same physical page; both entries are marked
    copy-on-write and are not writable, no other entry has changed, the child reads the parent's
    bytes, and of the pages in use each has exactly as many references more as the
    parent maps it.  When it returns -1 (no memory for the child's page tables) at page [i], the child
    maps nothing below [sz]; but the parent's pages up to [i] stay marked copy-on-write, and page
    [i] keeps the reference that was taken for the child: it is never freed. *)
Theorem uvmcopy_correct hold l ts o n old new told tnew sz w :
  LkKmem ∉ k_held (w_k w) -> vm_inv hold (w_k w) l ts ->
  ts !! o = Some (old, told) -> ts !! n = Some (new, tnew) -> o <> n -> 0 <= sz <= TRAPFRAME ->
  (forall v, upage v -> v < sz ->
    has (entry (w_k w) ts o v) PTE_V = true /\ page_ok (PTE2PA (entry (w_k w) ts o v))) ->
  (forall v, upage v -> v < sz -> has (entry (w_k w) ts n v) PTE_V = false) ->
  wp total (uvmcopy old new sz) (uvmcopy_post hold l ts o n new sz w) w.
Proof. apply wp_uvmcopy_user. Qed.
End Theorems.

Section Witness.
#[local] Existing Instances demo_layout demo_layout_ok.

Lemma uvmcopy_correct_witness : exists w w' l t t',
  uvmcopy (demo_page 0) (demo_page 1) 4096 w = Ok 0 w'
  /\ vm_inv hold_none (w_k w') l [(demo_page 0, t); (demo_page 1, t')]
  /\ entry (w_k w') [(demo_page 0, t); (demo_page 1, t')] 1 0 = cow (pte_of (demo_page 2) 22).
Proof.
  assert (Hup : upage 0) by done.
  assert (HV : has (pte_of (demo_page 2) 22) PTE_V = true) by (vm_compute; exact eq_refl).
  assert (Hp : page_ok (PTE2PA (pte_of (demo_page 2) 22))) by by vm_compute.
  assert (Hr : returns (uvmcopy (demo_page 0) (demo_page 1) 4096 (demo_map 22)) (-1) = 0)
    by (vm_compute; exact eq_refl).
  destruct (demo_map_inv 22) as (l & t & Hh & Hv & He); [lia|exact HV|vm_compute; exact eq_refl|].
  assert (Hheld : LkKmem ∉ k_held (w_k (demo_map 22))) by (rewrite Hh; apply not_elem_of_nil).
  assert (Hsz : 0 <= 4096 <= TRAPFRAME) by (change TRAPFRAME with 274877898752; lia).
  assert (H0 : forall v, upage v -> v < 4096 -> v = 0) by (intros v [Hv0 Hvm] Hlt; zlia).
  pose proof (uvmcopy_correct hold_none l (demo_spaces t) 0%nat 1%nat (demo_page 0) (demo_page 1) t
    (root_only (demo_page 1)) 4096 (demo_map 22) Hheld Hv eq_refl eq_refl
    ltac:(discriminate) Hsz) as H.
  destruct (wp_total_Ok _ _ _ (H ltac:(intros v Hvu Hlt; rewrite (H0 v Hvu Hlt), He by exact Hup; exact (conj HV Hp))
    ltac:(intros v Hvu Hlt; rewrite (H0 v Hvu Hlt), He by exact Hup; exact (has_0 _))))
    as (r & w' & Er & _ & _ & l' & t' & Hv' & _ & Hent).
  rewrite Er in Hr. cbn [returns] in Hr. subst r. destruct Hent as (Hent & _).
  pose proof (Hent 1%nat 0 Hup) as Hc. rewrite (He 0%nat), bool_decide_true in Hc by (exact Hup || by right).
  exists (demo_map 22), w', l', t, t'. exact (conj Er (conj Hv' Hc)).
Defined.
End Witness.
