(* ===== verification/Spaces.v ===== *)
(** Several page tables side by side, each described by regions.

    [mem] is the state of the memory while the kernel builds its first address spaces: the
    tables [ts] translate by the regions [rss], and the pages [own] have been taken for something
    other than a table.  Its lemmas say how it changes when a page is allocated, a table
    is created, a page is mapped and a page is written; the last one that it gives the
    invariant of file Cow for a single user space. *)

From S2P Require Export Uvmcopy Kvm.

Section Spaces.
Context {L : Layout} {LO : LayoutOk L}.

Record mem (k : kernel) (l : list Z) (ts : list space) (rss : list (list region)) (own : list Z) : Prop := Mem {
  me_mem : vm_mem k l ts;
  me_view : forall i rs va, rss !! i = Some rs -> upage va -> entry k ts i va = translates rs va;
  me_len : length rss = length ts;
  me_own : NoDup own;
  me_page : forall p, p ∈ own -> page_ok p /\ (p ∉ l) /\ ~ is_node ts p /\ count k p = 1;
  me_count : forall p, page_ok p -> 0 <= count k p }.

Lemma kernel_mem k l root t stacks : kernel_table k l root t stacks ->
  mem k l [(root, t)] [kernel_regions ++ stack_regions stacks] stacks.
Proof.
  intros [Ht Hv [_ Hn] Hs Hc]. split; [|intros [|i] rs va [= <-] Hva; by apply Hv|done|done| |done].
  - split; [apply Ht|intros [|i] r s [= <- <-]; done|intros [|i] [|j] r1 t1 r2 t2 a b p [=] [=] _ _; done].
  - intros p Hp. destruct (Hs p Hp) as (Hok & Hl & Hpt & Hpc). split_and!; [done|done| |done].
    intros (i & r & s & a & Hi & Ha). destruct i as [|i]; [|done]. injection Hi as <- <-. by apply (Hpt a).
Qed.

Lemma mem_kernel k l root t rs ts rss own : mem k l ((root, t) :: ts) (rs :: rss) own ->
  table_inv k l root t /\ (forall va, upage va -> view (k_ram k) t va = translates rs va).
Proof.
  intros H. split; [by apply (vm_table _ _ _ (me_mem _ _ _ _ _ H) 0)|].
  intros va Hva. by apply (me_view _ _ _ _ _ H 0 rs va).
Qed.

Lemma mem_kernel_table k l root t ts stacks rss own : length stacks = NPROC ->
  mem k l ((root, t) :: ts) ((kernel_regions ++ stack_regions stacks) :: rss) (stacks ++ own) -> kernel_table k l root t stacks.
Proof.
  intros Hl H. destruct (mem_kernel _ _ _ _ _ _ _ _ H) as [Ht Hv]. destruct H as [_ _ _ Hn Hp Hc].
  split; [done|done|split; [done|by apply NoDup_app in Hn as [? _]]| |done].
  intros p Hin. destruct (Hp p) as (Hok & Hpl & Hpn & Hpc); [apply elem_of_app; by left|]. split_and!; [done|done| |done].
  intros a Ha. apply Hpn. by exists 0%nat, root, t, a.
Qed.

Lemma mem_same k k' l ts rss own : same_mem k k' -> mem k l ts rss own -> mem k' l ts rss own.
Proof.
  intros [Hr Hm] [Hv Hvw Hl Hn Hp Hc].
  assert (Hcount : forall p, count k' p = count k p) by (intros; unfold count; by rewrite Hm).
  split; [| |done|done| |].
  - eapply vm_mem_change; [done|by eapply same_mem_kmem; [|apply Hv]|by rewrite Hr|].
    intros p Hp'. by apply (node_page_ok _ _ _ _ Hv).
  - intros i rs va Hi Hva. rewrite <- (Hvw i) by done. unfold entry. by rewrite Hr.
  - intros p Hp'. rewrite Hcount. by apply Hp.
  - intros p Hp'. rewrite Hcount. by apply Hc.
Qed.

Lemma node_alloc k q l ts p x : vm_mem k (q :: l) ts -> is_node ts p -> in_page p x -> k_ram k x = k_ram (alloc_page q k) x.
Proof.
  intros Hm Hn Hx. destruct (node_page_ok _ _ _ _ Hm Hn) as [Hp Hpl]. symmetry. apply fill_bytes_out.
  apply (pages_apart p q x); [done|apply (Forall_inv (inv_pages _ _ (vm_kmem _ _ _ Hm)))| |done].
  intros ->. apply Hpl. by left.
Qed.

Lemma alloc_mem k q l ts : vm_mem k (q :: l) ts -> vm_mem (alloc_page q k) l ts /\ (q ∉ l) /\ ~ is_node ts q /\ page_ok q.
Proof.
  intros Hm. pose proof (vm_kmem _ _ _ Hm) as Hk. split_and!.
  - apply (vm_mem_change k _ (q :: l)); [done|by apply alloc_page_inv| |].
    + intros x (p & Hp & Hx). by eapply node_alloc.
    + intros p Hp Hl. destruct (node_page_ok _ _ _ _ Hm Hp) as [_ Hpl]. apply Hpl. by right.
  - by pose proof (inv_nodup _ _ Hk) as [? _]%NoDup_cons.
  - intros Hq. destruct (node_page_ok _ _ _ _ Hm Hq) as [_ Hpl]. apply Hpl. by left.
  - apply (Forall_inv (inv_pages _ _ Hk)).
Qed.

Lemma count_alloc q k p : page_ok q -> page_ok p -> count (alloc_page q k) p = if decide (p = q) then 1 else count k p.
Proof. intros. unfold alloc_page. by rewrite count_upd. Qed.

Lemma mem_alloc k q l ts rss own : mem k (q :: l) ts rss own -> mem (alloc_page q k) l ts rss (own ++ [q]).
Proof.
  intros [Hv Hvw Hl Hn Hp Hc]. destruct (alloc_mem _ _ _ _ Hv) as (Hv' & Hql & Hqn & Hq).
  split; [done| |done| | |].
  - intros i rs va Hi Hva. rewrite <- (Hvw i) by done. symmetry. apply entry_ext. intros x (p & Hp' & Hx). by eapply node_alloc.
  - apply NoDup_app. split_and!; [done| |apply NoDup_singleton]. intros p Hp' ->%list_elem_of_singleton.
    destruct (Hp q Hp') as (_ & Hpl & _). apply Hpl. by left.
  - intros p [Hp'| ->%list_elem_of_singleton]%elem_of_app.
    + destruct (Hp p Hp') as (Hok & Hpl & Hpn & Hpc). rewrite count_alloc by done.
      split_and!; [done|intros ?; apply Hpl; by right|done|by case_decide].
    + rewrite count_alloc by done. by rewrite decide_True.
  - intros p Hp'. rewrite count_alloc by done. case_decide; [lia|]. by apply Hc.
Qed.

(** Writing to a page that is not a table. *)
Lemma mem_write k l ts rss own p f : mem k l ts rss own -> p ∈ own -> (forall x, ~ in_page p x -> f (k_ram k) x = k_ram k x) ->
  mem (k <| k_ram ::= f |>) l ts rss own.
Proof.
  intros Hm Hp Hf. pose proof Hm as [Hv Hvw Hl Hn Hpg Hc]. destruct (Hpg p Hp) as (Hok & Hpl & Hpn & _).
  pose proof (vm_kmem _ _ _ Hv) as Hk.
  assert (Hnode : forall x, (exists q, is_node ts q /\ in_page q x) -> k_ram k x = f (k_ram k) x).
  { intros x (q & Hq & Hx). symmetry. apply Hf. destruct (node_page_ok _ _ _ _ Hv Hq) as [Hqok _].
    apply (pages_apart q p x); [done|done| |done]. by intros ->. }
  split; [|intros i rs va Hi Hva; rewrite <- (Hvw i) by done; symmetry; by apply entry_ext|done..].
  apply (vm_mem_change k _ l); [done| |done|intros q Hq; by apply (node_page_ok _ _ _ _ Hv)].
  destruct Hk as [Hfl Hnd Hpgs Hcs]. split; [|done|done|done]. eapply freelist_ext; [|exact Hfl].
  intros q x Hq Hx. symmetry. apply Hf. rewrite Forall_forall in Hpgs.
  apply (pages_apart q p x); [by apply Hpgs|done|by intros ->|unfold in_page, PGSIZE; lia].
Qed.

(** A new table, empty. *)
Lemma mem_new k q l ts rss own : mem k (q :: l) ts rss own ->
  mem (new_space q k) l (ts ++ [(q, root_only q)]) (rss ++ [[]]) own.
Proof.
  intros H. pose proof (mem_alloc _ _ _ _ _ _ H) as Ha.
  assert (Hq : q ∈ own ++ [q]) by (apply elem_of_app; right; by left).
  assert (Hf : mem (new_space q k) l ts rss (own ++ [q])).
  { apply (mem_write _ _ _ _ _ q (fun m => fill_bytes m q PGSIZE 0) Ha Hq). intros x Hx. by apply fill_bytes_out. }
  destruct Hf as [Hv Hvw Hl Hn Hp Hc]. destruct (Hp q Hq) as (Hok & Hql & Hqn & _).
  assert (Hlook : forall i r s, (ts ++ [(q, root_only q)]) !! i = Some (r, s) ->
    ts !! i = Some (r, s) \/ (i = length ts /\ r = q /\ s = root_only q)) by (intros i r s; by apply new_lookup).
  assert (Hno : forall i r s a, ts !! i = Some (r, s) -> s !! a <> Some q)
    by (intros i r s a Hi Ha'; apply Hqn; by exists i, r, s, a).
  assert (Hroot : table_inv (new_space q k) l q (root_only q)).
  { split; [apply Hv| |by intros a p [-> ->]%root_only_lookup]. apply root_only_shape; [done|]. intros x Hx. by apply fill_bytes_in. }
  apply NoDup_app in Hn as (Hn & Hnq & _).
  split; [split|..].
  - apply Hv.
  - intros i r s [Hi|(_ & -> & ->)]%Hlook; [by apply (vm_table _ _ _ Hv i)|done].
  - intros i j r1 t1 r2 t2 a b p [Hi|(-> & -> & ->)]%Hlook [Hj|(-> & -> & ->)]%Hlook Ha' Hb;
      [by apply (vm_apart _ _ _ Hv i j r1 t1 r2 t2 a b p)| | |done].
    + apply root_only_lookup in Hb as [-> ->]. by destruct (Hno i r1 t1 a Hi).
    + apply root_only_lookup in Ha' as [-> ->]. by destruct (Hno j r2 t2 b Hj).
  - intros i rs va Hi Hva. rewrite new_entry. apply lookup_app_Some in Hi as [Hi|[Hi Hrs]]; [by apply Hvw|].
    apply list_lookup_singleton_Some in Hrs as [_ <-]. unfold entry. by rewrite lookup_ge_None_2 by lia.
  - rewrite !length_app. cbn. lia.
  - done.
  - intros p Hp'. destruct (Hp p) as (Hpok & Hpl & Hpn & Hpc); [apply elem_of_app; by left|]. split_and!; [done|done| |done].
    intros (i & r & s & a & [Hi|(-> & -> & ->)]%Hlook & Ha').
    + apply Hpn. by exists i, r, s, a.
    + apply root_only_lookup in Ha' as [-> ->]. apply (Hnq q Hp'). by left.
  - done.
Qed.

(** ** Mapping a page *)

Definition page_region (va pa perm : Z) : region := Region va pa PGSIZE perm.

Section MapOne.
Context (k : kernel) (l : list Z) (ts : list space) (rss : list (list region)) (own : list Z).
Context (Hm : mem k l ts rss own) (i : nat) (root : Z) (t : tree) (rs : list region).
Context (Hi : ts !! i = Some (root, t)) (Hrs : rss !! i = Some rs).

(** What is not a table and not free keeps its contents. *)
Lemma map_own_ram k' l' t' ed p x : reaches root k l t ed k' l' t' -> p ∈ own -> in_page p x -> k_ram k' x = k_ram k x.
Proof.
  intros Hr Hp Hx. destruct (me_page _ _ _ _ _ Hm p Hp) as (Hok & Hpl & Hpn & _).
  apply (reach_ram k k' l l' ts i root t t' ed (me_mem _ _ _ _ _ Hm) Hi Hr). intros q Hq.
  assert (Hq' : page_ok q /\ q <> p).
  { destruct Hq as [Hq|[Hq _]].
    - split; [by apply (node_page_ok _ _ _ _ (me_mem _ _ _ _ _ Hm))|by intros ->].
    - pose proof (inv_pages _ _ (vm_kmem _ _ _ (me_mem _ _ _ _ _ Hm))) as HF. rewrite Forall_forall in HF.
      split; [by apply HF|by intros ->]. }
  destruct Hq' as [Hqok Hqp]. apply (pages_apart p q x); [done|done|by apply not_eq_sym|done].
Qed.

Lemma mem_map k' l' t' r : Forall (disjoint_from r) rs ->
  reaches root k l t (fun v => if covers r v then Some (region_pte r v) else None) k' l' t' ->
  mem k' l' (<[i := (root, t')]> ts) (<[i := rs ++ [r]]> rss) own.
Proof.
  intros Hd Hr. pose proof Hm as [Hv Hvw Hl Hn Hp Hc].
  assert (Hlt : (i < length rss)%nat) by (by eapply lookup_lt_Some).
  assert (Hcount : forall p, page_ok p -> count k' p = if decide (p ∈ l /\ p ∉ l') then 1 else count k p)
    by (intros p; by apply (reach_count k k' l l' ts root t t' _ Hv Hr)).
  split; [by eapply reach_mem| |by rewrite !length_insert|done| |].
  - intros j rs' va Hj Hva. rewrite (reach_entry k k' l l' ts i root t t' _ Hv Hi Hr) by done. case_decide as E.
    + subst j. rewrite list_lookup_insert_eq in Hj by done. injection Hj as <-. rewrite translates_snoc by done.
      rewrite (Hvw i rs) by done. by destruct (covers r va).
    + rewrite list_lookup_insert_ne in Hj by done. by apply Hvw.
  - intros p Hp'. destruct (Hp p Hp') as (Hok & Hpl & Hpn & Hpc). split_and!; [done| | |].
    + intros Hin. apply Hpl. destruct Hr as (tk & -> & _). apply elem_of_app. by right.
    + intros [?|[? _]]%(reach_node k k' l l' ts i root t t' _ Hv Hi Hr); done.
    + rewrite Hcount by done. rewrite decide_False; [done|]. by intros [? _].
  - intros p Hp'. rewrite Hcount by done. case_decide; [lia|]. by apply Hc.
Qed.
End MapOne.

(** One walk takes two pages at most. *)
Lemma walk_pages root k l t ed k' l' t' va : table_inv k l root t -> reaches root k l t ed k' l' t' ->
  nodes_for (eq va) t t' -> (length l <= length l' + 2)%nat.
Proof.
  intros Hi (tk & -> & Hi' & Hg) Hn. pose proof (grows_size _ _ _ _ _ _ _ _ Hi Hg) as Hs. rewrite length_app.
  assert (Hd : dom t' ⊆ dom t ∪ list_to_set [[PX 2 va]; [PX 2 va; PX 1 va]]).
  { intros a Ha. apply elem_of_union. apply elem_of_dom in Ha. destruct (Hn a Ha) as [H|(v & <- & H)]; [left; by apply elem_of_dom|right].
    apply elem_of_list_to_set. destruct H as [-> | ->]; set_solver. }
  apply subseteq_size in Hd. rewrite size_dom in Hd.
  rewrite size_union_alt, size_dom in Hd.
  assert (Hu : (size (list_to_set [[PX 2 va]; [PX 2 va; PX 1 va]] ∖ dom t : gset (list Z)) <= 2)%nat); [|lia].
  etransitivity; [apply subseteq_size, subseteq_difference_l; reflexivity|].
  cbn [list_to_set foldr]. rewrite union_empty_r_L, size_union_alt, !size_singleton.
  assert ((size ({[[PX 2 va; PX 1 va]]} ∖ {[[PX 2 va]]} : gset (list Z)) <= 1)%nat); [|lia].
  rewrite <- (size_singleton (C := gset (list Z)) [PX 2 va; PX 1 va]). apply subseteq_size. set_solver.
Qed.

(** Mapping a page, with three free pages, does not fail; the pages that are not tables keep
    their contents. *)
Lemma wp_map_one E l ts rss own i root t rs va pa perm w (Q : Z -> world -> Prop) :
  LkKmem ∉ k_held (w_k w) -> mem (w_k w) l ts rss own -> ts !! i = Some (root, t) -> rss !! i = Some rs ->
  upage va -> 0 <= pa -> pa + 2 * PGSIZE <= 2 ^ 56 -> 0 <= perm < 1024 ->
  Forall (disjoint_from (page_region va pa perm)) rs -> (2 < length l)%nat ->
  (forall w' l' t', only_mem (w_k w) (w_k w') -> w_env w' = w_env w -> (length l <= length l' + 2)%nat ->
    mem (w_k w') l' (<[i := (root, t')]> ts) (<[i := rs ++ [page_region va pa perm]]> rss) own ->
    (forall p x, p ∈ own -> in_page p x -> k_ram (w_k w') x = k_ram (w_k w) x) -> Q 0 w') ->
  wp E (mappages root va PGSIZE pa perm) Q w.
Proof.
  intros Hh Hm Hi Hrs Hva Hpa Hpe Hpm Hd Hl HQ. pose proof (vm_table _ _ _ (me_mem _ _ _ _ _ Hm) _ _ _ Hi) as Hti.
  pose proof Hva as [Hv0 Hvm]. pose proof (proj1 (upage_const va) Hva) as [Hvr _].
  assert (Ea : PGROUNDDOWN va = va) by (rewrite PGROUNDDOWN_eq by lia; zlia).
  assert (Eb : PGROUNDDOWN (va + PGSIZE - 1) = va) by (unfold PGSIZE; rewrite PGROUNDDOWN_eq by lia; zlia).
  assert (HM : MAXVA = 274877906944) by done. unfold PGSIZE in Hpe.
  eapply wp_mono; [apply (wp_mappages_nodes E l root t va PGSIZE pa perm w); try done; try (unfold PGSIZE; zlia)|].
  - rewrite Ea, Eb. intros v Hup Hr. assert (v = va) as -> by lia.
    assert (Hz : view (k_ram (w_k w)) t va = translates rs va).
    { rewrite <- (me_view _ _ _ _ _ Hm i rs va Hrs Hva). unfold entry. by rewrite Hi. }
    rewrite Hz, translates_out; [done|]. apply (Forall_impl _ _ _ Hd). unfold disjoint_from, covers, page_region, PGSIZE.
    cbn [rg_va rg_size]. intros s Hs. lia.
  - intros r w' (a & l' & t' & [Hr He] & Hnd & Hor).
    assert (Hnd' : nodes_for (eq va) t t').
    { apply (nodes_for_mono _ _ _ _) with (2 := Hnd). intros v [_ Hv]. rewrite Ea, Eb in Hv. lia. }
    pose proof (walk_pages _ _ _ _ _ _ _ _ _ Hti Hr Hnd') as Hlen.
    destruct Hor as [[-> ->]|(-> & _ & ->)]; [|cbn in Hlen; lia].
    rewrite Ea, Eb in Hr. pose proof Hr as (tk & _ & _ & Hg).
    apply (HQ w' l' t'); [apply (g_only _ _ _ _ _ _ Hg)|done|done| |].
    + by apply (mem_map (w_k w) l ts rss own Hm i root t rs).
    + intros p x Hp Hx. by apply (map_own_ram (w_k w) l ts rss own Hm i root t Hi (w_k w') l' t' _ p x Hr).
Qed.

(** ** The first user space *)

(** What [proc_pagetable] and [uvmfirst] map. *)
Definition first_regions (tf pg : Z) : list region := [
  page_region TRAMPOLINE trampoline (Z.lor PTE_R PTE_X);
  page_region TRAPFRAME tf (Z.lor PTE_R PTE_W);
  page_region 0 pg (Z.lor (Z.lor (Z.lor PTE_W PTE_R) PTE_X) PTE_U)].

Section First.
Context (k : kernel) (l : list Z) (kr ur : Z) (kt ut : tree) (krs : list region) (own : list Z) (tf pg : Z).
Context (Hm : mem k l [(kr, kt); (ur, ut)] [krs; first_regions tf pg] own) (Hpg : pg ∈ own) (Htf : tf ∈ own).

Let ts : list space := [(ur, ut)].

Lemma first_pages : page_ok pg /\ page_ok tf.
Proof. split; by apply (me_page _ _ _ _ _ Hm). Qed.

Lemma first_entry i va : upage va -> entry k ts i va = if decide (i = 0%nat) then translates (first_regions tf pg) va else 0.
Proof.
  intros Hva. case_decide as E; [subst i|by destruct i as [|i]].
  by rewrite <- (me_view _ _ _ _ _ Hm 1 (first_regions tf pg) va).
Qed.

(** The cases of an entry. *)
Lemma first_cases va : upage va -> let e := translates (first_regions tf pg) va in
  (va = 0 /\ e = pte_of pg 30) \/ (TRAPFRAME <= va /\ 0 <= e < 2 ^ 54 /\ has e PTE_U = false) \/ (va <> 0 /\ e = 0).
Proof.
  intros [Hv Hvm]. destruct first_pages as [Hp Ht]. pose proof layout_facts as (_ & Het & Htr & Htm).
  destruct Ht as [_ Ht]. pose proof layout_end as Hle. unfold PHYSTOP, KERNBASE in Ht, Hle.
  unfold first_regions, page_region. cbn [translates]. unfold covers, region_pte, PGSIZE. cbn [rg_va rg_pa rg_size rg_perm].
  change TRAMPOLINE with 274877902848. change TRAPFRAME with 274877898752. change MAXVA with 274877906944 in Hv.
  assert (Hflag : forall pa perm, 0 <= pa < 2 ^ 56 -> perm = 2 \/ perm = 6 \/ perm = 10 ->
    0 <= pte_of pa perm < 2 ^ 54 /\ has (pte_of pa perm) PTE_U = false).
  { intros pa perm Hpa Hpm. assert (0 <= perm < 1024) by lia. split; [by apply pte_of_range|].
    rewrite <- (has_flags _ PTE_U eq_refl), pte_of_flags by done. by destruct Hpm as [-> |[-> | ->]]. }
  destruct ((274877902848 <=? va) && _) eqn:E1; [|destruct ((274877898752 <=? va) && _) eqn:E2; [|destruct ((0 <=? va) && _) eqn:E3]].
  - right. left. split; [lia|]. apply Hflag; [lia|]. right. by right.
  - right. left. split; [lia|]. apply Hflag; [lia|]. right. by left.
  - left. assert (va = 0) as -> by zlia. split; [done|]. by rewrite Z.sub_0_r, Z.add_0_r.
  - right. right. split; [lia|done].
Qed.

Lemma first_page_entry : let e := pte_of pg 30 in
  0 <= e < 2 ^ 54 /\ has e PTE_V = true /\ has e PTE_U = true /\ PTE2PA e = pg.
Proof.
  destruct first_pages as [Hp _]. destruct (page_ok_facts pg Hp) as (_ & _ & Hpm & Hr & _). intros e.
  assert (Hr' : 0 <= pg < 2 ^ 56) by lia. split; [by apply pte_of_range|].
  rewrite <- (has_flags e PTE_V eq_refl), <- (has_flags e PTE_U eq_refl). unfold e. rewrite pte_of_flags by done.
  split_and!; [done|done|]. by apply pte_of_pa.
Qed.

Lemma first_maps i va p : maps k ts i va p <-> i = 0%nat /\ va = 0 /\ p = pg.
Proof.
  destruct first_page_entry as (_ & HV & _ & Hpa). split.
  - intros (Hva & Hlo & HVe & <-). rewrite first_entry in * by done. case_decide as E; [subst i|done].
    destruct (first_cases va Hva) as [[-> He]|[(Hhi & _)|[_ He]]]; [|lia|by rewrite He in HVe].
    rewrite He. by rewrite Hpa.
  - intros (-> & -> & ->). assert (H0 : upage 0) by by vm_compute. split; [done|]. split; [by vm_compute|].
    rewrite first_entry by done. cbn [decide]. rewrite decide_True by done.
    destruct (first_cases 0 H0) as [[_ ->]|[(Hhi & _)|[Hn _]]]; [by split| |done]. exfalso. by vm_compute in Hhi.
Qed.

Lemma first_user_inv : vm_inv hold_none k l ts.
Proof.
  pose proof Hm as [Hv _ _ _ Hpage Hc]. destruct first_page_entry as (Hr & HV & HU & Hpa). destruct first_pages as [Hp _].
  split.
  - split; [apply Hv|intros [|i] r s [= <- <-]; by apply (vm_table _ _ _ Hv 1)|].
    intros [|i] [|j] r1 t1 r2 t2 a b p [=] [=] _ _; done.
  - intros i va Hva. rewrite first_entry by done. case_decide; [|lia].
    destruct (first_cases va Hva) as [[_ ->]|[(_ & ? & _)|[_ ->]]]; [done|done|lia].
  - intros i va Hva. rewrite first_entry by done. case_decide; [|done].
    destruct (first_cases va Hva) as [[-> ->]|[(_ & _ & ->)|[_ ->]]]; [|done|done]. rewrite Hpa. by split.
  - intros p (i & r & s & a & Hi & Ha). split; [done|]. intros j vb (-> & -> & ->)%first_maps.
    destruct (Hpage pg Hpg) as (_ & _ & Hn & _). apply Hn. destruct i as [|i]; [|done]. injection Hi as <- <-.
    by exists 1%nat, ur, ut, a.
  - intros i va j vb p _ (-> & -> & _)%first_maps (-> & -> & _)%first_maps Hne. done.
  - intros p Hpok. split; [done|]. destruct (decide (p = pg)) as [->|Hne].
    + exists {[(0%nat, 0)]}. destruct (Hpage pg Hpg) as (_ & _ & _ & ->). rewrite size_singleton. split; [|done].
      intros i va. rewrite first_maps, elem_of_singleton. naive_solver.
    + exists ∅. rewrite size_empty. split; [|by apply Hc]. intros i va. rewrite first_maps. set_solver.
Qed.

Lemma first_user_byte va : 0 <= va < PGSIZE -> user_byte k ts 0 va = Some (u8 (k_ram k (pg + va))).
Proof.
  intros Hva. unfold PGSIZE in Hva. destruct first_page_entry as (_ & HV & HU & Hpa). unfold user_byte.
  assert (E0 : PGROUNDDOWN va = 0) by (rewrite PGROUNDDOWN_eq by lia; zlia). rewrite E0.
  assert (H0 : upage 0) by by vm_compute. rewrite first_entry by done. rewrite decide_True by done.
  destruct (first_cases 0 H0) as [[_ ->]|[(Hhi & _)|[Hn _]]]; [|by vm_compute in Hhi|done].
  rewrite HV, HU, Hpa. cbn [andb]. by rewrite Z.mod_small by (unfold PGSIZE; lia).
Qed.
End First.
End Spaces.
