(* ===== verification/Copy.v ===== *)
(** Copying between user memory and the kernel: [walkaddr], [copyout], [copyin] and
    [copyinstr] of kernel/vm.c on the address spaces of file Cow. *)

From S2P Require Export Uvm Uvmcopy.

Section Copy.
Context {L : Layout} {LO : LayoutOk L}.

(** The invariant of the address spaces is about the memory and the allocator only. *)
Lemma vm_inv_same hold k k' l ts : k_ram k' = k_ram k -> k_kmem k' = k_kmem k ->
  vm_inv hold k l ts -> vm_inv hold k' l ts.
Proof.
  destruct k, k'; cbn. intros -> -> [[[H1 H2 H3 H4] Ht Ha] Hr Hu Hn Hs Hc].
  split; [split; [by split| |done]|done..].
  intros i root t Hi. destruct (Ht i root t Hi) as [[? ? ? ?] ? ?]. split; [by split|done..].
Qed.

(** The physical address user code of space [i] reaches at [va]. *)
Definition user_page (k : kernel) (ts : list space) (i : nat) (va : Z) : Z :=
  let e := entry k ts i va in
  if has e PTE_V && has e PTE_U then PTE2PA e else 0.

Lemma walkaddr_eq hold l ts i root t va w : vm_inv hold (w_k w) l ts -> ts !! i = Some (root, t) ->
  0 <= va -> walkaddr root va w = Ok (if va <? MAXVA then user_page (w_k w) ts i va else 0) w.
Proof.
  intros Hv Hi Hva. unfold walkaddr. destruct (Z.geb_spec va MAXVA), (Z.ltb_spec va MAXVA); try lia; [done|].
  unfold user_page. destruct (walk_entry hold _ l ts i root t va w eq_refl Hv Hi ltac:(lia))
    as [(a & Ew & El & Hla & Ee)|(Ew & El & Ee)]; unfold bind at 1; rewrite Ew, Ee.
  - destruct (a =? 0) eqn:Ea; [lia|]. unfold load_pte, bind, getk, gets.
    destruct (has _ PTE_V); [|done]. by destruct (has _ PTE_U).
  - by rewrite has_0.
Qed.

(** Bytes of user memory as a list write them. *)
Definition written (k k' : kernel) (ts : list space) (i : nat) (dst : Z) (bs : list Z) : Prop :=
  forall j va, 0 <= va < MAXVA -> user_byte k' ts j va =
    if bool_decide (j = i) && (dst <=? va) && (va <? dst + Z.of_nat (length bs))
    then bs !! Z.to_nat (va - dst) else user_byte k ts j va.

Section WritePage.
Context (hold : Z -> Z) (k : kernel) (l : list Z) (ts : list space) (i : nat) (va p off : Z)
  (bs : list Z).
Let k' := k <| k_ram ::= fun m => store_bytes m (p + off) bs |>.
Context (Hv : vm_inv hold k l ts) (Hva : upage va)
  (HV : has (entry k ts i va) PTE_V = true) (HU : has (entry k ts i va) PTE_U = true)
  (Hp : PTE2PA (entry k ts i va) = p)
  (Hpriv : forall j vb, maps k ts j vb p -> j = i /\ vb = va)
  (Hoff : 0 <= off) (Hlen : off + Z.of_nat (length bs) <= PGSIZE)
  (Hbs : Forall (fun b => 0 <= b < 256) bs).

Lemma write_page : vm_inv hold k' l ts /\ written k k' ts i (va + off) bs /\ same_entries k ts k' ts.
Proof.
  destruct (vi_user _ _ _ _ Hv i va Hva HV HU) as [Hpok Hlo]. rewrite Hp in Hpok.
  assert (Hm : maps k ts i va p) by done.
  destruct (inv_ram hold k l ts p (fun m => store_bytes m (p + off) bs) Hv Hpok) as [Hv' He].
  - apply (vi_not_free hold k _ ts); eauto.
  - by eapply vi_not_node.
  - intros x Hx. apply store_bytes_out. unfold in_page in Hx. lia.
  - split; [done|]. split; [|done]. intros j vb Hvb. destruct (round_upage vb Hvb) as (Hup & Hr & Hvo).
    unfold PGSIZE in *.
    destruct (decide (j = i /\ PGROUNDDOWN vb = va)) as [[-> Evb]|Hne].
    + unfold user_byte. cbv zeta. rewrite !He, Evb, HV, HU, Hp by done. cbn [andb].
      rewrite bool_decide_true by done. cbn [andb]. unfold k'. cbn. unfold PGSIZE.
      destruct ((va + off <=? vb) && (vb <? va + off + Z.of_nat (length bs))) eqn:Eb.
      * rewrite store_bytes_in by lia. replace (p + vb mod 4096 - (p + off)) with (vb - (va + off)) by lia.
        destruct (lookup_lt_is_Some_2 bs (Z.to_nat (vb - (va + off)))) as [b Hb]; [lia|].
        rewrite Hb, (nth_lookup_Some _ _ _ _ Hb), u8_small; [done|].
        by apply (Forall_lookup_1 _ _ _ _ Hbs Hb).
      * by rewrite store_bytes_out by lia.
    + rewrite (user_byte_keep hold k l ts k' ts j vb Hv Hvb He).
      * destruct (bool_decide (j = i)) eqn:Ej; cbn [andb]; [|done]. apply bool_decide_eq_true in Ej.
        destruct (_ && _) eqn:Eb; [|done]. exfalso. apply Hne. split; [done|].
        destruct Hva as [? ?], Hup. zlia.
      * intros q x Hq Hqok Hx. assert (q <> p) by (intros ->; by apply Hne, Hpriv).
        unfold k'. cbn. apply store_bytes_out. destruct (page_disjoint q p Hqok Hpok); [done|..];
          unfold in_page, PGSIZE in *; lia.
Qed.
End WritePage.

Lemma written_nil k ts i dst : written k k ts i dst [].
Proof.
  intros j va _. destruct (bool_decide _); cbn [andb length]; [|done].
  rewrite Z.add_0_r. destruct ((dst <=? va) && (va <? dst)) eqn:E; [lia|done].
Qed.

Lemma written_same k k' k2 ts i dst bs :
  (forall j va, 0 <= va < MAXVA -> user_byte k' ts j va = user_byte k ts j va) ->
  written k' k2 ts i dst bs -> written k k2 ts i dst bs.
Proof. intros H Hw j va Hva. rewrite Hw by done. by rewrite H. Qed.

Lemma written_app k k1 k2 ts i dst bs1 bs2 : written k k1 ts i dst bs1 ->
  written k1 k2 ts i (dst + Z.of_nat (length bs1)) bs2 -> written k k2 ts i dst (bs1 ++ bs2).
Proof.
  intros H1 H2 j va Hva. rewrite H2, H1 by done. rewrite length_app, Nat2Z.inj_add.
  destruct (bool_decide (j = i)); cbn [andb]; [|done].
  destruct ((dst + Z.of_nat (length bs1) <=? va) && _) eqn:E2, ((dst <=? va) && (va <? dst + Z.of_nat (length bs1))) eqn:E1,
    ((dst <=? va) && (va <? dst + (Z.of_nat (length bs1) + Z.of_nat (length bs2)))) eqn:E3; try done; try (exfalso; blia).
  - rewrite lookup_app_r by blia. f_equal. blia.
  - by rewrite lookup_app_l by blia.
Qed.

Lemma not_shared hold k l ts i va : vm_inv hold k l ts -> upage va ->
  has (entry k ts i va) PTE_V = true -> has (entry k ts i va) PTE_U = true ->
  has (entry k ts i va) PTE_COW = false ->
  forall j vb, maps k ts j vb (PTE2PA (entry k ts i va)) -> j = i /\ vb = va.
Proof.
  intros Hv Hva HV HU HC j vb Hm. destruct (vi_user _ _ _ _ Hv i va Hva HV HU) as [Hp Hlo].
  destruct (decide ((j, vb) = (i, va))) as [E|Hne]; [by simplify_eq|].
  assert (Hmi : maps k ts i va (PTE2PA (entry k ts i va))) by done.
  destruct (vi_share _ _ _ _ Hv i va j vb _ Hp Hmi Hm) as [HC' _]; [congruence|congruence].
Qed.

(** The pages a loop over user memory still has to visit. *)
Definition pages_left (off : Z) (n : Z) : Z := if n =? 0 then 0 else (off + n - 1) / 4096 + 1.

Lemma pages_left_fuel off s : (Z.to_nat (pages_left (off mod 4096) (Z.of_nat (length s)))
  < length (A:=Z) s / Z.to_nat PGSIZE + 3)%nat.
Proof.
  change (Z.to_nat PGSIZE) with 4096%nat. generalize (length s). intros n. unfold pages_left.
  assert (Hn : Z.of_nat (n / 4096 + 3) = Z.of_nat n / 4096 + 3) by (by rewrite Nat2Z.inj_add, Nat2Z.inj_div).
  destruct (Z.of_nat n =? 0); [lia|]. apply Nat2Z.inj_lt. rewrite Hn. zlia.
Qed.

Lemma pages_left_next off va n c : 0 <= off < 4096 -> va mod 4096 = 0 -> 0 < n ->
  c = Z.min (4096 - off) n ->
  (Z.to_nat (pages_left ((va + 4096) mod 4096) (n - c)) < Z.to_nat (pages_left off n))%nat.
Proof.
  intros Ho Hvm Hn ->. unfold pages_left. destruct (n =? 0) eqn:E1; [lia|].
  destruct (n - Z.min (4096 - off) n =? 0) eqn:E2; zlia.
Qed.

Lemma pages_left_dec d va (s : list Z) n : 0 <= d - va < 4096 ->
  Z.of_nat n = Z.min (4096 - (d - va)) (Z.of_nat (length s)) -> (0 < length s)%nat ->
  d mod 4096 = d - va -> va mod 4096 = 0 ->
  (Z.to_nat (pages_left ((va + 4096) mod 4096) (Z.of_nat (length (drop n s))))
   < Z.to_nat (pages_left (d mod 4096) (Z.of_nat (length s))))%nat.
Proof.
  intros Hdv Hn Hs -> Hvm. rewrite length_drop, Nat2Z.inj_sub, Hn by lia.
  apply pages_left_next; lia.
Qed.

Section Copyout.
Context (hold : Z -> Z) (l : list Z) (ts : list space) (i : nat) (root : Z) (t : tree)
  (dstva : Z) (src : list Z) (w : world).
Context (Hheld : LkKmem ∉ k_held (w_k w)) (Hv : vm_inv hold (w_k w) l ts)
  (Hi : ts !! i = Some (root, t)) (Hd : 0 <= dstva < 2 ^ 64)
  (Hsrc : Forall (fun b => 0 <= b < 256) src).

(** The pages of the first [m] bytes are no longer copy-on-write. *)
Definition resolved (k' : kernel) (m : nat) : Prop :=
  forall b, 0 <= b < Z.of_nat m -> has (entry k' ts i (PGROUNDDOWN (dstva + b))) PTE_COW = false.

(** The first [m] bytes have been written. *)
Definition copied_out (m : nat) (w' : world) (l' : list Z) : Prop :=
  w_env w' = w_env w /\ only_mem (w_k w) (w_k w') /\ (m <= length src)%nat /\
  (m <> 0%nat -> dstva + Z.of_nat m <= MAXVA) /\
  vm_inv hold (w_k w') l' ts /\ written (w_k w) (w_k w') ts i dstva (take m src) /\ resolved (w_k w') m.

(** Why the next byte cannot be written: its page is not user memory of the process, or is copy-on-write
    and there is no page for the copy. *)
Definition stuck (m : nat) (w' : world) (l' : list Z) : Prop :=
  dstva + Z.of_nat m >= MAXVA \/ user_byte (w_k w) ts i (dstva + Z.of_nat m) = None \/
  (l' = [] /\ has (entry (w_k w') ts i (PGROUNDDOWN (dstva + Z.of_nat m))) PTE_COW = true).

(** [copyout]'s page: after a fault where the entry is copy-on-write, the page is private. *)
Lemma wp_break_cow E k l1 va w1 (Q : bool -> world -> Prop) : w_k w1 = k ->
  LkKmem ∉ k_held k -> vm_inv hold k l1 ts -> upage va ->
  let e := entry k ts i va in
  has e PTE_V = true -> has e PTE_U = true ->
  (forall w2 l2, w_env w2 = w_env w1 -> only_mem k (w_k w2) -> vm_inv hold (w_k w2) l2 ts ->
    has (entry (w_k w2) ts i va) PTE_V = true -> has (entry (w_k w2) ts i va) PTE_U = true ->
    (forall j vb, maps (w_k w2) ts j vb (PTE2PA (entry (w_k w2) ts i va)) -> j = i /\ vb = va) ->
    (forall j vb, 0 <= vb < MAXVA -> user_byte (w_k w2) ts j vb = user_byte k ts j vb) ->
    has (entry (w_k w2) ts i va) PTE_COW = false ->
    (forall vb, upage vb -> vb <> va -> entry (w_k w2) ts i vb = entry k ts i vb) -> Q false w2) ->
  (l1 = [] -> has e PTE_COW = true -> Q true w1) ->
  wp E (if has (PTE_FLAGS e) PTE_COW
        then r <- cow_page_fault root va ;; ret (negb (r =? 0)) else ret false) Q w1.
Proof.
  intros <- Hh1 Hv1 Hva e HV HU Q0 Q1. rewrite has_flags by done.
  destruct (has e PTE_COW) eqn:HC.
  - kstep. eapply wp_mono; [apply wp_total, (wp_cow_page_fault hold l1 ts i root t va w1); try done|].
    fold e. rewrite HV, HU, HC. cbn [andb]. intros r w2 H. case_bool_decide as El; cbn [negb] in H.
    + destruct H as [-> ->]. apply wp_ret. cbn [Z.eqb negb]. by apply Q1.
    + destruct H as (-> & He & Ho & l2 & Hv2 & (HV2 & HU2 & _ & HC2 & Hpr) & Hne & Hub & _).
      apply wp_ret. cbn [Z.eqb negb]. eapply Q0; try done. intros vb Hvb Hn. apply Hne; congruence.
  - apply wp_ret, (Q0 w1 l1); try done; [apply only_mem_refl|].
    by apply (not_shared hold (w_k w1) l1).
Qed.

Lemma wp_copyout E (Q : Z -> world -> Prop) :
  (forall w' l', copied_out (length src) w' l' -> Q 0 w') ->
  (forall m w' l', copied_out m w' l' -> (m < length src)%nat -> stuck m w' l' -> Q (-1) w') ->
  wp E (copyout root dstva src) Q w.
Proof.
  intros Q0 Q1. assert (HM : MAXVA = 274877906944) by done. unfold copyout.
  apply (wp_loop _ (fun '(d, s) w' => exists m l', copied_out m w' l' /\ s = drop m src /\ 0 <= d < 2 ^ 64 /\
      (s <> [] -> d = dstva + Z.of_nat m))
    (fun '(d, s) _ => Z.to_nat (pages_left (d mod 4096) (Z.of_nat (length s))))).
  - exists 0%nat, l. split; [|split; [done|split; [lia|intros; lia]]].
    split_and!; try done; [apply only_mem_refl|lia|apply written_nil|]. intros b Hb. lia.
  - by apply pages_left_fuel.
  - intros [d s] w1 (m & l1 & Hc & Hs & Hd1 & Hds). cbv zeta.
    destruct (Z.of_nat (length s) >? 0) eqn:El; cycle 1.
    { assert (s = []) as -> by (destruct s; [done|cbn [length] in El; blia]).
      apply wp_ret, (Q0 _ l1). assert (m = length src) as ->; [|done].
      destruct Hc as (_ & _ & Hm & _). apply (f_equal length) in Hs. rewrite length_drop in Hs.
      cbn [length] in Hs. lia. }
    assert (Hsne : s <> []) by (intros ->; cbn [length] in El; blia). specialize (Hds Hsne).
    assert (Hml : length s = (length src - m)%nat) by (by rewrite Hs, length_drop).
    assert (Hfail : stuck m w1 l1 -> Q (-1) w1) by (intros; apply (Q1 m w1 l1); [done|lia|done]).
    destruct Hc as (He1 & Ho1 & Hm & Hmx & Hv1 & Hw1 & Hr1). unfold stuck in Hfail. rewrite <- Hds in Hfail.
    destruct (PGROUNDDOWN d >=? MAXVA) eqn:Emax.
    { apply wp_ret, Hfail. left. rewrite PGROUNDDOWN_eq in Emax by lia. zlia. }
    rewrite PGROUNDDOWN_eq in Emax by lia. assert (Hdm : d < MAXVA) by (rewrite HM in *; zlia).
    destruct (round_upage d ltac:(lia)) as (Hup & Eva & _). set (va := PGROUNDDOWN d) in *.
    assert (Hnone : user_byte (w_k w1) ts i d = None -> Q (-1) w1).
    { intros Hno. apply Hfail. right. left. rewrite <- Hno, Hw1 by lia. rewrite bool_decide_true by done. cbn [andb].
      rewrite length_take, Nat.min_l by lia. by rewrite (proj2 (Z.ltb_ge d _)), andb_false_r by lia. }
    unfold user_byte in Hnone. cbv zeta in Hnone. fold va in Hnone.
    kstep. destruct (walk_entry hold _ l1 ts i root t va w1 eq_refl Hv1 Hi (upage_px _ Hup))
      as [(a & Ew & Ea & Ha & Ee)|(Ew & Ea & Ee)]; (eapply wp_Ok; [exact Ew|]).
    2: { apply wp_ret, Hnone. by rewrite Ee, has_0. }
    destruct (a =? 0) eqn:Ea0; [lia|]. unfold load_pte. do 2 kstep. rewrite <- Ee.
    destruct (has (entry (w_k w1) ts i va) PTE_U) eqn:HU; [|apply wp_ret, Hnone; by rewrite andb_false_r].
    destruct (has (entry (w_k w1) ts i va) PTE_V) eqn:HV; [|by apply wp_ret, Hnone]. clear Hnone. cbn [negb orb].
    kstep. eapply (wp_break_cow E (w_k w1) l1 va w1); try done.
    + by rewrite (only_mem_held _ _ Ho1).
    + intros w2 l2 He2 Ho2 Hv2 HV2 HU2 Hpr Hub HC2 Hkeep.
      cbn [negb]. kstep. eapply wp_Ok; [apply (walkaddr_eq hold l2 ts i root t); [done|done|apply (upage_px _ Hup)]|].
      destruct (vi_user _ _ _ _ Hv2 i va Hup HV2 HU2) as [Hpok Hlo].
      destruct (page_ok_facts _ Hpok) as (_ & _ & _ & Hpr0 & _).
      rewrite (proj2 (Z.ltb_lt va MAXVA)) by lia. unfold user_page. rewrite HV2, HU2. cbn [andb].
      set (p := PTE2PA (entry (w_k w2) ts i va)) in *. destruct (p =? 0) eqn:Ep; [lia|].
      set (n := Z.to_nat _). do 2 kstep. apply wp_ret.
      assert (Hoff : 0 <= d - va < 4096) by (subst va; zlia).
      assert (Hn : Z.of_nat n = Z.min (4096 - (d - va)) (Z.of_nat (length s)))
        by (subst n; unfold PGSIZE; lia).
      assert (Hlt : length (take n s) = n) by (rewrite length_take; lia).
      destruct (write_page hold (w_k w2) l2 ts i va p (d - va) (take n s)) as (Hv3 & Hw3 & He3); try done.
      * lia.
      * rewrite Hlt. unfold PGSIZE. lia.
      * rewrite Hs. by apply Forall_take, Forall_drop.
      * rewrite u64_small by (unfold PGSIZE; lia). unfold PGSIZE.
        assert (Hnl : (n <= length s)%nat) by lia. assert (Hvr : 0 <= va < MAXVA) by apply Hup.
        assert (Hve : va + 4096 <= MAXVA) by (rewrite HM in *; destruct Hup as [_ Hvm]; clear -Hvr Hvm; zlia).
        split; cycle 1.
        { apply pages_left_dec; [done|done|clear -El; blia|subst va; lia|apply Hup]. }
        exists (m + n)%nat, l2. split; [|split; [by rewrite Hs, drop_drop|split; [lia|]]].
        -- split; [cbn; congruence|]. split; [|split; [lia|split; [lia|]]].
           { eapply only_mem_trans; [exact Ho1|]. eapply only_mem_trans; [exact Ho2|].
             apply upd_only_mem. }
           split; [done|]. split.
           { rewrite <- (take_take_drop src m n). eapply written_app; [exact Hw1|].
             eapply written_same; [exact Hub|].
             rewrite length_take, Nat.min_l by lia. rewrite <- Hds, <- Hs.
             replace d with (va + (d - va)) at 1 by lia. exact Hw3. }
           intros b Hb. destruct (round_upage (dstva + b)) as (Hupb & Eb & _); [lia|]. rewrite He3 by done.
           destruct (decide (PGROUNDDOWN (dstva + b) = va)) as [->|Hnb]; [done|]. rewrite Hkeep by done.
           apply Hr1. split; [lia|]. destruct (decide (b < Z.of_nat m)); [done|]. exfalso. apply Hnb. rewrite Eb. clear -Hb n0 Hn Hoff Hds Hup.
           destruct Hup as [_ Hvm]. zlia.
        -- intros Hne. assert (n < length s)%nat.
           { destruct (decide (n < length s)%nat); [done|]. exfalso. apply Hne.
             apply nil_length_inv. rewrite length_drop. lia. }
           lia.
    + intros El1 HC. cbn [negb]. apply wp_ret, Hfail. right. right. by split.
Qed.
End Copyout.

(** ** [copyin] *)

(** [bs] are the bytes user code reads from [src] on. *)
Definition reads (k : kernel) (ts : list space) (i : nat) (src : Z) (bs : list Z) : Prop :=
  forall n, (n < length bs)%nat -> user_byte k ts i (src + Z.of_nat n) = bs !! n.

Lemma reads_app k ts i src bs1 bs2 : reads k ts i src bs1 ->
  reads k ts i (src + Z.of_nat (length bs1)) bs2 -> reads k ts i src (bs1 ++ bs2).
Proof.
  intros H1 H2 n Hn. rewrite length_app in Hn. destruct (decide (n < length bs1)%nat).
  - rewrite lookup_app_l by done. by apply H1.
  - rewrite lookup_app_r by lia. rewrite <- H2 by lia. f_equal. lia.
Qed.

(** Part of one page. *)
Lemma reads_page hold k l ts i va p off n : vm_inv hold k l ts -> upage va ->
  user_page k ts i va = p -> p <> 0 -> 0 <= off -> off + Z.of_nat n <= PGSIZE ->
  reads k ts i (va + off) (load_bytes (k_ram k) (p + off) n).
Proof.
  intros Hv Hva Hp Hp0 Hoff Hn j Hj. rewrite length_load_bytes in Hj. unfold PGSIZE in *.
  assert (HM : MAXVA = 274877906944) by done. destruct Hva as [Hva0 Hvam].
  assert (Hb : va + 4096 <= MAXVA) by (rewrite HM in *; clear -Hva0 Hvam; zlia).
  destruct (round_upage (va + off + Z.of_nat j)) as (_ & Hr & _); [lia|].
  assert (Hmod : (va + off + Z.of_nat j) mod 4096 = off + Z.of_nat j) by zlia.
  unfold user_byte. cbv zeta. rewrite Hr, Hmod. unfold PGSIZE.
  replace (va + off + Z.of_nat j - (off + Z.of_nat j)) with va by lia.
  rewrite Hmod. unfold user_page in Hp. destruct (_ && _); [|congruence]. subst p.
  unfold load_bytes. rewrite list_lookup_fmap, lookup_seq_lt by done. cbn. do 3 f_equal. lia.
Qed.

Section Copyin.
Context (hold : Z -> Z) (l : list Z) (ts : list space) (i : nat) (root : Z) (t : tree)
  (srcva len : Z) (w : world).
Context (Hv : vm_inv hold (w_k w) l ts) (Hi : ts !! i = Some (root, t))
  (Hs : 0 <= srcva < 2 ^ 64) (Hlen : 0 <= len < 2 ^ 64).

Lemma wp_copyin E (Q : Z * list Z -> world -> Prop) :
  (forall bs, Z.of_nat (length bs) = len -> reads (w_k w) ts i srcva bs -> (0 < len -> srcva + len <= MAXVA) -> Q (0, bs) w) ->
  (forall bs, Z.of_nat (length bs) < len -> reads (w_k w) ts i srcva bs ->
     (srcva + Z.of_nat (length bs) >= MAXVA \/ user_byte (w_k w) ts i (srcva + Z.of_nat (length bs)) = None) ->
     Q (-1, bs) w) ->
  wp E (copyin root srcva len) Q w.
Proof.
  intros Q0 Q1. assert (HM : MAXVA = 274877906944) by done. unfold copyin.
  apply (wp_loop _ (fun '(s, n, bs) w' => w' = w /\ 0 <= s < 2 ^ 64 /\ 0 <= n /\
      Z.of_nat (length bs) + n = len /\ reads (w_k w) ts i srcva bs /\
      (bs <> [] -> srcva + Z.of_nat (length bs) <= MAXVA) /\
      (0 < n -> s = srcva + Z.of_nat (length bs)))
    (fun '(s, n, _) _ => Z.to_nat (pages_left (s mod 4096) n))).
  - split_and!; try done; try lia; [intros n Hn; cbn in Hn; lia|]. cbn. lia.
  - unfold pages_left, PGSIZE. destruct (len =? 0); zlia.
  - intros [[s n] bs] w1 (-> & Hsr & Hn & Hlb & Hrd & Hmax & Hsn).
    destruct (n >? 0) eqn:En; cycle 1.
    { apply wp_ret, Q0; [lia|done|]. intros Hpos. rewrite <- (Z.add_0_r (Z.of_nat _)) in Hlb. replace len with (Z.of_nat (length bs)) by lia. apply Hmax.
      intros ->. cbn in Hlb. lia. }
    specialize (Hsn ltac:(lia)). cbv zeta. rewrite PGROUNDDOWN_eq by lia.
    set (va := s - s mod 4096) in *. assert (Hva : 0 <= va) by (subst va; zlia).
    kstep. eapply wp_Ok; [by apply (walkaddr_eq hold l ts i root t)|].
    destruct (Z.ltb_spec va MAXVA) as [Hlt|Hge]; cycle 1.
    { apply wp_ret. apply Q1; [lia|done|]. left. subst va. rewrite HM in *. zlia. }
    assert (Hup : upage va) by (subst va; split; zlia).
    destruct (user_page (w_k w) ts i va =? 0) eqn:E0.
    { apply wp_ret. apply Q1; [lia|done|]. right. rewrite <- Hsn.
      destruct (round_upage s) as (_ & Hr & _); [subst va; zlia|]. unfold user_byte. cbv zeta.
      rewrite Hr. fold va. unfold user_page in E0. destruct (_ && _) eqn:Eb; [|done].
      apply andb_true_iff in Eb as [EV EU].
      destruct (page_ok_facts _ (proj1 (vi_user _ _ _ _ Hv i va Hup EV EU))). lia. }
    set (c := Z.min (PGSIZE - (s - va)) n). do 3 kstep.
    assert (Hoff : 0 <= s - va < 4096) by (subst va; zlia). unfold PGSIZE in c.
    rewrite u64_small by (unfold PGSIZE; lia). unfold PGSIZE.
    assert (Hc : Z.of_nat (Z.to_nat c) = c) by lia.
    split.
    + split_and!; try lia; [done|rewrite length_app, length_load_bytes; lia| | |].
      * apply reads_app; [done|]. rewrite <- Hsn. replace s with (va + (s - va)) at 1 by lia.
        eapply reads_page; [done|done|done|lia|lia|unfold PGSIZE; lia].
      * intros _. rewrite length_app, length_load_bytes, Nat2Z.inj_add, Hc. assert (va + 4096 <= MAXVA); [|lia].
        destruct Hup as [Hva0 Hvam]. rewrite HM in *. clear -Hva0 Hvam. zlia.
      * intros Hpos. rewrite length_app, length_load_bytes. lia.
    + apply (pages_left_next (s mod 4096) va n c); [zlia|by destruct Hup|lia|].
      unfold c. do 2 f_equal. subst va. lia.
Qed.
End Copyin.

(** * Theorems *)

(** C10. [copyout] always returns, whatever the address.  It writes a prefix of the
    source bytes at [dstva] of the process's memory and nothing else changes in any address space: no
    other process, whether it shares the page copy-on-write or not, sees a different byte, and the pages written
    are copy-on-write no longer.  It returns 0 when it has written all; otherwise -1, and the next byte is
    at an address the process cannot use - beyond the address space or in no page of its own -, or in a
    copy-on-write page while the free list is empty. *)
Theorem copyout_correct hold l ts i root t dstva src w :
  LkKmem ∉ k_held (w_k w) -> vm_inv hold (w_k w) l ts -> ts !! i = Some (root, t) ->
  0 <= dstva < 2 ^ 64 -> Forall (fun b => 0 <= b < 256) src ->
  wp total (copyout root dstva src) (fun r w' => exists m l',
    ((r = 0 /\ m = length src) \/
     (r = -1 /\ (m < length src)%nat /\ (let next := dstva + Z.of_nat m in
       next >= MAXVA \/ user_byte (w_k w) ts i next = None \/
       (l' = [] /\ has (entry (w_k w') ts i (PGROUNDDOWN next)) PTE_COW = true)))) /\
    w_env w' = w_env w /\ only_mem (w_k w) (w_k w') /\ vm_inv hold (w_k w') l' ts /\
    written (w_k w) (w_k w') ts i dstva (take m src) /\
    (forall b, 0 <= b < Z.of_nat m -> has (entry (w_k w') ts i (PGROUNDDOWN (dstva + b))) PTE_COW = false)) w.
Proof.
  intros Hh Hv Hi Hd Hs. apply (wp_copyout hold l ts i root t dstva src w Hh Hv Hi Hd Hs).
  - intros w' l' (He & Ho & _ & _ & Hv' & Hw & Hr). exists (length src), l'. split_and!; try done. by left.
  - intros m w' l' (He & Ho & _ & _ & Hv' & Hw & Hr) Hm Hst. exists m, l'. split_and!; try done. by right.
Qed.

(** [copyin] always returns and changes nothing.  It returns 0 with exactly the
    bytes user code reads at [srcva], or -1 when the byte after those it has copied is
    one user code cannot read. *)
Theorem copyin_correct hold l ts i root t srcva len w :
  vm_inv hold (w_k w) l ts -> ts !! i = Some (root, t) -> 0 <= srcva < 2 ^ 64 -> 0 <= len < 2 ^ 64 ->
  wp total (copyin root srcva len) (fun '(r, bs) w' => w' = w /\ reads (w_k w) ts i srcva bs /\
    ((r = 0 /\ Z.of_nat (length bs) = len) \/
     (r = -1 /\ Z.of_nat (length bs) < len /\
      (srcva + Z.of_nat (length bs) >= MAXVA \/
       user_byte (w_k w) ts i (srcva + Z.of_nat (length bs)) = None)))) w.
Proof.
  intros Hv Hi Hs Hl. apply (wp_copyin hold l ts i root t srcva len w Hv Hi Hs Hl).
  - intros bs Hb Hr _. split_and!; [done|done|by left].
  - intros bs Hb Hr Hf. split_and!; [done|done|by right].
Qed.

(** The memory after a fork that returned [r]: the child [n] has the parent's bytes, or none. *)
Definition forked_byte (k : kernel) (ts : list space) (o n : nat) (sz r : Z) (j : nat) (va : Z) : option Z :=
  if decide (j = n /\ va < sz) then if r =? 0 then user_byte k ts o va else None else user_byte k ts j va.

(** C1. After a fork, what the kernel writes into the memory of the parent or of the child is seen by that
    process only.  Whichever of the two [copyout] writes to, that process reads the bytes written, as many
    as were; and at every other address, and in every other process, the byte is the one
    of before the write, although the tables of parent and child point to the same pages until
    then: the child goes on reading the parent's bytes of the time of the fork, the parent its own. *)
Theorem fork_isolation hold l ts o n old new told tnew sz who root dstva src w :
  LkKmem ∉ k_held (w_k w) -> vm_inv hold (w_k w) l ts ->
  ts !! o = Some (old, told) -> ts !! n = Some (new, tnew) -> o <> n -> 0 <= sz <= TRAPFRAME ->
  (forall v, upage v -> v < sz ->
    has (entry (w_k w) ts o v) PTE_V = true /\ page_ok (PTE2PA (entry (w_k w) ts o v))) ->
  (forall v, upage v -> v < sz -> has (entry (w_k w) ts n v) PTE_V = false) ->
  (who, root) = (o, old) \/ (who, root) = (n, new) ->
  0 <= dstva < 2 ^ 64 -> Forall (fun b => 0 <= b < 256) src ->
  wp total (r <- uvmcopy old new sz ;; r2 <- copyout root dstva src ;; ret (r, r2)) (fun '(r, r2) w' =>
    (r = 0 \/ r = -1) /\ exists m tnew', (r2 = 0 -> m = length src) /\
    forall j va, 0 <= va < MAXVA -> (j = n -> va < sz) ->
    user_byte (w_k w') (<[n := (new, tnew')]> ts) j va =
      if bool_decide (j = who) && (dstva <=? va) && (va <? dstva + Z.of_nat (length (take m src)))
      then take m src !! Z.to_nat (va - dstva) else forked_byte (w_k w) ts o n sz r j va) w.
Proof.
  intros Hh Hv Ho Hn Hne Hsz Hpages Hfree Hwho Hd Hs. kstep.
  eapply wp_mono; [apply (wp_uvmcopy_user hold l ts o n old new told tnew sz w); done|].
  intros r w1 (_ & Hm & l1 & t1 & Hv1 & Hub & Hr). cbv zeta in *.
  assert (Hi1 : exists t', <[n := (new, t1)]> ts !! who = Some (root, t')).
  { destruct Hwho as [[= -> ->]|[= -> ->]]; [exists told; by rewrite list_lookup_insert_ne|].
    exists t1. apply list_lookup_insert_eq. by eapply lookup_lt_Some. }
  destruct Hi1 as [t' Hi1].
  assert (Hh1 : LkKmem ∉ k_held (w_k w1)) by by rewrite (only_mem_held _ _ Hm).
  assert (Hr01 : r = 0 \/ r = -1) by (destruct (Z.eqb_spec r 0); [by left|right; apply Hr]).
  assert (Hf : forall j va, 0 <= va < MAXVA -> (j = n -> va < sz) ->
    user_byte (w_k w1) (<[n := (new, t1)]> ts) j va = forked_byte (w_k w) ts o n sz r j va).
  { intros j va Hva Hj. unfold forked_byte. case_decide as Hjn; [|apply Hub; [done|]; intros ->; tauto].
    destruct Hjn as [-> Hlt]. destruct (r =? 0); [apply Hr; lia|]. destruct Hr as (_ & i & _ & _ & _ & Hr & _). apply Hr. lia. }
  assert (Hfin : forall r2 m w' l', copied_out hold (<[n := (new, t1)]> ts) who dstva src w1 m w' l' ->
    (r2 = 0 -> m = length src) -> wp total (ret (r, r2)) (fun '(r, r2) w' =>
    (r = 0 \/ r = -1) /\ exists m tnew', (r2 = 0 -> m = length src) /\
    forall j va, 0 <= va < MAXVA -> (j = n -> va < sz) ->
    user_byte (w_k w') (<[n := (new, tnew')]> ts) j va =
      if bool_decide (j = who) && (dstva <=? va) && (va <? dstva + Z.of_nat (length (take m src)))
      then take m src !! Z.to_nat (va - dstva) else forked_byte (w_k w) ts o n sz r j va) w').
  { intros r2 m w' l' (_ & _ & _ & _ & _ & Hw & _) Hr2. apply wp_ret. split; [done|]. exists m, t1. split; [done|]. intros j va Hva Hj.
    rewrite Hw by done. by rewrite Hf. }
  kstep. apply (wp_copyout hold l1 _ who root t' dstva src w1 Hh1 Hv1 Hi1 Hd Hs).
  - intros w' l' Hc. by apply (Hfin 0 (length src) w' l' Hc).
  - intros m w' l' Hc _ _. by apply (Hfin (-1) m w' l' Hc).
Qed.
End Copy.

Section Witnesses.
#[local] Existing Instances demo_layout demo_layout_ok.

Lemma demo22 : exists l t, (LkKmem ∉ k_held (w_k (demo_map 22))) /\
  vm_inv hold_none (w_k (demo_map 22)) l (demo_spaces t) /\
  forall i va, upage va -> entry (w_k (demo_map 22)) (demo_spaces t) i va =
    if decide ((i, va) = (0%nat, 0)) then pte_of (demo_page 2) 22 else 0.
Proof.
  destruct (demo_map_inv 22) as (l & t & Hh & Hv & He);
    [lia|vm_compute; exact eq_refl|vm_compute; exact eq_refl|].
  exists l, t. split; [rewrite Hh; apply not_elem_of_nil|]. exact (conj Hv He).
Qed.

(** The page is copy-on-write: the kernel writes to a copy. *)
Lemma copyout_correct_witness : exists l t w', copyout (demo_page 0) 4094 [1; 2] (demo_map 50) = Ok 0 w' /\
  has (pte_of (demo_page 2) 50) PTE_COW = true /\
  vm_inv hold_none (w_k w') l (demo_spaces t) /\ has (entry (w_k w') (demo_spaces t) 0 0) PTE_COW = false.
Proof.
  assert (Hr : returns (copyout (demo_page 0) 4094 [1; 2] (demo_map 50)) (-1) = 0)
    by (vm_compute; exact eq_refl).
  destruct (demo_map_inv 50) as (l & t & Hh & Hv & He);
    [lia|vm_compute; exact eq_refl|vm_compute; exact eq_refl|].
  assert (Hheld : LkKmem ∉ k_held (w_k (demo_map 50))) by (rewrite Hh; apply not_elem_of_nil).
  assert (Hb : Forall (fun b => 0 <= b < 256) [1; 2]) by (repeat constructor; lia).
  pose proof (copyout_correct hold_none l (demo_spaces t) 0%nat (demo_page 0) t 4094 [1; 2] (demo_map 50)
    Hheld Hv eq_refl ltac:(lia) Hb) as H.
  apply wp_total_Ok in H as (r & w' & Er & m & l' & Hor & _ & _ & Hv' & _ & Hc).
  rewrite Er in Hr. cbn [returns] in Hr. subst r. destruct Hor as [[_ ->]|[? _]]; [|discriminate].
  exists l', t, w'. split; [exact Er|]. split; [vm_compute; exact eq_refl|]. split; [exact Hv'|].
  exact (Hc 1 ltac:(cbn; lia)).
Defined.

Lemma copyin_correct_witness : exists t bs,
  copyin (demo_page 0) 8 2 (demo_map 22) = Ok (0, bs) (demo_map 22)
  /\ reads (w_k (demo_map 22)) (demo_spaces t) 0 8 bs /\ length bs = 2%nat.
Proof.
  assert (Hr : fst (returns (copyin (demo_page 0) 8 2 (demo_map 22)) (-1, [])) = 0)
    by (vm_compute; exact eq_refl).
  destruct demo22 as (l & t & _ & Hv & _).
  pose proof (copyin_correct hold_none l (demo_spaces t) 0%nat (demo_page 0) t 8 2 (demo_map 22)
    Hv eq_refl ltac:(lia) ltac:(lia)) as H.
  apply wp_total_Ok in H as ([r bs] & w' & Er & -> & Hrd & Hor).
  rewrite Er in Hr. cbn [returns fst] in Hr. subst r.
  destruct Hor as [[_ Hl]|[Hf _]]; [|discriminate Hf].
  exists t, bs. split; [exact Er|]. split; [exact Hrd|]. lia.
Defined.

(** The parent writes; the child reads what was there before. *)
Lemma fork_isolation_witness : exists t w',
  (r <- uvmcopy (demo_page 0) (demo_page 1) 4096 ;; r2 <- copyout (demo_page 0) 0 [7] ;; ret (r, r2)) (demo_map 22) = Ok (0, 0) w'
  /\ exists t', user_byte (w_k w') [(demo_page 0, t); (demo_page 1, t')] 0 0 = Some 7 /\
    user_byte (w_k w') [(demo_page 0, t); (demo_page 1, t')] 1 0 = user_byte (w_k (demo_map 22)) (demo_spaces t) 0 0.
Proof.
  assert (Hup : upage 0) by done.
  assert (HV : has (pte_of (demo_page 2) 22) PTE_V = true) by (vm_compute; exact eq_refl).
  assert (Hp : page_ok (PTE2PA (pte_of (demo_page 2) 22))) by by vm_compute.
  assert (Hr : returns ((r <- uvmcopy (demo_page 0) (demo_page 1) 4096 ;; r2 <- copyout (demo_page 0) 0 [7] ;; ret (r, r2)) (demo_map 22))
    (-1, -1) = (0, 0)) by (vm_compute; exact eq_refl).
  destruct demo22 as (l & t & Hh & Hv & He).
  assert (Hsz : 0 <= 4096 <= TRAPFRAME) by (change TRAPFRAME with 274877898752; lia).
  assert (H0 : forall v, upage v -> v < 4096 -> v = 0) by (intros v [Hv0 Hvm] Hlt; zlia).
  assert (Hb : Forall (fun b => 0 <= b < 256) [7]) by (repeat constructor; lia).
  pose proof (fork_isolation hold_none l (demo_spaces t) 0%nat 1%nat (demo_page 0) (demo_page 1) t
    (root_only (demo_page 1)) 4096 0%nat (demo_page 0) 0 [7] (demo_map 22) Hh Hv eq_refl eq_refl ltac:(discriminate) Hsz
    ltac:(intros v Hvu Hlt; rewrite (H0 v Hvu Hlt), He by exact Hup; exact (conj HV Hp))
    ltac:(intros v Hvu Hlt; rewrite (H0 v Hvu Hlt), He by exact Hup; exact (has_0 _))
    (or_introl eq_refl) ltac:(lia) Hb) as H.
  apply wp_total_Ok in H as ([r r2] & w' & Er & _ & m & t' & Hm & Hub).
  rewrite Er in Hr. cbn [returns] in Hr. injection Hr as -> ->. rewrite (Hm eq_refl) in Hub.
  exists t, w'. split; [exact Er|]. exists t'. assert (Hva : 0 <= 0 < MAXVA) by (split; [lia|]; by change MAXVA with 274877906944).
  split; [exact (Hub 0%nat 0 Hva ltac:(discriminate))|exact (Hub 1%nat 0 Hva ltac:(lia))].
Defined.
End Witnesses.
