(* ===== verification/Proc.v ===== *)
(** Processes: the parts of kernel/proc.c that need no files: the process table,
    [sched], [sleep] and [wakeup], killing, and the allocation of a process.

    A process that gives up the CPU in [sched] goes through [swtch]: the schedule
    [w_env] says what the others do to the kernel's state until it runs again; when
    the schedule is over the process is [Blocked].  Theorems about [sleep] and
    [wakeup] are at the end; the priority scheduler itself is file Sched. *)

From S2P Require Export Vm.

(** * The current process *)

Definition myproc : K (option nat) := getk k_cur.

(** [myproc()] where the code dereferences it. *)
Definition curproc : K nat := p <- myproc ;; from_option_or_fault "myproc" p.

Definition allocpid : K Z :=
  acquire LkPid ;;;
  pid <- getk k_nextpid ;;
  modk (fun k => k <| k_nextpid := s32 (pid + 1) |>) ;;;
  release LkPid ;;;
  ret pid.

(** * Giving up the CPU *)

(** [swtch]: the next part of the schedule. *)
Definition swtch : K unit := fun w =>
  match w_env w with
  | [] => Blocked w
  | f :: e => Ok tt (World (f (w_k w)) e)
  end.

(** Interrupts are off while a spinlock is held ([push_off]). *)
Definition intr_get : K bool := held <- getk k_held ;; ret (bool_decide (held = [])).

Definition sched : K unit :=
  i <- curproc ;;
  h <- holding (LkProc i) ;;
  if negb h then panic "sched p->lock" else
  n <- noff ;;
  if negb (n =? 1) then panic "sched locks" else
  p <- get_proc i ;;
  if decide (p_state p = RUNNING) then panic "sched running" else
  on <- intr_get ;;
  if on : bool then panic "sched interruptible" else
  swtch.

Definition yield : K unit :=
  i <- curproc ;;
  acquire (LkProc i) ;;;
  upd_proc i (fun p => p <| p_state := RUNNABLE |>) ;;;
  sched ;;;
  release (LkProc i).

Definition sleep (c : chan) (lk : lockid) : K unit :=
  i <- curproc ;;
  acquire (LkProc i) ;;;
  release lk ;;;
  upd_proc i (fun p => p <| p_chan := c |>) ;;;
  upd_proc i (fun p => p <| p_state := SLEEPING |>) ;;;
  sched ;;;
  upd_proc i (fun p => p <| p_chan := ChNone |>) ;;;
  release (LkProc i) ;;;
  acquire lk.

(** A loop each round of which either sleeps once, or makes progress of which there is
    at most [n]: the schedule bounds the number of rounds. *)
Definition loop_env {S R} (n : nat) (body : S -> K (S + R)) (s : S) : K R := fun w =>
  loop (n + Datatypes.S (length (w_env w))) body s w.

Definition wakeup (c : chan) : K unit :=
  for_do (seq 0 NPROC) (fun i =>
    me <- myproc ;;
    when (bool_decide (Some i <> me))
      (acquire (LkProc i) ;;;
       p <- get_proc i ;;
       when (bool_decide (p_state p = SLEEPING /\ p_chan p = c))
         (upd_proc i (fun p => p <| p_state := RUNNABLE |>)) ;;;
       release (LkProc i))).

Definition kill (pid : Z) : K Z :=
  r <- for_ret (seq 0 NPROC) (fun i =>
    acquire (LkProc i) ;;;
    p <- get_proc i ;;
    if p_pid p =? pid then
      upd_proc i (fun p => p <| p_killed := 1 |>) ;;;
      when (bool_decide (p_state p = SLEEPING))
        (upd_proc i (fun p => p <| p_state := RUNNABLE |>)) ;;;
      release (LkProc i) ;;;
      ret (Some 0)
    else
      release (LkProc i) ;;; ret None) ;;
  ret (default (-1) r).

Definition setkilled (i : nat) : K unit :=
  acquire (LkProc i) ;;;
  upd_proc i (fun p => p <| p_killed := 1 |>) ;;;
  release (LkProc i).

Definition killed (i : nat) : K Z :=
  acquire (LkProc i) ;;;
  p <- get_proc i ;;
  release (LkProc i) ;;;
  ret (p_killed p).

(** * Copying to and from the current process or the kernel *)

Section Copying.
Context {L : Layout}.

(** With [user_dst] = 0 the destination is a buffer of the caller: the caller's
    definition keeps the bytes itself. *)
Definition either_copyout (user_dst : bool) (dst : Z) (src : list Z) : K Z :=
  i <- curproc ;;
  if user_dst then p <- get_proc i ;; copyout (p_pagetable p) dst src else ret 0.

(** Where [either_copyin] reads: a user address, or bytes the caller has. *)
Inductive usrc : Type := SrcUser (va : Z) | SrcKern (bs : list Z).

Definition src_add (s : usrc) (n : Z) : usrc :=
  match s with
  | SrcUser va => SrcUser (u64 (va + n))
  | SrcKern bs => SrcKern (drop (Z.to_nat n) bs)
  end.

(** The result and the bytes stored. *)
Definition either_copyin (s : usrc) (len : Z) : K (Z * list Z) :=
  i <- curproc ;;
  match s with
  | SrcUser va => p <- get_proc i ;; copyin (p_pagetable p) va len
  | SrcKern bs => ret (0, take (Z.to_nat len) bs)
  end.
End Copying.

(** * Allocating a process *)

Section Alloc.
Context {L : Layout}.

(** A page [kalloc] returned, read as a trapframe. *)
Definition junk : Z := 361700864190383365. (* 0x0505050505050505 *)
Definition junk_trapframe : trapframe :=
  Trapframe junk junk junk junk junk junk junk junk junk junk junk junk junk junk junk junk junk
    junk junk junk junk junk junk junk junk junk junk junk junk junk junk junk junk junk junk junk.

Definition procinit : K unit :=
  for_do (seq 0 NPROC) (fun i =>
    upd_proc i (fun p => p <| p_state := UNUSED |>) ;;;
    upd_proc i (fun p => p <| p_kstack := KSTACK (Z.of_nat i) |>)).

Definition proc_pagetable (i : nat) : K Z :=
  pagetable <- uvmcreate ;;
  if pagetable =? 0 then ret 0
  else
    r <- mappages pagetable TRAMPOLINE PGSIZE trampoline (Z.lor PTE_R PTE_X) ;;
    if r <? 0 then uvmfree pagetable 0 ;;; ret 0
    else
      p <- get_proc i ;;
      r <- mappages pagetable TRAPFRAME PGSIZE (p_trapframe p) (Z.lor PTE_R PTE_W) ;;
      if r <? 0 then
        uvmunmap pagetable TRAMPOLINE 1 false ;;;
        uvmfree pagetable 0 ;;;
        ret 0
      else ret pagetable.

Definition proc_freepagetable (pagetable sz : Z) : K unit :=
  uvmunmap pagetable TRAMPOLINE 1 false ;;;
  uvmunmap pagetable TRAPFRAME 1 false ;;;
  uvmfree pagetable sz.

Definition freeproc (i : nat) : K unit :=
  p <- get_proc i ;;
  when (negb (p_trapframe p =? 0))
    (kfree (p_trapframe p) ;;; modk (fun k => k <| k_tf ::= delete (p_trapframe p) |>)) ;;;
  upd_proc i (fun p => p <| p_trapframe := 0 |>) ;;;
  when (negb (p_pagetable p =? 0)) (proc_freepagetable (p_pagetable p) (p_sz p)) ;;;
  upd_proc i (fun p => p <| p_pagetable := 0 |> <| p_sz := 0 |> <| p_pid := 0 |>
    <| p_parent := None |> <| p_name ::= <[0%nat := 0]> |> <| p_chan := ChNone |>
    <| p_killed := 0 |> <| p_xstate := 0 |> <| p_state := UNUSED |>) ;;;
  upd_proc i (fun p => p <| p_rntime := 0 |> <| p_stime := 0 |> <| p_wtime := 0 |>
    <| p_sp := PBS_DEF_SP |> <| p_rbi := PBS_DEF_RBI |> <| p_dp := PBS_DEF_DP |>
    <| p_num_sch := 0 |>).

(** The process is returned with its lock held. *)
Definition allocproc : K (option nat) :=
  found <- for_ret (seq 0 NPROC) (fun i =>
    acquire (LkProc i) ;;;
    p <- get_proc i ;;
    if decide (p_state p = UNUSED) then ret (Some i)
    else release (LkProc i) ;;; ret None) ;;
  match found with
  | None => ret None
  | Some i =>
    pid <- allocpid ;;
    upd_proc i (fun p => p <| p_pid := pid |> <| p_state := USED |>) ;;;
    tf <- kalloc ;;
    upd_proc i (fun p => p <| p_trapframe := tf |>) ;;;
    if tf =? 0 then freeproc i ;;; release (LkProc i) ;;; ret None
    else
      modk (fun k => k <| k_tf ::= <[tf := junk_trapframe]> |>) ;;;
      pt <- proc_pagetable i ;;
      upd_proc i (fun p => p <| p_pagetable := pt |>) ;;;
      if pt =? 0 then freeproc i ;;; release (LkProc i) ;;; ret None
      else
        ticks <- getk k_ticks ;;
        upd_proc i (fun p => p <| p_context := context0 <| ctx_ra := forkret_addr |>
            <| ctx_sp := u64 (p_kstack p + PGSIZE) |> |>
          <| p_rtime := 0 |> <| p_etime := 0 |> <| p_ctime := ticks |>) ;;;
        upd_proc i (fun p => p <| p_rntime := 0 |> <| p_stime := 0 |> <| p_wtime := 0 |>
          <| p_num_sch := 0 |> <| p_sp := PBS_DEF_SP |> <| p_rbi := PBS_DEF_RBI |>
          <| p_dp := PBS_DEF_DP |>) ;;;
        ret (Some i)
  end.

Definition growproc (n : Z) : K Z :=
  i <- curproc ;;
  p <- get_proc i ;;
  let sz := p_sz p in
  if n >? 0 then
    sz' <- uvmalloc (p_pagetable p) sz (u64 (sz + n)) PTE_W ;;
    if sz' =? 0 then ret (-1)
    else upd_proc i (fun p => p <| p_sz := sz' |>) ;;; ret 0
  else if n <? 0 then
    sz' <- uvmdealloc (p_pagetable p) sz (u64 (sz + n)) ;;
    upd_proc i (fun p => p <| p_sz := sz' |>) ;;; ret 0
  else upd_proc i (fun p => p <| p_sz := sz |>) ;;; ret 0.
End Alloc.

(** * Theorems *)

Lemma wp_loop_env {S R} E n (body : S -> K (S + R)) s (Q : R -> world -> Prop) w :
  wp E (loop (n + Datatypes.S (length (w_env w))) body s) Q w -> wp E (loop_env n body s) Q w.
Proof. done. Qed.

(** [w] with another process table. *)
Definition with_procs (ps : list proc) (w : world) : world := w <| w_k ::= fun k => k <| k_proc := ps |> |>.

(** A loop over the whole process table, of processes with [I], whose body changes process [i] by [f i] is a
    map over the table. *)
Lemma wp_for_procs_in (I : proc -> Prop) E (body : nat -> K unit) (f : nat -> proc -> proc)
    (Q : unit -> world -> Prop) w :
  length (k_proc (w_k w)) = NPROC -> Forall I (k_proc (w_k w)) ->
  (forall i p ps, ps !! i = Some p -> length ps = NPROC -> I p ->
    wp E (body i) (fun _ w' => w' = with_procs (<[i := f i p]> ps) w) (with_procs ps w)) ->
  Q tt (with_procs (imap f (k_proc (w_k w))) w) ->
  wp E (for_do (seq 0 NPROC) body) Q w.
Proof.
  intros Hlen HI Hbody HQ. set (qs := imap f (k_proc (w_k w))) in *.
  set (ps := k_proc (w_k w)) in *.
  assert (Hqs : length qs = NPROC) by (unfold qs; by rewrite length_imap).
  apply (wp_for_do _ (fun xs w' => exists j, (j <= NPROC)%nat /\ xs = seq j (NPROC - j) /\
    w' = with_procs (take j qs ++ drop j ps) w)).
  - exists 0%nat. split; [lia|split; [done|]]. rewrite take_0, drop_0.
    unfold ps. by destruct w as [[]].
  - intros i xs w' (j & Hj & Hxs & ->).
    destruct (decide (j = NPROC)) as [->|Hn]; [by rewrite Nat.sub_diag in Hxs|].
    replace (NPROC - j)%nat with (S (NPROC - S j)) in Hxs by lia. injection Hxs as -> ->.
    destruct (lookup_lt_is_Some_2 ps j) as [p Hp]; [rewrite Hlen; lia|].
    assert (Hl : length (take j qs) = j) by (rewrite length_take; lia).
    assert (Hlk : (take j qs ++ drop j ps) !! j = Some p).
    { rewrite lookup_app_r by lia. rewrite Hl, Nat.sub_diag, lookup_drop.
      by rewrite Nat.add_0_r. }
    eapply wp_mono; [apply (Hbody j p); [exact Hlk|rewrite length_app, length_drop; lia|by apply (Forall_lookup_1 _ _ _ _ HI Hp)]|].
    cbn. intros _ w' ->. exists (S j). split; [lia|]. split; [done|]. f_equal.
    rewrite (take_S_r qs j (f j p)) by (unfold qs; by rewrite list_lookup_imap, Hp).
    rewrite insert_app_r_alt by lia. rewrite Hl, Nat.sub_diag.
    rewrite (drop_S ps p j) by done. cbn. by rewrite <- app_assoc.
  - intros w' (j & Hj & Hxs & ->).
    assert (j = NPROC) as -> by (apply (f_equal length) in Hxs; rewrite length_seq in Hxs; cbn [length] in Hxs; lia).
    rewrite firstn_all2, skipn_all2, app_nil_r by lia. done.
Qed.


Lemma wp_for_procs E (body : nat -> K unit) (f : nat -> proc -> proc) (Q : unit -> world -> Prop) w :
  length (k_proc (w_k w)) = NPROC ->
  (forall i p ps, ps !! i = Some p -> length ps = NPROC ->
    wp E (body i) (fun _ w' => w' = with_procs (<[i := f i p]> ps) w) (with_procs ps w)) ->
  Q tt (with_procs (imap f (k_proc (w_k w))) w) ->
  wp E (for_do (seq 0 NPROC) body) Q w.
Proof.
  intros Hlen Hbody HQ. apply (wp_for_procs_in (fun _ => True) _ _ f); [done|by apply Forall_true| |done].
  intros. by apply Hbody.
Qed.

(** [wakeup]'s effect on a process. *)
Definition woken (c : chan) (me : option nat) (i : nat) (p : proc) : proc :=
  if bool_decide (Some i <> me) && bool_decide (p_state p = SLEEPING /\ p_chan p = c)
  then p <| p_state := RUNNABLE |> else p.

Definition no_proc_lock (w : world) : Prop := forall i, LkProc i ∉ k_held (w_k w).

Lemma with_procs_procs w : with_procs (k_proc (w_k w)) w = w.
Proof. by destruct w as [[]]. Qed.

Lemma wp_wakeup E c (Q : unit -> world -> Prop) w :
  length (k_proc (w_k w)) = NPROC -> no_proc_lock w ->
  Q tt (with_procs (imap (woken c (k_cur (w_k w))) (k_proc (w_k w))) w) ->
  wp E (wakeup c) Q w.
Proof.
  intros Hlen Hfree HQ. apply (wp_for_procs _ _ (woken c (k_cur (w_k w)))); [done| |done].
  intros i p ps Hp Hps. unfold myproc, woken. repeat kstep; cbn in *.
  - rewrite H, H0. by destruct w as [[]].
  - rewrite H, H0. cbn. rewrite list_insert_id by done. by destruct w as [[]].
  - rewrite H. cbn. rewrite list_insert_id by done. by destruct w as [[]].
Qed.

(** [wakeup(chan)] makes RUNNABLE exactly the processes that sleep on [chan], the
    caller apart, changes nothing else of the kernel's state, and never panics: the
    caller holds no process lock. *)
Theorem wakeup_correct c w : length (k_proc (w_k w)) = NPROC -> no_proc_lock w ->
  wakeup c w = Ok tt (with_procs (imap (woken c (k_cur (w_k w))) (k_proc (w_k w))) w).
Proof.
  intros Hlen Hfree.
  apply wp_exact. by apply wp_wakeup.
Qed.

(** A loop over the process table that skips the processes without [P] and returns at
    the first one with it. *)
Lemma wp_scan_procs {R} (P : proc -> Prop) `{!forall p, Decision (P p)} E
    (body : nat -> K (option R)) (Q : option R -> world -> Prop) w :
  length (k_proc (w_k w)) = NPROC ->
  (forall i p, k_proc (w_k w) !! i = Some p -> ~ P p ->
    wp E (body i) (fun r w' => r = None /\ w' = w) w) ->
  (forall i p, list_find P (k_proc (w_k w)) = Some (i, p) -> k_proc (w_k w) !! i = Some p -> P p ->
    wp E (body i) (fun r w' => r <> None /\ Q r w') w) ->
  (list_find P (k_proc (w_k w)) = None -> Q None w) ->
  wp E (for_ret (seq 0 NPROC) body) Q w.
Proof. intros <-. by apply wp_scan_list. Qed.

(** [kill]'s effect on its victim. *)
Definition killed_proc (p : proc) : proc :=
  p <| p_killed := 1 |>
    <| p_state := if decide (p_state p = SLEEPING) then RUNNABLE else p_state p |>.

(** [kill(pid)] marks the first process of the table with that pid as killed, makes it
    RUNNABLE if it sleeps, and returns 0; without such a process it changes nothing and
    returns -1. *)
Theorem kill_correct pid w : length (k_proc (w_k w)) = NPROC -> no_proc_lock w ->
  kill pid w = match list_find (fun p => p_pid p = pid) (k_proc (w_k w)) with
               | Some (i, p) => Ok 0 (with_procs (<[i := killed_proc p]> (k_proc (w_k w))) w)
               | None => Ok (-1) w
               end.
Proof.
  intros Hlen Hfree.
  apply wp_exact.
  apply wp_bind, (wp_scan_procs (fun p => p_pid p = pid)); [done|..].
  - intros i p Hp HP. repeat kstep; [blia..|]. split; [done|]. by destruct w as [[]].
  - intros i p Hf Hp HP. rewrite Hf. repeat kstep; [..|blia].
    all: split; [discriminate|]; cbn; f_equal; unfold killed_proc.
    + apply bool_decide_eq_true in H. rewrite decide_True by done.
      rewrite <- (list_insert_insert_eq _ i _ (p <| p_killed := 1 |>)). by destruct w as [[]].
    + apply bool_decide_eq_false in H. rewrite decide_False by done. by destruct w as [[]], p.
  - intros ->. by repeat kstep.
Qed.

(** ** Sleeping *)

(** What the rest of the system leaves alone while a process does not run: its locks,
    its identity and the size of the process table. *)
Record env_ok (f : kernel -> kernel) : Prop := EnvOk {
  env_held : forall k, k_held (f k) = k_held k;
  env_cur : forall k, k_cur (f k) = k_cur k;
  env_procs : forall k, length (k_proc (f k)) = length (k_proc k) }.

(** The state process [i] leaves when it sleeps on [c], having given [lk] up. *)
Definition asleep (c : chan) (i : nat) (rest : list lockid) (k : kernel) : kernel :=
  upd_procs i (fun p => p <| p_chan := c |> <| p_state := SLEEPING |>) k
    <| k_held := LkProc i :: rest |>.

(** The state in which [sleep] returns, when [k] is the one the process runs again in. *)
Definition awake (i : nat) (lk : lockid) (k : kernel) : kernel :=
  upd_procs i (fun p => p <| p_chan := ChNone |>) k <| k_held := [lk] |>.

Lemma upd_procs_id i f p k : k_proc k !! i = Some p ->
  k <| k_proc ::= <[i := f p]> |> = upd_procs i f k.
Proof. intros H. by apply set_procs_ext, insert_is_alter. Qed.

Lemma asleep_proc c i rest k p : k_proc k !! i = Some p ->
  k_proc (asleep c i rest k) !! i = Some (p <| p_chan := c |> <| p_state := SLEEPING |>).
Proof. intros H. cbn. by rewrite list_lookup_alter_eq, H. Qed.

Lemma env_proc f k i p : env_ok f -> k_proc k !! i = Some p -> is_Some (k_proc (f k) !! i).
Proof.
  intros Hf Hp. apply lookup_lt_is_Some. rewrite (env_procs f Hf). by apply lookup_lt_Some in Hp.
Qed.

Lemma wp_swtch E w (Q : unit -> world -> Prop) :
  match w_env w with [] => on_blocked E w | f :: e => Q tt (World (f (w_k w)) e) end ->
  wp E swtch Q w.
Proof. unfold wp, swtch. by destruct (w_env w). Qed.

Lemma wp_curproc E w i (Q : nat -> world -> Prop) : k_cur (w_k w) = Some i -> Q i w -> wp E curproc Q w.
Proof. intros Hcur HQ. unfold curproc, myproc. do 2 kstep. rewrite Hcur. by apply wp_ret. Qed.

Lemma wp_killed E w i p (Q : Z -> world -> Prop) : k_proc (w_k w) !! i = Some p -> LkProc i ∉ k_held (w_k w) ->
  Q (p_killed p) w -> wp E (killed i) Q w.
Proof.
  intros Hp Hh HQ. unfold killed. do 7 kstep. by destruct w as [[] ?].
Qed.

(** [sched] on every branch, for a process that holds its own lock. *)
Lemma wp_sched E i p rest w (Q : unit -> world -> Prop) :
  k_cur (w_k w) = Some i -> k_proc (w_k w) !! i = Some p -> k_held (w_k w) = LkProc i :: rest ->
  p_state p <> RUNNING ->
  match rest, w_env w with
  | _ :: _, _ => on_panic E "sched locks" w
  | [], [] => on_blocked E w
  | [], f :: e => Q tt (World (f (w_k w)) e)
  end -> wp E sched Q w.
Proof.
  intros Hcur Hp Hh Hs HQ. unfold sched, curproc, myproc, holding, noff, intr_get.
  repeat kstep. rewrite Hcur. do 4 kstep. rewrite Hh, bool_decide_eq_true_2 by left.
  repeat kstep; rewrite ?Hh in *; destruct rest; cbn [length] in *; try discriminate;
    try blia; try done.
  by apply wp_swtch.
Qed.

(** [sleep], for what the schedule does at this point. *)
Lemma wp_sleep_at E c lk i p rest w (Q : unit -> world -> Prop) :
  k_cur (w_k w) = Some i -> k_proc (w_k w) !! i = Some p ->
  k_held (w_k w) = lk :: rest -> LkProc i ∉ lk :: rest ->
  match rest, w_env w with
  | _ :: _, _ => on_panic E "sched locks" (World (asleep c i rest (w_k w)) (w_env w))
  | [], [] => on_blocked E (World (asleep c i [] (w_k w)) [])
  | [], f :: e => let k' := f (asleep c i [] (w_k w)) in
      k_held k' = [LkProc i] /\ is_Some (k_proc k' !! i) /\ Q tt (World (awake i lk k') e)
  end -> wp E (sleep c lk) Q w.
Proof.
  intros Hcur Hp Hh Hn HQ. unfold sleep, curproc, myproc.
  assert (Hne : lk <> LkProc i) by (apply not_elem_of_cons in Hn; intros ->; by destruct Hn).
  repeat kstep. rewrite Hcur. repeat kstep; [by rewrite Hh|].
  apply (wp_release _ _ _ (LkProc i :: rest));
    [change (release_held lk (LkProc i :: k_held (w_k w)) = Some (LkProc i :: rest));
     by rewrite Hh, release_held_ne, release_held_head|].
  do 4 kstep.
  match goal with |- wp _ _ _ ?w' =>
    assert (Hw : w' = World (asleep c i rest (w_k w)) (w_env w)) end.
  { unfold asleep. rewrite <- (upd_procs_id _ _ p) by done.
    transitivity (World ((w_k w) <| k_proc := <[i := p <| p_chan := c |> <| p_state := SLEEPING |>]>
      (<[i := p <| p_chan := c |>]> (k_proc (w_k w))) |> <| k_held := LkProc i :: rest |>) (w_env w));
      [by destruct w as [[]]|]. rewrite list_insert_insert_eq. by destruct w as [[]]. }
  rewrite Hw. clear Hw. apply wp_bind; eapply wp_sched; [done|by apply asleep_proc|done|done|].
  destruct rest; [|done]. cbn. destruct (w_env w) as [|f e]; [done|].
  destruct HQ as (Hheld & [p' Hp'] & HQ). repeat kstep.
  apply (wp_release _ _ _ []); [cbn; rewrite Hheld; apply release_held_head|].
  apply wp_acquire; [apply not_elem_of_nil|].
  match goal with H : Q ?a ?w0 |- Q ?a ?w1 => replace w1 with w0; [done|] end.
  unfold awake. rewrite <- (upd_procs_id _ _ p') by done. by destruct (f _).
Qed.

Lemma wp_sleep E c lk i p rest w (Q : unit -> world -> Prop) :
  k_cur (w_k w) = Some i -> k_proc (w_k w) !! i = Some p ->
  k_held (w_k w) = lk :: rest -> LkProc i ∉ lk :: rest -> Forall env_ok (w_env w) ->
  match rest, w_env w with
  | _ :: _, _ => on_panic E "sched locks" (World (asleep c i rest (w_k w)) (w_env w))
  | [], [] => on_blocked E (World (asleep c i [] (w_k w)) [])
  | [], f :: e => Q tt (World (awake i lk (f (asleep c i [] (w_k w)))) e)
  end -> wp E (sleep c lk) Q w.
Proof.
  intros Hcur Hp Hh Hn Henv HQ. eapply wp_sleep_at; [done..|].
  destruct rest, (w_env w) as [|f e]; try done. apply Forall_cons in Henv as [Hf _]. cbv zeta.
  split_and!; [by rewrite (env_held f Hf)| |done].
  apply (env_proc f _ i _ Hf (asleep_proc c i [] _ p Hp)).
Qed.

(** [sleep(chan, lk)], called with [lk] and no process lock held: with another lock held
    it panics; otherwise the process gives [lk] up and sleeps on [chan], and the CPU is
    given up in exactly that state; if the schedule runs it again, it returns with
    [lk] held, no channel, and the schedule's state otherwise unchanged. *)
Theorem sleep_correct c lk i p rest w :
  k_cur (w_k w) = Some i -> k_proc (w_k w) !! i = Some p ->
  k_held (w_k w) = lk :: rest -> LkProc i ∉ lk :: rest -> Forall env_ok (w_env w) ->
  sleep c lk w =
    match rest, w_env w with
    | _ :: _, _ => Panic "sched locks" (World (asleep c i rest (w_k w)) (w_env w))
    | [], [] => Blocked (World (asleep c i [] (w_k w)) [])
    | [], f :: e => Ok tt (World (awake i lk (f (asleep c i [] (w_k w)))) e)
    end.
Proof.
  intros Hcur Hp Hh Hn Henv. apply wp_exact. eapply wp_sleep; [done..|].
  destruct rest; [|done]. by destruct (w_env w).
Qed.

(** *** Witnesses *)

Definition demo_procs : world := World (kernel0 <| k_cur := Some 1%nat |> <| k_proc ::=
  fun l => <[2%nat := proc0 <| p_pid := 7 |> <| p_state := SLEEPING |> <| p_chan := ChTicks |>]> l |>)
  [fun k => k <| k_ticks ::= Z.succ |>].

Lemma demo_no_lock : no_proc_lock demo_procs.
Proof. intros i. apply not_elem_of_nil. Qed.

Lemma wakeup_correct_witness :
  p_state <$> k_proc (w_k (match wakeup ChTicks demo_procs with Ok _ w => w | _ => world0 end)) !! 2%nat
    = Some RUNNABLE.
Proof. rewrite (wakeup_correct ChTicks demo_procs eq_refl demo_no_lock). vm_compute. exact eq_refl. Defined.

Lemma kill_correct_witness : returns (kill 7 demo_procs) (-1) = 0.
Proof. rewrite (kill_correct 7 demo_procs eq_refl demo_no_lock). vm_compute. exact eq_refl. Defined.

Definition demo_sleeper : world := demo_procs <| w_k ::= fun k => k <| k_held := [LkTicks] |> |>.

Lemma sleep_correct_witness :
  match sleep ChTicks LkTicks demo_sleeper with Ok _ w => k_ticks (w_k w) | _ => 0 end = 1.
Proof.
  rewrite (sleep_correct ChTicks LkTicks 1 proc0 [] demo_sleeper).
  - vm_compute. exact eq_refl.
  - vm_compute. exact eq_refl.
  - vm_compute. exact eq_refl.
  - vm_compute. exact eq_refl.
  - apply (bool_decide_unpack _). vm_compute. exact I.
  - constructor; [|constructor]. split; intros k; destruct k; exact eq_refl.
Defined.
