(* ===== verification/Sched.v ===== *)
(** The priority scheduler: [scheduler] and [update_time] of kernel/proc.c and
    [clockintr] of kernel/trap.c, as built with [PBS].

    [scheduler] never returns; [scheduler_round] is one iteration of its loop, with
    the chosen process's time on the CPU as the next part of the schedule, and
    [scheduler n] its first [n] iterations.  The theorems: a round runs the process
    that is minimal for (dynamic priority, times scheduled, creation time, place in
    the table); a clock tick accounts the tick to every process and recomputes every
    priority as [max(0, 50 (3R - S - W) / (R + W + S + 1))] and
    [min(100, SP + RBI)], and has undefined behaviour only when 32 bits are not
    enough for the weighted sum. *)

From S2P Require Export Proc.

(** * The scheduler *)

(** The comparison of [scheduler]: [min_dp] is an [int], the fields are [uint]. *)
Definition better (p highest : proc) (min_dp : Z) : bool :=
  (p_dp p <? u32 min_dp)
  || (p_dp p =? u32 min_dp) && (p_num_sch p <? p_num_sch highest)
  || (p_dp p =? u32 min_dp) && (p_num_sch p =? p_num_sch highest) && (p_ctime p <? p_ctime highest).

(** The loop over the table; the lock of [highest] stays held. *)
Fixpoint scan (ps : list nat) (highest : option nat) (min_dp : Z) : K (option nat) :=
  match ps with
  | [] => ret highest
  | i :: ps' =>
    acquire (LkProc i) ;;;
    p <- get_proc i ;;
    if negb (bool_decide (p_state p = RUNNABLE)) then
      release (LkProc i) ;;; scan ps' highest min_dp
    else
      match highest with
      | None => scan ps' (Some i) (s32 (p_dp p))
      | Some h =>
        hp <- get_proc h ;;
        if better p hp min_dp then
          release (LkProc h) ;;; scan ps' (Some i) (s32 (p_dp p))
        else
          release (LkProc i) ;;; scan ps' highest min_dp
      end
  end.

Definition set_cur (p : option nat) : K unit := modk (fun k => k <| k_cur := p |>).

Definition scheduler_round : K unit :=
  highest <- scan (seq 0 NPROC) None 100 ;;
  match highest with
  | None => ret tt
  | Some h =>
    upd_proc h (fun p => p <| p_state := RUNNING |>) ;;;
    upd_proc h (fun p => p <| p_rntime := 0 |>) ;;;
    upd_proc h (fun p => p <| p_stime := 0 |>) ;;;
    upd_proc h (fun p => p <| p_num_sch ::= fun n => u32 (n + 1) |>) ;;;
    set_cur (Some h) ;;;
    swtch ;;;
    set_cur None ;;;
    release (LkProc h)
  end.

Definition scheduler (rounds : nat) : K unit :=
  set_cur None ;;; for_do (seq 0 rounds) (fun _ => scheduler_round).

(** * The clock *)

Definition update_time : K unit :=
  for_do (seq 0 NPROC) (fun i =>
    acquire (LkProc i) ;;;
    p <- get_proc i ;;
    if bool_decide (p_state p = UNUSED) then release (LkProc i)
    else
      (if bool_decide (p_state p = RUNNING) then
         upd_proc i (fun p => p <| p_rntime ::= fun n => u32 (n + 1) |>) ;;;
         upd_proc i (fun p => p <| p_rtime ::= fun n => u32 (n + 1) |>)
       else if bool_decide (p_state p = SLEEPING) then
         upd_proc i (fun p => p <| p_stime ::= fun n => u32 (n + 1) |>)
       else if bool_decide (p_state p = RUNNABLE) then
         upd_proc i (fun p => p <| p_wtime ::= fun n => u32 (n + 1) |>)
       else ret tt) ;;;
      release (LkProc i)).

(** [int] arithmetic: overflow and division by zero are undefined. *)
Definition int_ok (x : Z) : bool := (-2147483648 <=? x) && (x <? 2147483648).
Definition int_op (x : Z) : K Z := if int_ok x then ret x else fault "int overflow".
Definition int_div (a b : Z) : K Z :=
  if b =? 0 then fault "division by zero" else int_op (Z.quot a b).

Definition max (a b : Z) : Z := if a >? b then a else b.
Definition min (a b : Z) : Z := if a <? b then a else b.

Definition recompute_priority (i : nat) : K unit :=
  p <- get_proc i ;;
  if bool_decide (p_state p = UNUSED) then ret tt
  else
    rbi <- (if (p_rntime p =? 0) && (p_wtime p =? 0) && (p_stime p =? 0) then ret PBS_DEF_RBI
            else
              let num := s32 (3 * p_rntime p - p_stime p - p_wtime p) in
              let den := s32 (p_rntime p + p_stime p + p_wtime p + 1) in
              x <- int_op (num * 50) ;;
              q <- int_div x den ;;
              ret (max 0 q)) ;;
    upd_proc i (fun p => p <| p_rbi := u32 rbi |>) ;;;
    upd_proc i (fun p => p <| p_dp := min 100 (u32 (p_sp p + p_rbi p)) |>).

Definition clockintr : K unit :=
  acquire LkTicks ;;;
  modk (fun k => k <| k_ticks ::= fun t => u32 (t + 1) |>) ;;;
  update_time ;;;
  for_do (seq 0 NPROC) recompute_priority ;;;
  wakeup ChTicks ;;;
  release LkTicks.

(** * Which process runs *)

(** The order of the priorities: dynamic priority, times scheduled, creation time, and
    last the place in the table. *)
Definition before (i : nat) (p : proc) (j : nat) (q : proc) : Prop :=
  p_dp p < p_dp q \/ p_dp p = p_dp q /\
  (p_num_sch p < p_num_sch q \/ p_num_sch p = p_num_sch q /\
   (p_ctime p < p_ctime q \/ p_ctime p = p_ctime q /\ (i < j)%nat)).

(** [h] is the first RUNNABLE process of [ps] in that order. *)
Definition chosen (ps : list proc) (h : nat) : Prop :=
  exists p, ps !! h = Some p /\ p_state p = RUNNABLE /\
    forall j q, ps !! j = Some q -> p_state q = RUNNABLE -> j <> h -> before h p j q.

(** The processes of [ps] as far as a scan that is at [j] has seen them. *)
Definition scanned (ps : list proc) (j : nat) (highest : option nat) : Prop :=
  match highest with
  | None => forall i p, (i < j)%nat -> ps !! i = Some p -> p_state p <> RUNNABLE
  | Some h => (h < j)%nat /\ chosen (take j ps) h
  end.

Definition uint_dp (p : proc) : Prop := 0 <= p_dp p < 4294967296.

Lemma u32_s32 x : u32 (s32 x) = u32 x.
Proof. unfold s32, u32. case_match; zlia. Qed.

Lemma better_true p q : uint_dp q ->
  better p q (s32 (p_dp q)) = true <->
  p_dp p < p_dp q \/ p_dp p = p_dp q /\
    (p_num_sch p < p_num_sch q \/ p_num_sch p = p_num_sch q /\ p_ctime p < p_ctime q).
Proof.
  intros Hq. unfold better. rewrite u32_s32, u32_small by exact Hq.
  rewrite !orb_true_iff, !andb_true_iff, !Z.ltb_lt, !Z.eqb_eq. lia.
Qed.

Lemma before_trans i p j q k r : before i p j q -> before j q k r -> before i p k r.
Proof. unfold before. lia. Qed.

Lemma chosen_unique ps h h' : chosen ps h -> chosen ps h' -> h = h'.
Proof.
  intros (p & Hp & Hr & Hb) (p' & Hp' & Hr' & Hb').
  destruct (decide (h = h')) as [|Hn]; [done|]. exfalso.
  pose proof (Hb _ _ Hp' Hr' (not_eq_sym Hn)). pose proof (Hb' _ _ Hp Hr Hn).
  unfold before in *. lia.
Qed.

Section Scan.
Context (ps : list proc) (j : nat) (p : proc) (Hp : ps !! j = Some p).

Lemma lookup_take_S i q : take (S j) ps !! i = Some q <-> take j ps !! i = Some q \/ i = j /\ q = p.
Proof.
  rewrite (take_S_r ps j p Hp), lookup_snoc_Some, length_take.
  pose proof (lookup_lt_Some _ _ _ Hp) as Hj. rewrite Nat.min_l by lia. split.
  - intros [[? ?]|[-> ->]]; [by left|by right].
  - intros [H|[-> ->]]; [left|by right].
    split; [|done]. apply lookup_lt_Some in H. rewrite length_take in H. lia.
Qed.

Lemma scanned_skip highest : p_state p <> RUNNABLE -> scanned ps j highest -> scanned ps (S j) highest.
Proof.
  intros Hs. destruct highest as [h|]; cbn.
  - intros [Hh (q & Hq & Hr & Hb)]. split; [lia|]. exists q. split; [by apply lookup_take_S; left|].
    split; [done|]. intros i r [Hi|[-> ->]]%lookup_take_S Hir; [by apply Hb|done].
  - intros H i q Hi Hq. destruct (decide (i = j)) as [->|]; [by simplify_eq|]. apply (H i); [lia|done].
Qed.

Lemma scanned_first : p_state p = RUNNABLE -> scanned ps j None -> scanned ps (S j) (Some j).
Proof.
  intros Hr H. split; [lia|]. exists p. split; [by apply lookup_take_S; right|]. split; [done|].
  intros i q [[Hi Hlt]%lookup_take_Some|[-> _]]%lookup_take_S Hir Hn; [|done].
  by destruct (H i q).
Qed.

Lemma scanned_next h hp : p_state p = RUNNABLE -> uint_dp hp -> ps !! h = Some hp ->
  scanned ps j (Some h) ->
  scanned ps (S j) (Some (if better p hp (s32 (p_dp hp)) then j else h)).
Proof.
  intros Hr Hdp Hhp [Hlt (q & Hq & Hqr & Hb)]. apply lookup_take_Some in Hq as [Hq Hh].
  assert (q = hp) as -> by congruence.
  destruct (better p hp (s32 (p_dp hp))) eqn:E.
  - apply (better_true _ _ Hdp) in E. split; [lia|]. exists p. split; [by apply lookup_take_S; right|].
    split; [done|]. intros i r [Hi|[-> _]]%lookup_take_S Hir Hn; [|done].
    destruct (decide (i = h)) as [->|Hih].
    + apply lookup_take_Some in Hi as [Hi _]. assert (r = hp) as -> by congruence. unfold before. lia.
    + apply (before_trans _ _ h hp); [unfold before; lia|]. by apply Hb.
  - apply not_true_iff_false in E. rewrite (better_true _ _ Hdp) in E.
    split; [lia|]. exists hp. split; [apply lookup_take_S; left; by apply lookup_take_Some|].
    split; [done|]. intros i r [Hi|[-> ->]]%lookup_take_S Hir Hn; [by apply Hb|]. unfold before. lia.
Qed.
End Scan.

Definition best_lock (highest : option nat) : list lockid :=
  match highest with Some h => [LkProc h] | None => [] end.

Definition with_held (h : list lockid) (w : world) : world := w <| w_k ::= fun k => k <| k_held := h |> |>.

Lemma not_in_single h j : h <> j -> LkProc h ∉ [LkProc j].
Proof. intros H. apply not_elem_of_cons. split; [congruence|apply not_elem_of_nil]. Qed.

(** The scan finds the chosen process and holds its lock only. *)
Lemma wp_scan E ps w j highest min_dp Q :
  k_proc (w_k w) = ps -> length ps = NPROC -> Forall uint_dp ps -> (j <= NPROC)%nat ->
  scanned ps j highest -> (forall h hp, highest = Some h -> ps !! h = Some hp -> min_dp = s32 (p_dp hp)) ->
  (forall best, scanned ps NPROC best -> Q best (with_held (best_lock best) w)) ->
  wp E (scan (seq j (NPROC - j)) highest min_dp) Q (with_held (best_lock highest) w).
Proof.
  intros Hps Hlen Hdp Hj. remember (NPROC - j)%nat as n eqn:Hn. revert j Hj Hn highest min_dp.
  induction n as [|n IH]; intros j Hj Hn highest min_dp Hs Hmin HQ; cbn [seq scan].
  - apply wp_ret. assert (j = NPROC) as -> by lia. by apply HQ.
  - destruct (lookup_lt_is_Some_2 ps j) as [p Hp]; [lia|].
    assert (Hlk : k_proc (w_k w) !! j = Some p) by by rewrite Hps.
    kstep. apply wp_acquire.
    { destruct highest as [h|]; cbn; [|apply not_elem_of_nil]. destruct Hs as [Hs _].
      apply not_in_single. lia. }
    kstep. eapply wp_get_proc; [exact Hlk|].
    set (h0 := best_lock highest) in *. set (w1 := with_held h0 w).
    assert (Hw1 : (w1 <| w_k ::= fun k => k <| k_held ::= cons (LkProc j) |> |>) = with_held (LkProc j :: h0) w)
      by done.
    rewrite Hw1. clear Hw1.
    assert (Hskip : forall Q', Q' tt (with_held h0 w) -> wp E (release (LkProc j)) Q' (with_held (LkProc j :: h0) w)).
    { intros Q' HQ'. apply (wp_release _ _ _ h0); [apply release_held_head|]. by destruct w as [[]]. }
    destruct (bool_decide (p_state p = RUNNABLE)) eqn:Hr; cbn [negb].
    + apply bool_decide_eq_true in Hr. destruct highest as [h|].
      * pose proof Hs as [Hlt (hp & Hhp & _)]. apply lookup_take_Some in Hhp as [Hhp _].
        assert (Hdph : uint_dp hp) by by apply (Forall_lookup_1 _ _ _ _ Hdp Hhp).
        kstep. eapply wp_get_proc; [cbn; rewrite Hps; exact Hhp|].
        pose proof (scanned_next ps j p Hp h hp Hr Hdph Hhp Hs) as Hnext.
        rewrite (Hmin h hp) by done.
        destruct (better p hp (s32 (p_dp hp))) eqn:Eb; kstep.
        -- apply (wp_release _ _ _ [LkProc j]);
             [apply (release_held_app _ [LkProc j] []), not_in_single; lia|].
           replace (_ <| w_k ::= _ |>) with (with_held (best_lock (Some j)) w) by (by destruct w as [[]]).
           apply IH; [lia|lia|done| |done]. intros ? ? [= <-]. by intros; simplify_eq.
        -- apply Hskip, IH; [lia|lia|done| |done]. intros ? ? [= <-] ?. by simplify_eq.
      * apply (IH (S j) ltac:(lia) ltac:(lia) (Some j)); [by apply (scanned_first ps j p)| |done].
        intros ? ? [= <-] ?. by simplify_eq.
    + apply bool_decide_eq_false in Hr. kstep. apply Hskip, IH; [lia|lia| |done|done].
      by apply (scanned_skip ps j p).
Qed.

(** The state the scheduler hands to process [h]. *)
Definition dispatched (h : nat) (k : kernel) : kernel :=
  upd_procs h (fun p => p <| p_state := RUNNING |> <| p_rntime := 0 |> <| p_stime := 0 |>
    <| p_num_sch ::= fun n => u32 (n + 1) |>) k <| k_cur := Some h |> <| k_held := [LkProc h] |>.

Definition idle (k : kernel) : kernel := k <| k_cur := None |> <| k_held := [] |>.

Lemma upd_procs_lookup i f p k : k_proc k !! i = Some p -> k_proc (upd_procs i f k) !! i = Some (f p).
Proof. intros H. cbn. by rewrite list_lookup_alter_eq, H. Qed.

Lemma scheduler_round_cases w :
  k_held (w_k w) = [] -> length (k_proc (w_k w)) = NPROC -> Forall uint_dp (k_proc (w_k w)) ->
  Forall env_ok (w_env w) ->
  (Forall (fun p => p_state p <> RUNNABLE) (k_proc (w_k w)) /\ scheduler_round w = Ok tt w) \/
  (exists h, chosen (k_proc (w_k w)) h /\ scheduler_round w =
    match w_env w with
    | [] => Blocked (World (dispatched h (w_k w)) [])
    | f :: e => Ok tt (World (idle (f (dispatched h (w_k w)))) e)
    end).
Proof.
  intros Hh Hlen Hdp Henv.
  assert (Hw0 : with_held (best_lock None) w = w) by (destruct w as [[]]; cbn in *; by subst).
  assert (Hscan : exists best, scanned (k_proc (w_k w)) NPROC best /\
    scan (seq 0 NPROC) None 100 w = Ok best (with_held (best_lock best) w)).
  { destruct (wp_total_Ok (scan (seq 0 (NPROC - 0)) None 100)
      (fun best w' => scanned (k_proc (w_k w)) NPROC best /\ w' = with_held (best_lock best) w)
      (with_held (best_lock None) w)) as (best & w' & E & Hb & ->).
    - eapply wp_scan; [done..|lia| |done|done]. intros i p Hi. lia.
    - exists best. split; [exact Hb|]. rewrite Hw0 in E. exact E. }
  destruct Hscan as ([h|] & Hs & Hscan).
  - right. destruct Hs as [_ Hs]. rewrite firstn_all2 in Hs by lia.
    exists h. split; [done|]. pose proof Hs as (p & Hp & _).
    apply wp_exact. unfold scheduler_round, set_cur. kstep.
    eapply wp_Ok; [exact Hscan|]. cbn beta iota.
    kstep. eapply wp_upd_procs; [exact Hp|].
    kstep. eapply wp_upd_procs; [by apply upd_procs_lookup|].
    kstep. eapply wp_upd_procs; [by apply upd_procs_lookup, upd_procs_lookup|].
    kstep. eapply wp_upd_procs; [by apply upd_procs_lookup, upd_procs_lookup, upd_procs_lookup|].
    cbn [w_k w_env]. rewrite !upd_procs_upd_procs. do 2 kstep. kstep.
    apply wp_swtch.
    match goal with |- match w_env ?w1 with _ => _ end =>
      replace w1 with (World (dispatched h (w_k w)) (w_env w)) by (by destruct w as [[]]) end.
    cbn [w_env w_k]. destruct (w_env w) as [|f e]; [done|]. apply Forall_cons in Henv as [Hf _].
    repeat kstep. apply (wp_release _ _ _ []).
    + cbn. rewrite (env_held f Hf). exact (release_held_head _ _).
    + by destruct (f _).
  - left. cbn in Hs. split.
    2: { unfold scheduler_round. rewrite (bind_Ok _ _ _ _ _ Hscan). unfold ret. f_equal. exact Hw0. }
    apply Forall_lookup. intros i p Hp. apply (Hs i p); [|done]. apply lookup_lt_Some in Hp. lia.
Qed.

(** C9. One iteration of [scheduler], entered with no lock: if no process is RUNNABLE
    nothing changes; otherwise it is the RUNNABLE process that is first by (dynamic
    priority, times scheduled, creation time, place in the table) that gets the CPU,
    RUNNING, with its times since it was last scheduled reset and its count of
    schedulings raised, with its own lock the only one held; and when the CPU is
    given back, the hart is idle again without a lock. *)
Theorem scheduler_round_correct w :
  k_held (w_k w) = [] -> length (k_proc (w_k w)) = NPROC -> Forall uint_dp (k_proc (w_k w)) ->
  Forall env_ok (w_env w) ->
  (Forall (fun p => p_state p <> RUNNABLE) (k_proc (w_k w)) /\ scheduler_round w = Ok tt w) \/
  (exists h, chosen (k_proc (w_k w)) h /\ scheduler_round w =
    match w_env w with
    | [] => Blocked (World (dispatched h (w_k w)) [])
    | f :: e => Ok tt (World (idle (f (dispatched h (w_k w)))) e)
    end).
Proof. apply scheduler_round_cases. Qed.

Ltac bool_decide_hyps := repeat match goal with
  | H : bool_decide _ = true |- _ => apply bool_decide_eq_true in H
  | H : bool_decide _ = false |- _ => apply bool_decide_eq_false in H
  end.

(** * The clock tick *)

(** What a tick adds to a process. *)
Definition accounted (p : proc) : proc :=
  match p_state p with
  | RUNNING => p <| p_rntime ::= fun n => u32 (n + 1) |> <| p_rtime ::= fun n => u32 (n + 1) |>
  | SLEEPING => p <| p_stime ::= fun n => u32 (n + 1) |>
  | RUNNABLE => p <| p_wtime ::= fun n => u32 (n + 1) |>
  | _ => p
  end.

(** The recent behaviour index, and with it the dynamic priority, of a process. *)
Definition rbi_of (p : proc) : Z :=
  let r := p_rntime p in let s := p_stime p in let w := p_wtime p in
  if (r =? 0) && (w =? 0) && (s =? 0) then 25
  else Z.max 0 (Z.quot (50 * (3 * r - s - w)) (r + s + w + 1)).

Definition repriced (p : proc) : proc :=
  if decide (p_state p = UNUSED) then p
  else p <| p_rbi := rbi_of p |> <| p_dp := Z.min 100 (p_sp p + rbi_of p) |>.

(** Times for which the weighted sum fits an [int], and a static priority in range. *)
Definition small_times (p : proc) : Prop :=
  0 <= p_rntime p < 14316557 /\ 0 <= p_stime p /\ 0 <= p_wtime p /\
  p_stime p + p_wtime p < 42949672 /\ 0 <= p_sp p <= 100.

Lemma rbi_bounds p : small_times p -> 0 <= rbi_of p < 150.
Proof.
  intros (HR & HS & HW & HSW & _). unfold rbi_of. case_match; [lia|].
  split; [lia|]. apply Z.max_lub_lt; [lia|].
  destruct (Z.le_gt_cases 0 (3 * p_rntime p - p_stime p - p_wtime p)).
  - rewrite Z.quot_div_nonneg by lia. apply Z.div_lt_upper_bound; lia.
  - apply (Z.le_lt_trans _ 0); [|lia]. rewrite <- (Z.opp_involutive (50 * _)), Z.quot_opp_l by lia.
    rewrite Z.quot_div_nonneg by lia. apply Z.opp_nonpos_nonneg, Z.div_pos; lia.
Qed.

(** Priorities stay in the range the scheduler and [set_priority] assume. *)
Lemma repriced_range p : small_times p -> p_state p <> UNUSED ->
  0 <= p_dp (repriced p) <= 100 /\ 0 <= p_rbi (repriced p) < 150.
Proof.
  intros H Hs. pose proof (rbi_bounds p H). destruct H as (_ & _ & _ & _ & Hsp).
  unfold repriced. rewrite decide_False by done. cbn. lia.
Qed.

Lemma wp_update_time E w (Q : unit -> world -> Prop) :
  length (k_proc (w_k w)) = NPROC -> no_proc_lock w ->
  Q tt (with_procs (imap (fun _ => accounted) (k_proc (w_k w))) w) -> wp E update_time Q w.
Proof.
  intros Hlen Hfree HQ. apply (wp_for_procs _ _ (fun _ => accounted)); [done| |done].
  intros i p ps Hp Hps. unfold accounted.
  repeat kstep; bool_decide_hyps.
  - rewrite list_insert_id by (by rewrite Hp; destruct (p_state p)). by destruct w as [[]].
  - rewrite Heqb0. rewrite <- (list_insert_insert_eq ps i _ (p <| p_rntime ::= fun n => u32 (n + 1) |>)).
    by destruct w as [[]].
  - rewrite Heqb1. by destruct w as [[]].
  - rewrite Heqb2. by destruct w as [[]].
  - rewrite list_insert_id by (by rewrite Hp; destruct (p_state p)). by destruct w as [[]].
Qed.

Lemma u32_num p : small_times p ->
  s32 (3 * p_rntime p - p_stime p - p_wtime p) = 3 * p_rntime p - p_stime p - p_wtime p /\
  s32 (p_rntime p + p_stime p + p_wtime p + 1) = p_rntime p + p_stime p + p_wtime p + 1.
Proof. intros (HR & HS & HW & HSW & _). split; apply s32_small; lia. Qed.

Lemma wp_int_op E x (Q : Z -> world -> Prop) w : -2147483648 <= x < 2147483648 -> Q x w -> wp E (int_op x) Q w.
Proof.
  intros H HQ. unfold int_op, int_ok. rewrite (proj2 (Z.leb_le _ _)), (proj2 (Z.ltb_lt _ _)) by lia. done.
Qed.

Lemma quot_nonneg_bound x d : 0 < d -> 0 <= x -> 0 <= Z.quot x d <= x.
Proof.
  intros Hd Hx. rewrite Z.quot_div_nonneg by lia. split; [apply Z.div_pos; lia|].
  apply Z.div_le_upper_bound; [done|]. pose proof (Z.mul_le_mono_nonneg_r 1 d x). lia.
Qed.

Lemma quot_bound x d : 0 < d -> -2147483648 <= x < 2147483648 -> -2147483648 <= Z.quot x d < 2147483648.
Proof.
  intros Hd Hx. destruct (Z.le_gt_cases 0 x).
  - pose proof (quot_nonneg_bound x d). lia.
  - pose proof (quot_nonneg_bound (- x) d Hd) as Hp. rewrite Z.quot_opp_l in Hp by lia. lia.
Qed.

Lemma wp_recompute_priority E i p w (Q : unit -> world -> Prop) :
  k_proc (w_k w) !! i = Some p -> small_times p ->
  Q tt (with_procs (<[i := repriced p]> (k_proc (w_k w))) w) -> wp E (recompute_priority i) Q w.
Proof.
  intros Hp Hsm HQ. pose proof (rbi_bounds p Hsm) as Hb. destruct (u32_num p Hsm) as [Hn Hd].
  unfold recompute_priority. do 2 kstep.
  destruct (bool_decide (p_state p = UNUSED)) eqn:Hs; bool_decide_hyps.
  - kstep. unfold repriced in HQ. rewrite decide_True, list_insert_id in HQ by done.
    by rewrite with_procs_procs in HQ.
  - kstep. apply (wp_mono _ _ (fun rbi w' => rbi = rbi_of p /\ w' = w)).
    + unfold rbi_of. kstep; [done|]. cbv zeta. rewrite Hn, Hd. destruct Hsm as (HR & HS & HW & HSW & _).
      kstep. apply wp_int_op; [lia|]. kstep. unfold int_div.
      rewrite (proj2 (Z.eqb_neq _ _)) by lia. apply wp_int_op; [apply quot_bound; lia|].
      kstep. split; [|done]. unfold max. rewrite (Z.mul_comm 50). case_match; lia.
    + intros rbi w' [-> ->]. repeat kstep. unfold repriced in HQ. rewrite decide_False in HQ by done.
      cbn. rewrite (u32_small (rbi_of p)) by lia.
      assert (Hm : min 100 (u32 (p_sp p + rbi_of p)) = Z.min 100 (p_sp p + rbi_of p)).
      { destruct Hsm as (_ & _ & _ & _ & Hsp). rewrite u32_small by lia. unfold min. case_match; lia. }
      rewrite Hm. rewrite <- (list_insert_insert_eq _ i _ (p <| p_rbi := rbi_of p |>)) in HQ.
      by destruct w as [[]].
Qed.

Lemma wp_recompute_priorities E w (Q : unit -> world -> Prop) :
  length (k_proc (w_k w)) = NPROC -> Forall small_times (k_proc (w_k w)) ->
  Q tt (with_procs (imap (fun _ => repriced) (k_proc (w_k w))) w) ->
  wp E (for_do (seq 0 NPROC) recompute_priority) Q w.
Proof.
  intros Hlen Hsm HQ.
  apply (wp_for_procs_in small_times _ _ (fun _ => repriced)); [done|done| |done].
  intros i p ps Hp Hps Hpsm. by apply (wp_recompute_priority _ _ p).
Qed.

(** A process after a tick: accounted, repriced, and woken if it sleeps on the clock. *)
Definition ticked (me : option nat) (i : nat) (p : proc) : proc :=
  woken ChTicks me i (repriced (accounted p)).

Lemma woken_fields c me i p :
  p_dp (woken c me i p) = p_dp p /\ p_rbi (woken c me i p) = p_rbi p /\
  (p_state p = UNUSED -> p_state (woken c me i p) = UNUSED).
Proof.
  unfold woken. case_match eqn:E; [|done]. split_and!; [done..|].
  intros Hs. rewrite Hs in E. by destruct (bool_decide _).
Qed.

Definition after_tick (w : world) : world :=
  with_procs (imap (ticked (k_cur (w_k w))) (k_proc (w_k w))) w
    <| w_k ::= fun k => k <| k_ticks ::= fun t => u32 (t + 1) |> |>.

Lemma wp_clockintr E w (Q : unit -> world -> Prop) :
  length (k_proc (w_k w)) = NPROC -> no_proc_lock w -> LkTicks ∉ k_held (w_k w) ->
  Forall small_times (accounted <$> k_proc (w_k w)) ->
  Q tt (after_tick w) -> wp E clockintr Q w.
Proof.
  intros Hlen Hfree Hticks Hsm HQ. unfold clockintr. do 4 kstep.
  assert (Hfree' : no_proc_lock (with_held (LkTicks :: k_held (w_k w)) w)).
  { intros i. cbn. apply not_elem_of_cons. split; [done|apply Hfree]. }
  kstep. apply wp_update_time; [done|exact Hfree'|].
  kstep. apply wp_recompute_priorities; cbn.
  { by rewrite length_imap. }
  { change (fun _ => accounted) with (fun _ : nat => accounted). by rewrite <- imap_const in Hsm. }
  kstep. apply wp_wakeup; cbn; [by rewrite !length_imap|exact Hfree'|].
  kstep. unfold after_tick in HQ.
  assert (Heq : imap (ticked (k_cur (w_k w))) (k_proc (w_k w)) =
    imap (woken ChTicks (k_cur (w_k w))) (imap (fun _ => repriced) (imap (fun _ => accounted) (k_proc (w_k w))))).
  { apply list_eq. intros i. rewrite !list_lookup_imap. by destruct (k_proc (w_k w) !! i). }
  rewrite Heq in HQ. by destruct w as [[]].
Qed.

Section Tick.
Context (w : world) (Hlen : length (k_proc (w_k w)) = NPROC) (Hfree : no_proc_lock w)
  (Hticks : LkTicks ∉ k_held (w_k w)) (Hsm : Forall small_times (accounted <$> k_proc (w_k w))).

(** C11. A clock tick counts, adds the tick to the running, sleeping or waiting time of
    every process, sets every process's behaviour index to
    [max(0, 50 (3R - S - W) / (R + S + W + 1))] (25 before the first tick) and its dynamic
    priority to [min(100, SP + RBI)], wakes the processes that sleep on the clock, and
    changes nothing else; 32-bit arithmetic does not overflow below about forty-two
    million waiting ticks. *)
Theorem clockintr_correct : clockintr w = Ok tt (after_tick w).
Proof. by apply wp_exact, wp_clockintr. Qed.

(** After a tick every process in use has a behaviour index below 150 and a dynamic
    priority between 0 and 100. *)
Theorem clockintr_range w' p i :
  clockintr w = Ok tt w' -> k_proc (w_k w') !! i = Some p -> p_state p <> UNUSED ->
  0 <= p_dp p <= 100 /\ 0 <= p_rbi p < 150.
Proof.
  intros Hw' Hp Hs. assert (w' = after_tick w) as ->.
  { assert (clockintr w = Ok tt (after_tick w)) by by apply wp_exact, wp_clockintr. congruence. }
  cbn in Hp. rewrite list_lookup_imap in Hp. destruct (k_proc (w_k w) !! i) as [q|] eqn:Hq; [|done].
  assert (Hsmq : small_times (accounted q)).
  { apply (Forall_lookup_1 _ _ i _ Hsm). by rewrite list_lookup_fmap, Hq. }
  injection Hp as <-. unfold ticked in *. destruct (woken_fields ChTicks (k_cur (w_k w)) i
    (repriced (accounted q))) as (Hd & Hb & Hu).
  rewrite Hd, Hb. apply repriced_range; [done|]. intros E. apply Hs, Hu.
  unfold repriced. by rewrite decide_True.
Qed.
End Tick.

(** A process that has waited for 42949673 ticks in all: the next tick multiplies past
    the end of an [int]. *)
Definition demo_old : world := World (kernel0 <| k_proc ::=
  fun l => <[0%nat := proc0 <| p_state := RUNNABLE |> <| p_wtime := 42949672 |>]> l |>) [].
Lemma clockintr_overflow : match clockintr demo_old with Fault s _ => s | _ => EmptyString end
  = "int overflow"%string.
Proof. vm_compute. exact eq_refl. Qed.

(** *** Witnesses *)

(** Three RUNNABLE processes; the second and the third have the best priority, and the
    third ran less often. *)
Definition demo_table : world := World (kernel0 <| k_proc :=
  [proc0 <| p_state := RUNNABLE |> <| p_dp := 60 |> <| p_sp := 50 |>;
   proc0 <| p_state := RUNNABLE |> <| p_dp := 40 |> <| p_sp := 50 |> <| p_num_sch := 2 |>;
   proc0 <| p_state := RUNNABLE |> <| p_dp := 40 |> <| p_sp := 50 |> <| p_num_sch := 1 |>]
  ++ replicate 61 proc0 |>) [].

Lemma scheduler_round_correct_witness : exists h, chosen (k_proc (w_k demo_table)) h /\
  scheduler_round demo_table = Blocked (World (dispatched h (w_k demo_table)) []).
Proof.
  destruct (scheduler_round_correct demo_table eq_refl eq_refl) as [[H _]|H].
  - apply (bool_decide_unpack _). vm_compute. exact I.
  - constructor.
  - apply Forall_cons in H as [H _]. exfalso. by apply H.
  - exact H.
Defined.

Lemma demo_table_free : no_proc_lock demo_table.
Proof. intros i. apply not_elem_of_nil. Qed.
Lemma demo_table_small : Forall small_times (accounted <$> k_proc (w_k demo_table)).
Proof. apply (bool_decide_unpack _). vm_compute. exact I. Qed.

Lemma clockintr_correct_witness : clockintr demo_table = Ok tt (after_tick demo_table) /\
  p_dp <$> k_proc (w_k (after_tick demo_table)) !! 0%nat = Some 50.
Proof.
  split; [|vm_compute; exact eq_refl].
  exact (clockintr_correct demo_table eq_refl demo_table_free (not_elem_of_nil _) demo_table_small).
Defined.

Lemma clockintr_range_witness : exists p, k_proc (w_k (after_tick demo_table)) !! 1%nat = Some p /\
  0 <= p_dp p <= 100 /\ 0 <= p_rbi p < 150.
Proof.
  eexists. split; [vm_compute; exact eq_refl|].
  refine (clockintr_range demo_table eq_refl demo_table_free (not_elem_of_nil _) demo_table_small
    (after_tick demo_table) _ 1%nat _ _ _).
  - by apply wp_exact, (wp_clockintr _ demo_table _ eq_refl demo_table_free (not_elem_of_nil _) demo_table_small).
  - vm_compute. exact eq_refl.
  - vm_compute. discriminate.
Defined.
