(* ===== verification/Fair.v ===== *)
(** No starvation among equals, under conditions on the schedule: a process whose dynamic priority is as
    good as any other's gets the CPU after a bounded number of rounds of the scheduler of file Sched.

    The schedule - what each process does while it has the CPU - is any under which nobody is
    created, the process stays RUNNABLE with its priority, and no better priority comes
    into the table. *)

From S2P Require Export Sched.

(** * Sums over a list *)

Definition sum (l : list nat) : nat := foldr Nat.add 0%nat l.

Lemma sum_insert l i x y : l !! i = Some x -> (sum (<[i := y]> l) + x = sum l + y)%nat.
Proof.
  revert i. induction l as [|z l IH]; intros [|i] H; [done..| |].
  - injection H as ->. change (y + sum l + x = x + sum l + y)%nat. lia.
  - specialize (IH i H). change (z + sum (<[i := y]> l) + x = z + sum l + y)%nat. lia.
Qed.

Lemma sum_ge l i x : l !! i = Some x -> (x <= sum l)%nat.
Proof. intros H. pose proof (sum_insert l i x 0 H). lia. Qed.

(** * The schedule *)

(** A process that is there is not before priority [d]. *)
Definition rival (d : Z) (q : proc) : Prop :=
  0 <= p_dp q < 4294967296 /\ (p_state q <> UNUSED -> d <= p_dp q /\ 0 <= p_num_sch q).

(** The table: everyone's priority is at best [d], which process [i], RUNNABLE and
    scheduled [n] times so far, has. *)
Record waiting (i : nat) (d n : Z) (ps : list proc) : Prop := Waiting {
  wt_len : length ps = NPROC;
  wt_proc : exists p, ps !! i = Some p /\ p_state p = RUNNABLE /\ p_dp p = d /\ p_num_sch p = n;
  wt_rival : Forall (rival d) ps }.

(** What the processes do in a turn: nobody is created and nobody's count changes, though
    processes may exit and be reaped; no better priority appears; process [i] waits as
    before. *)
Record fair (i : nat) (d : Z) (f : kernel -> kernel) : Prop := Fair {
  fair_ok : env_ok f;
  fair_num : forall k j q', k_proc (f k) !! j = Some q' -> p_state q' <> UNUSED ->
    exists q, k_proc k !! j = Some q /\ p_state q <> UNUSED /\ p_num_sch q' = p_num_sch q;
  fair_dp : forall k, Forall (rival d) (k_proc k) -> Forall (rival d) (k_proc (f k));
  fair_proc : forall k p, k_proc k !! i = Some p -> p_state p = RUNNABLE ->
    exists p', k_proc (f k) !! i = Some p' /\ p_state p' = RUNNABLE /\ p_dp p' = p_dp p }.

(** How often the processes can still come before one scheduled [n] times. *)
Definition ahead (n : Z) (q : proc) : nat :=
  if decide (p_state q = UNUSED) then 0%nat else Z.to_nat (n + 1 - p_num_sch q).
Definition bound (n : Z) (ps : list proc) : nat := sum (ahead n <$> ps).

Lemma ahead_here n q : p_state q <> UNUSED -> ahead n q = Z.to_nat (n + 1 - p_num_sch q).
Proof. intros H. unfold ahead. by rewrite decide_False. Qed.

Lemma bound_le n ps ps' :
  (forall j q', ps' !! j = Some q' -> exists q, ps !! j = Some q /\ (ahead n q' <= ahead n q)%nat) ->
  (bound n ps' <= bound n ps)%nat.
Proof.
  revert ps. induction ps' as [|q' ps' IH]; intros ps H; [apply Nat.le_0_l|].
  destruct (H 0%nat q' eq_refl) as (q & Hq & Hle). destruct ps as [|q0 ps]; [done|]. injection Hq as ->.
  change (ahead n q' + bound n ps' <= ahead n q + bound n ps)%nat.
  specialize (IH ps (fun j => H (S j))). lia.
Qed.

Section Round.
Context (i : nat) (d n : Z) (h : nat) (k : kernel).
Context (Hw : waiting i d n (k_proc k)) (Hn : n < 4294967295) (Hc : chosen (k_proc k) h) (Hne : h <> i).

(** Who is chosen before process [i] was scheduled no more often. *)
Lemma chosen_before : exists q, k_proc k !! h = Some q /\ p_state q = RUNNABLE /\ 0 <= p_num_sch q <= n /\
  rival d q.
Proof.
  destruct Hc as (q & Hq & Hsq & Hb). destruct Hw as [_ (p & Hp & Hs & Hd & Hnum) Hr].
  exists q. pose proof (Forall_lookup_1 _ _ _ _ Hr Hq) as Hrq. destruct Hrq as [Hu Hrq].
  destruct Hrq as [Hdq Hnq]; [by rewrite Hsq|]. split_and!; [done|done|done| |by split].
  destruct (Hb i p Hp Hs ltac:(done)) as [?|[_ [?|[? _]]]]; lia.
Qed.

Lemma dispatched_waiting : waiting i d n (k_proc (dispatched h k)) /\
  (bound n (k_proc (dispatched h k)) < bound n (k_proc k))%nat.
Proof.
  destruct chosen_before as (q & Hq & Hsq & Hle & Hrq). destruct Hw as [Hlen (p & Hp & Hs & Hd & Hnp) Hr].
  assert (Hlk : forall j, j <> h -> k_proc (dispatched h k) !! j = k_proc k !! j)
    by (intros j Hj; cbn; by apply list_lookup_alter_ne).
  assert (Hqh : exists q', k_proc (dispatched h k) !! h = Some q' /\ p_state q' = RUNNING /\
    p_num_sch q' = p_num_sch q + 1 /\ p_dp q' = p_dp q).
  { cbn. rewrite list_lookup_alter_eq, Hq. eexists. split_and!; try done. cbn. by rewrite u32_small by lia. }
  destruct Hqh as (q' & Hq' & Hs' & Hn' & Hd'). split.
  - split.
    + cbn. by rewrite length_alter.
    + exists p. by rewrite Hlk.
    + apply Forall_lookup. intros j r. destruct (decide (j = h)) as [->|Hj].
      * rewrite Hq'. intros [= <-]. destruct Hrq as [? Hrq]. unfold rival. rewrite Hd', Hn'.
        split; [done|]. intros _. destruct Hrq; [by rewrite Hsq|]. lia.
      * rewrite Hlk by done. apply (Forall_lookup_1 _ _ _ _ Hr).
  - unfold bound. assert (He : ahead n <$> k_proc (dispatched h k) = <[h := ahead n q']> (ahead n <$> k_proc k)).
    { apply list_eq. intros j. rewrite list_lookup_fmap. destruct (decide (h = j)) as [<-|Hj].
      - rewrite Hq', list_lookup_insert_eq; [done|]. rewrite length_fmap. by eapply lookup_lt_Some.
      - by rewrite Hlk, list_lookup_insert_ne, list_lookup_fmap by done. }
    rewrite He. assert (Hh : (ahead n <$> k_proc k) !! h = Some (ahead n q)) by by rewrite list_lookup_fmap, Hq.
    pose proof (sum_insert _ _ _ (ahead n q') Hh). rewrite (ahead_here n q), (ahead_here n q') in *
      by (congruence || done). lia.
Qed.

Lemma fair_waiting f : fair i d f -> waiting i d n (k_proc (idle (f (dispatched h k)))) /\
  (bound n (k_proc (idle (f (dispatched h k)))) < bound n (k_proc k))%nat.
Proof.
  intros Hf. destruct dispatched_waiting as [[Hlen (p & Hp & Hs & Hd & Hnp) Hr] Hb].
  pose proof (fair_num _ _ _ Hf (dispatched h k)) as Hnum. cbn [k_proc idle]. split.
  - split.
    + change (length (k_proc (f (dispatched h k))) = NPROC). by rewrite (env_procs f (fair_ok _ _ _ Hf)).
    + destruct (fair_proc _ _ _ Hf _ p Hp Hs) as (p' & Hp' & Hs' & Hd'). exists p'.
      split_and!; [done|done|by rewrite Hd'|]. destruct (Hnum i p' Hp') as (p0 & Hp0 & _ & ->); [by rewrite Hs'|].
      rewrite Hp in Hp0. by injection Hp0 as <-.
    + by apply (fair_dp _ _ _ Hf).
  - eapply Nat.le_lt_trans; [|exact Hb]. apply bound_le. intros j q' Hq'. change (k_proc (idle ?x)) with (k_proc x) in Hq'.
    unfold ahead at 1. destruct (decide (p_state q' = UNUSED)) as [Hu|Hu].
    + destruct (lookup_lt_is_Some_2 (k_proc (dispatched h k)) j) as [q Hq]; [|exists q; split; [done|lia]].
      apply lookup_lt_Some in Hq'. by rewrite (env_procs f (fair_ok _ _ _ Hf)) in Hq'.
    + destruct (Hnum j q' Hq' Hu) as (q & Hq & Hsq & ->). exists q. split; [done|].
      by rewrite ahead_here.
Qed.
End Round.

(** * Progress *)

Lemma for_do_const {X} (m : K unit) (xs ys : list X) : length xs = length ys -> forall w,
  for_do xs (fun _ => m) w = for_do ys (fun _ => m) w.
Proof.
  revert ys. induction xs as [|x xs IH]; intros [|y ys] H; try done. intros w. cbn. unfold bind.
  destruct (m w); [|done..]. apply IH. by injection H.
Qed.

Lemma rounds_reach i d n : n < 4294967295 -> forall N w,
  waiting i d n (k_proc (w_k w)) -> k_held (w_k w) = [] -> Forall (fair i d) (w_env w) ->
  (bound n (k_proc (w_k w)) <= N)%nat -> (N <= length (w_env w))%nat ->
  exists m w', (m < N)%nat /\ for_do (seq 0 m) (fun _ => scheduler_round) w = Ok tt w' /\
    chosen (k_proc (w_k w')) i.
Proof.
  intros Hn. induction N as [|N IH]; intros w Hw Hh Henv Hb Hl.
  - exfalso. destruct Hw as [_ (p & Hp & Hs0 & _ & Hnp) _].
    pose proof (sum_ge (ahead n <$> k_proc (w_k w)) i (ahead n p)) as Hs.
    rewrite list_lookup_fmap, Hp in Hs. specialize (Hs eq_refl).
    assert (1 <= ahead n p)%nat by (rewrite ahead_here by congruence; lia). unfold bound in Hb. lia.
  - assert (Hok : Forall env_ok (w_env w)) by (eapply Forall_impl; [exact Henv|]; intros f; apply fair_ok).
    assert (Hdp : Forall uint_dp (k_proc (w_k w))).
    { eapply Forall_impl; [apply (wt_rival _ _ _ _ Hw)|]. by intros q []. }
    destruct (scheduler_round_cases w Hh (wt_len _ _ _ _ Hw) Hdp Hok) as [[Hno _]|(h & Hc & Hr)].
    { exfalso. destruct Hw as [_ (p & Hp & Hs & _) _]. by apply (Forall_lookup_1 _ _ _ _ Hno Hp). }
    destruct (decide (h = i)) as [->|Hne]; [by exists 0%nat, w; split; [lia|]|].
    destruct (w_env w) as [|f e] eqn:Ee; [cbn in Hl; lia|]. apply Forall_cons in Henv as [Hf Henv].
    destruct (fair_waiting i d n h (w_k w) Hw Hn Hc Hne f Hf) as [Hw' Hb'].
    destruct (IH (World (idle (f (dispatched h (w_k w)))) e)) as (m & w' & Hm & Hrun & Hch);
      [done|done|done|cbn [w_k]; lia|cbn in Hl |- *; lia|].
    exists (S m), w'. split_and!; [lia| |done]. cbn [seq for_do]. rewrite (bind_Ok _ _ _ _ _ Hr).
    rewrite (for_do_const _ (seq 1 m) (seq 0 m)) by by rewrite !length_seq. exact Hrun.
Qed.

(** C13. No starvation among equals.  If a process is RUNNABLE and nobody that is there has a
    better dynamic priority, then under every [fair] schedule - one under which, from turn to
    turn, no process is created, no better priority appears, and the process stays RUNNABLE with
    its priority - however long the others run, exit or are reaped, the scheduler comes to
    choose it: after fewer rounds than the numbers of times the others can be scheduled
    before they have been scheduled once more than it.  New children, which have been
    scheduled 0 times, do come before it for as long as they arrive. *)
Theorem scheduler_liveness i d n w :
  n < 4294967295 -> waiting i d n (k_proc (w_k w)) -> k_held (w_k w) = [] -> Forall (fair i d) (w_env w) ->
  (bound n (k_proc (w_k w)) <= length (w_env w))%nat ->
  exists m w', (m < bound n (k_proc (w_k w)))%nat /\ scheduler m w = Ok tt w' /\ chosen (k_proc (w_k w')) i.
Proof.
  intros Hn Hw Hh Henv Hl.
  apply (rounds_reach i d n Hn _ (w <| w_k ::= fun k => k <| k_cur := None |> |>)); done.
Qed.

(** Three processes of the same priority; each runs and yields. *)
Definition yields (k : kernel) : kernel :=
  k <| k_proc ::= fun ps => (fun q => if decide (p_state q = RUNNING) then q <| p_state := RUNNABLE |> else q) <$> ps |>.

Lemma yields_fair i d : fair i d yields.
Proof.
  assert (Hl : forall k j, k_proc (yields k) !! j =
    (fun q => if decide (p_state q = RUNNING) then q <| p_state := RUNNABLE |> else q) <$> k_proc k !! j)
    by (intros k j; apply list_lookup_fmap).
  split.
  - split; intros k; [done..|]. apply length_fmap.
  - intros k j q' Hq' Hu. rewrite Hl in Hq'. destruct (k_proc k !! j) as [q|]; [|done]. exists q. injection Hq' as <-.
    split; [done|]. case_decide as Hd; [by rewrite Hd|done].
  - intros k H. apply Forall_fmap. eapply Forall_impl; [exact H|]. intros q [H1 H2]. cbn. case_decide as Hd; [|by split].
    split; [done|]. intros _. apply H2. by rewrite Hd.
  - intros k p Hp Hs. exists p. rewrite Hl, Hp. cbn. by rewrite decide_False by (rewrite Hs; discriminate).
Qed.

Definition demo_three : world := World (kernel0 <| k_proc :=
  [proc0 <| p_state := RUNNABLE |> <| p_dp := 40 |>;
   proc0 <| p_state := RUNNABLE |> <| p_dp := 40 |> <| p_num_sch := 2 |>;
   proc0 <| p_state := RUNNABLE |> <| p_dp := 40 |> <| p_num_sch := 1 |>]
  ++ replicate 61 proc0 |>) (replicate 6 yields).

Lemma scheduler_liveness_witness : exists m w', (m < 6)%nat /\ scheduler m demo_three = Ok tt w' /\
  chosen (k_proc (w_k w')) 1.
Proof.
  apply (scheduler_liveness 1 40 2 demo_three ltac:(lia)).
  - split; [exact eq_refl|eexists; split_and!; exact eq_refl|].
    apply Forall_app. split; [repeat constructor; done|]. by apply Forall_replicate.
  - exact eq_refl.
  - do 6 (constructor; [apply yields_fair|]). constructor.
  - vm_compute. lia.
Defined.
