(* ===== verification/Sleeplock.v ===== *)
(** Sleep-locks: kernel/sleeplock.c.

    A sleep-lock is a field of a buffer or of an inode, named by [slid]; its own
    spinlock [LkSleep s] is held only inside the four functions.  The theorems: a
    process gets the lock only at a moment when it is free, whatever the schedule does
    while it sleeps, and gets it at once when it is free; releasing it frees it and
    wakes the processes that wait for it. *)

From S2P Require Export Proc.

Definition initsleeplock (s : slid) : K unit :=
  upd_sl s (fun l => l <| sl_locked := 0 |>) ;;;
  upd_sl s (fun l => l <| sl_pid := 0 |>).

Definition acquiresleep (s : slid) : K unit :=
  acquire (LkSleep s) ;;;
  loop_env 0 (fun _ : unit =>
    l <- get_sl s ;;
    if negb (sl_locked l =? 0) then sleep (ChSleep s) (LkSleep s) ;;; ret (inl tt)
    else ret (inr tt)) tt ;;;
  upd_sl s (fun l => l <| sl_locked := 1 |>) ;;;
  i <- curproc ;;
  p <- get_proc i ;;
  upd_sl s (fun l => l <| sl_pid := p_pid p |>) ;;;
  release (LkSleep s).

Definition releasesleep (s : slid) : K unit :=
  acquire (LkSleep s) ;;;
  upd_sl s (fun l => l <| sl_locked := 0 |>) ;;;
  upd_sl s (fun l => l <| sl_pid := 0 |>) ;;;
  wakeup (ChSleep s) ;;;
  release (LkSleep s).

Definition holdingsleep (s : slid) : K bool :=
  acquire (LkSleep s) ;;;
  l <- get_sl s ;;
  i <- curproc ;;
  p <- get_proc i ;;
  release (LkSleep s) ;;;
  ret (negb (sl_locked l =? 0) && (sl_pid l =? p_pid p)).

(** * The lock in the kernel's state *)

Definition sl_of (k : kernel) (s : slid) : option sleeplock :=
  match s with
  | SlBuf i => b_lock <$> bc_buf (k_bcache k) !! i
  | SlInode i => i_lock <$> k_inode k !! i
  end.

Definition set_sl (s : slid) (l : sleeplock) (k : kernel) : kernel :=
  match s with
  | SlBuf i => upd_bufs i (fun b => b <| b_lock := l |>) k
  | SlInode i => upd_inodes i (fun ip => ip <| i_lock := l |>) k
  end.

Lemma sl_of_set_sl s l l0 k : sl_of k s = Some l0 -> sl_of (set_sl s l k) s = Some l.
Proof.
  destruct s as [i|i]; cbn; rewrite list_lookup_alter_eq;
    [destruct (bc_buf (k_bcache k) !! i)|destruct (k_inode k !! i)]; naive_solver.
Qed.

Lemma wp_get_sl E s l w (Q : sleeplock -> world -> Prop) :
  sl_of (w_k w) s = Some l -> Q l w -> wp E (get_sl s) Q w.
Proof.
  destruct s as [i|i]; cbn; intros H HQ; apply fmap_Some in H as (b & Hb & ->); apply wp_bind.
  - by eapply wp_get_buf.
  - by eapply wp_get_inode.
Qed.

Lemma wp_upd_sl E s l f w (Q : unit -> world -> Prop) :
  sl_of (w_k w) s = Some l -> Q tt (World (set_sl s (f l) (w_k w)) (w_env w)) ->
  wp E (upd_sl s f) Q w.
Proof.
  destruct s as [i|i]; cbn; intros H HQ; apply fmap_Some in H as (b & Hb & ->).
  - eapply wp_upd_bufs; [exact Hb|]. unfold upd_bufs in *.
    by erewrite set_bufs_ext; [exact HQ|apply (alter_ext_at _ _ _ _ b)].
  - eapply wp_upd_inodes; [exact Hb|]. unfold upd_inodes in *.
    by erewrite set_inodes_ext; [exact HQ|apply (alter_ext_at _ _ _ _ b)].
Qed.

(** * Who gets the lock *)

(** The schedule keeps the array the lock is in. *)
Definition keeps_sl (s : slid) (f : kernel -> kernel) : Prop :=
  env_ok f /\ forall k, is_Some (sl_of k s) -> is_Some (sl_of (f k) s).

(** The state after the process of pid [pid] took the lock in [k]. *)
Definition took (s : slid) (pid : Z) (k : kernel) : kernel := set_sl s (Sleeplock 1 pid) k.

(** What a process that waits for [s] sees: [k] is the state in which it finds the lock
    free, after the schedule's parts [used]. *)
Inductive waits (i : nat) (s : slid) : kernel -> list (kernel -> kernel) -> kernel -> Prop :=
| waits_free k l : sl_of k s = Some l -> sl_locked l = 0 -> waits i s k [] k
| waits_sleep k l f used k' : sl_of k s = Some l -> sl_locked l <> 0 ->
    waits i s (awake i (LkSleep s) (f (asleep (ChSleep s) i [] k))) used k' ->
    waits i s k (f :: used) k'.

Definition sl_free_at (s : slid) (k : kernel) : Prop :=
  exists l, sl_of k s = Some l /\ sl_locked l = 0.

Lemma sl_of_upd_procs i f s k : sl_of (upd_procs i f k) s = sl_of k s.
Proof. by destruct s. Qed.
Lemma sl_of_held h s k : sl_of (k <| k_held := h |>) s = sl_of k s.
Proof. by destruct s. Qed.

Lemma waits_end i s k used k' : waits i s k used k' -> sl_free_at s k'.
Proof. induction 1; [by exists l|done]. Qed.

Lemma sl_cur s l k : k_cur (set_sl s l k) = k_cur k.
Proof. by destruct s. Qed.
Lemma sl_held s l k : k_held (set_sl s l k) = k_held k.
Proof. by destruct s. Qed.
Lemma sl_proc s l k : k_proc (set_sl s l k) = k_proc k.
Proof. by destruct s. Qed.
Lemma set_sl_twice s l l' k : set_sl s l (set_sl s l' k) = set_sl s l k.
Proof. destruct s; [apply upd_bufs_upd_bufs|apply upd_inodes_upd_inodes]. Qed.

Lemma not_in_lock i s : LkProc i ∉ [LkSleep s].
Proof. apply not_elem_of_cons. split; [done|apply not_elem_of_nil]. Qed.

(** The waiting loop of [acquiresleep]. *)
Lemma wp_wait_sleep E s i w (Q : unit -> world -> Prop) n :
  (length (w_env w) < n)%nat ->
  k_cur (w_k w) = Some i -> is_Some (k_proc (w_k w) !! i) -> k_held (w_k w) = [LkSleep s] ->
  is_Some (sl_of (w_k w) s) -> Forall (keeps_sl s) (w_env w) ->
  (forall k l, sl_of k s = Some l -> sl_locked l <> 0 ->
    on_blocked E (World (asleep (ChSleep s) i [] k) [])) ->
  (forall used k' env', w_env w = used ++ env' -> waits i s (w_k w) used k' ->
    k_cur k' = Some i -> is_Some (k_proc k' !! i) -> k_held k' = [LkSleep s] -> Q tt (World k' env')) ->
  wp E (loop n (fun _ : unit =>
    l <- get_sl s ;;
    if negb (sl_locked l =? 0) then sleep (ChSleep s) (LkSleep s) ;;; ret (inl tt)
    else ret (inr tt)) tt) Q w.
Proof.
  revert w. induction n as [|n IH]; intros w Hn Hcur [p Hp] Hh [l Hl] Henv Hblk HQ; [lia|].
  cbn [loop]. kstep. kstep. eapply wp_get_sl; [exact Hl|].
  destruct (sl_locked l =? 0) eqn:El; cbn [negb].
  - repeat kstep. destruct w as [k e]. apply (HQ []); [done| |done|by exists p|done].
    apply (waits_free _ _ _ l); [done|blia].
  - kstep. assert (Henv' : Forall env_ok (w_env w)) by (eapply Forall_impl; [exact Henv|by intros ? []]).
    eapply wp_sleep; [done|exact Hp|exact Hh|by apply not_in_lock|done|].
    assert (Hl0 : sl_locked l <> 0) by blia.
    destruct (w_env w) as [|f e] eqn:Ee; [by eapply Hblk|].
    apply Forall_cons in Henv as [[Hf Hfs] Henv]. apply Forall_cons in Henv' as [_ Henv'].
    destruct (env_proc f _ i _ Hf (asleep_proc (ChSleep s) i [] _ p Hp)) as [p' Hp'].
    kstep. apply IH; cbn [w_k w_env].
    + cbn in Hn. lia.
    + cbn. by rewrite (env_cur f Hf).
    + cbn. rewrite list_lookup_alter_eq, Hp'. by eexists.
    + done.
    + unfold awake. rewrite sl_of_upd_procs, sl_of_held. apply Hfs.
      unfold asleep. rewrite sl_of_upd_procs, sl_of_held. by exists l.
    + done.
    + exact Hblk.
    + intros used k' env' -> Hw. apply (HQ (f :: used)); [done|]. by apply (waits_sleep _ _ _ l).
Qed.

(** A process that calls [acquiresleep] with no lock held gets the sleep-lock in a state
    in which it is free, after as much of the schedule as it takes, and marks it with
    its pid; if the schedule ends before, it is asleep on a lock that is held.  It never
    panics. *)
Theorem acquiresleep_correct s i w :
  k_cur (w_k w) = Some i -> is_Some (k_proc (w_k w) !! i) -> k_held (w_k w) = [] ->
  is_Some (sl_of (w_k w) s) -> Forall (keeps_sl s) (w_env w) ->
  wp (XPost (fun _ _ => False) (fun _ _ => False) (fun w' => exists k l,
        sl_of k s = Some l /\ sl_locked l <> 0 /\ w' = World (asleep (ChSleep s) i [] k) []))
    (acquiresleep s) (fun _ w' => exists used k p,
      w_env w = used ++ w_env w' /\ waits i s ((w_k w) <| k_held := [LkSleep s] |>) used k /\
      sl_free_at s k /\ k_proc k !! i = Some p /\
      w_k w' = (took s (p_pid p) k) <| k_held := [] |>) w.
Proof.
  intros Hcur Hp Hh Hs Henv. unfold acquiresleep.
  kstep. apply wp_acquire; [rewrite Hh; apply not_elem_of_nil|].
  kstep. apply (wp_wait_sleep _ s i); cbn; [lia|done|done|by rewrite Hh|by destruct s|done| |].
  { intros k l Hl Hn. by exists k, l. }
  intros used k env Henv' Hw Hcurk [p Hpk] Hhk. 
  destruct (waits_end _ _ _ _ _ Hw) as (l & Hl & Hfree).
  kstep. eapply wp_upd_sl; [exact Hl|].
  unfold curproc, myproc. repeat kstep. cbn [w_k]. rewrite sl_cur, Hcurk. repeat kstep.
  eapply wp_get_proc; [cbn [w_k]; by rewrite sl_proc|]. kstep.
  eapply wp_upd_sl; [by eapply sl_of_set_sl|].
  apply (wp_release _ _ _ []); [cbn; rewrite !sl_held, Hhk; apply release_held_head|].
  exists used, k, p. split; [done|]. split; [by destruct w as [[]]; cbn in *; subst|].
  split; [by exists l|]. split; [done|]. cbn. unfold took. rewrite set_sl_twice. by destruct s.
Qed.

(** The state after the lock was released: free, its waiters RUNNABLE. *)
Definition released (s : slid) (k : kernel) : kernel :=
  set_sl s (Sleeplock 0 0) (k <| k_proc ::= imap (woken (ChSleep s) (k_cur k)) |>).

Section Rules.
Context (E : xpost world) (s : slid) (l : sleeplock) (w : world) (Hl : sl_of (w_k w) s = Some l)
  (Hlk : LkSleep s ∉ k_held (w_k w)).

Lemma wp_releasesleep (Q : unit -> world -> Prop) :
  length (k_proc (w_k w)) = NPROC -> no_proc_lock w ->
  Q tt (World (released s (w_k w)) (w_env w)) -> wp E (releasesleep s) Q w.
Proof.
  intros Hlen Hfree HQ. unfold releasesleep.
  kstep. apply wp_acquire; [done|].
  assert (Hl' : sl_of ((w_k w) <| k_held ::= cons (LkSleep s) |>) s = Some l) by by destruct s.
  kstep. eapply wp_upd_sl; [exact Hl'|].
  kstep. eapply wp_upd_sl; [by eapply sl_of_set_sl|].
  cbn [w_k w_env]. rewrite set_sl_twice.
  kstep. apply wp_wakeup; cbn [w_k w_env].
  - by rewrite sl_proc.
  - intros i. cbn [w_k]. rewrite sl_held. apply not_elem_of_cons. split; [done|apply Hfree].
  - apply (wp_release _ _ _ (k_held (w_k w))); [cbn; rewrite sl_held; apply release_held_head|].
    rewrite sl_cur, sl_proc.
    match goal with H : Q ?a ?w0 |- Q ?a ?w1 => replace w1 with w0; [done|] end.
    unfold released. by destruct s.
Qed.

(** A free lock is taken at once. *)
Lemma wp_acquiresleep_free i p (Q : unit -> world -> Prop) :
  sl_locked l = 0 -> k_cur (w_k w) = Some i -> k_proc (w_k w) !! i = Some p ->
  Q tt (World (took s (p_pid p) (w_k w)) (w_env w)) -> wp E (acquiresleep s) Q w.
Proof.
  intros Hfree Hcur Hp HQ. unfold acquiresleep.
  kstep. apply wp_acquire; [done|].
  assert (Hl' : sl_of ((w_k w) <| k_held ::= cons (LkSleep s) |>) s = Some l) by by destruct s.
  kstep. apply wp_loop_env. rewrite Nat.add_succ_r. cbn [loop]. kstep. kstep. eapply wp_get_sl; [exact Hl'|].
  rewrite Hfree. cbn [Z.eqb negb]. repeat kstep. eapply wp_upd_sl; [exact Hl'|].
  unfold curproc, myproc. repeat kstep. cbn [w_k]. rewrite sl_cur. cbn. rewrite Hcur. repeat kstep.
  eapply wp_get_proc; [cbn [w_k]; rewrite sl_proc; exact Hp|]. kstep.
  eapply wp_upd_sl; [by eapply sl_of_set_sl|].
  apply (wp_release _ _ _ (k_held (w_k w))); [cbn; rewrite !sl_held; apply release_held_head|].
  cbn. rewrite set_sl_twice. match goal with H : Q ?a ?w0 |- Q ?a ?w1 => replace w1 with w0; [done|] end.
  unfold took. by destruct s, w as [[]].
Qed.

Lemma wp_holdingsleep i p (Q : bool -> world -> Prop) :
  k_cur (w_k w) = Some i -> k_proc (w_k w) !! i = Some p ->
  Q (negb (sl_locked l =? 0) && (sl_pid l =? p_pid p)) w -> wp E (holdingsleep s) Q w.
Proof.
  intros Hcur Hp HQ. unfold holdingsleep, curproc, myproc.
  kstep. apply wp_acquire; [done|].
  kstep. eapply wp_get_sl; [by destruct s|].
  repeat kstep. cbn. rewrite Hcur. repeat kstep.
  by destruct w as [[]].
Qed.
End Rules.

(** [releasesleep] frees the sleep-lock, makes every process that waits for it RUNNABLE, and
    changes nothing else. *)
Theorem releasesleep_correct s w : is_Some (sl_of (w_k w) s) ->
  LkSleep s ∉ k_held (w_k w) -> no_proc_lock w -> length (k_proc (w_k w)) = NPROC ->
  releasesleep s w = Ok tt (World (released s (w_k w)) (w_env w)).
Proof. intros [l Hl] Hlk Hfree Hlen. by apply wp_exact, (wp_releasesleep _ s l). Qed.

(** *** Witnesses *)

(** Process 1 waits for buffer 3's lock, which the schedule releases. *)
Definition demo_locked : world := World (kernel0 <| k_cur := Some 1%nat |>
  <| k_bcache ::= fun c => c <| bc_buf ::= alter (fun b => b <| b_lock := Sleeplock 1 9 |>) 3%nat |> |>)
  [set_sl (SlBuf 3) (Sleeplock 0 0)].

Lemma demo_locked_keeps : Forall (keeps_sl (SlBuf 3)) (w_env demo_locked).
Proof.
  constructor; [|constructor]. split; [split; intros k; by destruct k|].
  intros k [l Hl]. exists (Sleeplock 0 0). by eapply sl_of_set_sl.
Qed.

Lemma acquiresleep_correct_witness : exists a w', acquiresleep (SlBuf 3) demo_locked = Ok a w' /\
  exists used k p, w_env demo_locked = used ++ w_env w' /\
    waits 1 (SlBuf 3) ((w_k demo_locked) <| k_held := [LkSleep (SlBuf 3)] |>) used k /\
    sl_free_at (SlBuf 3) k /\ k_proc k !! 1%nat = Some p /\
    w_k w' = (took (SlBuf 3) (p_pid p) k) <| k_held := [] |>.
Proof.
  refine (wp_returned _ _ _ _ (acquiresleep_correct (SlBuf 3) 1 demo_locked eq_refl
    (ex_intro _ proc0 eq_refl) eq_refl (ex_intro _ (Sleeplock 1 9) eq_refl) demo_locked_keeps) _).
  vm_compute. exact eq_refl.
Defined.

Lemma releasesleep_correct_witness :
  sl_of (w_k (match releasesleep (SlBuf 3) demo_locked with Ok _ w => w | _ => world0 end)) (SlBuf 3)
    = Some sleeplock0.
Proof.
  rewrite (releasesleep_correct (SlBuf 3) demo_locked (ex_intro _ (Sleeplock 1 9) eq_refl)
    (not_elem_of_nil _) (fun i => not_elem_of_nil _) eq_refl).
  vm_compute. exact eq_refl.
Defined.
