(* ===== verification/Virtio.v ===== *)
(** The disk driver: kernel/virtio_disk.c, and the interrupt controller: kernel/plic.c.

    The three pages the driver shares with the device are fields of [vdisk]; device
    registers are read from [k_mmio_in] and written to [k_mmio_out].  The device is not
    part of the program: theorems about [virtio_disk_rw] are for any [device] that
    follows the law [device_ok] of file Disk. *)

From S2P Require Export Sched.

(** * kernel/plic.c *)

Definition plicinit : K unit :=
  mmio_write (PLIC + UART0_IRQ * 4) 1 ;;;
  mmio_write (PLIC + VIRTIO0_IRQ * 4) 1.

Definition plicinithart (hart : Z) : K unit :=
  mmio_write (PLIC_SENABLE hart) (Z.lor (Z.shiftl 1 UART0_IRQ) (Z.shiftl 1 VIRTIO0_IRQ)) ;;;
  mmio_write (PLIC_SPRIORITY hart) 0.

Definition plic_claim (hart : Z) : K Z :=
  irq <- mmio_read (PLIC_SCLAIM hart) ;; ret (s32 irq).

Definition plic_complete (hart irq : Z) : K unit := mmio_write (PLIC_SCLAIM hart) (u32 irq).

(** * kernel/virtio.h *)

Definition NUM : nat := 8.
Definition VIRTIO_MMIO_MAGIC_VALUE : Z := 0.
Definition VIRTIO_MMIO_VERSION : Z := 4.
Definition VIRTIO_MMIO_DEVICE_ID : Z := 8.
Definition VIRTIO_MMIO_VENDOR_ID : Z := 12.
Definition VIRTIO_MMIO_DEVICE_FEATURES : Z := 16.
Definition VIRTIO_MMIO_DRIVER_FEATURES : Z := 32.
Definition VIRTIO_MMIO_QUEUE_SEL : Z := 48.
Definition VIRTIO_MMIO_QUEUE_NUM_MAX : Z := 52.
Definition VIRTIO_MMIO_QUEUE_NUM : Z := 56.
Definition VIRTIO_MMIO_QUEUE_READY : Z := 68.
Definition VIRTIO_MMIO_QUEUE_NOTIFY : Z := 80.
Definition VIRTIO_MMIO_INTERRUPT_STATUS : Z := 96.
Definition VIRTIO_MMIO_INTERRUPT_ACK : Z := 100.
Definition VIRTIO_MMIO_STATUS : Z := 112.
Definition VIRTIO_MMIO_QUEUE_DESC_LOW : Z := 128.
Definition VIRTIO_MMIO_QUEUE_DESC_HIGH : Z := 132.
Definition VIRTIO_MMIO_DRIVER_DESC_LOW : Z := 144.
Definition VIRTIO_MMIO_DRIVER_DESC_HIGH : Z := 148.
Definition VIRTIO_MMIO_DEVICE_DESC_LOW : Z := 160.
Definition VIRTIO_MMIO_DEVICE_DESC_HIGH : Z := 164.
Definition VIRTIO_CONFIG_S_ACKNOWLEDGE : Z := 1.
Definition VIRTIO_CONFIG_S_DRIVER : Z := 2.
Definition VIRTIO_CONFIG_S_DRIVER_OK : Z := 4.
Definition VIRTIO_CONFIG_S_FEATURES_OK : Z := 8.
Definition VIRTIO_BLK_F_RO : Z := 5.
Definition VIRTIO_BLK_F_SCSI : Z := 7.
Definition VIRTIO_BLK_F_CONFIG_WCE : Z := 11.
Definition VIRTIO_BLK_F_MQ : Z := 12.
Definition VIRTIO_F_ANY_LAYOUT : Z := 27.
Definition VIRTIO_RING_F_INDIRECT_DESC : Z := 28.
Definition VIRTIO_RING_F_EVENT_IDX : Z := 29.
Definition VRING_DESC_F_NEXT : Z := 1.
Definition VRING_DESC_F_WRITE : Z := 2.
Definition VIRTIO_BLK_T_IN : Z := 0.
Definition VIRTIO_BLK_T_OUT : Z := 1.
Definition BSIZE : Z := 1024.

(** * kernel/virtio_disk.c *)

Definition R (r : Z) : Z := VIRTIO0 + r.

Definition getv {A} (f : vdisk -> A) : K A := getk (fun k => f (k_vdisk k)).
Definition modv (f : vdisk -> vdisk) : K unit := modk (fun k => k <| k_vdisk ::= f |>).

(** [features &= ~(1 << f)] *)
Definition without_feature (features f : Z) : Z := Z.land features (Z.lnot (Z.shiftl 1 f)).

Definition virtio_disk_init : K unit :=
  magic <- mmio_read (R VIRTIO_MMIO_MAGIC_VALUE) ;;
  bad <- (if negb (magic =? 1953655158) then ret true else
          version <- mmio_read (R VIRTIO_MMIO_VERSION) ;;
          if negb (version =? 2) then ret true else
          device <- mmio_read (R VIRTIO_MMIO_DEVICE_ID) ;;
          if negb (device =? 2) then ret true else
          vendor <- mmio_read (R VIRTIO_MMIO_VENDOR_ID) ;;
          ret (negb (vendor =? 1431127377))) ;;
  if bad : bool then panic "could not find virtio disk" else
  mmio_write (R VIRTIO_MMIO_STATUS) 0 ;;;
  let status := VIRTIO_CONFIG_S_ACKNOWLEDGE in
  mmio_write (R VIRTIO_MMIO_STATUS) status ;;;
  let status := Z.lor status VIRTIO_CONFIG_S_DRIVER in
  mmio_write (R VIRTIO_MMIO_STATUS) status ;;;
  (* negotiate features *)
  features <- mmio_read (R VIRTIO_MMIO_DEVICE_FEATURES) ;;
  let features := without_feature features VIRTIO_BLK_F_RO in
  let features := without_feature features VIRTIO_BLK_F_SCSI in
  let features := without_feature features VIRTIO_BLK_F_CONFIG_WCE in
  let features := without_feature features VIRTIO_BLK_F_MQ in
  let features := without_feature features VIRTIO_F_ANY_LAYOUT in
  let features := without_feature features VIRTIO_RING_F_EVENT_IDX in
  let features := without_feature features VIRTIO_RING_F_INDIRECT_DESC in
  mmio_write (R VIRTIO_MMIO_DRIVER_FEATURES) (u32 features) ;;;
  let status := Z.lor status VIRTIO_CONFIG_S_FEATURES_OK in
  mmio_write (R VIRTIO_MMIO_STATUS) status ;;;
  status <- mmio_read (R VIRTIO_MMIO_STATUS) ;;
  if Z.land status VIRTIO_CONFIG_S_FEATURES_OK =? 0 then panic "virtio disk FEATURES_OK unset" else
  mmio_write (R VIRTIO_MMIO_QUEUE_SEL) 0 ;;;
  ready <- mmio_read (R VIRTIO_MMIO_QUEUE_READY) ;;
  if negb (ready =? 0) then panic "virtio disk should not be ready" else
  max <- mmio_read (R VIRTIO_MMIO_QUEUE_NUM_MAX) ;;
  if max =? 0 then panic "virtio disk has no queue 0" else
  if max <? Z.of_nat NUM then panic "virtio disk max queue too short" else
  (* allocate and zero queue memory *)
  desc <- kalloc ;;
  modv (fun v => v <| vd_desc_pa := desc |>) ;;;
  avail <- kalloc ;;
  modv (fun v => v <| vd_avail_pa := avail |>) ;;;
  used <- kalloc ;;
  modv (fun v => v <| vd_used_pa := used |>) ;;;
  if (desc =? 0) || (avail =? 0) || (used =? 0) then panic "virtio disk kalloc" else
  modv (fun v => v <| vd_desc := replicate NUM desc0 |>
    <| av_idx := 0 |> <| av_ring := replicate NUM 0 |>
    <| us_idx := 0 |> <| us_ring := replicate NUM 0 |>) ;;;
  mmio_write (R VIRTIO_MMIO_QUEUE_NUM) (Z.of_nat NUM) ;;;
  mmio_write (R VIRTIO_MMIO_QUEUE_DESC_LOW) (u32 desc) ;;;
  mmio_write (R VIRTIO_MMIO_QUEUE_DESC_HIGH) (u32 (Z.shiftr desc 32)) ;;;
  mmio_write (R VIRTIO_MMIO_DRIVER_DESC_LOW) (u32 avail) ;;;
  mmio_write (R VIRTIO_MMIO_DRIVER_DESC_HIGH) (u32 (Z.shiftr avail 32)) ;;;
  mmio_write (R VIRTIO_MMIO_DEVICE_DESC_LOW) (u32 used) ;;;
  mmio_write (R VIRTIO_MMIO_DEVICE_DESC_HIGH) (u32 (Z.shiftr used 32)) ;;;
  mmio_write (R VIRTIO_MMIO_QUEUE_READY) 1 ;;;
  modv (fun v => v <| vd_free := replicate NUM 1 |>) ;;;
  let status := Z.lor status VIRTIO_CONFIG_S_DRIVER_OK in
  mmio_write (R VIRTIO_MMIO_STATUS) status.

(** The index of a descriptor, -1 for none. *)
Definition alloc_desc : K Z :=
  r <- for_ret (Z.of_nat <$> seq 0 NUM) (fun i =>
    free <- getv vd_free ;;
    f <- arr_get free i ;;
    if negb (f =? 0) then
      free' <- arr_set free i 0 ;;
      modv (fun v => v <| vd_free := free' |>) ;;; ret (Some i)
    else ret None) ;;
  ret (default (-1) r).

Definition free_desc (i : Z) : K unit :=
  if i >=? Z.of_nat NUM then panic "free_desc 1" else
  free <- getv vd_free ;;
  f <- arr_get free i ;;
  if negb (f =? 0) then panic "free_desc 2" else
  desc <- getv vd_desc ;;
  desc' <- arr_set desc i (VirtqDesc DNull 0 0 0) ;;
  free' <- arr_set free i 1 ;;
  modv (fun v => v <| vd_desc := desc' |> <| vd_free := free' |>) ;;;
  wakeup ChDiskFree.

(** A chain has at most [NUM] descriptors. *)
Definition free_chain (i : Z) : K unit :=
  loop (S NUM) (fun i =>
    desc <- getv vd_desc ;;
    d <- arr_get desc i ;;
    free_desc i ;;;
    if negb (Z.land (d_flags d) VRING_DESC_F_NEXT =? 0) then ret (inl (d_next d))
    else ret (inr tt)) i.

(** The descriptors of a transfer, or none; [idx] are those already allocated. *)
Fixpoint alloc3_from (n : nat) (idx : list Z) : K (option (list Z)) :=
  match n with
  | O => ret (Some idx)
  | S n' =>
    d <- alloc_desc ;;
    if d <? 0 then for_do idx free_desc ;;; ret None
    else alloc3_from n' (idx ++ [d])
  end.
Definition alloc3_desc : K (option (list Z)) := alloc3_from 3 [].

Definition set_desc (i : Z) (d : virtq_desc) : K unit :=
  desc <- getv vd_desc ;; desc' <- arr_set desc i d ;; modv (fun v => v <| vd_desc := desc' |>).
Definition set_info (i : Z) (f : dinfo -> dinfo) : K unit :=
  info <- getv vd_info ;;
  d <- arr_get info i ;;
  info' <- arr_set info i (f d) ;;
  modv (fun v => v <| vd_info := info' |>).

(** [virtio_disk_rw] up to the notification of the device. *)
Definition submit (b : nat) (write : bool) (idx0 idx1 idx2 : Z) : K unit :=
  bb <- get_buf b ;;
  let sector := u32 (b_blockno bb * 2) in
  ops <- getv vd_ops ;;
  ops' <- arr_set ops idx0
    (VirtioBlkReq (if write then VIRTIO_BLK_T_OUT else VIRTIO_BLK_T_IN) 0 sector) ;;
  modv (fun v => v <| vd_ops := ops' |>) ;;;
  set_desc idx0 (VirtqDesc (DOps (Z.to_nat idx0)) 16 VRING_DESC_F_NEXT idx1) ;;;
  set_desc idx1 (VirtqDesc (DData b) BSIZE
    (Z.lor (if write then 0 else VRING_DESC_F_WRITE) VRING_DESC_F_NEXT) idx2) ;;;
  set_info idx0 (fun d => d <| di_status := 255 |>) ;;;
  set_desc idx2 (VirtqDesc (DStatus (Z.to_nat idx0)) 1 VRING_DESC_F_WRITE 0) ;;;
  upd_buf b (fun bb => bb <| b_disk := 1 |>) ;;;
  set_info idx0 (fun d => d <| di_b := Some b |>) ;;;
  ring <- getv av_ring ;;
  i <- getv av_idx ;;
  ring' <- arr_set ring (i mod Z.of_nat NUM) idx0 ;;
  modv (fun v => v <| av_ring := ring' |>) ;;;
  modv (fun v => v <| av_idx := u16 (i + 1) |>) ;;;
  mmio_write (R VIRTIO_MMIO_QUEUE_NOTIFY) 0.

Definition virtio_disk_rw (b : nat) (write : bool) : K unit :=
  acquire LkDisk ;;;
  idx <- loop_env 0 (fun _ : unit =>
    r <- alloc3_desc ;;
    match r with
    | Some idx => ret (inr idx)
    | None => sleep ChDiskFree LkDisk ;;; ret (inl tt)
    end) tt ;;
  match idx with
  | [idx0; idx1; idx2] =>
    submit b write idx0 idx1 idx2 ;;;
    loop_env 0 (fun _ : unit =>
      bb <- get_buf b ;;
      if b_disk bb =? 1 then sleep (ChBuf b) LkDisk ;;; ret (inl tt) else ret (inr tt)) tt ;;;
    set_info idx0 (fun d => d <| di_b := None |>) ;;;
    free_chain idx0 ;;;
    release LkDisk
  | _ => fault "idx"
  end.

(** At most 65535 completions can be outstanding between the two 16-bit counters. *)
Definition virtio_disk_intr : K unit :=
  acquire LkDisk ;;;
  status <- mmio_read (R VIRTIO_MMIO_INTERRUPT_STATUS) ;;
  mmio_write (R VIRTIO_MMIO_INTERRUPT_ACK) (Z.land status 3) ;;;
  loop (Z.to_nat 65537) (fun _ : unit =>
    used_idx <- getv vd_used_idx ;;
    i <- getv us_idx ;;
    if negb (used_idx =? i) then
      ring <- getv us_ring ;;
      id <- arr_get ring (used_idx mod Z.of_nat NUM) ;;
      info <- getv vd_info ;;
      d <- arr_get info (s32 id) ;;
      if negb (di_status d =? 0) then panic "virtio_disk_intr status" else
      b <- from_option_or_fault "info.b" (di_b d) ;;
      upd_buf b (fun bb => bb <| b_disk := 0 |>) ;;;
      wakeup (ChBuf b) ;;;
      modv (fun v => v <| vd_used_idx := u16 (used_idx + 1) |>) ;;;
      ret (inl tt)
    else ret (inr tt)) tt ;;;
  release LkDisk.
