(* ===== verification/Disk.v ===== *)
(** A disk transfer from the driver's side and back: [virtio_disk_rw] of
    kernel/virtio_disk.c with a device that serves the request and the interrupt that
    [virtio_disk_intr] handles.

    The device is a parameter.  [device_ok] is what the virtio specification says of a
    block device that has one request in its available ring; [serve] is such a device.
    The theorem is for one process: the schedule, while it sleeps, is the device and
    the interrupt. *)

From S2P Require Export Virtio.

(** * The device *)

(** What the device leaves when the request at the head of chain [h] is done. *)
Definition complete (h : nat) (s : nat) (rq : virtio_blk_req) (b : nat) (bb : buf) (k : kernel) : kernel :=
  (if rq_type rq =? VIRTIO_BLK_T_OUT
   then k <| k_disk ::= fun D x => if x =? rq_sector rq / 2 then b_data bb else D x |>
          <| k_dwrites ::= fun l => l ++ [(rq_sector rq / 2, b_data bb)] |>
   else upd_bufs b (fun bb => bb <| b_data := k_disk k (rq_sector rq / 2) |>) k)
  <| k_vdisk ::= fun v => v <| vd_info ::= alter (fun d => d <| di_status := 0 |>) s |>
      <| us_ring ::= <[Z.to_nat (us_idx v mod 8) := Z.of_nat h]> |> <| us_idx := u16 (us_idx v + 1) |>
      <| dev_idx := av_idx v |> |>
  <| k_mmio_in := [1] |>.

Definition has_flag (f : Z) (d : virtq_desc) : bool := negb (Z.land (d_flags d) f =? 0).

(** What the specification asks of the driver (5.2.6): a chain of a header of 16 bytes that the
    device reads, a data descriptor that it reads for a write request and writes for a read
    request, and a status of one byte that it writes, which ends the chain; only the two flags
    that were negotiated; the request one of the two the driver makes.  The data is
    one block of two sectors, as the model's disk is a disk of blocks. *)
Definition chain_ok (rq : virtio_blk_req) (d0 d1 d2 : virtq_desc) : bool :=
  ((rq_type rq =? VIRTIO_BLK_T_IN) || (rq_type rq =? VIRTIO_BLK_T_OUT)) &&
  (rq_sector rq mod 2 =? 0) &&
  forallb (fun d => (0 <=? d_flags d) && (d_flags d <? 4)) [d0; d1; d2] &&
  (d_len d0 =? 16) && has_flag VRING_DESC_F_NEXT d0 && negb (has_flag VRING_DESC_F_WRITE d0) &&
  (d_len d1 =? BSIZE) && has_flag VRING_DESC_F_NEXT d1 &&
    eqb (has_flag VRING_DESC_F_WRITE d1) (rq_type rq =? VIRTIO_BLK_T_IN) &&
  (d_len d2 =? 1) && negb (has_flag VRING_DESC_F_NEXT d2) && has_flag VRING_DESC_F_WRITE d2.

(** The request the available ring has next, if it is one the specification allows: the chain,
    the status byte, the header and the buffer. *)
Definition next_request (k : kernel) : option (nat * nat * virtio_blk_req * nat * buf) :=
  let v := k_vdisk k in
  if av_idx v =? us_idx v then None else
  h ← av_ring v !! Z.to_nat (us_idx v mod 8);
  d0 ← vd_desc v !! Z.to_nat h;
  d1 ← vd_desc v !! Z.to_nat (d_next d0);
  d2 ← vd_desc v !! Z.to_nat (d_next d1);
  match d_addr d0, d_addr d1, d_addr d2 with
  | DOps o, DData b, DStatus s =>
    rq ← vd_ops v !! o; bb ← bc_buf (k_bcache k) !! b;
    if chain_ok rq d0 d1 d2 then Some (Z.to_nat h, s, rq, b, bb) else None
  | _, _, _ => None
  end.

(** A device that follows the specification and has no I/O errors: it serves the request in the
    ring, if that is well formed; of any other it promises nothing. *)
Definition device_ok (dev : kernel -> kernel) : Prop := forall k h s rq b bb,
  next_request k = Some (h, s, rq, b, bb) -> dev k = complete h s rq b bb k.

Definition serve (k : kernel) : kernel :=
  match next_request k with
  | Some (h, s, rq, b, bb) => complete h s rq b bb k
  | None => k
  end.
Lemma serve_ok : device_ok serve.
Proof. intros k h s rq b bb H. unfold serve. by rewrite H. Qed.

(** The schedule while process [me] sleeps: the device works, the hart that was idle takes
    the interrupt, and the scheduler runs [me] again. *)
Definition on_irq (dev : kernel -> kernel) (me : nat) (k : kernel) : kernel :=
  match virtio_disk_intr (World (dev (k <| k_held := [] |> <| k_cur := None |>)) []) with
  | Ok _ w => upd_procs me (fun p => p <| p_state := RUNNING |>) (w_k w)
      <| k_held := k_held k |> <| k_cur := k_cur k |>
  | _ => k
  end.

(** * The driver's structures *)

(** No request is under way: all descriptors are free, both rings are at the same place. *)
Record disk_idle (v : vdisk) : Prop := DiskIdle {
  di_free : vd_free v = replicate NUM 1;
  di_desc : length (vd_desc v) = NUM;
  di_avail : length (av_ring v) = NUM;
  di_used : length (us_ring v) = NUM;
  di_infos : length (vd_info v) = NUM;
  di_ops : length (vd_ops v) = NUM;
  di_idx : us_idx v = av_idx v /\ vd_used_idx v = av_idx v /\ 0 <= av_idx v < 65536 }.

(** The request for buffer [b] in descriptors 0, 1 and 2. *)
Definition submitted (b : nat) (write : bool) (blockno : Z) (v : vdisk) : vdisk :=
  v <| vd_free := [0; 0; 0; 1; 1; 1; 1; 1] |>
    <| vd_ops ::= <[0%nat := VirtioBlkReq (if write then VIRTIO_BLK_T_OUT else VIRTIO_BLK_T_IN) 0 (u32 (blockno * 2))]> |>
    <| vd_desc ::= fun d => <[2%nat := VirtqDesc (DStatus 0) 1 VRING_DESC_F_WRITE 0]>
        (<[1%nat := VirtqDesc (DData b) BSIZE (Z.lor (if write then 0 else VRING_DESC_F_WRITE) VRING_DESC_F_NEXT) 2]>
        (<[0%nat := VirtqDesc (DOps 0) 16 VRING_DESC_F_NEXT 1]> d)) |>
    <| vd_info ::= <[0%nat := Dinfo (Some b) 255]> |>
    <| av_ring ::= <[Z.to_nat (av_idx v mod 8) := 0]> |>
    <| av_idx := u16 (av_idx v + 1) |>.

Definition set_vdisk (v : vdisk) (k : kernel) : kernel := k <| k_vdisk := v |>.

Section Submit.
Context (E : xpost world).

Lemma list8 {A} (l : list A) : length l = NUM ->
  exists x0 x1 x2 x3 x4 x5 x6 x7, l = [x0; x1; x2; x3; x4; x5; x6; x7].
Proof. intros H. destruct l as [|x0 [|x1 [|x2 [|x3 [|x4 [|x5 [|x6 [|x7 [|]]]]]]]]]; try done. eauto 10. Qed.

Lemma wp_alloc3 (Q : option (list Z) -> world -> Prop) w : vd_free (k_vdisk (w_k w)) = replicate NUM 1 ->
  Q (Some [0; 1; 2]) (w <| w_k ::= fun k => k <| k_vdisk ::= fun v => v <| vd_free := [0; 0; 0; 1; 1; 1; 1; 1] |> |> |>) ->
  wp E alloc3_desc Q w.
Proof. intros H HQ. destruct w as [[] ?]. destruct k_vdisk. cbn in *. subst. exact HQ. Qed.

Lemma wp_set_desc i d (Q : unit -> world -> Prop) w : 0 <= i < Z.of_nat (length (vd_desc (k_vdisk (w_k w)))) ->
  Q tt (w <| w_k ::= fun k => k <| k_vdisk ::= fun v => v <| vd_desc := <[Z.to_nat i := d]> (vd_desc (k_vdisk (w_k w))) |> |> |>) ->
  wp E (set_desc i d) Q w.
Proof.
  intros Hi HQ. unfold set_desc, getv, modv. do 3 kstep. by apply wp_arr_set.
Qed.

Lemma wp_set_info i d f (Q : unit -> world -> Prop) w : 0 <= i -> vd_info (k_vdisk (w_k w)) !! Z.to_nat i = Some d ->
  Q tt (w <| w_k ::= fun k => k <| k_vdisk ::= fun v => v <| vd_info := <[Z.to_nat i := f d]> (vd_info (k_vdisk (w_k w))) |> |> |>) ->
  wp E (set_info i f) Q w.
Proof.
  intros Hi Hd HQ. unfold set_info, getv, modv. do 3 kstep. apply (wp_arr_get _ _ _ d); [done..|]. kstep.
  apply wp_arr_set; [apply lookup_lt_Some in Hd; lia|]. by kstep.
Qed.

Lemma wp_submit b bb write (Q : unit -> world -> Prop) w :
  bc_buf (k_bcache (w_k w)) !! b = Some bb -> disk_idle (k_vdisk (w_k w)) ->
  Q tt (World (upd_bufs b (fun bb => bb <| b_disk := 1 |>) (w_k w)
     <| k_vdisk ::= submitted b write (b_blockno bb) |>
     <| k_mmio_out ::= fun l => l ++ [(R VIRTIO_MMIO_QUEUE_NOTIFY, 0)] |>) (w_env w)) ->
  wp E (submit b write 0 1 2) Q (w <| w_k ::= fun k => k <| k_vdisk ::= fun v => v <| vd_free := [0; 0; 0; 1; 1; 1; 1; 1] |> |> |>).
Proof.
  intros Hb [Hf Hd Ha Hu Hi Ho Hidx] HQ. unfold submit, getv, modv.
  destruct w as [[] e]. destruct k_vdisk. cbn in *.
  destruct (list8 _ Hd) as (?&?&?&?&?&?&?&?&->). destruct (list8 _ Hi) as (?&?&?&?&?&?&?&?&->).
  destruct (list8 _ Ho) as (?&?&?&?&?&?&?&?&->).
  kstep. eapply wp_get_buf; [exact Hb|]. do 3 kstep. apply wp_arr_set; [split; [lia|by vm_compute]|]. do 3 kstep.
  apply wp_set_desc; [split; [lia|by vm_compute]|]. kstep. apply wp_set_desc; [split; [lia|by vm_compute]|].
  kstep. eapply wp_set_info; [lia|cbn; done|]. kstep. apply wp_set_desc; [split; [lia|by vm_compute]|].
  kstep. eapply wp_upd_bufs; [exact Hb|]. kstep. eapply wp_set_info; [lia|cbn; done|].
  do 5 kstep. apply wp_arr_set; [cbn; rewrite Ha; unfold NUM; zlia|]. do 4 kstep.
  unfold mmio_write. kstep. exact HQ.
Qed.

End Submit.

(** * The interrupt *)

(** The state after the interrupt for the completion of buffer [b]'s request. *)
Definition interrupted (b : nat) (k : kernel) : kernel :=
  upd_bufs b (fun bb => bb <| b_disk := 0 |>) k
    <| k_proc ::= imap (woken (ChBuf b) (k_cur k)) |>
    <| k_vdisk ::= fun v => v <| vd_used_idx := us_idx v |> |>
    <| k_mmio_in := [] |>
    <| k_mmio_out ::= fun l => l ++ [(R VIRTIO_MMIO_INTERRUPT_ACK, 1)] |>.

Lemma eqb_if {A} a b (x y : A) : a = b -> (if a =? b then x else y) = x.
Proof. intros ->. by rewrite Z.eqb_refl. Qed.

Lemma intr_eq b bb id w (v := k_vdisk (w_k w)) :
  k_held (w_k w) = [] -> length (k_proc (w_k w)) = NPROC -> k_mmio_in (w_k w) = [1] ->
  0 <= vd_used_idx v < 65536 -> us_idx v = u16 (vd_used_idx v + 1) ->
  us_ring v !! Z.to_nat (vd_used_idx v mod 8) = Some (Z.of_nat id) -> (id < NUM)%nat ->
  vd_info v !! id = Some (Dinfo (Some b) 0) -> bc_buf (k_bcache (w_k w)) !! b = Some bb ->
  virtio_disk_intr w = Ok tt (World (interrupted b (w_k w)) (w_env w)).
Proof.
  intros Hh Hlen Hin Hu Hus Hring Hid Hinfo Hb. apply wp_exact. unfold virtio_disk_intr, mmio_read, mmio_write, getv, modv.
  do 2 kstep; [by rewrite Hh; apply not_elem_of_nil|]. do 3 kstep. cbn [w_k]. 
  change (k_mmio_in _) with (k_mmio_in (w_k w)). rewrite Hin. do 3 kstep. do 3 kstep.
  set (w1 := w <| w_k ::= _ |> <| w_k ::= _ |> <| w_k ::= _ |>).
  apply (wp_loop _ (fun _ w' => w' = w1 \/ w' = World (interrupted b (w_k w) <| k_held := [LkDisk] |>) (w_env w))
    (fun _ w' => if vd_used_idx (k_vdisk (w_k w')) =? us_idx (k_vdisk (w_k w')) then 0%nat else 1%nat)).
  - by left.
  - case_match; lia.
  - intros _ w' [->| ->].
    + do 4 kstep. change (vd_used_idx (k_vdisk (w_k w1))) with (vd_used_idx v).
      change (us_idx (k_vdisk (w_k w1))) with (us_idx v).
      assert (Hne : vd_used_idx v <> us_idx v) by (rewrite Hus; unfold u16; zlia).
      rewrite (proj2 (Z.eqb_neq _ _)) by done. cbn [negb]. do 3 kstep.
      apply (wp_arr_get _ _ _ (Z.of_nat id)); [unfold NUM; zlia|exact Hring|]. do 3 kstep.
      rewrite s32_small by (unfold NUM in Hid; lia).
      apply (wp_arr_get _ _ _ (Dinfo (Some b) 0)); [lia|rewrite Nat2Z.id; exact Hinfo|]. cbn [di_status Z.eqb negb di_b].
      do 2 kstep. kstep. eapply wp_upd_bufs; [exact Hb|]. kstep. apply wp_wakeup; [exact Hlen| |].
      { intros j. change (LkProc j ∉ LkDisk :: k_held (w_k w)). rewrite Hh. 
        by intros [? | []%elem_of_nil]%elem_of_cons. }
      do 2 kstep. apply wp_ret. split; [right|].
      * unfold w1, interrupted. clear -Hus Hh. subst v. destruct w as [[] e]. destruct k_vdisk. cbn in *. by subst.
      * eapply Nat.le_lt_trans; [apply Nat.eq_le_incl, (eqb_if _ _ 0%nat 1%nat)|apply Nat.lt_0_1].
        cbn. fold v. by rewrite <- Hus.
    + do 4 kstep. cbn. rewrite Z.eqb_refl. cbn [negb]. apply wp_ret. apply (wp_release _ _ _ []).
      * exact (release_held_head _ _).
      * destruct w as [[] e]. cbn in *. by subst.
Qed.

(** * The processes meanwhile *)

(** Processes were put to sleep, woken and scheduled, nothing else. *)
Definition resched (ps ps' : list proc) : Prop := length ps' = length ps /\
  forall j p, ps !! j = Some p -> exists st ch, ps' !! j = Some (p <| p_state := st |> <| p_chan := ch |>).

Lemma resched_refl ps : resched ps ps.
Proof. split; [done|]. intros j p Hp. exists (p_state p), (p_chan p). rewrite Hp. by destruct p. Qed.

Lemma resched_trans ps1 ps2 ps3 : resched ps1 ps2 -> resched ps2 ps3 -> resched ps1 ps3.
Proof.
  intros [H1 H1'] [H2 H2']. split; [congruence|]. intros j p Hp. destruct (H1' _ _ Hp) as (st & ch & Hp').
  destruct (H2' _ _ Hp') as (st' & ch' & ->). by exists st', ch'.
Qed.

Lemma resched_woken c me ps : resched ps (imap (woken c me) ps).
Proof.
  split; [apply length_imap|]. intros j p Hp. rewrite list_lookup_imap, Hp. cbn. unfold woken.
  destruct (_ && _); [by exists RUNNABLE, (p_chan p)|exists (p_state p), (p_chan p); by destruct p].
Qed.

Lemma resched_alter f i ps : (forall p, exists st ch, f p = p <| p_state := st |> <| p_chan := ch |>) ->
  resched ps (alter f i ps).
Proof.
  intros Hf. split; [apply length_alter|]. intros j p Hp. destruct (decide (i = j)) as [<-|Hn].
  - rewrite list_lookup_alter_eq, Hp. destruct (Hf p) as (st & ch & E). exists st, ch. cbn. by rewrite E.
  - rewrite list_lookup_alter_ne, Hp by done. exists (p_state p), (p_chan p). by destruct p.
Qed.

(** * Freeing the chain *)

Section FreeChain.
Context (E : xpost world).

Lemma wp_free_desc i (Q : unit -> world -> Prop) w (v := k_vdisk (w_k w)) :
  (i < NUM)%nat -> vd_free v !! i = Some 0 -> length (vd_desc v) = NUM -> length (vd_free v) = NUM ->
  length (k_proc (w_k w)) = NPROC -> no_proc_lock w ->
  Q tt (with_procs (imap (woken ChDiskFree (k_cur (w_k w))) (k_proc (w_k w))) (w <| w_k ::= fun k => k <| k_vdisk ::= fun v =>
    v <| vd_desc ::= <[i := VirtqDesc DNull 0 0 0]> |> <| vd_free ::= <[i := 1]> |> |> |>)) ->
  wp E (free_desc (Z.of_nat i)) Q w.
Proof.
  intros Hi Hf Hd Hl Hlen Hno HQ. unfold free_desc, getv, modv.
  rewrite Z.geb_leb, (proj2 (Z.leb_gt _ _)) by (unfold NUM in *; lia).
  do 3 kstep. apply (wp_arr_get _ _ _ 0); [lia|by rewrite Nat2Z.id|]. cbn [Z.eqb negb]. do 3 kstep.
  apply wp_arr_set; [fold v; rewrite Hd; lia|]. kstep. apply wp_arr_set; [fold v; rewrite Hl; lia|].
  rewrite Nat2Z.id. do 2 kstep. apply wp_wakeup; [exact Hlen|exact Hno|]. exact HQ.
Qed.

(** The state after a chain of the three first descriptors has been freed. *)
Definition freed_v (v : vdisk) : vdisk :=
  v <| vd_desc ::= fun d => <[2%nat := desc0]> (<[1%nat := desc0]> (<[0%nat := desc0]> d)) |>
    <| vd_free := replicate NUM 1 |>.

Lemma wp_free_chain d0 d1 d2 (Q : unit -> world -> Prop) w (v := k_vdisk (w_k w)) :
  vd_free v = [0; 0; 0; 1; 1; 1; 1; 1] -> length (vd_desc v) = NUM ->
  vd_desc v !! 0%nat = Some d0 -> vd_desc v !! 1%nat = Some d1 -> vd_desc v !! 2%nat = Some d2 ->
  Z.land (d_flags d0) 1 <> 0 -> Z.land (d_flags d1) 1 <> 0 -> Z.land (d_flags d2) 1 = 0 ->
  d_next d0 = 1 -> d_next d1 = 2 -> length (k_proc (w_k w)) = NPROC -> no_proc_lock w ->
  (forall ps, (forall p me, k_cur (w_k w) = Some me -> k_proc (w_k w) !! me = Some p -> ps !! me = Some p) ->
    resched (k_proc (w_k w)) ps ->
    Q tt (with_procs ps (w <| w_k ::= fun k => k <| k_vdisk ::= freed_v |> |>))) ->
  wp E (free_chain 0) Q w.
Proof.
  intros Hf Hd H0 H1 H2 F0 F1 F2 N0 N1 Hlen Hno HQ. unfold free_chain. change (S NUM) with 9%nat.
  assert (Hme : forall c me ps p, ps !! me = Some p -> imap (woken c (Some me)) ps !! me = Some p).
  { intros c me ps p Hp. rewrite list_lookup_imap, Hp. cbn. unfold woken. by rewrite bool_decide_false by auto. }
  cbn [loop]. unfold getv. do 4 kstep. apply (wp_arr_get _ _ _ d0); [lia|exact H0|].
  kstep. apply (wp_free_desc 0); [unfold NUM; lia|fold v; by rewrite Hf|done|fold v; by rewrite Hf|done|done|].
  unfold VRING_DESC_F_NEXT. rewrite (proj2 (Z.eqb_neq _ _)), N0 by done. cbn [negb]. apply wp_ret.
  set (ps1 := imap _ _). set (w1 := with_procs ps1 _).
  assert (L1 : length ps1 = NPROC) by (unfold ps1; by rewrite length_imap).
  do 4 kstep. apply (wp_arr_get _ _ _ d1); [lia| |].
  { change (<[0%nat := desc0]> (vd_desc v) !! 1%nat = Some d1). by rewrite list_lookup_insert_ne. }
  kstep. apply (wp_free_desc 1); [unfold NUM; lia|cbn; fold v; by rewrite Hf|cbn; by rewrite length_insert|
    cbn; fold v; by rewrite Hf|exact L1|exact Hno|].
  rewrite (proj2 (Z.eqb_neq _ _)), N1 by done. cbn [negb]. apply wp_ret.
  set (ps2 := imap _ _). set (w2 := with_procs ps2 _).
  assert (L2 : length ps2 = NPROC) by (unfold ps2; rewrite length_imap; exact L1).
  do 4 kstep. apply (wp_arr_get _ _ _ d2); [lia| |].
  { change (<[1%nat := desc0]> (<[0%nat := desc0]> (vd_desc v)) !! 2%nat = Some d2). by rewrite !list_lookup_insert_ne. }
  kstep. apply (wp_free_desc 2); [unfold NUM; lia|cbn; fold v; by rewrite Hf|cbn; by rewrite !length_insert|
    cbn; fold v; by rewrite Hf|exact L2|exact Hno|].
  rewrite F2. cbn [Z.eqb negb]. do 2 apply wp_ret.
  eapply wp_world_eq; [apply (HQ (imap (woken ChDiskFree (k_cur (w_k w))) ps2))|].
  - intros p me Hc Hp. rewrite Hc. apply Hme. change ps2 with (imap (woken ChDiskFree (k_cur (w_k w))) ps1).
    rewrite Hc. apply Hme. unfold ps1. rewrite Hc. by apply Hme.
  - eapply resched_trans; [|apply resched_woken]. eapply resched_trans; apply resched_woken.
  - clear -Hf. subst w2 w1 v. clearbody ps1 ps2. destruct w as [[] e]. destruct k_vdisk. cbn in *. by subst.
Qed.
End FreeChain.

(** * A transfer *)

(** Both sides of an equation between records, as constructors. *)
Ltac expose := match goal with |- ?l = ?r => let l' := eval hnf in l in let r' := eval hnf in r in change (l' = r') end.

(** What a transfer does to the buffer and the disk. *)
Definition transferred (write : bool) (b : nat) (bb : buf) (k : kernel) : kernel :=
  if write then
    upd_bufs b (fun bb => bb <| b_disk := 0 |>) k
      <| k_disk ::= fun D x => if x =? b_blockno bb then b_data bb else D x |>
      <| k_dwrites ::= fun l => l ++ [(b_blockno bb, b_data bb)] |>
  else upd_bufs b (fun x => x <| b_data := k_disk k (b_blockno bb) |> <| b_disk := 0 |>) k.

Definition moved_on (ps : list proc) (v : vdisk) (i : list Z) (o : list (Z * Z)) (k : kernel) : kernel :=
  k <| k_proc := ps |> <| k_vdisk := v |> <| k_mmio_in := i |> <| k_mmio_out := o |>.

Section Transfer.
Context (dev : kernel -> kernel) (Hdev : device_ok dev) (me : nat) (b : nat) (bb : buf) (write : bool).

(** The request that [submit] leaves is the one the device finds. *)
Lemma submitted_request k bb' : disk_idle (k_vdisk k) -> bc_buf (k_bcache k) !! b = Some bb' ->
  next_request (k <| k_vdisk ::= submitted b write (b_blockno bb') |>) =
    Some (0%nat, 0%nat, VirtioBlkReq (if write then VIRTIO_BLK_T_OUT else VIRTIO_BLK_T_IN) 0 (u32 (b_blockno bb' * 2)), b, bb').
Proof.
  intros [Hf Hd Ha Hu Hi Ho (Hx & _ & Hr)] Hb. unfold next_request. cbv zeta. cbn [k_vdisk].
  destruct k. destruct k_vdisk. cbn in *. subst us_idx.
  rewrite (proj2 (Z.eqb_neq _ _)) by (unfold u16; zlia).
  assert (Z.to_nat (av_idx mod 8) < length av_ring)%nat by (rewrite Ha; unfold NUM; zlia).
  rewrite list_lookup_insert_eq by done. cbn.
  destruct (list8 _ Hd) as (?&?&?&?&?&?&?&?&->). destruct (list8 _ Ho) as (?&?&?&?&?&?&?&?&->). cbn.
  set (rq := VirtioBlkReq _ _ _).
  transitivity (bc_buf k_bcache !! b ≫= fun bb0 => if chain_ok rq (VirtqDesc (DOps 0) 16 1 1)
      (VirtqDesc (DData b) 1024 (Z.lor (if write then 0 else 2) 1) 2) (VirtqDesc (DStatus 0) 1 2 0)
    then Some (0%nat, 0%nat, rq, b, bb0) else None); [reflexivity|].
  rewrite Hb. cbn [mbind option_bind]. replace (chain_ok _ _ _ _) with true; [done|].
  unfold chain_ok, rq. cbn [rq_sector rq_type]. rewrite (proj2 (Z.eqb_eq (_ mod 2) 0)) by (unfold u32; zlia).
  by destruct write.
Qed.

Lemma on_irq_eq rq bbs a (v := k_vdisk a) (a0 := a <| k_held := [] |> <| k_cur := None |>) :
  next_request a = Some (0%nat, 0%nat, rq, b, bbs) -> vd_info v !! 0%nat = Some (Dinfo (Some b) 255) ->
  length (us_ring v) = NUM -> vd_used_idx v = us_idx v -> 0 <= us_idx v < 65536 ->
  length (k_proc a) = NPROC -> is_Some (bc_buf (k_bcache a) !! b) ->
  on_irq dev me a = upd_procs me (fun p => p <| p_state := RUNNING |>) (interrupted b (complete 0 0 rq b bbs a0))
    <| k_held := k_held a |> <| k_cur := k_cur a |>.
Proof.
  intros Hreq Hinfo Hl Hu Hr Hlen [bb' Hb]. unfold on_irq. fold a0.
  assert (Hreq0 : next_request a0 = next_request a) by done.
  rewrite (Hdev a0 0%nat 0%nat rq b bbs) by (rewrite Hreq0; exact Hreq).
  set (c := complete 0 0 rq b bbs a0).
  assert (Hc : k_vdisk c = v <| vd_info ::= alter (fun d => d <| di_status := 0 |>) 0%nat |>
      <| us_ring ::= <[Z.to_nat (us_idx v mod 8) := 0]> |> <| us_idx := u16 (us_idx v + 1) |>
      <| dev_idx := av_idx v |>).
  { unfold c, complete. by destruct (_ =? _). }
  assert (Hcb : is_Some (bc_buf (k_bcache c) !! b)).
  { unfold c, complete. destruct (_ =? _); [by exists bb'|]. cbn. rewrite list_lookup_alter_eq, Hb. by eexists. }
  destruct Hcb as [bbc Hcb].
  assert (Hidx : (Z.to_nat (us_idx v mod 8) < length (us_ring v))%nat) by (rewrite Hl; unfold NUM; zlia).
  rewrite (intr_eq b bbc 0 (World c [])); [done|..]; cbn [w_k]; rewrite ?Hc.
  - unfold c, complete. by destruct (_ =? _).
  - unfold c, complete. by destruct (_ =? _).
  - unfold c, complete. by destruct (_ =? _).
  - cbn. lia.
  - cbn. by rewrite Hu.
  - cbn. rewrite Hu. by apply list_lookup_insert_eq.
  - unfold NUM. lia.
  - cbn. by rewrite list_lookup_alter_eq, Hinfo.
  - exact Hcb.
Qed.

(** The state in which the process sleeps. *)
Definition asked (k : kernel) : kernel :=
  upd_bufs b (fun bb => bb <| b_disk := 1 |>) (k <| k_held := [LkDisk] |>)
     <| k_vdisk ::= submitted b write (b_blockno bb) |>
     <| k_mmio_out ::= fun l => l ++ [(R VIRTIO_MMIO_QUEUE_NOTIFY, 0)] |>.

(** The state in which it finds itself again. *)
Definition served (k : kernel) (ps : list proc) : kernel :=
  let v := k_vdisk k in
  moved_on ps ((submitted b write (b_blockno bb) v)
      <| vd_info ::= <[0%nat := Dinfo (Some b) 0]> |>
      <| us_ring ::= <[Z.to_nat (us_idx v mod 8) := 0]> |> <| us_idx := u16 (us_idx v + 1) |>
      <| vd_used_idx := u16 (us_idx v + 1) |> <| dev_idx := u16 (av_idx v + 1) |>)
    [] (k_mmio_out k ++ [(R VIRTIO_MMIO_QUEUE_NOTIFY, 0)] ++ [(R VIRTIO_MMIO_INTERRUPT_ACK, 1)])
    (transferred write b bb k) <| k_held := [LkDisk] |>.

Section Served.
Context (k : kernel) (p : proc).
Context (Hv : disk_idle (k_vdisk k)) (Hb : bc_buf (k_bcache k) !! b = Some bb) (Hcur : k_cur k = Some me)
  (Hp : k_proc k !! me = Some p) (Hh : k_held k = []) (Hlen : length (k_proc k) = NPROC)
  (Hrun : p_state p = RUNNING) (Hbn : 0 <= b_blockno bb < 2147483648).

Lemma served_eq : exists ps, resched (k_proc k) ps /\ ps !! me = Some (p <| p_chan := ChNone |>) /\
  let k' := on_irq dev me (asleep (ChBuf b) me [] (asked k)) in
  k_held k' = [LkProc me] /\ is_Some (k_proc k' !! me) /\ awake me LkDisk k' = served k ps.
Proof.
  set (a := asleep (ChBuf b) me [] (asked k)).
  set (rq := VirtioBlkReq (if write then VIRTIO_BLK_T_OUT else VIRTIO_BLK_T_IN) 0 (u32 (b_blockno bb * 2))).
  set (bb1 := bb <| b_disk := 1 |>). destruct Hv as [Hf Hd Ha Hu Hi Ho (Hx & Hy & Hr)].
  assert (Hreq : next_request a = Some (0%nat, 0%nat, rq, b, bb1)).
  { assert (Hb1 : bc_buf (k_bcache (upd_bufs b (fun bb => bb <| b_disk := 1 |>) k)) !! b = Some bb1)
      by (cbn; by rewrite list_lookup_alter_eq, Hb).
    exact (submitted_request (upd_bufs b (fun bb => bb <| b_disk := 1 |>) k) bb1 Hv Hb1). }
  assert (Hirq : on_irq dev me a = upd_procs me (fun p => p <| p_state := RUNNING |>)
      (interrupted b (complete 0 0 rq b bb1 (a <| k_held := [] |> <| k_cur := None |>)))
    <| k_held := [LkProc me] |> <| k_cur := k_cur a |>).
  { apply (on_irq_eq rq bb1 a).
    - exact Hreq.
    - apply (list_lookup_insert_eq (vd_info (k_vdisk k))). rewrite Hi. unfold NUM. lia.
    - exact Hu.
    - change (vd_used_idx (k_vdisk k) = us_idx (k_vdisk k)). by rewrite Hx.
    - change (0 <= us_idx (k_vdisk k) < 65536). by rewrite Hx.
    - cbn. by rewrite length_alter.
    - cbn. rewrite list_lookup_alter_eq, Hb. by eexists. }
  set (ps0 := alter (fun p => p <| p_chan := ChBuf b |> <| p_state := SLEEPING |>) me (k_proc k)).
  set (ps1 := alter (fun p => p <| p_state := RUNNING |>) me (imap (woken (ChBuf b) None) ps0)).
  assert (Hps1 : ps1 !! me = Some (p <| p_chan := ChBuf b |> <| p_state := RUNNING |>)).
  { unfold ps1, ps0. rewrite list_lookup_alter_eq, list_lookup_imap, list_lookup_alter_eq, Hp. cbn.
    unfold woken. cbn. by rewrite !bool_decide_true. }
  exists (alter (fun p => p <| p_chan := ChNone |>) me ps1). split_and!.
  - repeat (eapply resched_trans; [|apply resched_alter || apply resched_woken]); try apply resched_refl.
    all: intros q.
    + by exists SLEEPING, (ChBuf b).
    + exists RUNNING, (p_chan q). by destruct q.
    + exists (p_state q), ChNone. by destruct q.
  - rewrite list_lookup_alter_eq, Hps1. cbn. f_equal. destruct p. cbn in *. by subst.
  - cbv zeta. rewrite Hirq. clear Hirq. split_and!; [reflexivity| |].
    + exists (p <| p_chan := ChBuf b |> <| p_state := RUNNING |>). rewrite <- Hps1.
      unfold complete. destruct (_ =? _); reflexivity.
    + clear Hreq Hps1. subst a rq bb1 ps0 ps1. clear Hp Hrun Hlen Hdev Hv.
      assert (Hsec : u32 (b_blockno bb * 2) / 2 = b_blockno bb) by (rewrite u32_small by lia; apply Z.div_mul; lia).
      destruct (list8 _ Hi) as (?&?&?&?&?&?&?&?&Ei). clear Hi Hd Ha Hu Ho.
      unfold complete. cbn [rq_sector rq_type]. rewrite Hsec. clear Hsec.
      unfold awake, served, asked, asleep, interrupted, moved_on, transferred, upd_bufs. cbv zeta.
      destruct k. destruct k_bcache, k_vdisk. cbn [State.k_cur State.k_vdisk State.vd_info State.us_idx
        State.vd_used_idx State.av_idx State.vd_free State.k_held] in *. subst.
      destruct write; cbn [VIRTIO_BLK_T_OUT VIRTIO_BLK_T_IN Z.eqb Pos.eqb].
      all: expose.
      all: f_equal; try reflexivity.
      all: expose.
      all: by cbn; rewrite <- ?app_assoc, ?alter_alter.
Qed.
(** The process waits: it sleeps once, and the schedule wakes it. *)
Lemma wp_wait_io E e (Q : unit -> world -> Prop) :
  match e with
  | [] => on_blocked E (World (asleep (ChBuf b) me [] (asked k)) [])
  | f :: e' => f = on_irq dev me /\ forall ps, resched (k_proc k) ps ->
      ps !! me = Some (p <| p_chan := ChNone |>) -> Q tt (World (served k ps) e')
  end ->
  wp E (loop_env 0 (fun _ : unit =>
      bb <- get_buf b ;;
      if b_disk bb =? 1 then sleep (ChBuf b) LkDisk ;;; ret (inl tt) else ret (inr tt)) tt) Q (World (asked k) e).
Proof.
  intros HQ. apply wp_loop_env. cbn [loop Nat.add w_env]. kstep.
  kstep. apply (wp_get_buf _ _ _ (bb <| b_disk := 1 |>)); [cbn; by rewrite list_lookup_alter_eq, Hb|].
  cbn [b_disk Z.eqb Pos.eqb]. do 2 kstep. apply (wp_sleep_at _ _ _ me p []); [exact Hcur|exact Hp|done|set_solver|].
  destruct e as [|f e]; [exact HQ|]. destruct HQ as [-> HQ]. cbn [w_env w_k].
  destruct served_eq as (ps & Hps & Hme & Hheld & Hsome & Heq). cbv zeta. split_and!; [done..|]. rewrite Heq.
  apply wp_ret. cbn [loop length]. kstep.
  kstep. apply (wp_get_buf _ _ _ (bb <| b_data := if write then b_data bb else k_disk k (b_blockno bb) |> <| b_disk := 0 |>)).
  { unfold served, moved_on, transferred. destruct write; cbn; rewrite list_lookup_alter_eq, Hb; [|done]. by destruct bb. }
  cbn [b_disk Z.eqb]. do 2 apply wp_ret. by apply HQ.
Qed.

(** Afterwards it frees the descriptors. *)
Lemma wp_finish E e ps (Q : unit -> world -> Prop) :
  resched (k_proc k) ps -> ps !! me = Some (p <| p_chan := ChNone |>) ->
  (forall ps v i o, disk_idle v -> resched (k_proc k) ps -> ps !! me = Some (p <| p_chan := ChNone |>) ->
    Q tt (World (moved_on ps v i o (transferred write b bb k)) e)) ->
  wp E (set_info 0 (fun d => d <| di_b := None |>) ;;; free_chain 0 ;;; release LkDisk) Q (World (served k ps) e).
Proof.
  intros Hps Hme HQ. destruct Hv as [Hf Hd Ha Hu Hi Ho (Hx & Hy & Hr)].
  assert (Hl : (0 < length (vd_info (k_vdisk k)))%nat) by (rewrite Hi; unfold NUM; lia).
  assert (Hld : (2 < length (vd_desc (k_vdisk k)))%nat) by (rewrite Hd; unfold NUM; lia).
  assert (Hct : k_cur (transferred write b bb k) = Some me) by by destruct write.
  kstep. apply (wp_set_info _ _ (Dinfo (Some b) 0)); [done|by apply list_lookup_insert_eq; cbn; rewrite length_insert|].
  kstep. eapply (wp_free_chain _ (VirtqDesc (DOps 0) 16 VRING_DESC_F_NEXT 1)
    (VirtqDesc (DData b) BSIZE (Z.lor (if write then 0 else VRING_DESC_F_WRITE) VRING_DESC_F_NEXT) 2)
    (VirtqDesc (DStatus 0) 1 VRING_DESC_F_WRITE 0)); cbn [w_k k_vdisk vd_desc vd_free submitted served moved_on].
  - done.
  - cbn. by rewrite !length_insert.
  - cbn. rewrite !list_lookup_insert_ne by done. by apply list_lookup_insert_eq; lia.
  - cbn. rewrite list_lookup_insert_ne by done. apply list_lookup_insert_eq. rewrite length_insert. lia.
  - cbn. apply list_lookup_insert_eq. rewrite !length_insert. lia.
  - done.
  - by destruct write.
  - done.
  - done.
  - done.
  - destruct Hps as [Hps _]. cbn. lia.
  - intros j. cbn. set_solver.
  - intros ps' Hkeep Hres. cbn in Hkeep, Hres. specialize (Hkeep _ me Hct Hme). apply (wp_release _ _ _ []); [exact (release_held_head _ _)|].
    set (v' := freed_v ((k_vdisk (served k ps)) <| vd_info ::= <[0%nat := Dinfo None 0]> |>)).
    match goal with |- Q tt ?w1 => assert (w1 = World (moved_on ps' v' [] (k_mmio_out (served k ps))
      (transferred write b bb k)) e) as -> end.
    { assert (HT : k_held (transferred write b bb k) = []) by by destruct write. subst v'.
      unfold served. cbv zeta. revert HT. generalize (transferred write b bb k). intros T HT.
      generalize (k_mmio_out k ++ [(R VIRTIO_MMIO_QUEUE_NOTIFY, 0)] ++ [(R VIRTIO_MMIO_INTERRUPT_ACK, 1)]).
      match goal with |- context [moved_on ps ?x] => generalize x end. intros vs o. clear -HT.
      destruct T. cbn in HT. subst. cbv -[freed_v insert list_insert]. reflexivity. }
    assert (Hidx : 0 <= u16 (av_idx (k_vdisk k) + 1) < 65536) by (unfold u16; zlia).
    apply HQ.
    + clear Hkeep Hres HQ Hps. split; [done| | | | | |].
      * cbn. by rewrite !length_insert.
      * cbn. by rewrite length_insert.
      * cbn. by rewrite length_insert.
      * cbn. by rewrite !length_insert.
      * cbn. by rewrite length_insert.
      * cbn. rewrite Hx. split; [reflexivity|]. split; [reflexivity|exact Hidx].
    + exact (resched_trans _ _ _ Hps Hres).
    + exact Hkeep.
Qed.
End Served.
End Transfer.

(** The whole call, for any postcondition. *)
Lemma wp_virtio_disk_rw E dev me b bb p write k e (Q : unit -> world -> Prop) : device_ok dev ->
  disk_idle (k_vdisk k) -> bc_buf (k_bcache k) !! b = Some bb -> 0 <= b_blockno bb < 2147483648 ->
  k_cur k = Some me -> k_held k = [] -> k_proc k !! me = Some p -> p_state p = RUNNING ->
  length (k_proc k) = NPROC ->
  match e with
  | [] => on_blocked E (World (asleep (ChBuf b) me [] (asked b bb write k)) [])
  | f :: e' => f = on_irq dev me /\ forall ps v i o, disk_idle v -> resched (k_proc k) ps ->
      ps !! me = Some (p <| p_chan := ChNone |>) ->
      Q tt (World (moved_on ps v i o (transferred write b bb k)) e')
  end -> wp E (virtio_disk_rw b write) Q (World k e).
Proof.
  intros Hdev Hv Hb Hbn Hcur Hh Hp Hrun Hlen HQ.
  unfold virtio_disk_rw. kstep. apply wp_acquire; [cbn; rewrite Hh; apply not_elem_of_nil|].
  kstep. apply wp_loop_env. cbn [loop Nat.add w_env]. kstep. kstep. apply wp_alloc3; [by destruct Hv|].
  do 2 apply wp_ret. kstep. eapply (wp_submit _ b bb); [exact Hb|exact Hv|].
  match goal with |- wp _ _ _ ?w1 => replace w1 with (World (asked b bb write k) e) end.
  2: { unfold asked. by rewrite <- Hh. }
  apply wp_bind. apply (wp_wait_io dev Hdev me b bb write k p); try done.
  destruct e as [|f e]; [done|]. destruct HQ as [-> HQ]. split; [done|]. intros ps Hps Hme.
  apply (wp_finish dev Hdev me b bb write k p); try done.
Qed.


Definition demo_vdisk : vdisk := vdisk0 <| vd_free := replicate NUM 1 |>.
Definition demo_io : world :=
  World (kernel0 <| k_cur := Some 1%nat |> <| k_vdisk := demo_vdisk |>
     <| k_proc := <[1%nat := proc0 <| p_state := RUNNING |>]> (replicate NPROC proc0) |>
     <| k_bcache ::= fun c => c <| bc_buf ::= alter (fun b => b <| b_blockno := 46 |> <| b_data := replicate 1024 7 |>) 3%nat |> |>)
    [on_irq serve 1].

