(* ===== verification/Bio.v ===== *)
(** The buffer cache: kernel/bio.c.

    The LRU list is threaded through [b_prev] and [b_next]; [BHead] is the address of
    the list's head. *)

From S2P Require Export Sleeplock Virtio.

(** [p->next], [p->prev], and assignments to them. *)
Definition get_next (p : bptr) : K bptr :=
  match p with
  | BHead => getk (fun k => head_next (k_bcache k))
  | BBuf i => b <- get_buf i ;; ret (b_next b)
  end.
Definition get_prev (p : bptr) : K bptr :=
  match p with
  | BHead => getk (fun k => head_prev (k_bcache k))
  | BBuf i => b <- get_buf i ;; ret (b_prev b)
  end.
Definition set_next (p q : bptr) : K unit :=
  match p with
  | BHead => modk (fun k => k <| k_bcache ::= fun c => c <| head_next := q |> |>)
  | BBuf i => upd_buf i (fun b => b <| b_next := q |>)
  end.
Definition set_prev (p q : bptr) : K unit :=
  match p with
  | BHead => modk (fun k => k <| k_bcache ::= fun c => c <| head_prev := q |> |>)
  | BBuf i => upd_buf i (fun b => b <| b_prev := q |>)
  end.

(** [b] becomes the first buffer of the list. *)
Definition insert_head (i : nat) : K unit :=
  n <- get_next BHead ;;
  set_next (BBuf i) n ;;;
  set_prev (BBuf i) BHead ;;;
  n <- get_next BHead ;;
  set_prev n (BBuf i) ;;;
  set_next BHead (BBuf i).

Definition binit : K unit :=
  set_prev BHead BHead ;;;
  set_next BHead BHead ;;;
  for_do (seq 0 NBUF) (fun i =>
    n <- get_next BHead ;;
    set_next (BBuf i) n ;;;
    set_prev (BBuf i) BHead ;;;
    initsleeplock (SlBuf i) ;;;
    n <- get_next BHead ;;
    set_prev n (BBuf i) ;;;
    set_next BHead (BBuf i)).

(** The first buffer with [P], from [p] on along [step]; the list has [NBUF] buffers. *)
Definition find_buf (step : bptr -> K bptr) (P : buf -> bool) (p : bptr) : K (option nat) :=
  loop (NBUF + 1) (fun p =>
    match p with
    | BHead => ret (inr None)
    | BBuf i =>
      b <- get_buf i ;;
      if P b then ret (inr (Some i)) else p' <- step p ;; ret (inl p')
    end) p.

Definition bget (dev blockno : Z) : K nat :=
  acquire LkBcache ;;;
  (* Is the block already cached? *)
  first <- get_next BHead ;;
  r <- find_buf get_next (fun b => (b_dev b =? dev) && (b_blockno b =? blockno)) first ;;
  match r with
  | Some i =>
    upd_buf i (fun b => b <| b_refcnt ::= fun n => u32 (n + 1) |>) ;;;
    release LkBcache ;;;
    acquiresleep (SlBuf i) ;;;
    ret i
  | None =>
    (* Recycle the least recently used (LRU) unused buffer. *)
    last <- get_prev BHead ;;
    r <- find_buf get_prev (fun b => b_refcnt b =? 0) last ;;
    match r with
    | Some i =>
      upd_buf i (fun b => b <| b_dev := dev |>) ;;;
      upd_buf i (fun b => b <| b_blockno := blockno |>) ;;;
      upd_buf i (fun b => b <| b_valid := 0 |>) ;;;
      upd_buf i (fun b => b <| b_refcnt := 1 |>) ;;;
      release LkBcache ;;;
      acquiresleep (SlBuf i) ;;;
      ret i
    | None => panic "bget: no buffers"
    end
  end.

Definition bread (dev blockno : Z) : K nat :=
  i <- bget dev blockno ;;
  b <- get_buf i ;;
  when (b_valid b =? 0)
    (virtio_disk_rw i false ;;; upd_buf i (fun b => b <| b_valid := 1 |>)) ;;;
  ret i.

Definition bwrite (i : nat) : K unit :=
  h <- holdingsleep (SlBuf i) ;;
  if negb h then panic "bwrite" else virtio_disk_rw i true.

Definition brelse (i : nat) : K unit :=
  h <- holdingsleep (SlBuf i) ;;
  if negb h then panic "brelse"
  else
    releasesleep (SlBuf i) ;;;
    acquire LkBcache ;;;
    upd_buf i (fun b => b <| b_refcnt ::= fun n => u32 (n - 1) |>) ;;;
    b <- get_buf i ;;
    when (b_refcnt b =? 0)
      (b <- get_buf i ;;
       set_prev (b_next b) (b_prev b) ;;;
       b <- get_buf i ;;
       set_next (b_prev b) (b_next b) ;;;
       insert_head i) ;;;
    release LkBcache.

Definition bpin (i : nat) : K unit :=
  acquire LkBcache ;;;
  upd_buf i (fun b => b <| b_refcnt ::= fun n => u32 (n + 1) |>) ;;;
  release LkBcache.

Definition bunpin (i : nat) : K unit :=
  acquire LkBcache ;;;
  upd_buf i (fun b => b <| b_refcnt ::= fun n => u32 (n - 1) |>) ;;;
  release LkBcache.
