(* ===== verification/Lru.v ===== *)
(** The order of the buffer cache: the list that kernel/bio.c threads through [b_prev] and
    [b_next], as a sequence of buffer numbers.

    [lru c l] says that the two chains of [c] visit exactly the buffers [l], once forwards and
    once backwards.  The pointer assignments of [brelse] move a buffer to the front of
    [l], and the two searches of [bget] find the first and the last match in [l]. *)

From S2P Require Export Bio.

(** * Chains of pointers *)

(** From [p], the pointers [nx] visit the buffers [l] and end at [q]. *)
Fixpoint chain (nx : bptr -> bptr) (p : bptr) (l : list nat) (q : bptr) : Prop :=
  match l with
  | [] => nx p = q
  | i :: l' => nx p = BBuf i /\ chain nx (BBuf i) l' q
  end.

Definition redirect (nx : bptr -> bptr) (p q : bptr) (x : bptr) : bptr :=
  if decide (x = p) then q else nx x.

(** The pointer before the end of the chain. *)
Definition end_of (p : bptr) (l : list nat) : bptr := default p (BBuf <$> last l).

Lemma redirect_eq nx p q : redirect nx p q p = q.
Proof. unfold redirect. by rewrite decide_True. Qed.
Lemma redirect_ne nx p q x : x <> p -> redirect nx p q x = nx x.
Proof. intros H. unfold redirect. by rewrite decide_False. Qed.

Lemma end_of_cons p i l : end_of p (i :: l) = end_of (BBuf i) l.
Proof. unfold end_of. rewrite last_cons. by destruct (last l). Qed.

Lemma end_of_elem p l : end_of p l = p \/ exists i, i ∈ l /\ end_of p l = BBuf i.
Proof.
  unfold end_of. destruct (last l) as [i|] eqn:E; [right|by left].
  exists i. split; [|done]. apply last_Some in E as [l' ->]. set_solver.
Qed.

Section Chain.
Implicit Types (nx : bptr -> bptr) (l : list nat) (p q : bptr).

Lemma chain_app nx p l1 i l2 q :
  chain nx p (l1 ++ i :: l2) q <-> chain nx p l1 (BBuf i) /\ chain nx (BBuf i) l2 q.
Proof. revert p. induction l1 as [|j l1 IH]; intros p; cbn; [done|]. rewrite IH. tauto. Qed.

Lemma chain_ext nx nx' p l q : nx' p = nx p -> (forall i, i ∈ l -> nx' (BBuf i) = nx (BBuf i)) ->
  chain nx p l q -> chain nx' p l q.
Proof.
  revert p. induction l as [|j l IH]; intros p Hp Hl; cbn; [congruence|].
  intros [H1 H2]. split; [congruence|]. apply IH; [|intros i Hi|done]; apply Hl; set_solver.
Qed.

Lemma chain_first nx p l q : chain nx p l q -> nx p = default q (BBuf <$> head l).
Proof. by destruct l; cbn; [|intros []]. Qed.

Lemma chain_next nx p l q : chain nx p l q -> nx (end_of p l) = q.
Proof.
  revert p. induction l as [|j l IH]; intros p; [done|]. intros [_ H]. rewrite end_of_cons. by apply IH.
Qed.

(** The chain with its last pointer redirected. *)
Lemma chain_redirect nx p l q q' : NoDup l -> (forall i, i ∈ l -> p <> BBuf i) ->
  chain nx p l q -> chain (redirect nx (end_of p l) q') p l q'.
Proof.
  revert p. induction l as [|j l IH]; intros p Hnd Hp; cbn; [by rewrite redirect_eq|].
  apply NoDup_cons in Hnd as [Hj Hnd]. intros [H1 H2]. rewrite end_of_cons.
  assert (Hn : forall i, i ∈ l -> BBuf j <> BBuf i) by (intros i Hi [= ->]; done).
  split; [|by apply IH]. rewrite redirect_ne; [done|].
  destruct (end_of_elem (BBuf j) l) as [->|(i & Hi & ->)]; apply Hp; set_solver.
Qed.

Lemma chain_join nx p l1 l2 q :
  chain nx p l1 (default q (BBuf <$> head l2)) ->
  (forall i l', l2 = i :: l' -> chain nx (BBuf i) l' q) -> chain nx p (l1 ++ l2) q.
Proof.
  destruct l2 as [|i l2]; cbn; intros H1 H2; [by rewrite app_nil_r|].
  apply chain_app. split; [done|]. by apply H2.
Qed.

(** Taking buffer [i] out, as [brelse] does in each direction. *)
Lemma chain_unlink nx l1 i l2 : NoDup (l1 ++ i :: l2) -> chain nx BHead (l1 ++ i :: l2) BHead ->
  chain (redirect nx (end_of BHead l1) (nx (BBuf i))) BHead (l1 ++ l2) BHead.
Proof.
  intros Hnd [H1 H2]%chain_app. apply NoDup_app in Hnd as (Hn1 & Hdisj & [Hi Hn2]%NoDup_cons).
  apply chain_join.
  - rewrite (chain_first _ _ _ _ H2). by eapply chain_redirect.
  - intros j l' ->. destruct H2 as [_ H2]. apply (chain_ext nx); [..|done].
    + apply redirect_ne. destruct (end_of_elem BHead l1) as [->|(x & Hx & ->)]; [done|].
      intros [= ->]. apply (Hdisj _ Hx). set_solver.
    + intros x Hx. apply redirect_ne. destruct (end_of_elem BHead l1) as [->|(y & Hy & ->)]; [done|].
      intros [= ->]. apply (Hdisj _ Hy). set_solver.
Qed.

(** Putting [i] in front, and at the back. *)
Lemma chain_push_front nx l i : i ∉ l -> chain nx BHead l BHead ->
  chain (redirect (redirect nx (BBuf i) (nx BHead)) BHead (BBuf i)) BHead (i :: l) BHead.
Proof.
  intros Hi H. split; [apply redirect_eq|].
  assert (Hx : redirect (redirect nx (BBuf i) (nx BHead)) BHead (BBuf i) (BBuf i) = nx BHead)
    by (rewrite redirect_ne by done; apply redirect_eq).
  destruct l as [|j l]; cbn in *; [by rewrite Hx|]. destruct H as [H1 H2]. split; [by rewrite Hx|].
  apply (chain_ext nx); [..|done]; intros; rewrite !redirect_ne; set_solver.
Qed.

Lemma chain_push_back nx l i : NoDup l -> i ∉ l -> chain nx BHead l BHead ->
  chain (redirect (redirect nx (BBuf i) BHead) (end_of BHead l) (BBuf i)) BHead (l ++ [i]) BHead.
Proof.
  intros Hnd Hi H. apply chain_join; cbn.
  - eapply chain_redirect; [done|done|]. apply (chain_ext nx); [by rewrite redirect_ne| |exact H].
    intros x Hx. apply redirect_ne. intros [= ->]. done.
  - intros j l' [= <- <-]. cbn. rewrite redirect_ne; [apply redirect_eq|].
    destruct (end_of_elem BHead l) as [->|(x & Hx & ->)]; [done|]. intros [= ->]. done.
Qed.
End Chain.

(** * The list of the cache *)

Definition nxt (c : bcache) (p : bptr) : bptr :=
  match p with BHead => head_next c | BBuf i => default BHead (b_next <$> bc_buf c !! i) end.
Definition prv (c : bcache) (p : bptr) : bptr :=
  match p with BHead => head_prev c | BBuf i => default BHead (b_prev <$> bc_buf c !! i) end.
Definition valid_ptr (c : bcache) (p : bptr) : Prop :=
  match p with BHead => True | BBuf i => (i < length (bc_buf c))%nat end.

(** The buffers without their place in the list. *)
Definition unlinked (b : buf) : buf := b <| b_prev := BHead |> <| b_next := BHead |>.
Definition bufs_of (c : bcache) : list buf := unlinked <$> bc_buf c.

Record lru (c : bcache) (l : list nat) : Prop := Lru {
  lru_perm : l ≡ₚ seq 0 (length (bc_buf c));
  lru_next : chain (nxt c) BHead l BHead;
  lru_prev : chain (prv c) BHead (rev l) BHead }.

Definition put_next (p q : bptr) (c : bcache) : bcache :=
  match p with
  | BHead => c <| head_next := q |>
  | BBuf i => c <| bc_buf ::= alter (fun b => b <| b_next := q |>) i |>
  end.
Definition put_prev (p q : bptr) (c : bcache) : bcache :=
  match p with
  | BHead => c <| head_prev := q |>
  | BBuf i => c <| bc_buf ::= alter (fun b => b <| b_prev := q |>) i |>
  end.

Lemma unlinked_alter f i (bs : list buf) : (forall b, unlinked (f b) = unlinked b) ->
  unlinked <$> alter f i bs = unlinked <$> bs.
Proof.
  intros Hf. apply list_eq. intros j. rewrite !list_lookup_fmap. destruct (decide (i = j)) as [<-|].
  - rewrite list_lookup_alter_eq. destruct (bs !! i); cbn; [by rewrite Hf|done].
  - by rewrite list_lookup_alter_ne.
Qed.

Lemma put_next_facts p q c : valid_ptr c p ->
  (forall x, nxt (put_next p q c) x = redirect (nxt c) p q x) /\ (forall x, prv (put_next p q c) x = prv c x) /\
  bufs_of (put_next p q c) = bufs_of c /\ length (bc_buf (put_next p q c)) = length (bc_buf c).
Proof.
  intros Hp. destruct p as [|i]; cbn in Hp.
  - split_and!; [|by intros []|done|done]. intros [|j]; unfold redirect; by case_decide.
  - assert (Hl : is_Some (bc_buf c !! i)) by by apply lookup_lt_is_Some_2. destruct Hl as [b Hb]. split_and!.
    + intros [|j]; unfold redirect; case_decide as E; try done; cbn.
      * injection E as ->. by rewrite list_lookup_alter_eq, Hb.
      * rewrite list_lookup_alter_ne; [done|congruence].
    + intros [|j]; [done|]. cbn. destruct (decide (i = j)) as [<-|].
      * by rewrite list_lookup_alter_eq, Hb.
      * by rewrite list_lookup_alter_ne.
    + by apply unlinked_alter.
    + apply length_alter.
Qed.

Lemma put_prev_facts p q c : valid_ptr c p ->
  (forall x, prv (put_prev p q c) x = redirect (prv c) p q x) /\ (forall x, nxt (put_prev p q c) x = nxt c x) /\
  bufs_of (put_prev p q c) = bufs_of c /\ length (bc_buf (put_prev p q c)) = length (bc_buf c).
Proof.
  intros Hp. destruct p as [|i]; cbn in Hp.
  - split_and!; [|by intros []|done|done]. intros [|j]; unfold redirect; by case_decide.
  - assert (Hl : is_Some (bc_buf c !! i)) by by apply lookup_lt_is_Some_2. destruct Hl as [b Hb]. split_and!.
    + intros [|j]; unfold redirect; case_decide as E; try done; cbn.
      * injection E as ->. by rewrite list_lookup_alter_eq, Hb.
      * rewrite list_lookup_alter_ne; [done|congruence].
    + intros [|j]; [done|]. cbn. destruct (decide (i = j)) as [<-|].
      * by rewrite list_lookup_alter_eq, Hb.
      * by rewrite list_lookup_alter_ne.
    + by apply unlinked_alter.
    + apply length_alter.
Qed.

Section LinkRules.
Context (E : xpost world) (k : kernel) (e : list (kernel -> kernel)) (c := k_bcache k).

Lemma wp_get_next p (Q : bptr -> world -> Prop) : valid_ptr c p -> Q (nxt c p) (World k e) ->
  wp E (get_next p) Q (World k e).
Proof.
  intros Hp HQ. destruct p as [|i]; [exact HQ|]. destruct (lookup_lt_is_Some_2 _ _ Hp) as [b Hb].
  cbn in HQ. unfold get_next. kstep. apply (wp_get_buf _ _ _ b); [exact Hb|]. kstep. by rewrite Hb in HQ.
Qed.
Lemma wp_get_prev p (Q : bptr -> world -> Prop) : valid_ptr c p -> Q (prv c p) (World k e) ->
  wp E (get_prev p) Q (World k e).
Proof.
  intros Hp HQ. destruct p as [|i]; [exact HQ|]. destruct (lookup_lt_is_Some_2 _ _ Hp) as [b Hb].
  cbn in HQ. unfold get_prev. kstep. apply (wp_get_buf _ _ _ b); [exact Hb|]. kstep. by rewrite Hb in HQ.
Qed.
Lemma wp_set_next p q (Q : unit -> world -> Prop) : valid_ptr c p ->
  Q tt (World (k <| k_bcache ::= put_next p q |>) e) -> wp E (set_next p q) Q (World k e).
Proof.
  intros Hp HQ. destruct p as [|i]; [exact HQ|]. destruct (lookup_lt_is_Some_2 _ _ Hp) as [b Hb].
  unfold set_next. by eapply wp_upd_bufs.
Qed.
Lemma wp_set_prev p q (Q : unit -> world -> Prop) : valid_ptr c p ->
  Q tt (World (k <| k_bcache ::= put_prev p q |>) e) -> wp E (set_prev p q) Q (World k e).
Proof.
  intros Hp HQ. destruct p as [|i]; [exact HQ|]. destruct (lookup_lt_is_Some_2 _ _ Hp) as [b Hb].
  unfold set_prev. by eapply wp_upd_bufs.
Qed.
End LinkRules.

Lemma end_of_rev l : end_of BHead (rev l) = default BHead (BBuf <$> head l).
Proof. unfold end_of. destruct l as [|i l]; [done|]. cbn [rev]. by rewrite last_snoc. Qed.
Lemma end_of_head l : end_of BHead l = default BHead (BBuf <$> head (rev l)).
Proof. by rewrite <- end_of_rev, rev_involutive. Qed.

Lemma elem_of_rev (l : list nat) x : x ∈ rev l <-> x ∈ l.
Proof. by rewrite <- Permutation_rev. Qed.
Lemma NoDup_of_rev (l : list nat) : NoDup (rev l) <-> NoDup l.
Proof. by rewrite <- Permutation_rev. Qed.

Lemma rev_app_cons (l1 : list nat) i l2 : rev (l1 ++ i :: l2) = rev l2 ++ i :: rev l1.
Proof. rewrite rev_app_distr. cbn [rev]. by rewrite <- app_assoc. Qed.

(** * Moving a buffer to the front *)

Definition unlink_insert (i : nat) : K unit :=
  b <- get_buf i ;;
  set_prev (b_next b) (b_prev b) ;;;
  b <- get_buf i ;;
  set_next (b_prev b) (b_next b) ;;;
  insert_head i.

Section MoveFront.
Context (c : bcache) (l1 : list nat) (i : nat) (l2 : list nat) (Hlru : lru c (l1 ++ i :: l2)).

Lemma lru_nodup : NoDup (l1 ++ i :: l2).
Proof. rewrite (lru_perm _ _ Hlru). apply NoDup_seq. Qed.
Lemma lru_valid j : j ∈ l1 ++ i :: l2 -> valid_ptr c (BBuf j).
Proof. rewrite (lru_perm _ _ Hlru). intros H%elem_of_seq. cbn. lia. Qed.
Lemma lru_valid_end p : p = BHead \/ (exists j, j ∈ l1 ++ i :: l2 /\ p = BBuf j) -> valid_ptr c p.
Proof. intros [->|(j & Hj & ->)]; [done|by apply lru_valid]. Qed.

Lemma lru_next_i : nxt c (BBuf i) = end_of BHead (rev l2).
Proof.
  pose proof (lru_next _ _ Hlru) as H.
  apply chain_app in H as [_ H]. rewrite (chain_first _ _ _ _ H). by rewrite end_of_rev.
Qed.
Lemma lru_prev_i : prv c (BBuf i) = end_of BHead l1.
Proof.
  pose proof (lru_prev _ _ Hlru) as H. rewrite rev_app_cons in H.
  apply chain_app in H as [_ H]. rewrite (chain_first _ _ _ _ H). by rewrite end_of_head.
Qed.

(** The four assignments of unlinking and the four of [insert_head]. *)
Lemma move_front_lru c1 c2 c3 c4 c5 c6 (n := default BHead (BBuf <$> head (l1 ++ l2))) :
  c1 = put_prev (nxt c (BBuf i)) (prv c (BBuf i)) c -> c2 = put_next (prv c (BBuf i)) (nxt c (BBuf i)) c1 ->
  c3 = put_next (BBuf i) n c2 -> c4 = put_prev (BBuf i) BHead c3 ->
  c5 = put_prev n (BBuf i) c4 -> c6 = put_next BHead (BBuf i) c5 ->
  lru c6 (i :: l1 ++ l2) /\ bufs_of c6 = bufs_of c.
Proof.
  pose proof lru_nodup as Hnd. pose proof (lru_perm _ _ Hlru) as Hperm.
  assert (Hve : forall c' l, length (bc_buf c') = length (bc_buf c) -> l ⊆ l1 ++ i :: l2 -> valid_ptr c' (end_of BHead l)).
  { intros c' l Hl Hsub. destruct (end_of_elem BHead l) as [->|(j & Hj & ->)]; [done|].
    cbn. rewrite Hl. by apply lru_valid, Hsub. }
  assert (Hn : n = end_of BHead (rev (l1 ++ l2))) by (unfold n; by rewrite end_of_rev).
  rewrite lru_next_i, lru_prev_i. intros E1 E2 E3 E4 E5 E6.
  assert (Hr2 : rev l2 ⊆ l1 ++ i :: l2) by (intros x; rewrite elem_of_rev; set_solver).
  assert (Hr12 : rev (l1 ++ l2) ⊆ l1 ++ i :: l2) by (intros x; rewrite elem_of_rev; set_solver).
  destruct (put_prev_facts (end_of BHead (rev l2)) (end_of BHead l1) c) as (P1 & N1 & B1 & L1); [by apply Hve|].
  rewrite <- E1 in *.
  destruct (put_next_facts (end_of BHead l1) (end_of BHead (rev l2)) c1) as (N2 & P2 & B2 & L2); [apply Hve; [lia|set_solver]|].
  rewrite <- E2 in *. assert (Hi : (i < length (bc_buf c))%nat) by (apply (lru_valid i); set_solver).
  destruct (put_next_facts (BBuf i) n c2) as (N3 & P3 & B3 & L3); [cbn; lia|]. rewrite <- E3 in *.
  destruct (put_prev_facts (BBuf i) BHead c3) as (P4 & N4 & B4 & L4); [cbn; lia|]. rewrite <- E4 in *.
  destruct (put_prev_facts n (BBuf i) c4) as (P5 & N5 & B5 & L5); [rewrite Hn; apply Hve; [lia|done]|].
  rewrite <- E5 in *. destruct (put_next_facts BHead (BBuf i) c5) as (N6 & P6 & B6 & L6); [done|]. rewrite <- E6 in *.
  clear E1 E2 E3 E4 E5 E6. split; [|congruence].
  assert (Hi12 : i ∉ l1 ++ l2) by (apply NoDup_app in Hnd as (? & Hd & [? ?]%NoDup_cons); set_solver).
  assert (Hnd12 : NoDup (l1 ++ l2)).
  { rewrite <- Permutation_middle in Hnd. by apply NoDup_cons in Hnd as [_ ?]. }
  split.
  - rewrite L6, L5, L4, L3, L2, L1. by rewrite Permutation_middle.
  - assert (H1 : chain (nxt c2) BHead (l1 ++ l2) BHead).
    { eapply chain_ext, chain_unlink; [..|exact Hnd|exact (lru_next _ _ Hlru)]; intros; rewrite lru_next_i, N2;
      unfold redirect; by rewrite ?N1. }
    assert (H2 := chain_push_front _ _ i Hi12 H1). rewrite (chain_first _ _ _ _ H1) in H2.
    eapply chain_ext; [..|exact H2]; intros; rewrite N6; unfold redirect; by rewrite N5, N4, N3.
  - cbn [rev].
    assert (H1 : chain (prv c2) BHead (rev (l1 ++ l2)) BHead).
    { pose proof (lru_prev _ _ Hlru) as Hp. rewrite rev_app_cons in Hp. rewrite rev_app_distr.
      eapply chain_ext, chain_unlink; [..|exact Hp].
      3: by rewrite <- rev_app_cons, NoDup_of_rev.
      all: intros; by rewrite lru_prev_i, P2, P1. }
    assert (H2 : chain (redirect (redirect (prv c2) (BBuf i) BHead) n (BBuf i)) BHead (rev (l1 ++ l2) ++ [i]) BHead).
    { rewrite Hn. apply chain_push_back; [by apply NoDup_of_rev|by rewrite elem_of_rev|done]. }
    eapply chain_ext; [..|exact H2]; intros; rewrite P6, P5; unfold redirect; by rewrite P4; unfold redirect; rewrite P3.
Qed.
(** What the code of [brelse] finds when it reads the pointers. *)
Lemma move_front_reads (n := default BHead (BBuf <$> head (l1 ++ l2))) (x := nxt c (BBuf i)) (y := prv c (BBuf i))
    (c1 := put_prev x y c) (c2 := put_next y x c1) :
  (exists b, bc_buf c !! i = Some b /\ b_next b = x /\ b_prev b = y) /\
  (exists b, bc_buf c1 !! i = Some b /\ b_next b = x /\ b_prev b = y) /\
  valid_ptr c x /\ valid_ptr c1 y /\ nxt c2 BHead = n /\
  forall c', length (bc_buf c') = length (bc_buf c) -> valid_ptr c' n /\ valid_ptr c' (BBuf i).
Proof.
  assert (Hi : valid_ptr c (BBuf i)) by (apply lru_valid; set_solver).
  destruct (lookup_lt_is_Some_2 _ _ Hi) as [b Hb].
  assert (Hvn : valid_ptr c x).
  { subst x. rewrite lru_next_i. destruct (end_of_elem BHead (rev l2)) as [->|(j & Hj & ->)]; [done|].
    rewrite elem_of_rev in Hj. apply lru_valid. set_solver. }
  assert (Hvp : valid_ptr c y).
  { subst y. rewrite lru_prev_i. destruct (end_of_elem BHead l1) as [->|(j & Hj & ->)]; [done|].
    apply lru_valid. set_solver. }
  destruct (put_prev_facts x y c Hvn) as (P1 & N1 & _ & L1). fold c1 in P1, N1, L1.
  assert (Hvp1 : valid_ptr c1 y) by (destruct y; [done|]; cbn; by rewrite L1).
  destruct (put_next_facts y x c1 Hvp1) as (N2 & P2 & _ & L2). fold c2 in N2, P2, L2.
  destruct (lookup_lt_is_Some_2 (bc_buf c1) i) as [b1 Hb1]; [by rewrite L1|].
  split_and!; [exists b|exists b1|done|done| |].
  - split_and!; [done|subst x|subst y]; cbn; by rewrite Hb.
  - split_and!; [done|transitivity (nxt c1 (BBuf i)); [cbn; by rewrite Hb1|apply N1]|].
    transitivity (prv c1 (BBuf i)); [cbn; by rewrite Hb1|]. rewrite P1. unfold redirect. by case_decide.
  - assert (H : chain (nxt c2) BHead (l1 ++ l2) BHead); [|exact (chain_first _ _ _ _ H)].
    eapply chain_ext, chain_unlink; [..|exact lru_nodup|exact (lru_next _ _ Hlru)];
      intros; rewrite N2; unfold redirect; subst y; by rewrite lru_prev_i, N1.
  - intros c' Hl. split; [|cbn; by rewrite Hl]. subst n. destruct (head (l1 ++ l2)) as [j|] eqn:Hh; [|done].
    cbn. rewrite Hl. apply (lru_valid j). apply head_Some_elem_of in Hh. set_solver.
Qed.
End MoveFront.

(** The code of [brelse] that moves an unused buffer to the front. *)
Lemma wp_unlink_insert E i l1 l2 k e (Q : unit -> world -> Prop) : lru (k_bcache k) (l1 ++ i :: l2) ->
  (forall c, lru c (i :: l1 ++ l2) -> bufs_of c = bufs_of (k_bcache k) -> Q tt (World (k <| k_bcache := c |>) e)) ->
  wp E (unlink_insert i) Q (World k e).
Proof.
  intros Hlru HQ. unfold unlink_insert, insert_head. set (c := k_bcache k) in *.
  destruct (move_front_reads _ _ _ _ Hlru) as ((b & Hb & Hn & Hp) & (b1 & Hb1 & Hn1 & Hp1) & Hvx & Hvy & Hh & Hval).
  pose proof (move_front_lru _ _ _ _ Hlru _ _ _ _ _ _ eq_refl eq_refl eq_refl eq_refl eq_refl eq_refl) as [Hl Hbufs].
  set (n := default BHead (BBuf <$> head (l1 ++ l2))) in *.
  set (x := nxt c (BBuf i)) in *. set (y := prv c (BBuf i)) in *.
  destruct (put_prev_facts x y c Hvx) as (_ & _ & _ & L1).
  destruct (put_next_facts y x _ Hvy) as (_ & _ & _ & L2). rewrite L1 in L2.
  destruct (put_next_facts (BBuf i) n _ (proj2 (Hval _ L2))) as (_ & _ & _ & L3). rewrite L2 in L3.
  destruct (put_prev_facts (BBuf i) BHead _ (proj2 (Hval _ L3))) as (_ & _ & _ & L4). rewrite L3 in L4.
  kstep. apply (wp_get_buf _ _ _ b); [exact Hb|]. kstep. rewrite Hn, Hp. apply wp_set_prev; [exact Hvx|].
  kstep. apply (wp_get_buf _ _ _ b1); [exact Hb1|]. kstep. rewrite Hn1, Hp1. apply wp_set_next; [exact Hvy|].
  kstep. apply wp_get_next; [done|]. change (nxt (k_bcache _) BHead) with (nxt (put_next y x (put_prev x y c)) BHead).
  rewrite Hh. kstep. apply wp_set_next; [exact (proj2 (Hval _ L2))|].
  kstep. apply wp_set_prev; [exact (proj2 (Hval _ L3))|].
  kstep. apply wp_get_next; [done|]. change (nxt (k_bcache _) BHead) with (nxt (put_next y x (put_prev x y c)) BHead).
  rewrite Hh. kstep. apply wp_set_prev; [exact (proj1 (Hval _ L4))|].
  apply wp_set_next; [done|]. 
  pose proof (HQ _ Hl Hbufs) as HQ'. clear -HQ'. match goal with H : Q tt ?w1 |- Q tt ?w2 => replace w2 with w1; [done|] end.
  by destruct k.
Qed.

(** * Searching the list *)

(** The searches of [bget] find the first buffer with [P] of the chain they follow. *)
Lemma wp_find_buf E (step : bptr -> K bptr) nx P k e l p (Q : option nat -> world -> Prop) :
  (forall p' Q', valid_ptr (k_bcache k) p' -> Q' (nx p') (World k e) -> wp E (step p') Q' (World k e)) ->
  chain nx p l BHead -> (length l <= NBUF)%nat -> (forall i, i ∈ l -> valid_ptr (k_bcache k) (BBuf i)) ->
  Q (List.find (fun i => match bc_buf (k_bcache k) !! i with Some b => P b | None => false end) l) (World k e) ->
  wp E (find_buf step P (nx p)) Q (World k e).
Proof.
  intros Hstep Hch Hlen Hval HQ. unfold find_buf.
  assert (Hn : (length l < NBUF + 1)%nat) by lia. revert Hn Hch Hval HQ. clear Hlen. generalize (NBUF + 1)%nat as n.
  revert p. induction l as [|i l IH]; intros p [|n] Hn Hch Hval HQ; cbn [length] in Hn; try lia.
  - cbn in Hch. rewrite Hch. cbn [loop]. kstep. by do 2 apply wp_ret.
  - destruct Hch as [Hp Hch]. rewrite Hp. cbn [loop]. kstep.
    destruct (lookup_lt_is_Some_2 _ _ (Hval i ltac:(set_solver))) as [b Hb].
    kstep. apply (wp_get_buf _ _ _ b); [exact Hb|]. cbn [List.find] in HQ. rewrite Hb in HQ.
    destruct (P b); [by do 2 apply wp_ret|].
    kstep. apply Hstep; [apply Hval; set_solver|]. apply wp_ret. apply IH; [lia|done| |done].
    intros j Hj. apply Hval. set_solver.
Qed.

(** * [bget] *)

Definition is_blk (dev x : Z) (b : buf) : bool := (b_dev b =? dev) && (b_blockno b =? x).
Definition look (P : buf -> bool) (c : bcache) (i : nat) : bool :=
  match bc_buf c !! i with Some b => P b | None => false end.

(** The buffer that has the block, and the least recently used buffer without references. *)
Definition hit (c : bcache) (l : list nat) (dev x : Z) : option nat := List.find (look (is_blk dev x) c) l.
Definition victim (c : bcache) (l : list nat) : option nat := List.find (look (fun b => b_refcnt b =? 0) c) (rev l).

Definition one_more (b : buf) : buf := b <| b_refcnt ::= fun n => u32 (n + 1) |>.
Definition recycled (dev x : Z) (b : buf) : buf :=
  b <| b_dev := dev |> <| b_blockno := x |> <| b_valid := 0 |> <| b_refcnt := 1 |>.

(** The state in which [bget] returns buffer [i]. *)
Definition got (i : nat) (f : buf -> buf) (pid : Z) (k : kernel) : kernel := took (SlBuf i) pid (upd_bufs i f k).

Lemma find_look P c l i : List.find (look P c) l = Some i ->
  i ∈ l /\ exists b, bc_buf c !! i = Some b /\ P b = true.
Proof.
  intros [Hi Hl]%List.find_some. unfold look in Hl. destruct (bc_buf c !! i) as [b|] eqn:E; [|done].
  split; [by apply list_elem_of_In|by exists b].
Qed.
Lemma find_look_None P c l i b : List.find (look P c) l = None -> i ∈ l -> bc_buf c !! i = Some b -> P b = false.
Proof.
  intros H Hi Hb. pose proof (List.find_none _ _ H i) as Hn. unfold look in Hn. rewrite Hb in Hn.
  apply Hn. by apply list_elem_of_In.
Qed.

Lemma lru_all c l i b : lru c l -> bc_buf c !! i = Some b -> i ∈ l.
Proof. intros Hlru H%lookup_lt_Some. rewrite (lru_perm _ _ Hlru). apply elem_of_seq. lia. Qed.

Section Bget.
Context (E : xpost world) (dev x : Z) (k : kernel) (e : list (kernel -> kernel)) (l : list nat) (me : nat) (p : proc)
  (c := k_bcache k).
Context (Hlru : lru c l) (Hlen : length (bc_buf c) = NBUF) (Hcur : k_cur k = Some me) (Hheld : k_held k = [])
  (Hp : k_proc k !! me = Some p).

(** The end of both branches: the spinlock is released and the buffer's lock, free, taken. *)
Lemma wp_got i b f (Q : nat -> world -> Prop) : bc_buf c !! i = Some b -> sl_locked (b_lock b) = 0 ->
  b_lock (f b) = b_lock b ->
  Q i (World (got i f (p_pid p) k) e) ->
  wp E (release LkBcache ;;; acquiresleep (SlBuf i) ;;; ret i) Q (World (upd_bufs i f (k <| k_held := [LkBcache] |>)) e).
Proof.
  intros Hb Hl Hf HQ. kstep. apply (wp_release _ _ _ []); [exact (release_held_head _ _)|].
  match goal with |- wp _ _ _ ?w1 => assert (w1 = World (upd_bufs i f k) e) as -> end.
  { clear -Hheld. destruct k. cbn in Hheld. by subst. }
  kstep. apply (wp_acquiresleep_free _ _ (b_lock b)) with (i := me) (p := p); cbn.
  - change (b_lock <$> alter f i (bc_buf c) !! i = Some (b_lock b)). rewrite list_lookup_alter_eq, Hb. cbn. by rewrite Hf.
  - rewrite Hheld. apply not_elem_of_nil.
  - done.
  - done.
  - done.
  - exact HQ.
Qed.

Lemma wp_bget (Q : nat -> world -> Prop) :
  match hit c l dev x with
  | Some i => exists b, bc_buf c !! i = Some b /\ sl_locked (b_lock b) = 0 /\ Q i (World (got i one_more (p_pid p) k) e)
  | None =>
    match victim c l with
    | Some i => exists b, bc_buf c !! i = Some b /\ sl_locked (b_lock b) = 0 /\
        Q i (World (got i (recycled dev x) (p_pid p) k) e)
    | None => on_panic E "bget: no buffers" (World (k <| k_held := [LkBcache] |>) e)
    end
  end -> wp E (bget dev x) Q (World k e).
Proof.
  assert (Hval : forall i, i ∈ l -> valid_ptr c (BBuf i)).
  { intros i. rewrite (lru_perm _ _ Hlru). intros Hi%elem_of_seq. cbn. lia. }
  assert (Hl : (length l <= NBUF)%nat) by (rewrite (lru_perm _ _ Hlru), length_seq; lia).
  intros HQ. unfold bget. kstep. apply wp_acquire; [cbn; rewrite Hheld; apply not_elem_of_nil|].
  set (k1 := k <| k_held ::= cons LkBcache |>). change ((World k e) <| w_k ::= _ |>) with (World k1 e).
  assert (Hk1 : k1 = k <| k_held := [LkBcache] |>) by (unfold k1; rewrite <- Hheld; by destruct k).
  kstep. apply (wp_get_next _ k1); [done|]. kstep.
  apply (wp_find_buf _ _ (nxt c) _ k1 e l BHead).
  { intros p' Q' Hp' HQ'. by apply wp_get_next. }
  { exact (lru_next _ _ Hlru). }
  { done. } { exact Hval. }
  change (List.find _ l) with (hit c l dev x). destruct (hit c l dev x) as [i|].
  - destruct HQ as (b & Hb & Hlk & HQ). kstep. eapply wp_upd_bufs; [exact Hb|]. rewrite Hk1.
    by apply (wp_got i b one_more).
  - kstep. apply (wp_get_prev _ k1); [done|]. kstep.
    apply (wp_find_buf _ _ (prv c) _ k1 e (rev l) BHead).
    { intros p' Q' Hp' HQ'. by apply wp_get_prev. }
    { exact (lru_prev _ _ Hlru). }
    { by rewrite length_rev. } { intros i Hi. rewrite elem_of_rev in Hi. by apply Hval. }
    change (List.find _ (rev l)) with (victim c l). destruct (victim c l) as [i|].
    + destruct HQ as (b & Hb & Hlk & HQ). rewrite Hk1.
      kstep. eapply wp_upd_bufs; [exact Hb|]. kstep.
      eapply wp_upd_bufs; [cbn; fold c; by rewrite list_lookup_alter_eq, Hb|]. kstep.
      eapply wp_upd_bufs; [cbn; fold c; by rewrite !list_lookup_alter_eq, Hb|]. kstep.
      eapply wp_upd_bufs; [cbn; fold c; by rewrite !list_lookup_alter_eq, Hb|].
      cbn [w_k w_env]. rewrite !upd_bufs_upd_bufs. by apply (wp_got i b (recycled dev x)).
    + rewrite Hk1. by apply wp_panic.
Qed.
End Bget.

(** * [brelse] *)

Definition one_less (b : buf) : buf := b <| b_refcnt ::= fun n => u32 (n - 1) |>.

(** The list when buffer [i] has been released; [u]: it is unused now. *)
Definition front (i : nat) (u : bool) (l : list nat) : list nat :=
  if u then i :: filter (fun j : nat => j <> i) l else l.

Lemma filter_out l1 i l2 : NoDup (l1 ++ i :: l2) -> filter (fun j : nat => j <> i) (l1 ++ i :: l2) = l1 ++ l2.
Proof.
  intros (_ & Hd & [Hi _]%NoDup_cons)%NoDup_app.
  assert (Hf : forall l : list nat, i ∉ l -> filter (fun j : nat => j <> i) l = l).
  { induction l as [|j l IH]; [done|]. intros Hj. rewrite filter_cons, decide_True by set_solver.
    f_equal. apply IH. set_solver. }
  rewrite filter_app, filter_cons, decide_False by naive_solver. by rewrite !Hf by set_solver.
Qed.

(** Changing a buffer, but not its links. *)
Definition plain (f : buf -> buf) : Prop :=
  forall b, unlinked (f b) = f (unlinked b) /\ b_prev (f b) = b_prev b /\ b_next (f b) = b_next b.

Lemma lru_plain f i c l : plain f -> lru c l -> lru (c <| bc_buf ::= alter f i |>) l.
Proof.
  intros Hf [H1 H2 H3].
  assert (Hl : forall j, (b_next <$> alter f i (bc_buf c) !! j) = (b_next <$> bc_buf c !! j) /\
    (b_prev <$> alter f i (bc_buf c) !! j) = (b_prev <$> bc_buf c !! j)).
  { intros j. destruct (decide (i = j)) as [<-|]; [|by rewrite list_lookup_alter_ne].
    rewrite list_lookup_alter_eq. destruct (bc_buf c !! i) as [b|]; [|done]. cbn.
    by destruct (Hf b) as (_ & -> & ->). }
  split.
  - cbn. by rewrite length_alter.
  - eapply chain_ext; [..|exact H2]; [done|]. intros j _. cbn. by rewrite (proj1 (Hl j)).
  - eapply chain_ext; [..|exact H3]; [done|]. intros j _. cbn. by rewrite (proj2 (Hl j)).
Qed.

Lemma bufs_of_plain f i c : plain f -> bufs_of (c <| bc_buf ::= alter f i |>) = alter f i (bufs_of c).
Proof.
  intros Hf. apply list_eq. intros j. unfold bufs_of. cbn. destruct (decide (i = j)) as [<-|].
  - rewrite list_lookup_alter_eq, !list_lookup_fmap, list_lookup_alter_eq.
    destruct (bc_buf c !! i) as [b|]; [|done]. cbn. by rewrite (proj1 (Hf b)).
  - by rewrite list_lookup_alter_ne, !list_lookup_fmap, list_lookup_alter_ne.
Qed.

Ltac plain := intros []; done.

Section Brelse.
Context (E : xpost world) (k : kernel) (e : list (kernel -> kernel)) (l : list nat) (i : nat) (b : buf) (me : nat) (p : proc)
  (c := k_bcache k).
Context (Hlru : lru c l) (Hb : bc_buf c !! i = Some b) (Hcur : k_cur k = Some me) (Hheld : k_held k = [])
  (Hp : k_proc k !! me = Some p) (Hlenp : length (k_proc k) = NPROC).

(** Whether the process holds the buffer. *)
Definition holds_buf : bool := negb (sl_locked (b_lock b) =? 0) && (sl_pid (b_lock b) =? p_pid p).

Definition let_go : kernel := upd_bufs i one_less (released (SlBuf i) k).

Lemma wp_brelse (Q : unit -> world -> Prop) :
  (if holds_buf then forall c', lru c' (front i (u32 (b_refcnt b - 1) =? 0) l) ->
      bufs_of c' = bufs_of (k_bcache let_go) -> Q tt (World (let_go <| k_bcache := c' |>) e)
   else on_panic E "brelse" (World k e)) -> wp E (brelse i) Q (World k e).
Proof.
  intros HQ. unfold brelse. kstep.
  eapply (wp_holdingsleep E (SlBuf i) (b_lock b)); [cbn; fold c; by rewrite Hb|cbn; rewrite Hheld; apply not_elem_of_nil|exact Hcur|exact Hp|].
  fold holds_buf. destruct holds_buf; cbn [negb]; [|by apply wp_panic]. kstep.
  eapply (wp_releasesleep E (SlBuf i) (b_lock b)); [cbn; fold c; by rewrite Hb|cbn; rewrite Hheld; apply not_elem_of_nil|done| |].
  { intros j. cbn. rewrite Hheld. apply not_elem_of_nil. }
  cbn [w_k w_env]. set (k1 := released (SlBuf i) k).
  assert (Hk1 : k_held k1 = []) by exact Hheld.
  assert (Hb1 : bc_buf (k_bcache k1) !! i = Some (b <| b_lock := Sleeplock 0 0 |>)).
  { change (alter (fun b => b <| b_lock := Sleeplock 0 0 |>) i (bc_buf c) !! i = Some (b <| b_lock := Sleeplock 0 0 |>)).
    by rewrite list_lookup_alter_eq, Hb. }
  assert (Hlru1 : lru (k_bcache let_go) l).
  { apply lru_plain; [plain|]. apply (lru_plain (fun b => b <| b_lock := Sleeplock 0 0 |>) i c); [plain|done]. }
  kstep. apply wp_acquire; [change (LkBcache ∉ k_held k); rewrite Hheld; apply not_elem_of_nil|].
  kstep. eapply wp_upd_bufs; [exact Hb1|]. kstep.
  apply (wp_get_buf _ _ _ (one_less (b <| b_lock := Sleeplock 0 0 |>))).
  { change (alter one_less i (bc_buf (k_bcache k1)) !! i = Some (one_less (b <| b_lock := Sleeplock 0 0 |>))).
    by rewrite list_lookup_alter_eq, Hb1. }
  cbn [b_refcnt]. change (b_refcnt _) with (u32 (b_refcnt b - 1)). unfold front in HQ.
  assert (Hend : forall c', Q tt (World (let_go <| k_bcache := c' |>) e) ->
    wp E (release LkBcache) Q (World (let_go <| k_held ::= cons LkBcache |> <| k_bcache := c' |>) e)).
  { intros c' H. apply (wp_release _ _ _ []); [change (release_held LkBcache (LkBcache :: k_held k) = Some []); rewrite Hheld; exact (release_held_head _ _)|].
    match goal with |- Q _ ?w1 => replace w1 with (World (let_go <| k_bcache := c' |>) e); [done|] end.
    clear -Hheld. unfold let_go. destruct k. cbn in Hheld. by subst. }
  kstep. destruct (u32 (b_refcnt b - 1) =? 0); cbn [when].
  - destruct (list_elem_of_split l i) as (l1 & l2 & ->); [exact (lru_all c l i b Hlru Hb)|].
    change (wp E (unlink_insert i) (fun _ w' => wp E (release LkBcache) Q w') (World (let_go <| k_held ::= cons LkBcache |>) e)).
    apply (wp_unlink_insert _ i l1 l2); [exact Hlru1|].
    intros c' Hc' Hbufs. apply Hend, HQ; [|done].
    by rewrite filter_out by (eapply lru_nodup; exact Hlru).
  - apply wp_ret. pose proof (Hend _ (HQ _ Hlru1 eq_refl)) as H. eapply wp_world_eq; [exact H|]. clear. unfold k1, let_go. by destruct k.
Qed.
End Brelse.

(** C34. [bget(dev, blockno)], when the buffers it may return are not locked: if some buffer has
    the block, that buffer, with one more reference; otherwise the least recently used buffer
    without references, given to the block, invalid, with one reference; in both cases its
    sleep-lock is the caller's and no other buffer and nothing of the list changes.  If every
    buffer is referenced it panics. *)
Theorem bget_correct dev x l me p w : lru (k_bcache (w_k w)) l -> length (bc_buf (k_bcache (w_k w))) = NBUF ->
  k_cur (w_k w) = Some me -> k_held (w_k w) = [] -> k_proc (w_k w) !! me = Some p ->
  (forall i b, bc_buf (k_bcache (w_k w)) !! i = Some b -> is_blk dev x b = true \/ b_refcnt b = 0 ->
    sl_locked (b_lock b) = 0) ->
  bget dev x w =
    match hit (k_bcache (w_k w)) l dev x with
    | Some i => Ok i (World (got i one_more (p_pid p) (w_k w)) (w_env w))
    | None =>
      match victim (k_bcache (w_k w)) l with
      | Some i => Ok i (World (got i (recycled dev x) (p_pid p) (w_k w)) (w_env w))
      | None => Panic "bget: no buffers" (World ((w_k w) <| k_held := [LkBcache] |>) (w_env w))
      end
    end.
Proof.
  intros Hlru Hlen Hcur Hheld Hp Hfree. apply wp_exact. destruct w as [k e]. cbn [w_k w_env] in *.
  eapply wp_bget; [done..|]. destruct (hit _ _ _ _) as [i|] eqn:Eh.
  - apply find_look in Eh as (_ & b & Hb & HP). exists b. split_and!; [done| |done]. eapply Hfree; [done|by left].
  - destruct (victim _ _) as [i|] eqn:Ev; [|done]. apply find_look in Ev as (_ & b & Hb & HP%Z.eqb_eq).
    exists b. split_and!; [done| |done]. eapply Hfree; [done|by right].
Qed.

(** [brelse] of a buffer whose sleep-lock the process does not hold panics.  Otherwise the
    lock is free, its waiters are RUNNABLE, the buffer has one reference less, and if that was the
    last one it is the most recently used one: first in the list, which is otherwise as
    it was, in both directions. *)
Theorem brelse_correct l i b me p w : lru (k_bcache (w_k w)) l -> bc_buf (k_bcache (w_k w)) !! i = Some b ->
  k_cur (w_k w) = Some me -> k_held (w_k w) = [] -> k_proc (w_k w) !! me = Some p -> length (k_proc (w_k w)) = NPROC ->
  if holds_buf b p then exists c, lru c (front i (u32 (b_refcnt b - 1) =? 0) l) /\
    bufs_of c = bufs_of (k_bcache (let_go (w_k w) i)) /\
    brelse i w = Ok tt (World ((let_go (w_k w) i) <| k_bcache := c |>) (w_env w))
  else brelse i w = Panic "brelse" w.
Proof.
  intros Hlru Hb Hcur Hheld Hp Hlenp. destruct w as [k e]. cbn [w_k w_env] in *. destruct (holds_buf b p) eqn:Eh.
  - assert (H : exists a w', brelse i (World k e) = Ok a w' /\ exists c, lru c (front i (u32 (b_refcnt b - 1) =? 0) l) /\
      bufs_of c = bufs_of (k_bcache (let_go k i)) /\ w' = World ((let_go k i) <| k_bcache := c |>) e).
    { apply wp_total_Ok. eapply wp_brelse; [done..|]. rewrite Eh. intros c' H1 H2. by exists c'. }
    destruct H as ([] & w' & Heq & c & H1 & H2 & ->). by exists c.
  - apply wp_exact. eapply wp_brelse; [done..|]. by rewrite Eh.
Qed.

(** ** Witnesses *)

(** The list after [binit]; buffer 7 is in use by process 1. *)
Definition demo_buf (i : nat) : buf :=
  let b := Buf 0 0 0 0 sleeplock0 0 (if decide (i = 29%nat) then BHead else BBuf (S i))
    (match i with O => BHead | S j => BBuf j end) [] in
  if decide (i = 7%nat) then b <| b_dev := 1 |> <| b_blockno := 46 |> <| b_refcnt := 1 |> <| b_lock := Sleeplock 1 0 |> else b.
Definition demo_cache : world := World (kernel0 <| k_cur := Some 1%nat |>
  <| k_bcache := Bcache (demo_buf <$> seq 0 NBUF) (BBuf 0) (BBuf 29) |>) [].
Lemma demo_cache_lru : lru (k_bcache (w_k demo_cache)) (rev (seq 0 NBUF)).
Proof.
  split; [symmetry; exact (Permutation_rev _)| |].
  - cbn. vm_compute. repeat split.
  - cbn. vm_compute. repeat split.
Qed.
Lemma demo_cache_free i b : bc_buf (k_bcache (w_k demo_cache)) !! i = Some b ->
  is_blk 1 99 b = true \/ b_refcnt b = 0 -> sl_locked (b_lock b) = 0.
Proof.
  intros H. apply list_lookup_fmap_Some in H as (j & -> & _). unfold demo_buf. case_decide; [|done]. by intros [?|?].
Qed.

Lemma bget_correct_witness : exists w', bget 1 99 demo_cache = Ok 0%nat w' /\
  (b_blockno <$> bc_buf (k_bcache (w_k w')) !! 0%nat) = Some 99.
Proof.
  rewrite (bget_correct 1 99 (rev (seq 0 NBUF)) 1 proc0 demo_cache demo_cache_lru eq_refl eq_refl eq_refl eq_refl
    demo_cache_free).
  eexists. split; reflexivity.
Defined.

Lemma brelse_correct_witness : exists c, lru c (7%nat :: filter (fun j : nat => j <> 7%nat) (rev (seq 0 NBUF))) /\
  exists w', brelse 7 demo_cache = Ok tt w' /\ k_bcache (w_k w') = c.
Proof.
  destruct (brelse_correct (rev (seq 0 NBUF)) 7 (demo_buf 7) 1 proc0 demo_cache demo_cache_lru
    eq_refl eq_refl eq_refl eq_refl eq_refl) as (c & Hc & _ & Heq).
  exists c. split; [exact Hc|]. eexists. split; [exact Heq|reflexivity].
Defined.
