(* ===== verification/Log.v ===== *)
(** The log: kernel/log.c. *)

From S2P Require Export Bio.

Definition getl {A} (f : log -> A) : K A := getk (fun k => f (k_log k)).
Definition modl (f : log -> log) : K unit := modk (fun k => k <| k_log ::= f |>).

(** A block read as an array of little-endian 32-bit words. *)
Definition get_word (data : list Z) (i : nat) : Z := le_val (take 4 (drop (4 * i) data)).
Definition put_bytes (off : nat) (bs : list Z) (data : list Z) : list Z :=
  take off data ++ bs ++ drop (off + length bs) data.
Definition put_word (i : nat) (v : Z) (data : list Z) : list Z :=
  put_bytes (4 * i) (le_bytes 4 (u32 v)) data.

Definition upd_data (b : nat) (f : list Z -> list Z) : K unit :=
  upd_buf b (fun bb => bb <| b_data ::= f |>).

(** [log.lh.n] as a number of rounds of a loop from 0. *)
Definition rounds (n : Z) : list Z := Z.of_nat <$> seq 0 (Z.to_nat n).

Definition install_trans (recovering : bool) : K unit :=
  n <- getl lh_n ;;
  for_do (rounds n) (fun tail =>
    dev <- getl lg_dev ;;
    start <- getl lg_start ;;
    lbuf <- bread (u32 dev) (u32 (start + tail + 1)) ;;
    blk <- getl lh_block ;;
    dst <- arr_get blk tail ;;
    dbuf <- bread (u32 dev) (u32 dst) ;;
    lb <- get_buf lbuf ;;
    upd_data dbuf (fun _ => b_data lb) ;;;
    bwrite dbuf ;;;
    when (negb recovering) (bunpin dbuf) ;;;
    brelse lbuf ;;;
    brelse dbuf).

Definition read_head : K unit :=
  dev <- getl lg_dev ;;
  start <- getl lg_start ;;
  buf <- bread (u32 dev) (u32 start) ;;
  b <- get_buf buf ;;
  modl (fun l => l <| lh_n := s32 (get_word (b_data b) 0) |>) ;;;
  n <- getl lh_n ;;
  for_do (rounds n) (fun i =>
    blk <- getl lh_block ;;
    blk' <- arr_set blk i (s32 (get_word (b_data b) (1 + Z.to_nat i))) ;;
    modl (fun l => l <| lh_block := blk' |>)) ;;;
  brelse buf.

Definition write_head : K unit :=
  dev <- getl lg_dev ;;
  start <- getl lg_start ;;
  buf <- bread (u32 dev) (u32 start) ;;
  n <- getl lh_n ;;
  upd_data buf (put_word 0 n) ;;;
  for_do (rounds n) (fun i =>
    blk <- getl lh_block ;;
    v <- arr_get blk i ;;
    upd_data buf (put_word (1 + Z.to_nat i) v)) ;;;
  bwrite buf ;;;
  brelse buf.

Definition recover_from_log : K unit :=
  read_head ;;;
  install_trans true ;;;
  modl (fun l => l <| lh_n := 0 |>) ;;;
  write_head.

Definition initlog (dev : Z) (sb : superblock) : K unit :=
  if 4 * (1 + LOGSIZE) >=? BSIZE then panic "initlog: too big logheader" else
  modl (fun l => l <| lg_start := s32 (sb_logstart sb) |>) ;;;
  modl (fun l => l <| lg_size := s32 (sb_nlog sb) |>) ;;;
  modl (fun l => l <| lg_dev := dev |>) ;;;
  recover_from_log.

Definition begin_op : K unit :=
  acquire LkLog ;;;
  loop_env 0 (fun _ : unit =>
    l <- getk k_log ;;
    if negb (lg_committing l =? 0) then sleep ChLog LkLog ;;; ret (inl tt)
    else if lh_n l + (lg_outstanding l + 1) * MAXOPBLOCKS >? LOGSIZE then
      sleep ChLog LkLog ;;; ret (inl tt)
    else
      modl (fun l => l <| lg_outstanding ::= Z.add 1 |>) ;;;
      release LkLog ;;;
      ret (inr tt)) tt.

Definition write_log : K unit :=
  n <- getl lh_n ;;
  for_do (rounds n) (fun tail =>
    dev <- getl lg_dev ;;
    start <- getl lg_start ;;
    to <- bread (u32 dev) (u32 (start + tail + 1)) ;;
    blk <- getl lh_block ;;
    src <- arr_get blk tail ;;
    from <- bread (u32 dev) (u32 src) ;;
    fb <- get_buf from ;;
    upd_data to (fun _ => b_data fb) ;;;
    bwrite to ;;;
    brelse from ;;;
    brelse to).

Definition commit : K unit :=
  n <- getl lh_n ;;
  when (n >? 0)
    (write_log ;;;
     write_head ;;;
     install_trans false ;;;
     modl (fun l => l <| lh_n := 0 |>) ;;;
     write_head).

Definition end_op : K unit :=
  acquire LkLog ;;;
  modl (fun l => l <| lg_outstanding ::= fun n => n - 1 |>) ;;;
  l <- getk k_log ;;
  if negb (lg_committing l =? 0) then panic "log.committing" else
  do_commit <- (if lg_outstanding l =? 0 then
                  modl (fun l => l <| lg_committing := 1 |>) ;;; ret true
                else wakeup ChLog ;;; ret false) ;;
  release LkLog ;;;
  when do_commit
    (commit ;;;
     acquire LkLog ;;;
     modl (fun l => l <| lg_committing := 0 |>) ;;;
     wakeup ChLog ;;;
     release LkLog).

Definition log_write (b : nat) : K unit :=
  acquire LkLog ;;;
  l <- getk k_log ;;
  if (lh_n l >=? LOGSIZE) || (lh_n l >=? lg_size l - 1) then panic "too big a transaction" else
  if lg_outstanding l <? 1 then panic "log_write outside of trans" else
  bb <- get_buf b ;;
  (* log absorption: the first logged block equal to this one, or the end *)
  i <- (r <- for_ret (rounds (lh_n l)) (fun i =>
          v <- arr_get (lh_block l) i ;;
          ret (if u32 v =? b_blockno bb then Some i else None)) ;;
        ret (default (Z.max 0 (lh_n l)) r)) ;;
  blk' <- arr_set (lh_block l) i (s32 (b_blockno bb)) ;;
  modl (fun l => l <| lh_block := blk' |>) ;;;
  when (i =? lh_n l)
    (bpin b ;;;
     modl (fun l => l <| lh_n ::= Z.add 1 |>)) ;;;
  release LkLog.
