(* ===== verification/Cache.v ===== *)
(** What the buffer cache promises to the log and the file system.

    The state of the cache is read as a function [blk_of_cache] from block numbers to what the cache
    holds of the block: its references, its current content - the buffer's if it is cached,
    the disk's if it is not - and the buffer it is locked in.  The theorems give the effect of
    [bread], [bwrite], [brelse], [bpin] and [bunpin] on that function and on the disk; the
    order of the list of file Lru, the recycling of buffers, the driver and its interrupt
    are below it.  They are for one process that runs while the disk works. *)

From S2P Require Export Lru Disk Log.

(** * The buffers *)

(** The block of device [ROOTDEV] the buffer is for. *)
Definition key (b : buf) : option Z := if b_dev b =? ROOTDEV then Some (b_blockno b) else None.

Definition uniq (bs : list buf) : Prop := forall i j bi bj x,
  bs !! i = Some bi -> bs !! j = Some bj -> key bi = Some x -> key bj = Some x -> i = j.

Definition find_blk (bs : list buf) (x : Z) : option (nat * buf) := list_find (fun b => key b = Some x) bs.

Lemma find_blk_Some bs x i b : find_blk bs x = Some (i, b) -> bs !! i = Some b /\ key b = Some x.
Proof. intros (? & ? & _)%list_find_Some. done. Qed.

Lemma find_blk_at bs x i b : uniq bs -> bs !! i = Some b -> key b = Some x -> find_blk bs x = Some (i, b).
Proof.
  intros Hu Hb Hk. apply list_find_Some. split_and!; [done..|]. intros j bj Hj Hlt Hkj.
  assert (j = i) by by eapply Hu. lia.
Qed.

Lemma find_blk_None bs x : find_blk bs x = None <-> forall i b, bs !! i = Some b -> key b <> Some x.
Proof.
  unfold find_blk. rewrite list_find_None, Forall_lookup. done.
Qed.

Lemma uniq_alter bs i b f : uniq bs -> bs !! i = Some b ->
  (forall x, key (f b) = Some x -> key b = Some x \/ find_blk bs x = None) -> uniq (alter f i bs).
Proof.
  intros Hu Hb Hf j1 j2 b1 b2 x H1 H2 K1 K2.
  assert (Hcase : forall j c, alter f i bs !! j = Some c -> key c = Some x ->
    (j = i /\ c = f b) \/ (j <> i /\ bs !! j = Some c)).
  { intros j c Hj _. destruct (decide (i = j)) as [<-|Hn]; [|right; by rewrite list_lookup_alter_ne in Hj].
    left. rewrite list_lookup_alter_eq, Hb in Hj. by injection Hj as <-. }
  destruct (Hcase _ _ H1 K1) as [[-> ->]|[N1 B1]], (Hcase _ _ H2 K2) as [[-> ->]|[N2 B2]]; [done| | |by eapply Hu].
  - destruct (Hf _ K1) as [Hk|Hk]; [by eapply Hu|]. rewrite find_blk_None in Hk. by destruct (Hk _ _ B2).
  - destruct (Hf _ K2) as [Hk|Hk]; [by eapply Hu|]. rewrite find_blk_None in Hk. by destruct (Hk _ _ B1).
Qed.

(** ** The blocks *)

(** A block as the cache has it. *)
Record blk : Type := Blk { bk_refs : Z; bk_data : list Z; bk_lock : option nat }.

Definition blk_in (d : list Z) (i : nat) (b : buf) : blk :=
  Blk (b_refcnt b) (if b_valid b =? 0 then d else b_data b)
    (if sl_locked (b_lock b) =? 0 then None else Some i).

Definition blk_at (bs : list buf) (D : Z -> list Z) (x : Z) : blk :=
  match find_blk bs x with Some (i, b) => blk_in (D x) i b | None => Blk 0 (D x) None end.

Definition upd_blk {A} (a : Z -> A) (x : Z) (v : A) (y : Z) : A := if y =? x then v else a y.

Lemma upd_blk_eq {A} (a : Z -> A) x v : upd_blk a x v x = v.
Proof. unfold upd_blk. by rewrite Z.eqb_refl. Qed.
Lemma upd_blk_ne {A} (a : Z -> A) x v y : y <> x -> upd_blk a x v y = a y.
Proof. intros H. unfold upd_blk. by rewrite (proj2 (Z.eqb_neq _ _)). Qed.

(** The buffer of a block changes, the block on the disk too perhaps. *)
Lemma blk_at_alter bs D D' i b f x y : uniq bs -> bs !! i = Some b -> key b = Some x -> key (f b) = Some x ->
  (forall z, z <> x -> D' z = D z) ->
  blk_at (alter f i bs) D' y = upd_blk (blk_at bs D) x (blk_in (D' x) i (f b)) y.
Proof.
  intros Hu Hb Hk Hf HD. assert (Hu' : uniq (alter f i bs)) by (apply (uniq_alter _ _ b); [done..|naive_solver]).
  unfold upd_blk. destruct (Z.eqb_spec y x) as [->|Hn].
  - unfold blk_at. by rewrite (find_blk_at _ x i (f b)) by (done || by rewrite list_lookup_alter_eq, Hb).
  - unfold blk_at. destruct (find_blk bs y) as [[j c]|] eqn:E.
    + apply find_blk_Some in E as [Hc Hkc]. assert (i <> j) by (intros ->; naive_solver).
      rewrite (find_blk_at _ y j c) by (done || by rewrite list_lookup_alter_ne). by rewrite HD.
    + rewrite find_blk_None in E. rewrite (proj2 (find_blk_None _ _)); [by rewrite HD|].
      intros j c. destruct (decide (i = j)) as [<-|].
      * rewrite list_lookup_alter_eq, Hb. intros [= <-]. rewrite Hf. congruence.
      * rewrite list_lookup_alter_ne by done. apply E.
Qed.

(** A buffer is given to another block. *)
Lemma blk_at_recycle bs D i b f x y : uniq bs -> bs !! i = Some b -> key (f b) = Some x -> find_blk bs x = None ->
  (forall z, key b = Some z -> blk_in (D z) i b = Blk 0 (D z) None) ->
  blk_at (alter f i bs) D y = upd_blk (blk_at bs D) x (blk_in (D x) i (f b)) y.
Proof.
  intros Hu Hb Hf Hx Hold. assert (Hu' : uniq (alter f i bs)) by (apply (uniq_alter _ _ b); [done..|naive_solver]).
  unfold upd_blk. destruct (Z.eqb_spec y x) as [->|Hn].
  - unfold blk_at. by rewrite (find_blk_at _ x i (f b)) by (done || by rewrite list_lookup_alter_eq, Hb).
  - unfold blk_at. destruct (find_blk bs y) as [[j c]|] eqn:E.
    + apply find_blk_Some in E as [Hc Hkc]. destruct (decide (i = j)) as [<-|Hij].
      * simplify_eq. rewrite (proj2 (find_blk_None _ _)); [by rewrite Hold|].
        intros j c Hj Hkj. destruct (decide (i = j)) as [<-|].
        -- rewrite list_lookup_alter_eq, Hb in Hj. injection Hj as <-. congruence.
        -- rewrite list_lookup_alter_ne in Hj by done. assert (i = j) by by eapply Hu. done.
      * by rewrite (find_blk_at _ y j c) by (done || by rewrite list_lookup_alter_ne).
    + rewrite find_blk_None in E. rewrite (proj2 (find_blk_None _ _)); [done|].
      intros j c. destruct (decide (i = j)) as [<-|].
      * rewrite list_lookup_alter_eq, Hb. intros [= <-]. rewrite Hf. congruence.
      * rewrite list_lookup_alter_ne by done. apply E.
Qed.

(** The number of buffers in use. *)
Definition in_use (b : buf) : bool := negb (b_refcnt b =? 0).
Definition active (bs : list buf) : nat := length (filter (fun b => in_use b = true) bs).

Lemma active_cons b bs : active (b :: bs) = (Nat.b2n (in_use b) + active bs)%nat.
Proof. unfold active. rewrite filter_cons. by case_decide as E; destruct (in_use b). Qed.

Lemma active_alter bs i b f : bs !! i = Some b ->
  (active (alter f i bs) + Nat.b2n (in_use b) = active bs + Nat.b2n (in_use (f b)))%nat.
Proof.
  revert i. induction bs as [|c bs IH]; intros [|i] H; [done..| |].
  - injection H as ->. change (alter f 0%nat (b :: bs)) with (f b :: bs). rewrite !active_cons. lia.
  - specialize (IH i H). change (alter f (S i) (c :: bs)) with (c :: alter f i bs). rewrite !active_cons. lia.
Qed.

Lemma active_spare bs : (active bs < length bs)%nat -> exists i b, bs !! i = Some b /\ b_refcnt b = 0.
Proof.
  induction bs as [|c bs IH]; cbn [length]; [lia|]. rewrite active_cons. unfold in_use.
  destruct (Z.eqb_spec (b_refcnt c) 0) as [E|E]; [intros _; by exists 0%nat, c|].
  intros H. cbn in H. destruct IH as (i & b & ? & ?); [lia|]. by exists (S i), b.
Qed.

(** * The invariant *)

(** A buffer of the cache over disk [D], in a machine where only process [pid] locks
    buffers.  An unused buffer is free and has what the disk has. *)
Record buf_ok (pid : Z) (D : Z -> list Z) (b : buf) : Prop := BufOk {
  bo_ref : 0 <= b_refcnt b < 4294967296;
  bo_free : b_refcnt b = 0 -> sl_locked (b_lock b) = 0 /\
    (b_valid b <> 0 -> forall x, key b = Some x -> b_data b = D x);
  bo_lock : sl_locked (b_lock b) <> 0 -> b_lock b = Sleeplock 1 pid;
  bo_key : forall x, key b = Some x -> 0 <= x < 2147483648 }.

(** The buffers; a locked buffer is valid, [o] excepted, which is being read. *)
Record bufs_ok (pid : Z) (o : option nat) (bs : list buf) (D : Z -> list Z) : Prop := BufsOk {
  bk_len : length bs = NBUF;
  bk_uniq : uniq bs;
  bk_buf : forall i b, bs !! i = Some b -> buf_ok pid D b;
  bk_valid : forall i b, bs !! i = Some b -> o <> Some i -> sl_locked (b_lock b) <> 0 -> b_valid b <> 0 }.

Lemma bufs_ok_alter pid o o' bs D D' i b f : bufs_ok pid o bs D -> bs !! i = Some b ->
  (forall x, key (f b) = Some x -> key b = Some x \/ find_blk bs x = None) ->
  buf_ok pid D' (f b) -> (o' = None -> sl_locked (b_lock (f b)) <> 0 -> b_valid (f b) <> 0) ->
  o = None \/ o = Some i -> o' = None \/ o' = Some i ->
  (forall y, key b <> Some y -> D' y = D y) -> bufs_ok pid o' (alter f i bs) D'.
Proof.
  intros [Hlen Hu Hbuf Hval] Hb Hkey Hok Hv Ho Ho' HD.
  assert (Hcase : forall j c, alter f i bs !! j = Some c -> (j = i /\ c = f b) \/ (j <> i /\ bs !! j = Some c)).
  { intros j c Hj. destruct (decide (i = j)) as [<-|Hn]; [|right; by rewrite list_lookup_alter_ne in Hj].
    left. rewrite list_lookup_alter_eq, Hb in Hj. by injection Hj as <-. }
  split.
  - by rewrite length_alter.
  - by eapply uniq_alter.
  - intros j c [[-> ->]|[Hn Hc]]%Hcase; [done|]. destruct (Hbuf _ _ Hc) as [H1 H2 H3 H4].
    split; [done| |done|done]. intros H. destruct (H2 H) as [H5 H6]. split; [done|].
    intros Hvc x Hx. rewrite HD; [by apply H6|]. intros Hbx. exact (Hn (Hu _ _ _ _ x Hc Hb Hx Hbx)).
  - intros j c [[-> ->]|[Hn Hc]]%Hcase Hoj; [apply Hv; destruct Ho' as [->| ->]; congruence|].
    apply (Hval _ _ Hc). destruct Ho as [->| ->]; congruence.
Qed.

(** The process that uses the cache, and the disk that is idle. *)
Record ready (me : nat) (pid : Z) (k : kernel) : Prop := Ready {
  rd_idle : disk_idle (k_vdisk k);
  rd_cur : k_cur k = Some me;
  rd_held : k_held k = [];
  rd_proc : exists p, k_proc k !! me = Some p /\ p_state p = RUNNING /\ p_pid p = pid;
  rd_len : length (k_proc k) = NPROC }.

Record cache_inv (me : nat) (pid : Z) (o : option nat) (k : kernel) : Prop := CacheInv {
  ci_ready : ready me pid k;
  ci_lru : exists l, lru (k_bcache k) l;
  ci_bufs : bufs_ok pid o (bufs_of (k_bcache k)) (k_disk k) }.

Definition blk_of_cache (k : kernel) : Z -> blk := blk_at (bufs_of (k_bcache k)) (k_disk k).
Definition used (k : kernel) : nat := active (bufs_of (k_bcache k)).

(** What the operations leave alone: all but the processes' states, the devices and the cache. *)
Record frame (k k' : kernel) : Prop := Frame {
  fr_eq : k' = k <| k_proc := k_proc k' |> <| k_vdisk := k_vdisk k' |> <| k_mmio_in := k_mmio_in k' |>
         <| k_mmio_out := k_mmio_out k' |> <| k_bcache := k_bcache k' |> <| k_disk := k_disk k' |>
         <| k_dwrites := k_dwrites k' |>;
  fr_procs : resched (k_proc k) (k_proc k') }.

Lemma frame_refl k : frame k k.
Proof. split; [by destruct k|apply resched_refl]. Qed.
Lemma frame_trans k1 k2 k3 : frame k1 k2 -> frame k2 k3 -> frame k1 k3.
Proof.
  intros [E1 P1] [E2 P2]. split; [|by eapply resched_trans]. rewrite E2, E1. by destruct k1.
Qed.
Lemma frame_cache k k' : k' = k <| k_bcache := k_bcache k' |> -> frame k k'.
Proof.
  intros H. split; [rewrite H; by destruct k|]. rewrite H. apply resched_refl.
Qed.

(** The kernels that differ in the cache only. *)
Lemma inv_bufs me pid o o' k k' i f b : cache_inv me pid o k -> plain f ->
  bufs_of (k_bcache k') = alter f i (bufs_of (k_bcache k)) -> (exists l, lru (k_bcache k') l) ->
  ready me pid k' -> bufs_of (k_bcache k) !! i = Some b ->
  (forall x, key (f b) = Some x -> key b = Some x \/ find_blk (bufs_of (k_bcache k)) x = None) ->
  buf_ok pid (k_disk k') (f b) -> (o' = None -> sl_locked (b_lock (f b)) <> 0 -> b_valid (f b) <> 0) ->
  o = None \/ o = Some i -> o' = None \/ o' = Some i ->
  (forall y, key b <> Some y -> k_disk k' y = k_disk k y) -> cache_inv me pid o' k'.
Proof.
  intros [Hr Hl Hb] Hf Hbufs Hl' Hr' Hbi ??????. split; [done|done|]. rewrite Hbufs.
  by apply (bufs_ok_alter pid o o' _ (k_disk k) _ i b).
Qed.

(** * The operations *)

Section Ops.
Context (E : xpost world) (dev : kernel -> kernel) (Hdev : device_ok dev) (me : nat) (pid : Z).
Implicit Types (k : kernel) (e : list (kernel -> kernel)) (i : nat) (x : Z).

(** The buffer of a block that is cached. *)
Lemma bufs_lookup k i b : bc_buf (k_bcache k) !! i = Some b -> bufs_of (k_bcache k) !! i = Some (unlinked b).
Proof. intros H. unfold bufs_of. by rewrite list_lookup_fmap, H. Qed.
Lemma bufs_lookup_inv k i b : bufs_of (k_bcache k) !! i = Some b ->
  exists b', bc_buf (k_bcache k) !! i = Some b' /\ b = unlinked b'.
Proof. intros (b' & -> & H)%list_lookup_fmap_Some. by exists b'. Qed.

Definition key_dev b x : key b = Some x <-> is_blk ROOTDEV x b = true.
Proof.
  unfold key, is_blk. rewrite andb_true_iff, Z.eqb_eq, Z.eqb_eq. destruct (Z.eqb_spec (b_dev b) ROOTDEV); naive_solver.
Qed.

(** The search of [bget] finds the block's buffer. *)
Lemma hit_find k l x : lru (k_bcache k) l -> uniq (bufs_of (k_bcache k)) ->
  match hit (k_bcache k) l ROOTDEV x with
  | Some i => exists b, bc_buf (k_bcache k) !! i = Some b /\ key b = Some x /\
      find_blk (bufs_of (k_bcache k)) x = Some (i, unlinked b)
  | None => find_blk (bufs_of (k_bcache k)) x = None
  end.
Proof.
  intros Hl Hu. destruct (hit _ _ _ _) as [i|] eqn:Eh.
  - apply find_look in Eh as (_ & b & Hb & HP%key_dev). exists b. split_and!; [done..|].
    apply find_blk_at; [done|by apply bufs_lookup|done].
  - apply find_blk_None. intros i b' (b & Hb & ->)%bufs_lookup_inv Hk%key_dev.
    change (is_blk ROOTDEV x b = true) in Hk.
    rewrite (find_look_None _ _ _ i b Eh) in Hk; [done|by eapply lru_all|done].
Qed.

Lemma victim_find k l : lru (k_bcache k) l -> (used k < length (bufs_of (k_bcache k)))%nat ->
  exists i b, victim (k_bcache k) l = Some i /\ bc_buf (k_bcache k) !! i = Some b /\ b_refcnt b = 0.
Proof.
  intros Hl Hn. destruct (victim _ _) as [i|] eqn:Ev.
  - apply find_look in Ev as (_ & b & Hb & HP%Z.eqb_eq). by exists i, b.
  - destruct (active_spare _ Hn) as (i & b' & (b & Hb & ->)%bufs_lookup_inv & H0). exfalso.
    apply (find_look_None _ _ _ i b) in Ev; [|rewrite elem_of_rev; by eapply lru_all|done].
    apply Z.eqb_neq in Ev. done.
Qed.

Lemma plain_comp f g : plain f -> plain g -> plain (fun b => f (g b)).
Proof.
  intros Hf Hg b. destruct (Hf (g b)) as (F1 & F2 & F3), (Hg b) as (G1 & G2 & G3).
  split_and!; [by rewrite F1, G1|by rewrite F2|by rewrite F3].
Qed.
Lemma plain_one_more : plain one_more. Proof. plain. Qed.
Lemma plain_recycled x : plain (recycled ROOTDEV x). Proof. plain. Qed.
Lemma plain_one_less : plain one_less. Proof. plain. Qed.
Lemma plain_lock l : plain (fun b => b <| b_lock := l |>). Proof. plain. Qed.

Lemma upd_bufs_facts f i k : plain f -> (exists l, lru (k_bcache k) l) ->
  bufs_of (k_bcache (upd_bufs i f k)) = alter f i (bufs_of (k_bcache k)) /\
  (exists l, lru (k_bcache (upd_bufs i f k)) l).
Proof. intros Hf [l Hl]. split; [by apply bufs_of_plain|]. exists l. by apply lru_plain. Qed.

Lemma got_facts f i p k : plain f -> (exists l, lru (k_bcache k) l) ->
  bufs_of (k_bcache (got i f p k)) = alter (fun b => (f b) <| b_lock := Sleeplock 1 p |>) i (bufs_of (k_bcache k)) /\
  (exists l, lru (k_bcache (got i f p k)) l).
Proof.
  intros Hf Hl. destruct (upd_bufs_facts f i k Hf Hl) as [E1 Hl1]. unfold got, took.
  destruct (upd_bufs_facts _ i (upd_bufs i f k) (plain_lock (Sleeplock 1 p)) Hl1) as [E2 Hl2].
  split; [|exact Hl2]. cbn [set_sl]. rewrite E2, E1. apply alter_alter.
Qed.

(** What an operation on block [x] leaves: the block is [v], the others are as they were. *)
Record effect (x : Z) (v : blk) (k k' : kernel) : Prop := Effect {
  ef_frame : frame k k';
  ef_blk : forall y, blk_of_cache k' y = upd_blk (blk_of_cache k) x v y }.

Definition in_buf (i : nat) (x : Z) (k : kernel) : Prop :=
  exists b, bc_buf (k_bcache k) !! i = Some b /\ key b = Some x /\ b_lock b = Sleeplock 1 pid.

Lemma got_inv f i x b k : cache_inv me pid None k -> plain f -> bc_buf (k_bcache k) !! i = Some b ->
  (forall b', unlinked b = b' -> key (f b') = Some x /\ 0 < b_refcnt (f b') < 4294967296) -> 0 <= x < 2147483648 ->
  key b = Some x \/ find_blk (bufs_of (k_bcache k)) x = None ->
  cache_inv me pid (Some i) (got i f pid k) /\ frame k (got i f pid k) /\ k_disk (got i f pid k) = k_disk k /\
  in_buf i x (got i f pid k) /\
  bufs_of (k_bcache (got i f pid k)) = alter (fun b => (f b) <| b_lock := Sleeplock 1 pid |>) i (bufs_of (k_bcache k)).
Proof.
  intros Hinv Hf Hb Hfb Hx Hkey. destruct (got_facts f i pid k Hf (ci_lru _ _ _ _ Hinv)) as [Hbufs Hl].
  destruct (Hfb _ eq_refl) as [Hk Hr]. set (g := fun b => (f b) <| b_lock := Sleeplock 1 pid |>) in *.
  assert (Hgk : key (g (unlinked b)) = key (f (unlinked b))) by done.
  assert (Hg : plain g) by apply (plain_comp (fun b => b <| b_lock := Sleeplock 1 pid |>) f (plain_lock _) Hf).
  split_and!; [| |done| |done].
  - apply (inv_bufs me pid None (Some i) k _ i g (unlinked b)); [done..| | | | | |by left|by right|done].
    + destruct Hinv as [[]]. by split.
    + by apply bufs_lookup.
    + intros y. rewrite Hgk, Hk. intros [= <-]. exact Hkey.
    + split; [cbn; lia| |done|].
      * intros H0. change (b_refcnt (f (unlinked b)) = 0) in H0. lia.
      * intros y. rewrite Hgk, Hk. by intros [= <-].
    + done.
  - apply frame_cache. unfold got, took. by destruct k.
  - exists (g b). split_and!; [|transitivity (key (unlinked (g b))); [done|]|done].
    + unfold got, took. cbn [set_sl]. rewrite upd_bufs_upd_bufs. 
      change (alter g i (bc_buf (k_bcache k)) !! i = Some (g b)). by rewrite list_lookup_alter_eq, Hb.
    + rewrite (proj1 (Hg b)). by rewrite Hgk.
Qed.

Lemma ready_proc k : ready me pid k -> exists p, k_proc k !! me = Some p /\ p_state p = RUNNING /\ p_pid p = pid.
Proof. by intros []. Qed.

Lemma used_got f i k b : bufs_of (k_bcache k) !! i = Some b ->
  bufs_of (k_bcache (got i f pid k)) = alter (fun b => (f b) <| b_lock := Sleeplock 1 pid |>) i (bufs_of (k_bcache k)) ->
  b_refcnt (f b) <> 0 ->
  (used (got i f pid k) <= used k + Nat.b2n (Z.eqb (b_refcnt b) 0))%nat.
Proof.
  intros Hb Hbufs Hf. unfold used. rewrite Hbufs.
  pose proof (active_alter _ i b (fun b => (f b) <| b_lock := Sleeplock 1 pid |>) Hb) as Ha.
  assert (Hin : in_use ((f b) <| b_lock := Sleeplock 1 pid |>) = true).
  { unfold in_use. change (b_refcnt _) with (b_refcnt (f b)). by rewrite (proj2 (Z.eqb_neq _ _)). }
  cbv beta in Ha. rewrite Hin in Ha. unfold in_use in Ha. destruct (Z.eqb (b_refcnt b) 0); cbn in *; lia.
Qed.

(** One reference to a block more, or less; its buffer number if it is locked. *)
Definition with_lock (i : nat) (v : blk) : blk := Blk (bk_refs v + 1) (bk_data v) (Some i).

Lemma wp_bget_cache k e x (v := blk_of_cache k x) (Q : nat -> world -> Prop) : cache_inv me pid None k ->
  0 <= x < 2147483648 -> bk_lock v = None -> bk_refs v + 1 < 4294967296 ->
  bk_refs v <> 0 \/ (used k < NBUF)%nat ->
  (forall i k', cache_inv me pid (Some i) k' -> k_disk k' = k_disk k -> in_buf i x k' ->
    effect x (with_lock i v) k k' -> (used k' <= used k + Nat.b2n (Z.eqb (bk_refs v) 0))%nat -> Q i (World k' e)) ->
  wp E (bget ROOTDEV x) Q (World k e).
Proof.
  intros Hinv Hx Hlk Hr Hspare HQ. pose proof Hinv as [Hrd [l Hl] [Hlen Hu Hok Hval]].
  destruct (ready_proc k Hrd) as (p & Hp & Hrun & Hpid). destruct Hrd as [_ Hcur Hheld _ Hlenp].
  eapply (wp_bget _ _ _ _ _ l me p); [done|unfold bufs_of in Hlen; by rewrite length_fmap in Hlen|done..|].
  pose proof (hit_find k l x Hl Hu) as Hh. rewrite Hpid. destruct (hit _ _ _ _) as [i|].
  - destruct Hh as (b & Hb & Hk & Hfind). exists b.
    assert (Hv : v = blk_in (k_disk k x) i (unlinked b)) by (unfold v, blk_of_cache, blk_at; by rewrite Hfind).
    pose proof (Hok i _ (bufs_lookup _ _ _ Hb)) as [Hrb Hfree _ _]. rewrite Hv in Hlk, Hr, HQ. cbn in Hlk, Hr, HQ.
    assert (Hlk0 : sl_locked (b_lock b) = 0) by by destruct (Z.eqb_spec (sl_locked (b_lock b)) 0).
    assert (Hone : b_refcnt (one_more (unlinked b)) = b_refcnt b + 1) by (cbn in *; by rewrite u32_small by lia).
    cbn in Hrb. destruct (got_inv one_more i x b k) as (G1 & G2 & G3 & G4 & G5); [done|apply plain_one_more|done| |done|by left|].
    { intros b' <-. split; [done|]. rewrite Hone. lia. }
    split_and!; [done..|]. apply HQ; [done..| |].
    + split; [done|]. intros y. unfold blk_of_cache. rewrite G3, G5.
      rewrite (blk_at_alter _ (k_disk k) _ i (unlinked b) _ x); [|done|by apply bufs_lookup|done|done|done].
      unfold blk_in at 1, with_lock. change (b_refcnt _) with (b_refcnt (one_more (unlinked b))). by rewrite Hone.
    + pose proof (used_got one_more i k (unlinked b) (bufs_lookup _ _ _ Hb) G5) as Hu1. rewrite Hone in Hu1.
      specialize (Hu1 ltac:(lia)). exact Hu1.
  - destruct Hspare as [Hs|Hs].
    { exfalso. apply Hs. unfold v, blk_of_cache, blk_at. by rewrite Hh. }
    destruct (victim_find k l Hl) as (i & b & -> & Hb & H0); [by rewrite Hlen|]. exists b.
    assert (Hv : v = Blk 0 (k_disk k x) None) by (unfold v, blk_of_cache, blk_at; by rewrite Hh).
    pose proof (Hok i _ (bufs_lookup _ _ _ Hb)) as [_ Hfree _ _]. destruct (Hfree H0) as [Hlk0 Hclean].
    destruct (got_inv (recycled ROOTDEV x) i x b k) as (G1 & G2 & G3 & G4 & G5); [done|apply plain_recycled|done| |done|by right|].
    { intros b' <-. split; [done|]. cbn. lia. }
    split_and!; [done..|]. rewrite Hv in HQ. apply HQ; [done..| |].
    + split; [done|]. intros y. unfold blk_of_cache. rewrite G3, G5.
      rewrite (blk_at_recycle _ (k_disk k) i (unlinked b) _ x); [done|done|by apply bufs_lookup|done|done|].
      intros z Hz. unfold blk_in. cbn. cbn in Hlk0. rewrite H0, Hlk0. cbn.
      destruct (Z.eqb_spec (b_valid b) 0) as [|Hn]; [done|]. by rewrite <- (Hclean Hn z Hz).
    + pose proof (used_got (recycled ROOTDEV x) i k (unlinked b) (bufs_lookup _ _ _ Hb) G5 ltac:(done)) as Hu1.
      change (b_refcnt (unlinked b)) with (b_refcnt b) in Hu1. rewrite H0 in Hu1. exact Hu1.
Qed.

Lemma plain_pin d : plain (fun b : buf => b <| b_refcnt ::= fun r => u32 (r + d) |>). Proof. plain. Qed.

(** ** Transfers *)

Lemma ready_moved k k' p ps v : ready me pid k -> k_proc k !! me = Some p -> disk_idle v -> resched (k_proc k) ps ->
  ps !! me = Some (p <| p_chan := ChNone |>) -> k_proc k' = ps -> k_vdisk k' = v -> k_cur k' = k_cur k ->
  k_held k' = k_held k -> ready me pid k'.
Proof.
  intros [_ Hcur Hheld (q & Hq & Hrun & Hpid) Hlen] Hp Hv [Hl _] Hme E1 E2 E3 E4. rewrite Hp in Hq. injection Hq as <-.
  split; rewrite ?E1, ?E2, ?E3, ?E4; [done..| |congruence]. exists (p <| p_chan := ChNone |>). by destruct p.
Qed.

(** The schedule: the disk works while the process waits. *)
Definition disk_works (n : nat) : list (kernel -> kernel) := replicate n (on_irq dev me).

(** [virtio_disk_rw] of a buffer the process has locked. *)
Lemma wp_rw o k n i x b write (Q : unit -> world -> Prop) : cache_inv me pid o k ->
  bc_buf (k_bcache k) !! i = Some b -> key b = Some x ->
  (n = 0%nat -> forall k', k_disk k' = k_disk k -> on_blocked E (World k' [])) ->
  (forall k' n', ready me pid k' -> frame k k' -> k_bcache k' = k_bcache (transferred write i b k) ->
    k_disk k' = (if write then upd_blk (k_disk k) x (b_data b) else k_disk k) -> (n <= n' + 1)%nat ->
    Q tt (World k' (disk_works n'))) ->
  wp E (virtio_disk_rw i write) Q (World k (disk_works n)).
Proof.
  intros [Hrd _ [_ _ Hok _]] Hb Hk Hblk HQ. pose proof Hrd as [Hidle Hcur Hheld (p & Hp & Hrun & Hpid) Hlen].
  destruct (Hok i _ (bufs_lookup _ _ _ Hb)) as [_ _ _ Hrange]. specialize (Hrange x Hk).
  assert (Hx : b_blockno b = x) by (apply key_dev in Hk; apply andb_true_iff in Hk as [_ Hk]; by apply Z.eqb_eq).
  apply (wp_virtio_disk_rw E dev me i b p write k); try done; [by rewrite Hx|].
  destruct n as [|n]; cbn [disk_works replicate].
  - by apply Hblk.
  - split; [done|]. intros ps v io oo Hv Hps Hme. apply HQ; [|split; [by destruct write, k|by destruct write]|by destruct write| |lia].
    + apply (ready_moved k _ p ps v); [done..| | |]; by destruct write.
    + destruct write; [|done]. cbn. by rewrite Hx.
Qed.

Lemma bc_upd_twice f g i (c : bcache) :
  (c <| bc_buf ::= alter g i |>) <| bc_buf ::= alter f i |> = c <| bc_buf ::= alter (fun b => f (g b)) i |>.
Proof.
  destruct c as [bs p q].
  change (Bcache (alter f i (alter g i bs)) p q = Bcache (alter (fun b => f (g b)) i bs) p q). by rewrite alter_alter.
Qed.

Definition filled (d : list Z) (b : buf) : buf := b <| b_data := d |> <| b_disk := 0 |> <| b_valid := 1 |>.
Lemma plain_filled d : plain (filled d). Proof. plain. Qed.
Lemma plain_synced : plain (fun b => b <| b_disk := 0 |>). Proof. plain. Qed.

Lemma in_buf_facts o k i x : cache_inv me pid o k -> in_buf i x k ->
  exists b, bc_buf (k_bcache k) !! i = Some b /\ key b = Some x /\ b_lock b = Sleeplock 1 pid /\
    0 < b_refcnt b < 4294967296 /\ find_blk (bufs_of (k_bcache k)) x = Some (i, unlinked b) /\
    0 <= x < 2147483648 /\ (o = None -> b_valid b <> 0) /\
    blk_of_cache k x = blk_in (k_disk k x) i (unlinked b).
Proof.
  intros [_ _ [_ Hu Hok Hval]] (b & Hb & Hk & Hlk). exists b. pose proof (bufs_lookup _ _ _ Hb) as Hb'.
  destruct (Hok _ _ Hb') as [Hr Hfree _ Hrange]. cbn in Hr, Hfree. rewrite Hlk in Hfree.
  assert (Hfind : find_blk (bufs_of (k_bcache k)) x = Some (i, unlinked b)) by by apply find_blk_at.
  split_and!; [done..| |lia|done|by apply (Hrange x)|by apply (Hrange x)| |].
  - destruct (decide (b_refcnt b = 0)) as [E0|]; [by destruct (Hfree E0) as [? _]|lia].
  - intros ->. apply (Hval i _ Hb'); [done|]. cbn. by rewrite Hlk.
  - unfold blk_of_cache, blk_at. by rewrite Hfind.
Qed.

(** The buffer of a block changes, the disk perhaps at that block. *)
Lemma alter_step o o' k k' i x b f : cache_inv me pid o k -> bufs_of (k_bcache k) !! i = Some b -> key b = Some x ->
  plain f -> key (f b) = Some x -> ready me pid k' -> (exists l, lru (k_bcache k') l) ->
  bufs_of (k_bcache k') = alter f i (bufs_of (k_bcache k)) -> (forall z, z <> x -> k_disk k' z = k_disk k z) ->
  buf_ok pid (k_disk k') (f b) -> (o' = None -> sl_locked (b_lock (f b)) <> 0 -> b_valid (f b) <> 0) ->
  o = None \/ o = Some i -> o' = None \/ o' = Some i ->
  cache_inv me pid o' k' /\
  (forall y, blk_of_cache k' y = upd_blk (blk_of_cache k) x (blk_in (k_disk k' x) i (f b)) y) /\
  (used k' + Nat.b2n (in_use b) = used k + Nat.b2n (in_use (f b)))%nat.
Proof.
  intros Hinv Hb Hk Hf Hkf Hr Hl Hbufs HD Hok Hv Ho Ho'. split_and!.
  - apply (inv_bufs me pid o o' k k' i f b); [done..| |done|done|done|done|].
    + intros y. rewrite Hkf. intros [= <-]. by left.
    + intros y Hy. apply HD. naive_solver.
  - intros y. unfold blk_of_cache. rewrite Hbufs.
    apply (blk_at_alter _ (k_disk k) (k_disk k') i b f x); [|done..].
    apply (bk_uniq _ _ _ _ (ci_bufs _ _ _ _ Hinv)).
  - unfold used. rewrite Hbufs. by apply active_alter.
Qed.

(** The same for a change that keeps the list and the buffer locked. *)
Lemma locked_step o o' k k' i x f : cache_inv me pid o k -> in_buf i x k -> plain f ->
  (forall b, key (f b) = key b /\ b_lock (f b) = b_lock b /\ b_refcnt (f b) = b_refcnt b /\
    (b_valid b <> 0 \/ o <> None -> b_valid (f b) <> 0)) ->
  ready me pid k' -> k_bcache k' = (k_bcache k) <| bc_buf ::= alter f i |> ->
  (forall z, z <> x -> k_disk k' z = k_disk k z) -> o = None \/ o = Some i -> o' = None \/ o' = Some i ->
  exists b, bc_buf (k_bcache k) !! i = Some b /\ blk_of_cache k x = blk_in (k_disk k x) i (unlinked b) /\
    (o = None -> b_valid b <> 0) /\
  cache_inv me pid o' k' /\ in_buf i x k' /\ used k' = used k /\
  (forall y, blk_of_cache k' y = upd_blk (blk_of_cache k) x (blk_in (k_disk k' x) i (f (unlinked b))) y).
Proof.
  intros Hinv Hin Hf Hsame Hr Hc HD Ho Ho'.
  destruct (in_buf_facts _ _ _ _ Hinv Hin) as (b & Hb & Hk & Hlk & Hrb & Hfind & Hrange & Hval & Hblk).
  destruct (Hsame (unlinked b)) as (S1 & S2 & S3 & S4), (Hsame b) as (S5 & S6 & _ & _).
  destruct (alter_step o o' k k' i x (unlinked b) f) as (I1 & I2 & I3); [done|by apply bufs_lookup|done|done|by rewrite S1|done|..].
  - destruct (ci_lru _ _ _ _ Hinv) as [l Hl]. exists l. rewrite Hc. by apply lru_plain.
  - rewrite Hc. by apply bufs_of_plain.
  - done.
  - split; rewrite ?S1, ?S2, ?S3; [cbn; lia|cbn; lia|done|]. intros y Hy. change (key b = Some y) in Hy. congruence.
  - intros _ _. apply S4. destruct o; [by right|left; by apply Hval].
  - done.
  - done.
  - exists b. split_and!; [done..| | |done].
    + exists (f b). rewrite S5, S6. split_and!; [|done..]. rewrite Hc.
      change (alter f i (bc_buf (k_bcache k)) !! i = Some (f b)). by rewrite list_lookup_alter_eq, Hb.
    + unfold in_use in I3. rewrite S3 in I3. lia.
Qed.

Lemma wp_bread k n x (v := blk_of_cache k x) (Q : nat -> world -> Prop) : cache_inv me pid None k ->
  0 <= x < 2147483648 -> bk_lock v = None -> bk_refs v + 1 < 4294967296 ->
  bk_refs v <> 0 \/ (used k < NBUF)%nat ->
  (n = 0%nat -> forall k', k_disk k' = k_disk k -> on_blocked E (World k' [])) ->
  (forall i k' n', cache_inv me pid None k' -> k_disk k' = k_disk k -> in_buf i x k' ->
    effect x (with_lock i v) k k' -> (used k' <= used k + Nat.b2n (Z.eqb (bk_refs v) 0))%nat -> (n <= n' + 1)%nat ->
    Q i (World k' (disk_works n'))) ->
  wp E (bread ROOTDEV x) Q (World k (disk_works n)).
Proof.
  intros Hinv Hx Hlk Hr Hspare Hblk HQ. unfold bread. kstep. apply (wp_bget_cache k _ x); [done..|].
  intros i k1 Hinv1 Hd1 Hin1 [Hf1 Hb1] Hu1.
  destruct (in_buf_facts _ _ _ _ Hinv1 Hin1) as (b & Hb & Hk & Hlkb & Hrb & Hfind & _ & _ & Hv1).
  kstep. apply (wp_get_buf _ _ _ b); [exact Hb|]. destruct (Z.eqb_spec (b_valid b) 0) as [Hv0|Hv0]; cbn [when].
  - do 2 kstep. apply (wp_rw (Some i) k1 n i x b false); [done..|intros Hn0 k' Hk'; apply (Hblk Hn0); by rewrite Hk'|].
    intros k2 n' Hr2 Hf2 Hc2 Hd2 Hn'. eapply wp_upd_bufs; [cbn [w_k]; rewrite Hc2; cbn; by rewrite list_lookup_alter_eq, Hb|].
    cbn [w_k w_env]. apply wp_ret. set (k3 := upd_bufs i _ k2).
    assert (Hx' : b_blockno b = x) by (apply key_dev in Hk; apply andb_true_iff in Hk as [_ Hk]; by apply Z.eqb_eq).
    assert (Hc3 : k_bcache k3 = (k_bcache k1) <| bc_buf ::= alter (filled (k_disk k1 x)) i |>).
    { change (k_bcache k3) with ((k_bcache k2) <| bc_buf ::= alter (fun b => b <| b_valid := 1 |>) i |>).
      rewrite Hc2. unfold transferred. rewrite Hx'.
      apply (bc_upd_twice (fun b => b <| b_valid := 1 |>) (fun b => b <| b_data := k_disk k1 x |> <| b_disk := 0 |>)). }
    destruct (locked_step (Some i) None k1 k3 i x (filled (k_disk k1 x))) as (b' & Hb' & _ & _ & I1 & I2 & I3 & I4);
      [done|done|apply plain_filled|done| |done| |by right|by left|].
    { destruct Hr2 as [R1 R2 R3 R4 R5]. by split. }
    { intros z _. by change (k_disk k3) with (k_disk k2); rewrite Hd2. }
    rewrite Hb in Hb'. injection Hb' as <-. apply (HQ i k3 n'); [done|by change (k_disk k3) with (k_disk k2); rewrite Hd2|done| |by rewrite I3|done].
    split; [eapply frame_trans; [exact Hf1|]; eapply frame_trans; [exact Hf2|]; apply frame_cache; unfold k3; by destruct k2|].
    intros y. rewrite I4. unfold upd_blk at 1. destruct (Z.eqb_spec y x) as [->|Hy]; [|apply Hb1].
    rewrite <- Hb1, Hv1. unfold blk_in. cbn. by rewrite Hv0.
  - apply wp_ret. apply (HQ i k1 n); [|done..|lia]. destruct Hinv1 as [J1 J2 [J3 J4 J5 J6]].
    split; [done..|]. split; [done..|]. intros j c Hc _ Hlc. destruct (decide (i = j)) as [<-|Hij].
    + rewrite (bufs_lookup _ _ _ Hb) in Hc. by injection Hc as <-.
    + apply (J6 j c Hc); [congruence|done].
Qed.

(** ** Operations on a buffer that is held *)

Lemma in_buf_lock o k i x : cache_inv me pid o k -> bk_lock (blk_of_cache k x) = Some i -> in_buf i x k.
Proof.
  intros [_ _ [_ _ Hok _]] H. unfold blk_of_cache, blk_at in H.
  destruct (find_blk _ _) as [[j b]|] eqn:Ef; [|done]. apply find_blk_Some in Ef as [Hb Hk]. cbn in H.
  destruct (Z.eqb_spec (sl_locked (b_lock b)) 0) as [|Hn]; [done|]. injection H as ->.
  pose proof (bo_lock _ _ _ (Hok _ _ Hb) Hn) as Hl. destruct (bufs_lookup_inv _ _ _ Hb) as (b' & Hb' & ->).
  by exists b'.
Qed.

Section Held.
Context (k : kernel) (n : nat) (i : nat) (x : Z) (v := blk_of_cache k x).
Context (Hinv : cache_inv me pid None k) (Hlock : bk_lock v = Some i).

Lemma held_buf : exists b, bc_buf (k_bcache k) !! i = Some b /\ key b = Some x /\ b_lock b = Sleeplock 1 pid /\
  b_blockno b = x /\ b_valid b <> 0 /\ v = Blk (b_refcnt b) (b_data b) (Some i) /\ 0 < b_refcnt b < 4294967296.
Proof.
  destruct (in_buf_facts _ _ _ _ Hinv (in_buf_lock _ _ _ _ Hinv Hlock)) as (b & Hb & Hk & Hlk & Hr & _ & _ & Hval & Hv).
  specialize (Hval eq_refl). exists b. split_and!; [done..| |done| |lia|lia].
  - apply key_dev in Hk. apply andb_true_iff in Hk as [_ Hk]. by apply Z.eqb_eq.
  - unfold v. rewrite Hv. unfold blk_in. cbn. rewrite Hlk. cbn. by rewrite (proj2 (Z.eqb_neq _ _)).
Qed.

Lemma wp_data e (Q : buf -> world -> Prop) : (forall b, b_data b = bk_data v -> b_blockno b = x -> Q b (World k e)) ->
  wp E (get_buf i) Q (World k e).
Proof.
  intros HQ. destruct held_buf as (b & Hb & _ & _ & Hx & _ & Hv & _). apply (wp_get_buf _ _ _ b); [exact Hb|].
  apply HQ; [by rewrite Hv|done].
Qed.

Lemma upd_held f : plain f -> (forall b, key (f b) = key b /\ b_lock (f b) = b_lock b /\ b_refcnt (f b) = b_refcnt b /\
    (b_valid b <> 0 -> b_valid (f b) <> 0)) ->
  forall k', ready me pid k' -> k_bcache k' = (k_bcache k) <| bc_buf ::= alter f i |> ->
  (forall z, z <> x -> k_disk k' z = k_disk k z) ->
  exists b, bc_buf (k_bcache k) !! i = Some b /\ v = Blk (b_refcnt b) (b_data b) (Some i) /\
  cache_inv me pid None k' /\ used k' = used k /\
  (forall y, blk_of_cache k' y = upd_blk (blk_of_cache k) x (Blk (bk_refs v) (b_data (f (unlinked b))) (Some i)) y).
Proof.
  intros Hf Hsame k' Hr Hc HD. destruct held_buf as (b & Hb & _ & Hlk & _ & Hval & Hv & _). exists b.
  destruct (locked_step None None k k' i x f) as (b' & Hb' & _ & _ & I1 & _ & I3 & I4); try done.
  - by eapply in_buf_lock.
  - intros c. destruct (Hsame c) as (S1 & S2 & S3 & S4). split_and!; [done..|]. intros [?|?]; [by apply S4|done].
  - by left.
  - by left.
  - rewrite Hb in Hb'. injection Hb' as <-. split_and!; [done..|]. intros y. rewrite I4. f_equal. unfold blk_in.
    destruct (Hsame (unlinked b)) as (_ & S2 & S3 & S4). rewrite S2, S3.
    rewrite (proj2 (Z.eqb_neq (b_valid _) 0)) by (apply S4; done). rewrite Hv. cbn. by rewrite Hlk.
Qed.

Lemma wp_bwrite (Q : unit -> world -> Prop) :
  (n = 0%nat -> forall k', k_disk k' = k_disk k -> on_blocked E (World k' [])) ->
  (forall k' n', cache_inv me pid None k' -> k_disk k' = upd_blk (k_disk k) x (bk_data v) -> effect x v k k' ->
    used k' = used k -> (n <= n' + 1)%nat -> Q tt (World k' (disk_works n'))) ->
  wp E (bwrite i) Q (World k (disk_works n)).
Proof.
  intros Hblk HQ. destruct held_buf as (b & Hb & Hk & Hlk & Hx & Hval & Hv & Hr).
  pose proof (ci_ready _ _ _ _ Hinv) as [_ Hcur Hheld (p & Hp & _ & Hpid) _]. unfold bwrite. kstep.
  eapply (wp_holdingsleep E (SlBuf i) (b_lock b)); [cbn; by rewrite Hb|cbn; rewrite Hheld; apply not_elem_of_nil|exact Hcur|exact Hp|].
  rewrite Hlk. cbn [sl_locked sl_pid]. rewrite Hpid, Z.eqb_refl. cbn [Z.eqb negb andb].
  apply (wp_rw None k n i x b true); [done..|]. intros k' n' Hr' Hf' Hc' Hd' Hn'.
  destruct (upd_held (fun b => b <| b_disk := 0 |>) plain_synced) with (k' := k') as (b' & Hb' & _ & I1 & I2 & I3); [done|done| | |].
  - rewrite Hc'. unfold transferred. done.
  - intros z Hz. rewrite Hd'. by apply upd_blk_ne.
  - rewrite Hb in Hb'. injection Hb' as <-. apply HQ; [done|by rewrite Hd', Hv| |done|done].
    split; [done|]. intros y. rewrite I3. by rewrite Hv.
Qed.

Lemma wp_upd_data e f (Q : unit -> world -> Prop) :
  (forall k', cache_inv me pid None k' -> k_disk k' = k_disk k ->
    effect x (Blk (bk_refs v) (f (bk_data v)) (Some i)) k k' -> used k' = used k -> Q tt (World k' e)) ->
  wp E (upd_data i f) Q (World k e).
Proof.
  intros HQ. destruct held_buf as (b & Hb & Hk & Hlk & Hx & Hval & Hv & Hr). unfold upd_data.
  eapply wp_upd_bufs; [exact Hb|]. cbn [w_k w_env]. set (k' := upd_bufs i _ k).
  assert (Hpl : plain (fun b => b <| b_data ::= f |>)) by plain.
  destruct (upd_held _ Hpl) with (k' := k') as (b' & Hb' & _ & I1 & I2 & I3); [done| |done|done|].
  { pose proof (ci_ready _ _ _ _ Hinv) as []. by split. }
  rewrite Hb in Hb'. injection Hb' as <-. apply HQ; [done|done| |done]. split; [apply frame_cache; unfold k'; by destruct k|].
  intros y. rewrite I3. by rewrite Hv.
Qed.

(** The number of references changes, but not to none. *)
Lemma refs_held d : 0 < bk_refs v + d < 4294967296 ->
  let k' := upd_bufs i (fun b : buf => b <| b_refcnt ::= fun r => u32 (r + d) |>) k in
  cache_inv me pid None k' /\ effect x (Blk (bk_refs v + d) (bk_data v) (Some i)) k k' /\ used k' = used k.
Proof.
  intros Hd k'. destruct held_buf as (b & Hb & Hk & Hlk & Hx & Hval & Hv & Hr). pose proof (plain_pin d) as Hpl.
  assert (Hrd : u32 (b_refcnt b + d) = bk_refs v + d) by (rewrite Hv; apply u32_small; rewrite Hv in Hd; exact (conj (Z.lt_le_incl _ _ (proj1 Hd)) (proj2 Hd))).
  pose proof (bufs_lookup _ _ _ Hb) as Hb'. pose proof (ci_ready _ _ _ _ Hinv) as Hready.
  destruct (upd_bufs_facts _ i k Hpl (ci_lru _ _ _ _ Hinv)) as [Hbufs Hl]. fold k' in Hbufs, Hl.
  destruct (alter_step None None k k' i x (unlinked b) _ Hinv Hb' Hk Hpl Hk) as (I1 & I2 & I3).
  - destruct Hready. by split.
  - done.
  - done.
  - done.
  - pose proof (bk_buf _ _ _ _ (ci_bufs _ _ _ _ Hinv) _ _ Hb') as [B1 B2 B3 B4]. split; [cbn; rewrite Hrd; lia| |done|done].
    cbn. rewrite Hrd. lia.
  - done.
  - by left.
  - by left.
  - split_and!; [done|split; [apply frame_cache; unfold k'; by destruct k|]|].
    + intros y. rewrite I2. f_equal. unfold blk_in. cbn. rewrite Hrd, Hlk, Hv. cbn. by rewrite (proj2 (Z.eqb_neq _ _)).
    + assert (H1 : in_use (unlinked b) = true) by (apply negb_true_iff, Z.eqb_neq; cbn; lia).
      assert (H2 : in_use ((unlinked b) <| b_refcnt ::= fun r => u32 (r + d) |>) = true).
      { apply negb_true_iff, Z.eqb_neq. change (u32 (b_refcnt b + d) <> 0). rewrite Hrd.
        intros Hz. rewrite Hz in Hd. by destruct Hd. }
      cbv beta in I3. rewrite H1, H2 in I3. by apply Nat.add_cancel_r in I3.
Qed.

Lemma wp_pin d e (m : K unit) (Q : unit -> world -> Prop) :
  m = (acquire LkBcache ;;; upd_buf i (fun b => b <| b_refcnt ::= fun r => u32 (r + d) |>) ;;; release LkBcache) ->
  0 < bk_refs v + d < 4294967296 ->
  (forall k', cache_inv me pid None k' -> k_disk k' = k_disk k ->
    effect x (Blk (bk_refs v + d) (bk_data v) (Some i)) k k' -> used k' = used k -> Q tt (World k' e)) ->
  wp E m Q (World k e).
Proof.
  intros -> Hd HQ. destruct held_buf as (b & Hb & _). pose proof (ci_ready _ _ _ _ Hinv) as [_ _ Hheld _ _].
  destruct (refs_held d) as (I1 & I2 & I3); [done|].
  kstep. apply wp_acquire; [cbn; rewrite Hheld; apply not_elem_of_nil|]. kstep. eapply wp_upd_bufs; [exact Hb|].
  apply (wp_release _ _ _ []); [change (release_held LkBcache (LkBcache :: k_held k) = Some []); rewrite Hheld; exact (release_held_head _ _)|].
  eapply wp_world_eq; [apply HQ; [exact I1|done|exact I2|exact I3]|]. clear -Hheld. destruct k. cbn in Hheld. by subst.
Qed.

Lemma wp_bpin e (Q : unit -> world -> Prop) : bk_refs v + 1 < 4294967296 ->
  (forall k', cache_inv me pid None k' -> k_disk k' = k_disk k ->
    effect x (Blk (bk_refs v + 1) (bk_data v) (Some i)) k k' -> used k' = used k -> Q tt (World k' e)) ->
  wp E (bpin i) Q (World k e).
Proof.
  intros Hr. apply wp_pin; [done|]. destruct held_buf as (b & _ & _ & _ & _ & _ & Hv & Hb). rewrite Hv in Hr |- *. cbn in *. lia.
Qed.
Lemma wp_bunpin e (Q : unit -> world -> Prop) : 1 < bk_refs v ->
  (forall k', cache_inv me pid None k' -> k_disk k' = k_disk k ->
    effect x (Blk (bk_refs v - 1) (bk_data v) (Some i)) k k' -> used k' = used k -> Q tt (World k' e)) ->
  wp E (bunpin i) Q (World k e).
Proof.
  intros Hr. apply (wp_pin (-1)); [done|]. destruct held_buf as (b & _ & _ & _ & _ & _ & Hv & Hb). rewrite Hv in Hr |- *. cbn in *. lia.
Qed.

(** A buffer that is let go must be on the disk, unless it is referenced elsewhere. *)
Lemma wp_brelse_cache e (Q : unit -> world -> Prop) : (bk_refs v = 1 -> bk_data v = k_disk k x) ->
  (forall k', cache_inv me pid None k' -> k_disk k' = k_disk k ->
    effect x (Blk (bk_refs v - 1) (bk_data v) None) k k' ->
    (used k' + Nat.b2n (Z.eqb (bk_refs v) 1) = used k)%nat -> Q tt (World k' e)) ->
  wp E (brelse i) Q (World k e).
Proof.
  intros Hclean HQ. destruct held_buf as (b & Hb & Hk & Hlk & Hx & Hval & Hv & Hr).
  pose proof (ci_ready _ _ _ _ Hinv) as Hready. pose proof Hready as [R1 R2 R3 (p & Hp & Hrun & Hpid) R5].
  destruct (ci_lru _ _ _ _ Hinv) as [l Hl].
  eapply (wp_brelse _ k e l i b me p); [done..|]. unfold holds_buf. rewrite Hlk. cbn [sl_locked sl_pid].
  rewrite Hpid, Z.eqb_refl. cbn [Z.eqb negb andb]. intros c Hc Hbufs.
  set (f := fun b => one_less (b <| b_lock := Sleeplock 0 0 |>)).
  assert (Hpl : plain f) by apply (plain_comp one_less _ plain_one_less (plain_lock _)).
  assert (Hrd : u32 (b_refcnt b - 1) = b_refcnt b - 1) by (apply u32_small; lia).
  assert (Hbufs' : bufs_of c = alter f i (bufs_of (k_bcache k))).
  { rewrite Hbufs. unfold let_go, released. cbn [set_sl]. rewrite upd_bufs_upd_bufs. by apply bufs_of_plain. }
  pose proof (bufs_lookup _ _ _ Hb) as Hb'.
  assert (Hfb : blk_in (k_disk k x) i (f (unlinked b)) = Blk (bk_refs v - 1) (bk_data v) None).
  { rewrite Hv. unfold blk_in. cbn. rewrite Hrd. by rewrite (proj2 (Z.eqb_neq _ _)). }
  destruct (alter_step None None k ((let_go k i) <| k_bcache := c |>) i x (unlinked b) f) as (I1 & I2 & I3); try done.
  - split; [done|done|done| |cbn; by rewrite length_imap]. exists p. split_and!; [|done..].
    cbn. rewrite list_lookup_imap, Hp. cbn. unfold woken. rewrite R2. by rewrite bool_decide_false by auto.
  - by exists (front i (u32 (b_refcnt b - 1) =? 0) l).
  - pose proof (bk_buf _ _ _ _ (ci_bufs _ _ _ _ Hinv) _ _ Hb') as [B1 B2 B3 B4].
    split; [cbn; rewrite Hrd; lia| |done|done]. intros H0. change (u32 (b_refcnt b - 1) = 0) in H0. rewrite Hrd in H0.
    split; [done|]. intros _ y Hy. change (key b = Some y) in Hy. rewrite Hk in Hy. injection Hy as <-.
    change (b_data (f (unlinked b))) with (b_data b). rewrite Hv in Hclean. apply Hclean. cbn. lia.
  - by left.
  - by left.
  - apply HQ; [exact I1|done| |].
    + split; [split; [unfold let_go, released; by destruct k|apply resched_woken]|]. intros y. rewrite I2. f_equal. exact Hfb.
    + assert (H1 : in_use (unlinked b) = true) by (apply negb_true_iff, Z.eqb_neq; cbn; lia).
      assert (H2 : in_use (f (unlinked b)) = negb (Z.eqb (bk_refs v) 1)).
      { unfold in_use. change (b_refcnt (f (unlinked b))) with (u32 (b_refcnt b - 1)). rewrite Hrd, Hv. cbn [bk_refs].
        destruct (Z.eqb_spec (b_refcnt b - 1) 0), (Z.eqb_spec (b_refcnt b) 1); try done; lia. }
      rewrite H1, H2 in I3. destruct (Z.eqb (bk_refs v) 1); cbn [negb Nat.b2n] in *; lia.
Qed.
End Held.
End Ops.
