(* ===== verification/Printf.v ===== *)
(** Output: kernel/uart.c without its interrupt handler, [consputc] of
    kernel/console.c, kernel/printf.c, and [procdump] of kernel/proc.c.

    The UART's registers are device registers: what the next reads give is
    [k_mmio_in], what was written is the trace [k_mmio_out]; waiting for the device
    when there is no more input is [Blocked]. *)

From S2P Require Export Sched.

(** * kernel/uart.c *)

Definition Reg (reg : Z) : Z := UART0 + reg.
Definition RHR : Z := 0.
Definition THR : Z := 0.
Definition IER : Z := 1.
Definition IER_RX_ENABLE : Z := 1.
Definition IER_TX_ENABLE : Z := 2.
Definition FCR : Z := 2.
Definition FCR_FIFO_ENABLE : Z := 1.
Definition FCR_FIFO_CLEAR : Z := 6.
Definition LCR : Z := 3.
Definition LCR_EIGHT_BITS : Z := 3.
Definition LCR_BAUD_LATCH : Z := 128.
Definition LSR : Z := 5.
Definition LSR_TX_IDLE : Z := 32.
Definition UART_TX_BUF_SIZE : Z := 32.

Definition ReadReg (reg : Z) : K Z := v <- mmio_read (Reg reg) ;; ret (u8 v).
Definition WriteReg (reg v : Z) : K unit := mmio_write (Reg reg) (u8 v).

(** A loop each round of which reads a device register. *)
Definition loop_input {S R} (body : S -> K (S + R)) (s : S) : K R := fun w =>
  loop (Datatypes.S (length (k_mmio_in (w_k w)))) body s w.

Definition uartinit : K unit :=
  WriteReg IER 0 ;;;
  WriteReg LCR LCR_BAUD_LATCH ;;;
  WriteReg 0 3 ;;;
  WriteReg 1 0 ;;;
  WriteReg LCR LCR_EIGHT_BITS ;;;
  WriteReg FCR (Z.lor FCR_FIFO_ENABLE FCR_FIFO_CLEAR) ;;;
  WriteReg IER (Z.lor IER_TX_ENABLE IER_RX_ENABLE).

Definition getu {A} (f : uart -> A) : K A := getk (fun k => f (k_uart k)).
Definition modu (f : uart -> uart) : K unit := modk (fun k => k <| k_uart ::= f |>).

(** Spinning for ever once another CPU has panicked. *)
Definition stop_if_panicked : K unit :=
  p <- getk k_panicked ;; if negb (p =? 0) then blocked else ret tt.

Definition uartstart : K unit :=
  loop_input (fun _ : unit =>
    w <- getu u_w ;;
    r <- getu u_r ;;
    if w =? r then ret (inr tt)
    else
      lsr <- ReadReg LSR ;;
      if Z.land lsr LSR_TX_IDLE =? 0 then ret (inr tt)
      else
        buf <- getu u_buf ;;
        c <- arr_get buf (r mod UART_TX_BUF_SIZE) ;;
        modu (fun u => u <| u_r := u64 (r + 1) |>) ;;;
        wakeup ChUart ;;;
        WriteReg THR c ;;;
        ret (inl tt)) tt.

Definition uartputc (c : Z) : K unit :=
  acquire LkUart ;;;
  stop_if_panicked ;;;
  loop_env 0 (fun _ : unit =>
    w <- getu u_w ;;
    r <- getu u_r ;;
    if w =? u64 (r + UART_TX_BUF_SIZE) then sleep ChUart LkUart ;;; ret (inl tt)
    else ret (inr tt)) tt ;;;
  w <- getu u_w ;;
  buf <- getu u_buf ;;
  buf' <- arr_set buf (w mod UART_TX_BUF_SIZE) (u8 c) ;;
  modu (fun u => u <| u_buf := buf' |>) ;;;
  modu (fun u => u <| u_w := u64 (w + 1) |>) ;;;
  uartstart ;;;
  release LkUart.

Definition uartputc_sync (c : Z) : K unit :=
  stop_if_panicked ;;;
  loop_input (fun _ : unit =>
    lsr <- ReadReg LSR ;;
    if Z.land lsr LSR_TX_IDLE =? 0 then ret (inl tt) else ret (inr tt)) tt ;;;
  WriteReg THR c.

(** -1 if no character is waiting. *)
Definition uartgetc : K Z :=
  lsr <- ReadReg LSR ;;
  if negb (Z.land lsr 1 =? 0) then ReadReg RHR else ret (-1).

(** * [consputc] of kernel/console.c *)

Definition BACKSPACE : Z := 256.

Definition consputc (c : Z) : K unit :=
  if c =? BACKSPACE then uartputc_sync 8 ;;; uartputc_sync 32 ;;; uartputc_sync 8
  else uartputc_sync c.

(** * kernel/printf.c *)

Definition digits : list Z := bytes "0123456789abcdef".

(** The [do ... while] loop of [printint]: the digits, the last one first; [buf] has
    sixteen bytes. *)
Definition printint_digits (x base : Z) : K (list Z) :=
  loop 17 (fun '(x, buf) =>
    d <- arr_get digits (x mod base) ;;
    if (length buf <? 16)%nat then
      let x' := x / base in
      if negb (x' =? 0) then ret (inl (x', buf ++ [d])) else ret (inr (buf ++ [d]))
    else fault "buf") (x, []).

Definition printint (xx base : Z) (sign : bool) : K unit :=
  let neg := sign && (xx <? 0) in
  x <- (if neg then int_op (- xx) else ret (u32 xx)) ;;
  buf <- printint_digits x base ;;
  buf <- (if neg then if (length buf <? 16)%nat then ret (buf ++ [45]) else fault "buf"
          else ret buf) ;;
  for_do (rev buf) consputc.

Definition printptr (x : Z) : K unit :=
  consputc 48 ;;;
  consputc 120 ;;;
  for_do (Z.of_nat <$> seq 0 16) (fun i =>
    d <- arr_get digits (Z.shiftr (u64 (Z.shiftl x (4 * i))) 60) ;;
    consputc d).

(** The arguments of [printf]; a null string is [None]. *)
Inductive parg : Type := PInt (x : Z) | PPtr (x : Z) | PStr (s : option (list Z)).

(** The loop over the format; an argument that is missing or has another type is
    undefined. *)
Fixpoint printf_loop (fmt : list Z) (args : list parg) : K unit :=
  match fmt with
  | [] => ret tt
  | c :: fmt' =>
    if negb (c =? 37) then consputc c ;;; printf_loop fmt' args
    else
      match fmt' with
      | [] => ret tt
      | c :: fmt' =>
        if c =? 100 (* d *) then
          match args with
          | PInt x :: args' => printint x 10 true ;;; printf_loop fmt' args'
          | _ => fault "va_arg"
          end
        else if c =? 120 (* x *) then
          match args with
          | PInt x :: args' => printint x 16 true ;;; printf_loop fmt' args'
          | _ => fault "va_arg"
          end
        else if c =? 112 (* p *) then
          match args with
          | PPtr x :: args' => printptr x ;;; printf_loop fmt' args'
          | _ => fault "va_arg"
          end
        else if c =? 115 (* s *) then
          match args with
          | PStr s :: args' =>
            for_do (default (bytes "(null)") s) consputc ;;; printf_loop fmt' args'
          | _ => fault "va_arg"
          end
        else if c =? 37 then consputc 37 ;;; printf_loop fmt' args
        else consputc 37 ;;; consputc c ;;; printf_loop fmt' args
      end
  end.

Definition printf (fmt : list Z) (args : list parg) : K unit :=
  locking <- getk k_prlocking ;;
  when (negb (locking =? 0)) (acquire LkPr) ;;;
  printf_loop fmt args ;;;
  when (negb (locking =? 0)) (release LkPr).

(** The function [panic()]; elsewhere a call of it is the outcome [Panic]. *)
Definition panic_ (s : list Z) : K unit :=
  modk (fun k => k <| k_prlocking := 0 |>) ;;;
  printf (bytes "panic: ") [] ;;;
  printf s [] ;;;
  printf [10] [] ;;;
  modk (fun k => k <| k_panicked := 1 |>) ;;;
  blocked.

Definition printfinit : K unit := modk (fun k => k <| k_prlocking := 1 |>).

(** * [procdump] of kernel/proc.c *)

Definition state_name (s : procstate) : list Z :=
  bytes match s with
        | UNUSED => "unused" | USED => "used" | SLEEPING => "sleep " | RUNNABLE => "runble"
        | RUNNING => "run   " | ZOMBIE => "zombie"
        end.

(** A character array as the string it holds. *)
Fixpoint cstring (l : list Z) : list Z :=
  match l with
  | [] => []
  | c :: l' => if c =? 0 then [] else c :: cstring l'
  end.

Definition procdump : K unit :=
  printf [10] [] ;;;
  for_do (seq 0 NPROC) (fun i =>
    p <- get_proc i ;;
    if bool_decide (p_state p = UNUSED) then ret tt
    else
      printf (bytes "%d %s %s %d %d %d") [PInt (p_pid p); PStr (Some (state_name (p_state p)));
        PStr (Some (cstring (p_name p))); PInt (s32 (p_sp p)); PInt (s32 (p_rbi p)); PInt (s32 (p_dp p))] ;;;
      printf [10] []).

(** [print_proc] of kernel/trap.c, which [clockintr] calls when built with [DEBUG]. *)
Definition print_proc : K unit :=
  printf (10 :: line "Proc table:") [] ;;;
  for_do (seq 0 NPROC) (fun i =>
    p <- get_proc i ;;
    when (bool_decide (p_state p <> UNUSED))
      (printf (line "PID-%d SP-%d RBI-%d rnTime-%d sTime-%d wTime-%d numRan-%d rTime-%d cTime-%d eTime-%d")
        (PInt (p_pid p) :: ((fun x => PInt (s32 x)) <$> [p_sp p; p_rbi p; p_rntime p; p_stime p; p_wtime p;
          p_num_sch p; p_rtime p; p_ctime p; p_etime p])))) ;;;
  printf [10] [].

(** * Numbers printed and read back *)

Definition digit_val (c : Z) : option Z :=
  if (48 <=? c) && (c <=? 57) then Some (c - 48)
  else if (97 <=? c) && (c <=? 102) then Some (c - 87)
  else None.

(** The value of digits with the least significant one first. *)
Fixpoint digits_val (base : Z) (l : list Z) : option Z :=
  match l with
  | [] => Some 0
  | c :: l' =>
    d ← digit_val c; v ← digits_val base l';
    if d <? base then Some (d + base * v) else None
  end.

(** The number a numeral in [base] stands for, with an optional minus sign. *)
Definition numeral_val (base : Z) (text : list Z) : option Z :=
  match text with
  | [] => None
  | c :: ds => if c =? 45 then Z.opp <$> digits_val base (rev ds) else digits_val base (rev text)
  end.

(** The digits [printint] collects. *)
Fixpoint digits_rev (n : nat) (x base : Z) : list Z :=
  match n with
  | O => []
  | S n' => nth (Z.to_nat (x mod base)) digits 0 ::
            (if x / base =? 0 then [] else digits_rev n' (x / base) base)
  end.

Lemma digit_val_digits d : 0 <= d < 16 -> digit_val (nth (Z.to_nat d) digits 0) = Some d.
Proof.
  intros H. assert (Hd : d ∈ Z.of_nat <$> seq 0 16).
  { apply list_elem_of_fmap. exists (Z.to_nat d). split; [lia|]. apply elem_of_seq. lia. }
  cbn in Hd. repeat (apply elem_of_cons in Hd as [->|Hd]; [done|]). by apply elem_of_nil in Hd.
Qed.

Section Digits.
Context (base : Z) (Hb : 2 <= base <= 16).

Lemma digits_rev_val n x : 0 <= x < base ^ Z.of_nat n -> digits_val base (digits_rev n x base) = Some x.
Proof.
  revert x. induction n as [|n IH]; intros x Hx; [by replace x with 0 by (cbn in Hx; lia)|].
  rewrite Nat2Z.inj_succ, Z.pow_succ_r in Hx by lia. pose proof (Z.mod_pos_bound x base ltac:(lia)).
  cbn [digits_rev digits_val]. rewrite digit_val_digits by lia. cbn [mbind option_bind].
  pose proof (Z.div_mod x base ltac:(lia)) as Hdm.
  replace (digits_val base _) with (Some (x / base)).
  - cbn [mbind option_bind]. rewrite (proj2 (Z.ltb_lt _ _)) by lia. f_equal. lia.
  - destruct (x / base =? 0) eqn:E; [by apply Z.eqb_eq in E as ->|]. symmetry. apply IH.
    split; [apply Z.div_pos; lia|]. apply Z.div_lt_upper_bound; lia.
Qed.

Lemma digits_rev_length n x : (length (digits_rev n x base) <= n)%nat.
Proof. revert x. induction n as [|n IH]; intros x; cbn; [done|]. case_match; cbn; [lia|]. specialize (IH (x / base)). lia. Qed.

(** No leading zero. *)
Lemma digits_rev_last n x : 0 < x < base ^ Z.of_nat n ->
  exists d, last (digits_rev n x base) = Some d /\ digit_val d <> Some 0.
Proof.
  revert x. induction n as [|n IH]; intros x Hx; [cbn in Hx; lia|].
  rewrite Nat2Z.inj_succ, Z.pow_succ_r in Hx by lia. pose proof (Z.mod_pos_bound x base ltac:(lia)).
  pose proof (Z.div_mod x base ltac:(lia)) as Hdm. cbn [digits_rev].
  destruct (x / base =? 0) eqn:E.
  - eexists. split; [done|]. rewrite digit_val_digits by lia. intros [= H0]. lia.
  - destruct (IH (x / base)) as (d & Hd & Hn).
    { split; [|apply Z.div_lt_upper_bound; lia]. assert (0 <= x / base) by (apply Z.div_pos; lia). lia. }
    exists d. split; [|done]. by rewrite last_cons, Hd.
Qed.

Lemma arr_get_digits d w : 0 <= d < 16 -> arr_get digits d w = Ok (nth (Z.to_nat d) digits 0) w.
Proof.
  intros H. unfold arr_get. rewrite (proj2 (Z.ltb_ge _ _)) by lia.
  destruct (lookup_lt_is_Some_2 digits (Z.to_nat d)) as [c Hc]; [cbn; lia|].
  by rewrite Hc, (nth_lookup_Some _ _ _ _ Hc).
Qed.

Lemma printint_digits_loop n x buf fuel w : (0 < n <= fuel)%nat -> (length buf + n <= 16)%nat ->
  0 <= x < base ^ Z.of_nat n ->
  loop fuel (fun '(x, buf) =>
    d <- arr_get digits (x mod base) ;;
    if (length buf <? 16)%nat then
      let x' := x / base in
      if negb (x' =? 0) then ret (inl (x', buf ++ [d])) else ret (inr (buf ++ [d]))
    else fault "buf") (x, buf) w = Ok (buf ++ digits_rev n x base) w.
Proof.
  revert x buf fuel. induction n as [|n IH]; intros x buf [|fuel] Hn Hl Hx; try lia.
  rewrite Nat2Z.inj_succ, Z.pow_succ_r in Hx by lia. pose proof (Z.mod_pos_bound x base ltac:(lia)).
  cbn [loop digits_rev]. unfold bind. rewrite arr_get_digits by lia.
  rewrite (proj2 (Nat.ltb_lt _ _)) by lia. cbn [negb].
  destruct (x / base =? 0) eqn:E; cbn [negb]; [done|]. unfold ret. 
  etransitivity; [apply IH|by rewrite <- app_assoc].
  - destruct n; [|lia]. cbn in Hx. rewrite Z.div_small in E by lia. done.
  - rewrite length_app. cbn. lia.
  - split; [apply Z.div_pos; lia|]. apply Z.div_lt_upper_bound; lia.
Qed.
End Digits.

Lemma digits_not_minus base l v : digits_val base l = Some v -> 45 ∉ l.
Proof.
  revert v. induction l as [|c l IH]; cbn; intros v Hv; [by apply not_elem_of_nil|].
  destruct (digit_val c) eqn:Ec; [|done]. destruct (digits_val base l) eqn:El; [|done].
  apply not_elem_of_cons. split; [|by eapply IH]. by intros <-.
Qed.

Lemma printint_digits_ok base x : 2 <= base <= 16 -> 0 <= x < base ^ Z.of_nat 15 ->
  exists ds c l, (forall w, printint_digits x base w = Ok ds w) /\ (length ds <= 15)%nat /\
    digits_val base ds = Some x /\ rev ds = c :: l /\ c <> 45 /\ (c = 48 -> x = 0 /\ l = []).
Proof.
  intros Hb Hx. assert (Hv := digits_rev_val base Hb 15 x Hx). assert (Hm := digits_not_minus _ _ _ Hv).
  assert (Hne : digits_rev 15 x base <> []) by done.
  assert (H0 : x = 0 -> digits_rev 15 x base = [48]).
  { intros ->. cbn. rewrite Zmod_0_l, Zdiv_0_l. done. }
  assert (Hl := digits_rev_last base Hb 15 x).
  assert (Hd : forall w, printint_digits x base w = Ok (digits_rev 15 x base) w).
  { intros w. unfold printint_digits.
    etransitivity; [apply (printint_digits_loop base Hb 15)|]; [lia|cbn; lia|done|done]. }
  assert (Hlen := digits_rev_length base 15 x). revert Hv Hm Hne H0 Hl Hd Hlen.
  generalize (digits_rev 15 x base). intros ds Hv Hm Hne H0 Hl Hd Hlen.
  destruct (rev ds) as [|c l] eqn:E.
  { destruct Hne. by rewrite <- (rev_involutive ds), E. }
  exists ds, c, l. split_and!; try done.
  - intros ->. apply Hm, list_elem_of_In, in_rev. rewrite E. by left.
  - intros ->. assert (x = 0) as ->.
    { destruct (decide (x = 0)); [done|]. destruct Hl as (d & Hd1 & Hd2); [lia|].
      apply last_Some in Hd1 as [l' ->]. rewrite rev_app_distr in E. by injection E as ->. }
    split; [done|]. rewrite H0 in E by done. by injection E as <-.
Qed.

(** C31. What [printint] prints is a numeral for its argument - for the unsigned value
    when [sign] is false - without leading zeros, in base 10 and in base 16; the only
    [int] it has undefined behaviour for is the smallest one. *)
Theorem printint_roundtrip (xx base : Z) (sign : bool) :
  base = 10 \/ base = 16 -> -2147483648 < xx < 2147483648 ->
  exists text,
    (forall w, printint xx base sign w = for_do text consputc w) /\
    numeral_val base text = Some (if sign then xx else u32 xx) /\
    (head text = Some 48 -> text = [48]) /\ (forall t, text = 45 :: t -> head t <> Some 48).
Proof.
  intros Hb Hx. set (neg := sign && (xx <? 0)). set (x := if neg then - xx else u32 xx).
  assert (Hx' : 0 <= x < 4294967296).
  { unfold x, neg. destruct sign; cbn [andb]; [|pose proof (u32_range xx); lia].
    destruct (xx <? 0) eqn:E; [|pose proof (u32_range xx)]; lia. }
  assert (Hval : if neg then sign = true /\ x = - xx /\ 0 < x else x = if sign then xx else u32 xx).
  { unfold x, neg. destruct sign; [|done]. cbn. destruct (xx <? 0) eqn:E; [lia|]. apply u32_small. lia. }
  destruct (printint_digits_ok base x) as (ds & c & l & Hd & Hlen & Hv & Hr & Hc & Hz); [lia| |].
  { destruct Hb as [->| ->]; cbn; lia. }
  exists (if neg then 45 :: rev ds else rev ds). split_and!.
  - intros w. unfold printint. cbv zeta. fold neg.
    rewrite (bind_Ok _ _ _ x w); [rewrite (bind_Ok _ _ _ ds w) by apply Hd|].
    + destruct neg; [|done]. unfold bind. rewrite (proj2 (Nat.ltb_lt _ _)) by lia.
      unfold ret. by rewrite rev_app_distr.
    + unfold x, int_op, int_ok. destruct neg; [|done].
      by rewrite (proj2 (Z.leb_le _ _)), (proj2 (Z.ltb_lt _ _)) by lia.
  - destruct neg; cbn [numeral_val].
    + destruct Hval as (-> & -> & _). cbn [Z.eqb Pos.eqb]. rewrite rev_involutive, Hv.
      cbn [fmap option_fmap option_map]. f_equal. lia.
    + rewrite Hr. cbn [numeral_val]. rewrite (proj2 (Z.eqb_neq _ _)), <- Hr, rev_involutive, Hv by done.
      by f_equal.
  - destruct neg; [done|]. rewrite Hr. intros [= Hh]. by destruct (Hz Hh) as [_ ->]; subst c.
  - intros t. destruct neg; [|rewrite Hr; by intros [= ? _]].
    rewrite Hr. intros [= <-] [= Hh]. destruct (Hz Hh). lia.
Qed.

Lemma printint_roundtrip_witness : exists text,
  (forall w, printint (-305) 10 true w = for_do text consputc w) /\
  numeral_val 10 text = Some (-305) /\ (head text = Some 48 -> text = [48]) /\
  (forall t, text = 45 :: t -> head t <> Some 48).
Proof. exact (printint_roundtrip (-305) 10 true (or_introl eq_refl) ltac:(lia)). Defined.

(** * Output touches the device registers only *)

(** [w] with other device registers. *)
Definition with_mmio (i : list Z) (o : list (Z * Z)) (w : world) : world :=
  w <| w_k ::= fun k => k <| k_mmio_in := i |> <| k_mmio_out := o |> |>.

Lemma with_mmio_same w : with_mmio (k_mmio_in (w_k w)) (k_mmio_out (w_k w)) w = w.
Proof. by destruct w as [[]]. Qed.

(** The arguments a format may be given. *)
Definition printable (a : parg) : Prop :=
  match a with PInt x => -2147483648 < x < 2147483648 | _ => True end.

(** The arguments suit a format of [%d], [%s] and text. *)
Fixpoint fits (fmt : list Z) (args : list parg) : bool :=
  match fmt with
  | [] => true
  | c :: fmt' =>
    if negb (c =? 37) then fits fmt' args
    else
      match fmt', args with
      | [], _ => true
      | c :: fmt', PInt _ :: args => (c =? 100) && fits fmt' args
      | c :: fmt', PStr _ :: args => (c =? 115) && fits fmt' args
      | _, _ => false
      end
  end.

(** A process [procdump] can show. *)
Definition shown (p : proc) : Prop := p_state p <> UNUSED ->
  Forall printable [PInt (p_pid p); PInt (s32 (p_sp p)); PInt (s32 (p_rbi p)); PInt (s32 (p_dp p))].

Section Output.
Context (E : xpost world) (HE : forall w, on_blocked E w).

Lemma wp_WriteReg reg v (Q : unit -> world -> Prop) i o w :
  (forall o', Q tt (with_mmio i o' w)) -> wp E (WriteReg reg v) Q (with_mmio i o w).
Proof. intros HQ. apply wp_modk. apply HQ. Qed.

Lemma wp_ReadReg reg (Q : Z -> world -> Prop) i o w :
  (forall v i', i = v :: i' -> Q (u8 v) (with_mmio i' o w)) -> wp E (ReadReg reg) Q (with_mmio i o w).
Proof.
  intros HQ. unfold ReadReg, mmio_read. do 3 kstep. cbn. destruct i as [|v i']; [apply HE|].
  do 2 kstep. apply wp_ret. exact (HQ v i' eq_refl).
Qed.

Lemma wp_uartputc_sync c (Q : unit -> world -> Prop) i o w : k_panicked (w_k w) = 0 ->
  (forall i' o', Q tt (with_mmio i' o' w)) -> wp E (uartputc_sync c) Q (with_mmio i o w).
Proof.
  intros Hp HQ. unfold uartputc_sync, stop_if_panicked. do 3 kstep. cbn. rewrite Hp. cbn [Z.eqb negb].
  apply wp_ret. kstep. unfold loop_input.
  apply (wp_loop _ (fun _ w' => exists i, w' = with_mmio i o w) (fun _ w' => length (k_mmio_in (w_k w'))));
    [by exists i|cbn; lia|].
  intros _ w' [i1 ->]. kstep. apply wp_ReadReg. intros v i2 ->. destruct (_ =? 0); apply wp_ret.
  - split; [by exists i2|]. cbn. lia.
  - apply wp_WriteReg. intros. apply HQ.
Qed.

Lemma wp_consputc c (Q : unit -> world -> Prop) i o w : k_panicked (w_k w) = 0 ->
  (forall i' o', Q tt (with_mmio i' o' w)) -> wp E (consputc c) Q (with_mmio i o w).
Proof.
  intros Hp HQ. unfold consputc. destruct (c =? BACKSPACE); [|by apply wp_uartputc_sync].
  kstep. apply wp_uartputc_sync; [done|]. intros. kstep. apply wp_uartputc_sync; [done|]. intros.
  by apply wp_uartputc_sync.
Qed.

Lemma wp_consputc_all text (Q : unit -> world -> Prop) i o w : k_panicked (w_k w) = 0 ->
  (forall i' o', Q tt (with_mmio i' o' w)) -> wp E (for_do text consputc) Q (with_mmio i o w).
Proof.
  intros Hp HQ. apply (wp_for_do _ (fun _ w' => exists i o, w' = with_mmio i o w)); [by exists i, o| |].
  - intros c l ? (i1 & o1 & ->). apply wp_consputc; [done|]. intros. by eexists _, _.
  - intros ? (i1 & o1 & ->). apply HQ.
Qed.

(** Every [int] but the smallest one can be printed with ["%d"]. *)
Lemma wp_printint xx (Q : unit -> world -> Prop) i o w : k_panicked (w_k w) = 0 ->
  -2147483648 < xx < 2147483648 ->
  (forall i' o', Q tt (with_mmio i' o' w)) -> wp E (printint xx 10 true) Q (with_mmio i o w).
Proof.
  intros Hp Hx HQ. unfold printint. cbn [andb]. set (neg := xx <? 0). set (x := if neg then - xx else u32 xx).
  assert (Hx' : 0 <= x < 4294967296).
  { unfold x, neg. destruct (Z.ltb_spec xx 0); [lia|]. pose proof (u32_range xx). lia. }
  destruct (printint_digits_ok 10 x) as (ds & _ & _ & Hd & Hlen & _); [lia|cbn; lia|].
  kstep. apply (wp_Ok _ _ _ _ x (with_mmio i o w)).
  { unfold x, neg, int_op, int_ok. destruct (Z.ltb_spec xx 0); [|done].
    by rewrite (proj2 (Z.leb_le _ _)), (proj2 (Z.ltb_lt _ _)) by lia. }
  kstep. apply (wp_Ok _ _ _ _ ds (with_mmio i o w)); [apply Hd|]. kstep.
  rewrite (proj2 (Nat.ltb_lt _ _)) by lia. destruct neg; apply wp_ret; by apply wp_consputc_all.
Qed.

Lemma wp_printf_loop fmt args (Q : unit -> world -> Prop) i o w : k_panicked (w_k w) = 0 ->
  fits fmt args = true -> Forall printable args ->
  (forall i' o', Q tt (with_mmio i' o' w)) -> wp E (printf_loop fmt args) Q (with_mmio i o w).
Proof.
  intros Hp. remember (length fmt) as n eqn:En. assert (Hn : (length fmt <= n)%nat) by lia. clear En.
  revert fmt args i o Hn. induction n as [|n IH]; intros [|c [|c' fmt]] args i o Hn Hf Ha HQ;
    cbn [length] in Hn; try lia; cbn [printf_loop fits] in *; try (by apply wp_ret, HQ).
  - destruct (negb _); [|by apply wp_ret, HQ]. kstep. apply wp_consputc; [done..|]. intros. apply wp_ret, HQ.
  - destruct (negb _).
    { kstep. apply wp_consputc; [done..|]. intros. apply (IH (c' :: fmt)); [cbn; lia|done..]. }
    destruct args as [|[x|x|s] args]; try done; apply andb_prop in Hf as [->%Z.eqb_eq Hf];
      apply Forall_cons in Ha as [Hx Ha]; cbn [Z.eqb Pos.eqb].
    + kstep. apply wp_printint; [done..|]. intros. apply IH; [lia|done..].
    + kstep. apply wp_consputc_all; [done|]. intros. apply IH; [lia|done..].
Qed.

Lemma wp_printf fmt args (Q : unit -> world -> Prop) i o w : k_panicked (w_k w) = 0 ->
  LkPr ∉ k_held (w_k w) -> fits fmt args = true -> Forall printable args ->
  (forall i' o', Q tt (with_mmio i' o' w)) -> wp E (printf fmt args) Q (with_mmio i o w).
Proof.
  intros Hp Hpr Hf Ha HQ. unfold printf. do 2 kstep. cbn [k_prlocking w_k with_mmio].
  destruct (negb _); cbn [when].
  - do 3 kstep. set (w1 := w <| w_k ::= fun k => k <| k_held ::= cons LkPr |> |>).
    replace ((with_mmio i o w) <| w_k ::= _ |>) with (with_mmio i o w1) by (by destruct w as [[] ?]).
    apply wp_printf_loop; [done..|].
    intros i1 o1. apply (wp_release _ _ _ (k_held (w_k w))); [apply release_held_head|].
    specialize (HQ i1 o1). by destruct w as [[] ?].
  - kstep. apply wp_ret. kstep. apply wp_printf_loop; [done..|]. intros. apply wp_ret, HQ.
Qed.

(** [procdump] changes nothing but the device registers. *)
Lemma wp_procdump (Q : unit -> world -> Prop) i o w : k_panicked (w_k w) = 0 ->
  LkPr ∉ k_held (w_k w) -> length (k_proc (w_k w)) = NPROC -> Forall shown (k_proc (w_k w)) ->
  (forall i' o', Q tt (with_mmio i' o' w)) -> wp E procdump Q (with_mmio i o w).
Proof.
  intros Hp Hpr Hlen Hs HQ. unfold procdump. kstep. apply wp_printf; [done..|apply Forall_nil_2|]. intros i0 o0.
  apply (wp_for_do _ (fun js w' => (forall j, j ∈ js -> (j < NPROC)%nat) /\ exists i o, w' = with_mmio i o w)).
  - split; [|by exists i0, o0]. intros j Hj%elem_of_seq. lia.
  - intros j js ? (Hj & i1 & o1 & ->). assert (Hjs : forall j, j ∈ js -> (j < NPROC)%nat) by (intros; apply Hj; by right).
    destruct (lookup_lt_is_Some_2 (k_proc (w_k w)) j) as [p Hpj]; [rewrite Hlen; apply Hj; by left|].
    kstep. eapply wp_get_proc; [exact Hpj|]. case_bool_decide as Hst.
    { apply wp_ret. split; [done|]. by exists i1, o1. }
    rewrite Forall_lookup in Hs. specialize (Hs j p Hpj Hst).
    kstep. apply wp_printf; [done..| |].
    { apply Forall_cons in Hs as [? Hs]. by do 3 (apply Forall_cons; split; [done|]). }
    intros. apply wp_printf; [done..|apply Forall_nil_2|]. intros. split; [done|]. by eexists _, _.
  - intros ? (_ & i1 & o1 & ->). apply HQ.
Qed.
End Output.
