(* ===== verification/Console.v ===== *)
(** The console: kernel/console.c, and the interrupt handler of kernel/uart.c.

    [c_r <= c_w <= c_e] as 32-bit counters modulo 2^32: what was read, what may be
    read, and what was typed. *)

From S2P Require Export Printf.

Definition INPUT_BUF_SIZE : Z := 128.
Definition getc {A} (f : console -> A) : K A := getk (fun k => f (k_cons k)).
Definition modc (f : console -> console) : K unit := modk (fun k => k <| k_cons ::= f |>).

Definition CtrlP : Z := 16.
Definition CtrlU : Z := 21.
Definition CtrlH : Z := 8.
Definition CtrlD : Z := 4.

Section Console.
Context {L : Layout}.

(** The number of bytes written. *)
Definition consolewrite (src : usrc) (n : Z) : K Z :=
  loop (Z.to_nat n + 1) (fun i =>
    if i <? n then
      let! (r, c) := either_copyin (src_add src i) 1 in
      if r =? -1 then ret (inr i)
      else c <- arr_get c 0 ;; uartputc c ;;; ret (inl (i + 1))
    else ret (inr i)) 0.

(** The result and, for a destination in the kernel, the bytes.  A round either takes a
    byte or sleeps. *)
Definition consoleread (user_dst : bool) (dst n : Z) : K (Z * list Z) :=
  let target := n in
  acquire LkCons ;;;
  r <- loop_env (Z.to_nat n + 1) (fun '(dst, n, out) =>
    if n >? 0 then
      r <- getc c_r ;;
      w <- getc c_w ;;
      if r =? w then
        i <- curproc ;;
        k <- killed i ;;
        if negb (k =? 0) then release LkCons ;;; ret (inr None)
        else sleep ChCons LkCons ;;; ret (inl (dst, n, out))
      else
        buf <- getc c_buf ;;
        c <- arr_get buf (r mod INPUT_BUF_SIZE) ;;
        modc (fun cs => cs <| c_r := u32 (r + 1) |>) ;;;
        if c =? CtrlD then
          when (n <? target) (modc (fun cs => cs <| c_r := r |>)) ;;;
          ret (inr (Some (n, out)))
        else
          x <- either_copyout user_dst dst [c] ;;
          if x =? -1 then ret (inr (Some (n, out)))
          else if c =? 10 then ret (inr (Some (n - 1, out ++ [c])))
          else ret (inl (u64 (dst + 1), n - 1, out ++ [c]))
    else ret (inr (Some (n, out)))) (dst, n, []) ;;
  match r with
  | None => ret (-1, [])
  | Some (n, out) => release LkCons ;;; ret (target - n, out)
  end.

End Console.

(** [while(cons.e != cons.w && ...)]: at most [INPUT_BUF_SIZE] characters are erased. *)
Definition kill_line : K unit :=
  loop (Z.to_nat INPUT_BUF_SIZE + 1) (fun _ : unit =>
    e <- getc c_e ;;
    w <- getc c_w ;;
    if e =? w then ret (inr tt)
    else
      buf <- getc c_buf ;;
      c <- arr_get buf (u32 (e - 1) mod INPUT_BUF_SIZE) ;;
      if c =? 10 then ret (inr tt)
      else
        modc (fun cs => cs <| c_e := u32 (e - 1) |>) ;;;
        consputc BACKSPACE ;;;
        ret (inl tt)) tt.

Definition consoleintr (c : Z) : K unit :=
  acquire LkCons ;;;
  (if c =? CtrlP then procdump
   else if c =? CtrlU then kill_line
   else if (c =? CtrlH) || (c =? 127) then
     e <- getc c_e ;;
     w <- getc c_w ;;
     when (negb (e =? w))
       (modc (fun cs => cs <| c_e := u32 (e - 1) |>) ;;;
        consputc BACKSPACE)
   else
     e <- getc c_e ;;
     r <- getc c_r ;;
     when (negb (c =? 0) && (u32 (e - r) <? INPUT_BUF_SIZE))
       (let c := if c =? 13 then 10 else c in
        consputc c ;;;
        e <- getc c_e ;;
        buf <- getc c_buf ;;
        buf' <- arr_set buf (e mod INPUT_BUF_SIZE) (u8 c) ;;
        modc (fun cs => cs <| c_buf := buf' |> <| c_e := u32 (e + 1) |>) ;;;
        e <- getc c_e ;;
        r <- getc c_r ;;
        when ((c =? 10) || (c =? CtrlD) || (u32 (e - r) =? INPUT_BUF_SIZE))
          (modc (fun cs => cs <| c_w := e |>) ;;;
           wakeup ChCons))) ;;;
  release LkCons.

Definition CONSOLE : nat := 1.

Definition consoleinit : K unit :=
  uartinit ;;;
  modk (fun k => k <| k_devsw ::= <[CONSOLE := Some DevConsole]> |>).

(** * [uartintr] of kernel/uart.c *)

Definition uartintr : K unit :=
  loop_input (fun _ : unit =>
    c <- uartgetc ;;
    if c =? -1 then ret (inr tt) else consoleintr c ;;; ret (inl tt)) tt ;;;
  acquire LkUart ;;;
  uartstart ;;;
  release LkUart.

(** * The line discipline *)

(** What the console holds: the bytes that may be read and the line being edited. *)
Record discipline : Type := Discipline { committed : list Z; editing : list Z }.

(** The buffer as a ring: the bytes from [c_r] to [c_w], then those from [c_w] to [c_e]. *)
Record console_rep (cs : console) (d : discipline) : Prop := ConsoleRep {
  rep_ring : ring INPUT_BUF_SIZE (c_buf cs) (c_r cs) (committed d ++ editing d);
  rep_r : 0 <= c_r cs < 4294967296;
  rep_w : c_w cs = u32 (c_r cs + Z.of_nat (length (committed d)));
  rep_e : c_e cs = u32 (c_r cs + Z.of_nat (length (committed d ++ editing d)));
  rep_line : 10 ∉ editing d }.

(** What a character typed does to the line, and whether it commits it. *)
Definition commits (d : discipline) (c : Z) : bool :=
  (c =? 10) || (c =? CtrlD) || (Z.of_nat (length (committed d ++ editing d)) + 1 =? INPUT_BUF_SIZE).
Definition line_step (c : Z) (d : discipline) : discipline * bool :=
  if c =? CtrlP then (d, false)
  else if c =? CtrlU then (Discipline (committed d) [], false)
  else if (c =? CtrlH) || (c =? 127) then
    (Discipline (committed d) (take (length (editing d) - 1) (editing d)), false)
  else if (c =? 0) || (Z.of_nat (length (committed d ++ editing d)) =? INPUT_BUF_SIZE) then (d, false)
  else
    let c := if c =? 13 then 10 else c in
    if commits d c then (Discipline (committed d ++ editing d ++ [c]) [], true)
    else (Discipline (committed d) (editing d ++ [c]), false).

Lemma u32_mod128 x : u32 x mod INPUT_BUF_SIZE = x mod INPUT_BUF_SIZE.
Proof. apply u32_mod. by exists 33554432. Qed.

Section Discipline.
Context (cs : console) (d : discipline) (Hr : console_rep cs d).
Let n := Z.of_nat (length (committed d ++ editing d)).

Lemma rep_size : n <= INPUT_BUF_SIZE.
Proof. apply (rep_ring _ _ Hr). Qed.

Lemma rep_count : u32 (c_e cs - c_r cs) = n.
Proof.
  pose proof rep_size as Hs. rewrite (rep_e _ _ Hr). apply u32_sub. unfold INPUT_BUF_SIZE, n in *. lia.
Qed.

Lemma rep_empty : (c_e cs =? c_w cs) = bool_decide (editing d = []).
Proof.
  pose proof rep_size as Hs. pose proof (rep_r _ _ Hr). unfold n in Hs.
  rewrite (rep_e _ _ Hr), (rep_w _ _ Hr). rewrite length_app in Hs |- *. unfold INPUT_BUF_SIZE in Hs.
  case_bool_decide as Hn.
  - rewrite Hn, Nat.add_0_r. apply Z.eqb_refl.
  - apply Z.eqb_neq. assert (length (editing d) <> 0%nat) by (by destruct (editing d)).
    unfold u32. zlia.
Qed.

(** Erasing the last character of the line. *)
Lemma rep_erase l c : editing d = l ++ [c] ->
  console_rep (cs <| c_e := u32 (c_e cs - 1) |>) (Discipline (committed d) l) /\ c <> 10 /\
  c_buf cs !! Z.to_nat (u32 (c_e cs - 1) mod INPUT_BUF_SIZE) = Some c.
Proof.
  destruct Hr as [Hri Hrr Hw He Hl]. intros Hed. rewrite Hed in *. apply not_elem_of_app in Hl as [Hl Hc].
  assert (Hlen : Z.of_nat (length (committed d ++ l ++ [c])) - 1 = Z.of_nat (length (committed d ++ l)))
    by (rewrite !length_app; cbn; lia).
  split_and!; [split; cbn|..].
  - rewrite app_assoc in Hri. by eapply ring_prefix.
  - done.
  - done.
  - rewrite He, u32_pred. f_equal. lia.
  - done.
  - intros ->. apply Hc. by left.
  - rewrite He, u32_pred, u32_mod128, <- Z.add_sub_assoc, Hlen. apply (ring_lookup _ _ _ _ _ _ Hri).
    by rewrite app_assoc, lookup_app_r, Nat.sub_diag.
Qed.

(** A character at the end of the line, committed or not. *)
Lemma rep_add c commit : 0 < c < 256 -> n < INPUT_BUF_SIZE -> (commit = false -> c <> 10) ->
  let buf := <[Z.to_nat (c_e cs mod INPUT_BUF_SIZE) := u8 c]> (c_buf cs) in
  let e := u32 (c_e cs + 1) in
  console_rep (cs <| c_buf := buf |> <| c_e := e |> <| c_w ::= fun w => if commit : bool then e else w |>)
    (if commit then Discipline (committed d ++ editing d ++ [c]) []
     else Discipline (committed d) (editing d ++ [c])).
Proof.
  destruct Hr as [Hri Hrr Hw He Hl]. intros Hc Hlt Hcc buf e.
  assert (He' : e = u32 (c_r cs + Z.of_nat (length (committed d ++ editing d ++ [c])))).
  { unfold e. rewrite He, u32_succ. f_equal.
    rewrite (app_assoc (committed d)), (length_app (committed d ++ _)). cbn [length]. lia. }
  assert (Hri' : ring INPUT_BUF_SIZE buf (c_r cs) (committed d ++ editing d ++ [c])).
  { rewrite app_assoc. unfold buf. rewrite u8_small by lia.
    apply ring_push; [done|done|by rewrite He, u32_mod128|done]. }
  destruct commit; split; cbn; rewrite ?app_nil_r; try done.
  - apply not_elem_of_nil.
  - apply not_elem_of_app. split; [done|]. intros H%list_elem_of_singleton. by apply Hcc.
Qed.
End Discipline.

(** [w] with another console and other device registers. *)
Definition with_cons (cs : console) (i : list Z) (o : list (Z * Z)) (w : world) : world :=
  with_mmio i o (w <| w_k ::= fun k => k <| k_cons := cs |> |>).

Lemma with_cons_same w : with_cons (k_cons (w_k w)) (k_mmio_in (w_k w)) (k_mmio_out (w_k w)) w = w.
Proof. by destruct w as [[]]. Qed.

(** Nobody but the console's own state and the readers is affected. *)
Definition after_char (c : Z) (d : discipline) (w w' : world) : Prop :=
  exists cs i o, console_rep cs (fst (line_step c d)) /\
    w' = with_cons cs i o (if snd (line_step c d)
      then with_procs (imap (woken ChCons (k_cur (w_k w))) (k_proc (w_k w))) w else w).

Section Interrupt.
Context (E : xpost world) (HE : forall w, on_blocked E w) (d : discipline) (w : world).
Context (Hpan : k_panicked (w_k w) = 0).

Lemma wp_con_putc c (Q : unit -> world -> Prop) cs i o :
  (forall i' o', Q tt (with_cons cs i' o' w)) -> wp E (consputc c) Q (with_cons cs i o w).
Proof. intros HQ. apply (wp_consputc E HE); [done|]. intros. apply HQ. Qed.

Lemma wp_kill_line (Q : unit -> world -> Prop) cs i o : console_rep cs d ->
  (forall cs' i' o', console_rep cs' (Discipline (committed d) []) -> Q tt (with_cons cs' i' o' w)) ->
  wp E kill_line Q (with_cons cs i o w).
Proof.
  intros Hr HQ. unfold kill_line.
  apply (wp_loop _ (fun _ w' => exists ed cs i o, w' = with_cons cs i o w /\
      console_rep cs (Discipline (committed d) ed))
    (fun _ w' => Z.to_nat (u32 (c_e (k_cons (w_k w')) - c_r (k_cons (w_k w')))))).
  - exists (editing d), cs, i, o. by destruct d.
  - cbn. rewrite (rep_count _ _ Hr). pose proof (rep_size _ _ Hr). unfold INPUT_BUF_SIZE in *. lia.
  - intros _ w' (ed & cs1 & i1 & o1 & -> & Hr1). unfold getc, modc. do 4 kstep. cbn [k_cons w_k with_cons].
    change (c_e (k_cons (w_k (with_cons cs1 i1 o1 w)))) with (c_e cs1).
    change (c_w (k_cons (w_k (with_cons cs1 i1 o1 w)))) with (c_w cs1).
    rewrite (rep_empty _ _ Hr1). cbn [editing]. case_bool_decide as Hn.
    { apply wp_ret, HQ. by subst ed. }
    do 3 kstep. destruct (exists_last Hn) as (ed' & x & ->).
    destruct (rep_erase _ _ Hr1 ed' x eq_refl) as (Hr2 & Hx10 & Hx). cbn [committed] in Hr2.
    change (c_buf (k_cons (w_k (with_cons cs1 i1 o1 w)))) with (c_buf cs1).
    unfold arr_get. rewrite (proj2 (Z.ltb_ge _ _)) by (unfold INPUT_BUF_SIZE; zlia). rewrite Hx. kstep.
    rewrite (proj2 (Z.eqb_neq _ _)) by done. do 3 kstep.
    apply (wp_con_putc _ _ (cs1 <| c_e := u32 (c_e cs1 - 1) |>)). intros. apply wp_ret. split.
    + by exists ed', (cs1 <| c_e := u32 (c_e cs1 - 1) |>), i', o'.
    + cbn. pose proof (rep_count _ _ Hr2) as H2. cbn in H2. rewrite H2, (rep_count _ _ Hr1). cbn.
      rewrite !length_app. cbn. lia.
Qed.
End Interrupt.

Section InterruptCorrect.
Context (w : world) (d : discipline) (c : Z).
Context (Hc : 0 <= c < 256) (Hs : c = CtrlP -> Forall shown (k_proc (w_k w))) (Hr : console_rep (k_cons (w_k w)) d)
  (Hpan : k_panicked (w_k w) = 0) (Hh : k_held (w_k w) = []) (Hlen : length (k_proc (w_k w)) = NPROC).

(** What [consoleintr] does between [acquire] and [release]. *)
Lemma wp_add_char E (HE : forall w, on_blocked E w) (Q : unit -> world -> Prop) :
  let cs := k_cons (w_k w) in
  let n := Z.of_nat (length (committed d ++ editing d)) in
  let c' := if c =? 13 then 10 else c in
  let w1 := w <| w_k ::= fun k => k <| k_held ::= cons LkCons |> |> in
  c <> 0 -> n < INPUT_BUF_SIZE ->
  (forall cs' i' o', console_rep cs' (if commits d c' then Discipline (committed d ++ editing d ++ [c']) []
       else Discipline (committed d) (editing d ++ [c'])) ->
     Q tt (with_cons cs' i' o' (if commits d c'
       then with_procs (imap (woken ChCons (k_cur (w_k w))) (k_proc (w_k w))) w1 else w1))) ->
  wp E (consputc c' ;;;
        e <- getc c_e ;;
        buf <- getc c_buf ;;
        buf' <- arr_set buf (e mod INPUT_BUF_SIZE) (u8 c') ;;
        modc (fun cs => cs <| c_buf := buf' |> <| c_e := u32 (e + 1) |>) ;;;
        e <- getc c_e ;;
        r <- getc c_r ;;
        when ((c' =? 10) || (c' =? CtrlD) || (u32 (e - r) =? INPUT_BUF_SIZE))
          (modc (fun cs => cs <| c_w := e |>) ;;;
           wakeup ChCons)) Q w1.
Proof.
  intros cs n c' w1 Hc0 Hn HQ. assert (Hc' : 0 < c' < 256) by (subst c'; destruct (c =? 13); lia).
  kstep. rewrite <- (with_cons_same w1). apply (wp_con_putc E HE w1 Hpan). intros i o.
  change (k_cons (w_k w1)) with cs. unfold getc, modc. do 4 kstep.
  change (k_cons (w_k (with_cons cs i o w1))) with cs.
  assert (Hcs : console_rep cs d) by exact Hr. clearbody cs.
  assert (Hset : forall (Q' : list Z -> world -> Prop) w', Q' (<[Z.to_nat (c_e cs mod INPUT_BUF_SIZE) := u8 c']> (c_buf cs)) w' ->
    wp E (arr_set (c_buf cs) (c_e cs mod INPUT_BUF_SIZE) (u8 c')) Q' w').
  { intros Q' w' H. unfold arr_set. destruct (rep_ring _ _ Hcs) as (Hl & _). rewrite Hl. unfold INPUT_BUF_SIZE in *.
    rewrite (proj2 (Z.ltb_ge _ _)) by zlia. rewrite Z.geb_leb, (proj2 (Z.leb_gt _ _)) by zlia. done. }
  kstep. apply Hset. do 6 kstep.
  match goal with |- wp _ (when ?b _) _ _ => replace b with (commits d c') end; cycle 1.
  { unfold commits. f_equal.
    change (c_r (k_cons _)) with (c_r cs). change (c_e (k_cons _)) with (u32 (c_e cs + 1)).
    rewrite (rep_e _ _ Hcs), u32_succ. fold n. rewrite <- Z.add_assoc, u32_sub; [done|].
    unfold INPUT_BUF_SIZE in Hn. lia. }
  destruct (commits d c') eqn:Ecm; cbn [when].
  - do 2 kstep. apply wp_wakeup; [exact Hlen| |].
    + intros j. change (LkProc j ∉ LkCons :: k_held (w_k w)). rewrite Hh.
      by intros [? | []%elem_of_nil]%elem_of_cons.
    + exact (HQ _ i o (rep_add cs d Hcs c' true Hc' Hn ltac:(done))).
  - apply wp_ret. refine (HQ _ i o (rep_add cs d Hcs c' false Hc' Hn _)).
    intros _ ->. by unfold commits in Ecm.
Qed.

(** C15. The line discipline.  Each character typed has on the console exactly the effect of
    one step of the specification: Control-P shows the process table and leaves the line
    alone, Control-U empties the line being edited, backspace and
    delete take its last character away, anything else is appended with carriage return
    read as newline - unless the buffer is full - and a newline, Control-D or a full
    buffer makes the line readable and wakes the readers.  The ring never overflows, the
    counters may wrap around, and nothing but the console, the device registers and the
    readers' state changes.  The CPU holds no lock when the interrupt comes, no CPU has
    panicked, and for Control-P no number of the process table is the smallest [int],
    which [printint] is undefined for. *)
Theorem consoleintr_refines : wp may_sleep (consoleintr c) (fun _ w' => after_char c d w w') w.
Proof.
  assert (Hnil : LkCons ∉ k_held (w_k w)) by (rewrite Hh; apply not_elem_of_nil).
  unfold consoleintr. do 2 kstep.
  set (w1 := w <| w_k ::= _ |>). assert (Hr1 : console_rep (k_cons (w_k w1)) d) by exact Hr.
  assert (Hfin : forall cs i o (b : bool), console_rep cs (fst (line_step c d)) -> b = snd (line_step c d) ->
    wp may_sleep (release LkCons) (fun _ w' => after_char c d w w')
      (with_cons cs i o (if b then with_procs (imap (woken ChCons (k_cur (w_k w))) (k_proc (w_k w))) w1 else w1))).
  { intros cs i o b Hcs ->. apply (wp_release _ _ _ (k_held (w_k w))); [by destruct (snd _); apply release_held_head|].
    exists cs, i, o. split; [done|]. destruct (snd _); by destruct w as [[] ?]. }
  kstep. unfold line_step in Hfin. destruct (c =? CtrlP) eqn:EP.
  { rewrite <- (with_mmio_same w1). apply Z.eqb_eq in EP. apply (wp_procdump may_sleep (fun _ => I)); try done; [|by apply Hs|].
    - change (LkPr ∉ LkCons :: k_held (w_k w)). rewrite Hh. by intros [? | []%elem_of_nil]%elem_of_cons.
    - intros. apply (Hfin (k_cons (w_k w1)) i' o' false); done. }
  destruct (c =? CtrlU).
  { rewrite <- (with_cons_same w1). apply (wp_kill_line may_sleep (fun _ => I) d w1 Hpan); [done|]. intros. by apply (Hfin _ _ _ false). }
  destruct (_ || _).
  { unfold getc, modc. do 4 kstep. rewrite (rep_empty (k_cons (w_k w1)) d Hr1). case_bool_decide as Hn; cbn [negb when].
    - apply wp_ret. rewrite <- (with_cons_same w1). apply (Hfin _ _ _ false); [|done]. cbn. rewrite Hn. cbn. by destruct d; cbn in *; subst.
    - do 2 kstep. apply (wp_con_putc may_sleep (fun _ => I) w1 Hpan _ _ ((k_cons (w_k w1)) <| c_e := u32 (c_e (k_cons (w_k w1)) - 1) |>)
        (k_mmio_in (w_k w1)) (k_mmio_out (w_k w1))).
      intros. apply (Hfin _ _ _ false); [|done]. destruct (exists_last Hn) as (l & x & Hl).
      cbn [fst]. rewrite Hl, length_app, Nat.add_sub, take_app_length. by eapply rep_erase. }
  unfold getc at 1 2. do 4 kstep. rewrite (rep_count (k_cons (w_k w1)) d Hr1).
  pose proof (rep_size _ _ Hr). destruct (c =? 0) eqn:E0; cbn [negb andb orb when] in *.
  { apply wp_ret. rewrite <- (with_cons_same w1). by apply (Hfin _ _ _ false). }
  destruct (Z.ltb_spec (Z.of_nat (length (committed d ++ editing d))) INPUT_BUF_SIZE); cbn [when].
  - rewrite (proj2 (Z.eqb_neq _ _)) in Hfin by lia. cbv zeta. apply (wp_add_char may_sleep (fun _ => I)); [lia|done|].
    intros cs i o. destruct (commits _ _); intros Hcs.
    + exact (Hfin cs i o true Hcs eq_refl).
    + exact (Hfin cs i o false Hcs eq_refl).
  - rewrite (proj2 (Z.eqb_eq _ _)) in Hfin by lia. apply wp_ret.
    rewrite <- (with_cons_same w1). by apply (Hfin _ _ _ false).
Qed.
End InterruptCorrect.

(** "a", backspace, "l": the line holds the one character. *)
Definition demo_console : console := Console (<[127%nat := 97]> (replicate 128 0)) 4294967295 4294967295 0.
Definition demo_con : world := World (kernel0 <| k_cons := demo_console |> <| k_mmio_in := [32; 0; 32; 32] |>) [].

Lemma demo_console_rep : console_rep demo_console (Discipline [] [97]).
Proof.
  split; try done.
  - split_and!; [done..|]. intros [|[|j]] x; cbn; intros H; by simplify_eq.
  - intros H%list_elem_of_singleton. done.
Qed.

Lemma consoleintr_refines_witness : exists a w', consoleintr 127 demo_con = Ok a w' /\ after_char 127 (Discipline [] [97]) demo_con w'.
Proof.
  refine (wp_returned _ _ _ _ (consoleintr_refines demo_con (Discipline [] [97]) 127 ltac:(lia)
    ltac:(discriminate) demo_console_rep eq_refl eq_refl eq_refl) _).
  vm_compute. exact eq_refl.
Defined.
