(* ===== verification/Fs.v ===== *)
(** The file system: kernel/fs.c.

    A block is a list of [BSIZE] bytes; an on-disk inode and a directory entry are read
    from and written to those bytes field by field.  [readi] returns the bytes that
    go to a destination in the kernel next to its result; [writei]'s source is a
    [usrc].  A path and a path element are the bytes of the C string without the
    NUL. *)

From S2P Require Export Log Printf Kstring.

(** * kernel/fs.h and kernel/stat.h *)

Definition ROOTINO : Z := 1.
Definition FSMAGIC : Z := 270544960.
Definition NDIRECT : Z := 12.
Definition NINDIRECT : Z := BSIZE / 4.
Definition MAXFILE : Z := NDIRECT + NINDIRECT.
Definition IPB : Z := BSIZE / 64.
Definition IBLOCK (i : Z) (sb : superblock) : Z := u32 (i / IPB + sb_inodestart sb).
Definition BPB : Z := BSIZE * 8.
Definition BBLOCK (b : Z) (sb : superblock) : Z := u32 (b / BPB + sb_bmapstart sb).
Definition DIRSIZ : nat := 14.
Definition T_DIR : Z := 1.
Definition T_FILE : Z := 2.
Definition T_DEVICE : Z := 3.

Definition min (a b : Z) : Z := if a <? b then a else b.

(** ** Fields in a block *)

Definition get_bytes (off n : nat) (data : list Z) : list Z := take n (drop off data).
Definition get16 (off : nat) (data : list Z) : Z := le_val (get_bytes off 2 data).
Definition get32 (off : nat) (data : list Z) : Z := le_val (get_bytes off 4 data).
Definition put16 (off : nat) (v : Z) : list Z -> list Z := put_bytes off (le_bytes 2 (u16 v)).
Definition put32 (off : nat) (v : Z) : list Z -> list Z := put_bytes off (le_bytes 4 (u32 v)).

(** [struct dinode], 64 bytes: four shorts, the size, thirteen block addresses. *)
Record dinode : Type := Dinode {
  di_type : Z;
  di_major : Z;
  di_minor : Z;
  di_nlink : Z;
  di_size : Z;
  di_addrs : list Z }.

Definition get_dinode (o : nat) (data : list Z) : dinode :=
  Dinode (s16 (get16 o data)) (s16 (get16 (o + 2) data)) (s16 (get16 (o + 4) data))
    (s16 (get16 (o + 6) data)) (get32 (o + 8) data)
    ((fun i => get32 (o + 12 + 4 * i) data) <$> seq 0 13).
Definition dinode_bytes (d : dinode) : list Z :=
  le_bytes 2 (u16 (di_type d)) ++ le_bytes 2 (u16 (di_major d)) ++ le_bytes 2 (u16 (di_minor d))
  ++ le_bytes 2 (u16 (di_nlink d)) ++ le_bytes 4 (u32 (di_size d))
  ++ concat ((fun a => le_bytes 4 (u32 a)) <$> di_addrs d).
Definition put_dinode (o : nat) (d : dinode) : list Z -> list Z := put_bytes o (dinode_bytes d).

(** The offset of inode [inum] in its block. *)
Definition dinode_off (inum : Z) : nat := (64 * Z.to_nat (inum mod IPB))%nat.

(** [struct dirent]: an inode number and a name of [DIRSIZ] bytes. *)
Record dirent : Type := Dirent { de_inum : Z; de_name : list Z }.
Definition dirent_of (bs : list Z) : dirent := Dirent (get16 0 bs) (get_bytes 2 DIRSIZ bs).
Definition dirent_bytes (de : dirent) : list Z := le_bytes 2 (u16 (de_inum de)) ++ de_name de.

Definition getsb : K superblock := getk k_sb.
Definition get_data (b : nat) : K (list Z) := bb <- get_buf b ;; ret (b_data bb).

(** * Blocks *)

Definition readsb (dev : Z) : K unit :=
  bp <- bread (u32 dev) 1 ;;
  d <- get_data bp ;;
  modk (fun k => k <| k_sb := Superblock (get32 0 d) (get32 4 d) (get32 8 d) (get32 12 d)
    (get32 16 d) (get32 20 d) (get32 24 d) (get32 28 d) |>) ;;;
  brelse bp.

Definition fsinit (dev : Z) : K unit :=
  readsb dev ;;;
  sb <- getsb ;;
  if negb (sb_magic sb =? FSMAGIC) then panic "invalid file system" else initlog dev sb.

Definition bzero (dev bno : Z) : K unit :=
  bp <- bread (u32 dev) (u32 bno) ;;
  upd_data bp (fun _ => replicate (Z.to_nat BSIZE) 0) ;;;
  log_write bp ;;;
  brelse bp.

(** The bits of one bitmap block, for the blocks from [b] on. *)
Definition balloc_in (dev b : Z) (bp : nat) : K (option Z) :=
  sb <- getsb ;;
  for_ret (rounds (min BPB (sb_size sb - b))) (fun bi =>
    let m := Z.shiftl 1 (bi mod 8) in
    d <- get_data bp ;;
    x <- arr_get d (bi / 8) ;;
    if Z.land x m =? 0 then
      upd_data bp <[Z.to_nat (bi / 8) := u8 (Z.lor x m)]> ;;;
      log_write bp ;;;
      brelse bp ;;;
      bzero dev (b + bi) ;;;
      ret (Some (b + bi))
    else ret None).

(** 0 if the disk is full. *)
Definition balloc (dev : Z) : K Z :=
  sb <- getsb ;;
  r <- loop (Z.to_nat (sb_size sb / BPB) + 2) (fun b =>
    sb <- getsb ;;
    if b <? sb_size sb then
      bp <- bread dev (BBLOCK b sb) ;;
      r <- balloc_in dev b bp ;;
      match r with
      | Some a => ret (inr (Some a))
      | None => brelse bp ;;; b' <- int_op (b + BPB) ;; ret (inl b')
      end
    else ret (inr None)) 0 ;;
  match r with
  | Some a => ret a
  | None => printf (line "balloc: out of blocks") [] ;;; ret 0
  end.

Definition bfree (dev b : Z) : K unit :=
  sb <- getsb ;;
  bp <- bread (u32 dev) (BBLOCK b sb) ;;
  let bi := b mod BPB in
  let m := Z.shiftl 1 (bi mod 8) in
  d <- get_data bp ;;
  x <- arr_get d (bi / 8) ;;
  if Z.land x m =? 0 then panic "freeing free block" else
  upd_data bp <[Z.to_nat (bi / 8) := Z.land x (Z.lnot m)]> ;;;
  log_write bp ;;;
  brelse bp.

(** * Inodes *)

Definition iinit : K unit := for_do (seq 0 NINODE) (fun i => initsleeplock (SlInode i)).

(** The scan of the inode table: the entry of the inode, or the first free entry. *)
Fixpoint iget_scan (dev inum : Z) (ips : list nat) (empty : option nat) : K (nat + option nat) :=
  match ips with
  | [] => ret (inr empty)
  | i :: ips' =>
    ip <- get_inode i ;;
    if (i_ref ip >? 0) && (i_dev ip =? dev) && (i_inum ip =? inum) then ret (inl i)
    else iget_scan dev inum ips'
           (match empty with
            | None => if i_ref ip =? 0 then Some i else None
            | Some _ => empty
            end)
  end.

Definition iget (dev inum : Z) : K nat :=
  acquire LkItable ;;;
  r <- iget_scan dev inum (seq 0 NINODE) None ;;
  match r with
  | inl i =>
    upd_inode i (fun ip => ip <| i_ref ::= Z.add 1 |>) ;;;
    release LkItable ;;;
    ret i
  | inr None => panic "iget: no inodes"
  | inr (Some i) =>
    upd_inode i (fun ip => ip <| i_dev := dev |> <| i_inum := inum |> <| i_ref := 1 |>
      <| i_valid := 0 |>) ;;;
    release LkItable ;;;
    ret i
  end.

(** No inode is [None]. *)
Definition ialloc (dev type : Z) : K (option nat) :=
  sb <- getsb ;;
  r <- for_ret (Z.of_nat <$> seq 1 (Z.to_nat (sb_ninodes sb) - 1)) (fun inum =>
    bp <- bread dev (IBLOCK inum sb) ;;
    d <- get_data bp ;;
    let o := dinode_off inum in
    if di_type (get_dinode o d) =? 0 then
      upd_data bp (put_dinode o (Dinode type 0 0 0 0 (replicate 13 0))) ;;;
      log_write bp ;;;
      brelse bp ;;;
      i <- iget dev inum ;;
      ret (Some i)
    else brelse bp ;;; ret None) ;;
  match r with
  | Some i => ret (Some i)
  | None => printf (line "ialloc: no inodes") [] ;;; ret None
  end.

Definition iupdate (i : nat) : K unit :=
  ip <- get_inode i ;;
  sb <- getsb ;;
  bp <- bread (i_dev ip) (IBLOCK (i_inum ip) sb) ;;
  upd_data bp (put_dinode (dinode_off (i_inum ip))
    (Dinode (i_type ip) (i_major ip) (i_minor ip) (i_nlink ip) (i_size ip) (i_addrs ip))) ;;;
  log_write bp ;;;
  brelse bp.

Definition idup (i : nat) : K nat :=
  acquire LkItable ;;;
  upd_inode i (fun ip => ip <| i_ref ::= Z.add 1 |>) ;;;
  release LkItable ;;;
  ret i.

Definition ilock (i : nat) : K unit :=
  ip <- get_inode i ;;
  if i_ref ip <? 1 then panic "ilock" else
  acquiresleep (SlInode i) ;;;
  ip <- get_inode i ;;
  when (i_valid ip =? 0)
    (sb <- getsb ;;
     bp <- bread (i_dev ip) (IBLOCK (i_inum ip) sb) ;;
     data <- get_data bp ;;
     let d := get_dinode (dinode_off (i_inum ip)) data in
     upd_inode i (fun ip => ip <| i_type := di_type d |> <| i_major := di_major d |>
       <| i_minor := di_minor d |> <| i_nlink := di_nlink d |> <| i_size := di_size d |>
       <| i_addrs := di_addrs d |>) ;;;
     brelse bp ;;;
     upd_inode i (fun ip => ip <| i_valid := 1 |>) ;;;
     when (di_type d =? 0) (panic "ilock: no type")).

Definition iunlock (i : nat) : K unit :=
  h <- holdingsleep (SlInode i) ;;
  ip <- get_inode i ;;
  if negb h || (i_ref ip <? 1) then panic "iunlock" else releasesleep (SlInode i).

(** The block numbers are read before a block is freed. *)
Definition itrunc (i : nat) : K unit :=
  for_do (rounds NDIRECT) (fun j =>
    ip <- get_inode i ;;
    a <- arr_get (i_addrs ip) j ;;
    when (negb (a =? 0))
      (bfree (i_dev ip) a ;;;
       upd_inode i (fun ip => ip <| i_addrs ::= <[Z.to_nat j := 0]> |>))) ;;;
  ip <- get_inode i ;;
  ind <- arr_get (i_addrs ip) NDIRECT ;;
  when (negb (ind =? 0))
    (bp <- bread (i_dev ip) ind ;;
     for_do (rounds NINDIRECT) (fun j =>
       d <- get_data bp ;;
       let a := get_word d (Z.to_nat j) in
       when (negb (a =? 0)) (bfree (i_dev ip) a)) ;;;
     brelse bp ;;;
     bfree (i_dev ip) ind ;;;
     upd_inode i (fun ip => ip <| i_addrs ::= <[Z.to_nat NDIRECT := 0]> |>)) ;;;
  upd_inode i (fun ip => ip <| i_size := 0 |>) ;;;
  iupdate i.

Definition iput (i : nat) : K unit :=
  acquire LkItable ;;;
  ip <- get_inode i ;;
  when ((i_ref ip =? 1) && negb (i_valid ip =? 0) && (i_nlink ip =? 0))
    (acquiresleep (SlInode i) ;;;
     release LkItable ;;;
     itrunc i ;;;
     upd_inode i (fun ip => ip <| i_type := 0 |>) ;;;
     iupdate i ;;;
     upd_inode i (fun ip => ip <| i_valid := 0 |>) ;;;
     releasesleep (SlInode i) ;;;
     acquire LkItable) ;;;
  upd_inode i (fun ip => ip <| i_ref ::= fun n => n - 1 |>) ;;;
  release LkItable.

Definition iunlockput (i : nat) : K unit := iunlock i ;;; iput i.

(** * Inode content *)

(** 0 if the disk is full. *)
Definition bmap (i : nat) (bn : Z) : K Z :=
  ip <- get_inode i ;;
  if bn <? NDIRECT then
    addr <- arr_get (i_addrs ip) bn ;;
    if addr =? 0 then
      addr <- balloc (i_dev ip) ;;
      if addr =? 0 then ret 0
      else upd_inode i (fun ip => ip <| i_addrs ::= <[Z.to_nat bn := addr]> |>) ;;; ret addr
    else ret addr
  else
    let bn := bn - NDIRECT in
    if bn <? NINDIRECT then
      addr <- arr_get (i_addrs ip) NDIRECT ;;
      addr <- (if addr =? 0 then
                 addr <- balloc (i_dev ip) ;;
                 when (negb (addr =? 0))
                   (upd_inode i (fun ip => ip <| i_addrs ::= <[Z.to_nat NDIRECT := addr]> |>)) ;;;
                 ret addr
               else ret addr) ;;
      if addr =? 0 then ret 0
      else
        bp <- bread (i_dev ip) addr ;;
        d <- get_data bp ;;
        let addr := get_word d (Z.to_nat bn) in
        addr <- (if addr =? 0 then
                   addr <- balloc (i_dev ip) ;;
                   when (negb (addr =? 0))
                     (upd_data bp (put_word (Z.to_nat bn) addr) ;;; log_write bp) ;;;
                   ret addr
                 else ret addr) ;;
        brelse bp ;;;
        ret addr
    else panic "bmap: out of range".

(** [struct stat]. *)
Record stat : Type := Stat {
  st_dev : Z;
  st_ino : Z;
  st_type : Z;
  st_nlink : Z;
  st_size : Z }.
Definition stati (i : nat) : K stat :=
  ip <- get_inode i ;;
  ret (Stat (s32 (i_dev ip)) (i_inum ip) (i_type ip) (i_nlink ip) (i_size ip)).

Section Content.
Context {L : Layout}.

(** The result and, for a destination in the kernel, the bytes. *)
Definition readi (i : nat) (user_dst : bool) (dst off n : Z) : K (Z * list Z) :=
  ip <- get_inode i ;;
  if (off >? i_size ip) || (u32 (off + n) <? off) then ret (0, [])
  else
    let n := if u32 (off + n) >? i_size ip then u32 (i_size ip - off) else n in
    loop (Z.to_nat (n / BSIZE) + 3) (fun '(tot, off, dst, out) =>
      if tot <? n then
        addr <- bmap i (off / BSIZE) ;;
        if addr =? 0 then ret (inr (s32 tot, out))
        else
          bp <- bread (i_dev ip) addr ;;
          let m := min (n - tot) (BSIZE - off mod BSIZE) in
          d <- get_data bp ;;
          let bs := get_bytes (Z.to_nat (off mod BSIZE)) (Z.to_nat m) d in
          r <- either_copyout user_dst dst bs ;;
          if r =? -1 then brelse bp ;;; ret (inr (-1, out))
          else
            brelse bp ;;;
            ret (inl (tot + m, u32 (off + m), u64 (dst + m), if user_dst then out else out ++ bs))
      else ret (inr (s32 tot, out))) (0, off, dst, []).

(** [either_copyin] stores into the block also what precedes the address at which it
    fails. *)
Definition writei (i : nat) (src : usrc) (off n : Z) : K Z :=
  ip <- get_inode i ;;
  if (off >? i_size ip) || (u32 (off + n) <? off) then ret (-1)
  else if u32 (off + n) >? MAXFILE * BSIZE then ret (-1)
  else
    let! (tot, off) :=
      loop (Z.to_nat (n / BSIZE) + 3) (fun '(tot, off, src) =>
        if tot <? n then
          addr <- bmap i (off / BSIZE) ;;
          if addr =? 0 then ret (inr (tot, off))
          else
            bp <- bread (i_dev ip) addr ;;
            let m := min (n - tot) (BSIZE - off mod BSIZE) in
            let! (r, bs) := either_copyin src m in
            upd_data bp (put_bytes (Z.to_nat (off mod BSIZE)) bs) ;;;
            if r =? -1 then brelse bp ;;; ret (inr (tot, off))
            else
              log_write bp ;;;
              brelse bp ;;;
              ret (inl (tot + m, u32 (off + m), src_add src m))
        else ret (inr (tot, off))) (0, off, src) in
    ip <- get_inode i ;;
    when (off >? i_size ip) (upd_inode i (fun ip => ip <| i_size := off |>)) ;;;
    iupdate i ;;;
    ret (s32 tot).

(** * Directories *)

Definition namecmp (s t : list Z) : Z := strncmp (at_list s) (at_list t) DIRSIZ.

(** The inode and the offset of the entry. *)
Definition dirlookup (dp : nat) (name : list Z) : K (option (nat * Z)) :=
  ip <- get_inode dp ;;
  if negb (i_type ip =? T_DIR) then panic "dirlookup not DIR" else
  loop (Z.to_nat (i_size ip / 16) + 2) (fun off =>
    ip <- get_inode dp ;;
    if off <? i_size ip then
      let! (r, bs) := readi dp false 0 off 16 in
      if negb (r =? 16) then panic "dirlookup read" else
      let de := dirent_of bs in
      if negb (de_inum de =? 0) && (namecmp name (de_name de) =? 0) then
        i <- iget (i_dev ip) (de_inum de) ;;
        ret (inr (Some (i, off)))
      else ret (inl (u32 (off + 16)))
    else ret (inr None)) 0.

Definition dirlink (dp : nat) (name : list Z) (inum : Z) : K Z :=
  r <- dirlookup dp name ;;
  match r with
  | Some (i, _) => iput i ;;; ret (-1)
  | None =>
    ip <- get_inode dp ;;
    off <- loop (Z.to_nat (i_size ip / 16) + 2) (fun off =>
      ip <- get_inode dp ;;
      if off <? i_size ip then
        let! (r, bs) := readi dp false 0 off 16 in
        if negb (r =? 16) then panic "dirlink read" else
        if de_inum (dirent_of bs) =? 0 then ret (inr off) else ret (inl (off + 16))
      else ret (inr off)) 0 ;;
    let de := Dirent (u16 inum) (strncpy_bytes (at_list name) DIRSIZ) in
    r <- writei dp (SrcKern (dirent_bytes de)) (u32 off) 16 ;;
    if negb (r =? 16) then ret (-1) else ret 0
  end.

(** * Paths *)

Definition slash : Z := 47.

Fixpoint skip_slashes (path : list Z) : list Z :=
  match path with
  | c :: path' => if c =? slash then skip_slashes path' else path
  | [] => []
  end.

(** The bytes up to the next slash or the end, and the rest. *)
Fixpoint next_elem (path : list Z) : list Z * list Z :=
  match path with
  | [] => ([], [])
  | c :: path' =>
    if c =? slash then ([], path)
    else let '(elem, rest) := next_elem path' in (c :: elem, rest)
  end.

(** The rest of the path and the name, or none. *)
Definition skipelem (path : list Z) : option (list Z * list Z) :=
  match skip_slashes path with
  | [] => None
  | s => let '(elem, rest) := next_elem s in Some (skip_slashes rest, take DIRSIZ elem)
  end.

(** The [while] loop of [namex]: the inode and the last name. *)
Fixpoint namex_loop (fuel : nat) (path : list Z) (nameiparent : bool) (name : list Z) (i : nat)
    : K (option (nat * list Z)) :=
  match fuel with
  | O => out_of_fuel
  | S fuel' =>
    match skipelem path with
    | None => if nameiparent then iput i ;;; ret None else ret (Some (i, name))
    | Some (path, name) =>
      ilock i ;;;
      ip <- get_inode i ;;
      if negb (i_type ip =? T_DIR) then iunlockput i ;;; ret None
      else if nameiparent && bool_decide (path = []) then iunlock i ;;; ret (Some (i, name))
      else
        next <- dirlookup i name ;;
        match next with
        | None => iunlockput i ;;; ret None
        | Some (next, _) => iunlockput i ;;; namex_loop fuel' path nameiparent name next
        end
    end
  end.

Definition namex (path : list Z) (nameiparent : bool) : K (option (nat * list Z)) :=
  i <- (if bool_decide (head path = Some slash) then iget ROOTDEV ROOTINO
        else
          me <- curproc ;;
          p <- get_proc me ;;
          cwd <- from_option_or_fault "cwd" (p_cwd p) ;;
          idup cwd) ;;
  namex_loop (S (length path)) path nameiparent [] i.

Definition namei (path : list Z) : K (option nat) :=
  r <- namex path false ;; ret (fst <$> r).
Definition nameiparent (path : list Z) : K (option (nat * list Z)) := namex path true.
End Content.
