(* ===== verification/Ondisk.v ===== *)
(** What the file system keeps on the disk, and paths: facts of kernel/fs.c that need no
    running kernel.

    The bytes of an inode and of a directory entry as kernel/fs.h lays them out, with what
    file Dirs needs of them for [iupdate], [ilock], [dirlink] and [dirlookup]; and [skipelem],
    which enumerates the elements of a path, so that [namex] ends. *)

From S2P Require Export Fs.

(** * Bytes in a block *)

Lemma length_put_bytes off bs d : (off + length bs <= length d)%nat ->
  length (put_bytes off bs d) = length d.
Proof. intros H. unfold put_bytes. rewrite !length_app, length_take, length_drop. lia. Qed.

Lemma put_bytes_lookup off bs d i : (off + length bs <= length d)%nat ->
  put_bytes off bs d !! i =
  if decide (off <= i < off + length bs)%nat then bs !! (i - off)%nat else d !! i.
Proof.
  intros H. unfold put_bytes. assert (Ho : length (take off d) = off) by (rewrite length_take; lia).
  destruct (decide (i < off)%nat) as [Hi|Hi].
  - rewrite decide_False by lia. rewrite lookup_app_l by lia. by apply lookup_take_lt.
  - rewrite lookup_app_r, Ho by lia. case_decide.
    + by rewrite lookup_app_l by lia.
    + rewrite lookup_app_r, lookup_drop by lia. f_equal. lia.
Qed.

Lemma get_bytes_lookup off n d i :
  get_bytes off n d !! i = if decide (i < n)%nat then d !! (off + i)%nat else None.
Proof.
  unfold get_bytes. case_decide; [by rewrite lookup_take_lt, lookup_drop by lia|].
  apply lookup_take_ge. lia.
Qed.

(** A field of the bytes just stored, at offset [o] in them. *)
Lemma get_put_bytes_in off bs d o n : (off + length bs <= length d)%nat -> (o + n <= length bs)%nat ->
  get_bytes (off + o) n (put_bytes off bs d) = get_bytes o n bs.
Proof.
  intros H Hn. apply list_eq. intros i. rewrite !get_bytes_lookup. case_decide; [|done].
  rewrite put_bytes_lookup, decide_True by lia. f_equal. lia.
Qed.

Lemma get_put_bytes_out off bs d o n : (off + length bs <= length d)%nat ->
  (o + n <= off \/ off + length bs <= o)%nat ->
  get_bytes o n (put_bytes off bs d) = get_bytes o n d.
Proof.
  intros H Hn. apply list_eq. intros i. rewrite !get_bytes_lookup. case_decide; [|done].
  by rewrite put_bytes_lookup, decide_False by lia.
Qed.

Lemma get_bytes_app_r a b o n : get_bytes (length a + o) n (a ++ b) = get_bytes o n b.
Proof.
  apply list_eq. intros i. rewrite !get_bytes_lookup. case_decide; [|done].
  rewrite lookup_app_r by lia. f_equal. lia.
Qed.
Lemma get_bytes_app_l a b : get_bytes 0 (length a) (a ++ b) = a.
Proof. unfold get_bytes. by rewrite drop_0, take_app_length. Qed.

Lemma le_val_le_bytes_small n v : 0 <= v < 256 ^ Z.of_nat n -> le_val (le_bytes n v) = v.
Proof. intros H. rewrite le_val_le_bytes. by apply Z.mod_small. Qed.

Lemma length_put_word i v h : (4 * i + 4 <= length h)%nat -> length (put_word i v h) = length h.
Proof. intros H. apply length_put_bytes. by rewrite length_le_bytes. Qed.

Lemma get_put_word i j v h : (4 * i + 4 <= length h)%nat -> 
  get_word (put_word i v h) j = if decide (i = j) then u32 v else get_word h j.
Proof.
  intros H. unfold get_word, put_word. change (take 4 (drop (4 * j) ?d)) with (get_bytes (4 * j) 4 d).
  case_decide as E.
  - subst j. rewrite <- (Nat.add_0_r (4 * i)) at 1. rewrite get_put_bytes_in; rewrite ?length_le_bytes; try lia.
    unfold get_bytes. rewrite drop_0, take_ge by (by rewrite length_le_bytes).
    apply (le_val_le_bytes_small 4), u32_range.
  - rewrite get_put_bytes_out; rewrite ?length_le_bytes; lia || done.
Qed.

Lemma s16_u16 x : -32768 <= x < 32768 -> s16 (u16 x) = x.
Proof. intros H. unfold s16, u16. case_match eqn:E; zlia. Qed.

(** * On-disk inodes *)

(** The values a [struct dinode] can hold. *)
Definition dinode_ok (d : dinode) : Prop :=
  (-32768 <= di_type d < 32768) /\ (-32768 <= di_major d < 32768) /\
  (-32768 <= di_minor d < 32768) /\ (-32768 <= di_nlink d < 32768) /\
  (0 <= di_size d < 4294967296) /\ length (di_addrs d) = 13%nat /\
  Forall (fun a => 0 <= a < 4294967296) (di_addrs d).

Lemma length_words (l : list Z) : length (concat ((fun a => le_bytes 4 (u32 a)) <$> l)) = (4 * length l)%nat.
Proof.
  induction l as [|a l IH]; [done|]. rewrite fmap_cons. cbn [concat length].
  rewrite length_app, length_le_bytes, IH. lia.
Qed.

Lemma length_dinode_bytes d : length (di_addrs d) = 13%nat -> length (dinode_bytes d) = 64%nat.
Proof. intros H. unfold dinode_bytes. rewrite !length_app, length_words, H, !length_le_bytes. done. Qed.

Lemma get_word_i (l : list Z) i a : l !! i = Some a -> 0 <= a < 4294967296 ->
  le_val (get_bytes (4 * i) 4 (concat ((fun a => le_bytes 4 (u32 a)) <$> l))) = a.
Proof.
  revert i. induction l as [|b l IH]; intros [|i] Hi Ha; try done; cbn [fmap list_fmap concat].
  - injection Hi as ->. rewrite Nat.mul_0_r. change 4%nat with (length (le_bytes 4 (u32 a))) at 1.
    rewrite get_bytes_app_l, u32_small by done. by apply (le_val_le_bytes_small 4).
  - replace (4 * S i)%nat with (length (le_bytes 4 (u32 b)) + 4 * i)%nat by (rewrite length_le_bytes; lia).
    rewrite get_bytes_app_r. by apply IH.
Qed.

(** The field of width [n] after the bytes [a]. *)
Lemma field_at a n v b : get_bytes (length a) n (a ++ le_bytes n v ++ b) = le_bytes n v.
Proof.
  rewrite <- (Nat.add_0_r (length a)), get_bytes_app_r. rewrite <- (length_le_bytes n v) at 1.
  apply get_bytes_app_l.
Qed.

Lemma field_val a n v b r : r = a ++ le_bytes n v ++ b -> 0 <= v < 256 ^ Z.of_nat n ->
  le_val (get_bytes (length a) n r) = v.
Proof. intros -> Hv. rewrite field_at. by apply le_val_le_bytes_small. Qed.

Lemma dinode_bytes_get d : dinode_ok d -> get_dinode 0 (dinode_bytes d) = d.
Proof.
  intros (H1 & H2 & H3 & H4 & H5 & Hl & Ha). destruct d as [ty ma mi nl sz ad].
  cbn [di_type di_major di_minor di_nlink di_size di_addrs] in *.
  unfold get_dinode, get16, get32, dinode_bytes. cbn [di_type di_major di_minor di_nlink di_size di_addrs].
  set (b1 := le_bytes 2 (u16 ty)). set (b2 := le_bytes 2 (u16 ma)). set (b3 := le_bytes 2 (u16 mi)).
  set (b4 := le_bytes 2 (u16 nl)). set (b5 := le_bytes 4 (u32 sz)).
  set (ws := concat _). assert (Hw : forall o n, get_bytes (12 + o) n (b1 ++ b2 ++ b3 ++ b4 ++ b5 ++ ws) = get_bytes o n ws).
  { intros o n. by rewrite <- (get_bytes_app_r (b1 ++ b2 ++ b3 ++ b4 ++ b5) ws), <- !app_assoc. }
  set (r := b1 ++ _) in *.
  assert (F1 : le_val (get_bytes 0 2 r) = u16 ty) by (apply (field_val [] 2 _ _ _ eq_refl), u16_range).
  assert (F2 : le_val (get_bytes 2 2 r) = u16 ma) by (apply (field_val b1 2 _ _ _ eq_refl), u16_range).
  assert (F3 : le_val (get_bytes 4 2 r) = u16 mi) by (apply (field_val (b1 ++ b2) 2 _ _ _ eq_refl), u16_range).
  assert (F4 : le_val (get_bytes 6 2 r) = u16 nl) by (apply (field_val (b1 ++ b2 ++ b3) 2 _ _ _ eq_refl), u16_range).
  assert (F5 : le_val (get_bytes 8 4 r) = u32 sz) by (apply (field_val (b1 ++ b2 ++ b3 ++ b4) 4 _ _ _ eq_refl), u32_range).
  cbn [Nat.add]. rewrite F1, F2, F3, F4, F5, !s16_u16, u32_small by done. f_equal.
  - apply list_eq. intros i. rewrite list_lookup_fmap.
    destruct (decide (i < 13)%nat) as [Hi|Hi].
    + rewrite lookup_seq_lt by done. destruct (lookup_lt_is_Some_2 ad i) as [a Hai]; [lia|].
      rewrite Hai. cbn [fmap option_fmap option_map]. f_equal. 
      etransitivity; [exact (f_equal le_val (Hw (4 * i)%nat 4%nat))|].
      apply get_word_i; [done|]. by apply (Forall_lookup_1 _ _ _ _ Ha Hai).
    + rewrite lookup_seq_ge by lia. symmetry. apply lookup_ge_None_2. lia.
Qed.

(** An inode is read field by field from its 64 bytes. *)
Lemma get_dinode_bytes o d : get_dinode o d = get_dinode 0 (get_bytes o 64 d).
Proof.
  assert (H : forall a n, (a + n <= 64)%nat -> get_bytes (o + a) n d = get_bytes a n (get_bytes o 64 d)).
  { intros a n Hn. apply list_eq. intros i. rewrite !get_bytes_lookup. case_decide; [|done].
    rewrite decide_True by lia. f_equal. lia. }
  unfold get_dinode, get16, get32. f_equal.
  - by rewrite <- (H 0%nat) by lia; rewrite Nat.add_0_r.
  - by rewrite (H 2%nat) by lia.
  - by rewrite (H 4%nat) by lia.
  - by rewrite (H 6%nat) by lia.
  - by rewrite (H 8%nat) by lia.
  - apply list_fmap_ext. intros i x Hx. apply lookup_seq in Hx as [-> Hx].
    rewrite <- Nat.add_assoc. by rewrite (H (12 + 4 * (0 + i))%nat) by lia.
Qed.

Lemma dinode_off_bound inum : (dinode_off inum + 64 <= 1024)%nat.
Proof. unfold dinode_off. assert (0 <= inum mod IPB < 16) by (apply Z.mod_pos_bound; done). lia. Qed.

Lemma dinode_off_ne a b : a mod IPB <> b mod IPB ->
  (dinode_off a + 64 <= dinode_off b \/ dinode_off b + 64 <= dinode_off a)%nat.
Proof.
  intros H. unfold dinode_off. assert (0 <= a mod IPB < 16) by (apply Z.mod_pos_bound; done).
  assert (0 <= b mod IPB < 16) by (apply Z.mod_pos_bound; done). lia.
Qed.

Lemma put_dinode_spec (inum : Z) (d : dinode) (data : list Z) :
  dinode_ok d -> length data = Z.to_nat BSIZE ->
  length (put_dinode (dinode_off inum) d data) = Z.to_nat BSIZE /\
  forall inum', get_dinode (dinode_off inum') (put_dinode (dinode_off inum) d data) =
    if decide (inum' mod IPB = inum mod IPB) then d else get_dinode (dinode_off inum') data.
Proof.
  intros Hd Hl. pose proof (dinode_off_bound inum) as Hb.
  assert (Hlen : length (dinode_bytes d) = 64%nat) by (apply length_dinode_bytes, Hd).
  assert (Hfit : (dinode_off inum + length (dinode_bytes d) <= length data)%nat)
    by (rewrite Hl, Hlen; exact Hb).
  split; [unfold put_dinode; by rewrite length_put_bytes|].
  intros inum'. rewrite (get_dinode_bytes (dinode_off inum')). unfold put_dinode. case_decide as E.
  - replace (dinode_off inum') with (dinode_off inum + 0)%nat by (unfold dinode_off; rewrite E; lia).
    rewrite get_put_bytes_in by lia. rewrite <- (dinode_bytes_get d Hd) at 2.
    by rewrite (get_dinode_bytes 0 (dinode_bytes d)).
  - rewrite get_put_bytes_out, <- get_dinode_bytes; [done|done|].
    rewrite Hlen. by apply dinode_off_ne.
Qed.

(** * Directory entries *)

(** The bytes of a C string: none is a NUL. *)
Definition cbytes (l : list Z) : Prop := Forall (fun c => 0 < c < 256) l.

Lemma cstr_take n : forall l, cbytes l -> cstr (at_list l) n = take n l.
Proof.
  induction n as [|n IH]; intros l Hl; [by rewrite take_0|].
  cbn [cstr]. destruct l as [|c l]; [by rewrite take_nil|]. inversion_clear Hl as [|? ? Hc Hl'].
  change (at_list (c :: l) 0) with c. rewrite u8_small by lia.
  rewrite (proj2 (Z.eqb_neq _ _)) by lia. cbn [take]. f_equal. rewrite <- IH by done.
  apply cstr_ext. intros i Hi. unfold at_list.
  by replace (Z.to_nat (i + 1)) with (S (Z.to_nat i)) by lia.
Qed.

Lemma cstr_padded l k : cbytes l -> cstr (at_list (l ++ replicate k 0)) (length l + k) = l.
Proof.
  intros Hl. destruct k as [|k].
  - rewrite app_nil_r, Nat.add_0_r, cstr_take by done. by apply take_ge.
  - apply cstr_at_list_nul; [done|lia].
Qed.

Lemma cstr_strncpy_bytes (t : Z -> Z) n : cstr (at_list (strncpy_bytes t n)) n = cstr t n.
Proof.
  unfold strncpy_bytes. pose proof (cstr_length n t). 
  etransitivity; [|apply (cstr_padded (cstr t n) (n - length (cstr t n))), cstr_nonzero].
  f_equal. lia.
Qed.

(** What [dirlink] writes has 16 bytes and is read back by [dirlookup]. *)
Lemma dirent_of_bytes num s : 0 <= num < 65536 -> length s = DIRSIZ ->
  dirent_of (dirent_bytes (Dirent num s)) = Dirent num s /\ length (dirent_bytes (Dirent num s)) = 16%nat.
Proof.
  intros Hn Hs. assert (E : u16 num = num) by by apply u16_small.
  split; unfold dirent_of, dirent_bytes, get16; cbn [de_name de_inum]; rewrite E; [|by rewrite length_app, length_le_bytes, Hs].
  f_equal.
  - rewrite (get_bytes_app_l (le_bytes 2 num)). by apply (le_val_le_bytes_small 2).
  - rewrite <- (length_le_bytes 2 num), <- (Nat.add_0_r (length _)), get_bytes_app_r.
    unfold get_bytes. rewrite drop_0. by apply take_ge; rewrite Hs.
Qed.

(** The names agree on their first [DIRSIZ] bytes. *)
Lemma namecmp_padded name name' : cbytes name -> cbytes name' ->
  namecmp name' (strncpy_bytes (at_list name) DIRSIZ) = 0 <-> take DIRSIZ name' = take DIRSIZ name.
Proof.
  intros Hn Hn'. unfold namecmp. rewrite strncmp_cstr, cstr_take by done. by rewrite cstr_strncpy_bytes, cstr_take.
Qed.

(** * Paths *)

(** The elements of a path: what is between slashes and not empty, cut at [DIRSIZ]
    bytes. *)
Fixpoint split_slash (cur : list Z) (path : list Z) : list (list Z) :=
  match path with
  | [] => [cur]
  | c :: path' => if c =? slash then cur :: split_slash [] path' else split_slash (cur ++ [c]) path'
  end.
Definition path_elems (path : list Z) : list (list Z) :=
  take DIRSIZ <$> filter (fun e => e <> []) (split_slash [] path).

Lemma skip_slashes_length path : (length (skip_slashes path) <= length path)%nat.
Proof. induction path as [|c path IH]; cbn; [lia|]. case_match; cbn; lia. Qed.

Lemma skip_slashes_head path : head (skip_slashes path) <> Some slash.
Proof. induction path as [|c path IH]; cbn; [done|]. case_match eqn:E; [done|]. cbn. intros [= ->]. lia. Qed.

Lemma path_elems_slash path : path_elems (slash :: path) = path_elems path.
Proof.
  unfold path_elems. cbn [split_slash]. rewrite Z.eqb_refl.
  by rewrite filter_cons_False by (intros H; by apply H).
Qed.

Lemma skip_slashes_elems path : path_elems (skip_slashes path) = path_elems path.
Proof.
  induction path as [|c path IH]; cbn [skip_slashes]; [done|]. destruct (c =? slash) eqn:E; [|done].
  apply Z.eqb_eq in E as ->. by rewrite path_elems_slash.
Qed.

Lemma next_elem_app path : path = fst (next_elem path) ++ snd (next_elem path).
Proof.
  induction path as [|c path IH]; cbn; [done|]. case_match; [done|].
  destruct (next_elem path). cbn in *. by rewrite <- IH.
Qed.

Lemma next_elem_split path cur : split_slash cur path =
  match snd (next_elem path) with
  | [] => [cur ++ fst (next_elem path)]
  | _ :: rest => (cur ++ fst (next_elem path)) :: split_slash [] rest
  end.
Proof.
  revert cur. induction path as [|c path IH]; intros cur; cbn; [by rewrite app_nil_r|].
  destruct (c =? slash); cbn; [by rewrite app_nil_r|].
  rewrite IH. destruct (next_elem path) as [e [|r rest]]; cbn; by rewrite <- app_assoc.
Qed.

Lemma next_elem_rest path : match snd (next_elem path) with [] => True | c :: _ => c = slash end.
Proof.
  induction path as [|c path IH]; cbn; [done|]. destruct (c =? slash) eqn:E; cbn; [lia|].
  by destruct (next_elem path).
Qed.

(** [skipelem] takes the first element off the path. *)
Lemma skipelem_elems path :
  match skipelem path with
  | None => path_elems path = []
  | Some (rest, name) => path_elems path = name :: path_elems rest /\ (length rest < length path)%nat
      /\ (rest = [] <-> path_elems rest = [])
  end.
Proof.
  unfold skipelem. rewrite <- (skip_slashes_elems path).
  pose proof (skip_slashes_length path) as Hl. pose proof (skip_slashes_head path) as Hh.
  destruct (skip_slashes path) as [|c s]; [done|].
  set (p := c :: s) in *. pose proof (next_elem_split p []) as Hs. pose proof (next_elem_app p) as Ha.
  pose proof (next_elem_rest p) as Hr.
  assert (He : fst (next_elem p) <> []).
  { unfold p. cbn. destruct (c =? slash) eqn:E; [|by destruct (next_elem s)].
    exfalso. apply Hh. cbn. f_equal. lia. }
  destruct (next_elem p) as [elem rest]. cbn [fst snd app] in *.
  assert (Helems : path_elems p = take DIRSIZ elem :: path_elems rest).
  { unfold path_elems at 1. rewrite Hs. destruct rest as [|c' rest]; rewrite filter_cons_True by done.
    - done.
    - subst c'. by rewrite path_elems_slash. }
  rewrite skip_slashes_elems. split_and!; [done| |].
  - pose proof (skip_slashes_length rest). assert (length p = length elem + length rest)%nat by (rewrite Ha at 1; apply length_app).
    assert (0 < length elem)%nat by (destruct elem; cbn; [done|lia]). lia.
  - split; [by rewrite <- (skip_slashes_elems rest); intros ->|].
    intros Hn. rewrite <- skip_slashes_elems in Hn. pose proof (skip_slashes_head rest) as Hh'.
    destruct (skip_slashes rest) as [|d q]; [done|]. exfalso. revert Hn. unfold path_elems. cbn [split_slash].
    destruct (d =? slash) eqn:E; [by apply Z.eqb_eq in E as ->|].
    rewrite next_elem_split. by destruct (snd (next_elem q)); rewrite filter_cons_True by done.
Qed.

Section Walk.
Context {L : Layout}.

(** What [namex] does, by recursion on the elements of the path. *)
Fixpoint namex_walk (elems : list (list Z)) (nameiparent : bool) (name : list Z) (i : nat)
    : K (option (nat * list Z)) :=
  match elems with
  | [] => if nameiparent then iput i ;;; ret None else ret (Some (i, name))
  | name :: elems' =>
    ilock i ;;;
    ip <- get_inode i ;;
    if negb (i_type ip =? T_DIR) then iunlockput i ;;; ret None
    else if nameiparent && bool_decide (elems' = []) then iunlock i ;;; ret (Some (i, name))
    else
      next <- dirlookup i name ;;
      match next with
      | None => iunlockput i ;;; ret None
      | Some (next, _) => iunlockput i ;;; namex_walk elems' nameiparent name next
      end
  end.

Lemma bind_ext {W A B} (m : M W A) (f g : A -> M W B) w :
  (forall a w, f a w = g a w) -> bind m f w = bind m g w.
Proof. intros H. unfold bind. by destruct (m w). Qed.

(** C20. The resolution of a path ends: with any fuel above the length of the path,
    [namex_loop] does what the recursion over the elements of the path does, one
    directory per element; [namex] gives it that much. *)
Theorem namex_walks (fuel : nat) (path : list Z) (nameiparent : bool) (name : list Z) (i : nat) (w : world) :
  (length path < fuel)%nat ->
  namex_loop fuel path nameiparent name i w = namex_walk (path_elems path) nameiparent name i w.
Proof.
  revert path name i w. induction fuel as [|fuel IH]; intros path name i w Hf; [lia|].
  cbn [namex_loop]. pose proof (skipelem_elems path) as Hs.
  destruct (skipelem path) as [[rest elem]|]; [|by rewrite Hs].
  destruct Hs as (-> & Hlen & Hnil). cbn [namex_walk].
  apply bind_ext. intros _ w1. apply bind_ext. intros ip w2.
  destruct (negb _); [done|]. rewrite (bool_decide_ext (rest = []) (path_elems rest = [])) by done.
  destruct (_ && _); [done|]. apply bind_ext. intros [[next off]|] w3; [|done].
  apply bind_ext. intros _ w4. apply IH. lia.
Qed.

End Walk.

Lemma namex_walks_witness :
  @namex_loop demo_layout 6 (bytes "//a/b") true [] 0 world0
    = @namex_walk demo_layout [bytes "a"; bytes "b"] true [] 0 world0.
Proof. exact (@namex_walks demo_layout 6 (bytes "//a/b") true [] 0 world0 ltac:(cbn; lia)). Defined.
