(* ===== verification/Commit.v ===== *)
(** Crash atomicity of the log of kernel/log.c.

    The only steps that change the disk are those of the device, one whole block each, while
    the process sleeps in [virtio_disk_rw]; a crash leaves some such disk.  [replay] is the
    disk that recovery computes from what it finds.  The theorems: at every moment of
    [commit] at which the disk can be left, the replay of the disk is the disk before the
    transaction or the one with all its blocks; [recover_from_log] computes the replay, and if
    it is interrupted the disk it leaves has the same replay; together, a crash during a
    commit and any number of crashes during recovery leave all or nothing. *)

From S2P Require Export Cache Ondisk.

(** * The header block *)

(** The home blocks the header of the log names. *)
Definition hdr_n (h : list Z) : Z := s32 (get_word h 0).
Definition hdr (h : list Z) : list Z := (fun i => s32 (get_word h (1 + i))) <$> seq 0 (Z.to_nat (hdr_n h)).

(** The bytes [write_head] stores. *)
Fixpoint put_words (i : nat) (vs : list Z) (h : list Z) : list Z :=
  match vs with [] => h | v :: vs' => put_words (S i) vs' (put_word i v h) end.
Definition head_bytes (bl : list Z) (h : list Z) : list Z := put_words 0 (Z.of_nat (length bl) :: bl) h.

Lemma length_put_words i vs h : (4 * (i + length vs) <= length h)%nat -> length (put_words i vs h) = length h.
Proof.
  revert i h. induction vs as [|v vs IH]; intros i h; cbn [put_words length]; [done|]. intros H.
  rewrite IH; rewrite length_put_word; lia.
Qed.

Lemma get_put_words i vs h j : (4 * (i + length vs) <= length h)%nat ->
  get_word (put_words i vs h) j =
  match vs !! (j - i)%nat with Some v => if decide (i <= j)%nat then u32 v else get_word h j | None => get_word h j end.
Proof.
  revert i h. induction vs as [|v vs IH]; intros i h; cbn [put_words length]; [done|]. intros H.
  rewrite IH by (rewrite length_put_word; lia). rewrite get_put_word by lia.
  destruct (decide (i = j)) as [<-|Hn].
  - rewrite Nat.sub_diag. cbn [lookup list_lookup]. rewrite decide_True by lia.
    destruct (vs !! _); [|done]. by rewrite decide_False by lia.
  - destruct (decide (i < j)%nat) as [Hlt|Hge].
    + replace (j - i)%nat with (S (j - S i)) by lia. cbn [lookup list_lookup].
      destruct (vs !! _); [|done]. by rewrite !decide_True by lia.
    + replace (j - i)%nat with 0%nat by lia. cbn [lookup list_lookup]. rewrite (decide_False (P := (i <= j)%nat)) by lia.
      destruct (vs !! _); [|done]. by rewrite decide_False by lia.
Qed.

Lemma hdr_head_bytes bl h : (4 * (1 + length bl) <= length h)%nat -> Z.of_nat (length bl) < 2147483648 ->
  Forall (fun x => 0 <= x < 2147483648) bl ->
  hdr (head_bytes bl h) = bl /\ hdr_n (head_bytes bl h) = Z.of_nat (length bl) /\ length (head_bytes bl h) = length h.
Proof.
  intros Hlen Hn Hbl. assert (Hw : forall j v, (Z.of_nat (length bl) :: bl) !! j = Some v ->
    get_word (head_bytes bl h) j = u32 v).
  { intros j v Hj. unfold head_bytes. rewrite get_put_words by (cbn; lia). rewrite Nat.sub_0_r, Hj. by rewrite decide_True by lia. }
  assert (Hhn : hdr_n (head_bytes bl h) = Z.of_nat (length bl)).
  { unfold hdr_n. by rewrite (Hw 0%nat _ eq_refl), u32_small, s32_small by lia. }
  split_and!; [|done|apply length_put_words; cbn; lia]. unfold hdr. rewrite Hhn, Nat2Z.id.
  apply list_eq. intros i. rewrite list_lookup_fmap. destruct (bl !! i) as [v|] eqn:Ev.
  - pose proof (lookup_lt_Some _ _ _ Ev). rewrite lookup_seq_lt by lia. cbn [fmap option_fmap option_map Nat.add].
    rewrite (Hw (S i) v Ev). pose proof (Forall_lookup_1 _ _ _ _ Hbl Ev) as Hv. cbn in Hv.
    rewrite u32_small, s32_small by lia. done.
  - apply lookup_ge_None in Ev. by rewrite lookup_seq_ge.
Qed.

(** * Replay *)

Section Replay.
Context (st : Z).

(** The disk after the installation of the blocks [bl] of the log, from slot [t] on. *)
Fixpoint install (t : Z) (bl : list Z) (D : Z -> list Z) : Z -> list Z :=
  match bl with
  | [] => D
  | x :: bl' => install (t + 1) bl' (upd_blk D x (D (st + t + 1)))
  end.

(** What recovery makes of the disk, but for the header. *)
Definition replay (D : Z -> list Z) : Z -> list Z := install 0 (hdr (D st)) D.

(** The blocks outside the log. *)
Definition home (x : Z) : Prop := x < st \/ st + LOGSIZE < x.

Lemma install_slot t bl D y : Forall home bl -> st <= y <= st + LOGSIZE -> install t bl D y = D y.
Proof.
  revert t D. induction bl as [|x bl IH]; intros t D; [done|]. intros [Hx Hbl]%Forall_cons Hy. cbn.
  rewrite IH by done. apply upd_blk_ne. unfold home in Hx. lia.
Qed.

(** Each block named has the content of its slot. *)
Lemma install_home t bl D x i : Forall home bl -> NoDup bl -> 0 <= t -> t + Z.of_nat (length bl) <= LOGSIZE ->
  bl !! i = Some x -> install t bl D x = D (st + t + Z.of_nat i + 1).
Proof.
  revert t D i. induction bl as [|z bl IH]; intros t D i; [done|].
  intros [Hz Hbl]%Forall_cons [Hnz Hnd]%NoDup_cons Ht Hlen Hi. cbn [length] in Hlen. cbn [install].
  assert (Hout : forall t D, z ∉ bl -> install t bl D z = D z).
  { clear. induction bl as [|y bl IH]; intros t D Hz; [done|]. cbn. rewrite IH by set_solver.
    apply upd_blk_ne. set_solver. }
  destruct i as [|i]; cbn in Hi.
  - injection Hi as ->. rewrite Hout by done. rewrite upd_blk_eq. f_equal. lia.
  - rewrite (IH _ _ i) by (done || lia). rewrite upd_blk_ne; [f_equal; lia|].
    unfold home in Hz. apply lookup_lt_Some in Hi. lia.
Qed.

Lemma install_out t bl D x : x ∉ bl -> install t bl D x = D x.
Proof.
  revert t D. induction bl as [|y bl IH]; intros t D Hx; [done|]. cbn. rewrite IH by set_solver.
  apply upd_blk_ne. set_solver.
Qed.

Lemma install_snoc t bl x D y :
  install t (bl ++ [x]) D y = upd_blk (install t bl D) x (install t bl D (st + t + Z.of_nat (length bl) + 1)) y.
Proof.
  revert t D. induction bl as [|z bl IH]; intros t D; cbn [install app length].
  - by rewrite Z.add_0_r.
  - rewrite IH. by replace (st + (t + 1) + Z.of_nat (length bl) + 1) with (st + t + Z.of_nat (S (length bl)) + 1) by lia.
Qed.

Lemma install_ext t bl D D' y : (forall z, D z = D' z) -> install t bl D y = install t bl D' y.
Proof.
  revert t D D'. induction bl as [|z bl IH]; intros t D D' HD; cbn; [done|]. apply IH. intros w. unfold upd_blk.
  by rewrite !HD.
Qed.

(** Installing what is installed already changes nothing. *)
Lemma install_again bl bl' D x : bl' `prefix_of` bl -> Forall home bl -> NoDup bl -> Z.of_nat (length bl) <= LOGSIZE -> home x ->
  install 0 bl (install 0 bl' D) x = install 0 bl D x.
Proof.
  intros [rest ->] Hh Hnd Hlen Hx. assert (Hh' : Forall home bl') by by apply Forall_app in Hh as [? _].
  destruct (decide (x ∈ bl' ++ rest)) as [Hin|Hin].
  - apply list_elem_of_lookup in Hin as [i Hi]. pose proof (lookup_lt_Some _ _ _ Hi) as Hl.
    rewrite !(install_home _ _ _ x i) by (done || lia).
    apply install_slot; [done|]. lia.
  - rewrite !install_out; [done|set_solver..].
Qed.
End Replay.

(** * The operations of the log *)

(** A loop of [rounds]. *)
Lemma wp_rounds E n (body : Z -> K unit) (J : nat -> world -> Prop) (Q : unit -> world -> Prop) w :
  J 0%nat w -> (forall t w', (t < n)%nat -> J t w' -> wp E (body (Z.of_nat t)) (fun _ w'' => J (S t) w'') w') ->
  (forall w', J n w' -> Q tt w') -> wp E (for_do (rounds (Z.of_nat n)) body) Q w.
Proof.
  intros H0 Hb HQ. unfold rounds. rewrite Nat2Z.id.
  apply (wp_for_do _ (fun xs w' => exists t, (t <= n)%nat /\ xs = Z.of_nat <$> seq t (n - t) /\ J t w')).
  - exists 0%nat. rewrite Nat.sub_0_r. split_and!; [lia|done|done].
  - intros x xs w' (t & Ht & Hxs & HJ). destruct (decide (t = n)) as [->|Hn]; [by rewrite Nat.sub_diag in Hxs|].
    replace (n - t)%nat with (S (n - S t)) in Hxs by lia. injection Hxs as -> ->.
    eapply wp_mono; [apply Hb; [lia|exact HJ]|]. intros [] w'' HJ'. exists (S t). split_and!; [lia|done|done].
  - intros w' (t & Ht & Hxs & HJ). assert (t = n) as ->; [|by apply HQ].
    apply (f_equal length) in Hxs. rewrite length_fmap, length_seq in Hxs. cbn in Hxs. lia.
Qed.

(** The part of [struct log] that [commit] works from. *)
Record log_at (st : Z) (bl : list Z) (k : kernel) : Prop := LogAt {
  la_start : lg_start (k_log k) = st;
  la_dev : lg_dev (k_log k) = ROOTDEV;
  la_n : lh_n (k_log k) = Z.of_nat (length bl);
  la_blk : take (length bl) (lh_block (k_log k)) = bl }.

Lemma log_at_frame st bl k k' : log_at st bl k -> frame k k' -> log_at st bl k'.
Proof. intros H [Hf _]. rewrite Hf. destruct H. by split. Qed.

Lemma log_at_lookup st bl k t x : log_at st bl k -> bl !! t = Some x -> lh_block (k_log k) !! t = Some x.
Proof.
  intros H Hx. rewrite <- (la_blk _ _ _ H) in Hx. pose proof (lookup_lt_Some _ _ _ Hx) as Hl.
  rewrite length_take in Hl. by rewrite lookup_take_lt in Hx by lia.
Qed.

(** What the log's geometry and the file system guarantee of the blocks of a transaction. *)
Record blocks_ok (st : Z) (bl : list Z) : Prop := BlocksOk {
  bl_start : 0 <= st /\ st + LOGSIZE < 2147483648;
  bl_len : Z.of_nat (length bl) <= LOGSIZE;
  bl_home : Forall (home st) bl;
  bl_range : Forall (fun x => 0 <= x < 2147483648) bl;
  bl_nodup : NoDup bl }.
(** A disk with a header that [write_head] left. *)
Record sound (st : Z) (D : Z -> list Z) : Prop := Sound {
  so_blocks : blocks_ok st (hdr (D st));
  so_n : hdr_n (D st) = Z.of_nat (length (hdr (D st)));
  so_size : length (D st) = Z.to_nat BSIZE }.

Lemma blocks_ok_nil st bl : blocks_ok st bl -> blocks_ok st [].
Proof. intros [? ? ? ? ?]. split; [done|by vm_compute|by apply Forall_nil|by apply Forall_nil|by apply NoDup_nil]. Qed.

(** No buffer is locked. *)
Definition quiet (k : kernel) : Prop :=
  forall x, bk_lock (blk_of_cache k x) = None /\ bk_refs (blk_of_cache k x) < 2147483647.

(** The frame of a sequence of operations. *)
Ltac frames :=
  match goal with
  | H : effect _ _ ?k ?k' |- frame ?k ?k' => exact (ef_frame _ _ _ _ H)
  | H : effect _ _ ?k ?k1 |- frame ?k ?k' => apply (frame_trans _ _ _ (ef_frame _ _ _ _ H)); frames
  end.

(** The cases of a goal about a block after a sequence of operations. *)
Ltac blocks :=
  repeat match goal with
  | H : effect _ _ _ ?k' |- context [blk_of_cache ?k' ?z] => rewrite (ef_blk _ _ _ _ H z)
  end; unfold upd_blk, with_lock;
  repeat match goal with |- context [?a =? ?b] => destruct (Z.eqb_spec a b); try done; try congruence; try lia end.

Section Commit.
Context (E : xpost world) (dev : kernel -> kernel) (Hdev : device_ok dev) (me : nat) (pid : Z).

(** Block [dst] now has the data [d], in the cache and on the disk. *)
Record copied (dst : Z) (v : blk) (k k' : kernel) : Prop := Copied {
  cp_inv : cache_inv me pid None k';
  cp_disk : k_disk k' = upd_blk (k_disk k) dst (bk_data v);
  cp_eff : effect dst v k k';
  cp_used : (used k' <= used k)%nat }.

Lemma clean_unused o k x : cache_inv me pid o k -> bk_refs (blk_of_cache k x) = 0 -> bk_data (blk_of_cache k x) = k_disk k x.
Proof.
  intros [_ _ [_ _ Hok _]] H. unfold blk_of_cache, blk_at in *. destruct (find_blk _ _) as [[i b]|] eqn:Ef; [|done].
  apply find_blk_Some in Ef as [Hb Hk]. cbn in *. destruct (bo_free _ _ _ (Hok _ _ Hb) H) as [_ Hc].
  destruct (Z.eqb_spec (b_valid b) 0); [done|]. by apply Hc.
Qed.

Lemma effect_refs x v k k' : effect x v k k' -> blk_of_cache k' x = v.
Proof. intros H. rewrite (ef_blk _ _ _ _ H). apply upd_blk_eq. Qed.
Lemma effect_other x v k k' y : effect x v k k' -> y <> x -> blk_of_cache k' y = blk_of_cache k y.
Proof. intros H Hy. rewrite (ef_blk _ _ _ _ H). by apply upd_blk_ne. Qed.

(** One round of [write_log]: block [x] is copied to slot [t]. *)
Definition write_log_round (tail : Z) : K unit :=
  dev <- getl lg_dev ;;
  start <- getl lg_start ;;
  to <- bread (u32 dev) (u32 (start + tail + 1)) ;;
  blk <- getl lh_block ;;
  src <- arr_get blk tail ;;
  from <- bread (u32 dev) (u32 src) ;;
  fb <- get_buf from ;;
  upd_data to (fun _ => b_data fb) ;;;
  bwrite to ;;;
  brelse from ;;;
  brelse to.

Lemma wp_write_log_round st bl k n t x (y := st + Z.of_nat t + 1) (Q : unit -> world -> Prop) :
  cache_inv me pid None k -> log_at st bl k -> quiet k -> bl !! t = Some x -> x <> y ->
  0 <= x < 2147483648 -> 0 <= y < 2147483648 -> (used k + 2 <= NBUF)%nat ->
  (forall k', (n < 3)%nat -> k_disk k' = k_disk k -> on_blocked E (World k' [])) ->
  (forall k' n', (n <= n' + 3)%nat -> copied y (Blk (bk_refs (blk_of_cache k y)) (bk_data (blk_of_cache k x)) None) k k' ->
    Q tt (World k' (disk_works dev me n'))) ->
  wp E (write_log_round (Z.of_nat t)) Q (World k (disk_works dev me n)).
Proof.
  intros Hinv Hlog Hq Hx Hne Hrx Hry Hu Hblk HQ. unfold write_log_round, getl.
  assert (Hqx := Hq x). assert (Hqy := Hq y).
  do 4 kstep. cbn [w_k]. rewrite (la_dev _ _ _ Hlog), (la_start _ _ _ Hlog). fold y.
  change (u32 ROOTDEV) with ROOTDEV. rewrite u32_small by lia.
  kstep. apply (wp_bread E dev Hdev me pid); [done|done|apply Hqy|lia|right; lia|intros -> k' Hk'; apply Hblk; [lia|done]|].
  intros i k1 n1 Hi1 Hd1 _ He1 Hu1 Hn1. do 2 kstep. cbn [w_k].
  kstep. apply (wp_arr_get _ _ _ x); [lia|rewrite Nat2Z.id; by eapply log_at_lookup, Hx; eapply log_at_frame, He1|].
  assert (Hb1 := effect_other _ _ _ _ x He1 Hne).
  change (u32 ROOTDEV) with ROOTDEV. rewrite u32_small by lia.
  kstep. apply (wp_bread E dev Hdev me pid); rewrite ?Hb1; [done|done|apply Hqx|lia|right; destruct (Z.eqb _ _); cbn in *; lia|intros -> k' Hk'; apply Hblk; [lia|by rewrite Hk']|].
  intros j k2 n2 Hi2 Hd2 _ He2 Hu2 Hn2.
  assert (Hx2 := effect_refs _ _ _ _ He2). assert (Hy2 := effect_other _ _ _ _ y He2 ltac:(congruence)). rewrite (effect_refs _ _ _ _ He1) in Hy2.
  kstep. apply (wp_data E me pid k2 j x); [done|by rewrite Hx2|]. intros fb Hfb _. rewrite Hx2 in Hfb. cbn in Hfb.
  kstep. apply (wp_upd_data E me pid k2 i y); [done|by rewrite Hy2|]. intros k3 Hi3 Hd3 He3 Hu3.
  assert (Hy3 := effect_refs _ _ _ _ He3). rewrite Hy2 in Hy3. cbn in Hy3. rewrite Hfb in Hy3.
  assert (Hx3 := effect_other _ _ _ _ x He3 Hne). rewrite Hx2 in Hx3.
  assert (D3 : k_disk k3 = k_disk k) by congruence.
  kstep. apply (wp_bwrite E dev Hdev me pid k3 n2 i y); [done|by rewrite Hy3|intros -> k' Hk'; apply Hblk; [lia|by rewrite Hk']|].
  intros k4 n4 Hi4 Hd4 He4 Hu4 Hn4. rewrite Hy3 in He4, Hd4. cbn in Hd4. rewrite D3 in Hd4.
  assert (Hx4 := effect_other _ _ _ _ x He4 Hne). rewrite Hx3 in Hx4.
  kstep. apply (wp_brelse_cache E me pid k4 j x); [done|by rewrite Hx4| |].
  { rewrite Hx4, Hd4, upd_blk_ne by done. cbn. intros H1. apply (clean_unused None); [done|lia]. }
  intros k5 Hi5 Hd5 He5 Hu5. rewrite Hx4 in He5, Hu5. cbn in He5, Hu5.
  assert (Hy5 := effect_other _ _ _ _ y He5 ltac:(congruence)). rewrite (effect_refs _ _ _ _ He4) in Hy5.
  apply (wp_brelse_cache E me pid k5 i y); [done|by rewrite Hy5| |].
  { rewrite Hy5, Hd5, Hd4, upd_blk_eq. done. }
  intros k6 Hi6 Hd6 He6 Hu6. rewrite Hy5 in He6, Hu6. cbn in He6, Hu6.
  apply (HQ k6 n4); [lia|]. split; [done|by rewrite Hd6, Hd5, Hd4| |].
  - split; [frames|].
    intros z. unfold upd_blk. destruct (Z.eqb_spec z y) as [->|Hzy].
    + rewrite (effect_refs _ _ _ _ He6). f_equal. lia.
    + rewrite (effect_other _ _ _ _ z He6 Hzy). destruct (decide (z = x)) as [->|Hzx].
      * rewrite (effect_refs _ _ _ _ He5). destruct (blk_of_cache k x) as [r d lk] eqn:Ex. cbn in *. 
        destruct Hqx as [-> _]. f_equal. lia.
      * rewrite (effect_other _ _ _ _ z He5), (effect_other _ _ _ _ z He4), (effect_other _ _ _ _ z He3),
          (effect_other _ _ _ _ z He2), (effect_other _ _ _ _ z He1); done.
  - destruct (Z.eqb_spec (bk_refs (blk_of_cache k x) + 1) 1), (Z.eqb_spec (bk_refs (blk_of_cache k y) + 1) 1);
    destruct (Z.eqb_spec (bk_refs (blk_of_cache k x)) 0), (Z.eqb_spec (bk_refs (blk_of_cache k y)) 0); cbn in *; lia.
Qed.

(** One round of [install_trans]: slot [t] is copied home. *)
Definition install_round (recovering : bool) (tail : Z) : K unit :=
  dev <- getl lg_dev ;;
  start <- getl lg_start ;;
  lbuf <- bread (u32 dev) (u32 (start + tail + 1)) ;;
  blk <- getl lh_block ;;
  dst <- arr_get blk tail ;;
  dbuf <- bread (u32 dev) (u32 dst) ;;
  lb <- get_buf lbuf ;;
  upd_data dbuf (fun _ => b_data lb) ;;;
  bwrite dbuf ;;;
  when (negb recovering) (bunpin dbuf) ;;;
  brelse lbuf ;;;
  brelse dbuf.

Definition unpinned (recovering : bool) (r : Z) : Z := if recovering then r else r - 1.

Lemma wp_unpin recovering k e j x (v := blk_of_cache k x) (Q : unit -> world -> Prop) :
  cache_inv me pid None k -> bk_lock v = Some j -> (recovering = false -> 1 < bk_refs v) ->
  (forall k', cache_inv me pid None k' -> k_disk k' = k_disk k ->
    effect x (Blk (unpinned recovering (bk_refs v)) (bk_data v) (Some j)) k k' -> used k' = used k -> Q tt (World k' e)) ->
  wp E (when (negb recovering) (bunpin j)) Q (World k e).
Proof.
  intros Hinv Hl Hr HQ. destruct recovering; cbn [negb when unpinned] in *.
  - apply wp_ret, HQ; [done|done| |done]. split; [apply frame_refl|]. intros y. unfold upd_blk.
    destruct (Z.eqb_spec y x) as [->|]; [|done]. fold v. destruct v. cbn in *. by subst.
  - apply (wp_bunpin E me pid k j x); auto.
Qed.

Lemma wp_install_round recovering st bl k n t x (y := st + Z.of_nat t + 1) (Q : unit -> world -> Prop) :
  cache_inv me pid None k -> log_at st bl k -> quiet k -> bl !! t = Some x -> x <> y ->
  0 <= x < 2147483648 -> 0 <= y < 2147483648 -> (used k + 2 <= NBUF)%nat ->
  (recovering = false -> 0 < bk_refs (blk_of_cache k x)) ->
  (forall k', (n < 3)%nat -> k_disk k' = k_disk k -> on_blocked E (World k' [])) ->
  (forall k' n', (n <= n' + 3)%nat -> copied x (Blk (unpinned recovering (bk_refs (blk_of_cache k x))) (bk_data (blk_of_cache k y)) None) k k' ->
    Q tt (World k' (disk_works dev me n'))) ->
  wp E (install_round recovering (Z.of_nat t)) Q (World k (disk_works dev me n)).
Proof.
  intros Hinv Hlog Hq Hx Hne Hrx Hry Hu Hpin Hblk HQ. unfold install_round, getl.
  assert (Hqx := Hq x). assert (Hqy := Hq y).
  do 4 kstep. cbn [w_k]. rewrite (la_dev _ _ _ Hlog), (la_start _ _ _ Hlog). fold y.
  change (u32 ROOTDEV) with ROOTDEV. rewrite u32_small by lia.
  kstep. apply (wp_bread E dev Hdev me pid); [done|done|apply Hqy|lia|right; lia|intros -> k' Hk'; apply Hblk; [lia|done]|].
  intros i k1 n1 Hi1 Hd1 _ He1 Hu1 Hn1. do 2 kstep. cbn [w_k].
  kstep. apply (wp_arr_get _ _ _ x); [lia|rewrite Nat2Z.id; by eapply log_at_lookup, Hx; eapply log_at_frame, He1|].
  assert (Hb1 := effect_other _ _ _ _ x He1 Hne).
  change (u32 ROOTDEV) with ROOTDEV. rewrite u32_small by lia.
  kstep. apply (wp_bread E dev Hdev me pid); rewrite ?Hb1; [done|done|apply Hqx|lia|right; destruct (Z.eqb _ _); cbn in *; lia|intros -> k' Hk'; apply Hblk; [lia|by rewrite Hk']|].
  intros j k2 n2 Hi2 Hd2 _ He2 Hu2 Hn2.
  assert (Hx2 := effect_refs _ _ _ _ He2). assert (Hy2 := effect_other _ _ _ _ y He2 ltac:(congruence)). rewrite (effect_refs _ _ _ _ He1) in Hy2.
  kstep. apply (wp_data E me pid k2 i y); [done|by rewrite Hy2|]. intros lb Hlb _. rewrite Hy2 in Hlb. cbn in Hlb.
  kstep. apply (wp_upd_data E me pid k2 j x); [done|by rewrite Hx2|]. intros k3 Hi3 Hd3 He3 Hu3.
  assert (Hx3 := effect_refs _ _ _ _ He3). rewrite Hx2 in Hx3. cbn in Hx3. rewrite Hlb in Hx3.
  assert (Hy3 := effect_other _ _ _ _ y He3 ltac:(congruence)). rewrite Hy2 in Hy3.
  assert (D3 : k_disk k3 = k_disk k) by congruence.
  kstep. apply (wp_bwrite E dev Hdev me pid k3 n2 j x); [done|by rewrite Hx3|intros -> k' Hk'; apply Hblk; [lia|by rewrite Hk']|].
  intros k4 n4 Hi4 Hd4 He4 Hu4 Hn4. rewrite Hx3 in He4, Hd4. cbn in Hd4. rewrite D3 in Hd4.
  assert (Hx4 := effect_refs _ _ _ _ He4).
  assert (Hy4 := effect_other _ _ _ _ y He4 ltac:(congruence)). rewrite Hy3 in Hy4.
  kstep. apply (wp_unpin recovering k4 _ j x); [done|by rewrite Hx4|rewrite Hx4; intros Hrec; specialize (Hpin Hrec); cbn; lia|].
  intros k5 Hi5 Hd5 He5 Hu5. rewrite Hx4 in He5. cbn [bk_refs bk_data] in He5.
  assert (Hx5 := effect_refs _ _ _ _ He5).
  assert (Hy5 := effect_other _ _ _ _ y He5 ltac:(congruence)). rewrite Hy4 in Hy5.
  kstep. apply (wp_brelse_cache E me pid k5 i y); [done|by rewrite Hy5| |].
  { rewrite Hy5, Hd5, Hd4, upd_blk_ne by congruence. cbn. intros H1. apply (clean_unused None); [done|lia]. }
  intros k6 Hi6 Hd6 He6 Hu6. rewrite Hy5 in He6, Hu6. cbn in He6, Hu6.
  assert (Hx6 := effect_other _ _ _ _ x He6 Hne). rewrite Hx5 in Hx6.
  apply (wp_brelse_cache E me pid k6 j x); [done|by rewrite Hx6| |].
  { rewrite Hx6, Hd6, Hd5, Hd4, upd_blk_eq. done. }
  intros k7 Hi7 Hd7 He7 Hu7. rewrite Hx6 in He7, Hu7. cbn [bk_refs bk_data] in He7, Hu7.
  assert (Hr : unpinned recovering (bk_refs (blk_of_cache k x) + 1) - 1 = unpinned recovering (bk_refs (blk_of_cache k x)))
    by (unfold unpinned; destruct recovering; lia).
  rewrite Hr in He7. apply (HQ k7 n4); [lia|]. split; [done|by rewrite Hd7, Hd6, Hd5, Hd4| |].
  - split; [frames|]. intros z. unfold upd_blk. destruct (Z.eqb_spec z x) as [->|Hzx].
    + by rewrite (effect_refs _ _ _ _ He7).
    + rewrite (effect_other _ _ _ _ z He7 Hzx). destruct (decide (z = y)) as [->|Hzy].
      * rewrite (effect_refs _ _ _ _ He6). destruct (blk_of_cache k y) as [r d lk] eqn:Ey. cbn in *.
        destruct Hqy as [-> _]. f_equal. lia.
      * rewrite (effect_other _ _ _ _ z He6), (effect_other _ _ _ _ z He5), (effect_other _ _ _ _ z He4),
          (effect_other _ _ _ _ z He3), (effect_other _ _ _ _ z He2), (effect_other _ _ _ _ z He1); done.
  - assert (H1 : bk_refs (blk_of_cache k x) = 0 -> unpinned recovering (bk_refs (blk_of_cache k x) + 1) = 1).
    { intros H0. destruct recovering; [cbn; lia|]. specialize (Hpin eq_refl). lia. }
    destruct (Z.eqb_spec (unpinned recovering (bk_refs (blk_of_cache k x) + 1)) 1), (Z.eqb_spec (bk_refs (blk_of_cache k y) + 1) 1);
    destruct (Z.eqb_spec (bk_refs (blk_of_cache k x)) 0), (Z.eqb_spec (bk_refs (blk_of_cache k y)) 0); cbn in *; try lia; exfalso; tauto.
Qed.

(** [write_head]: the header gets the count and the block numbers. *)
Lemma effect_trans x v v' k1 k2 k3 : effect x v k1 k2 -> effect x v' k2 k3 -> effect x v' k1 k3.
Proof.
  intros H1 H2. split; [frames|]. intros y. rewrite (ef_blk _ _ _ _ H2). unfold upd_blk.
  destruct (Z.eqb_spec y x); [done|]. by apply (effect_other x v).
Qed.

Lemma put_words_snoc i vs v h : put_words i (vs ++ [v]) h = put_word (i + length vs) v (put_words i vs h).
Proof.
  revert i h. induction vs as [|w vs IH]; intros i h; cbn [put_words app length]; [by rewrite Nat.add_0_r|].
  rewrite IH. f_equal. lia.
Qed.

Lemma wp_write_head st bl k n (Q : unit -> world -> Prop) (v := blk_of_cache k st) :
  cache_inv me pid None k -> log_at st bl k -> quiet k -> 0 <= st < 2147483648 -> (used k < NBUF)%nat ->
  (forall k', (n < 2)%nat -> k_disk k' = k_disk k -> on_blocked E (World k' [])) ->
  (forall k' n', (n <= n' + 2)%nat -> copied st (Blk (bk_refs v) (head_bytes bl (bk_data v)) None) k k' -> Q tt (World k' (disk_works dev me n'))) ->
  wp E write_head Q (World k (disk_works dev me n)).
Proof.
  intros Hinv Hlog Hq Hst Hu Hblk HQ. unfold write_head, getl. assert (Hqs := Hq st).
  do 4 kstep. cbn [w_k]. rewrite (la_dev _ _ _ Hlog), (la_start _ _ _ Hlog).
  change (u32 ROOTDEV) with ROOTDEV. rewrite u32_small by lia.
  kstep. apply (wp_bread E dev Hdev me pid); [done|done|apply Hqs|lia|by right|intros -> k' Hk'; apply Hblk; [lia|done]|].
  intros i k1 n1 Hi1 Hd1 _ He1 Hu1 Hn1. assert (Hs1 := effect_refs _ _ _ _ He1). unfold with_lock in Hs1. fold v in Hs1.
  assert (Hlog1 : log_at st bl k1) by (eapply log_at_frame; [done|frames]).
  do 2 kstep. cbn [w_k]. rewrite (la_n _ _ _ Hlog1).
  kstep. apply (wp_upd_data E me pid k1 i st); [done|by rewrite Hs1|]. intros k2 Hi2 Hd2 He2 Hu2. rewrite Hs1 in He2. cbn in He2.
  kstep. apply (wp_rounds _ _ _ (fun t w' => exists k', w' = World k' (disk_works dev me n1) /\ cache_inv me pid None k' /\
    k_disk k' = k_disk k /\ used k' = used k1 /\
    effect st (Blk (bk_refs v + 1) (put_words 0 (Z.of_nat (length bl) :: take t bl) (bk_data v)) (Some i)) k1 k')).
  - exists k2. split_and!; [done|done|congruence|done|]. rewrite take_0. exact He2.
  - intros t w' Ht (k' & -> & Hi' & Hd' & Hu' & He'). assert (Hs' := effect_refs _ _ _ _ He').
    destruct (lookup_lt_is_Some_2 bl t Ht) as [x Hx].
    do 2 kstep. cbn [w_k]. kstep. apply (wp_arr_get _ _ _ x); [lia|rewrite Nat2Z.id; eapply log_at_lookup, Hx|].
    { eapply log_at_frame; [exact Hlog|]. apply (frame_trans _ k1); frames. }
    apply (wp_upd_data E me pid k' i st); [done|by rewrite Hs'|]. intros k3 Hi3 Hd3 He3 Hu3. rewrite Hs' in He3. cbn [bk_refs bk_data] in He3.
    exists k3. split_and!; [done|done|congruence|congruence|]. rewrite Nat2Z.id in He3.
    rewrite (take_S_r _ _ x) by done. rewrite app_comm_cons, put_words_snoc. cbn [length Nat.add].
    rewrite length_take, Nat.min_l by lia. by eapply effect_trans.
  - intros w' (k' & -> & Hi' & Hd' & Hu' & He'). rewrite take_ge in He' by lia. assert (Hs' := effect_refs _ _ _ _ He').
    kstep. apply (wp_bwrite E dev Hdev me pid k' n1 i st); [done|by rewrite Hs'|intros -> k3 Hk3; apply Hblk; [lia|by rewrite Hk3]|].
    intros k4 n4 Hi4 Hd4 He4 Hu4 Hn4. rewrite Hs' in He4, Hd4. cbn [bk_data] in Hd4. rewrite Hd' in Hd4.
    assert (Hs4 := effect_refs _ _ _ _ He4).
    apply (wp_brelse_cache E me pid k4 i st); [done|by rewrite Hs4|by rewrite Hs4, Hd4, upd_blk_eq|].
    intros k5 Hi5 Hd5 He5 Hu5. rewrite Hs4 in He5, Hu5. cbn [bk_refs bk_data] in He5, Hu5.
    apply (HQ k5 n4); [lia|]. split; [done|by rewrite Hd5, Hd4| |].
    + replace (bk_refs v) with (bk_refs v + 1 - 1) by lia. eapply effect_trans, He5. eapply effect_trans, He4.
      by eapply effect_trans.
    + fold v in Hu1. destruct (Z.eqb_spec (bk_refs v + 1) 1), (Z.eqb_spec (bk_refs v) 0); cbn in *; lia.
Qed.

(** ** The loops *)

Section Loops.
Context (st : Z) (bl : list Z).

Context (Hbl : blocks_ok st bl).

Definition slot (i : nat) : Z := st + Z.of_nat i + 1.

Lemma slot_range i : (i < length bl)%nat -> st < slot i <= st + LOGSIZE /\ 0 <= slot i < 2147483648.
Proof. intros Hi. destruct Hbl as [Hst Hlen _ _ _]. unfold slot. lia. Qed.

Lemma block_facts i x : bl !! i = Some x -> home st x /\ 0 <= x < 2147483648 /\ (i < length bl)%nat /\
  forall j, (j < length bl)%nat -> x <> slot j.
Proof.
  intros Hx. pose proof (Forall_lookup_1 _ _ _ _ (bl_home _ _ Hbl) Hx) as H1.
  pose proof (Forall_lookup_1 _ _ _ _ (bl_range _ _ Hbl) Hx) as H2. split_and!; [done|apply H2..|by eapply lookup_lt_Some|].
  intros j Hj ->. apply slot_range in Hj. unfold home in H1. lia.
Qed.

Lemma quiet_effect x v k k' : quiet k -> effect x v k k' -> bk_lock v = None -> bk_refs v < 2147483647 -> quiet k'.
Proof.
  intros Hq He Hl Hr y. rewrite (ef_blk _ _ _ _ He). unfold upd_blk. by destruct (_ =? _).
Qed.

(** After [t] rounds of [write_log]. *)
Record logged (t : nat) (k k' : kernel) : Prop := Logged {
  lg_inv : cache_inv me pid None k';
  lg_frame : frame k k';
  lg_used : (used k' <= used k)%nat;
  lg_quiet : quiet k';
  lg_slots : forall i x, (i < t)%nat -> bl !! i = Some x ->
    k_disk k' (slot i) = bk_data (blk_of_cache k x) /\ bk_data (blk_of_cache k' (slot i)) = k_disk k' (slot i);
  lg_rest : forall y, (forall i, (i < t)%nat -> y <> slot i) ->
    k_disk k' y = k_disk k y /\ blk_of_cache k' y = blk_of_cache k y }.

Lemma logged_step t k k1 k2 x : logged t k k1 -> bl !! t = Some x ->
  copied (slot t) (Blk (bk_refs (blk_of_cache k1 (slot t))) (bk_data (blk_of_cache k1 x)) None) k1 k2 -> logged (S t) k k2.
Proof.
  intros [I1 I2 I3 I4 I5 I6] Hx [C1 C2 C3 C4]. destruct (block_facts _ _ Hx) as (_ & _ & Ht & Hns).
  assert (Hx1 : blk_of_cache k1 x = blk_of_cache k x) by (apply I6; intros i Hi; apply Hns; lia).
  assert (Hslot : forall i j, i <> j -> slot i <> slot j) by (unfold slot; lia).
  split; [done|by apply (frame_trans _ k1), (ef_frame _ _ _ _ C3)|lia| | |].
  - eapply quiet_effect; [exact I4|exact C3|done|]. apply I4.
  - intros i z Hi Hz. rewrite C2. destruct (decide (i = t)) as [->|Hn].
    + rewrite Hx in Hz. injection Hz as <-. rewrite upd_blk_eq, (effect_refs _ _ _ _ C3). cbn. by rewrite Hx1.
    + rewrite upd_blk_ne by by apply Hslot. rewrite (effect_other _ _ _ _ _ C3) by by apply Hslot. apply I5; [lia|done].
  - intros y Hy. rewrite C2, upd_blk_ne by (apply Hy; lia).
    rewrite (effect_other _ _ _ _ _ C3) by (apply Hy; lia). apply I6. intros i Hi. apply Hy. lia.
Qed.

Lemma wp_write_log k n (Q : unit -> world -> Prop) :
  cache_inv me pid None k -> log_at st bl k -> quiet k -> (used k + 2 <= NBUF)%nat ->
  (forall k' t, (n < 3 * length bl)%nat -> (t <= length bl)%nat -> (forall y, (forall i, (i < t)%nat -> y <> slot i) -> k_disk k' y = k_disk k y) ->
    on_blocked E (World k' [])) ->
  (forall k' n', (n <= n' + 3 * length bl)%nat -> logged (length bl) k k' -> Q tt (World k' (disk_works dev me n'))) ->
  wp E write_log Q (World k (disk_works dev me n)).
Proof.
  intros Hinv Hlog Hq Hu Hblk HQ. unfold write_log, getl. do 2 kstep. cbn [w_k]. rewrite (la_n _ _ _ Hlog).
  change (fun tail : Z => _) with write_log_round.
  apply (wp_rounds _ _ _ (fun t w' => exists k' n', w' = World k' (disk_works dev me n') /\ (n <= n' + 3 * t)%nat /\ logged t k k')).
  - exists k, n. split; [done|]. split; [lia|]. split; [done|apply frame_refl|lia|done|lia|done].
  - intros t w' Ht (k1 & n1 & -> & Hn & H1). pose proof H1 as [I1 I2 I3 I4 I5 I6].
    destruct (lookup_lt_is_Some_2 bl t Ht) as [x Hx]. destruct (block_facts _ _ Hx) as (_ & Hxr & _ & Hns).
    destruct (slot_range t Ht) as [_ Hsr].
    eapply (wp_write_log_round st bl k1 n1 t x); [done|by eapply log_at_frame|done|done|by apply (Hns t)|done|exact Hsr|lia| |].
    + intros k' Hn1 Hk'. apply (Hblk k' t); [lia|lia|]. intros y Hy. rewrite Hk'. by apply I6.
    + intros k2 n2 Hn2 Hc. exists k2, n2. split; [done|]. split; [lia|]. by eapply logged_step.
  - intros w' (k' & n' & -> & Hn & H). by apply (HQ k' n').
Qed.

(** After [t] rounds of [install_trans]. *)
Record installed (recovering : bool) (t : nat) (k k' : kernel) : Prop := Installed {
  in_inv : cache_inv me pid None k';
  in_frame : frame k k';
  in_used : (used k' <= used k)%nat;
  in_quiet : quiet k';
  in_disk : forall y, k_disk k' y = install st 0 (take t bl) (k_disk k) y;
  in_done : forall i x, (i < t)%nat -> bl !! i = Some x ->
    blk_of_cache k' x = Blk (unpinned recovering (bk_refs (blk_of_cache k x))) (k_disk k (slot i)) None;
  in_rest : forall y, y ∉ take t bl -> blk_of_cache k' y = blk_of_cache k y }.

Lemma not_in_take t x y : bl !! t = Some x -> y ∉ take (S t) bl -> y <> x /\ y ∉ take t bl.
Proof. intros Hx Hy. rewrite (take_S_r _ _ x) in Hy by done. set_solver. Qed.

Lemma nodup_take t i x : bl !! i = Some x -> (t <= i)%nat -> x ∉ take t bl.
Proof.
  intros Hx Ht Hin. apply list_elem_of_lookup in Hin as [j Hj]. apply lookup_take_Some in Hj as [Hj Hlt].
  pose proof (NoDup_lookup _ _ _ _ (bl_nodup _ _ Hbl) Hx Hj). lia.
Qed.

Lemma installed_step recovering t k k1 k2 x : installed recovering t k k1 -> quiet k -> bl !! t = Some x ->
  bk_data (blk_of_cache k (slot t)) = k_disk k (slot t) ->
  copied x (Blk (unpinned recovering (bk_refs (blk_of_cache k1 x))) (bk_data (blk_of_cache k1 (slot t))) None) k1 k2 ->
  installed recovering (S t) k k2.
Proof.
  intros [I1 I2 I3 I4 I5 I6 I7] Hq Hx Hsync [C1 C2 C3 C4]. destruct (block_facts _ _ Hx) as (Hhx & _ & Ht & Hns).
  destruct Hbl as [_ Hlen Hhome _ Hnd]. assert (Hht : Forall (home st) (take t bl)) by by apply Forall_take.
  assert (Hx1 : blk_of_cache k1 x = blk_of_cache k x) by (apply I7; by eapply nodup_take).
  assert (Hs1 : blk_of_cache k1 (slot t) = blk_of_cache k (slot t)).
  { apply I7. intros (j & Hj)%list_elem_of_lookup. apply lookup_take_Some in Hj as [Hj _].
    destruct (block_facts _ _ Hj) as (_ & _ & _ & Hns'). by destruct (Hns' t Ht). }
  rewrite Hx1, Hs1, Hsync in C2, C3. cbn in C2.
  split; [done|by apply (frame_trans _ k1), (ef_frame _ _ _ _ C3)|lia| | | |].
  - eapply quiet_effect; [exact I4|exact C3|done|]. cbn. destruct (Hq x) as [_ Hr]. unfold unpinned. destruct recovering; lia.
  - intros y. rewrite C2, (take_S_r _ _ x), install_snoc by done. unfold upd_blk. rewrite I5.
    destruct (Z.eqb_spec y x); [|done]. rewrite length_take, Nat.min_l by lia. rewrite install_slot; [f_equal; unfold slot; lia|done|].
    destruct (slot_range t Ht). unfold slot in *. lia.
  - intros i z Hi Hz. destruct (decide (i = t)) as [->|Hn].
    + rewrite Hx in Hz. injection Hz as <-. by rewrite (effect_refs _ _ _ _ C3).
    + rewrite (effect_other _ _ _ _ _ C3); [apply I6; [lia|done]|]. intros ->.
      by apply Hn, (NoDup_lookup _ _ _ _ Hnd Hz Hx).
  - intros y [Hy1 Hy2]%(not_in_take _ _ _ Hx). rewrite (effect_other _ _ _ _ _ C3) by done. by apply I7.
Qed.

Lemma wp_install_trans recovering k n (Q : unit -> world -> Prop) :
  cache_inv me pid None k -> log_at st bl k -> quiet k -> (used k + 2 <= NBUF)%nat ->
  (forall x, recovering = false -> x ∈ bl -> 0 < bk_refs (blk_of_cache k x)) ->
  (forall i, (i < length bl)%nat -> bk_data (blk_of_cache k (slot i)) = k_disk k (slot i)) ->
  (forall k' t, (n < 3 * length bl)%nat -> (forall y, k_disk k' y = install st 0 (take t bl) (k_disk k) y) -> on_blocked E (World k' [])) ->
  (forall k' n', (n <= n' + 3 * length bl)%nat -> installed recovering (length bl) k k' -> Q tt (World k' (disk_works dev me n'))) ->
  wp E (install_trans recovering) Q (World k (disk_works dev me n)).
Proof.
  intros Hinv Hlog Hq Hu Hpin Hsync Hblk HQ. unfold install_trans, getl. do 2 kstep. cbn [w_k]. rewrite (la_n _ _ _ Hlog).
  change (fun tail : Z => _) with (install_round recovering).
  apply (wp_rounds _ _ _ (fun t w' => exists k' n', w' = World k' (disk_works dev me n') /\ (n <= n' + 3 * t)%nat /\ installed recovering t k k')).
  - exists k, n. split; [done|]. split; [lia|]. split; [done|apply frame_refl|lia|done|done|lia|done].
  - intros t w' Ht (k1 & n1 & -> & Hn & H1). pose proof H1 as [I1 I2 I3 I4 I5 I6 I7].
    destruct (lookup_lt_is_Some_2 bl t Ht) as [x Hx]. destruct (block_facts _ _ Hx) as (_ & Hxr & _ & Hns).
    destruct (slot_range t Ht) as [_ Hsr].
    eapply (wp_install_round recovering st bl k1 n1 t x); [done|by eapply log_at_frame|done|done|by apply (Hns t)|done|exact Hsr|lia| | |].
    + intros Hrec. rewrite I7 by by eapply nodup_take. apply Hpin; [done|by eapply list_elem_of_lookup_2].
    + intros k' Hn1 Hk'. apply (Hblk k' t); [lia|]. intros y. by rewrite Hk'.
    + intros k2 n2 Hn2 Hc. exists k2, n2. split; [done|]. split; [lia|]. eapply installed_step; [done|done|done|by apply Hsync|exact Hc].
  - intros w' (k' & n' & -> & Hn & H). by apply (HQ k' n').
Qed.

(** ** A transaction *)

Lemma replay_empty D x : hdr (D st) = [] -> replay st D x = D x.
Proof. intros H. unfold replay. by rewrite H. Qed.

Section Transaction.
Context (k : kernel).

(** What a disk should have after the transaction: the cached blocks. *)
Definition after (x : Z) : list Z := if decide (x ∈ bl) then bk_data (blk_of_cache k x) else k_disk k x.

(** The disk [Dc] recovers to nothing or all of the transaction. *)
Definition all_or_nothing (Dc : Z -> list Z) : Prop :=
  sound st Dc /\ ((forall x, home st x -> replay st Dc x = k_disk k x) \/ (forall x, home st x -> replay st Dc x = after x)).

(** The state in which [commit] starts. *)
Record committing : Prop := Committing {
  cm_inv : cache_inv me pid None k;
  cm_log : log_at st bl k;
  cm_quiet : quiet k;
  cm_used : (used k + 2 <= NBUF)%nat;
  cm_pin : forall x, x ∈ bl -> 0 < bk_refs (blk_of_cache k x);
  cm_sound : sound st (k_disk k);
  cm_hdr : hdr (k_disk k st) = [];
  cm_size : length (bk_data (blk_of_cache k st)) = Z.to_nat BSIZE }.
Context (Hcm : committing).

(** The disk while the blocks are written to the log. *)
Lemma before_commit Dc t : (t <= length bl)%nat ->
  (forall y, (forall i, (i < t)%nat -> y <> slot i) -> Dc y = k_disk k y) -> all_or_nothing Dc.
Proof.
  intros Ht HD. assert (Hs : Dc st = k_disk k st) by (apply HD; intros i Hi E1; unfold slot in E1; lia).
  split; [destruct (cm_sound Hcm) as [S1 S2 S3]; split; by rewrite Hs|].
  left. intros x Hx. rewrite replay_empty by (rewrite Hs; apply cm_hdr, Hcm).
  apply HD. intros i Hi ->. destruct (slot_range i); [lia|]. unfold home in Hx. lia.
Qed.

Context (k1 : kernel) (Hlg : logged (length bl) k k1).
Let h := head_bytes bl (bk_data (blk_of_cache k1 st)).

Lemma header_k1 : blk_of_cache k1 st = blk_of_cache k st /\ hdr h = bl /\ hdr_n h = Z.of_nat (length bl) /\
  length h = Z.to_nat BSIZE.
Proof.
  assert (Hs : blk_of_cache k1 st = blk_of_cache k st) by (apply (lg_rest _ _ _ Hlg); unfold slot; lia).
  split; [done|]. destruct Hbl as [Hst Hlen _ Hr _]. unfold h. rewrite <- (cm_size Hcm), <- Hs. apply hdr_head_bytes; [|lia|done].
  rewrite Hs, (cm_size Hcm). change (Z.to_nat BSIZE) with (Z.to_nat 1024). change LOGSIZE with 30 in Hlen. lia.
Qed.

(** The installation of the slots gives the transaction. *)
Lemma install_after x : home st x -> install st 0 bl (upd_blk (k_disk k1) st h) x = after x.
Proof.
  intros Hx. pose proof Hbl as [Hst Hlen Hhome Hr Hnd]. unfold after. case_decide as Hin.
  - apply list_elem_of_lookup in Hin as [i Hi]. pose proof (lookup_lt_Some _ _ _ Hi) as Hl.
    rewrite (install_home _ _ _ _ x i), upd_blk_ne by (done || lia). rewrite Z.add_0_r. by apply (lg_slots _ _ _ Hlg).
  - rewrite install_out by done. destruct (decide (x = st)) as [->|Hn]; [unfold home in Hx; unfold LOGSIZE, MAXOPBLOCKS in Hx; lia|].
    rewrite upd_blk_ne by done. apply (lg_rest _ _ _ Hlg). intros i Hi ->.
    destruct (slot_range i Hi). unfold home in Hx. lia.
Qed.

(** From the moment the header is on the disk, through the installation. *)
Lemma after_header Dc t : (forall y, Dc y = install st 0 (take t bl) (upd_blk (k_disk k1) st h) y) -> all_or_nothing Dc.
Proof.
  intros HD. destruct header_k1 as (_ & Hh & Hn & Hsz). pose proof Hbl as [Hst Hlen Hhome Hr Hnd].
  assert (Hht : Forall (home st) (take t bl)) by by apply Forall_take.
  assert (Hs : Dc st = h) by (rewrite HD, install_slot by (done || lia); apply upd_blk_eq).
  split; [split; rewrite Hs, ?Hh; done|]. right. intros x Hx.
  unfold replay. rewrite Hs, Hh, (install_ext _ _ _ Dc _ _ HD), install_again; [|by apply prefix_take|done..].
  by apply install_after.
Qed.
End Transaction.

(** The state in which it ends: the transaction is on the disk, the log is empty, the blocks are
    no longer pinned. *)
Record committed (k k' : kernel) : Prop := Committed {
  ct_inv : cache_inv me pid None k';
  ct_quiet : quiet k';
  ct_log : log_at st [] k';
  ct_sound : sound st (k_disk k') /\ hdr (k_disk k' st) = [];
  ct_disk : forall x, home st x -> k_disk k' x = after k x;
  ct_blk : forall x, x ∈ bl -> blk_of_cache k' x = Blk (bk_refs (blk_of_cache k x) - 1) (after k x) None }.

Lemma wp_commit k n (Q : unit -> world -> Prop) : committing k ->
  (forall k', (n < 6 * length bl + 4)%nat -> all_or_nothing k (k_disk k') -> on_blocked E (World k' [])) ->
  (forall k' n', (n <= n' + (6 * length bl + 4))%nat -> committed k k' -> Q tt (World k' (disk_works dev me n'))) ->
  wp E commit Q (World k (disk_works dev me n)).
Proof.
  intros Hcm Hblk HQ. pose proof Hcm as [Hinv Hlog Hq Hu Hpin Hsound Hhdr Hsize]. pose proof Hbl as [Hst Hlen Hhome Hr Hnd].
  unfold commit, getl at 1. do 2 kstep. cbn [w_k]. rewrite (la_n _ _ _ Hlog).
  destruct (decide (bl = [])) as [Hnil|Hnil].
  { rewrite Hnil in Hlog |- *. apply wp_ret, (HQ k n); [lia|]. split; [done|done|done|done| |].
    - intros x _. unfold after. rewrite Hnil. by rewrite decide_False by set_solver.
    - rewrite Hnil. set_solver. }
  assert (Hpos : (0 < length bl)%nat) by (destruct bl; [done|cbn; lia]).
  rewrite (proj2 (Z.gtb_lt _ _)) by lia. cbn [when].
  kstep. apply (wp_write_log k n); [done..|intros k' t Hn Ht HD; apply Hblk; [lia|by apply (before_commit k Hcm _ t)]|].
  intros k1 n1 Hn1 H1. pose proof H1 as [I1 I2 I3 I4 I5 I6]. destruct (header_k1 k Hcm k1 H1) as (Hs1 & Hh & Hhn & Hhl).
  kstep. apply (wp_write_head st bl k1 n1); [done|by eapply log_at_frame|done|lia|lia| |].
  { intros k' Hn Hk'. apply Hblk; [lia|]. apply (before_commit k Hcm _ (length bl)); [done|]. intros y Hy. rewrite Hk'. by apply I6. }
  intros k2 n2 Hn2 [J1 J2 J3 J4]. cbn [bk_data] in J2. set (h := head_bytes bl (bk_data (blk_of_cache k1 st))) in *.
  assert (Hl2 : log_at st bl k2) by (eapply log_at_frame, (ef_frame _ _ _ _ J3); by eapply log_at_frame).
  assert (Hq2 : quiet k2) by (eapply quiet_effect; [exact I4|exact J3|done|apply I4]).
  assert (Hb2 : forall x, home st x \/ st < x -> blk_of_cache k2 x = blk_of_cache k1 x).
  { intros x Hx. apply (effect_other _ _ _ _ _ J3). unfold home, LOGSIZE, MAXOPBLOCKS in Hx. lia. }
  assert (Hb1 : forall x, x ∈ bl -> blk_of_cache k1 x = blk_of_cache k x).
  { intros x (j & Hj)%list_elem_of_lookup. apply I6. intros i Hi. destruct (block_facts _ _ Hj) as (_ & _ & _ & Hns). by apply Hns. }
  assert (Hinst : forall k' t, (forall y, k_disk k' y = install st 0 (take t bl) (k_disk k2) y) ->
    all_or_nothing k (k_disk k')).
  { intros k' t HD. apply (after_header k Hcm k1 H1 _ t). intros y. by rewrite HD, J2. }
  kstep. apply (wp_install_trans false k2 n2); [done|done|done|lia| | | |].
  { intros x _ Hx. rewrite Hb2, Hb1 by (done || left; by eapply Forall_forall). by apply Hpin. }
  { intros i Hi. destruct (slot_range i Hi) as [Hsi _]. rewrite Hb2 by (right; lia). rewrite J2, upd_blk_ne by (unfold slot in *; lia).
    destruct (lookup_lt_is_Some_2 bl i Hi) as [x Hx]. by apply (I5 i x). }
  { intros k' t Hn HD. apply Hblk; [lia|]. by apply (Hinst k' t). }
  intros k3 n3 Hn3 [L1 L2 L3 L4 L5 L6 L7]. rewrite take_ge in L5, L7 by lia.
  unfold modl. do 2 kstep. set (k4 := k3 <| k_log ::= fun l => l <| lh_n := 0 |> |>).
  match goal with |- wp _ _ _ ?w1 => change w1 with (World k4 (disk_works dev me n3)) end.
  assert (Hl3 : log_at st bl k3) by (by eapply log_at_frame).
  assert (Hi4 : cache_inv me pid None k4) by (destruct L1 as [[] ? ?]; by split; [split|..]).
  assert (Hl4 : log_at st [] k4) by (destruct Hl3; by split).
  apply (wp_write_head st [] k4 n3); [done|done|exact L4|lia|change (used k4) with (used k3); lia| |].
  { intros k' Hn Hk'. apply Hblk; [lia|]. apply (Hinst k' (length bl)). intros y. rewrite Hk', take_ge by lia. by rewrite <- L5. }
  intros k5 n5 Hn5 [M1 M2 M3 M4]. cbn [bk_data] in M2.
  assert (Hafter : forall x, home st x -> install st 0 bl (k_disk k2) x = after k x).
  { intros x Hx. rewrite J2. by apply install_after. }
  assert (Hst' : st ∉ bl).
  { intros Hin. pose proof (proj1 (Forall_forall _ _) Hhome st Hin) as Hs. unfold home, LOGSIZE, MAXOPBLOCKS in Hs. lia. }
  assert (Hd4 : length (bk_data (blk_of_cache k4 st)) = Z.to_nat BSIZE).
  { change (blk_of_cache k4 st) with (blk_of_cache k3 st). by rewrite (L7 st Hst'), (effect_refs _ _ _ _ J3). }
  apply (HQ k5 n5); [lia|]. split.
  - done.
  - eapply (quiet_effect _ _ k4); [exact L4|exact M3|done|apply L4].
  - exact (log_at_frame _ _ k4 k5 Hl4 (ef_frame _ _ _ _ M3)).
  - destruct (hdr_head_bytes [] (bk_data (blk_of_cache k4 st))) as (Z1 & Z2 & Z3); [|done|done|].
    + rewrite Hd4. change (Z.to_nat BSIZE) with (Z.to_nat 1024). cbn [length]. lia.
    + split; [|by rewrite M2, upd_blk_eq]. split; rewrite M2, upd_blk_eq, ?Z1; [by apply (blocks_ok_nil st bl)|done|by rewrite Z3].
  - intros x Hx. rewrite M2, upd_blk_ne by (unfold home, LOGSIZE, MAXOPBLOCKS in Hx; lia). change (k_disk k4) with (k_disk k3).
    by rewrite L5, Hafter.
  - intros x Hx. pose proof Hx as Hx'. apply list_elem_of_lookup in Hx' as [i Hi]. destruct (block_facts _ _ Hi) as (Hhx & _ & Hil & _).
    rewrite (effect_other _ _ _ _ _ M3) by (unfold home, LOGSIZE, MAXOPBLOCKS in Hhx; lia). change (blk_of_cache k4) with (blk_of_cache k3).
    rewrite (L6 i x) by done. rewrite Hb2, Hb1 by (done || by left). cbn [unpinned]. f_equal.
    rewrite <- Hafter by done. rewrite (install_home _ _ _ _ x i) by (done || lia). f_equal. unfold slot. lia.
Qed.
End Loops.

(** ** Recovery *)

(** A machine that has just started on disk [D]. *)
Record booted (st : Z) (D : Z -> list Z) (k : kernel) : Prop := Booted {
  bt_disk : k_disk k = D;
  bt_inv : cache_inv me pid None k;
  bt_fresh : forall x, blk_of_cache k x = Blk 0 (D x) None;
  bt_used : (used k + 2 <= NBUF)%nat;
  bt_start : lg_start (k_log k) = st;
  bt_dev : lg_dev (k_log k) = ROOTDEV;
  bt_blk : length (lh_block (k_log k)) = Z.to_nat LOGSIZE }.

Lemma take_S_insert {A} (l : list A) t v : (t < length l)%nat -> take (S t) (<[t := v]> l) = take t l ++ [v].
Proof.
  intros Ht. rewrite (take_S_r _ _ v) by by apply list_lookup_insert_eq. f_equal. apply list_eq. intros i.
  destruct (decide (i < t)%nat); [|by rewrite !lookup_take_ge by lia].
  rewrite !lookup_take_lt by lia. apply list_lookup_insert_ne. lia.
Qed.

Section Recover.
Context (st : Z) (D : Z -> list Z) (k : kernel) (n : nat) (Hs : sound st D) (Hbt : booted st D k).
Let bl := hdr (D st).

Lemma booted_quiet : quiet k.
Proof. intros x. rewrite (bt_fresh _ _ _ Hbt). done. Qed.

Lemma hdr_lookup t x : bl !! t = Some x -> s32 (get_word (D st) (1 + t)) = x /\ (t < length bl)%nat.
Proof.
  intros H. pose proof (lookup_lt_Some _ _ _ H) as Hl. split; [|done].
  unfold bl, hdr in H. apply list_lookup_fmap_Some in H as (i & -> & Hi).
  apply lookup_seq in Hi as [-> _]. done.
Qed.

Lemma wp_read_head (Q : unit -> world -> Prop) :
  (forall k', (n < 1)%nat -> k_disk k' = D -> on_blocked E (World k' [])) ->
  (forall k' n', (n <= n' + 1)%nat -> cache_inv me pid None k' -> k_disk k' = D ->
    (forall x, blk_of_cache k' x = Blk 0 (D x) None) -> (used k' <= used k)%nat -> log_at st bl k' ->
    Q tt (World k' (disk_works dev me n'))) ->
  wp E read_head Q (World k (disk_works dev me n)).
Proof.
  intros Hblk HQ. pose proof Hs as [[Hst Hlen Hhome Hr Hnd] Hn Hsize]. pose proof Hbt as [Hd Hinv Hfresh Hu Hls Hld Hlb].
  fold bl in Hlen, Hn. unfold read_head, getl, modl. do 4 kstep. cbn [w_k]. rewrite Hld, Hls.
  change (u32 ROOTDEV) with ROOTDEV. rewrite u32_small by lia.
  kstep. apply (wp_bread E dev Hdev me pid); rewrite ?Hfresh; [done|lia|done|done|right; lia| |].
  { intros -> k' Hk'. apply Hblk; [lia|congruence]. }
  intros i k1 n1 Hi1 Hd1 _ He1 Hu1 Hn1. cbn [with_lock bk_refs bk_data] in He1.
  assert (Hs1 := effect_refs _ _ _ _ He1).
  assert (Hlog1 : k_log k1 = k_log k) by (rewrite (fr_eq _ _ (ef_frame _ _ _ _ He1)); done).
  kstep. apply (wp_data E me pid k1 i st); [done|by rewrite Hs1|]. intros b Hb _. rewrite Hs1 in Hb. cbn in Hb.
  do 2 kstep. do 2 kstep. cbn [w_k k_log]. rewrite Hb. fold (hdr_n (D st)). rewrite Hn.
  change (lh_n (k_log _)) with (Z.of_nat (length bl)).
  match goal with |- wp _ _ _ ?w1 => replace w1 with
    (World (k1 <| k_log := (k_log k) <| lh_n := Z.of_nat (length bl) |> |>) (disk_works dev me n1)) end.
  2: { rewrite <- Hlog1. by destruct k1. }
  set (log_ok := fun t l => lg_start l = st /\ lg_dev l = ROOTDEV /\ lh_n l = Z.of_nat (length bl) /\
    length (lh_block l) = Z.to_nat LOGSIZE /\ take t (lh_block l) = take t bl).
  assert (Hlb' : (length bl <= Z.to_nat LOGSIZE)%nat) by (change LOGSIZE with 30 in *; lia).
  kstep. apply (wp_rounds _ _ _ (fun t w' => exists l, w' = World (k1 <| k_log := l |>) (disk_works dev me n1) /\ log_ok t l)).
  - eexists. split; [done|]. by split_and!.
  - intros t w' Ht (l & -> & L1 & L2 & L3 & L4 & L5). destruct (lookup_lt_is_Some_2 bl t Ht) as [x Hx].
    destruct (hdr_lookup t x Hx) as [Hw _]. do 2 kstep. cbn [w_k k_log]. rewrite Nat2Z.id, Hw.
    kstep. apply wp_arr_set; [change (0 <= Z.of_nat t < Z.of_nat (length (lh_block l))); lia|]. rewrite Nat2Z.id. kstep.
    exists (l <| lh_block := <[t := x]> (lh_block l) |>). split; [by destruct k1, l|].
    split_and!; [done|done|done|cbn; by rewrite length_insert|]. cbn. rewrite take_S_insert by lia.
    by rewrite (take_S_r _ _ x), L5 by done.
  - intros w' (l & -> & L1 & L2 & L3 & L4 & L5). set (k2 := k1 <| k_log := l |>).
    assert (Hi2 : cache_inv me pid None k2) by (destruct Hi1 as [[] ? ?]; by split; [split|..]).
    assert (Hs2 : blk_of_cache k2 st = Blk (0 + 1) (D st) (Some i)) by exact Hs1.
    apply (wp_brelse_cache E me pid k2 i st); [done|by rewrite Hs2|rewrite Hs2; change (k_disk k2) with (k_disk k1); by rewrite Hd1, Hd|].
    intros k3 Hi3 Hd3 He3 Hu3. rewrite Hs2 in He3, Hu3. cbn [bk_refs bk_data Z.add Z.sub Z.opp Z.pos_sub Pos.add] in He3, Hu3.
    apply (HQ k3 n1); [lia|done|rewrite Hd3; change (k_disk k2) with (k_disk k1); congruence| | |].
    + intros x. destruct (decide (x = st)) as [->|Hx]; [by rewrite (effect_refs _ _ _ _ He3)|].
      rewrite (effect_other _ _ _ _ x He3 Hx). change (blk_of_cache k2 x) with (blk_of_cache k1 x).
      by rewrite (effect_other _ _ _ _ x He1 Hx).
    + change (used k2) with (used k1) in Hu3. rewrite ?Hfresh in Hu1. cbn [bk_refs Z.eqb Pos.eqb Nat.b2n] in Hu1, Hu3. change (Nat.b2n (Z.eqb (0 + 1) 1)) with 1%nat in Hu3. lia.
    + eapply log_at_frame, (ef_frame _ _ _ _ He3). split; [done|done|done|].
      change (take (length bl) (lh_block l) = bl). by rewrite L5, take_ge by lia.
Qed.

(** A disk on which recovery was interrupted: it recovers to the same. *)
Definition same_replay (Dc : Z -> list Z) : Prop :=
  sound st Dc /\ forall x, home st x -> replay st Dc x = replay st D x.

Lemma same_replay_install Dc t : (forall y, Dc y = install st 0 (take t bl) D y) -> same_replay Dc.
Proof.
  intros HD. pose proof Hs as [Hbl Hn Hsize]. pose proof Hbl as [Hst Hlen Hhome Hr Hnd]. fold bl in Hlen, Hhome, Hnd.
  assert (Hht : Forall (home st) (take t bl)) by by apply Forall_take.
  assert (Hh : Dc st = D st) by (rewrite HD; apply install_slot; [done|lia]).
  split; [by split; rewrite Hh|]. intros x Hx. unfold replay. rewrite Hh. fold bl.
  rewrite (install_ext _ _ _ Dc _ _ HD). apply install_again; try done. apply prefix_take.
Qed.

(** The state after recovery: the replay is on the disk, the log is empty, nothing is in use. *)
Record recovered (k' : kernel) : Prop := Recovered {
  rc_inv : cache_inv me pid None k';
  rc_log : log_at st [] k';
  rc_sound : sound st (k_disk k') /\ hdr (k_disk k' st) = [];
  rc_disk : forall x, home st x -> k_disk k' x = replay st D x;
  rc_blk : forall x, blk_of_cache k' x = Blk 0 (k_disk k' x) None }.

Lemma wp_recover (Q : unit -> world -> Prop) :
  (forall k', (n < 3 * length bl + 3)%nat -> same_replay (k_disk k') -> on_blocked E (World k' [])) ->
  (forall k' n', recovered k' -> Q tt (World k' (disk_works dev me n'))) ->
  wp E recover_from_log Q (World k (disk_works dev me n)).
Proof.
  intros Hblk HQ. pose proof Hs as [Hbl Hn Hsize]. pose proof Hbl as [Hst Hlen Hhome Hr Hnd]. fold bl in Hbl, Hn, Hlen, Hhome, Hnd, Hr.
  assert (Hsame : same_replay D) by by split.
  unfold recover_from_log, modl. kstep. apply wp_read_head.
  { intros k' Hn' Hk'. apply Hblk; [lia|by rewrite Hk']. }
  intros k1 n1 Hn1 Hi1 Hd1 Hf1 Hu1 Hl1. assert (Hq1 : quiet k1) by (intros x; by rewrite Hf1).
  pose proof (bt_used _ _ _ Hbt) as Hu.
  kstep. apply (wp_install_trans st bl Hbl true k1 n1); [done|done|done|lia|done| | |].
  { intros i Hi. by rewrite Hf1, Hd1. }
  { intros k' t Hn' HD. apply Hblk; [lia|]. apply (same_replay_install _ t). by rewrite <- Hd1. }
  intros k2 n2 Hn2 [I1 I2 I3 I4 I5 I6 I7]. rewrite take_ge in I5, I7 by lia.
  assert (Hb2 : forall x, blk_of_cache k2 x = Blk 0 (k_disk k2 x) None).
  { intros x. destruct (decide (x ∈ bl)) as [Hin|Hin].
    - apply list_elem_of_lookup in Hin as [i Hi]. pose proof (lookup_lt_Some _ _ _ Hi) as Hl.
      rewrite (I6 i x), Hf1, I5, (install_home _ _ _ _ x i) by (done || lia). unfold slot. do 2 f_equal. lia.
    - by rewrite I7, Hf1, I5, install_out, Hd1 by done. }
  do 2 kstep. set (k3 := k2 <| k_log ::= fun l => l <| lh_n := 0 |> |>).
  match goal with |- wp _ _ _ ?w1 => change w1 with (World k3 (disk_works dev me n2)) end.
  assert (Hl2 : log_at st bl k2) by (by eapply log_at_frame).
  assert (Hi3 : cache_inv me pid None k3) by (destruct I1 as [[] ? ?]; by split; [split|..]).
  assert (Hl3 : log_at st [] k3) by (destruct Hl2; by split).
  apply (wp_write_head st [] k3 n2); [done|done|exact I4|lia|change (used k3) with (used k2); lia| |].
  { intros k' Hn' Hk'. apply Hblk; [lia|]. apply (same_replay_install _ (length bl)). intros y.
    rewrite Hk', take_ge, <- Hd1 by lia. apply I5. }
  intros k4 n4 Hn4 [M1 M2 M3 M4]. change (blk_of_cache k3 st) with (blk_of_cache k2 st) in M2, M3.
  change (k_disk k3) with (k_disk k2) in M2. rewrite Hb2 in M2, M3. cbn [bk_data bk_refs] in M2, M3.
  assert (Hd2 : k_disk k2 st = D st) by (rewrite I5, install_slot, Hd1 by (done || lia); done).
  rewrite Hd2 in M2, M3.
  destruct (hdr_head_bytes [] (D st)) as (Z1 & Z2 & Z3); [|done|done|].
  { rewrite Hsize. change (Z.to_nat BSIZE) with (Z.to_nat 1024). cbn [length]. lia. }
  apply (HQ k4 n4). split.
  - done.
  - exact (log_at_frame _ _ k3 k4 Hl3 (ef_frame _ _ _ _ M3)).
  - split; [|by rewrite M2, upd_blk_eq]. split; rewrite M2, upd_blk_eq, ?Z1; [by apply (blocks_ok_nil st bl)|done|by rewrite Z3].
  - intros x Hx. rewrite M2, upd_blk_ne by (unfold home, LOGSIZE, MAXOPBLOCKS in Hx; lia). rewrite I5, Hd1. done.
  - intros x. rewrite (ef_blk _ _ _ _ M3), M2. unfold upd_blk. destruct (Z.eqb_spec x st); [done|apply Hb2].
Qed.
End Recover.
End Commit.

(** * Theorems *)

Section Theorems.
Context (dev : kernel -> kernel) (Hdev : device_ok dev) (me : nat) (pid st : Z).

(** Crashes during recovery: the disks that starting on disk [D] and recovering, any number of
    times without success, can leave. *)
Inductive attempts (D : Z -> list Z) : (Z -> list Z) -> Prop :=
| attempts_none : attempts D D
| attempts_more D1 k n w : attempts D D1 -> booted me pid st D1 k ->
    recover_from_log (World k (disk_works dev me n)) = Blocked w -> attempts D (k_disk (w_k w)).

Lemma attempts_same D D' : sound st D -> attempts D D' -> same_replay st D D'.
Proof.
  intros Hs H. induction H as [|D1 k n w _ IH Hb Heq]; [by split|]. destruct IH as [Hs1 Hr1].
  assert (H : wp (XPost (fun _ _ => True) (fun _ _ => True) (fun w' => same_replay st D1 (k_disk (w_k w'))))
    recover_from_log (fun _ _ => True) (World k (disk_works dev me n))).
  { apply (wp_recover _ dev Hdev me pid st D1 k n Hs1 Hb); [by intros k' _ Hk'|done]. }
  unfold wp in H. rewrite Heq in H. destruct H as [Hs2 Hr2]. split; [done|]. intros x Hx. by rewrite Hr2, Hr1.
Qed.

Section Transaction.
Context (bl : list Z) (k : kernel) (Hbl : blocks_ok st bl) (Hcm : committing me pid st bl k).

(** C5. [commit] is atomic.  Let the log hold the blocks [bl], pinned in the cache, while the log on
    the disk is empty.  At every point at which a crash can find the disk, the disk recovers,
    outside the log, to what it was before the transaction or to what it is with all the
    cached blocks; [commit] does not panic, and with one answer of the disk per
    transfer it returns, the blocks at home, the log empty and the buffers unpinned. *)
Theorem commit_atomic n :
  wp (XPost (fun _ _ => False) (fun _ _ => False) (fun w => (n < 6 * length bl + 4)%nat /\
       all_or_nothing st bl k (k_disk (w_k w))))
    commit (fun _ w' => exists k' n', w' = World k' (disk_works dev me n') /\ committed me pid st bl k k')
    (World k (disk_works dev me n)).
Proof.
  apply (wp_commit _ dev Hdev me pid st bl Hbl k n); [done|by intros|]. intros k' n' _ H. by exists k', n'.
Qed.

(** C4. All or nothing, through any number of crashes: if the machine crashes during [commit],
    and again during recovery as often as it likes, a recovery that completes leaves, outside
    the log, either the disk of before the transaction or all of its blocks; one that is
    interrupted leaves a disk of which the same is true. *)
Theorem crash_consistency n w1 D k2 n2 :
  commit (World k (disk_works dev me n)) = Blocked w1 -> attempts (k_disk (w_k w1)) D -> booted me pid st D k2 ->
  match recover_from_log (World k2 (disk_works dev me n2)) with
  | Ok _ w2 => (forall x, home st x -> k_disk (w_k w2) x = k_disk k x) \/
      (forall x, home st x -> k_disk (w_k w2) x = after bl k x)
  | Blocked w2 => all_or_nothing st bl k (k_disk (w_k w2))
  | _ => False
  end.
Proof.
  intros Heq Hatt Hboot.
  assert (H : wp (XPost (fun _ _ => True) (fun _ _ => True) (fun w' => all_or_nothing st bl k (k_disk (w_k w'))))
    commit (fun _ _ => True) (World k (disk_works dev me n))).
  { apply (wp_commit _ dev Hdev me pid st bl Hbl k n); [done|by intros|done]. }
  unfold wp in H. rewrite Heq in H. destruct H as [Hs Hor].
  destruct (attempts_same _ _ Hs Hatt) as [HsD HrD].
  assert (H : wp (XPost (fun _ _ => False) (fun _ _ => False) (fun w' => same_replay st D (k_disk (w_k w'))))
    recover_from_log (fun _ w' => forall x, home st x -> k_disk (w_k w') x = replay st D x) (World k2 (disk_works dev me n2))).
  { apply (wp_recover _ dev Hdev me pid st D k2 n2 HsD Hboot); [by intros|]. intros k' n' [_ _ _ Hd _]. exact Hd. }
  unfold wp in H. destruct (recover_from_log _) as [[] w2|?|?|w2|]; try done.
  - destruct Hor as [Hor|Hor]; [left|right]; intros x Hx; by rewrite H, HrD, Hor.
  - destruct H as [Hs2 Hr2]. split; [done|].
    destruct Hor as [Hor|Hor]; [left|right]; intros x Hx; by rewrite Hr2, HrD, Hor.
Qed.
End Transaction.

(** Recovery.  On a machine that starts on a disk with a header that [write_head] left,
    [recover_from_log] installs the blocks the header names and empties the log: the disk is
    the replay of the one it found, and nothing is left in use in the cache.  Wherever it is
    interrupted, the disk has the same replay.  With one answer of the disk per transfer it
    returns. *)
Theorem recovery_correct D k n : sound st D -> booted me pid st D k ->
  wp (XPost (fun _ _ => False) (fun _ _ => False) (fun w => (n < 3 * length (hdr (D st)) + 3)%nat /\
       same_replay st D (k_disk (w_k w))))
    recover_from_log (fun _ w' => exists k' n', w' = World k' (disk_works dev me n') /\ recovered me pid st D k')
    (World k (disk_works dev me n)).
Proof.
  intros Hs Hb. apply (wp_recover _ dev Hdev me pid st D k n Hs Hb); [by intros|]. intros k' n' H. by exists k', n'.
Qed.
End Theorems.

(** ** Witnesses *)

(** The log is at block 2; buffer 7 has new data for block 46 and is pinned. *)
Definition demo_disk : Z -> list Z := fun _ => replicate 1024 0.
Definition demo_lbuf (pinned : bool) (i : nat) : buf :=
  let b := Buf 0 0 0 0 sleeplock0 0 (if decide (i = 29%nat) then BHead else BBuf (S i))
    (match i with O => BHead | S j => BBuf j end) [] in
  if decide (i = 7%nat /\ pinned = true)
  then b <| b_dev := 1 |> <| b_blockno := 46 |> <| b_refcnt := 1 |> <| b_valid := 1 |> <| b_data := replicate 1024 7 |> else b.
Definition demo_at (pinned : bool) (D : Z -> list Z) (l : log) : kernel :=
  kernel0 <| k_cur := Some 1%nat |> <| k_vdisk := demo_vdisk |>
    <| k_proc := <[1%nat := proc0 <| p_state := RUNNING |>]> (replicate NPROC proc0) |>
    <| k_bcache := Bcache (demo_lbuf pinned <$> seq 0 NBUF) (BBuf 0) (BBuf 29) |>
    <| k_disk := D |> <| k_log := l |>.
Definition demo_log (bl : list Z) : log :=
  (k_log kernel0) <| lg_start := 2 |> <| lg_dev := 1 |> <| lh_n := Z.of_nat (length bl) |>
    <| lh_block := bl ++ replicate (30 - length bl) 0 |>.
Definition demo_commit : kernel := demo_at true demo_disk (demo_log [46]).

Lemma demo_at_buf q D l i b : bufs_of (k_bcache (demo_at q D l)) !! i = Some b -> b = unlinked (demo_lbuf q i).
Proof.
  intros (b' & Hb & ->)%bufs_lookup_inv. apply list_lookup_fmap_Some in Hb as (j & -> & Hj).
  apply lookup_seq in Hj as [-> _]. done.
Qed.
Lemma demo_lbuf_key q i x : key (unlinked (demo_lbuf q i)) = Some x -> i = 7%nat /\ q = true /\ x = 46.
Proof. unfold demo_lbuf. case_decide as H; [|done]. intros [= <-]. by destruct H. Qed.

Lemma demo_at_inv q D l : cache_inv 1 0 None (demo_at q D l).
Proof.
  split; [split| |split].
  - split; try reflexivity; split_and!; [reflexivity|reflexivity|exact (Z.le_refl 0)|reflexivity].
  - done.
  - done.
  - by eexists.
  - done.
  - exists (rev (seq 0 NBUF)). split; [symmetry; exact (Permutation_rev _)| |]; destruct q; vm_compute; repeat split.
  - by destruct q.
  - intros i j bi bj x ->%demo_at_buf ->%demo_at_buf Hi%demo_lbuf_key Hj%demo_lbuf_key. lia.
  - intros i b ->%demo_at_buf. split; unfold demo_lbuf; case_decide; cbn; try done; try lia. by intros x [= <-].
  - intros i b ->%demo_at_buf. unfold demo_lbuf. by case_decide.
Qed.

Lemma demo_at_blk q D l x : blk_of_cache (demo_at q D l) x =
  if (x =? 46) && q then Blk 1 (replicate 1024 7) None else Blk 0 (D x) None.
Proof.
  unfold blk_of_cache, blk_at. destruct (find_blk _ x) as [[i b]|] eqn:Ef.
  - apply find_blk_Some in Ef as [->%demo_at_buf (-> & -> & ->)%demo_lbuf_key]. done.
  - destruct (Z.eqb_spec x 46) as [->|]; [|done]. destruct q; [|done]. rewrite find_blk_None in Ef.
    by destruct (Ef 7%nat (unlinked (demo_lbuf true 7)) eq_refl).
Qed.

Lemma demo_sound : sound 2 demo_disk.
Proof.
  assert (H : hdr (demo_disk 2) = []) by (vm_compute; reflexivity). split; [|by rewrite H|reflexivity].
  rewrite H. split; [unfold LOGSIZE, MAXOPBLOCKS; lia|done|by apply Forall_nil|by apply Forall_nil|by apply NoDup_nil].
Qed.

Lemma demo_blocks : blocks_ok 2 [46].
Proof.
  split; [unfold LOGSIZE, MAXOPBLOCKS; lia|done| | |apply NoDup_singleton]; apply Forall_singleton; [right; reflexivity|lia].
Qed.

Lemma demo_committing : committing 1 0 2 [46] demo_commit.
Proof.
  split.
  - apply demo_at_inv.
  - by split.
  - intros x. unfold demo_commit. rewrite demo_at_blk. by destruct (_ && _).
  - apply Nat.leb_le. reflexivity.
  - intros x ->%list_elem_of_singleton. unfold demo_commit. by rewrite demo_at_blk.
  - exact demo_sound.
  - vm_compute. reflexivity.
  - unfold demo_commit. by rewrite demo_at_blk.
Qed.

Lemma demo_booted D : booted 1 0 2 D (demo_at false D (demo_log [])).
Proof.
  split; [done|apply demo_at_inv| |apply Nat.leb_le; reflexivity|done..].
  intros x. rewrite demo_at_blk. by rewrite andb_false_r.
Qed.

(** With ten answers of the disk the transaction is committed. *)
Lemma commit_atomic_witness : exists a w', commit (World demo_commit (disk_works serve 1 10)) = Ok a w' /\
  exists k' n', w' = World k' (disk_works serve 1 n') /\ committed 1 0 2 [46] demo_commit k'.
Proof.
  refine (wp_returned _ _ _ _ (commit_atomic serve serve_ok 1 0 2 [46] demo_commit demo_blocks demo_committing 10) _).
  vm_compute. exact eq_refl.
Defined.

(** With five the machine stops while block 46 is written home. *)
Definition demo_crash : world :=
  match commit (World demo_commit (disk_works serve 1 5)) with Blocked w => w | _ => world0 end.
Definition is_blocked {A} (r : res world A) : bool := match r with Blocked _ => true | _ => false end.
Lemma is_blocked_eq {A} (r : res world A) : is_blocked r = true -> r = Blocked (match r with Blocked w => w | _ => world0 end).
Proof. by destruct r. Qed.

Lemma crash_consistency_witness (D := k_disk (w_k demo_crash)) :
  match recover_from_log (World (demo_at false D (demo_log [])) (disk_works serve 1 9)) with
  | Ok _ w2 => (forall x, home 2 x -> k_disk (w_k w2) x = demo_disk x) \/
      (forall x, home 2 x -> k_disk (w_k w2) x = after [46] demo_commit x)
  | Blocked w2 => all_or_nothing 2 [46] demo_commit (k_disk (w_k w2))
  | _ => False
  end.
Proof.
  assert (Hc : is_blocked (commit (World demo_commit (disk_works serve 1 5))) = true) by (vm_compute; exact eq_refl).
  exact (crash_consistency serve serve_ok 1 0 2 [46] demo_commit demo_blocks demo_committing 5 demo_crash D _ 9
    (is_blocked_eq _ Hc) (attempts_none _ _ _ _ _) (demo_booted D)).
Defined.

Lemma recovery_correct_witness : exists a w',
  recover_from_log (World (demo_at false demo_disk (demo_log [])) (disk_works serve 1 9)) = Ok a w' /\
  exists k' n', w' = World k' (disk_works serve 1 n') /\ recovered 1 0 2 demo_disk k'.
Proof.
  refine (wp_returned _ _ _ _ (recovery_correct serve serve_ok 1 0 2 demo_disk _ 9 demo_sound (demo_booted demo_disk)) _).
  vm_compute. exact eq_refl.
Defined.
