(* ===== verification/Blocks.v ===== *)
(** Blocks as the file system sees them: what [bread], [log_write] and [brelse] do for a process
    inside a transaction.

    [mine bl h I D k] is the state of the machine when one process uses the file system, as the
    abstract state behind it: the log pins the blocks [bl], the process holds the blocks [h] locked in their buffers,
    the inode table is [I], and the contents of the blocks are [D] - the file system's view, in
    which it does not matter whether a block is in the cache, in the log or on the disk.  Everything
    else is as it was in the state [k0] in which the process began. *)

From S2P Require Export Commit.

Definition data (k : kernel) (x : Z) : list Z := bk_data (blk_of_cache k x).
Definition lock_of (k : kernel) (x : Z) : option nat := bk_lock (blk_of_cache k x).

(** 1 if [P], else 0 *)
Definition one_if (P : Prop) `{!Decision P} : Z := if decide P then 1 else 0.

Lemma one_if_range (P : Prop) `{!Decision P} : 0 <= one_if P <= 1.
Proof. unfold one_if. case_decide; lia. Qed.
Lemma one_if_true (P : Prop) `{!Decision P} : P -> one_if P = 1.
Proof. intros H. unfold one_if. by rewrite decide_True. Qed.
Lemma one_if_false (P : Prop) `{!Decision P} : ~ P -> one_if P = 0.
Proof. intros H. unfold one_if. by rewrite decide_False. Qed.
Lemma one_if_iff (P P' : Prop) `{!Decision P} `{!Decision P'} : (P <-> P') -> one_if P = one_if P'.
Proof. intros H. unfold one_if. by apply decide_ext. Qed.

(** All of the state but the processes' states, the devices, the cache, the log and the inodes. *)
Definition rest (k k' : kernel) : Prop := resched (k_proc k) (k_proc k') /\
  k' = Kernel (k_held k) (k_cur k) (k_ram k) (k_kmem k) (k_pagetable k) (k_proc k') (k_initproc k) (k_nextpid k) (k_tf k)
    (k_ticks k) (k_bcache k') (k_disk k') (k_dwrites k') (k_vdisk k') (k_log k') (k_sb k) (k_inode k') (k_file k) (k_pipe k)
    (k_devsw k) (k_cons k) (k_uart k) (k_prlocking k) (k_panicked k) (k_readcount k) (k_first k) (k_csr k)
    (k_mmio_in k') (k_mmio_out k').

Lemma rest_refl k : rest k k.
Proof. split; [apply resched_refl|by destruct k]. Qed.
Lemma rest_frame k k' k'' : rest k k' -> frame k' k'' -> rest k k''.
Proof.
  intros [Hp Hk] [Hf Hp']. split; [by eapply resched_trans|].
  assert (E1 : k_log k'' = k_log k') by exact (f_equal k_log Hf).
  assert (E2 : k_inode k'' = k_inode k') by exact (f_equal k_inode Hf).
  rewrite E1, E2. etransitivity; [exact Hf|]. rewrite Hk at 1. vm_compute. reflexivity.
Qed.
Lemma rest_log k k' l : rest k k' -> rest k (k' <| k_log := l |>).
Proof. intros [Hp ->]. by split. Qed.
Lemma rest_inode k k' I : rest k k' -> rest k (k' <| k_inode := I |>).
Proof. intros [Hp ->]. by split. Qed.

(** The log of a running transaction: [l] as it was, but for the blocks. *)
Record log_is (l : log) (bl : list Z) (l' : log) : Prop := LogIs {
  li_log : l' = l <| lh_n := Z.of_nat (length bl) |> <| lh_block := lh_block l' |>;
  li_blk : take (length bl) (lh_block l') = bl;
  li_len : length (lh_block l') = Z.to_nat LOGSIZE;
  li_ok : blocks_ok (lg_start l) bl }.

Section Blocks.
Context (me : nat) (pid : Z) (k0 : kernel).
Implicit Types (k : kernel) (bl : list Z) (h : gmap Z nat) (I : list inode) (D : Z -> list Z) (x y : Z) (n : nat).

(** The blocks in use. *)
Definition in_cache bl h : gset Z := list_to_set bl ∪ dom h.

Record mine bl h I D k : Prop := Mine {
  mi_rest : rest k0 k;
  mi_disk : k_disk k = k_disk k0;
  mi_inode : k_inode k = I;
  mi_log : log_is (k_log k0) bl (k_log k);
  mi_inv : cache_inv me pid None k;
  mi_refs : forall x, bk_refs (blk_of_cache k x) = one_if (x ∈ bl) + one_if (is_Some (h !! x));
  mi_lock : forall x, lock_of k x = h !! x;
  mi_used : (used k <= size (in_cache bl h))%nat;
  mi_data : forall x, data k x = D x;
  mi_size : forall x, length (D x) = Z.to_nat BSIZE }.

Lemma mine_data bl h I D D' k : mine bl h I D k -> (forall x, D x = D' x) -> mine bl h I D' k.
Proof. intros [] HD. split; try done; intros x; by rewrite <- HD. Qed.

Lemma upd_blk_same {A} (f : Z -> A) x v y : v = f x -> upd_blk f x v y = f y.
Proof. intros ->. unfold upd_blk. by destruct (Z.eqb_spec y x) as [->|]. Qed.

(** An operation on block [x]. *)
Lemma mine_effect bl bl' h h' I D x v k k' : mine bl h I D k -> effect x v k k' -> cache_inv me pid None k' ->
  k_disk k' = k_disk k -> log_is (k_log k0) bl' (k_log k) ->
  bk_refs v = one_if (x ∈ bl') + one_if (is_Some (h' !! x)) -> bk_lock v = h' !! x ->
  (forall y, y <> x -> (y ∈ bl' <-> y ∈ bl) /\ h' !! y = h !! y) -> (used k' <= size (in_cache bl' h'))%nat ->
  length (bk_data v) = Z.to_nat BSIZE -> mine bl' h' I (upd_blk D x (bk_data v)) k'.
Proof.
  intros [M1 M2 M3 M4 M5 M6 M7 M8 M9 M10] [[Hf Hps] Hb] Hi Hd Hlog Hr Hl Hsame Hu Hlen. split; try done.
  - by eapply rest_frame.
  - by rewrite Hd.
  - by rewrite <- M3, Hf.
  - by rewrite Hf.
  - intros y. rewrite Hb. unfold upd_blk. destruct (Z.eqb_spec y x) as [->|Hy]; [done|]. rewrite M6.
    destruct (Hsame y Hy) as [S1 S2]. f_equal; apply one_if_iff; [by symmetry|by rewrite S2].
  - intros y. unfold lock_of. rewrite Hb. unfold upd_blk. destruct (Z.eqb_spec y x) as [->|Hn]; [done|].
    destruct (Hsame y Hn) as [_ ->]. apply M7.
  - intros y. unfold data. rewrite Hb. unfold upd_blk. destruct (Z.eqb_spec y x); [done|apply M9].
  - intros y. unfold upd_blk. by destruct (y =? x).
Qed.

(** A block that is not in the log and not held has what the disk has. *)
Lemma mine_clean bl h I D k x : mine bl h I D k -> x ∉ bl -> h !! x = None -> D x = k_disk k0 x.
Proof.
  intros Hm Hb Hh. rewrite <- (mi_data _ _ _ _ _ Hm), <- (mi_disk _ _ _ _ _ Hm).
  apply (clean_unused me pid None k x (mi_inv _ _ _ _ _ Hm)).
  rewrite (mi_refs _ _ _ _ _ Hm), one_if_false, one_if_false; [done| |done]. rewrite Hh. by intros [? [=]].
Qed.

Lemma one_if_Some x i h : h !! x = Some i -> one_if (is_Some (h !! x)) = 1.
Proof. intros H. apply one_if_true. by rewrite H. Qed.
Lemma one_if_None x h : h !! x = None -> one_if (is_Some (h !! x)) = 0.
Proof. intros H. apply one_if_false. rewrite H. by intros [? [=]]. Qed.

Lemma wp_bread_mine dev (Hdev : device_ok dev) bl h I D k n x (Q : nat -> world -> Prop) : mine bl h I D k -> h !! x = None -> 0 <= x < 2147483648 ->
  (size (in_cache bl h) < NBUF)%nat -> (0 < n)%nat ->
  (forall i k' n', mine bl (<[x := i]> h) I D k' -> (n <= n' + 1)%nat -> Q i (World k' (disk_works dev me n'))) ->
  wp total (bread ROOTDEV x) Q (World k (disk_works dev me n)).
Proof.
  intros Hm Hx Hr Hs Hn HQ. pose proof Hm as [_ _ _ Hlog Hi Hrefs Hlock Hused Hdata Hsize].
  assert (Hc : bk_refs (blk_of_cache k x) = one_if (x ∈ bl)) by (rewrite Hrefs, one_if_None by done; lia).
  pose proof (one_if_range (x ∈ bl)).
  apply (wp_bread total dev Hdev me pid k n x); [done|done|by rewrite <- Hx; apply Hlock|lia|right; lia|lia|].
  intros i k' n' Hi' Hd' _ He Hu Hn'. apply (HQ i k' n'); [|done].
  eapply mine_data; [apply (mine_effect bl bl h _ I D x _ k k' Hm He Hi' Hd' Hlog)|].
  - change (bk_refs (blk_of_cache k x) + 1 = one_if (x ∈ bl) + one_if (is_Some (<[x:=i]> h !! x))).
    by rewrite Hc, (one_if_Some x i) by apply lookup_insert_eq.
  - by rewrite lookup_insert_eq.
  - intros y Hy. by rewrite lookup_insert_ne.
  - assert (Hdom : in_cache bl (<[x:=i]> h) = {[x]} ∪ in_cache bl h) by (unfold in_cache; set_solver).
    rewrite Hdom. rewrite Hc in Hu. destruct (decide (x ∈ bl)) as [Hin|Hout].
    + rewrite one_if_true in Hu by done. cbn in Hu. replace ({[x]} ∪ in_cache bl h) with (in_cache bl h) by (unfold in_cache; set_solver). lia.
    + rewrite one_if_false in Hu by done. cbn in Hu.
      assert (Hni : x ∉ dom h) by by rewrite not_elem_of_dom.
      rewrite size_union by (unfold in_cache; set_solver). rewrite size_singleton. lia.
  - cbn. fold (data k x). by rewrite Hdata.
  - intros y. cbn. fold (data k x). by apply upd_blk_same.
Qed.

Lemma in_cache_delete_in bl h x : x ∈ bl -> in_cache bl h = in_cache bl (delete x h).
Proof.
  intros Hx. unfold in_cache. rewrite dom_delete_L. apply set_eq. intros z. rewrite ?elem_of_union, elem_of_difference, ?elem_of_singleton, elem_of_list_to_set.
    destruct (decide (z = x)); naive_solver.
Qed.

Lemma in_cache_delete_out bl h x : x ∉ bl -> is_Some (h !! x) -> size (in_cache bl h) = S (size (in_cache bl (delete x h))).
Proof.
  intros Hx Hh%elem_of_dom. assert (E : in_cache bl h = {[x]} ∪ in_cache bl (delete x h)).
  { unfold in_cache. rewrite dom_delete_L. apply set_eq. intros z. rewrite ?elem_of_union, elem_of_difference, ?elem_of_singleton, elem_of_list_to_set.
    destruct (decide (z = x)); naive_solver. }
  rewrite E, size_union, size_singleton; [done|]. unfold in_cache. rewrite dom_delete_L. set_solver.
Qed.

Section Held.
Context (bl : list Z) (h : gmap Z nat) (I : list inode) (D : Z -> list Z) (k : kernel) (i : nat) (x : Z).
Context (Hm : mine bl h I D k) (Hx : h !! x = Some i).

Lemma held_blk : blk_of_cache k x = Blk (one_if (x ∈ bl) + 1) (D x) (Some i).
Proof.
  pose proof (mi_refs _ _ _ _ _ Hm x) as Hr. rewrite (one_if_Some x i h Hx) in Hr. 
  rewrite <- (mi_data _ _ _ _ _ Hm x), <- Hx, <- (mi_lock _ _ _ _ _ Hm x), <- Hr. unfold data, lock_of.
  by destruct (blk_of_cache k x).
Qed.

Lemma held_lock : bk_lock (blk_of_cache k x) = Some i.
Proof. by rewrite held_blk. Qed.

Lemma wp_get_data e (Q : list Z -> world -> Prop) : Q (D x) (World k e) -> wp total (get_data i) Q (World k e).
Proof.
  intros HQ. unfold get_data. kstep. apply (wp_data total me pid k i x); [apply (mi_inv _ _ _ _ _ Hm)|apply held_lock|].
  intros b Hb _. apply wp_ret. rewrite Hb, held_blk. exact HQ.
Qed.

Lemma wp_upd_mine e f (Q : unit -> world -> Prop) : length (f (D x)) = Z.to_nat BSIZE ->
  (forall k', mine bl h I (upd_blk D x (f (D x))) k' -> Q tt (World k' e)) -> wp total (upd_data i f) Q (World k e).
Proof.
  intros Hf HQ. apply (wp_upd_data total me pid k i x); [apply (mi_inv _ _ _ _ _ Hm)|apply held_lock|].
  intros k' Hi Hd He Hu. rewrite held_blk in He. cbn [bk_refs bk_data] in He. apply HQ.
  apply (mine_effect bl bl h h I D x _ k k' Hm He Hi Hd (mi_log _ _ _ _ _ Hm)); try done.
  - cbn. by rewrite (one_if_Some x i h Hx).
  - rewrite Hu. apply (mi_used _ _ _ _ _ Hm).
Qed.

Lemma wp_brelse_mine e (Q : unit -> world -> Prop) : x ∈ bl \/ D x = k_disk k0 x ->
  (forall k', mine bl (delete x h) I D k' -> Q tt (World k' e)) -> wp total (brelse i) Q (World k e).
Proof.
  intros Hc HQ. apply (wp_brelse_cache total me pid k i x); [apply (mi_inv _ _ _ _ _ Hm)|apply held_lock| |].
  { rewrite held_blk. cbn. intros Hone. destruct Hc as [Hin|Hd]; [rewrite one_if_true in Hone by done; lia|].
    by rewrite Hd, (mi_disk _ _ _ _ _ Hm). }
  intros k' Hi Hd He Hu. rewrite held_blk in He, Hu. cbn [bk_refs bk_data] in He, Hu. apply HQ.
  assert (Hdel : one_if (is_Some (delete x h !! x)) = 0) by apply one_if_None, lookup_delete_eq.
  eapply mine_data; [apply (mine_effect bl bl h (delete x h) I D x _ k k' Hm He Hi Hd (mi_log _ _ _ _ _ Hm))|].
  - rewrite Hdel. cbn. lia.
  - by rewrite lookup_delete_eq.
  - intros y Hy. by rewrite lookup_delete_ne.
  - pose proof (mi_used _ _ _ _ _ Hm) as Hus. assert (Hxd : is_Some (h !! x)) by by eexists.
    destruct (decide (x ∈ bl)) as [Hin|Hout].
    + rewrite (in_cache_delete_in bl h x Hin) in Hus. lia.
    + rewrite one_if_false in Hu by done. change (Nat.b2n (0 + 1 =? 1)%Z) with 1%nat in Hu. rewrite (in_cache_delete_out bl h x Hout Hxd) in Hus. lia.
  - apply (mi_size _ _ _ _ _ Hm).
  - intros y. by apply upd_blk_same.
Qed.
End Held.

(** ** log_write *)

(** The search for the block in the log. *)
Lemma wp_find_logged bl l x (Q : option Z -> world -> Prop) w : take (length bl) l = bl ->
  Forall (fun y => 0 <= y < 2147483648) bl ->
  (forall j, bl !! j = Some x -> Q (Some (Z.of_nat j)) w) -> (x ∉ bl -> Q None w) ->
  wp total (for_ret (rounds (Z.of_nat (length bl))) (fun i =>
    v <- arr_get l i ;; ret (if u32 v =? x then Some i else None))) Q w.
Proof.
  intros Hl Hr Hyes Hno. unfold rounds. rewrite Nat2Z.id.
  apply (wp_for_ret _ (fun xs w' => w' = w /\ exists t, (t <= length bl)%nat /\
    xs = Z.of_nat <$> seq t (length bl - t) /\ x ∉ take t bl)).
  - split; [done|]. exists 0%nat. rewrite Nat.sub_0_r, take_0. split_and!; [lia|done|by apply not_elem_of_nil].
  - intros z xs w' (-> & t & Ht & Hxs & Hx). destruct (decide (t = length bl)) as [->|Hn]; [by rewrite Nat.sub_diag in Hxs|].
    replace (length bl - t)%nat with (S (length bl - S t)) in Hxs by lia. injection Hxs as -> ->.
    destruct (lookup_lt_is_Some_2 bl t) as [y Hy]; [lia|].
    assert (Hly : l !! t = Some y) by (rewrite <- (lookup_take_lt l (length bl)), Hl by lia; done).
    kstep. apply (wp_arr_get _ _ _ y); [lia|by rewrite Nat2Z.id|]. apply wp_ret.
    pose proof (Forall_lookup_1 _ _ _ _ Hr Hy) as Hry. cbv beta in Hry. rewrite u32_small by lia.
    destruct (Z.eqb_spec y x) as [->|Hne]; [by apply Hyes|]. split; [done|]. exists (S t). split_and!; [lia|done|].
    rewrite (take_S_r _ _ y) by done. rewrite elem_of_app, list_elem_of_singleton. naive_solver.
  - intros w' (-> & t & Ht & Hxs & Hx). apply Hno. apply (f_equal length) in Hxs.
    rewrite length_fmap, length_seq in Hxs. cbn in Hxs. by rewrite take_ge in Hx by lia.
Qed.

Definition logged_in x bl : list Z := if decide (x ∈ bl) then bl else bl ++ [x].

Lemma elem_of_logged_in x y bl : y ∈ logged_in x bl <-> y ∈ bl \/ y = x.
Proof. unfold logged_in. case_decide; rewrite ?elem_of_app, ?list_elem_of_singleton; naive_solver. Qed.

Lemma NoDup_logged_in x bl : NoDup bl -> NoDup (logged_in x bl).
Proof.
  intros H. unfold logged_in. case_decide; [done|]. apply NoDup_app. split_and!; [done| |apply NoDup_singleton].
  intros y Hy ->%list_elem_of_singleton. done.
Qed.

Lemma logged_in_length x bl : (length bl <= length (logged_in x bl))%nat.
Proof. unfold logged_in. case_decide; rewrite ?length_app; lia. Qed.

(** The transaction has been begun and has space for [c] more blocks. *)
Record open_tx (c : nat) bl : Prop := OpenTx {
  ot_open : 1 <= lg_outstanding (k_log k0);
  ot_room : Z.of_nat (length bl + c) <= LOGSIZE /\ Z.of_nat (length bl + c) <= lg_size (k_log k0) - 1 }.

Section LogWrite.
Context (bl : list Z) (h : gmap Z nat) (I : list inode) (D : Z -> list Z) (k : kernel) (i : nat) (x : Z).
Context (Hm : mine bl h I D k) (Hx : h !! x = Some i) (Htx : open_tx 1 bl) (Hh : home (lg_start (k_log k0)) x).

Lemma log_is_snoc l b : log_is (k_log k0) bl l -> x ∉ bl -> 0 <= x < 2147483648 -> b = <[length bl := x]> (lh_block l) ->
  log_is (k_log k0) (bl ++ [x]) (l <| lh_block := b |> <| lh_n ::= Z.add 1 |>).
Proof.
  intros [E1 E2 E3 [B1 B2 B3 B4 B5]] Hn Hr ->. destruct (ot_room _ _ Htx) as [R1 _]. split.
  - replace (Z.of_nat (length (bl ++ [x]))) with (1 + Z.of_nat (length bl)) by (rewrite length_app; cbn [length]; lia).
    rewrite E1. by destruct (k_log k0).
  - cbn. rewrite length_app, Nat.add_1_r, take_S_insert by lia. by rewrite E2.
  - cbn. by rewrite length_insert.
  - split; [done|rewrite length_app; exact R1| | |].
    + apply Forall_app. split; [done|]. by apply Forall_singleton.
    + apply Forall_app. split; [done|]. by apply Forall_singleton.
    + pose proof (NoDup_logged_in x bl B5) as Hnd. unfold logged_in in Hnd. by rewrite decide_False in Hnd.
Qed.

(** A block that is new to the log: it is pinned and added. *)
Lemma mine_pinned b (k1 := upd_bufs i (fun b : buf => b <| b_refcnt ::= fun r => u32 (r + 1) |>) k)
    (l := (k_log k) <| lh_block := b |> <| lh_n ::= Z.add 1 |>) :
  x ∉ bl -> 0 <= x < 2147483648 -> b = <[length bl := x]> (lh_block (k_log k)) ->
  mine (bl ++ [x]) h I D (k1 <| k_log := l |>).
Proof.
  intros Hn Hr Hb. pose proof Hm as [M1 M2 M3 M4 M5 M6 M7 M8 M9 M10].
  pose proof (held_blk _ _ _ _ _ _ _ Hm Hx) as Hv. rewrite one_if_false in Hv by done.
  destruct (refs_held me pid k i x M5 (held_lock _ _ _ _ _ _ _ Hm Hx) 1) as (I1 & [F1 E1] & U1); [rewrite Hv; cbn; lia|].
  fold k1 in I1, F1, E1, U1. rewrite Hv in E1. cbn [bk_refs bk_data] in E1.
  assert (Hblk : forall y, blk_of_cache (k1 <| k_log := l |>) y = upd_blk (blk_of_cache k) x (Blk 2 (D x) (Some i)) y) by exact E1.
  assert (Hset : in_cache (bl ++ [x]) h = in_cache bl h).
  { assert (x ∈ dom h) by (by apply elem_of_dom; eexists). unfold in_cache. rewrite list_to_set_app_L. set_solver. }
  split; [|done|done|by apply log_is_snoc| | | | | |done].
  - by eapply rest_log, rest_frame.
  - destruct I1 as [[]]. by split.
  - intros y. rewrite Hblk. unfold upd_blk. destruct (Z.eqb_spec y x) as [->|Hy].
    + rewrite (one_if_Some x i h Hx), one_if_true; [done|]. apply elem_of_app. right. by apply list_elem_of_singleton.
    + rewrite M6. f_equal. apply one_if_iff. rewrite elem_of_app, list_elem_of_singleton. naive_solver.
  - intros y. unfold lock_of. rewrite Hblk. unfold upd_blk. destruct (Z.eqb_spec y x) as [->|Hy]; [done|apply M7].
  - rewrite Hset. by change (used (k1 <| k_log := l |>)) with (used k1); rewrite U1.
  - intros y. unfold data. rewrite Hblk. unfold upd_blk. by destruct (Z.eqb_spec y x) as [->|Hy]; [|apply M9].
Qed.

Lemma wp_log_write e (Q : unit -> world -> Prop) :
  (forall k', mine (logged_in x bl) h I D k' -> Q tt (World k' e)) -> wp total (log_write i) Q (World k e).
Proof.
  intros HQ. pose proof Hm as [M1 M2 M3 M4 M5 M6 M7 M8 M9 M10]. destruct (ci_ready _ _ _ _ M5) as [R1 R2 R3 R4 R5].
  destruct (held_buf me pid k i x M5 (held_lock _ _ _ _ _ _ _ Hm Hx)) as (b & Hb & _ & _ & Hbx & _).
  assert (Hrange : 0 <= x < 2147483648).
  { destruct (in_buf_facts me pid None k i x M5 (in_buf_lock me pid None k i x M5 (held_lock _ _ _ _ _ _ _ Hm Hx))) as (? & _ & _ & _ & _ & _ & Hr & _). done. }
  destruct M4 as [L1 L2 L3 [B1 B2 B3 B4 B5]]. destruct Htx as [T1 [T2 T3]].
  assert (En : lh_n (k_log k) = Z.of_nat (length bl)) by (rewrite L1; by destruct (k_log k0)).
  assert (Es : lg_size (k_log k) = lg_size (k_log k0)) by (rewrite L1; by destruct (k_log k0)).
  assert (Eo : lg_outstanding (k_log k) = lg_outstanding (k_log k0)) by (rewrite L1; by destruct (k_log k0)).
  unfold log_write. kstep. apply wp_acquire; [cbn; rewrite R3; apply not_elem_of_nil|]. do 2 kstep. cbn [w_k].
  change (k_log _) with (k_log k). rewrite En, Es, Eo.
  rewrite !Z.geb_leb, (proj2 (Z.leb_gt _ _)), (proj2 (Z.leb_gt _ _)), (proj2 (Z.ltb_ge _ _)) by lia. cbn [orb].
  kstep. apply (wp_get_buf _ _ _ b); [exact Hb|]. rewrite Hbx.
  do 2 kstep. apply (wp_find_logged bl); [done..| |].
  - intros j Hj. apply wp_ret. cbn [default]. unfold id. kstep. pose proof (lookup_lt_Some _ _ _ Hj) as Hjl.
    apply wp_arr_set; [rewrite L3; lia|]. rewrite Nat2Z.id, s32_small by lia.
    rewrite list_insert_id by (rewrite <- (lookup_take_lt _ (length bl)), L2 by done; done).
    kstep. apply wp_modk. rewrite (proj2 (Z.eqb_neq (Z.of_nat j) _)) by lia. cbn [when]. kstep.
    eapply wp_release; [apply release_held_head|].
    assert (Hin : logged_in x bl = bl) by (unfold logged_in; rewrite decide_True; [done|by eapply list_elem_of_lookup_2]).
    rewrite Hin in HQ. eapply wp_world_eq; [apply (HQ k Hm)|]. clear -R3. destruct k as [? ? ? ? ? ? ? ? ? ? ? ? ? ? []]. cbn in R3. by subst.
  - intros Hn. apply wp_ret. cbn [default]. rewrite Z.max_r by lia. kstep.
    apply wp_arr_set; [rewrite L3; lia|]. rewrite Nat2Z.id, s32_small by lia.
    kstep. apply wp_modk. rewrite Z.eqb_refl. cbn [when]. kstep. kstep. unfold bpin.
    kstep. apply wp_acquire; [cbn; rewrite R3; by apply not_elem_of_cons; split; [|apply not_elem_of_nil]|].
    kstep. eapply wp_upd_bufs; [exact Hb|]. eapply wp_release; [apply release_held_head|]. apply wp_modk.
    eapply wp_release; [apply release_held_head|].
    assert (Hin : logged_in x bl = bl ++ [x]) by (unfold logged_in; by rewrite decide_False).
    rewrite Hin in HQ. eapply wp_world_eq; [apply HQ, (mine_pinned _ Hn Hrange eq_refl)|]. clear -R3. destruct k. cbn in R3. by subst.
Qed.
End LogWrite.
End Blocks.
