(* ===== verification/Content.v ===== *)
(** The contents of files: [bmap] and [readi] of kernel/fs.c.

    An inode maps the number of a block of the file to a block of the disk, [baddr]; the bytes
    of the file are the bytes of those blocks in order, [file_bytes]. *)

From S2P Require Export Blocks.

(** * The bytes of a file *)

(** Where block [bn] of a file is, 0 if it has none: one of the direct blocks, or the word of the
    indirect block. *)
Definition indirect (addrs : list Z) : Z := nth (Z.to_nat NDIRECT) addrs 0.
Definition baddr (D : Z -> list Z) (addrs : list Z) (bn : Z) : Z :=
  if bn <? NDIRECT then nth (Z.to_nat bn) addrs 0
  else if indirect addrs =? 0 then 0 else get_word (D (indirect addrs)) (Z.to_nat (bn - NDIRECT)).

Definition is_block (a : Z) : Prop := 0 < a < 2147483648.
(** Block [bn] of the file has been allocated. *)
Definition mapped (D : Z -> list Z) (addrs : list Z) (bn : Z) : Prop :=
  is_block (baddr D addrs bn) /\ (NDIRECT <= bn -> is_block (indirect addrs)).

(** A byte of the file; where there is no block it is 0. *)
Definition file_byte (D : Z -> list Z) (addrs : list Z) (pos : Z) : Z :=
  let a := baddr D addrs (pos / BSIZE) in if a =? 0 then 0 else nth (Z.to_nat (pos mod BSIZE)) (D a) 0.
Definition file_bytes (D : Z -> list Z) (addrs : list Z) (off n : Z) : list Z := file_byte D addrs <$> seqZ off n.

Lemma nth_default (l : list Z) j : nth j l 0 = default 0 (l !! j).
Proof. destruct (l !! j) eqn:E; [by rewrite (nth_lookup_Some _ _ _ _ E)|]. apply nth_overflow. by apply lookup_ge_None. Qed.

Lemma length_file_bytes D addrs off n : length (file_bytes D addrs off n) = Z.to_nat n.
Proof. unfold file_bytes. by rewrite length_fmap, length_seqZ. Qed.

Lemma file_bytes_app D addrs off n m : 0 <= n -> 0 <= m ->
  file_bytes D addrs off (n + m) = file_bytes D addrs off n ++ file_bytes D addrs (off + n) m.
Proof. intros Hn Hm. unfold file_bytes. by rewrite seqZ_app, fmap_app by lia. Qed.

(** The part of a block is the part of the file. *)
Lemma block_bytes D addrs off m : 0 <= off -> 0 <= m -> off mod BSIZE + m <= BSIZE ->
  baddr D addrs (off / BSIZE) <> 0 -> length (D (baddr D addrs (off / BSIZE))) = Z.to_nat BSIZE ->
  get_bytes (Z.to_nat (off mod BSIZE)) (Z.to_nat m) (D (baddr D addrs (off / BSIZE))) = file_bytes D addrs off m.
Proof.
  intros Ho Hm Hle Ha Hlen. change BSIZE with 1024 in *. apply list_eq. intros j. unfold file_bytes.
  rewrite get_bytes_lookup, list_lookup_fmap. case_decide as Hj.
  - rewrite lookup_seqZ_lt by lia. cbn [fmap option_fmap option_map]. unfold file_byte. change BSIZE with 1024.
    assert (Hd : (off + Z.of_nat j) / 1024 = off / 1024) by zlia.
    assert (Hmod : (off + Z.of_nat j) mod 1024 = off mod 1024 + Z.of_nat j) by zlia.
    cbv zeta. rewrite Hd, Hmod, (proj2 (Z.eqb_neq _ 0)) by done. destruct (lookup_lt_is_Some_2 (D (baddr D addrs (off / 1024))) (Z.to_nat (off mod 1024) + j)) as [b Hb].
    { rewrite Hlen. zlia. }
    rewrite Hb. replace (Z.to_nat (off mod 1024 + Z.of_nat j)) with (Z.to_nat (off mod 1024) + j)%nat by zlia.
    by rewrite (nth_lookup_Some _ _ _ _ Hb).
  - by rewrite lookup_seqZ_ge by lia.
Qed.

Section Content.
Context {L : Layout}.
Context (dev : kernel -> kernel) (Hdev : device_ok dev) (me : nat) (pid : Z) (k0 : kernel).
Implicit Types (k : kernel) (bl : list Z) (h : gmap Z nat) (I : list inode) (D : Z -> list Z) (x : Z) (n : nat).
Abbreviation mine := (mine me pid k0).
Abbreviation answers := (disk_works dev me).

Lemma wp_get_inode_mine bl h I D k e i ip (Q : inode -> world -> Prop) : mine bl h I D k -> I !! i = Some ip ->
  Q ip (World k e) -> wp total (get_inode i) Q (World k e).
Proof. intros Hm Hi HQ. apply (wp_get_inode _ _ _ ip); [|done]. cbn. by rewrite (mi_inode _ _ _ _ _ _ _ _ Hm). Qed.

(** The inode and what it maps. *)
Record has_file (I : list inode) (i : nat) (ip : inode) : Prop := HasFile {
  hf_inode : I !! i = Some ip;
  hf_dev : i_dev ip = ROOTDEV;
  hf_addrs : length (i_addrs ip) = 13%nat }.

Lemma nth_addr (l : list Z) (j : Z) : 0 <= j < Z.of_nat (length l) -> l !! Z.to_nat j = Some (nth (Z.to_nat j) l 0).
Proof.
  intros Hj. destruct (lookup_lt_is_Some_2 l (Z.to_nat j)) as [a Ha]; [lia|]. by rewrite Ha, (nth_lookup_Some _ _ _ _ Ha).
Qed.

(** [bmap] of a block that is allocated. *)
Lemma wp_bmap_mapped bl h I D k n i ip bn (Q : Z -> world -> Prop) : mine bl h I D k -> has_file I i ip ->
  0 <= bn < MAXFILE -> mapped D (i_addrs ip) bn -> h !! indirect (i_addrs ip) = None ->
  (size (in_cache bl h) < NBUF)%nat -> (0 < n)%nat ->
  (forall k' n', mine bl h I D k' -> (n <= n' + 1)%nat -> Q (baddr D (i_addrs ip) bn) (World k' (answers n'))) ->
  wp total (bmap i bn) Q (World k (answers n)).
Proof.
  intros Hm [Hi Hd Hl] Hbn [Ha Hind] Hh Hs Hn HQ. unfold is_block in *. unfold bmap.
  kstep. eapply wp_get_inode_mine; [done..|]. unfold baddr in *.
  destruct (Z.ltb_spec bn NDIRECT) as [Hlt|Hge].
  - kstep. eapply wp_arr_get; [lia|apply nth_addr; rewrite Hl; unfold NDIRECT in *; lia|].
    rewrite (proj2 (Z.eqb_neq _ 0)) by lia. apply wp_ret. apply (HQ k n); [done|lia].
  - cbv zeta. rewrite (proj2 (Z.ltb_lt _ NINDIRECT)) by (unfold MAXFILE in *; lia). specialize (Hind Hge).
    kstep. eapply wp_arr_get; [by vm_compute|apply nth_addr; by rewrite Hl|]. fold (indirect (i_addrs ip)).
    rewrite (proj2 (Z.eqb_neq (indirect _) 0)) in * by lia. kstep. apply wp_ret. rewrite (proj2 (Z.eqb_neq (indirect _) 0)) by lia.
    rewrite Hd. kstep. apply (wp_bread_mine me pid k0 dev Hdev bl h I D k n (indirect (i_addrs ip))); [done|done|lia|done|done|].
    intros b k1 n1 Hm1 Hn1. kstep. eapply wp_get_data; [exact Hm1|apply lookup_insert_eq|]. cbv zeta.
    rewrite (proj2 (Z.eqb_neq (get_word _ _) 0)) by lia. kstep. apply wp_ret. kstep.
    eapply wp_brelse_mine; [exact Hm1|apply lookup_insert_eq| |].
    { destruct (decide (indirect (i_addrs ip) ∈ bl)); [by left|right]. by apply (mine_clean me pid k0 bl h I D k). }
    intros k2 Hm2. rewrite delete_insert_id in Hm2 by done. apply wp_ret. by apply (HQ k2 n1).
Qed.

(** ** readi *)

(** The number of blocks from [off] on, of [m] bytes. *)
Definition blocks_left (off m : Z) : nat := if m <=? 0 then 0%nat else Z.to_nat ((off + m - 1) / BSIZE - off / BSIZE + 1).

Lemma blocks_left_step off m j : 0 <= off -> 0 < j -> off mod BSIZE + j <= BSIZE -> j = Z.min m (BSIZE - off mod BSIZE) ->
  blocks_left off m = S (blocks_left (off + j) (m - j)).
Proof.
  intros Ho Hj Hle Hm. unfold blocks_left. change BSIZE with 1024 in *. rewrite (proj2 (Z.leb_gt m 0)) by lia.
  destruct (Z.leb_spec (m - j) 0) as [Hz|Hp].
  - assert (m = j) as -> by lia. assert ((off + j - 1) / 1024 = off / 1024) as -> by zlia. lia.
  - assert (off mod 1024 + j = 1024) by lia. assert ((off + j) / 1024 = off / 1024 + 1) as -> by zlia.
    replace (off + j + (m - j) - 1) with (off + m - 1) by lia.
    assert (off / 1024 + 1 <= (off + m - 1) / 1024) by zlia. lia.
Qed.

Lemma blocks_left_bound off m : 0 <= off -> (blocks_left off m <= Z.to_nat (m / BSIZE) + 2)%nat.
Proof. intros Ho. unfold blocks_left. change BSIZE with 1024. destruct (Z.leb_spec m 0); zlia. Qed.

(** The result of [readi] with [n] bytes asked for. *)
Definition readable (ip : inode) (off n : Z) : Z := Z.min n (i_size ip - off).

Section Readi.
Context (bl : list Z) (I : list inode) (D : Z -> list Z) (i : nat) (ip : inode) (off len : Z).
Context (Hf : has_file I i ip) (Hs : (size (in_cache bl ∅) < NBUF)%nat).
Context (Hsize : 0 <= i_size ip <= MAXFILE * BSIZE).
Context (Hmap : forall bn, 0 <= bn -> bn * BSIZE < i_size ip -> mapped D (i_addrs ip) bn).
Context (Hoff : 0 <= off <= i_size ip) (Hlen : 0 <= len) (Hsum : off + len < 4294967296).

(** One round of the loop: the part of the file that is in one block. *)
Lemma wp_readi_round t dst k n (pos := off + t) (m := Z.min (readable ip off len - t) (BSIZE - pos mod BSIZE))
    (out := file_bytes D (i_addrs ip) off t) (Q : Z * Z * Z * list Z + Z * list Z -> world -> Prop) :
  mine bl ∅ I D k -> 0 <= t < readable ip off len -> (2 <= n)%nat ->
  (forall d k' n', mine bl ∅ I D k' -> (n <= n' + 2)%nat ->
    Q (inl (t + m, u32 (pos + m), d, out ++ file_bytes D (i_addrs ip) pos m)) (World k' (answers n'))) ->
  wp total (addr <- bmap i (pos / BSIZE) ;;
    if addr =? 0 then ret (inr (s32 t, out))
    else
      bp <- bread (i_dev ip) addr ;;
      let m := min (readable ip off len - t) (BSIZE - pos mod BSIZE) in
      d <- get_data bp ;;
      let bs := get_bytes (Z.to_nat (pos mod BSIZE)) (Z.to_nat m) d in
      r <- either_copyout false dst bs ;;
      if r =? -1 then brelse bp ;;; ret (inr (-1, out))
      else brelse bp ;;; ret (inl (t + m, u32 (pos + m), u64 (dst + m), out ++ bs))) Q (World k (answers n)).
Proof.
  intros Hm Ht Hn HQ. change MAXFILE with 268 in *. unfold readable in Ht. change BSIZE with 1024 in *.
  pose proof (Hmap (pos / 1024)) as Hp. change BSIZE with 1024 in Hp. specialize (Hp ltac:(zlia) ltac:(zlia)). pose proof Hp as [Ha _].
  kstep. eapply wp_bmap_mapped; [exact Hm|exact Hf|change MAXFILE with 268; zlia|exact Hp|apply lookup_empty|exact Hs|lia|].
  intros k1 n1 Hm1 Hn1. unfold is_block in Ha. rewrite (proj2 (Z.eqb_neq _ 0)) by lia. rewrite (hf_dev _ _ _ Hf).
  kstep. apply (wp_bread_mine me pid k0 dev Hdev bl ∅ I D k1 n1 _ _ Hm1); [apply lookup_empty|lia|exact Hs|lia|].
  intros b k2 n2 Hm2 Hn2. cbv zeta. kstep. eapply wp_get_data; [exact Hm2|apply lookup_insert_eq|].
  assert (Em : min (readable ip off len - t) (1024 - pos mod 1024) = m) by (unfold min; destruct (Z.ltb_spec (readable ip off len - t) (1024 - pos mod 1024)); lia).
  rewrite Em. pose proof (block_bytes D (i_addrs ip) pos m ltac:(lia)) as Hb. change BSIZE with 1024 in Hb.
  rewrite Hb; [|unfold readable in m; zlia|lia|lia|apply (mi_size _ _ _ _ _ _ _ _ Hm)].
  kstep. unfold either_copyout. kstep. eapply wp_curproc; [apply (rd_cur _ _ _ (ci_ready _ _ _ _ (mi_inv _ _ _ _ _ _ _ _ Hm2)))|].
  apply wp_ret. cbn [Z.eqb]. kstep. eapply wp_brelse_mine; [exact Hm2|apply lookup_insert_eq| |].
  { destruct (decide (baddr D (i_addrs ip) (pos / 1024) ∈ bl)); [by left|right]. apply (mine_clean me pid k0 bl ∅ I D k); [done..|apply lookup_empty]. }
  intros k3 Hm3. rewrite delete_insert_id in Hm3 by apply lookup_empty. apply wp_ret. apply (HQ _ k3 n2); [done|lia].
Qed.

Lemma wp_readi dst k n (Q : Z * list Z -> world -> Prop) : mine bl ∅ I D k ->
  (2 * blocks_left off (readable ip off len) <= n)%nat ->
  (forall k' n', mine bl ∅ I D k' -> (n <= n' + 2 * blocks_left off (readable ip off len))%nat ->
     Q (readable ip off len, file_bytes D (i_addrs ip) off (readable ip off len)) (World k' (answers n'))) ->
  wp total (readi i false dst off len) Q (World k (answers n)).
Proof.
  intros Hm Hn HQ. unfold readi. change MAXFILE with 268 in *. change BSIZE with 1024 in *.
  kstep. eapply wp_get_inode_mine; [exact Hm|apply Hf|].
  rewrite u32_small by lia. rewrite !Z.gtb_ltb, (proj2 (Z.ltb_ge _ _)), (proj2 (Z.ltb_ge _ _)) by lia. cbn [orb]. cbv zeta.
  set (cnt := readable ip off len) in *.
  assert (Ec : (if i_size ip <? off + len then u32 (i_size ip - off) else len) = cnt).
  { unfold cnt, readable. destruct (Z.ltb_spec (i_size ip) (off + len)); rewrite ?u32_small by lia; lia. }
  rewrite Ec. assert (Hc : 0 <= cnt /\ off + cnt <= i_size ip) by (unfold cnt, readable; lia).
  apply (wp_loop_rounds _ (fun r s w => exists t d k1 n1, s = (t, off + t, d, file_bytes D (i_addrs ip) off t) /\
    w = World k1 (answers n1) /\ mine bl ∅ I D k1 /\ 0 <= t <= cnt /\ r = blocks_left (off + t) (cnt - t) /\ (2 * r <= n1)%nat /\
    (n + 2 * r <= n1 + 2 * blocks_left off cnt)%nat)
    _ _ (blocks_left off cnt)).
  - exists 0, dst, k, n. rewrite Z.add_0_r, Z.sub_0_r. split_and!; try done; lia.
  - pose proof (blocks_left_bound off cnt ltac:(lia)) as Hb. change BSIZE with 1024 in Hb. lia.
  - intros r s w (t & d & k1 & n1 & -> & -> & Hm1 & Ht & Hr & Hn1 & Hn2'). destruct (Z.ltb_spec t cnt) as [Hlt|Hge].
    + set (m := Z.min (cnt - t) (BSIZE - (off + t) mod BSIZE)). assert (Hm' : 0 < m) by (unfold m; change BSIZE with 1024; zlia).
      assert (Hmb : (off + t) mod BSIZE + m <= BSIZE) by (unfold m; lia).
      rewrite (blocks_left_step (off + t) (cnt - t) m ltac:(lia) Hm' Hmb eq_refl) in Hr.
      replace (off + t + m) with (off + (t + m)) in Hr by lia. replace (cnt - t - m) with (cnt - (t + m)) in Hr by lia.
      apply (wp_readi_round t d k1 n1); [done|lia|lia|]. intros d' k2 n2 Hm2 Hn2. fold cnt m.
      eexists. split; [|exists (t + m), d', k2, n2; split_and!; [|done|done| |lia|done| |]].
      * rewrite Hr. apply Nat.lt_succ_diag_r.
      * rewrite u32_small by lia. rewrite <- file_bytes_app by lia. by rewrite Z.add_assoc.
      * f_equal; lia.
      * lia.
      * lia.
    + assert (t = cnt) as -> by lia. apply wp_ret. rewrite s32_small by lia. apply (HQ k1 n1); [done|lia].
Qed.
End Readi.
End Content.
