(* ===== verification/Alloc.v ===== *)
(** Allocating blocks: [bzero] and [balloc] of kernel/fs.c for a transaction with room, on a disk
    with free blocks.

    [used_bit D sb b] is the bit of block [b] in the bitmap.  [balloc] takes the first block whose
    bit is clear, sets the bit and zeroes the block: [alloc D sb b]. *)

From S2P Require Export Content.

(** * The bitmap *)

Definition used_bit (D : Z -> list Z) (sb : superblock) (b : Z) : bool :=
  Z.testbit (nth (Z.to_nat (b mod BPB / 8)) (D (BBLOCK b sb)) 0) (b mod 8).
Definition set_bit (b : Z) (d : list Z) : list Z :=
  <[Z.to_nat (b mod BPB / 8) := u8 (Z.lor (nth (Z.to_nat (b mod BPB / 8)) d 0) (Z.shiftl 1 (b mod 8)))]> d.
Definition zero_block : list Z := replicate (Z.to_nat BSIZE) 0.

(** The contents of the disk after block [b] has been allocated. *)
Definition alloc (D : Z -> list Z) (sb : superblock) (b : Z) : Z -> list Z :=
  upd_blk (upd_blk D (BBLOCK b sb) (set_bit b (D (BBLOCK b sb)))) b zero_block.

(** The block [balloc] takes. *)
Definition first_free (D : Z -> list Z) (sb : superblock) (b : Z) : Prop :=
  0 <= b < sb_size sb /\ used_bit D sb b = false /\ forall b', 0 <= b' < b -> used_bit D sb b' = true.

Lemma land_bit x j : 0 <= j -> (Z.land x (Z.shiftl 1 j) =? 0) = negb (Z.testbit x j).
Proof.
  intros Hj. rewrite Z.shiftl_1_l. destruct (Z.testbit x j) eqn:E.
  - apply Z.eqb_neq. intros H0. pose proof (f_equal (fun z => Z.testbit z j) H0) as Hb. cbv beta in Hb.
    by rewrite Z.land_spec, E, Z.pow2_bits_true, Z.bits_0 in Hb by lia.
  - apply Z.eqb_eq, Z.bits_inj'. intros m Hm. rewrite Z.land_spec, Z.bits_0, Z.pow2_bits_eqb by lia.
    destruct (Z.eqb_spec j m) as [<-|]; [by rewrite E|by rewrite andb_false_r].
Qed.

Lemma set_bit_bit b d b' : (0 <= b mod BPB / 8 < Z.of_nat (length d)) ->
  Z.testbit (nth (Z.to_nat (b' mod BPB / 8)) (set_bit b d) 0) (b' mod 8) =
  (b mod BPB =? b' mod BPB) || Z.testbit (nth (Z.to_nat (b' mod BPB / 8)) d 0) (b' mod 8).
Proof.
  intros Hb. change BPB with 8192 in *. unfold set_bit. change BPB with 8192.
  rewrite (nth_default (<[_:=_]> d)), (nth_default d (Z.to_nat (b' mod 8192 / 8))).
  destruct (decide (b mod 8192 / 8 = b' mod 8192 / 8)) as [E|E].
  - rewrite <- E. rewrite list_lookup_insert_eq by lia. cbn [default]. unfold id, u8. change 256 with (2 ^ 8).
    rewrite Z.mod_pow2_bits_low, Z.lor_spec, Z.shiftl_1_l, Z.pow2_bits_eqb, orb_comm, nth_default by zlia. f_equal.
    destruct (Z.eqb_spec (b mod 8192) (b' mod 8192)); [apply Z.eqb_eq; zlia|apply Z.eqb_neq; zlia].
  - rewrite list_lookup_insert_ne by zlia. rewrite (proj2 (Z.eqb_neq _ _)) by congruence. done.
Qed.

Lemma length_set_bit b d : length (set_bit b d) = length d.
Proof. apply length_insert. Qed.
Lemma length_zero_block : length zero_block = Z.to_nat BSIZE.
Proof. apply length_replicate. Qed.

(** Allocating a block sets its bit and no other. *)
Lemma used_alloc D sb b b' : (forall x, length (D x) = Z.to_nat BSIZE) -> 0 <= b -> 0 <= b' ->
  BBLOCK b' sb <> b -> (BBLOCK b sb = BBLOCK b' sb -> b / BPB = b' / BPB) ->
  used_bit (alloc D sb b) sb b' = (b =? b') || used_bit D sb b'.
Proof.
  intros Hlen Hb Hb' Hne Hinj. unfold used_bit, alloc. rewrite upd_blk_ne by done.
  change (Z.to_nat BSIZE) with 1024%nat in Hlen. unfold upd_blk.
  destruct (Z.eqb_spec (BBLOCK b' sb) (BBLOCK b sb)) as [E|E].
  - rewrite set_bit_bit by (rewrite Hlen; change BPB with 8192; zlia). rewrite E. f_equal.
    pose proof (Hinj (eq_sym E)) as Hd. change BPB with 8192 in *.
    destruct (Z.eqb_spec b b') as [->|]; [apply Z.eqb_refl|]. apply Z.eqb_neq. zlia.
  - destruct (Z.eqb_spec b b') as [->|]; [done|done].
Qed.

Section Alloc.
Context {L : Layout}.
Context (me : nat) (pid : Z) (k0 : kernel) (dev : kernel -> kernel) (Hdev : device_ok dev).
Implicit Types (k : kernel) (bl : list Z) (h : gmap Z nat) (I : list inode) (D : Z -> list Z) (x b : Z) (n : nat).
Abbreviation mine := (mine me pid k0).
Abbreviation answers := (disk_works dev me).
Abbreviation sb0 := (k_sb k0).

(** The log and the cache have room for [c] more blocks. *)
Record space (c : nat) bl h : Prop := Space {
  sp_tx : open_tx k0 c bl;
  sp_cache : (length bl + size h + c <= NBUF)%nat }.

(** A block the file system may write: not in the log's own blocks. *)
Definition writable (x : Z) : Prop := 0 <= x < 2147483648 /\ home (lg_start (k_log k0)) x.

Lemma in_cache_size bl h : (size (in_cache bl h) <= length bl + size h)%nat.
Proof.
  unfold in_cache. pose proof (size_union_alt (list_to_set bl : gset Z) (dom h)) as H.
  assert (H1 : (size (list_to_set bl : gset Z) <= length bl)%nat).
  { clear. induction bl as [|b bl IH]; [done|]. rewrite list_to_set_cons. cbn [length].
    rewrite size_union_alt, size_singleton.
    assert (size ((list_to_set bl : gset Z) ∖ {[b]}) <= size (list_to_set bl : gset Z))%nat by (apply subseteq_size; set_solver). lia. }
  assert (H2 : (size (dom h ∖ list_to_set bl) <= size h)%nat).
  { rewrite <- size_dom. apply subseteq_size. set_solver. }
  lia.
Qed.

Lemma length_logged_in x bl : (length (logged_in x bl) <= length bl + 1)%nat.
Proof. unfold logged_in. case_decide; rewrite ?length_app; cbn [length]; lia. Qed.

Lemma space_logged c x bl h : space (S c) bl h -> space c (logged_in x bl) h.
Proof.
  intros [[H1 [H2 H3]] H4]. pose proof (length_logged_in x bl).
  split; [split; [done|split]|]; lia.
Qed.
Lemma space_fewer c c' bl h : space c bl h -> (c' <= c)%nat -> space c' bl h.
Proof. intros [[H1 [H2 H3]] H4] Hc. split; [split; [done|split]|]; lia. Qed.
Lemma space_cache c bl h : space (S c) bl h -> (size (in_cache bl h) < NBUF)%nat.
Proof. intros [_ Hc]. pose proof (in_cache_size bl h). lia. Qed.
(** One more block is held. *)
Lemma space_held c bl h x i : space (S c) bl h -> space c bl (<[x := i]> h).
Proof.
  intros [[H1 [H2 H3]] H4]. split; [split; [done|split]; lia|].
  rewrite map_size_insert. destruct (h !! x); cbn; unfold id; lia.
Qed.

(** A change to a block that is read, logged and released. *)
Lemma wp_bzero bl h I D k n x (Q : unit -> world -> Prop) : mine bl h I D k -> h !! x = None -> writable x ->
  space 1 bl h -> (0 < n)%nat ->
  (forall k' n', mine (logged_in x bl) h I (upd_blk D x zero_block) k' -> (n <= n' + 1)%nat -> Q tt (World k' (answers n'))) ->
  wp total (bzero ROOTDEV x) Q (World k (answers n)).
Proof.
  intros Hm Hx [Hr Hh] Hs Hn HQ. unfold bzero. change (u32 ROOTDEV) with ROOTDEV. rewrite u32_small by lia.
  kstep. apply (wp_bread_mine me pid k0 dev Hdev bl h I D k n x); [done|done|lia|by eapply space_cache|done|].
  intros i k1 n1 Hm1 Hn1. kstep. eapply wp_upd_mine; [exact Hm1|apply lookup_insert_eq|apply length_zero_block|]. intros k2 Hm2.
  kstep. eapply wp_log_write; [exact Hm2|apply lookup_insert_eq|apply Hs|exact Hh|]. intros k3 Hm3.
  eapply wp_brelse_mine; [exact Hm3|apply lookup_insert_eq|left; apply elem_of_logged_in; by right|].
  intros k4 Hm4. rewrite delete_insert_id in Hm4 by done. by apply (HQ k4 n1).
Qed.

(** What [balloc] needs of the superblock and of the block it takes. *)
Record bitmap_ok (h : gmap Z nat) (b : Z) : Prop := BitmapOk {
  bm_size : sb_size sb0 < 2147483648 - BPB;
  bm_map : forall b', 0 <= b' <= b -> writable (BBLOCK b' sb0) /\ h !! BBLOCK b' sb0 = None;
  bm_block : writable b /\ h !! b = None }.

Lemma mine_sb bl h I D k : mine bl h I D k -> k_sb k = sb0.
Proof. intros Hm. by rewrite (proj2 (mi_rest _ _ _ _ _ _ _ _ Hm)). Qed.

(** The scan of one bitmap block. *)
Section Scan.
Context (bl : list Z) (h : gmap Z nat) (I : list inode) (D : Z -> list Z) (k : kernel) (n : nat) (b : Z) (bp : nat).
Let bm := BBLOCK b sb0.
Context (Hm : mine bl (<[bm := bp]> h) I D k) (Hbm : h !! bm = None) (Hw : writable bm) (Hs : space 2 bl h).
Context (Hb : 0 <= b < sb_size sb0) (Hmod : b mod BPB = 0) (Hn : (0 < n)%nat).

Lemma scan_bit t : 0 <= t < BPB -> BBLOCK (b + t) sb0 = bm /\
  used_bit D sb0 (b + t) = Z.testbit (nth (Z.to_nat (t / 8)) (D bm) 0) (t mod 8) /\
  set_bit (b + t) (D bm) = <[Z.to_nat (t / 8) := u8 (Z.lor (nth (Z.to_nat (t / 8)) (D bm) 0) (Z.shiftl 1 (t mod 8)))]> (D bm).
Proof.
  intros Ht. change BPB with 8192 in *.
  assert (E1 : BBLOCK (b + t) sb0 = bm) by (unfold bm, BBLOCK; do 2 f_equal; change BPB with 8192; zlia).
  unfold used_bit, set_bit. rewrite E1. change BPB with 8192.
  replace ((b + t) mod 8192) with t by zlia. replace ((b + t) mod 8) with (t mod 8) by zlia. done.
Qed.

Lemma wp_balloc_in (Q : option Z -> world -> Prop) :
  (forall b0, b <= b0 < sb_size sb0 -> used_bit D sb0 b0 = false -> (forall b', b <= b' < b0 -> used_bit D sb0 b' = true) ->
    writable b0 /\ h !! b0 = None) ->
  ((forall b', b <= b' < Z.min (b + BPB) (sb_size sb0) -> used_bit D sb0 b' = true) -> Q None (World k (answers n))) ->
  (forall b0 k' n', b <= b0 < sb_size sb0 -> BBLOCK b0 sb0 = bm -> used_bit D sb0 b0 = false ->
    (forall b', b <= b' < b0 -> used_bit D sb0 b' = true) -> mine (logged_in b0 (logged_in bm bl)) h I (alloc D sb0 b0) k' ->
    (n <= n' + 1)%nat -> Q (Some b0) (World k' (answers n'))) ->
  wp total (balloc_in ROOTDEV b bp) Q (World k (answers n)).
Proof.
  intros Hfree Hno Hyes. unfold balloc_in. kstep. apply wp_getk. cbn [w_k]. rewrite (mine_sb _ _ _ _ _ Hm).
  assert (Emin : min BPB (sb_size sb0 - b) = Z.min BPB (sb_size sb0 - b)) by (unfold min; destruct (Z.ltb_spec BPB (sb_size sb0 - b)); lia).
  rewrite Emin. set (N := Z.to_nat (Z.min BPB (sb_size sb0 - b))). unfold rounds. fold N.
  apply (wp_for_ret _ (fun xs w' => w' = World k (answers n) /\ exists t, (t <= N)%nat /\
    xs = Z.of_nat <$> seq t (N - t) /\ forall b', b <= b' < b + Z.of_nat t -> used_bit D sb0 b' = true)).
  - split; [done|]. exists 0%nat. rewrite Nat.sub_0_r. split_and!; [lia|done|lia].
  - intros z xs w' (-> & t & Ht & Hxs & Hused). destruct (decide (t = N)) as [->|Hne]; [by rewrite Nat.sub_diag in Hxs|].
    replace (N - t)%nat with (S (N - S t)) in Hxs by lia. injection Hxs as -> ->.
    assert (HtB : 0 <= Z.of_nat t < BPB) by lia. destruct (scan_bit _ HtB) as (Ebm & Ebit & Eset).
    pose proof (mi_size _ _ _ _ _ _ _ _ Hm bm) as Hlen. change (Z.to_nat BSIZE) with 1024%nat in Hlen. change BPB with 8192 in *.
    cbv zeta. kstep. eapply wp_get_data; [exact Hm|apply lookup_insert_eq|]. kstep.
    eapply wp_arr_get; [zlia|apply nth_addr; zlia|]. rewrite land_bit by zlia. rewrite <- Ebit.
    destruct (used_bit D sb0 (b + Z.of_nat t)) eqn:Eu; cbn [negb].
    + apply wp_ret. split; [done|]. exists (S t). split_and!; [lia|done|]. intros b' Hb'.
      destruct (decide (b' = b + Z.of_nat t)) as [->|]; [done|]. apply Hused. lia.
    + destruct (Hfree (b + Z.of_nat t)) as [Hwf Hhf]; [lia|done|intros b' Hb'; apply Hused; lia|].
      kstep. eapply wp_upd_mine; [exact Hm|apply lookup_insert_eq|by rewrite length_insert; apply (mi_size _ _ _ _ _ _ _ _ Hm)|].
      intros k1 Hm1. kstep. eapply wp_log_write; [exact Hm1|apply lookup_insert_eq|eapply space_fewer; [exact Hs|lia]|apply Hw|].
      intros k2 Hm2. kstep. eapply wp_brelse_mine; [exact Hm2|apply lookup_insert_eq|left; apply elem_of_logged_in; by right|].
      intros k3 Hm3. rewrite delete_insert_id in Hm3 by done. kstep.
      eapply wp_bzero; [exact Hm3|done|done|by apply space_logged|done|]. intros k4 n4 Hm4 Hn4. apply wp_ret.
      apply (Hyes _ k4 n4); [lia|done|done|intros b' Hb'; apply Hused; lia| |done].
      eapply mine_data; [exact Hm4|]. intros y. unfold alloc. by rewrite Ebm, Eset.
  - intros w' (-> & t & Ht & Hxs & Hused). apply Hno. apply (f_equal length) in Hxs. rewrite length_fmap, length_seq in Hxs.
    cbn in Hxs. intros b' Hb'. apply Hused. lia.
Qed.
End Scan.

Lemma wp_balloc bl h I D k n b (Q : Z -> world -> Prop) : mine bl h I D k -> first_free D sb0 b -> bitmap_ok h b ->
  space 2 bl h -> (Z.to_nat (b / BPB) + 2 <= n)%nat ->
  (forall k' n', mine (logged_in b (logged_in (BBLOCK b sb0) bl)) h I (alloc D sb0 b) k' ->
    (n <= n' + Z.to_nat (b / BPB) + 2)%nat -> Q b (World k' (answers n'))) ->
  wp total (balloc ROOTDEV) Q (World k (answers n)).
Proof.
  intros Hm [Hb [Hfree Hused]] [Hsz Hmap [Hwb Hhb]] Hs Hn HQ. unfold balloc. kstep. apply wp_getk. cbn [w_k].
  rewrite (mine_sb _ _ _ _ _ Hm). kstep. change BPB with 8192 in *.
  apply (wp_loop_rounds _ (fun r c w => exists k1 n1, w = World k1 (answers n1) /\ mine bl h I D k1 /\ c mod 8192 = 0 /\
    0 <= c <= b /\ r = Z.to_nat (b / 8192 - c / 8192) /\ (r + 2 <= n1)%nat /\ (n <= n1 + Z.to_nat (c / 8192))%nat)
    _ _ (Z.to_nat (b / 8192))).
  - exists k, n. rewrite Z.sub_0_r. split_and!; try done; lia.
  - zlia.
  - intros r c w (k1 & n1 & -> & Hm1 & Hc & Hcb & Hr & Hn1 & Hnn). kstep. apply wp_getk. cbn [w_k].
    rewrite (mine_sb _ _ _ _ _ Hm1), (proj2 (Z.ltb_lt _ _)) by lia.
    destruct (Hmap c) as [[Hwr Hwh] Hhc]; [lia|].
    kstep. apply (wp_bread_mine me pid k0 dev Hdev bl h I D k1 n1 _ _ Hm1); [done|lia|by eapply space_cache|lia|].
    intros bp k2 n2 Hm2 Hn2.
    assert (Hfirst : forall b1, c <= b1 < sb_size sb0 -> used_bit D sb0 b1 = false ->
      (forall b', c <= b' < b1 -> used_bit D sb0 b' = true) -> b1 = b).
    { intros b1 Hb1 Hf1 Hu1. destruct (Z.lt_trichotomy b1 b) as [Hlt|[->|Hgt]]; [|done|].
      - rewrite Hused in Hf1 by lia. done.
      - rewrite Hu1 in Hfree by lia. done. }
    kstep. apply (wp_balloc_in bl h I D k2 n2 c bp Hm2); [exact Hhc|by split|exact Hs|lia|exact Hc|lia| | |].
    + intros b1 Hb1 Hf1 Hu1. by rewrite (Hfirst b1 Hb1 Hf1 Hu1).
    + intros Hall. change BPB with 8192 in Hall.
      assert (Hcb' : c + 8192 <= b).
      { destruct (decide (b < Z.min (c + 8192) (sb_size sb0))) as [Hl|Hg]; [rewrite Hall in Hfree by lia; done|lia]. }
      kstep. eapply wp_brelse_mine; [exact Hm2|apply lookup_insert_eq| |].
      { destruct (decide (BBLOCK c sb0 ∈ bl)); [by left|right]. by apply (mine_clean me pid k0 bl h I D k1). }
      intros k3 Hm3. rewrite delete_insert_id in Hm3 by done. kstep. apply wp_int_op; [lia|]. apply wp_ret.
      assert (Hdiv : (c + 8192) / 8192 = c / 8192 + 1) by zlia.
      exists (Z.to_nat (b / 8192 - (c + 8192) / 8192)). split; [rewrite Hr, Hdiv; zlia|].
      exists k3, n2. split_and!; [done|done|zlia|lia|lia|done|rewrite Hdiv; zlia|rewrite Hdiv; zlia].
    + intros b1 k3 n3 Hb1 Ebm Hf1 Hu1 Hm3 Hn3. pose proof (Hfirst b1 Hb1 Hf1 Hu1) as ->. apply wp_ret, wp_ret.
      rewrite <- Ebm in Hm3. apply (HQ k3 n3 Hm3). zlia.
Qed.
End Alloc.
