(* ===== verification/Grow.v ===== *)
(** Growing a file: what [bmap] does to the file system when the block asked for is not there.

    [bitmap_wf] and [file_ok] are the invariants: of the bitmap, and of a file whose blocks are all
    its own.  [grown] relates the file system before and after: the file has the same bytes - a
    block that is new holds zeros, which is what a hole reads as - and everything that was allocated is as it
    was. *)

From S2P Require Export Alloc.

Lemma filter_ext_in {A} (P P' : A -> Prop) `{!forall x, Decision (P x)} `{!forall x, Decision (P' x)} (l : list A) :
  (forall x, x ∈ l -> P x <-> P' x) -> filter P l = filter P' l.
Proof.
  induction l as [|a l IH]; intros HP; [done|]. rewrite !filter_cons. pose proof (HP a (list_elem_of_here _ _)) as Ha.
  rewrite IH by (intros x Hx; apply HP; by right). repeat case_decide; tauto.
Qed.

Lemma zero_nth j : nth j zero_block 0 = 0.
Proof. unfold zero_block. generalize (Z.to_nat BSIZE) as n. intros n. revert j. by induction n as [|n IH]; intros [|j]; cbn. Qed.

Section Abstract.
Context (k0 : kernel).
Abbreviation sb0 := (k_sb k0).
Implicit Types (D : Z -> list Z) (addrs : list Z) (b x : Z).

Definition in_disk b : Prop := 0 <= b < sb_size sb0.
Definition is_bitmap x : Prop := exists b, in_disk b /\ BBLOCK b sb0 = x.

Record bitmap_wf D : Prop := BitmapWf {
  bw_len : forall x, length (D x) = Z.to_nat BSIZE;
  bw_size : sb_size sb0 < 2147483648 - BPB;
  bw_start : 0 <= sb_bmapstart sb0 < 2147483648;
  bw_map : forall b, in_disk b -> writable k0 (BBLOCK b sb0) /\ in_disk (BBLOCK b sb0) /\ used_bit D sb0 (BBLOCK b sb0) = true;
  bw_free : forall b, in_disk b -> used_bit D sb0 b = false -> writable k0 b /\ 0 < b }.

(** An allocated block that is not the bitmap's. *)
Definition own D x : Prop := 0 < x /\ in_disk x /\ used_bit D sb0 x = true /\ ~ is_bitmap x /\ writable k0 x.

Definition free_blocks D : list Z := filter (fun b => used_bit D sb0 b = false) (seqZ 0 (sb_size sb0)).

Lemma first_free_blocks D b fl : free_blocks D = b :: fl -> first_free D sb0 b.
Proof.
  unfold free_blocks. intros Hf. assert (Hin : b ∈ b :: fl) by by left.
  rewrite <- Hf in Hin. apply list_elem_of_filter in Hin as [Hu Hb%elem_of_seqZ]. split; [lia|]. split; [done|].
  intros b' Hb'. destruct (used_bit D sb0 b') eqn:E; [done|]. exfalso.
  assert (Hs : seqZ 0 (sb_size sb0) = seqZ 0 b ++ seqZ b (sb_size sb0 - b)).
  { rewrite <- (Z.add_0_l b) at 2. rewrite <- seqZ_app by lia. f_equal. lia. }
  rewrite Hs, filter_app in Hf.
  assert (Hb2 : b' ∈ filter (fun b => used_bit D sb0 b = false) (seqZ 0 b)) by (apply list_elem_of_filter; split; [done|apply elem_of_seqZ; lia]).
  destruct (filter _ (seqZ 0 b)) as [|c l] eqn:Ec; [by apply not_elem_of_nil in Hb2|]. injection Hf as -> _.
  assert (Hc : b ∈ filter (fun b => used_bit D sb0 b = false) (seqZ 0 b)) by (rewrite Ec; by left).
  apply list_elem_of_filter in Hc as [_ Hc%elem_of_seqZ]. lia.
Qed.

Section Step.
Context (D : Z -> list Z) (b : Z) (fl : list Z) (Hwf : bitmap_wf D) (Hfl : free_blocks D = b :: fl).
Let D' := alloc D sb0 b.

Lemma free_facts : in_disk b /\ used_bit D sb0 b = false /\ writable k0 b /\ 0 < b /\ ~ is_bitmap b.
Proof.
  destruct (first_free_blocks D b fl Hfl) as (Hb & Hu & _). destruct (bw_free _ Hwf b Hb Hu) as [Hw H0].
  split_and!; [exact Hb|done|done|done|]. intros (c & Hc & E). destruct (bw_map _ Hwf c Hc) as (_ & _ & Hm). congruence.
Qed.

Lemma BBLOCK_eq c : in_disk c -> BBLOCK c sb0 = c / BPB + sb_bmapstart sb0.
Proof.
  intros Hc. unfold BBLOCK. pose proof (bw_start _ Hwf). pose proof (bw_size _ Hwf). unfold in_disk in Hc. change BPB with 8192 in *.
  apply u32_small. zlia.
Qed.

Lemma alloc_used x : in_disk x -> used_bit D' sb0 x = (b =? x) || used_bit D sb0 x.
Proof.
  intros Hx. destruct free_facts as (Hb & _ & _ & _ & Hnb). unfold in_disk in *. apply used_alloc; [apply Hwf|lia|lia| |].
  - intros E. apply Hnb. by exists x.
  - rewrite !BBLOCK_eq by done. lia.
Qed.

Lemma own_ne x : own D x -> x <> b.
Proof. intros (_ & _ & Hu & _) ->. destruct free_facts as (_ & Hf & _). congruence. Qed.

Lemma alloc_own x : own D x -> own D' x /\ D' x = D x.
Proof.
  intros Ho. pose proof (own_ne x Ho) as Hne. destruct Ho as (H0 & Hx & Hu & Hn & Hw). split.
  - split_and!; [done|exact Hx| |done|exact Hw]. rewrite alloc_used, Hu by done. apply orb_true_r.
  - unfold D', alloc. rewrite !upd_blk_ne; [done| |done]. intros ->. apply Hn. exists b. split; [apply free_facts|done].
Qed.

Lemma alloc_new : own D' b /\ D' b = zero_block.
Proof.
  destruct free_facts as (Hb & _ & Hw & H0 & Hn). split.
  - split_and!; [done|exact Hb| |done|exact Hw]. by rewrite alloc_used, Z.eqb_refl by done.
  - unfold D', alloc. apply upd_blk_eq.
Qed.

Lemma alloc_wf : bitmap_wf D'.
Proof.
  pose proof Hwf as [H1 H2 H3 H4 H5]. split; [|done|done| |].
  - intros x. unfold D', alloc, upd_blk. destruct (x =? b); [apply length_zero_block|].
    destruct (x =? BBLOCK b sb0); [by rewrite length_set_bit|done].
  - intros c Hc. destruct (H4 c Hc) as (W & I & U). split_and!; [exact W|exact I|].
    rewrite alloc_used, U by done. apply orb_true_r.
  - intros c Hc Hu. rewrite alloc_used in Hu by done. apply orb_false_iff in Hu as [_ Hu]. by apply H5.
Qed.

Lemma alloc_free : free_blocks D' = fl.
Proof.
  pose proof Hfl as Hf. unfold free_blocks in *. assert (Hnd : NoDup (b :: fl)) by (rewrite <- Hf; apply NoDup_filter, NoDup_seqZ).
  apply NoDup_cons in Hnd as [Hb _].
  assert (E : filter (fun c => used_bit D' sb0 c = false) (seqZ 0 (sb_size sb0)) =
    filter (fun c => c <> b) (filter (fun c => used_bit D sb0 c = false) (seqZ 0 (sb_size sb0)))).
  { rewrite list_filter_filter. apply filter_ext_in. intros c Hc%elem_of_seqZ.
    rewrite alloc_used by (unfold in_disk; lia). rewrite orb_false_iff, Z.eqb_neq. naive_solver. }
  rewrite E, Hf, filter_cons, decide_False by naive_solver. clear -Hb.
  induction fl as [|c l IH]; [done|]. rewrite filter_cons, decide_True by (intros ->; apply Hb; by left).
  f_equal. apply IH. intros H. apply Hb. by right.
Qed.
End Step.

(** Writing a block that is not the bitmap's leaves the bitmap alone. *)
Section Update.
Context (D : Z -> list Z) (x : Z) (v : list Z) (Hx : ~ is_bitmap x) (Hv : length v = Z.to_nat BSIZE).

Lemma upd_used c : in_disk c -> used_bit (upd_blk D x v) sb0 c = used_bit D sb0 c.
Proof. intros Hc. unfold used_bit. rewrite upd_blk_ne; [done|]. intros E. apply Hx. by exists c. Qed.

Lemma upd_own y : own (upd_blk D x v) y <-> own D y.
Proof.
  unfold own. split; intros (H0 & Hd & Hu & Hr); (split; [done|]); (split; [done|]).
  - by rewrite upd_used in Hu.
  - by rewrite upd_used.
Qed.

Lemma upd_wf : bitmap_wf D -> bitmap_wf (upd_blk D x v).
Proof.
  intros [W1 W2 W3 W4 W5]. split; [|done|done| |].
  - intros y. unfold upd_blk. by destruct (y =? x).
  - intros c Hc. destruct (W4 c Hc) as (A & B & C). by rewrite upd_used.
  - intros c Hc. rewrite upd_used by done. by apply W5.
Qed.

Lemma upd_free : free_blocks (upd_blk D x v) = free_blocks D.
Proof. apply filter_ext_in. intros c Hc%elem_of_seqZ. by rewrite upd_used by (unfold in_disk; lia). Qed.
End Update.

(** ** A file *)

Definition in_file (bn : Z) : Prop := 0 <= bn < MAXFILE.
Lemma in_file_pos pos : 0 <= pos < MAXFILE * BSIZE -> in_file (pos / BSIZE).
Proof. unfold in_file. change BSIZE with 1024. change MAXFILE with 268. intros Hp. zlia. Qed.

Record file_ok D addrs : Prop := FileOk {
  fo_len : length addrs = 13%nat;
  fo_blk : forall bn, in_file bn -> baddr D addrs bn = 0 \/ own D (baddr D addrs bn);
  fo_ind : indirect addrs = 0 \/ own D (indirect addrs);
  fo_inj : forall bn bn', in_file bn -> in_file bn' -> baddr D addrs bn <> 0 -> baddr D addrs bn = baddr D addrs bn' -> bn = bn';
  fo_sep : forall bn, in_file bn -> indirect addrs <> 0 -> baddr D addrs bn <> indirect addrs }.

Record grown D addrs D' addrs' : Prop := Grown {
  gr_wf : bitmap_wf D';
  gr_ok : file_ok D' addrs';
  gr_bytes : forall pos, 0 <= pos < MAXFILE * BSIZE -> file_byte D' addrs' pos = file_byte D addrs pos;
  gr_others : forall x, own D x -> own D' x /\ (x <> indirect addrs -> D' x = D x);
  gr_ind : indirect addrs' = indirect addrs \/ ~ own D (indirect addrs');
  gr_kept : forall bn, in_file bn -> baddr D addrs bn <> 0 -> baddr D' addrs' bn = baddr D addrs bn;
  gr_new : forall bn, in_file bn -> baddr D' addrs' bn = baddr D addrs bn \/ ~ own D (baddr D' addrs' bn);
  gr_ind_kept : indirect addrs <> 0 -> indirect addrs' = indirect addrs }.

Lemma grown_refl D addrs : bitmap_wf D -> file_ok D addrs -> grown D addrs D addrs.
Proof. intros Hw Hf. split; try done; by left. Qed.

Lemma grown_trans D addrs D1 addrs1 D2 addrs2 : grown D addrs D1 addrs1 -> grown D1 addrs1 D2 addrs2 -> grown D addrs D2 addrs2.
Proof.
  intros [A1 A2 A3 A4 A5 A6 A7 A8] [B1 B2 B3 B4 B5 B6 B7 B8]. split; [done|done| | | | | |].
  - intros pos Hp. by rewrite B3, A3.
  - intros x Hx. destruct (A4 x Hx) as [Hx1 E1]. destruct (B4 x Hx1) as [Hx2 E2]. split; [done|]. intros Hn.
    rewrite E2, E1; [done|done|]. intros ->. destruct A5 as [A5|A5]; [by rewrite A5 in Hn|done].
  - destruct B5 as [-> |B5]; [done|]. right. intros Ho. by apply B5, A4.
  - intros bn Hb Hn. rewrite B6; [by apply A6|done|]. by rewrite A6.
  - intros bn Hb. destruct (B7 bn Hb) as [-> |Hn]; [by apply A7|]. right. intros Ho. by apply Hn, A4.
  - intros Hn. rewrite B8; [by apply A8|]. by rewrite A8.
Qed.

(** A new block [b] in the place of block [nb] of the file, or, when that is none, for the indirect block. *)
Lemma grown_intro D addrs D' addrs' b (nb : option Z) : file_ok D addrs -> length addrs' = 13%nat -> bitmap_wf D' ->
  ~ own D b -> own D' b -> D' b = zero_block -> (forall x, own D x -> own D' x /\ (x <> indirect addrs -> D' x = D x)) ->
  (forall bn, in_file bn -> baddr D' addrs' bn = if decide (nb = Some bn) then b else baddr D addrs bn) ->
  (forall bn, nb = Some bn -> baddr D addrs bn = 0) ->
  (indirect addrs' = indirect addrs \/ indirect addrs = 0 /\ indirect addrs' = b /\ nb = None) ->
  grown D addrs D' addrs'.
Proof.
  intros Hf Hl Hwf Hnb Hob Hz Hoth Hba Hnew Hind. pose proof Hf as [_ F2 F3 F4 F5]. assert (Hb0 : 0 < b) by apply Hob.
  assert (Hsep : forall bn, in_file bn -> baddr D addrs bn <> b).
  { intros bn Hbn E. destruct (F2 bn Hbn) as [H0|H0]; [lia|]. by rewrite E in H0. }
  split; [done|split; [done| | | |]| |done| | | |].
  - intros bn Hbn. rewrite Hba by done. case_decide; [by right|]. destruct (F2 bn Hbn) as [->|Ho]; [by left|right; by apply Hoth].
  - destruct Hind as [->|(_ & -> & _)]; [|by right]. destruct F3 as [->|Ho]; [by left|right; by apply Hoth].
  - intros bn bn' Hbn Hbn'. rewrite !Hba by done. repeat case_decide; [congruence| | |by apply F4]; intros _ E.
    + by destruct (Hsep bn' Hbn').
    + by destruct (Hsep bn Hbn).
  - intros bn Hbn Hi. rewrite Hba by done. destruct Hind as [E|(_ & E & ->)]; rewrite E in *.
    + case_decide; [|by apply F5]. intros ->. by destruct F3.
    + rewrite decide_False by done. by apply Hsep.
  - intros pos Hp. pose proof (in_file_pos pos Hp) as Hbn.
    unfold file_byte. rewrite Hba by done. case_decide as E.
    + rewrite (Hnew _ E), Hz, (proj2 (Z.eqb_neq b 0)) by lia. cbn [Z.eqb]. apply zero_nth.
    + destruct (Z.eqb_spec (baddr D addrs (pos / BSIZE)) 0) as [|Hn]; [done|]. destruct (F2 _ Hbn) as [|Ho]; [done|].
      destruct (Hoth _ Ho) as [_ HD]. rewrite HD; [done|]. destruct (decide (indirect addrs = 0)) as [E0|E0]; [by rewrite E0|by apply F5].
  - destruct Hind as [E|(_ & -> & _)]; [by left|by right].
  - intros bn Hbn Hn. rewrite Hba by done. case_decide as E; [|done]. by rewrite (Hnew _ E) in Hn.
  - intros bn Hbn. rewrite Hba by done. case_decide; [by right|by left].
  - intros Hn. by destruct Hind as [E|(E & _)].
Qed.

(** ** The three ways a file grows *)

Section Ways.
Context (D : Z -> list Z) (addrs : list Z) (b : Z) (fl : list Z).
Context (Hwf : bitmap_wf D) (Hf : file_ok D addrs) (Hfl : free_blocks D = b :: fl).

Lemma free_not_own : ~ own D b.
Proof. intros Ho. by apply (own_ne D b fl Hwf Hfl b Ho). Qed.

Lemma alloc_ind : indirect addrs <> 0 -> alloc D sb0 b (indirect addrs) = D (indirect addrs).
Proof. intros Hn. destruct (fo_ind _ _ Hf) as [|Ho]; [done|]. by apply (alloc_own D b fl Hwf Hfl). Qed.

Lemma nth_insert (l : list Z) j j' v : (j < length l)%nat -> nth j' (<[j := v]> l) 0 = if decide (j' = j) then v else nth j' l 0.
Proof.
  intros Hj. case_decide as E.
  - subst. apply nth_lookup_Some. by apply list_lookup_insert_eq.
  - destruct (l !! j') eqn:El.
    + rewrite (nth_lookup_Some l _ _ _ El). apply nth_lookup_Some. by rewrite list_lookup_insert_ne.
    + rewrite !nth_overflow; [done|by apply lookup_ge_None|]. rewrite length_insert. by apply lookup_ge_None.
Qed.

Lemma grow_direct bn : 0 <= bn < NDIRECT -> baddr D addrs bn = 0 ->
  grown D addrs (alloc D sb0 b) (<[Z.to_nat bn := b]> addrs) /\ baddr (alloc D sb0 b) (<[Z.to_nat bn := b]> addrs) bn = b.
Proof.
  intros Hbn H0. pose proof (fo_len _ _ Hf) as Hl. change NDIRECT with 12 in Hbn.
  assert (Hi : indirect (<[Z.to_nat bn := b]> addrs) = indirect addrs).
  { unfold indirect. change NDIRECT with 12. rewrite nth_insert by lia. by rewrite decide_False by lia. }
  assert (Hba : forall c, in_file c -> baddr (alloc D sb0 b) (<[Z.to_nat bn := b]> addrs) c = if decide (Some bn = Some c) then b else baddr D addrs c).
  { intros c Hc. unfold in_file in Hc. unfold baddr. rewrite Hi. change NDIRECT with 12. destruct (Z.ltb_spec c 12).
    - rewrite nth_insert by lia.
      destruct (decide (c = bn)) as [->|Hn]; [by rewrite !decide_True|]. by rewrite !decide_False by (lia || congruence).
    - rewrite decide_False by (intros [= <-]; lia). destruct (Z.eqb_spec (indirect addrs) 0); [done|]. by rewrite alloc_ind. }
  split; [|by rewrite Hba, decide_True by (unfold in_file; change MAXFILE with 268; done || lia)].
  destruct (alloc_new D b fl Hwf Hfl) as [Hnew Hz].
  apply (grown_intro _ _ _ _ b (Some bn)); [done|by rewrite length_insert|by eapply alloc_wf|apply free_not_own|done|done| |done| |by left].
  - intros x Hx. destruct (alloc_own D b fl Hwf Hfl x Hx). by split.
  - by intros c [= <-].
Qed.

Lemma get_word_zero j : get_word zero_block j = 0.
Proof.
  unfold get_word, zero_block. rewrite drop_replicate, take_replicate. 
  generalize (4 `min` (Z.to_nat BSIZE - 4 * j))%nat as m. intros m. induction m as [|m IH]; [done|].
  change (0 + 256 * le_val (replicate m 0) = 0). by rewrite IH.
Qed.

Lemma grow_indirect : indirect addrs = 0 ->
  grown D addrs (alloc D sb0 b) (<[Z.to_nat NDIRECT := b]> addrs) /\ indirect (<[Z.to_nat NDIRECT := b]> addrs) = b.
Proof.
  intros H0. pose proof (fo_len _ _ Hf) as Hl. destruct (alloc_new D b fl Hwf Hfl) as [Hnew Hz].
  assert (Hi : indirect (<[Z.to_nat NDIRECT := b]> addrs) = b).
  { unfold indirect. rewrite nth_insert by (rewrite Hl; by vm_compute; lia). by rewrite decide_True. }
  split; [|done]. apply (grown_intro _ _ _ _ b None); [done|by rewrite length_insert|by eapply alloc_wf|apply free_not_own|done|done| | |done|by right].
  - intros x Hx. destruct (alloc_own D b fl Hwf Hfl x Hx). by split.
  - intros c Hc. unfold in_file in Hc. rewrite decide_False by done. unfold baddr. rewrite Hi, H0. change NDIRECT with 12.
    destruct (Z.ltb_spec c 12); [by rewrite nth_insert, decide_False by lia|]. cbn [Z.eqb].
    destruct (b =? 0); [done|]. by rewrite Hz, get_word_zero.
Qed.

Lemma grow_word bn (D1 := alloc D sb0 b) (ind := indirect addrs)
    (D2 := upd_blk D1 ind (put_word (Z.to_nat (bn - NDIRECT)) b (D1 ind))) :
  NDIRECT <= bn < MAXFILE -> ind <> 0 -> baddr D addrs bn = 0 -> grown D addrs D2 addrs /\ baddr D2 addrs bn = b.
Proof.
  intros Hbn Hi H0. destruct (alloc_new D b fl Hwf Hfl) as [Hnew Hz]. fold D1 in Hnew, Hz.
  pose proof (alloc_wf D b fl Hwf Hfl) as Hwf1. fold D1 in Hwf1. pose proof (bw_len _ Hwf1 ind) as Hlen.
  change NDIRECT with 12 in *. change MAXFILE with 268 in *. change (Z.to_nat BSIZE) with 1024%nat in Hlen.
  destruct (fo_ind _ _ Hf) as [|Hoi]; [done|]. fold ind in Hoi.
  assert (Hbi : b <> ind) by (intros E; apply free_not_own; by rewrite E).
  assert (Hnb : ~ is_bitmap ind) by apply Hoi.
  assert (Hlen2 : length (put_word (Z.to_nat (bn - 12)) b (D1 ind)) = Z.to_nat BSIZE) by (rewrite length_put_word; rewrite Hlen; [done|lia]).
  assert (Hb32 : u32 b = b) by (apply u32_small; destruct (free_facts D b fl Hwf Hfl) as (_ & _ & [? _] & _); lia).
  assert (Hba : forall c, in_file c -> baddr D2 addrs c = if decide (Some bn = Some c) then b else baddr D addrs c).
  { intros c Hc. unfold in_file in Hc. change MAXFILE with 268 in Hc. unfold baddr. change NDIRECT with 12. fold ind.
    destruct (Z.ltb_spec c 12); [by rewrite decide_False by (intros [= <-]; lia)|]. rewrite (proj2 (Z.eqb_neq ind 0)) by done.
    unfold D2. rewrite upd_blk_eq. change NDIRECT with 12. rewrite get_put_word by (rewrite Hlen; lia). rewrite Hb32.
    destruct (decide (c = bn)) as [->|Hn]; [by rewrite !decide_True|]. rewrite !decide_False by (lia || congruence).
    f_equal. by apply alloc_ind. }
  split; [|by rewrite Hba, decide_True by (unfold in_file; change MAXFILE with 268; done || lia)].
  apply (grown_intro _ _ _ _ b (Some bn)); [done|by apply Hf|by apply upd_wf|apply free_not_own|by apply upd_own| | |done| |by left].
  - unfold D2. by rewrite upd_blk_ne.
  - intros x Hx. destruct (alloc_own D b fl Hwf Hfl x Hx) as [Ho E]. split; [by apply upd_own|]. intros Hxi.
    unfold D2. by rewrite upd_blk_ne.
  - by intros c [= <-].
Qed.
End Ways.

(** ** Writing blocks *)

(** A block that is allocated, but to something else than this file. *)
Definition foreign D addrs x : Prop := own D x /\ x <> indirect addrs /\ forall bn, in_file bn -> baddr D addrs bn <> x.

Lemma grown_foreign D addrs D' addrs' x : grown D addrs D' addrs' -> foreign D addrs x -> foreign D' addrs' x /\ D' x = D x.
Proof.
  intros Hg (Ho & Hi & Hb). destruct (gr_others _ _ _ _ Hg x Ho) as [Ho' E]. split; [|by apply E]. split; [done|]. split.
  - intros ->. by destruct (gr_ind _ _ _ _ Hg) as [E'|E'].
  - intros bn Hbn E'. destruct (gr_new _ _ _ _ Hg bn Hbn) as [E2|E2]; [rewrite E2 in E'; by eapply Hb|by rewrite E' in E2].
Qed.

Section WriteBlock.
Context (D : Z -> list Z) (addrs : list Z) (Hwf : bitmap_wf D) (Hf : file_ok D addrs) (a : Z) (v : list Z).
Context (Ha : own D a) (Hna : a <> indirect addrs) (Hv : length v = Z.to_nat BSIZE).
Let D' := upd_blk D a v.

Lemma written_baddr bn : baddr D' addrs bn = baddr D addrs bn.
Proof.
  unfold baddr, D'. destruct (bn <? NDIRECT); [done|]. destruct (Z.eqb_spec (indirect addrs) 0); [done|].
  by rewrite upd_blk_ne by congruence.
Qed.

Lemma written_ok : file_ok D' addrs.
Proof.
  assert (Hnb : ~ is_bitmap a) by apply Ha. destruct Hf as [F1 F2 F3 F4 F5]. split; [done| | | |].
  - intros bn Hbn. rewrite written_baddr. destruct (F2 bn Hbn) as [->|Ho]; [by left|right]. by apply upd_own.
  - destruct F3 as [->|Ho]; [by left|right]. by apply upd_own.
  - intros bn bn' Hb Hb'. rewrite !written_baddr. by apply F4.
  - intros bn Hb. rewrite written_baddr. by apply F5.
Qed.

Lemma written_foreign x : foreign D addrs x -> x <> a -> foreign D' addrs x /\ D' x = D x.
Proof.
  intros (Ho & Hi & Hb) Hx. split; [|by apply upd_blk_ne]. split; [apply upd_own; [apply Ha|done]|]. split; [done|].
  intros bn Hbn. rewrite written_baddr. by apply Hb.
Qed.

(** A block of the file. *)
Lemma written_byte bn pos : in_file bn -> baddr D addrs bn = a -> 0 <= pos < MAXFILE * BSIZE ->
  file_byte D' addrs pos = if decide (pos / BSIZE = bn) then nth (Z.to_nat (pos mod BSIZE)) v 0 else file_byte D addrs pos.
Proof.
  intros Hbn Hba Hp. pose proof (in_file_pos pos Hp) as Hpb. assert (H0 : 0 < a) by apply Ha.
  unfold file_byte. rewrite written_baddr. case_decide as E.
  - rewrite E, Hba, (proj2 (Z.eqb_neq a 0)) by lia. unfold D'. by rewrite upd_blk_eq.
  - destruct (Z.eqb_spec (baddr D addrs (pos / BSIZE)) 0) as [|Hn]; [done|]. unfold D'. rewrite upd_blk_ne; [done|].
    intros E'. apply E. apply (fo_inj _ _ Hf _ _ Hpb Hbn Hn). by rewrite Hba.
Qed.

(** A block of something else. *)
Lemma foreign_byte pos : foreign D addrs a -> 0 <= pos < MAXFILE * BSIZE -> file_byte D' addrs pos = file_byte D addrs pos.
Proof.
  intros (_ & _ & Hb) Hp. unfold file_byte. rewrite written_baddr.
  destruct (Z.eqb_spec (baddr D addrs (pos / BSIZE)) 0) as [|Hn]; [done|]. unfold D'. rewrite upd_blk_ne; [done|].
  by apply Hb, in_file_pos.
Qed.
End WriteBlock.
End Abstract.
