(* ===== verification/Write.v ===== *)
(** [bmap] of kernel/fs.c when it allocates, in a transaction with room on a disk with free blocks. *)

From S2P Require Export Grow.

Section Write.
Context {L : Layout}.
Context (me : nat) (pid : Z) (k0 : kernel) (dev : kernel -> kernel) (Hdev : device_ok dev).
Implicit Types (k : kernel) (bl : list Z) (h : gmap Z nat) (I : list inode) (D : Z -> list Z) (n : nat).
Abbreviation mine := (mine me pid k0).
Abbreviation answers := (disk_works dev me).
Abbreviation sb0 := (k_sb k0).

Lemma mine_inodes bl h I I' D k : mine bl h I D k -> mine bl h I' D (k <| k_inode := I' |>).
Proof.
  intros [M1 M2 M3 M4 M5 M6 M7 M8 M9 M10]. split; try done; [by apply rest_inode|].
  destruct M5 as [[]]. by split.
Qed.

Lemma wp_upd_inode_mine bl h I D k e i ip f (Q : unit -> world -> Prop) : mine bl h I D k -> I !! i = Some ip ->
  (forall k', mine bl h (<[i := f ip]> I) D k' -> Q tt (World k' e)) -> wp total (upd_inode i f) Q (World k e).
Proof.
  intros Hm Hi HQ. unfold upd_inode. kstep. eapply wp_get_inode_mine; [exact Hm|exact Hi|]. apply wp_modk.
  eapply wp_world_eq; [apply (HQ (k <| k_inode := <[i := f ip]> I |>)), (mine_inodes bl h I); exact Hm|].
  rewrite <- (mi_inode _ _ _ _ _ _ _ _ Hm). by destruct k.
Qed.

(** ** Growing *)

(** The disk answers one [balloc] needs at most. *)
Definition scan_reads : nat := (Z.to_nat (sb_size sb0 / BPB) + 2)%nat.

(** [balloc] with the free blocks of the bitmap. *)
Lemma wp_balloc_free bl h I D k n b fl (Q : Z -> world -> Prop) : mine bl h I D k -> bitmap_wf k0 D ->
  free_blocks k0 D = b :: fl -> (forall x, is_Some (h !! x) -> own k0 D x) -> space k0 2 bl h -> (scan_reads <= n)%nat ->
  (forall k' n' bl', mine bl' h I (alloc D sb0 b) k' -> (length bl' <= length bl + 2)%nat ->
    (forall x, x ∈ bl' -> x ∈ bl \/ is_bitmap k0 x \/ x = b) -> (n <= n' + scan_reads)%nat ->
    Q b (World k' (answers n'))) ->
  wp total (balloc ROOTDEV) Q (World k (answers n)).
Proof.
  intros Hm Hwf Hfl Hh Hs Hn HQ. destruct (free_facts k0 D b fl Hwf Hfl) as (Hb & Hu & Hw & H0 & Hnb).
  pose proof (first_free_blocks k0 D b fl Hfl) as Hff. pose proof (bw_size _ _ Hwf) as Hsz. unfold in_disk in Hb.
  assert (Hd : b / BPB <= sb_size sb0 / BPB) by (change BPB with 8192; zlia).
  assert (Hd0 : 0 <= b / BPB) by (change BPB with 8192; zlia). unfold scan_reads in *.
  apply (wp_balloc me pid k0 dev Hdev bl h I D k n b Q Hm Hff); [|done|lia|].
  - assert (Hnone : forall x, ~ own k0 D x -> h !! x = None).
    { intros x Hx. destruct (h !! x) eqn:E; [|done]. exfalso. apply Hx, Hh. by rewrite E. }
    split; [done| |].
    + intros b' Hb'. destruct (bw_map _ _ Hwf b') as (W & Hi & _); [unfold in_disk; lia|]. split; [exact W|]. apply Hnone.
      intros (_ & _ & _ & Hn' & _). apply Hn'. exists b'. split; [unfold in_disk; lia|done].
    + split; [exact Hw|]. apply Hnone. by apply (free_not_own k0 D b fl).
  - intros k' n' Hm' Hn'. apply (HQ k' n' _ Hm'); [| |lia].
    2: { intros x [[Hx| ->]%elem_of_logged_in| ->]%elem_of_logged_in; [by left|right; left|by right; right]. by exists b. }
    pose proof (length_logged_in b (logged_in (BBLOCK b sb0) bl)). pose proof (length_logged_in (BBLOCK b sb0) bl). lia.
Qed.

(** The file system after [bmap] with at most [c] new blocks.  What is new in the log are blocks of the bitmap, the
    indirect block and the block asked for. *)
Record extended (c : nat) (bn : Z) bl D (ip : inode) bl' D' (ip' : inode) : Prop := Extended {
  ex_grown : grown k0 D (i_addrs ip) D' (i_addrs ip');
  ex_inode : ip' = ip <| i_addrs := i_addrs ip' |>;
  ex_free : exists pre, free_blocks k0 D = pre ++ free_blocks k0 D' /\ (length pre <= c)%nat;
  ex_log : forall x, x ∈ bl' -> x ∈ bl \/ is_bitmap k0 x \/
    x <> 0 /\ (x = indirect (i_addrs ip') \/ x = baddr D' (i_addrs ip') bn) }.

Lemma extended_refl bn bl D ip : bitmap_wf k0 D -> file_ok k0 D (i_addrs ip) -> extended 0 bn bl D ip bl D ip.
Proof. intros Hw Hf. split; [by apply grown_refl|by destruct ip|by exists []|by left]. Qed.

Lemma extended_trans c1 c2 bn bl D ip bl1 D1 ip1 bl2 D2 ip2 : in_file bn -> extended c1 bn bl D ip bl1 D1 ip1 ->
  extended c2 bn bl1 D1 ip1 bl2 D2 ip2 -> extended (c1 + c2) bn bl D ip bl2 D2 ip2.
Proof.
  intros Hbn [A1 A2 (p1 & A3 & A4) A5] [B1 B2 (p2 & B3 & B4) B5]. split; [by eapply grown_trans| | |].
  - rewrite B2, A2. by destruct ip.
  - exists (p1 ++ p2). rewrite A3, B3, <- app_assoc, length_app. split; [done|lia].
  - intros x [Hx|[Hx|Hx]]%B5; [|by right; left|by right; right].
    apply A5 in Hx as [Hx|[Hx|(H0 & Hx)]]; [by left|by right; left|]. right. right. split; [done|].
    destruct Hx as [-> | ->]; [left; symmetry; by apply (gr_ind_kept _ _ _ _ _ B1)|right; symmetry; by apply (gr_kept _ _ _ _ _ B1)].
Qed.

Lemma extended_more c c' bn bl D ip bl' D' ip' : (c <= c')%nat -> extended c bn bl D ip bl' D' ip' -> extended c' bn bl D ip bl' D' ip'.
Proof. intros Hc [A1 A2 (p & A3 & A4) A5]. split; [done|done|exists p; split; [done|lia]|done]. Qed.

Section Bmap.
Context (bl : list Z) (I : list inode) (D : Z -> list Z) (k : kernel) (n i : nat) (ip : inode) (bn : Z).
Context (Hm : mine bl ∅ I D k) (Hi : has_file I i ip) (Hwf : bitmap_wf k0 D) (Hf : file_ok k0 D (i_addrs ip)).

(** The second half of [bmap], for the word of an indirect block that is there. *)
Lemma wp_bmap_word (ind := indirect (i_addrs ip)) (Q : Z -> world -> Prop) : NDIRECT <= bn < MAXFILE -> ind <> 0 ->
  (0 < length (free_blocks k0 D))%nat -> space k0 3 bl ∅ -> (scan_reads + 1 <= n)%nat ->
  (forall k' n' bl' D', mine bl' ∅ I D' k' -> extended 1 bn bl D ip bl' D' ip -> (length bl' <= length bl + 3)%nat -> baddr D' (i_addrs ip) bn <> 0 ->
    (n <= n' + scan_reads + 1)%nat -> Q (baddr D' (i_addrs ip) bn) (World k' (answers n'))) ->
  wp total (bp <- bread (i_dev ip) ind ;;
    d <- get_data bp ;;
    let addr := get_word d (Z.to_nat (bn - NDIRECT)) in
    addr <- (if addr =? 0 then
               addr <- balloc (i_dev ip) ;;
               when (negb (addr =? 0)) (upd_data bp (put_word (Z.to_nat (bn - NDIRECT)) addr) ;;; log_write bp) ;;;
               ret addr
             else ret addr) ;;
    brelse bp ;;;
    ret addr) Q (World k (answers n)).
Proof.
  intros Hbn Hind Hfree Hs Hn HQ. rewrite (hf_dev _ _ _ Hi). destruct (fo_ind _ _ _ Hf) as [|Ho]; [done|]. fold ind in Ho.
  pose proof Ho as (_ & _ & _ & Hnb & [Hr Hh]).
  assert (Hb : baddr D (i_addrs ip) bn = get_word (D ind) (Z.to_nat (bn - NDIRECT))).
  { unfold baddr. rewrite (proj2 (Z.ltb_ge _ _)) by lia. fold ind. by rewrite (proj2 (Z.eqb_neq _ _)). }
  kstep. apply (wp_bread_mine me pid k0 dev Hdev bl ∅ I D k n ind _ Hm); [apply lookup_empty|lia|by eapply space_cache|lia|].
  intros bp k1 n1 Hm1 Hn1. kstep. eapply wp_get_data; [exact Hm1|apply lookup_insert_eq|]. cbv zeta. rewrite <- Hb.
  destruct (Z.eqb_spec (baddr D (i_addrs ip) bn) 0) as [E0|E0].
  - destruct (free_blocks k0 D) as [|b fl] eqn:Efl; [cbn in Hfree; lia|].
    destruct (free_facts k0 D b fl Hwf Efl) as (_ & _ & _ & Hb0 & _).
    destruct (grow_word k0 D (i_addrs ip) b fl Hwf Hf Efl bn Hbn Hind E0) as [Hg Hga]. fold ind in Hg, Hga.
    kstep. kstep. eapply (wp_balloc_free bl _ I D k1 n1 b fl); [exact Hm1|done|done| |by apply space_held|lia|].
    { intros x Hx. destruct (decide (x = ind)) as [->|Hne]; [done|]. rewrite lookup_insert_ne, lookup_empty in Hx by done. by destruct Hx. }
    intros k2 n2 bl2 Hm2 Hl2 Hin2 Hn2. rewrite (proj2 (Z.eqb_neq b 0)) by lia. cbn [negb when]. kstep. kstep.
    pose proof (mi_size _ _ _ _ _ _ _ _ Hm2 ind) as Hlen. change (Z.to_nat BSIZE) with 1024%nat in Hlen. change NDIRECT with 12 in *. change MAXFILE with 268 in *.
    eapply wp_upd_mine; [exact Hm2|apply lookup_insert_eq|rewrite length_put_word; rewrite Hlen; [done|lia]|].
    intros k3 Hm3. eapply wp_log_write; [exact Hm3|apply lookup_insert_eq| |exact Hh|].
    { destruct Hs as [[S1 [S2 S3]] _]. split; [done|]. lia. }
    intros k4 Hm4. apply wp_ret. kstep.
    eapply wp_brelse_mine; [exact Hm4|apply lookup_insert_eq|left; apply elem_of_logged_in; by right|].
    intros k5 Hm5. rewrite delete_insert_id in Hm5 by apply lookup_empty. apply wp_ret.
    specialize (HQ k5 n2 _ _ Hm5). rewrite Hga in HQ. apply HQ; [|pose proof (length_logged_in ind bl2); lia|lia|lia].
    split; [exact Hg|by destruct ip| |].
    + exists [b]. rewrite Efl. split; [|done]. cbn [app]. f_equal.
      rewrite upd_free by (done || (rewrite length_put_word; rewrite Hlen; [done|lia])). symmetry. by apply alloc_free.
    + rewrite Hga. intros x [Hx| ->]%elem_of_logged_in; [|right; right; split; [done|by left]].
      apply Hin2 in Hx as [Hx|[Hx| ->]]; [by left|by right; left|right; right]. split; [lia|by right].
  - kstep. apply wp_ret. kstep. eapply wp_brelse_mine; [exact Hm1|apply lookup_insert_eq| |].
    { destruct (decide (ind ∈ bl)); [by left|right]. apply (mine_clean me pid k0 bl ∅ I D k); [done..|apply lookup_empty]. }
    intros k2 Hm2. rewrite delete_insert_id in Hm2 by apply lookup_empty. apply wp_ret.
    apply (HQ k2 n1 bl D Hm2); [|lia|done|lia]. eapply extended_more; [|by apply extended_refl]. lia.
Qed.
End Bmap.

Lemma space_longer c d bl bl' h : space k0 (c + d) bl h -> (length bl' <= length bl + d)%nat -> space k0 c bl' h.
Proof. intros [[S1 [S2 S3]] S4] Hl. split; [split; [done|split]|]; lia. Qed.

Lemma list_insert_self {A} (l : list A) i x y : l !! i = Some x -> x = y -> <[i := y]> l = l.
Proof. intros Hl <-. by apply list_insert_id. Qed.

Lemma has_file_upd I i ip addrs : has_file I i ip -> length addrs = 13%nat ->
  has_file (<[i := ip <| i_addrs := addrs |>]> I) i (ip <| i_addrs := addrs |>).
Proof. intros [H1 H2 H3] Hl. split; [|done|done]. apply list_lookup_insert_eq. by eapply lookup_lt_Some. Qed.

Lemma wp_bmap bl I D k n i ip bn (Q : Z -> world -> Prop) : mine bl ∅ I D k -> has_file I i ip -> bitmap_wf k0 D ->
  file_ok k0 D (i_addrs ip) -> in_file bn -> (1 < length (free_blocks k0 D))%nat -> space k0 5 bl ∅ ->
  (2 * scan_reads + 1 <= n)%nat ->
  (forall k' n' bl' D' ip', mine bl' ∅ (<[i := ip']> I) D' k' -> extended 2 bn bl D ip bl' D' ip' -> (length bl' <= length bl + 5)%nat ->
    baddr D' (i_addrs ip') bn <> 0 -> (n <= n' + (2 * scan_reads + 1))%nat ->
    Q (baddr D' (i_addrs ip') bn) (World k' (answers n'))) ->
  wp total (bmap i bn) Q (World k (answers n)).
Proof.
  intros Hm Hi Hwf Hf Hbn Hfree Hs Hn HQ. pose proof Hi as [Hi1 Hi2 Hi3]. unfold in_file in Hbn.
  destruct (free_blocks k0 D) as [|b fl] eqn:Efl; [cbn in Hfree; lia|].
  destruct (free_facts k0 D b fl Hwf Efl) as (_ & _ & _ & Hb0 & _).
  assert (Hself : <[i := ip]> I = I) by by apply list_insert_id.
  assert (Hnoheld : forall x, is_Some ((∅ : gmap Z nat) !! x) -> own k0 D x) by (intros x [? Hx]; by rewrite lookup_empty in Hx).
  unfold bmap. kstep. eapply wp_get_inode_mine; [exact Hm|exact Hi1|]. destruct (Z.ltb_spec bn NDIRECT) as [Hlt|Hge].
  - kstep. eapply wp_arr_get; [lia|apply nth_addr; rewrite Hi3; change NDIRECT with 12 in *; lia|].
    assert (Eb : nth (Z.to_nat bn) (i_addrs ip) 0 = baddr D (i_addrs ip) bn) by (unfold baddr; by rewrite (proj2 (Z.ltb_lt _ _))).
    rewrite Eb. destruct (Z.eqb_spec (baddr D (i_addrs ip) bn) 0) as [E0|E0].
    + destruct (grow_direct k0 D (i_addrs ip) b fl Hwf Hf Efl bn ltac:(lia) E0) as [Hg Hga].
      kstep. rewrite Hi2. eapply (wp_balloc_free bl ∅ I D k n b fl); [done|done|done|done|eapply space_fewer; [exact Hs|lia]|lia|].
      intros k1 n1 bl1 Hm1 Hl1 Hin1 Hn1. rewrite (proj2 (Z.eqb_neq b 0)) by lia. kstep.
      eapply wp_upd_inode_mine; [exact Hm1|exact Hi1|]. intros k2 Hm2. apply wp_ret.
      specialize (HQ k2 n1 bl1 _ _ Hm2). change (i_addrs (ip <| i_addrs ::= _ |>)) with (<[Z.to_nat bn := b]> (i_addrs ip)) in HQ.
      rewrite Hga in HQ. apply HQ; [|lia|lia|lia]. split; [exact Hg|by destruct ip| |].
      * exists [b]. rewrite Efl. split; [|cbn; lia]. cbn [app]. f_equal. symmetry. by apply alloc_free.
      * change (i_addrs (ip <| i_addrs ::= _ |>)) with (<[Z.to_nat bn := b]> (i_addrs ip)). rewrite Hga.
        intros x [Hx|[Hx| ->]]%Hin1; [by left|by right; left|right; right]. split; [lia|by right].
    + apply wp_ret. apply (HQ k n bl D ip); [by rewrite Hself| |lia|done|lia]. eapply extended_more; [|by apply extended_refl]. lia.
  - cbv zeta. rewrite (proj2 (Z.ltb_lt _ NINDIRECT)) by (unfold MAXFILE in *; lia).
    kstep. eapply wp_arr_get; [by vm_compute|apply nth_addr; by rewrite Hi3|]. fold (indirect (i_addrs ip)).
    kstep. destruct (Z.eqb_spec (indirect (i_addrs ip)) 0) as [E0|E0].
    + destruct (grow_indirect k0 D (i_addrs ip) b fl Hwf Hf Efl E0) as [Hg Hga].
      kstep. rewrite Hi2. eapply (wp_balloc_free bl ∅ I D k n b fl); [done|done|done|done|eapply space_fewer; [exact Hs|lia]|lia|].
      intros k1 n1 bl1 Hm1 Hl1 Hin1 Hn1. rewrite (proj2 (Z.eqb_neq b 0)) by lia. cbn [negb when]. kstep.
      eapply wp_upd_inode_mine; [exact Hm1|exact Hi1|]. intros k2 Hm2. apply wp_ret. rewrite (proj2 (Z.eqb_neq b 0)) by lia.
      set (addrs1 := <[Z.to_nat NDIRECT := b]> (i_addrs ip)) in *. set (ip1 := ip <| i_addrs := addrs1 |>).
      assert (He1 : extended 1 bn bl D ip bl1 (alloc D sb0 b) ip1).
      { split; [exact Hg|by destruct ip| |].
        - exists [b]. rewrite Efl. split; [|done]. cbn [app]. f_equal. symmetry. by apply alloc_free.
        - change (i_addrs ip1) with addrs1. rewrite Hga.
          intros x [Hx|[Hx| ->]]%Hin1; [by left|by right; left|right; right]. split; [lia|by left]. }
      assert (Ef1 : free_blocks k0 (alloc D sb0 b) = fl) by by apply alloc_free.
      pose proof (wp_bmap_word bl1 (<[i := ip1]> I) (alloc D sb0 b) k2 n1 i ip1 bn Hm2) as HW. cbv zeta in HW.
      change (i_addrs ip1) with addrs1 in HW. rewrite Hga in HW. rewrite <- Hi2. change (i_dev ip) with (i_dev ip1).
      apply HW; [apply has_file_upd; [done|apply Hg]|apply Hg|apply Hg|lia|lia|by rewrite Ef1; cbn in Hfree; lia| |lia|].
      { eapply (space_longer 3 2); [exact Hs|lia]. }
      intros k3 n3 bl3 D3 Hm3 He3 Hl3 Hb3 Hn3. apply (HQ k3 n3 bl3 D3 ip1); [done| |lia|done|lia].
      eapply (extended_trans 1 1); [unfold in_file; lia|exact He1|exact He3].
    + apply wp_ret. rewrite (proj2 (Z.eqb_neq _ 0)) by done.
      apply (wp_bmap_word bl I D k n i ip bn Hm Hi Hwf Hf); [lia|done|rewrite Efl; cbn; lia|eapply space_fewer; [exact Hs|lia]|lia|].
      intros k1 n1 bl1 D1 Hm1 He1 Hl1 Hb1 Hn1. apply (HQ k1 n1 bl1 D1 ip); [by rewrite Hself| |lia|done|lia].
      eapply extended_more; [|exact He1]. lia.
Qed.
End Write.
