(* ===== verification/Writei.v ===== *)
(** [writei] and [iupdate] of kernel/fs.c: the bytes go into the file, and nothing else of the file system
    changes; within the log space a system call reserves, and read back by [readi]. *)

From S2P Require Export Write.

Section Writei.
Context {L : Layout}.
Context (me : nat) (pid : Z) (k0 : kernel) (dev : kernel -> kernel) (Hdev : device_ok dev).
Implicit Types (k : kernel) (h : gmap Z nat) (n : nat).
Abbreviation mine := (mine me pid k0).
Abbreviation answers := (disk_works dev me).
Abbreviation sb0 := (k_sb k0).

(** The file system before: the file of inode [i], the bytes to be written at [off]. *)
Context (bl0 : list Z) (I0 : list inode) (D0 : Z -> list Z) (i : nat) (ip0 : inode) (off : Z) (bs : list Z).
Abbreviation len := (Z.of_nat (length bs)).

(** The file system after [j] rounds, in which [t] bytes have been written. *)
Record wrote (t : Z) (j : nat) (bl : list Z) (D : Z -> list Z) (ip : inode) : Prop := Wrote {
  wr_wf : bitmap_wf k0 D;
  wr_ok : file_ok k0 D (i_addrs ip);
  wr_inode : ip = ip0 <| i_addrs := i_addrs ip |>;
  wr_bytes : forall pos, 0 <= pos < MAXFILE * BSIZE -> file_byte D (i_addrs ip) pos =
    if decide (off <= pos < off + t) then nth (Z.to_nat (pos - off)) bs 0 else file_byte D0 (i_addrs ip0) pos;
  wr_foreign : forall x, foreign k0 D0 (i_addrs ip0) x -> foreign k0 D (i_addrs ip) x /\ D x = D0 x;
  wr_free : exists pre, free_blocks k0 D0 = pre ++ free_blocks k0 D /\ (length pre <= 2 * j)%nat;
  wr_kept : forall bn, in_file bn -> baddr D0 (i_addrs ip0) bn <> 0 -> baddr D (i_addrs ip) bn <> 0;
  wr_mapped : forall bn, off / BSIZE <= bn < off / BSIZE + Z.of_nat j -> baddr D (i_addrs ip) bn <> 0;
  wr_log : forall x, x ∈ bl -> x ∈ bl0 \/ is_bitmap k0 x \/ x <> 0 /\ (x = indirect (i_addrs ip) \/
    exists bn, off / BSIZE <= bn < off / BSIZE + Z.of_nat j /\ x = baddr D (i_addrs ip) bn) }.

Lemma wrote_start : bitmap_wf k0 D0 -> file_ok k0 D0 (i_addrs ip0) -> wrote 0 0 bl0 D0 ip0.
Proof.
  intros Hw Hf. split; try done; [by destruct ip0|intros pos _; by rewrite decide_False by lia|by exists []|lia|by left].
Qed.

(** The blocks of the bitmap. *)
Definition bitmap_blocks : list Z := (fun q => u32 (q + sb_bmapstart sb0)) <$> seqZ 0 (sb_size sb0 / BPB + 1).

Lemma elem_of_bitmap_blocks x : is_bitmap k0 x -> x ∈ bitmap_blocks.
Proof.
  intros (b & Hb & <-). apply list_elem_of_fmap. exists (b / BPB). split; [done|]. apply elem_of_seqZ.
  unfold in_disk in Hb. change BPB with 8192. zlia.
Qed.

(** How many blocks can be in the log. *)
Lemma wrote_log_length t j bl D ip : wrote t j bl D ip -> NoDup bl ->
  (length bl <= length bl0 + length bitmap_blocks + 1 + j)%nat.
Proof.
  intros Hw Hnd.
  assert (Hsub : bl ⊆+ bl0 ++ bitmap_blocks ++ [indirect (i_addrs ip)] ++
    (baddr D (i_addrs ip) <$> seqZ (off / BSIZE) (Z.of_nat j))).
  { apply NoDup_submseteq; [done|]. intros x Hx. rewrite !elem_of_app.
    destruct (wr_log _ _ _ _ _ Hw x Hx) as [H|[H|(_ & [->|(bn & Hbn & ->)])]]; [by left| | |].
    - right. left. by apply elem_of_bitmap_blocks.
    - right. right. left. by left.
    - right. right. right. apply list_elem_of_fmap. exists bn. split; [done|]. apply elem_of_seqZ. lia. }
  apply submseteq_length in Hsub. rewrite !length_app, length_fmap, length_seqZ in Hsub. cbn [length] in Hsub. lia.
Qed.

(** One round: [bmap] of block [bn], then the bytes [new] at [r] in it. *)
Lemma wrote_round t j bl D ip bl1 D1 ip1 m (bn := off / BSIZE + Z.of_nat j) (r := (off + t) mod BSIZE)
    (a := baddr D1 (i_addrs ip1) bn) (v := put_bytes (Z.to_nat r) (take (Z.to_nat m) (drop (Z.to_nat t) bs)) (D1 a)) :
  wrote t j bl D ip -> extended k0 2 bn bl D ip bl1 D1 ip1 -> a <> 0 -> in_file bn ->
  0 <= off -> 0 <= t -> t + m <= len -> 0 < m -> r + m <= BSIZE -> (off + t) / BSIZE = bn ->
  own k0 D1 a /\ a <> indirect (i_addrs ip1) /\ length v = Z.to_nat BSIZE /\
  wrote (t + m) (S j) (logged_in a bl1) (upd_blk D1 a v) ip1.
Proof.
  intros [W1 W2 W3 W4 W5 (p1 & W6 & W7) W8 W9 W10] [E1 E2 (p2 & E3 & E4) E5] Ha Hbn Hoff Ht Htm Hm Hr Hpos.
  pose proof (gr_ok _ _ _ _ _ E1) as Hf1. pose proof (gr_wf _ _ _ _ _ E1) as Hwf1.
  assert (Hown : own k0 D1 a) by by destruct (fo_blk _ _ _ Hf1 bn Hbn).
  assert (Hai : a <> indirect (i_addrs ip1)).
  { destruct (decide (indirect (i_addrs ip1) = 0)) as [E|E]; [by rewrite E|]. by apply (fo_sep _ _ _ Hf1 bn Hbn). }
  assert (Hnb : ~ is_bitmap k0 a) by apply Hown.
  assert (Hlen : length (take (Z.to_nat m) (drop (Z.to_nat t) bs)) = Z.to_nat m) by (rewrite length_take, length_drop; lia).
  change BSIZE with 1024 in *. pose proof (bw_len _ _ Hwf1 a) as Hla. change (Z.to_nat BSIZE) with 1024%nat in Hla.
  assert (Er : r = (off + t) mod 1024) by done. assert (Hr0 : 0 <= r) by zlia.
  assert (Hv : length v = Z.to_nat 1024) by (unfold v; rewrite length_put_bytes; rewrite ?Hlen, ?Hla; [done|lia]).
  split; [done|]. split; [done|]. split; [done|]. split.
  - by apply upd_wf.
  - by apply written_ok.
  - rewrite E2, W3. by destruct ip0.
  - intros pos Hp. rewrite (written_byte k0 D1 (i_addrs ip1) Hf1 a v Hown Hai Hv bn pos Hbn eq_refl Hp). change BSIZE with 1024 in *.
    pose proof (gr_bytes _ _ _ _ _ E1 pos Hp) as Eold. rewrite (W4 pos Hp) in Eold.
    destruct (decide (pos / 1024 = bn)) as [E|E]; [|rewrite Eold; repeat case_decide; done || (exfalso; clearbody r; zlia)].
    rewrite nth_default. unfold v. rewrite put_bytes_lookup by (rewrite Hlen, Hla; lia). rewrite Hlen.
    destruct (decide (off + t <= pos < off + t + m)) as [Hin|Hout].
    + rewrite decide_True by (clearbody r; zlia). rewrite decide_True by lia.
      rewrite lookup_take_lt, lookup_drop by (clearbody r; zlia). rewrite nth_default. do 2 f_equal. clearbody r. zlia.
    + rewrite decide_False by (clearbody r; zlia). 
      assert (Eb : file_byte D1 (i_addrs ip1) pos = nth (Z.to_nat (pos mod 1024)) (D1 a) 0).
      { unfold file_byte. change BSIZE with 1024. rewrite E. fold a. by rewrite (proj2 (Z.eqb_neq a 0)). }
      rewrite <- nth_default, <- Eb, Eold.
      repeat case_decide; done || lia.
  - intros x Hx. destruct (W5 x Hx) as [Hx1 Ex1]. destruct (grown_foreign _ _ _ _ _ _ E1 Hx1) as [Hx2 Ex2].
    destruct (written_foreign k0 D1 (i_addrs ip1) a v Hown Hai x Hx2) as [Hx3 Ex3]; [|split; [done|congruence]].
    intros ->. destruct Hx2 as (_ & _ & Hx2). by apply (Hx2 bn Hbn).
  - exists (p1 ++ p2). rewrite upd_free by done. rewrite W6, E3, <- app_assoc, length_app. split; [done|lia].
  - intros c Hc Hc0. rewrite written_baddr by done. rewrite (gr_kept _ _ _ _ _ E1); by auto.
  - intros c Hc. change BSIZE with 1024 in Hc. rewrite written_baddr by done. destruct (decide (c = bn)) as [->|Hne]; [done|].
    assert (Hcb : in_file c) by (unfold in_file, bn in *; zlia). rewrite (gr_kept _ _ _ _ _ E1); [|done|]; apply W9; lia.
  - change BSIZE with 1024. intros x Hx. apply elem_of_logged_in in Hx as [Hx| ->].
    2: { right. right. split; [done|]. right. exists bn. split; [lia|]. by rewrite written_baddr. }
    apply E5 in Hx as [Hx|[Hx|(H0 & [-> | ->])]]; [|by right; left|right; right; split; [done|by left]|].
    2: { right. right. split; [done|]. right. exists bn. split; [lia|]. by rewrite written_baddr. }
    apply W10 in Hx as [Hx|[Hx|(H0 & [->|(c & Hc & ->)])]]; [by left|by right; left| |]; right; right; (split; [done|]).
    + left. symmetry. by apply (gr_ind_kept _ _ _ _ _ E1).
    + right. exists c. split; [lia|]. rewrite written_baddr by done. symmetry. apply (gr_kept _ _ _ _ _ E1); [unfold in_file, bn in *; zlia|done].
Qed.

Definition write_rounds : nat := blocks_left off len.

Context (Hi0 : has_file I0 i ip0) (Hwf0 : bitmap_wf k0 D0) (Hf0 : file_ok k0 D0 (i_addrs ip0)).
Context (Hoff : 0 <= off) (Hend : off + len <= MAXFILE * BSIZE).
Context (Hfree : (2 * write_rounds <= length (free_blocks k0 D0))%nat).
Context (Hspace : space k0 (length bitmap_blocks + write_rounds + 5) bl0 ∅).

Lemma wrote_has_file t j bl D ip : wrote t j bl D ip -> has_file (<[i := ip]> I0) i ip.
Proof.
  intros Hw. rewrite (wr_inode _ _ _ _ _ Hw). apply has_file_upd; [done|]. apply (wr_ok _ _ _ _ _ Hw).
Qed.

Lemma wrote_space t j bl D ip k : wrote t j bl D ip -> mine bl ∅ (<[i := ip]> I0) D k -> (j < write_rounds)%nat -> space k0 5 bl ∅.
Proof.
  intros Hw Hm Hj. eapply (space_longer k0 5 (length bitmap_blocks + write_rounds)); [eapply space_fewer; [exact Hspace|lia]|].
  pose proof (wrote_log_length _ _ _ _ _ Hw (bl_nodup _ _ (li_ok _ _ _ (mi_log _ _ _ _ _ _ _ _ Hm)))). lia.
Qed.

(** Where the bytes come from: what [either_copyin] finds [t] bytes further on. *)
Context (src : usrc).
Definition src_at (t : Z) : usrc :=
  match src with SrcUser va => SrcUser (va + t) | SrcKern b => SrcKern (drop (Z.to_nat t) b) end.

(** The source supplies the bytes [bs], whatever the disk and the other processes do. *)
Definition supplies : Prop := forall k e t m, rest k0 k -> 0 <= t -> 0 < m -> t + m <= len ->
  either_copyin (src_at t) m (World k e) = Ok (0, take (Z.to_nat m) (drop (Z.to_nat t) bs)) (World k e) /\
  src_add (src_at t) m = src_at (t + m).
Context (Hsrc : supplies).

(** The body of the loop of [writei]. *)
Definition write_round (tot pos : Z) (src : usrc) : K (Z * Z * usrc + Z * Z) :=
  addr <- bmap i (pos / BSIZE) ;;
  if addr =? 0 then ret (inr (tot, pos))
  else
    bp <- bread (i_dev ip0) addr ;;
    let m := min (len - tot) (BSIZE - pos mod BSIZE) in
    let! (r, bs) := either_copyin src m in
    upd_data bp (put_bytes (Z.to_nat (pos mod BSIZE)) bs) ;;;
    if r =? -1 then brelse bp ;;; ret (inr (tot, pos))
    else
      log_write bp ;;;
      brelse bp ;;;
      ret (inl (tot + m, u32 (pos + m), src_add src m)).

Lemma wp_write_round t j bl D ip k n (m := Z.min (len - t) (BSIZE - (off + t) mod BSIZE))
    (Q : Z * Z * usrc + Z * Z -> world -> Prop) :
  wrote t j bl D ip -> mine bl ∅ (<[i := ip]> I0) D k -> 0 <= t < len -> (j < write_rounds)%nat ->
  (off + t) / BSIZE = off / BSIZE + Z.of_nat j -> (2 * scan_reads k0 + 2 <= n)%nat ->
  (forall bl' D' ip' k' n', wrote (t + m) (S j) bl' D' ip' -> mine bl' ∅ (<[i := ip']> I0) D' k' ->
    (n <= n' + (2 * scan_reads k0 + 2))%nat ->
    Q (inl (t + m, u32 (off + t + m), src_at (t + m))) (World k' (answers n'))) ->
  wp total (write_round t (off + t) (src_at t)) Q (World k (answers n)).
Proof.
  intros Hw Hm Ht Hj Hbn Hn HQ. unfold write_round. change MAXFILE with 268 in *. pose proof (wrote_space _ _ _ _ _ _ Hw Hm Hj) as Hs.
  assert (Hinf : in_file ((off + t) / BSIZE)) by (apply in_file_pos; change MAXFILE with 268; lia).
  destruct (wr_free _ _ _ _ _ Hw) as (pre & Hpre & Hlp).
  assert (Hfl : (1 < length (free_blocks k0 D))%nat) by (rewrite Hpre, length_app in Hfree; lia).
  kstep. eapply (wp_bmap me pid k0 dev Hdev bl (<[i := ip]> I0) D k n i ip); [exact Hm|by eapply wrote_has_file|apply Hw|apply Hw|exact Hinf|exact Hfl|exact Hs|lia|].
  intros k1 n1 bl1 D1 ip1 Hm1 He1 Hl1 Ha Hn1. rewrite (proj2 (Z.eqb_neq _ 0)) by done. rewrite (hf_dev _ _ _ Hi0).
  rewrite list_insert_insert_eq in Hm1. change BSIZE with 1024 in *. rewrite Hbn in * |-. cbv zeta. rewrite Hbn.
  assert (Hm0 : 0 < m /\ t + m <= len /\ (off + t) mod 1024 + m <= 1024) by (unfold m; change BSIZE with 1024; zlia).
  destruct (wrote_round t j bl D ip bl1 D1 ip1 m Hw He1 Ha Hinf) as (Hown & Hai & Hv & Hw');
    [lia|lia|lia|lia|exact (proj2 (proj2 Hm0))|exact Hbn|].
  change BSIZE with 1024 in *.
  set (a := baddr D1 (i_addrs ip1) (off / 1024 + Z.of_nat j)) in *. set (r := (off + t) mod 1024) in *.
  assert (Hnd : NoDup (logged_in a bl1)) by apply NoDup_logged_in, (bl_nodup _ _ (li_ok _ _ _ (mi_log _ _ _ _ _ _ _ _ Hm1))).
  assert (Hs1 : space k0 1 bl1 ∅).
  { eapply (space_longer k0 1 (length bitmap_blocks + write_rounds + 1)); [eapply space_fewer; [exact Hspace|lia]|].
    pose proof (wrote_log_length _ _ _ _ _ Hw' Hnd). pose proof (logged_in_length a bl1). lia. }
  destruct Hown as (Ha0 & _ & _ & _ & [Har Hah]).
  kstep. apply (wp_bread_mine me pid k0 dev Hdev bl1 ∅ _ D1 k1 n1 a _ Hm1); [apply lookup_empty|lia|by eapply space_cache|lia|].
  intros bp k2 n2 Hm2 Hn2.
  assert (Em : min (len - t) (1024 - r) = m) by (unfold min, m; change BSIZE with 1024; fold r; destruct (Z.ltb_spec (len - t) (1024 - r)); lia).
  rewrite Em. kstep.
  destruct (Hsrc k2 (answers n2) t m (mi_rest _ _ _ _ _ _ _ _ Hm2)) as [Hcp Hadd]; [lia|lia|lia|].
  eapply wp_Ok; [exact Hcp|]. cbn beta iota.
  kstep. eapply wp_upd_mine; [exact Hm2|apply lookup_insert_eq|exact Hv|]. intros k3 Hm3. cbn [Z.eqb].
  kstep. eapply wp_log_write; [exact Hm3|apply lookup_insert_eq|apply Hs1|exact Hah|]. intros k4 Hm4.
  kstep. eapply wp_brelse_mine; [exact Hm4|apply lookup_insert_eq|left; apply elem_of_logged_in; by right|].
  intros k5 Hm5. rewrite delete_insert_id in Hm5 by apply lookup_empty. apply wp_ret. rewrite Hadd.
  apply (HQ _ _ ip1 k5 n2 Hw' Hm5). lia.
Qed.

Lemma src_at_0 : src_at 0 = src.
Proof. unfold src_at. destruct src as [va|b]; [by rewrite Z.add_0_r|done]. Qed.

(** The loop writes everything. *)
Lemma blocks_left_pos m : 0 < m -> (0 < blocks_left off m)%nat.
Proof. intros Hm. unfold blocks_left. rewrite (proj2 (Z.leb_gt m 0)) by lia. change BSIZE with 1024. zlia. Qed.

Lemma wp_write_loop k n (Q : Z * Z -> world -> Prop) : mine bl0 ∅ I0 D0 k -> (write_rounds * (2 * scan_reads k0 + 2) <= n)%nat ->
  (forall bl D ip k' n', wrote len write_rounds bl D ip -> mine bl ∅ (<[i := ip]> I0) D k' ->
    (n <= n' + write_rounds * (2 * scan_reads k0 + 2))%nat -> Q (len, off + len) (World k' (answers n'))) ->
  wp total (loop (Z.to_nat (len / BSIZE) + 3) (fun '(tot, pos, src) =>
    if tot <? len then write_round tot pos src else ret (inr (tot, pos))) (0, off, src)) Q (World k (answers n)).
Proof.
  intros Hm Hn HQ. set (c := (2 * scan_reads k0 + 2)%nat) in *. change MAXFILE with 268 in *.
  assert (Hself : <[i := ip0]> I0 = I0) by apply list_insert_id, Hi0.
  apply (wp_loop_rounds _ (fun q s w => exists t j bl D ip k1 n1, s = (t, off + t, src_at t) /\
    w = World k1 (answers n1) /\ wrote t j bl D ip /\ mine bl ∅ (<[i := ip]> I0) D k1 /\ 0 <= t <= len /\
    q = blocks_left (off + t) (len - t) /\ (j + q = write_rounds)%nat /\ (t < len -> (off + t) / BSIZE = off / BSIZE + Z.of_nat j) /\
    (q * c <= n1)%nat /\ (n <= n1 + j * c)%nat) _ _ write_rounds).
  - exists 0, 0%nat, bl0, D0, ip0, k, n. rewrite Z.add_0_r, Z.sub_0_r, Hself, src_at_0. split_and!; try done; try lia. by apply wrote_start.
  - pose proof (blocks_left_bound off len ltac:(lia)). unfold write_rounds. lia.
  - intros q s w (t & j & bl & D & ip & k1 & n1 & -> & -> & Hw & Hm1 & Ht & Hq & Hj & Hbn & Hn1 & Hnn).
    destruct (Z.ltb_spec t len) as [Hlt|Hge].
    + pose proof (blocks_left_pos (len - t) ltac:(lia)) as Hp.
      set (m := Z.min (len - t) (BSIZE - (off + t) mod BSIZE)). assert (Hm' : 0 < m) by (unfold m; change BSIZE with 1024; zlia).
      assert (Hmb : (off + t) mod BSIZE + m <= BSIZE) by (unfold m; lia).
      rewrite (blocks_left_step (off + t) (len - t) m ltac:(lia) Hm' Hmb eq_refl) in Hq.
      replace (off + t + m) with (off + (t + m)) in Hq by lia. replace (len - t - m) with (len - (t + m)) in Hq by lia.
      subst q. cbn [Nat.mul] in Hn1.
      apply (wp_write_round t j bl D ip k1 n1 _ Hw Hm1); [lia|lia|by apply Hbn|fold c; lia|].
      intros bl2 D2 ip2 k2 n2 Hw2 Hm2 Hn2. fold c in Hn2. fold m.
      eexists. split; [apply Nat.lt_succ_diag_r|]. exists (t + m), (S j), bl2, D2, ip2, k2, n2.
      split_and!; try done; try lia.
      * rewrite u32_small by (change BSIZE with 1024 in *; lia). by rewrite Z.add_assoc.
      * intros Hlt2. assert (Hm2' : m = BSIZE - (off + t) mod BSIZE) by lia. specialize (Hbn Hlt). clearbody m.
        change BSIZE with 1024 in *. zlia.
    + assert (t = len) as -> by lia. apply wp_ret. unfold blocks_left in Hq. rewrite Z.sub_diag in Hq. cbn in Hq. subst q.
      rewrite Nat.add_0_r in Hj. subst j. by apply (HQ bl D ip k1 n1).
Qed.

(** ** The inode *)

Definition dinode_of (ip : inode) : dinode :=
  Dinode (i_type ip) (i_major ip) (i_minor ip) (i_nlink ip) (i_size ip) (i_addrs ip).
Definition inode_block (ip : inode) : Z := IBLOCK (i_inum ip) sb0.

Lemma wp_iupdate bl I D k n ip (ib := inode_block ip) (Q : unit -> world -> Prop) : mine bl ∅ I D k -> has_file I i ip ->
  writable k0 ib -> space k0 1 bl ∅ -> dinode_ok (dinode_of ip) -> (0 < n)%nat ->
  (forall k' n', mine (logged_in ib bl) ∅ I (upd_blk D ib (put_dinode (dinode_off (i_inum ip)) (dinode_of ip) (D ib))) k' ->
    (n <= n' + 1)%nat -> Q tt (World k' (answers n'))) ->
  wp total (iupdate i) Q (World k (answers n)).
Proof.
  clear -Hdev. intros Hm Hi [Hr Hh] Hs Hd Hn HQ. unfold iupdate. kstep. eapply wp_get_inode_mine; [exact Hm|apply Hi|].
  kstep. apply wp_getk. cbn [w_k]. rewrite (mine_sb _ _ _ _ _ _ _ _ Hm), (hf_dev _ _ _ Hi).
  kstep. apply (wp_bread_mine me pid k0 dev Hdev bl ∅ I D k n ib _ Hm); [apply lookup_empty|lia|by eapply space_cache|done|].
  intros bp k1 n1 Hm1 Hn1. kstep. eapply wp_upd_mine; [exact Hm1|apply lookup_insert_eq| |].
  { apply put_dinode_spec; [exact Hd|apply (mi_size _ _ _ _ _ _ _ _ Hm)]. }
  intros k2 Hm2. kstep. eapply wp_log_write; [exact Hm2|apply lookup_insert_eq|apply Hs|exact Hh|]. intros k3 Hm3.
  eapply wp_brelse_mine; [exact Hm3|apply lookup_insert_eq|left; apply elem_of_logged_in; by right|].
  intros k4 Hm4. rewrite delete_insert_id in Hm4 by apply lookup_empty. by apply (HQ k4 n1).
Qed.

(** The addresses of a file fit in the inode on the disk. *)
Lemma file_addrs_range D addrs : file_ok k0 D addrs -> Forall (fun a => 0 <= a < 4294967296) addrs.
Proof.
  intros [F1 F2 F3 _ _]. assert (Hown : forall x, own k0 D x -> 0 <= x < 4294967296) by (intros x (_ & _ & _ & _ & [? _]); lia).
  apply Forall_lookup. intros j a Hj. pose proof (lookup_lt_Some _ _ _ Hj) as Hl. pose proof (nth_lookup_Some _ _ 0 _ Hj) as Hn.
  destruct (decide (j = 12)%nat) as [->|H12].
  - unfold indirect in F3. change (Z.to_nat NDIRECT) with 12%nat in F3. rewrite Hn in F3. destruct F3 as [->|Ho]; [lia|by apply Hown].
  - assert (Hb : baddr D addrs (Z.of_nat j) = a) by (unfold baddr; rewrite (proj2 (Z.ltb_lt _ _)) by (change NDIRECT with 12; lia); by rewrite Nat2Z.id).
    destruct (F2 (Z.of_nat j)) as [E|Ho]; [unfold in_file; change MAXFILE with 268; lia|lia|rewrite Hb in Ho; by apply Hown].
Qed.

(** ** The whole of writei *)

Context (Hino : dinode_ok (dinode_of ip0)) (Hib : foreign k0 D0 (i_addrs ip0) (inode_block ip0)).
Context (Hstart : off <= i_size ip0) (Hsize : i_size ip0 <= MAXFILE * BSIZE).

(** The file system after the bytes have been written. *)
Record file_written (D : Z -> list Z) (ip : inode) : Prop := FileWritten {
  fw_wf : bitmap_wf k0 D;
  fw_ok : file_ok k0 D (i_addrs ip);
  fw_inode : ip = ip0 <| i_addrs := i_addrs ip |> <| i_size := Z.max (i_size ip0) (off + len) |>;
  fw_bytes : forall pos, 0 <= pos < MAXFILE * BSIZE -> file_byte D (i_addrs ip) pos =
    if decide (off <= pos < off + len) then nth (Z.to_nat (pos - off)) bs 0 else file_byte D0 (i_addrs ip0) pos;
  fw_mapped : forall bn, in_file bn -> baddr D0 (i_addrs ip0) bn <> 0 \/ 0 < len /\ off / BSIZE <= bn /\ bn * BSIZE < off + len ->
    baddr D (i_addrs ip) bn <> 0;
  fw_dinode : forall inum, get_dinode (dinode_off inum) (D (inode_block ip0)) =
    if decide (inum mod IPB = i_inum ip0 mod IPB) then dinode_of ip else get_dinode (dinode_off inum) (D0 (inode_block ip0));
  fw_foreign : forall x, foreign k0 D0 (i_addrs ip0) x -> foreign k0 D (i_addrs ip) x /\ (x <> inode_block ip0 -> D x = D0 x) }.

(** The disk answers [writei] needs at most. *)
Definition write_reads : nat := (write_rounds * (2 * scan_reads k0 + 2) + 1)%nat.

Lemma blocks_left_range bn : 0 < len -> off / BSIZE <= bn -> bn * BSIZE < off + len -> bn < off / BSIZE + Z.of_nat write_rounds.
Proof.
  intros H0 H1 H2. unfold write_rounds, blocks_left. change BSIZE with 1024 in *. destruct (Z.leb_spec len 0); zlia.
Qed.

Lemma wrote_written bl D ip (ip' := ip <| i_size := Z.max (i_size ip0) (off + len) |>) (ib := inode_block ip0) :
  wrote len write_rounds bl D ip ->
  dinode_ok (dinode_of ip') /\
  file_written (upd_blk D ib (put_dinode (dinode_off (i_inum ip0)) (dinode_of ip') (D ib))) ip'.
Proof.
  intros [W1 W2 W3 W4 W5 W6 W7 W8 W9]. destruct (W5 _ Hib) as [Hibf Eib]. fold ib in Hibf, Eib.
  assert (Hown : own k0 D ib) by apply Hibf. assert (Hni : ib <> indirect (i_addrs ip)) by apply Hibf.
  assert (Hd : dinode_ok (dinode_of ip')).
  { destruct Hino as (D1 & D2 & D3 & D4 & D5 & _). unfold ip', dinode_of, dinode_ok. rewrite W3. cbn in *.
    split_and!; try lia; [change MAXFILE with 268 in *; change BSIZE with 1024 in *; lia|apply W2|by eapply file_addrs_range]. }
  split; [done|]. set (v := put_dinode _ _ _).
  assert (Hv : length v = Z.to_nat BSIZE) by (apply put_dinode_spec; [done|by apply W1]).
  change (i_addrs ip) with (i_addrs ip') in *. split.
  - apply upd_wf; [apply Hown|done|done].
  - by apply written_ok.
  - unfold ip'. rewrite W3. by destruct ip0.
  - intros pos Hp. etransitivity; [eapply (foreign_byte k0); done|by apply W4].
  - intros bn Hbn Hc. rewrite written_baddr by done. destruct Hc as [Hc|(H0 & H1 & H2)]; [by apply W7|]. apply W8. split; [done|].
    by apply blocks_left_range.
  - intros inum. fold ib. rewrite upd_blk_eq. unfold v. rewrite <- Eib.
    by apply put_dinode_spec; [|apply W1].
  - intros x Hx. destruct (W5 x Hx) as [Hx1 Ex1]. fold ib. split.
    + destruct Hx1 as (O & N & B). split; [apply upd_own; [apply Hown|done]|]. split; [done|]. intros bn Hbn.
      rewrite written_baddr by done. by apply B.
    + intros Hne. by rewrite upd_blk_ne.
Qed.

Lemma wp_writei k n (Q : Z -> world -> Prop) : mine bl0 ∅ I0 D0 k -> (write_reads <= n)%nat ->
  (forall bl D ip k' n', file_written D ip -> mine bl ∅ (<[i := ip]> I0) D k' ->
    (length bl <= length bl0 + length bitmap_blocks + write_rounds + 2)%nat -> (n <= n' + write_reads)%nat ->
    Q len (World k' (answers n'))) ->
  wp total (writei i src off len) Q (World k (answers n)).
Proof.
  intros Hm Hn HQ. unfold write_reads in Hn. assert (Hmax : MAXFILE * BSIZE = 274432) by done.
  unfold writei. kstep. eapply wp_get_inode_mine; [exact Hm|apply Hi0|].
  rewrite u32_small by lia. rewrite !Z.gtb_ltb, (proj2 (Z.ltb_ge _ _)), (proj2 (Z.ltb_ge _ _)), (proj2 (Z.ltb_ge _ _)) by lia. cbn [orb].
  kstep. apply (wp_write_loop k n); [done|lia|]. intros bl D ip k1 n1 Hw Hm1 Hn1. cbn beta iota.
  pose proof (wrote_has_file _ _ _ _ _ Hw) as Hf. kstep. eapply wp_get_inode_mine; [exact Hm1|apply Hf|].
  assert (Esz : i_size ip = i_size ip0) by (rewrite (wr_inode _ _ _ _ _ Hw); by destruct ip0).
  assert (Einum : i_inum ip = i_inum ip0) by (rewrite (wr_inode _ _ _ _ _ Hw); by destruct ip0).
  destruct (wrote_written bl D ip Hw) as [Hd Hfw]. set (ip' := ip <| i_size := Z.max (i_size ip0) (off + len) |>) in *.
  assert (Hf' : has_file (<[i := ip']> I0) i ip').
  { destruct Hf as [F1 F2 F3]. split; [|done|done]. apply list_lookup_insert_eq.
    pose proof (lookup_lt_Some _ _ _ F1) as Hl. by rewrite length_insert in Hl. }
  assert (Hnd : NoDup bl) by exact (bl_nodup _ _ (li_ok _ _ _ (mi_log _ _ _ _ _ _ _ _ Hm1))).
  pose proof (wrote_log_length _ _ _ _ _ Hw Hnd) as Hlen.
  assert (Hs1 : space k0 1 bl ∅).
  { eapply (space_longer k0 1 (length bitmap_blocks + write_rounds + 1)); [eapply space_fewer; [exact Hspace|lia]|lia]. }
  assert (Hup : forall k2, mine bl ∅ (<[i := ip']> I0) D k2 -> wp total (iupdate i ;;; ret (s32 len)) Q (World k2 (answers n1))).
  { intros k2 Hm2. kstep. destruct Hib as [(_ & _ & _ & _ & Hwr) _].
    apply (wp_iupdate bl _ D k2 n1 ip' _ Hm2 Hf'); [unfold inode_block in *; change (i_inum ip') with (i_inum ip); by rewrite Einum|done|done|lia|].
    intros k3 n3 Hm3 Hn3. apply wp_ret. rewrite s32_small by lia.
    change (inode_block ip') with (IBLOCK (i_inum ip) sb0) in Hm3. change (i_inum ip') with (i_inum ip) in Hm3. rewrite Einum in Hm3.
    apply (HQ _ _ ip' k3 n3 Hfw Hm3); [|unfold write_reads; lia]. pose proof (length_logged_in (IBLOCK (i_inum ip0) sb0) bl). lia. }
  kstep. rewrite Esz. destruct (Z.ltb_spec (i_size ip0) (off + len)) as [Hlt|Hge]; rewrite Z.gtb_ltb.
  - rewrite (proj2 (Z.ltb_lt _ _)) by done. eapply wp_upd_inode_mine; [exact Hm1|apply Hf|]. intros k2 Hm2.
    rewrite list_insert_insert_eq in Hm2. apply Hup. replace ip' with (ip <| i_size := off + len |>); [done|].
    unfold ip'. by rewrite Z.max_r by lia.
  - rewrite (proj2 (Z.ltb_ge _ _)) by done. apply wp_ret. apply Hup. replace ip' with ip; [done|].
    unfold ip'. rewrite Z.max_l by lia. rewrite <- Esz. by destruct ip.
Qed.
End Writei.
