(* ===== verification/Readwrite.v ===== *)
(** What the file system promises of [readi] and [writei] of kernel/fs.c, used inside a transaction: a read
    gives the bytes of the file, a write puts its bytes there and changes no other file, a read
    gives back what a write has stored, and after a crash the file system has all of the write or nothing of it. *)

From S2P Require Export Copy Writei.

Section Readwrite.
Context {L : Layout}.
Context (me : nat) (pid : Z) (k0 : kernel) (dev : kernel -> kernel) (Hdev : device_ok dev).
Implicit Types (k : kernel) (bl : list Z) (I : list inode) (D : Z -> list Z) (i n : nat) (ip : inode) (off : Z) (bs : list Z).
Abbreviation mine := (mine me pid k0).
Abbreviation answers := (disk_works dev me).

(** The file of inode [i] has every block its size needs. *)
Definition no_holes D ip : Prop := forall bn, 0 <= bn -> bn * BSIZE < i_size ip -> baddr D (i_addrs ip) bn <> 0.

(** The offset and the length are ones [readi] and [writei] take: not past the end of the file,
    and no overflow. *)
Definition in_range ip off len : bool := (off <=? i_size ip) && (off + len <? 4294967296).

(** ** Reading *)

Record can_read bl I D i ip : Prop := CanRead {
  cr_file : has_file I i ip;
  cr_cache : (length bl < NBUF)%nat;
  cr_size : 0 <= i_size ip <= MAXFILE * BSIZE;
  cr_mapped : forall bn, 0 <= bn -> bn * BSIZE < i_size ip -> mapped D (i_addrs ip) bn }.

Lemma wp_readi_all bl I D i ip off len dst k n (Q : Z * list Z -> world -> Prop) :
  mine bl ∅ I D k -> can_read bl I D i ip -> 0 <= off < 4294967296 -> 0 <= len < 4294967296 ->
  (2 * blocks_left off (readable ip off len) <= n)%nat ->
  (forall k' n', mine bl ∅ I D k' -> (n <= n' + 2 * blocks_left off (readable ip off len))%nat ->
    Q (if in_range ip off len then (readable ip off len, file_bytes D (i_addrs ip) off (readable ip off len)) else (0, []))
      (World k' (answers n'))) ->
  wp total (readi i false dst off len) Q (World k (answers n)).
Proof.
  intros Hm [Hf Hc Hs Hmap] Hoff Hlen Hn HQ. unfold in_range in HQ.
  destruct (Z.leb_spec off (i_size ip)) as [Hle|Hgt]; cbn [andb] in HQ.
  - destruct (Z.ltb_spec (off + len) 4294967296) as [Hlt|Hge].
    + apply (wp_readi dev Hdev me pid k0 bl I D i ip off len); try done; try lia.
      pose proof (in_cache_size dev Hdev bl ∅) as Hcs. rewrite map_size_empty in Hcs. lia.
    + unfold readi. kstep. eapply wp_get_inode_mine; [exact Hm|apply Hf|]. unfold u32 at 1.
      rewrite (proj2 (Z.ltb_lt ((off + len) mod _) _)) by zlia. rewrite orb_true_r. apply wp_ret. apply (HQ k n); [done|lia].
  - unfold readi. kstep. eapply wp_get_inode_mine; [exact Hm|apply Hf|].
    rewrite Z.gtb_ltb, (proj2 (Z.ltb_lt _ _)) by lia. apply wp_ret. apply (HQ k n); [done|lia].
Qed.

(** C18. [readi] into the kernel, on every branch: the bytes of the file from [off] on, up to the
    end of the file or to the [len] asked for; nothing when the offset is past the end of the file or the sum
    overflows.  The file system is as it was. *)
Theorem readi_correct bl I D i ip off len dst k n :
  mine bl ∅ I D k -> can_read bl I D i ip -> 0 <= off < 4294967296 -> 0 <= len < 4294967296 ->
  (2 * blocks_left off (readable ip off len) <= n)%nat ->
  wp total (readi i false dst off len) (fun r w' =>
    r = (if in_range ip off len then (readable ip off len, file_bytes D (i_addrs ip) off (readable ip off len)) else (0, [])) /\
    exists k' n', w' = World k' (answers n') /\ mine bl ∅ I D k') (World k (answers n)).
Proof. intros Hm Hc Ho Hl Hn. eapply wp_readi_all; [done..|]. intros k' n' Hm' _. split; [done|]. by exists k', n'. Qed.

(** ** Writing *)

(** The invariants of the file system around the file of inode [i], with room on the disk for the
    bytes [bs] at [off]. *)
Record can_write I D i ip off bs : Prop := CanWrite {
  cw_file : has_file I i ip;
  cw_bitmap : bitmap_wf k0 D;
  cw_blocks : file_ok k0 D (i_addrs ip);
  cw_inode : dinode_ok (dinode_of ip);
  cw_inode_block : foreign k0 D (i_addrs ip) (inode_block k0 ip);
  cw_size : 0 <= i_size ip <= MAXFILE * BSIZE;
  cw_free : (2 * write_rounds off bs <= length (free_blocks k0 D))%nat }.
(** Room in the log and in the cache. *)
Definition room bl off bs : Prop := space k0 (length (bitmap_blocks k0) + write_rounds off bs + 5) bl ∅.

Abbreviation len bs := (Z.of_nat (length bs)).

(** The state after a [writei] that has written everything. *)
Definition write_done bl I D i ip off bs (k' : kernel) : Prop := exists bl' D' ip',
  file_written k0 D ip off bs D' ip' /\ mine bl' ∅ (<[i := ip']> I) D' k' /\
  (length bl' <= length bl + length (bitmap_blocks k0) + write_rounds off bs + 2)%nat.

Definition accepted ip off bs : bool := (off <=? i_size ip) && (off + len bs <=? MAXFILE * BSIZE).

(** Where the bytes [bs] come from: memory of the kernel, or the memory of the process from an
    address on, all of which user code can read. *)
Definition source (src : usrc) bs : Prop :=
  match src with
  | SrcKern b => b = bs
  | SrcUser va => 0 <= va /\ va + len bs <= MAXVA /\ exists hold l ts s t p,
      vm_inv hold k0 l ts /\ k_proc k0 !! me = Some p /\ ts !! s = Some (p_pagetable p, t) /\
      forall j b, bs !! j = Some b -> user_byte k0 ts s (va + Z.of_nat j) = Some b
  end.

Lemma mine_cur bl h I D k : mine bl h I D k -> k_cur k0 = Some me.
Proof.
  intros Hm. rewrite <- (rd_cur _ _ _ (ci_ready _ _ _ _ (mi_inv _ _ _ _ _ _ _ _ Hm))).
  by rewrite (proj2 (mi_rest _ _ _ _ _ _ _ _ Hm)).
Qed.

Lemma supplies_kern bs : k_cur k0 = Some me -> supplies k0 bs (SrcKern bs).
Proof.
  intros Hc k e t m [_ Hk] Ht Hm Hl. split; [|cbn; by rewrite drop_drop, Z2Nat.inj_add by lia].
  assert (Hck : k_cur k = Some me) by by rewrite Hk.
  apply (wp_exact _ _ (Ok _ _)). unfold either_copyin. kstep. eapply wp_curproc; [exact Hck|]. by apply wp_ret.
Qed.

Lemma supplies_source `{LO : !LayoutOk L} src bs : k_cur k0 = Some me -> source src bs -> supplies k0 bs src.
Proof.
  intros Hc Hs. destruct src as [va|b]; [|rewrite Hs; by apply supplies_kern].
  destruct Hs as (Hva & Hend & hold & l & ts & s & tr & p & Hv & Hp & Hts & Hb).
  intros k e t m [Hps Hk] Ht Hm Hl. unfold src_at, src_add. assert (HM : MAXVA = 274877906944) by done.
  split; [|rewrite u64_small by lia; f_equal; lia].
  assert (Hck : k_cur k = Some me) by by rewrite Hk.
  destruct Hps as [_ Hps]. destruct (Hps _ _ Hp) as (st & ch & Hpk).
  assert (Hram : k_ram k = k_ram k0) by by rewrite Hk.
  assert (Hvk : vm_inv hold k l ts) by (apply (vm_inv_same hold k0); [done|by rewrite Hk|done]).
  assert (Hub : forall j b, bs !! j = Some b -> user_byte k ts s (va + Z.of_nat j) = Some b).
  { intros j b Hj. rewrite <- (Hb j b Hj). unfold user_byte, entry. by rewrite Hram. }
  apply (wp_exact _ _ (Ok _ _)). unfold either_copyin. kstep. eapply wp_curproc; [exact Hck|].
  kstep. eapply wp_get_proc; [exact Hpk|].
  assert (Hlb : forall j, (Z.to_nat t + j < length bs)%nat ->
    user_byte k ts s (va + t + Z.of_nat j) = bs !! (Z.to_nat t + j)%nat).
  { intros j Hj. destruct (lookup_lt_is_Some_2 bs _ Hj) as [b Hbj]. rewrite Hbj, <- (Hub _ _ Hbj). f_equal. lia. }
  apply (wp_copyin hold l ts s (p_pagetable p) tr (va + t) m (World k e)); [exact Hvk|exact Hts|lia|lia| |].
  - intros bs' Hl' Hr _. do 2 f_equal. apply list_eq. intros j. destruct (decide (j < length bs')%nat) as [Hj|Hj].
    + rewrite lookup_take_lt, lookup_drop by lia. rewrite <- Hlb by lia. symmetry. by apply Hr.
    + rewrite !lookup_ge_None_2; [done|rewrite length_take; lia|lia].
  - intros bs' Hl' _ [Hmax|Hno]; [lia|]. cbn [w_k] in Hno. rewrite Hlb in Hno by lia. apply lookup_ge_None in Hno. lia.
Qed.

Lemma wp_writei_done bl I D i ip off bs src k n (Q : Z -> world -> Prop) : supplies k0 bs src ->
  mine bl ∅ I D k -> can_write I D i ip off bs -> room bl off bs -> 0 <= off -> accepted ip off bs = true ->
  (write_reads k0 off bs <= n)%nat ->
  (forall k' n', write_done bl I D i ip off bs k' -> (n <= n' + write_reads k0 off bs)%nat -> Q (len bs) (World k' (answers n'))) ->
  wp total (writei i src off (len bs)) Q (World k (answers n)).
Proof.
  intros Hsrc Hm [] Hr Ho [H1%Z.leb_le H2%Z.leb_le]%andb_true_iff Hn HQ.
  apply (wp_writei me pid k0 dev Hdev bl I D i ip off bs) with (src := src); try done; try lia.
  intros bl' D' ip' k' n' Hw Hm' Hl Hn'. apply HQ; [|done]. by exists bl', D', ip'.
Qed.

(** C7. [writei] of bytes that can be read - the caller's, in the kernel, or the process's own, in user
    memory - with room for them on the disk, in the log and in the cache: an offset past the end of the
    file, a sum that overflows or a
    write past the largest file is refused with -1 and changes nothing; otherwise all bytes
    are written - the file has them at [off] and its old bytes elsewhere, holes still reading
    as zeros, the size has grown to cover them, the inode is on the disk, the blocks that belong to
    other files and the inodes that share the block are unchanged, and the bitmap is still right.
    The log holds at most the blocks counted.  The short write of a full disk or of bytes that
    cannot be read is not covered. *)
Theorem writei_correct `{LO : !LayoutOk L} bl I D i ip off bs src k n : source src bs ->
  mine bl ∅ I D k -> can_write I D i ip off bs -> room bl off bs -> 0 <= off < 4294967296 -> len bs < 2147483648 ->
  (write_reads k0 off bs <= n)%nat ->
  wp total (writei i src off (len bs)) (fun r w' =>
    if accepted ip off bs then r = len bs /\ exists k' n', w' = World k' (answers n') /\ write_done bl I D i ip off bs k'
    else r = -1 /\ w' = World k (answers n)) (World k (answers n)).
Proof.
  intros Hs Hm Hc Hr Ho Hl Hn. destruct (accepted ip off bs) eqn:Ea.
  - eapply wp_writei_done; [eapply supplies_source; [by eapply mine_cur|done]|done..|lia|done|done|]. intros k' n' Hd _. split; [done|]. by exists k', n'.
  - unfold writei. kstep. eapply wp_get_inode_mine; [exact Hm|apply Hc|]. unfold accepted in Ea. change MAXFILE with 268 in *.
    change BSIZE with 1024 in *. rewrite !Z.gtb_ltb. destruct (Z.ltb_spec (i_size ip) off) as [Hlt|Hge]; [by apply wp_ret|].
    rewrite (proj2 (Z.leb_le _ _)) in Ea by done. cbn [andb] in Ea. apply Z.leb_gt in Ea. cbn [orb]. unfold u32.
    destruct (Z.ltb_spec ((off + len bs) mod 4294967296) off) as [Hlt|Hge']; [by apply wp_ret|].
    rewrite (proj2 (Z.ltb_lt _ _)) by zlia. by apply wp_ret.
Qed.

(** ** Reading what was written *)

Lemma written_can_read bl I D i ip off bs bl' D' ip' : can_write I D i ip off bs -> room bl off bs -> 0 <= off -> accepted ip off bs = true ->
  no_holes D ip -> file_written k0 D ip off bs D' ip' ->
  (length bl' <= length bl + length (bitmap_blocks k0) + write_rounds off bs + 2)%nat ->
  can_read bl' (<[i := ip']> I) D' i ip'.
Proof.
  intros [C1 C2 C3 C4 C5 C6 C7] C8 Ho [H1%Z.leb_le H2%Z.leb_le]%andb_true_iff Hholes [F1 F2 F3 F4 F5 F6 F7] Hl.
  assert (Esz : i_size ip' = Z.max (i_size ip) (off + len bs)) by (rewrite F3; by destruct ip).
  destruct C1 as [G1 G2 G3]. split.
  - split; [apply list_lookup_insert_eq; by eapply lookup_lt_Some|rewrite F3; by destruct ip|apply F2].
  - destruct C8 as [_ C8]. rewrite map_size_empty in C8. lia.
  - lia.
  - intros bn H0 Hbn. assert (Hin : in_file bn) by (unfold in_file; change MAXFILE with 268 in *; change BSIZE with 1024 in *; zlia).
    assert (Hb : baddr D' (i_addrs ip') bn <> 0).
    { apply F5; [done|]. destruct (decide (bn * BSIZE < i_size ip)) as [Hlt|Hge]; [left; by apply Hholes|right].
      change BSIZE with 1024 in *. zlia. }
    assert (Hblk : forall x, own k0 D' x -> is_block x) by (intros x (? & _ & _ & _ & [? _]); unfold is_block; lia).
    split; [destruct (fo_blk _ _ _ F2 bn Hin); [done|by apply Hblk]|]. intros Hn. destruct (fo_ind _ _ _ F2) as [E|Hown]; [|by apply Hblk].
    exfalso. apply Hb. unfold baddr. rewrite (proj2 (Z.ltb_ge _ _)) by lia. by rewrite E.
Qed.

(** C8. What [writei] has stored, [readi] gives back. *)
Theorem write_read bl I D i ip off bs dst k n :
  mine bl ∅ I D k -> can_write I D i ip off bs -> room bl off bs -> no_holes D ip -> 0 <= off -> accepted ip off bs = true ->
  (write_reads k0 off bs + 2 * write_rounds off bs <= n)%nat ->
  wp total (_ <- writei i (SrcKern bs) off (len bs) ;; readi i false dst off (len bs))
    (fun r w' => r = (len bs, bs)) (World k (answers n)).
Proof.
  intros Hm Hc Hr Hholes Ho Ha Hn. kstep.
  eapply wp_writei_done; [by eapply supplies_kern, mine_cur|done..|lia|].
  intros k1 n1 (bl' & D' & ip' & Hw & Hm1 & Hl) Hn1. pose proof Ha as [H1%Z.leb_le H2%Z.leb_le]%andb_true_iff.
  assert (Esz : i_size ip' = Z.max (i_size ip) (off + len bs)) by (rewrite (fw_inode _ _ _ _ _ _ _ Hw); by destruct ip).
  assert (Er : readable ip' off (len bs) = len bs) by (unfold readable; lia).
  change MAXFILE with 268 in *. change BSIZE with 1024 in *.
  eapply wp_readi_all; [exact Hm1|by eapply written_can_read|lia|lia|rewrite Er; unfold write_rounds in Hn; lia|].
  intros k2 n2 _ _. unfold in_range. rewrite (proj2 (Z.leb_le _ _)), (proj2 (Z.ltb_lt _ _)) by lia. cbn [andb]. rewrite Er. f_equal.
  apply list_eq. intros j. unfold file_bytes. rewrite list_lookup_fmap. destruct (decide (j < length bs)%nat) as [Hj|Hj].
  - rewrite lookup_seqZ_lt by lia. cbn [fmap option_fmap option_map]. rewrite (fw_bytes _ _ _ _ _ _ _ Hw).
    + rewrite decide_True by lia. replace (Z.to_nat (off + Z.of_nat j - off)) with j by lia.
      destruct (lookup_lt_is_Some_2 bs j Hj) as [b Hb]. by rewrite Hb, (nth_lookup_Some _ _ _ _ Hb).
    + change MAXFILE with 268. change BSIZE with 1024. lia.
  - rewrite lookup_seqZ_ge by lia. symmetry. apply lookup_ge_None. lia.
Qed.

(** ** The reservation of a system call *)

Lemma chunk_rounds off bs : 0 <= off -> len bs <= 3 * BSIZE -> (write_rounds off bs <= 4)%nat.
Proof. intros Ho Hl. unfold write_rounds, blocks_left. change BSIZE with 1024 in *. destruct (Z.leb_spec (len bs) 0); zlia. Qed.

(** C19. The largest piece [filewrite] gives to [writei], three blocks from user memory, fits the
    [MAXOPBLOCKS] log blocks that [begin_op] reserved for the system call: with that many left in
    the log, with room on the disk and with bytes user code can read, [writei] writes all of
    the piece, and the log grows by no more. *)
Theorem write_reserved `{LO : !LayoutOk L} I D i ip off bs src bl k n : source src bs ->
  sb_size (k_sb k0) < BPB -> len bs <= (MAXOPBLOCKS - 1 - 1 - 2) / 2 * BSIZE ->
  mine bl ∅ I D k -> can_write I D i ip off bs -> space k0 (Z.to_nat MAXOPBLOCKS) bl ∅ -> 0 <= off -> accepted ip off bs = true ->
  (write_reads k0 off bs <= n)%nat ->
  wp total (writei i src off (len bs)) (fun r w' => r = len bs /\
    lh_n (k_log (w_k w')) <= lh_n (k_log k) + MAXOPBLOCKS) (World k (answers n)).
Proof.
  intros Hsrc Hsb Hlen Hm Hc Hs Ho Ha Hn. pose proof (chunk_rounds off bs Ho Hlen) as Hr.
  assert (Hb : (length (bitmap_blocks k0) <= 1)%nat).
  { unfold bitmap_blocks. rewrite length_fmap, length_seqZ. change BPB with 8192 in *. zlia. }
  assert (Hlog : forall bl' I' D' k', mine bl' ∅ I' D' k' -> lh_n (k_log k') = Z.of_nat (length bl')).
  { intros bl' I' D' k' Hm'. rewrite (li_log _ _ _ (mi_log _ _ _ _ _ _ _ _ Hm')). by destruct (k_log k0). }
  eapply wp_writei_done; [eapply supplies_source; [by eapply mine_cur|done]|done..| |done|done|done|].
  { eapply space_fewer; [exact Hs|]. change (Z.to_nat MAXOPBLOCKS) with 10%nat. lia. }
  intros k' n' (bl' & D' & ip' & _ & Hm' & Hl) _. split; [done|]. cbn [w_k]. rewrite (Hlog _ _ _ _ Hm), (Hlog _ _ _ _ Hm').
  unfold MAXOPBLOCKS. lia.
Qed.

(** ** Writing and crashing *)

Abbreviation st := (lg_start (k_log k0)).

(** A transaction at its end is what [commit] starts from. *)
Lemma mine_committing bl I D k : mine bl ∅ I D k -> (length bl + 2 <= NBUF)%nat -> lg_dev (k_log k0) = ROOTDEV ->
  sound st (k_disk k0) -> hdr (k_disk k0 st) = [] -> committing me pid st bl k.
Proof.
  intros Hm Hl Hd Hs Hh. pose proof Hm as [M1 M2 M3 [L1 L2 L3 L4] M5 M6 M7 M8 M9 M10]. rewrite <- M2 in Hs, Hh. split.
  - done.
  - split; [rewrite L1; by destruct (k_log k0)|rewrite <- Hd, L1; by destruct (k_log k0)|rewrite L1; by destruct (k_log k0)|done].
  - intros x. split; [exact (M7 x)|]. rewrite M6. pose proof (one_if_range (x ∈ bl)).
    pose proof (one_if_range (is_Some ((∅ : gmap Z nat) !! x))). lia.
  - pose proof (in_cache_size dev Hdev bl ∅) as Hc. rewrite map_size_empty in Hc. lia.
  - intros x Hx. rewrite M6, one_if_true by done. pose proof (one_if_range (is_Some ((∅ : gmap Z nat) !! x))). lia.
  - done.
  - done.
  - fold (data k st). by rewrite M9.
Qed.

(** The disk after the commit is the file system's view of it. *)
Lemma mine_after bl I D k x : mine bl ∅ I D k -> after bl k x = D x.
Proof.
  intros Hm. unfold after. case_decide as Hx; [apply (mi_data _ _ _ _ _ _ _ _ Hm)|].
  by rewrite (mi_disk _ _ _ _ _ _ _ _ Hm), (mine_clean _ _ _ _ _ _ _ _ _ Hm).
Qed.

(** C6. A write is all or nothing: whenever the machine crashes while the transaction is committed, recovery
    makes of the disk either what it was before the transaction or a file system in which the
    write is complete; and a commit that ends has put the latter on the disk. *)
Theorem write_atomic bl I D i ip off bs k n :
  mine bl ∅ I D k -> can_write I D i ip off bs -> room bl off bs -> 0 <= off -> accepted ip off bs = true ->
  lg_dev (k_log k0) = ROOTDEV -> sound st (k_disk k0) -> hdr (k_disk k0 st) = [] -> (write_reads k0 off bs <= n)%nat ->
  wp (XPost (fun _ _ => False) (fun _ _ => False) (fun w => exists D' ip', file_written k0 D ip off bs D' ip' /\
       sound st (k_disk (w_k w)) /\
       ((forall x, home st x -> replay st (k_disk (w_k w)) x = k_disk k0 x) \/
        (forall x, home st x -> replay st (k_disk (w_k w)) x = D' x))))
    (_ <- writei i (SrcKern bs) off (len bs) ;; commit)
    (fun _ w' => exists D' ip', file_written k0 D ip off bs D' ip' /\ forall x, home st x -> k_disk (w_k w') x = D' x)
    (World k (answers n)).
Proof.
  intros Hm Hc Hr Ho Ha Hd Hs Hh Hn. kstep. apply wp_total.
  eapply wp_writei_done; [by eapply supplies_kern, mine_cur|done..|].
  intros k1 n1 (bl' & D' & ip' & Hw & Hm1 & Hl) Hn1.
  assert (Hcm : committing me pid st bl' k1).
  { eapply mine_committing; try done. destruct Hr as [_ Hr]. rewrite map_size_empty in Hr. lia. }
  pose proof (li_ok _ _ _ (mi_log _ _ _ _ _ _ _ _ Hm1)) as Hbl. pose proof (mi_disk _ _ _ _ _ _ _ _ Hm1) as Hdk.
  apply (wp_commit _ dev Hdev me pid st bl' Hbl k1 n1 _ Hcm).
  - intros k2 _ [Hs2 Hor]. exists D', ip'. split; [done|]. split; [done|]. destruct Hor as [Hor|Hor]; [left|right]; intros x Hx.
    + by rewrite Hor, Hdk.
    + by rewrite Hor, (mine_after _ _ _ _ _ Hm1).
  - intros k2 n2 _ Hct. exists D', ip'. split; [done|]. intros x Hx. cbn [w_k]. by rewrite (ct_disk _ _ _ _ _ _ Hct), (mine_after _ _ _ _ _ Hm1).
Qed.
End Readwrite.

(** ** Witnesses *)

#[local] Existing Instances demo_layout demo_layout_ok.

(** A disk of 60 blocks: the log at 2, the inodes at 34, the bitmap at 36, the blocks from 37 on free; inode 1
    is an empty file, or one of five bytes in block 37, which is full of sevens. *)
Definition demo_sb : superblock := Superblock FSMAGIC 60 23 8 LOGSIZE 2 34 36.
Definition demo_blocks_in_use : list Z := [255; 255; 255; 255; 31] ++ replicate 1019 0.
Definition demo_contents (x : Z) : list Z :=
  if x =? 36 then demo_blocks_in_use else if x =? 37 then replicate 1024 7 else zero_block.
Definition demo_typed (t : Z) : inode := Inode ROOTDEV 1 1 sleeplock0 1 t 0 0 1 0 (replicate 13 0).
Definition demo_empty : inode := demo_typed 2.
Definition demo_tx : log := (demo_log []) <| lg_size := LOGSIZE |> <| lg_outstanding := 1 |>.
Definition demo_five : inode := Inode ROOTDEV 1 1 sleeplock0 1 2 0 0 1 5 (37 :: replicate 12 0).
(** Process 1, which has a page of user memory at 0. *)
Definition demo_writer : proc := proc0 <| p_state := RUNNING |> <| p_pagetable := demo_page 0 |>.
Definition with_user (m : kernel) (k : kernel) : kernel :=
  k <| k_ram := k_ram m |> <| k_kmem := k_kmem m |> <| k_proc ::= <[1%nat := demo_writer]> |>.
Definition demo_with (I : list inode) : kernel :=
  with_user (w_k (demo_map 22)) ((demo_at false demo_contents demo_tx) <| k_sb := demo_sb |> <| k_inode := I |>).
Definition demo_fs : kernel := demo_with [demo_empty].
Definition demo_bytes : list Z := [104; 105].

Lemma demo_len x : length (demo_contents x) = Z.to_nat BSIZE.
Proof. unfold demo_contents. by destruct (x =? 36), (x =? 37). Qed.

(** The cache does not depend on the superblock and the inodes. *)
Lemma cache_inv_fs me pid o k sb I : cache_inv me pid o k -> cache_inv me pid o (k <| k_sb := sb |> <| k_inode := I |>).
Proof. intros [[] H2 H3]. split; [by split|exact H2|exact H3]. Qed.
Lemma blk_of_cache_fs m k sb I x : blk_of_cache (with_user m (k <| k_sb := sb |> <| k_inode := I |>)) x = blk_of_cache k x.
Proof. done. Qed.
Lemma cache_inv_user o k m : cache_inv 1 0 o k -> cache_inv 1 0 o (with_user m k).
Proof.
  intros [[R1 R2 R3 (p & Hp & _) R5] H2 H3]. split; [split|exact H2|exact H3]; [done..| |by rewrite <- R5; cbn; rewrite length_insert].
  exists demo_writer. split_and!; [|done..]. apply list_lookup_insert_eq. by eapply lookup_lt_Some.
Qed.

Lemma demo_mine I : mine 1 0 (demo_with I) [] ∅ I demo_contents (demo_with I).
Proof.
  assert (Hblk : forall x, blk_of_cache (demo_with I) x = Blk 0 (demo_contents x) None).
  { intros x. unfold demo_with. by rewrite blk_of_cache_fs, demo_at_blk, andb_false_r. }
  split.
  - apply rest_refl.
  - reflexivity.
  - reflexivity.
  - split; try reflexivity. split; [unfold LOGSIZE, MAXOPBLOCKS; cbn; lia|done|by apply Forall_nil|by apply Forall_nil|by apply NoDup_nil].
  - apply cache_inv_user, cache_inv_fs, demo_at_inv.
  - intros x. by rewrite Hblk.
  - intros x. unfold lock_of. by rewrite Hblk.
  - apply Nat.leb_le. vm_compute. reflexivity.
  - intros x. unfold data. by rewrite Hblk.
  - apply demo_len.
Qed.

Lemma demo_bblock b : 0 <= b < 60 -> BBLOCK b demo_sb = 36.
Proof. intros Hb. unfold BBLOCK. change BPB with 8192. cbn [sb_bmapstart demo_sb]. rewrite Z.div_small by lia. done. Qed.

(** The blocks up to 36 are in use. *)
Lemma demo_bits b : 0 <= b < 60 -> used_bit demo_contents demo_sb b = (b <? 37).
Proof.
  intros Hb. assert (H : forallb (fun b => Bool.eqb (used_bit demo_contents demo_sb b) (b <? 37)) (seqZ 0 60) = true) by (vm_compute; reflexivity).
  rewrite forallb_forall in H. apply Bool.eqb_prop, H, list_elem_of_In, elem_of_seqZ. lia.
Qed.

Lemma demo_writable I b : 0 <= b < 60 -> b < 2 \/ 32 < b -> writable (demo_with I) b.
Proof. intros Hb Hh. split; [lia|]. unfold home. change (lg_start _) with 2. unfold LOGSIZE, MAXOPBLOCKS. lia. Qed.

Lemma demo_bitmap I : bitmap_wf (demo_with I) demo_contents.
Proof.
  split; [exact demo_len|by vm_compute|by vm_compute| |]; unfold in_disk; change (sb_size _) with 60; change (k_sb (demo_with I)) with demo_sb.
  - intros b Hb. rewrite demo_bblock by done. split; [by apply demo_writable; [|right]|]. split; [done|]. by rewrite demo_bits.
  - intros b Hb. rewrite demo_bits by done. intros Hu%Z.ltb_ge. split; [apply demo_writable; lia|lia].
Qed.

Lemma demo_baddr t bn : in_file bn -> baddr demo_contents (i_addrs (demo_typed t)) bn = 0.
Proof.
  intros Hbn. unfold baddr. change (indirect _) with 0. destruct (Z.ltb_spec bn NDIRECT) as [H|H]; [|done].
  apply (nth_lookup_Some _ _ _ 0), lookup_replicate. split; [done|]. unfold in_file, NDIRECT in *. lia.
Qed.

(** Room for a write to the empty file in the first entry of a table. *)
Lemma demo_write I ty bs off : I !! 0%nat = Some (demo_typed ty) -> 0 <= ty < 4 -> (2 * write_rounds off bs <= 23)%nat ->
  can_write (demo_with I) I demo_contents 0 (demo_typed ty) off bs.
Proof.
  intros HI Hty Hr. split.
  - by split.
  - apply demo_bitmap.
  - split; [done| |by left| |done]; [intros bn Hbn; left; by apply demo_baddr|]. intros bn bn' Hbn _ []. by apply demo_baddr.
  - unfold dinode_ok; cbn. split_and!; try lia. by repeat constructor.
  - change (inode_block (demo_with I) (demo_typed ty)) with 34. split.
    + split; [lia|]. split; [by vm_compute|]. split; [vm_compute; reflexivity|]. split; [|apply demo_writable; lia].
      intros (b & Hb & E). change (k_sb (demo_with I)) with demo_sb in E. rewrite demo_bblock in E by done. lia.
    + split; [done|]. intros bn Hbn. by rewrite demo_baddr.
  - change (i_size (demo_typed ty)) with 0. by vm_compute.
  - assert (Hf : length (free_blocks (demo_with I) demo_contents) = 23%nat) by (vm_compute; reflexivity). by rewrite Hf.
Qed.

Lemma demo_space I c : (c <= 26)%nat -> space (demo_with I) c [] ∅.
Proof.
  intros Hc. split; [split; [by vm_compute|]|].
  - change (lg_size (k_log (demo_with I))) with 30. unfold LOGSIZE, MAXOPBLOCKS. cbn [length]. lia.
  - rewrite map_size_empty. cbn [length]. change NBUF with 30%nat. lia.
Qed.

Lemma demo_can_read : can_read [] [demo_five] demo_contents 0 demo_five.
Proof.
  split; [by split|apply Nat.ltb_lt; reflexivity|by vm_compute|]. change (i_size demo_five) with 5. change BSIZE with 1024.
  intros bn H0 H1. assert (bn = 0) as -> by lia. split; [by vm_compute|by intros []].
Qed.

Lemma readi_correct_witness : exists a w', readi 0 false 0 2 9 (World (demo_with [demo_five]) (disk_works serve 1 2)) = Ok a w' /\ a = (3, [7; 7; 7]).
Proof.
  destruct (wp_total_Ok _ _ _ (readi_correct 1 0 (demo_with [demo_five]) serve serve_ok [] [demo_five] demo_contents 0 demo_five 2 9 0
    (demo_with [demo_five]) 2 (demo_mine [demo_five]) demo_can_read ltac:(lia) ltac:(lia) ltac:(apply Nat.leb_le; reflexivity)))
    as (a & w' & E & Ha & _).
  exists a, w'. split; [exact E|]. rewrite Ha. vm_compute. reflexivity.
Defined.

(** Two bytes into the empty file. *)
Lemma demo_hi : can_write demo_fs [demo_empty] demo_contents 0 demo_empty 0 demo_bytes /\ room demo_fs [] 0 demo_bytes /\
  accepted demo_empty 0 demo_bytes = true /\ (write_reads demo_fs 0 demo_bytes = 7)%nat /\ no_holes demo_contents demo_empty.
Proof.
  split_and!; [apply (demo_write [demo_empty] 2); [done|lia|apply Nat.leb_le; reflexivity]|apply (demo_space [demo_empty]); apply Nat.leb_le; reflexivity|reflexivity|reflexivity|].
  intros bn H0 H1. change (i_size demo_empty) with 0 in H1. change BSIZE with 1024 in H1. lia.
Qed.

Lemma writei_correct_witness : exists a w',
  writei 0 (SrcKern demo_bytes) 0 2 (World demo_fs (disk_works serve 1 7)) = Ok a w' /\
  a = 2 /\ exists k' n', w' = World k' (disk_works serve 1 n') /\ write_done 1 0 demo_fs [] [demo_empty] demo_contents 0 demo_empty 0 demo_bytes k'.
Proof.
  destruct demo_hi as (Hw & Hr & Ha & Hn & _).
  destruct (wp_total_Ok _ _ _ (writei_correct 1 0 demo_fs serve serve_ok [] [demo_empty] demo_contents 0 demo_empty 0 demo_bytes
    (SrcKern demo_bytes) demo_fs 7 eq_refl (demo_mine [demo_empty]) Hw Hr ltac:(lia) ltac:(by vm_compute) ltac:(by rewrite Hn))) as (a & w' & E & HQ).
  rewrite Ha in HQ. exists a, w'. by split.
Defined.

Lemma write_read_witness : exists w',
  (_ <- writei 0 (SrcKern demo_bytes) 0 2 ;; readi 0 false 0 0 2) (World demo_fs (disk_works serve 1 9)) = Ok (2, demo_bytes) w'.
Proof.
  destruct demo_hi as (Hw & Hr & Ha & Hn & Hh).
  destruct (wp_total_Ok _ _ _ (write_read 1 0 demo_fs serve serve_ok [] [demo_empty] demo_contents 0 demo_empty 0 demo_bytes 0 demo_fs 9
    (demo_mine [demo_empty]) Hw Hr Hh ltac:(lia) Ha ltac:(by rewrite Hn))) as (a & w' & E & ->).
  by exists w'.
Defined.

Lemma vm_inv_user hold m k l ts : vm_inv hold m l ts -> vm_inv hold (with_user m k) l ts.
Proof. by apply vm_inv_same. Qed.
Lemma user_byte_user m k ts i va : user_byte (with_user m k) ts i va = user_byte m ts i va.
Proof. done. Qed.

(** Two bytes of the process's page. *)
Definition demo_fives : list Z := [5; 5].
Lemma demo_source : source 1 demo_fs (SrcUser 8) demo_fives.
Proof.
  assert (Hr : (if copyin (demo_page 0) 8 2 (demo_map 22) is Ok (r, bs) _ then bool_decide (r = 0 /\ bs = demo_fives) else false) = true)
    by (vm_compute; exact eq_refl).
  destruct demo22 as (l & t & _ & Hv & _).
  assert (Hb : forall j b, demo_fives !! j = Some b -> user_byte (w_k (demo_map 22)) (demo_spaces t) 0 (8 + Z.of_nat j) = Some b).
  { pose proof (fun Q => wp_copyin hold_none l (demo_spaces t) 0%nat (demo_page 0) t 8 2 (demo_map 22) Hv eq_refl ltac:(lia) ltac:(lia)
      total Q) as H.
    specialize (H (fun r _ => reads (w_k (demo_map 22)) (demo_spaces t) 0 8 (snd r))).
    apply wp_total_Ok in H as ([r bs] & w' & Er & Hrd); [|by intros|by intros].
    rewrite Er in Hr. apply bool_decide_eq_true in Hr as [_ ->]. intros j b Hj. rewrite <- Hj. apply Hrd.
    by eapply lookup_lt_Some. }
  refine (conj _ (conj _ (ex_intro _ hold_none (ex_intro _ l (ex_intro _ (demo_spaces t) (ex_intro _ 0%nat (ex_intro _ t
    (ex_intro _ demo_writer (conj (vm_inv_user _ _ _ _ _ Hv) (conj eq_refl (conj eq_refl _))))))))))).
  - lia.
  - by vm_compute.
  - intros j b Hj. rewrite <- (Hb j b Hj). unfold demo_fs, demo_with. apply user_byte_user.
Qed.

Lemma write_reserved_witness : exists a w', writei 0 (SrcUser 8) 0 2 (World demo_fs (disk_works serve 1 7)) = Ok a w' /\
  a = 2 /\ lh_n (k_log (w_k w')) <= 10.
Proof.
  assert (Hw : can_write demo_fs [demo_empty] demo_contents 0 demo_empty 0 demo_fives) by (apply (demo_write [demo_empty] 2); [done|lia|apply Nat.leb_le; reflexivity]).
  assert (Hn : (write_reads demo_fs 0 demo_fives <= 7)%nat) by (apply Nat.leb_le; reflexivity).
  exact (wp_total_Ok _ _ _ (write_reserved 1 0 demo_fs serve serve_ok [demo_empty] demo_contents 0 demo_empty 0 demo_fives (SrcUser 8) [] demo_fs 7
    demo_source eq_refl ltac:(by vm_compute) (demo_mine [demo_empty]) Hw
    (demo_space [demo_empty] 10 ltac:(lia)) ltac:(lia) eq_refl Hn)).
Defined.

Lemma demo_log_empty : sound 2 demo_contents /\ hdr (demo_contents 2) = [].
Proof.
  assert (H : hdr (demo_contents 2) = []) by (vm_compute; reflexivity). split; [|exact H]. split; [|by rewrite H|reflexivity].
  rewrite H. apply demo_sound.
Qed.

(** With 40 answers of the disk the write is on the disk; with ten the machine stops during the commit. *)
Lemma write_atomic_witness (m := _ <- writei 0 (SrcKern demo_bytes) 0 2 ;; commit) :
  (exists a w', m (World demo_fs (disk_works serve 1 40)) = Ok a w' /\ exists D' ip',
    file_written demo_fs demo_contents demo_empty 0 demo_bytes D' ip' /\ forall x, home 2 x -> k_disk (w_k w') x = D' x) /\
  (exists w, m (World demo_fs (disk_works serve 1 10)) = Blocked w /\ exists D' ip',
    file_written demo_fs demo_contents demo_empty 0 demo_bytes D' ip' /\ sound 2 (k_disk (w_k w)) /\
    ((forall x, home 2 x -> replay 2 (k_disk (w_k w)) x = k_disk demo_fs x) \/
     (forall x, home 2 x -> replay 2 (k_disk (w_k w)) x = D' x))).
Proof.
  destruct demo_hi as (Hw & Hr & Ha & Hn & _). destruct demo_log_empty as [Hs Hh].
  pose proof (fun n => write_atomic 1 0 demo_fs serve serve_ok [] [demo_empty] demo_contents 0 demo_empty 0 demo_bytes demo_fs n
    (demo_mine [demo_empty]) Hw Hr ltac:(lia) Ha eq_refl Hs Hh) as H. rewrite Hn in H. split.
  - refine (wp_returned _ _ _ _ (H 40%nat ltac:(lia)) _). vm_compute. exact eq_refl.
  - refine (wp_blocked _ _ _ _ (H 10%nat ltac:(lia)) _). vm_compute. exact eq_refl.
Defined.
