(* ===== verification/Dirs.v ===== *)
(** Inodes and directories of kernel/fs.c on the disk the cache and the log present: [iget],
    [iupdate] and [ilock], [dirlookup] and [dirlink].  What one of them stores the other finds, through
    the buffer cache and the log; the bytes in between are those of file Ondisk. *)

From S2P Require Export Readwrite Ondisk.

Section Dirs.
Context {L : Layout}.
Context (me : nat) (pid : Z) (k0 : kernel) (dev : kernel -> kernel) (Hdev : device_ok dev).
Implicit Types (k : kernel) (bl : list Z) (I : list inode) (D : Z -> list Z) (i j n : nat) (ip : inode) (inum : Z).
Abbreviation mine := (mine me pid k0).
Abbreviation answers := (disk_works dev me).

(** ** The inode table *)

(** The table has the inode in [ip]. *)
Definition is_inode inum ip : Prop := 0 < i_ref ip /\ i_dev ip = ROOTDEV /\ i_inum ip = inum.
#[export] Instance is_inode_dec inum ip : Decision (is_inode inum ip).
Proof. unfold is_inode. apply _. Defined.

(** The entry [iget] takes: the inode's, or the first free one. *)
Definition inode_slot I inum : option nat :=
  match list_find (is_inode inum) I with
  | Some (i, _) => Some i
  | None => fst <$> list_find (fun ip => i_ref ip = 0) I
  end.
Definition referenced inum ip : inode :=
  if decide (is_inode inum ip) then ip <| i_ref ::= Z.add 1 |>
  else ip <| i_dev := ROOTDEV |> <| i_inum := inum |> <| i_ref := 1 |> <| i_valid := 0 |>.

Lemma referenced_is inum ip : is_inode inum (referenced inum ip).
Proof.
  unfold referenced. case_decide as H; [|by split_and!].
  destruct H as (H1 & H2 & H3). split_and!; [cbn; lia|done|done].
Qed.

Lemma iget_scan_eq inum l pre empty w : k_inode (w_k w) = pre ++ l ->
  iget_scan ROOTDEV inum (seq (length pre) (length l)) empty w =
    Ok (match list_find (is_inode inum) l with
        | Some (j, _) => inl (length pre + j)%nat
        | None => inr (match empty with
                       | Some _ => empty
                       | None => (fun p => (length pre + fst p)%nat) <$> list_find (fun ip => i_ref ip = 0) l
                       end)
        end) w.
Proof.
  revert pre empty. induction l as [|ip l IH]; intros pre empty Hk; cbn [length seq iget_scan list_find].
  - by destruct empty.
  - assert (Hip : k_inode (w_k w) !! length pre = Some ip) by (rewrite Hk; by apply list_lookup_middle).
    rewrite (bind_Ok _ _ w ip w).
    2: { unfold get_inode, bind, getk, gets. by rewrite Hip. }
    assert (Hb : (i_ref ip >? 0) && (i_dev ip =? ROOTDEV) && (i_inum ip =? inum) = bool_decide (is_inode inum ip)).
    { apply eq_true_iff_eq. rewrite Z.gtb_ltb, !andb_true_iff, Z.ltb_lt, !Z.eqb_eq, bool_decide_eq_true.
      unfold is_inode. tauto. }
    rewrite Hb. case_bool_decide as Hc.
    + rewrite decide_True by done. by rewrite Nat.add_0_r.
    + rewrite decide_False by done. specialize (IH (pre ++ [ip])). rewrite length_app in IH. cbn [length] in IH.
      rewrite Nat.add_1_r in IH. rewrite IH by by rewrite <- app_assoc. f_equal.
      destruct (list_find (is_inode inum) l) as [[j q]|]; cbn; [by rewrite Nat.add_succ_r|]. f_equal.
      destruct empty as [x|]; [done|]. destruct (Z.eqb_spec (i_ref ip) 0) as [Hz|Hz].
      * rewrite decide_True by done. cbn. by rewrite Nat.add_0_r.
      * rewrite decide_False by done. destruct (list_find _ l) as [[j q]|]; cbn; [by rewrite Nat.add_succ_r|done].
Qed.

Lemma mine_proc bl h I D k : mine bl h I D k -> k_cur k = Some me /\ k_held k = [] /\
  exists p, k_proc k !! me = Some p /\ p_pid p = pid.
Proof. intros Hm. destruct (ci_ready _ _ _ _ (mi_inv _ _ _ _ _ _ _ _ Hm)) as [_ H1 H2 (p & H3 & _ & H4) _]. eauto. Qed.

Lemma wp_iget bl h I D k e inum i (Q : nat -> world -> Prop) : mine bl h I D k -> length I = NINODE ->
  inode_slot I inum = Some i ->
  (forall ip k', I !! i = Some ip -> mine bl h (<[i := referenced inum ip]> I) D k' -> Q i (World k' e)) ->
  wp total (iget ROOTDEV inum) Q (World k e).
Proof.
  intros Hm Hlen Hs HQ. destruct (mine_proc _ _ _ _ _ Hm) as (Hcur & Hh & _). pose proof (mi_inode _ _ _ _ _ _ _ _ Hm) as HI.
  assert (Hend : forall ip f, I !! i = Some ip -> f ip = referenced inum ip ->
    wp total (upd_inode i f ;;; release LkItable ;;; ret i) Q (World (k <| k_held := [LkItable] |>) e)).
  { intros ip f Hip Hf. assert (Hip' : k_inode k !! i = Some ip) by by rewrite HI.
    kstep. unfold upd_inode. kstep. apply (wp_get_inode _ _ _ ip); [exact Hip'|]. apply wp_modk.
    kstep. apply (wp_release _ _ _ []); [exact (release_held_head _ _)|]. apply wp_ret.
    eapply wp_world_eq; [apply (HQ ip (k <| k_inode := <[i := referenced inum ip]> I |>) Hip), (mine_inodes me pid k0 bl h I), Hm|].
    rewrite <- HI, <- Hf. clear -Hh. destruct k. cbn in Hh. by subst. }
  unfold iget. kstep. apply wp_acquire; [cbn; rewrite Hh; apply not_elem_of_nil|]. cbn [w_k w_env].
  match goal with |- wp _ _ _ ?w1 => replace w1 with (World (k <| k_held := [LkItable] |>) e)
    by (clear -Hh; destruct k; cbn in *; by subst) end.
  kstep. eapply wp_Ok; [rewrite <- Hlen; apply (iget_scan_eq inum I [] None); exact HI|].
  unfold inode_slot in Hs. destruct (list_find (is_inode inum) I) as [[j ip]|] eqn:Ef.
  - injection Hs as ->. apply list_find_Some in Ef as (Hip & Hin & _). apply (Hend ip); [done|].
    unfold referenced. by rewrite decide_True.
  - destruct (list_find (fun ip => i_ref ip = 0) I) as [[j ip]|] eqn:Eg; [|done]. injection Hs as ->.
    apply list_find_Some in Eg as (Hip & H0 & _).
    apply (Hend ip); [done|]. unfold referenced. by rewrite decide_False by (intros [? _]; lia).
Qed.

(** ** Loading an inode *)

Definition loaded (d : dinode) ip : inode :=
  ip <| i_lock := Sleeplock 1 pid |> <| i_type := di_type d |> <| i_major := di_major d |>
     <| i_minor := di_minor d |> <| i_nlink := di_nlink d |> <| i_size := di_size d |>
     <| i_addrs := di_addrs d |> <| i_valid := 1 |>.
(** The inode as the disk has it. *)
Definition disk_inode D inum : dinode := get_dinode (dinode_off inum) (D (IBLOCK inum (k_sb k0))).

(** An inode in the table that is referenced, not locked and not yet read. *)
Record unread I i ip : Prop := Unread {
  ur_inode : I !! i = Some ip;
  ur_dev : i_dev ip = ROOTDEV;
  ur_ref : 0 < i_ref ip;
  ur_free : sl_locked (i_lock ip) = 0;
  ur_valid : i_valid ip = 0 }.

Lemma wp_ilock E bl I D k n i ip (x := IBLOCK (i_inum ip) (k_sb k0)) (d := disk_inode D (i_inum ip)) (Q : unit -> world -> Prop) :
  mine bl ∅ I D k -> unread I i ip -> (length bl < NBUF)%nat -> 0 <= x < 2147483648 -> (0 < n)%nat ->
  (forall k' n', mine bl ∅ (<[i := loaded d ip]> I) D k' -> (n <= n' + 1)%nat ->
    if di_type d =? 0 then on_panic E "ilock: no type" (World k' (answers n')) else Q tt (World k' (answers n'))) ->
  wp E (ilock i) Q (World k (answers n)).
Proof.
  intros Hm [U1 U2 U3 U4 U5] Hc Hx Hn HQ. destruct (mine_proc _ _ _ _ _ Hm) as (Hcur & Hh & p & Hp & Hpid).
  pose proof (mi_inode _ _ _ _ _ _ _ _ Hm) as HI. assert (Hik : k_inode k !! i = Some ip) by by rewrite HI.
  unfold ilock. kstep. apply wp_total. eapply wp_get_inode_mine; [exact Hm|exact U1|].
  rewrite (proj2 (Z.ltb_ge _ _)) by lia. set (ip1 := ip <| i_lock := Sleeplock 1 pid |>).
  kstep. apply (wp_acquiresleep_free _ _ (i_lock ip) _) with (i := me) (p := p);
    [cbn; by rewrite Hik|cbn; rewrite Hh; apply not_elem_of_nil|done|done|done|]. cbn [w_k w_env].
  match goal with |- wp _ _ _ (World ?k1 _) => assert (Hm1 : mine bl ∅ (<[i := ip1]> I) D k1) end.
  { rewrite Hpid. unfold took, set_sl, upd_inodes.
    replace (k <| k_inode ::= _ |>) with (k <| k_inode := <[i := ip1]> I |>); [by apply (mine_inodes me pid k0 bl ∅ I)|].
    unfold ip1. rewrite <- HI, (insert_is_alter (fun ip => ip <| i_lock := Sleeplock 1 pid |>)) by done. by destruct k. }
  match goal with |- wp _ _ _ (World ?k1 _) => generalize k1, Hm1 end. clear k Hm Hcur Hh Hp HI Hik Hm1. intros k Hm.
  assert (Hip1 : <[i := ip1]> I !! i = Some ip1) by (apply list_lookup_insert_eq; by eapply lookup_lt_Some).
  kstep. apply wp_total. eapply wp_get_inode_mine; [exact Hm|exact Hip1|].
  change (i_valid ip1) with (i_valid ip). rewrite U5. cbn [Z.eqb when].
  kstep. apply wp_getk. cbn [w_k]. rewrite (mine_sb _ _ _ _ _ _ _ _ Hm).
  change (i_dev ip1) with (i_dev ip). rewrite U2. change (i_inum ip1) with (i_inum ip). fold x.
  kstep. apply wp_total.
  apply (wp_bread_mine me pid k0 dev Hdev bl ∅ _ D k n x _ Hm); [apply lookup_empty|done|pose proof (in_cache_size dev Hdev bl ∅) as Hcs; rewrite map_size_empty in Hcs; lia|done|].
  intros bp k1 n1 Hm1 Hn1. kstep. apply wp_total. eapply wp_get_data; [exact Hm1|apply lookup_insert_eq|].
  cbv zeta. change (get_dinode _ (D x)) with d. kstep. apply wp_total. eapply wp_upd_inode_mine; [exact Hm1|exact Hip1|]. intros k2 Hm2.
  rewrite list_insert_insert_eq in Hm2.
  kstep. apply wp_total. eapply wp_brelse_mine; [exact Hm2|apply lookup_insert_eq| |].
  { destruct (decide (x ∈ bl)); [by left|right]. eapply (mine_clean me pid k0 bl ∅ _ D k); [exact Hm|done|apply lookup_empty]. }
  intros k3 Hm3. rewrite delete_insert_id in Hm3 by apply lookup_empty.
  kstep. apply wp_total. eapply wp_upd_inode_mine; [exact Hm3|apply list_lookup_insert_eq; by eapply lookup_lt_Some|]. intros k4 Hm4.
  rewrite list_insert_insert_eq in Hm4. specialize (HQ k4 n1 Hm4 Hn1).
  destruct (di_type d =? 0); cbn [when]; [by apply wp_panic|by apply wp_ret].
Qed.

(** C21. The inode on the disk.  After [iupdate] of one inode, [ilock] of an inode of the same block
    that has not been read yet finds, if it is the same inode, exactly the type, the device numbers, the
    number of links, the size and the addresses that [iupdate] found in memory, and if it is another one,
    what the disk had for it; an inode without a type is a panic.  The block is in the log, no other block
    has changed, and the inode is locked by the process. *)
Theorem iupdate_ilock bl I D k n i ip j jp (x := IBLOCK (i_inum ip) (k_sb k0))
    (d := if decide (i_inum jp mod IPB = i_inum ip mod IPB) then dinode_of ip else disk_inode D (i_inum jp)) :
  mine bl ∅ I D k -> has_file I i ip -> unread I j jp -> IBLOCK (i_inum jp) (k_sb k0) = x ->
  writable k0 x -> space k0 1 bl ∅ -> (length bl + 1 < NBUF)%nat -> dinode_ok (dinode_of ip) -> (2 <= n)%nat ->
  wp (XPost (fun s _ => s = "ilock: no type" /\ di_type d = 0) (fun _ _ => False) (fun _ => False))
    (iupdate i ;;; ilock j)
    (fun _ w' => di_type d <> 0 /\ exists D' k' n', w' = World k' (answers n') /\
      mine (logged_in x bl) ∅ (<[j := loaded d jp]> I) D' k' /\ forall y, y <> x -> D' y = D y)
    (World k (answers n)).
Proof.
  intros Hm Hf Hu Hx Hw Hs Hb Hd Hn. kstep. apply wp_total.
  apply (wp_iupdate me pid k0 dev Hdev i bl I D k n ip _ Hm Hf); [done|done|done|lia|].
  intros k1 n1 Hm1 Hn1. change (inode_block k0 ip) with x in Hm1. set (v := put_dinode _ _ _) in Hm1.
  assert (Hv : forall inum', get_dinode (dinode_off inum') v = if decide (inum' mod IPB = i_inum ip mod IPB)
    then dinode_of ip else get_dinode (dinode_off inum') (D x)) by (by apply put_dinode_spec; [|apply (mi_size _ _ _ _ _ _ _ _ Hm)]).
  assert (Ed : disk_inode (upd_blk D x v) (i_inum jp) = d).
  { unfold disk_inode. rewrite Hx, upd_blk_eq, Hv. unfold d. case_decide; [done|]. unfold disk_inode. by rewrite Hx. }
  apply (wp_ilock _ _ _ _ _ _ _ _ _ Hm1 Hu); [pose proof (length_logged_in x bl); lia|rewrite Hx; apply Hw|lia|].
  intros k2 n2 Hm2 _. rewrite Ed in Hm2 |- *. destruct (Z.eqb_spec (di_type d) 0) as [E0|E0]; [by split|].
  split; [done|]. exists (upd_blk D x v), k2, n2. split_and!; [done|done|]. intros y Hy. by apply upd_blk_ne.
Qed.

(** ** Directories *)

(** The entries of the directory in inode [ip], the dead ones too. *)
Definition dir_entry D ip (j : nat) : dirent := dirent_of (file_bytes D (i_addrs ip) (16 * Z.of_nat j) 16).
Definition dir_entries D ip : list dirent := dir_entry D ip <$> seq 0 (Z.to_nat (i_size ip / 16)).

(** An entry in use whose name is the same as far as names are stored. *)
Definition names (name : list Z) (de : dirent) : Prop := de_inum de <> 0 /\ namecmp name (de_name de) = 0.
#[export] Instance names_dec name de : Decision (names name de).
Proof. unfold names. apply _. Defined.

Record is_dir bl I D i ip : Prop := IsDir {
  id_read : can_read bl I D i ip;
  id_type : i_type ip = T_DIR;
  id_size : i_size ip mod 16 = 0 }.

Lemma dir_entries_lookup D ip j de : dir_entries D ip !! j = Some de <->
  de = dir_entry D ip j /\ (j < Z.to_nat (i_size ip / 16))%nat.
Proof.
  unfold dir_entries. rewrite list_lookup_fmap_Some. setoid_rewrite lookup_seq. split; [by intros (? & -> & -> & ?)|].
  intros [-> ?]. by exists j.
Qed.
Lemma length_dir_entries D ip : length (dir_entries D ip) = Z.to_nat (i_size ip / 16).
Proof. unfold dir_entries. by rewrite length_fmap, length_seq. Qed.

Section Directory.
Context (bl : list Z) (I : list inode) (D : Z -> list Z) (dp : nat) (ip : inode) (Hd : is_dir bl I D dp ip).
Abbreviation es := (dir_entries D ip).

Lemma dir_size : i_size ip = 16 * Z.of_nat (length es) /\ i_size ip <= 274432.
Proof.
  destruct Hd as [[_ _ Hs _] _ Hm]. change (MAXFILE * BSIZE) with 274432 in Hs. rewrite length_dir_entries. split; zlia.
Qed.

Lemma wp_read_entry k n j de (Q : Z * list Z -> world -> Prop) : mine bl ∅ I D k -> es !! j = Some de -> (2 <= n)%nat ->
  (forall bs k' n', dirent_of bs = de -> mine bl ∅ I D k' -> (n <= n' + 2)%nat -> Q (16, bs) (World k' (answers n'))) ->
  wp total (readi dp false 0 (16 * Z.of_nat j) 16) Q (World k (answers n)).
Proof.
  intros Hm Hj Hn HQ. pose proof dir_size as [Hs Hmax]. pose proof (lookup_lt_Some _ _ _ Hj) as Hlt.
  apply dir_entries_lookup in Hj as [-> _].
  assert (Hr : readable ip (16 * Z.of_nat j) 16 = 16) by (unfold readable; lia).
  assert (Hb : blocks_left (16 * Z.of_nat j) 16 = 1%nat).
  { unfold blocks_left. change BSIZE with 1024. cbn [Z.leb Z.compare]. change (16 <=? 0) with false. zlia. }
  eapply (wp_readi_all me pid k0 dev Hdev bl I D dp ip); [exact Hm|apply Hd|lia|lia|rewrite Hr, Hb; lia|].
  intros k' n' Hm' Hn'. rewrite Hr, Hb in Hn'. unfold Readwrite.in_range.
  rewrite (proj2 (Z.leb_le _ _)), (proj2 (Z.ltb_lt _ _)) by lia. cbn [andb]. rewrite Hr. apply HQ; [done|done|lia].
Qed.

(** The index of the first entry with [P], or the number of entries. *)
Definition first (P : dirent -> Prop) `{!forall de, Decision (P de)} : nat := default (length es) (fst <$> list_find P es).

Lemma first_le P `{!forall de, Decision (P de)} : (first P <= length es)%nat.
Proof.
  unfold first. destruct (list_find P es) as [[j de]|] eqn:E; cbn; [|lia].
  apply list_find_Some in E as (Hj%lookup_lt_Some & _). lia.
Qed.
Lemma first_before P `{!forall de, Decision (P de)} j : (j < first P)%nat -> exists de, es !! j = Some de /\ ~ P de.
Proof.
  intros Hj. pose proof (first_le P). destruct (lookup_lt_is_Some_2 es j) as [de Hde]; [lia|]. exists de. split; [done|].
  unfold first in Hj. destruct (list_find P es) as [[i d]|] eqn:E; cbn in Hj.
  - apply list_find_Some in E as (_ & _ & H1). by eapply H1.
  - apply list_find_None in E. by eapply Forall_lookup_1 in E.
Qed.

(** A loop over the entries that stops at the first one with [P]. *)
Lemma wp_scan_dir {R} E (P : dirent -> Prop) `{!forall de, Decision (P de)} (body : Z -> K (Z + R)) k n (Q : R -> world -> Prop) :
  mine bl ∅ I D k -> (2 * length es <= n)%nat ->
  (forall j de k' n', es !! j = Some de -> ~ P de -> mine bl ∅ I D k' -> (2 <= n')%nat ->
    wp E (body (16 * Z.of_nat j)) (fun r w => r = inl (16 * Z.of_nat (S j)) /\
      exists k2 n2, w = World k2 (answers n2) /\ mine bl ∅ I D k2 /\ (n' <= n2 + 2)%nat) (World k' (answers n'))) ->
  (forall k' n', mine bl ∅ I D k' -> (n <= n' + 2 * first P)%nat ->
    wp E (body (16 * Z.of_nat (first P)))
      (fun r w => exists a, r = inr a /\ Q a w) (World k' (answers n'))) ->
  wp E (loop (Z.to_nat (i_size ip / 16) + 2) body 0) Q (World k (answers n)).
Proof.
  intros Hm Hn Hno Hyes. pose proof (first_le P) as Hf. pose proof (length_dir_entries D ip) as Hl.
  apply (wp_loop _ (fun off w => exists j k' n', off = 16 * Z.of_nat j /\ w = World k' (answers n') /\
      mine bl ∅ I D k' /\ (j <= first P)%nat /\ (n <= n' + 2 * j)%nat)
    (fun off _ => (first P - Z.to_nat (off / 16))%nat)).
  - exists 0%nat, k, n. split_and!; [done|done|done|lia|lia].
  - rewrite Z.div_0_l by done. lia.
  - intros off w (j & k' & n' & -> & -> & Hm' & Hj & Hn'). destruct (decide (j = first P)) as [->|Hne].
    + eapply wp_mono; [by apply Hyes|]. by intros r w (a & -> & HQ).
    + destruct (first_before P j) as (de & Hde & HP); [lia|].
      eapply wp_mono; [apply (Hno j de); [done|done|done|lia]|]. intros r w (-> & k2 & n2 & -> & Hm2 & Hn2). split.
      * exists (S j), k2, n2. split_and!; [done|done|done|lia|lia].
      * zlia.
Qed.

Lemma entry_off j : (j <= length es)%nat -> u32 (16 * Z.of_nat j + 16) = 16 * Z.of_nat (S j).
Proof. intros Hj. pose proof dir_size. rewrite u32_small; lia. Qed.

Lemma entry_before j de : es !! j = Some de -> (16 * Z.of_nat j <? i_size ip) = true.
Proof. intros Hj%lookup_lt_Some. pose proof dir_size. apply Z.ltb_lt. lia. Qed.

(** What is done at the end of a search. *)
Lemma find_cases P `{!forall de, Decision (P de)} : match list_find P es with
  | Some (j, de) => first P = j /\ es !! j = Some de /\ P de
  | None => first P = length es
  end.
Proof.
  unfold first. destruct (list_find P es) as [[j de]|] eqn:E; [|done]. cbn.
  by apply list_find_Some in E as (? & ? & _).
Qed.

Lemma wp_dirlookup name k n (Q : option (nat * Z) -> world -> Prop) : mine bl ∅ I D k -> (2 * length es <= n)%nat ->
  (forall k' n', mine bl ∅ I D k' -> (n <= n' + 2 * length es)%nat ->
    match list_find (names name) es with
    | Some (j, de) => wp total (iget ROOTDEV (de_inum de)) (fun i w => Q (Some (i, 16 * Z.of_nat j)) w) (World k' (answers n'))
    | None => Q None (World k' (answers n'))
    end) ->
  wp total (dirlookup dp name) Q (World k (answers n)).
Proof.
  intros Hm Hn HQ. destruct Hd as [[Hf _ _ _] Ht _]. unfold dirlookup. kstep. eapply wp_get_inode_mine; [exact Hm|apply Hf|].
  rewrite Ht. cbn [Z.eqb Pos.eqb T_DIR negb].
  assert (Hread : forall j de k' n' (Q' : Z * list Z -> world -> Prop), es !! j = Some de -> mine bl ∅ I D k' -> (2 <= n')%nat ->
    (forall bs k2 n2, dirent_of bs = de -> mine bl ∅ I D k2 -> (n' <= n2 + 2)%nat -> Q' (16, bs) (World k2 (answers n2))) ->
    wp total (readi dp false 0 (16 * Z.of_nat j) 16) Q' (World k' (answers n'))) by (intros; by eapply wp_read_entry).
  apply (wp_scan_dir total (names name)); [done|done| |].
  - intros j de k' n' Hj HP Hm' Hn'. kstep. eapply wp_get_inode_mine; [exact Hm'|apply Hf|]. rewrite (entry_before _ _ Hj).
    kstep. apply (Hread j de); [done|done|done|]. intros bs k2 n2 Hbs Hm2 Hn2. cbn beta iota. cbn [Z.eqb Pos.eqb negb]. cbv zeta. rewrite Hbs.
    assert (Hb : negb (de_inum de =? 0) && (namecmp name (de_name de) =? 0) = false).
    { apply not_true_iff_false. rewrite andb_true_iff, negb_true_iff, Z.eqb_neq, Z.eqb_eq. exact HP. }
    rewrite Hb. apply wp_ret. split; [|by exists k2, n2]. f_equal. apply entry_off. apply lookup_lt_Some in Hj. lia.
  - intros k' n' Hm' Hn'. pose proof (find_cases (names name)) as Hc. pose proof (first_le (names name)).
    kstep. eapply wp_get_inode_mine; [exact Hm'|apply Hf|].
    destruct (list_find (names name) es) as [[j de]|].
    + destruct Hc as (Hj & Hde & HP). rewrite Hj in *. rewrite (entry_before _ _ Hde). apply lookup_lt_Some in Hde as Hlt.
      kstep. apply (Hread j de); [done|done|lia|]. intros bs k2 n2 Hbs Hm2 Hn2. cbn beta iota. cbn [Z.eqb Pos.eqb negb]. cbv zeta. rewrite Hbs.
      assert (Hb : negb (de_inum de =? 0) && (namecmp name (de_name de) =? 0) = true).
      { rewrite andb_true_iff, negb_true_iff, Z.eqb_neq, Z.eqb_eq. exact HP. }
      rewrite Hb, (hf_dev _ _ _ Hf). kstep. eapply wp_mono; [apply (HQ k2 n2 Hm2); lia|]. intros i w Hi. apply wp_ret. eauto.
    + rewrite Hc in *. pose proof dir_size as [Hs _]. rewrite (proj2 (Z.ltb_ge _ _)) by lia. apply wp_ret.
      eexists. split; [done|]. apply (HQ k' n' Hm'). lia.
Qed.

(** The entry [dirlink] stores, and where: in place of the first dead one, or at the end. *)
Definition link_entry (name : list Z) inum : dirent := Dirent (u16 inum) (strncpy_bytes (at_list name) DIRSIZ).
Definition link_slot : nat := first (fun de => de_inum de = 0).
Definition link_off : Z := 16 * Z.of_nat link_slot.
Definition linked (de : dirent) : list dirent := take link_slot es ++ de :: drop (S link_slot) es.

Lemma wp_dirlink name inum bs k n (Q : Z -> world -> Prop) : mine bl ∅ I D k -> list_find (names name) es = None ->
  bs = dirent_bytes (link_entry name inum) ->
  can_write k0 I D dp ip link_off bs -> room k0 bl link_off bs -> i_size ip + 16 <= MAXFILE * BSIZE ->
  (4 * length es + write_reads k0 link_off bs <= n)%nat ->
  (forall k' n', write_done me pid k0 bl I D dp ip link_off bs k' -> (n <= n' + 4 * length es + write_reads k0 link_off bs)%nat ->
    Q 0 (World k' (answers n'))) ->
  wp total (dirlink dp name inum) Q (World k (answers n)).
Proof.
  intros Hm Hno Hbs Hw Hr Hmax Hn HQ. pose proof (id_read _ _ _ _ _ Hd) as [Hf _ _ _]. unfold dirlink. kstep.
  apply wp_dirlookup; [done|lia|]. intros k1 n1 Hm1 Hn1. rewrite Hno. kstep. eapply wp_get_inode_mine; [exact Hm1|apply Hf|].
  pose proof (find_cases (fun de => de_inum de = 0)) as Hc. pose proof (first_le (fun de => de_inum de = 0)) as Hle.
  pose proof dir_size as [Hs Hs']. destruct (dirent_of_bytes (u16 inum) (strncpy_bytes (at_list name) DIRSIZ)) as [_ Hlen];
    [apply u16_range|apply length_strncpy_bytes|].
  assert (Hl16 : Z.of_nat (length bs) = 16) by (rewrite Hbs; unfold link_entry; by rewrite Hlen).
  assert (Hwrite : forall k' n', mine bl ∅ I D k' -> (n1 <= n' + 2 * length es)%nat -> wp total
    (let de := Dirent (u16 inum) (strncpy_bytes (at_list name) DIRSIZ) in
     r <- writei dp (SrcKern (dirent_bytes de)) (u32 link_off) 16 ;; if negb (r =? 16) then ret (-1) else ret 0) Q (World k' (answers n'))).
  { intros k' n' Hm' Hn'. cbv zeta. fold (link_entry name inum). rewrite <- Hbs, <- Hl16. unfold link_off, link_slot in *.
    rewrite u32_small by lia. kstep.
    eapply (wp_writei_done me pid k0 dev Hdev bl I D dp ip _ bs); [by eapply supplies_kern, mine_cur|exact Hm'|done|done|lia| |lia|].
    - unfold accepted. rewrite Hl16. apply andb_true_intro. split; apply Z.leb_le; lia.
    - intros k2 n2 Hw2 Hn2. rewrite Z.eqb_refl. cbn [negb]. apply wp_ret. apply HQ; [done|lia]. }
  kstep. apply (wp_scan_dir total (fun de => de_inum de = 0)); [done|lia| |].
  - intros j de k' n' Hj HP Hm' Hn'. kstep. eapply wp_get_inode_mine; [exact Hm'|apply Hf|]. rewrite (entry_before _ _ Hj).
    kstep. eapply wp_read_entry; [done|exact Hj|done|]. intros bs2 k2 n2 Hbs2 Hm2 Hn2. cbn beta iota. cbn [Z.eqb Pos.eqb negb]. rewrite Hbs2.
    rewrite (proj2 (Z.eqb_neq _ _)) by done. apply wp_ret. split; [f_equal; lia|by exists k2, n2].
  - intros k' n' Hm' Hn'. kstep. eapply wp_get_inode_mine; [exact Hm'|apply Hf|].
    destruct (list_find (fun de => de_inum de = 0) es) as [[j de]|].
    + destruct Hc as (Hj & Hde & HP). rewrite <- Hj in Hde. clear Hj. rewrite (entry_before _ _ Hde).
      kstep. eapply wp_read_entry; [done|exact Hde|apply lookup_lt_Some in Hde; lia|]. intros bs2 k2 n2 Hbs2 Hm2 Hn2.
      cbn beta iota. cbn [Z.eqb Pos.eqb negb]. rewrite Hbs2, HP. apply wp_ret. eexists. split; [done|].
      apply lookup_lt_Some in Hde. apply (Hwrite k2 n2); [done|lia].
    + rewrite (proj2 (Z.ltb_ge _ _)) by lia. apply wp_ret. eexists. split; [done|]. apply (Hwrite k' n'); [done|lia].
Qed.
End Directory.

(** ** What has been linked is found *)

Lemma lookup_replaced {A} (l : list A) s x j : (s <= length l)%nat ->
  (take s l ++ x :: drop (S s) l) !! j = if decide (j = s) then Some x else l !! j.
Proof.
  intros Hs. assert (Ht : length (take s l) = s) by (rewrite length_take; lia).
  destruct (decide (j = s)) as [->|Hj]; [by apply list_lookup_middle|].
  destruct (decide (j < s)%nat).
  - by rewrite lookup_app_l, lookup_take_lt by lia.
  - rewrite lookup_app_r, Ht by lia. rewrite lookup_cons_ne_0, lookup_drop by lia. f_equal. lia.
Qed.

Lemma find_replaced {A} (P : A -> Prop) `{!forall x, Decision (P x)} (l : list A) s x : (s <= length l)%nat ->
  (forall y, l !! s = Some y -> ~ P y) -> (P x -> list_find P l = None) ->
  list_find P (take s l ++ x :: drop (S s) l) = if decide (P x) then Some (s, x) else list_find P l.
Proof.
  intros Hs Hy Hx. case_decide as HP.
  - apply list_find_Some. rewrite lookup_replaced, decide_True by done. split_and!; [done..|]. intros j y Hj Hlt.
    rewrite lookup_replaced, decide_False in Hj by lia. specialize (Hx HP). apply list_find_None in Hx.
    by eapply Forall_lookup_1 in Hx.
  - assert (Hother : forall j y, (take s l ++ x :: drop (S s) l) !! j = Some y -> P y -> l !! j = Some y /\ j <> s).
    { intros j y Hj HPy. rewrite lookup_replaced in Hj by done. case_decide; [|done]. injection Hj as ->. done. }
    destruct (list_find P l) as [[j y]|] eqn:E.
    + apply list_find_Some in E as (Hj & HPy & Hb). apply list_find_Some.
      assert (j <> s) by (intros ->; by apply (Hy y)). rewrite lookup_replaced, decide_False by done. split_and!; [done..|].
      intros j' y' Hj' Hlt HPy'. destruct (Hother _ _ Hj' HPy') as [Hl _]. by eapply Hb.
    + apply list_find_None, Forall_lookup. intros j y Hj HPy. destruct (Hother _ _ Hj HPy) as [Hl _].
      apply list_find_None in E. by eapply Forall_lookup_1 in E.
Qed.

Lemma names_link name name' inum : cbytes name -> cbytes name' ->
  names name' (link_entry name inum) <-> u16 inum <> 0 /\ take DIRSIZ name' = take DIRSIZ name.
Proof. intros Hn Hn'. unfold names, link_entry. cbn [de_inum de_name]. by rewrite namecmp_padded. Qed.

Lemma names_same name name' de : cbytes name -> cbytes name' -> take DIRSIZ name' = take DIRSIZ name ->
  names name' de <-> names name de.
Proof. intros Hn Hn' E. unfold names, namecmp. rewrite !strncmp_cstr. by rewrite (cstr_take _ name'), (cstr_take _ name), E by done. Qed.

Lemma find_linked D ip name name' inum : cbytes name -> cbytes name' -> list_find (names name) (dir_entries D ip) = None ->
  list_find (names name') (linked D ip (link_entry name inum)) =
    if decide (u16 inum <> 0 /\ take DIRSIZ name' = take DIRSIZ name) then Some (link_slot D ip, link_entry name inum)
    else list_find (names name') (dir_entries D ip).
Proof.
  intros Hn Hn' Hno. unfold linked. rewrite find_replaced.
  - apply decide_ext. by apply names_link.
  - apply first_le.
  - intros de Hde [Hz _]. pose proof (find_cases D ip (fun de => de_inum de = 0)) as Hc. unfold link_slot in Hde.
    destruct (list_find (fun de => de_inum de = 0) _) as [[j d]|].
    + destruct Hc as (Hj & Hd & H0). rewrite Hj, Hd in Hde. injection Hde as ->. by apply Hz.
    + apply lookup_lt_Some in Hde. lia.
  - intros [_ E]%names_link; [|done..]. apply list_find_None. apply list_find_None in Hno. eapply Forall_impl; [exact Hno|].
    intros de Hnm Hnm'. by apply Hnm, (names_same name name').
Qed.

Section Linked.
Context (bl : list Z) (I : list inode) (D : Z -> list Z) (dp : nat) (ip : inode) (Hd : is_dir bl I D dp ip).
Context (de : dirent) (bl' : list Z) (D' : Z -> list Z) (ip' : inode).
Abbreviation bs := (dirent_bytes de).
Abbreviation off := (link_off D ip).
Context (Hbs : length bs = 16%nat) (Hde : dirent_of bs = de) (Hholes : no_holes D ip) (Hmax : i_size ip + 16 <= MAXFILE * BSIZE).
Context (Hcw : can_write k0 I D dp ip off bs) (Hroom : room k0 bl off bs).
Context (Hw : file_written k0 D ip off bs D' ip')
  (Hl : (length bl' <= length bl + length (bitmap_blocks k0) + write_rounds off bs + 2)%nat).

Lemma link_off_le : 0 <= off /\ off = 16 * Z.of_nat (link_slot D ip) /\ off <= i_size ip /\ (link_slot D ip <= length (dir_entries D ip))%nat.
Proof.
  pose proof (first_le D ip (fun d => de_inum d = 0)) as Hle. pose proof (dir_size _ _ _ _ _ Hd) as [Hs _].
  unfold link_off, link_slot in *. split_and!; lia.
Qed.

Lemma linked_size : i_size ip' = Z.max (i_size ip) (off + 16) /\ i_type ip' = i_type ip.
Proof. rewrite (fw_inode _ _ _ _ _ _ _ Hw), Hbs. by destruct ip. Qed.

Lemma linked_entry j : (j < Z.to_nat (i_size ip' / 16))%nat ->
  dir_entry D' ip' j = if decide (j = link_slot D ip) then de else dir_entry D ip j.
Proof.
  intros Hj. pose proof link_off_le as (H0 & Ho & Hle & _). pose proof linked_size as [Hs _]. pose proof (dir_size _ _ _ _ _ Hd) as [_ Hs'].
  assert (HM : MAXFILE * BSIZE = 274432) by done. rewrite HM in *.
  assert (Hb : forall q, (q < 16)%nat -> file_byte D' (i_addrs ip') (16 * Z.of_nat j + Z.of_nat q) =
    if decide (j = link_slot D ip) then nth q bs 0 else file_byte D (i_addrs ip) (16 * Z.of_nat j + Z.of_nat q)).
  { intros q Hq. rewrite (fw_bytes _ _ _ _ _ _ _ Hw), Hbs by (rewrite HM; zlia).
    destruct (decide (j = link_slot D ip)) as [->|Hne].
    - rewrite decide_True by lia. f_equal. lia.
    - by rewrite decide_False by lia. }
  unfold dir_entry. destruct (decide (j = link_slot D ip)) as [Ej|Ej].
  - rewrite <- Hde at 1. f_equal. apply list_eq. intros q. unfold file_bytes. rewrite list_lookup_fmap.
    destruct (decide (q < 16)%nat) as [Hq|Hq].
    + rewrite lookup_seqZ_lt by lia. cbn [fmap option_fmap option_map]. rewrite Hb by done.
      destruct (lookup_lt_is_Some_2 bs q) as [c Hc]; [lia|]. by rewrite Hc, (nth_lookup_Some _ _ _ _ Hc).
    + rewrite lookup_seqZ_ge by lia. symmetry. apply lookup_ge_None. lia.
  - f_equal. unfold file_bytes. apply list_fmap_ext. intros q x Hx. apply lookup_seqZ in Hx as [-> Hq]. apply Hb. lia.
Qed.

Lemma linked_entries : dir_entries D' ip' = linked D ip de.
Proof.
  pose proof link_off_le as (H0 & Ho & Hle & Hsl). pose proof linked_size as [Hs _]. pose proof (dir_size _ _ _ _ _ Hd) as [Hsz _].
  apply list_eq. intros j. unfold linked. rewrite lookup_replaced by done. apply option_eq. intros d.
  rewrite dir_entries_lookup. pose proof (length_dir_entries D ip) as Hlen. split.
  - intros [-> Hj]. rewrite linked_entry by done. case_decide as Hj'; [done|]. apply dir_entries_lookup. split; [done|]. zlia.
  - case_decide as Hj'.
    + intros [= <-]. split; [rewrite linked_entry; [by rewrite decide_True|]|]; zlia.
    + intros [-> Hj]%dir_entries_lookup. split; [rewrite linked_entry; [by rewrite decide_False|]|]; zlia.
Qed.

Lemma linked_is_dir : is_dir bl' (<[dp := ip']> I) D' dp ip'.
Proof.
  pose proof link_off_le as (H0 & Ho & Hle & Hsl). pose proof linked_size as [Hs Ht]. destruct Hd as [Hr Hty Hsz]. split.
  - eapply written_can_read; try done. unfold accepted. rewrite Hbs.
    apply andb_true_intro. split; apply Z.leb_le; lia.
  - by rewrite Ht.
  - rewrite Hs. zlia.
Qed.
End Linked.

Lemma inode_slot_free I inum j jp : I !! j = Some jp -> i_ref jp = 0 -> is_Some (inode_slot I inum).
Proof.
  intros Hj H0. unfold inode_slot. destruct (list_find (is_inode inum) I) as [[i ?]|]; [done|].
  destruct (list_find (fun ip => i_ref ip = 0) I) as [[i ?]|] eqn:E; [done|]. apply list_find_None in E.
  by eapply Forall_lookup_1 in E.
Qed.

(** C22. A name that is not in the directory is linked, and found.  [dirlink] of a new name returns 0 -
    with room on the disk, in the log and in the cache -, and after it [dirlookup] of any name gives
    an in-memory inode of the linked number, at the place of the first dead entry or at the end, exactly if
    the two names agree on their first [DIRSIZ] bytes and the number is not 0 modulo 65536; every other name
    is looked up as before.  The table has a free inode. *)
Theorem dirlink_dirlookup bl I D dp ip name name' inum k n (es := dir_entries D ip) (bs := dirent_bytes (link_entry name inum)) :
  mine bl ∅ I D k -> is_dir bl I D dp ip -> cbytes name -> cbytes name' ->
  length I = NINODE -> (exists j jp, j <> dp /\ I !! j = Some jp /\ i_ref jp = 0) ->
  list_find (names name) es = None -> no_holes D ip -> i_size ip + 16 <= MAXFILE * BSIZE ->
  can_write k0 I D dp ip (link_off D ip) bs -> room k0 bl (link_off D ip) bs ->
  (6 * length es + write_reads k0 (link_off D ip) bs + 2 <= n)%nat ->
  wp total (r <- dirlink dp name inum ;; o <- dirlookup dp name' ;; ret (r, o)) (fun '(r, o) w' => r = 0 /\
    match (if decide (u16 inum <> 0 /\ take DIRSIZ name' = take DIRSIZ name) then Some (u16 inum, link_off D ip)
           else (fun p => (de_inum (snd p), 16 * Z.of_nat (fst p))) <$> list_find (names name') es) with
    | None => o = None
    | Some (num, off) => exists i jp, o = Some (i, off) /\ k_inode (w_k w') !! i = Some jp /\ is_inode num jp
    end) (World k (answers n)).
Proof.
  intros Hm Hd Hn Hn' HI (j & jp & Hjd & Hj & Hj0) Hno Hholes Hmax Hcw Hroom Hans.
  destruct (dirent_of_bytes (u16 inum) (strncpy_bytes (at_list name) DIRSIZ)) as [Hde Hlen];
    [apply u16_range|apply length_strncpy_bytes|].
  kstep. eapply (wp_dirlink bl I D dp ip Hd name inum bs); [done..|unfold es in *; lia|].
  intros k1 n1 (bl' & D' & ip' & Hw & Hm1 & Hl) Hn1.
  pose proof (linked_is_dir bl I D dp ip Hd (link_entry name inum) bl' D' ip' Hlen Hholes Hmax Hcw Hroom Hw Hl) as Hd'.
  pose proof (linked_entries bl I D dp ip Hd (link_entry name inum) bl' D' ip' Hlen Hde Hholes Hmax Hcw Hroom Hw Hl) as He.
  assert (Hdp : (dp < length I)%nat) by (destruct Hd as [[[Hi _ _] _ _ _] _ _]; by eapply lookup_lt_Some).
  assert (HI' : length (<[dp := ip']> I) = NINODE) by by rewrite length_insert.
  assert (Hj' : <[dp := ip']> I !! j = Some jp) by by rewrite list_lookup_insert_ne.
  assert (Hle : (length (dir_entries D' ip') <= length es + 1)%nat).
  { rewrite He. unfold linked. rewrite length_app, length_take. cbn [length]. rewrite length_drop. unfold es. lia. }
  kstep. eapply (wp_dirlookup bl' (<[dp := ip']> I) D' dp ip' Hd'); [exact Hm1|unfold es in *; lia|].
  intros k2 n2 Hm2 _. rewrite He, (find_linked D ip name name') by done.
  assert (Hfound : forall num off : Z, wp total (iget ROOTDEV num) (fun i w => wp total (ret (0, Some (i, off))) (fun '((r, o) : Z * option (nat * Z)) w' => r = 0 /\
    exists i jp, o = Some (i, off) /\ k_inode (w_k w') !! i = Some jp /\ is_inode num jp) w) (World k2 (answers n2))).
  { intros num off. destruct (inode_slot_free _ num _ _ Hj' Hj0) as [i Hi].
    eapply (wp_iget bl' ∅ _ D'); [exact Hm2|done|exact Hi|]. intros ip0 k3 Hip0 Hm3. apply wp_ret. split; [done|].
    exists i, (referenced num ip0). split; [done|]. split; [|apply referenced_is]. cbn [w_k].
    rewrite (mi_inode _ _ _ _ _ _ _ _ Hm3). apply list_lookup_insert_eq. by eapply lookup_lt_Some. }
  case_decide; [exact (Hfound _ _)|]. destruct (list_find (names name') _) as [[q de]|]; [exact (Hfound _ _)|]. by apply wp_ret.
Qed.
End Dirs.

(** ** Witnesses *)

#[local] Existing Instances demo_layout demo_layout_ok.

(** The inode of the empty file, and one of the same number that has not been read. *)
Definition demo_unread : inode := Inode ROOTDEV 1 1 sleeplock0 0 0 0 0 0 0 (replicate 13 0).
Definition demo_nodes : list inode := [demo_empty; demo_unread].

Lemma iupdate_ilock_witness : exists a w', (iupdate 0 ;;; ilock 1) (World (demo_with demo_nodes) (disk_works serve 1 2)) = Ok a w' /\
  k_inode (w_k w') !! 1%nat = Some (demo_empty <| i_lock := Sleeplock 1 0 |>).
Proof.
  assert (Hd : dinode_ok (dinode_of demo_empty)) by (unfold dinode_ok; cbn; split_and!; try lia; by repeat constructor).
  assert (Hw : writable (demo_with demo_nodes) 34) by (apply demo_writable; lia).
  destruct (wp_returned _ _ _ _ (iupdate_ilock 1 0 (demo_with demo_nodes) serve serve_ok [] demo_nodes demo_contents (demo_with demo_nodes) 2
    0 demo_empty 1 demo_unread (demo_mine demo_nodes) (HasFile demo_nodes 0 demo_empty eq_refl eq_refl eq_refl)
    (Unread demo_nodes 1 demo_unread eq_refl eq_refl eq_refl eq_refl eq_refl)
    eq_refl Hw (demo_space demo_nodes 1 ltac:(lia)) ltac:(apply Nat.ltb_lt; reflexivity) Hd (le_n 2))) as (a & w' & E & _ & D' & k' & n' & Hk & Hm & _).
  { vm_compute. exact eq_refl. }
  exists a, w'. split; [exact E|]. rewrite Hk. cbn [w_k]. rewrite (mi_inode _ _ _ _ _ _ _ _ Hm). reflexivity.
Defined.

(** An empty directory. *)
Definition demo_table : list inode := demo_typed 1 :: replicate 49 inode0.

Lemma demo_is_dir : is_dir [] demo_table demo_contents 0 (demo_typed 1).
Proof.
  split; [|done|done]. split; [by split|apply Nat.ltb_lt; reflexivity|by vm_compute|]. change (i_size _) with 0.
  intros bn H0 H1. change BSIZE with 1024 in H1. lia.
Qed.

Lemma dirlink_dirlookup_witness : exists w' i off jp,
  (r <- dirlink 0 (bytes "hi") 70001 ;; o <- dirlookup 0 (bytes "hi") ;; ret (r, o)) (World (demo_with demo_table) (disk_works serve 1 9)) =
    Ok (0, Some (i, off)) w' /\ k_inode (w_k w') !! i = Some jp /\ is_inode 4465 jp.
Proof.
  assert (Hn : cbytes (bytes "hi")) by (repeat constructor).
  assert (Hs : can_write (demo_with demo_table) demo_table demo_contents 0 (demo_typed 1) 0 (dirent_bytes (link_entry (bytes "hi") 70001)))
    by (apply demo_write; [done|lia|apply Nat.leb_le; vm_compute; reflexivity]).
  assert (Hr : room (demo_with demo_table) [] 0 (dirent_bytes (link_entry (bytes "hi") 70001)))
    by (apply demo_space; apply Nat.leb_le; vm_compute; reflexivity).
  assert (Hf : exists j jp, j <> 0%nat /\ demo_table !! j = Some jp /\ i_ref jp = 0) by (exists 1%nat, inode0; split_and!; done).
  assert (Hh : no_holes demo_contents (demo_typed 1)).
  { intros bn H0 H1. change (i_size _) with 0 in H1. change BSIZE with 1024 in H1. lia. }
  destruct (wp_total_Ok _ _ _ (dirlink_dirlookup 1 0 (demo_with demo_table) serve serve_ok [] demo_table demo_contents 0 (demo_typed 1)
    (bytes "hi") (bytes "hi") 70001 (demo_with demo_table) 9 (demo_mine demo_table) demo_is_dir Hn Hn eq_refl Hf eq_refl Hh
    ltac:(by vm_compute) Hs Hr ltac:(apply Nat.leb_le; vm_compute; reflexivity))) as ([r o] & w' & E & -> & HQ).
  rewrite decide_True in HQ by (split; [by vm_compute|reflexivity]). destruct HQ as (i & jp & -> & Hi & Hjp).
  exists w', i, (link_off demo_contents (demo_typed 1)), jp. split; [exact E|]. split; [exact Hi|exact Hjp].
Defined.
