(* ===== verification/Pipe.v ===== *)
(** Pipes: kernel/pipe.c but for [pipealloc], which is with the files.

    A pipe is named by the address of the page it was allocated in.  [pi_nread] and
    [pi_nwrite] are 32-bit counters; a byte is at its counter modulo [PIPESIZE]. *)

From S2P Require Export Proc.

Definition PIPESIZE : Z := 512.

Section Pipe.
Context {L : Layout}.

Definition pipeclose (pi : Z) (writable : bool) : K unit :=
  acquire (LkPipe pi) ;;;
  (if writable then
     upd_pipe pi (fun p => p <| pi_writeopen := 0 |>) ;;;
     wakeup (ChPipeRead pi)
   else
     upd_pipe pi (fun p => p <| pi_readopen := 0 |>) ;;;
     wakeup (ChPipeWrite pi)) ;;;
  p <- get_pipe pi ;;
  if (pi_readopen p =? 0) && (pi_writeopen p =? 0) then
    release (LkPipe pi) ;;;
    kfree pi ;;;
    modk (fun k => k <| k_pipe ::= delete pi |>)
  else release (LkPipe pi).

(** A round of the loop writes a byte or sleeps. *)
Definition pipewrite (pi addr n : Z) : K Z :=
  pr <- curproc ;;
  acquire (LkPipe pi) ;;;
  r <- loop_env (Z.to_nat n) (fun i =>
    if i <? n then
      p <- get_pipe pi ;;
      stop <- (if pi_readopen p =? 0 then ret true
               else k <- killed pr ;; ret (negb (k =? 0))) ;;
      if stop : bool then release (LkPipe pi) ;;; ret (inr None)
      else
        p <- get_pipe pi ;;
        if pi_nwrite p =? u32 (pi_nread p + PIPESIZE) then
          wakeup (ChPipeRead pi) ;;;
          sleep (ChPipeWrite pi) (LkPipe pi) ;;;
          ret (inl i)
        else
          me <- get_proc pr ;;
          let! (r, ch) := copyin (p_pagetable me) (u64 (addr + i)) 1 in
          if r =? -1 then ret (inr (Some i))
          else
            c <- arr_get ch 0 ;;
            data <- arr_set (pi_data p) (pi_nwrite p mod PIPESIZE) c ;;
            upd_pipe pi (fun p => p <| pi_data := data |> <| pi_nwrite := u32 (pi_nwrite p + 1) |>) ;;;
            ret (inl (i + 1))
    else ret (inr (Some i))) 0 ;;
  match r with
  | None => ret (-1)
  | Some i =>
    wakeup (ChPipeRead pi) ;;;
    release (LkPipe pi) ;;;
    ret i
  end.

Definition piperead (pi addr n : Z) : K Z :=
  pr <- curproc ;;
  acquire (LkPipe pi) ;;;
  stop <- loop_env 0 (fun _ : unit =>
    p <- get_pipe pi ;;
    if (pi_nread p =? pi_nwrite p) && negb (pi_writeopen p =? 0) then
      k <- killed pr ;;
      if negb (k =? 0) then release (LkPipe pi) ;;; ret (inr true)
      else sleep (ChPipeRead pi) (LkPipe pi) ;;; ret (inl tt)
    else ret (inr false)) tt ;;
  if stop : bool then ret (-1)
  else
    i <- loop (Z.to_nat n + 1) (fun i =>
      if i <? n then
        p <- get_pipe pi ;;
        if pi_nread p =? pi_nwrite p then ret (inr i)
        else
          ch <- arr_get (pi_data p) (pi_nread p mod PIPESIZE) ;;
          upd_pipe pi (fun p => p <| pi_nread := u32 (pi_nread p + 1) |>) ;;;
          me <- get_proc pr ;;
          r <- copyout (p_pagetable me) (u64 (addr + i)) [ch] ;;
          if r =? -1 then ret (inr i) else ret (inl (i + 1))
      else ret (inr i)) 0 ;;
    wakeup (ChPipeWrite pi) ;;;
    release (LkPipe pi) ;;;
    ret i.
End Pipe.
