(* ===== verification/Fifo.v ===== *)
(** A pipe is a queue of bytes: [piperead] and [pipewrite] of kernel/pipe.c with the
    processes' memory of file Copy.

    The reader's theorem is for a call that need not wait; the writer's goes on over any number of sleeps
    in which readers run ([reader_turn]). *)

From S2P Require Export Pipe Copy.

(** The bytes in the pipe: from counter [pi_nread] to counter [pi_nwrite]. *)
Record pipe_rep (p : pipe) (q : list Z) : Prop := PipeRep {
  pr_ring : ring PIPESIZE (pi_data p) (pi_nread p) q;
  pr_nread : 0 <= pi_nread p < 4294967296;
  pr_nwrite : pi_nwrite p = u32 (pi_nread p + Z.of_nat (length q));
  pr_bytes : Forall (fun b => 0 <= b < 256) q }.

Lemma u32_pipe x : u32 x mod PIPESIZE = x mod PIPESIZE.
Proof. apply u32_mod. by exists 8388608. Qed.

Section Rep.
Context (p : pipe) (q : list Z) (Hr : pipe_rep p q).

Lemma pipe_empty : (pi_nread p =? pi_nwrite p) = bool_decide (q = []).
Proof.
  destruct Hr as [(_ & Hs & _) Hn Hw _]. rewrite Hw. unfold PIPESIZE in Hs. case_bool_decide as Hq.
  - subst q. cbn. rewrite Z.add_0_r, u32_small by done. apply Z.eqb_refl.
  - apply Z.eqb_neq. assert (length q <> 0%nat) by by destruct q. unfold u32. zlia.
Qed.

Lemma pipe_full : (pi_nwrite p =? u32 (pi_nread p + PIPESIZE)) = (Z.of_nat (length q) =? PIPESIZE).
Proof.
  destruct Hr as [(_ & Hs & _) Hn Hw _]. rewrite Hw. unfold PIPESIZE in *.
  destruct (Z.eqb_spec (Z.of_nat (length q)) 512) as [->|]; [apply Z.eqb_refl|].
  apply Z.eqb_neq. unfold u32. zlia.
Qed.

Lemma pipe_pop c q' : q = c :: q' ->
  pi_data p !! Z.to_nat (pi_nread p mod PIPESIZE) = Some c /\ 0 <= c < 256 /\
  pipe_rep (p <| pi_nread := u32 (pi_nread p + 1) |>) q'.
Proof.
  intros ->. destruct Hr as [Hri Hn Hw Hb]. inversion_clear Hb as [|? ? Hc Hb'].
  split; [by eapply ring_head|]. split; [done|]. split; cbn; [|apply u32_range| |done].
  - eapply ring_pop; [|done]. apply u32_pipe.
  - rewrite Hw. cbn [length]. unfold u32. rewrite Zplus_mod_idemp_l. f_equal. lia.
Qed.

Lemma pipe_push c : 0 <= c < 256 -> Z.of_nat (length q) < PIPESIZE ->
  pipe_rep (p <| pi_data := <[Z.to_nat (pi_nwrite p mod PIPESIZE) := c]> (pi_data p) |>
              <| pi_nwrite := u32 (pi_nwrite p + 1) |>) (q ++ [c]).
Proof.
  intros Hc Hlt. destruct Hr as [Hri Hn Hw Hb]. split; cbn; [|done| |].
  - apply ring_push; [done|done|by rewrite Hw, u32_pipe|done].
  - rewrite Hw, u32_succ, length_app. f_equal. cbn. lia.
  - apply Forall_app. split; [done|by constructor].
Qed.
End Rep.

(** The memory, the allocator and one pipe may differ; [ps] is the process table. *)
Definition only_pipe (pi : Z) (p : pipe) (k k' : kernel) : Prop :=
  k' = k <| k_ram := k_ram k' |> <| k_kmem := k_kmem k' |> <| k_pipe := <[pi := p]> (k_pipe k) |>.

Lemma drop_cons_facts {A} (q : list A) j c q' : drop j q = c :: q' ->
  (j < length q)%nat /\ drop (S j) q = q' /\ take (S j) q = take j q ++ [c].
Proof.
  intros E. assert (Hj : (j < length q)%nat).
  { apply (f_equal length) in E. rewrite length_drop in E. cbn in E. lia. }
  destruct (lookup_lt_is_Some_2 q j Hj) as [x Hx]. rewrite (drop_S q x j Hx) in E. injection E as -> ->.
  split_and!; [done..|]. by apply take_S_r.
Qed.

Lemma written_ram k k1 k2 ts i dst bs : k_ram k2 = k_ram k1 ->
  written k k1 ts i dst bs -> written k k2 ts i dst bs.
Proof. destruct k1, k2. cbn. intros ->. done. Qed.

Lemma not_in_one (x y : lockid) : x <> y -> x ∉ [y].
Proof. by intros ? ?%list_elem_of_singleton. Qed.

Lemma only_pipe_step pi p p' k k1 k2 : only_pipe pi p k k1 ->
  only_mem (k1 <| k_pipe ::= <[pi := p']> |>) k2 -> only_pipe pi p' k k2.
Proof.
  destruct k, k1, k2. unfold only_pipe, only_mem. cbn. intros H1 H2. injection H1. injection H2. intros.
  subst. by rewrite insert_insert_eq.
Qed.

Section Fifo.
Context {L : Layout} {LO : LayoutOk L}.
Context (hold : Z -> Z) (l : list Z) (ts : list space) (s i : nat) (root : Z) (t : tree) (pr : proc)
  (pi : Z) (pp : pipe) (q : list Z) (addr n : Z) (w : world).
Context (Hcur : k_cur (w_k w) = Some i) (Hproc : k_proc (w_k w) !! i = Some pr) (Hroot : p_pagetable pr = root)
  (Hheld : k_held (w_k w) = []) (Hlen : length (k_proc (w_k w)) = NPROC)
  (Hv : vm_inv hold (w_k w) l ts) (Hs : ts !! s = Some (root, t))
  (Hpipe : k_pipe (w_k w) !! pi = Some pp) (Hq : pipe_rep pp q)
  (Ha : 0 <= addr) (Han : addr + n <= 2 ^ 64).

(** After [m] bytes: the pipe is [pp'] with [q'] in it, the lock is held. *)
Record moved (q' : list Z) (w' : world) : Prop := Moved {
  mv_env : w_env w' = w_env w;
  mv_pipe : exists pp', k_pipe (w_k w') !! pi = Some pp' /\ pipe_rep pp' q' /\
    only_pipe pi pp' ((w_k w) <| k_held := [LkPipe pi] |>) (w_k w');
  mv_vm : exists l', vm_inv hold (w_k w') l' ts }.

(** What both functions leave behind. *)
Definition pipe_done (c : chan) (q' : list Z) (w' : world) : Prop :=
  w_env w' = w_env w /\ k_held (w_k w') = [] /\
  k_proc (w_k w') = imap (woken c (Some i)) (k_proc (w_k w)) /\
  (exists pp', k_pipe (w_k w') = <[pi := pp']> (k_pipe (w_k w)) /\ pipe_rep pp' q') /\
  exists l', vm_inv hold (w_k w') l' ts.

(** Why a byte of user memory could not be written. *)
Definition unwritable (a : Z) (w' : world) : Prop :=
  a >= MAXVA \/ user_byte (w_k w) ts s a = None \/
  (vm_inv hold (w_k w') [] ts /\ has (entry (w_k w') ts s (PGROUNDDOWN a)) PTE_COW = true).

Lemma unwritable_same a w1 w2 : k_ram (w_k w2) = k_ram (w_k w1) -> k_kmem (w_k w2) = k_kmem (w_k w1) ->
  unwritable a w1 -> unwritable a w2.
Proof.
  intros Hr Hk [H|[H|[H1 H2]]]; [by left|by right; left|right; right]. split; [by eapply vm_inv_same|].
  unfold entry in *. by rewrite Hr.
Qed.

Lemma moved_facts q' w' : moved q' w' ->
  k_cur (w_k w') = Some i /\ k_proc (w_k w') = k_proc (w_k w) /\ k_held (w_k w') = [LkPipe pi].
Proof. intros [_ (pp' & _ & _ & ->) _]. done. Qed.

(** The end of both: wake the other side, release the lock. *)
Lemma wp_pipe_end E c q' r w' (Q : Z -> world -> Prop) : moved q' w' ->
  (forall w'', pipe_done c q' w'' -> k_ram (w_k w'') = k_ram (w_k w') -> k_kmem (w_k w'') = k_kmem (w_k w') -> Q r w'') ->
  wp E (wakeup c ;;; release (LkPipe pi) ;;; ret r) Q w'.
Proof.
  intros Hm HQ. destruct (moved_facts _ _ Hm) as (Hc & Hps & Hh). destruct Hm as [Henv (pp' & Hl & Hrep & Ho) (l' & Hv')].
  kstep. apply wp_wakeup; [by rewrite Hps| |].
  { intros j. rewrite Hh. by apply not_in_one. }
  kstep. apply (wp_release _ _ _ []); [cbn; rewrite Hh; apply release_held_head|]. apply wp_ret, HQ; [|done|done].
  rewrite Hc, Hps. split_and!; [done..| |].
  - exists pp'. split; [|done]. cbn. by rewrite Ho.
  - exists l'. by apply (vm_inv_same _ (w_k w')).
Qed.

Lemma moved_start : moved q (w <| w_k ::= fun k => k <| k_held ::= cons (LkPipe pi) |> |>).
Proof.
  split; [done| |exists l; by apply (vm_inv_same _ (w_k w))]. exists pp. split_and!; [done..|].
  unfold only_pipe. rewrite insert_id by done. clear -Hheld. destruct w as [[] ?]. cbn in *. by subst.
Qed.

(** ** [piperead] *)

(** The result of [piperead]: [m] bytes from the front of the queue are in user memory
    at [addr].  When [copyout] stops it early - the next address is none the process can use, or its page
    is copy-on-write and no page is free -, the byte it stopped at is gone from the pipe all the same. *)
Definition read_done (r : Z) (w' : world) : Prop :=
  exists m, r = Z.of_nat m /\ (m <= length q)%nat /\ (r <= Z.max 0 n) /\
    written (w_k w) (w_k w') ts s addr (take m q) /\
    ((r = Z.min (Z.max 0 n) (Z.of_nat (length q)) /\ pipe_done (ChPipeWrite pi) (drop m q) w') \/
     (r < Z.min n (Z.of_nat (length q)) /\ pipe_done (ChPipeWrite pi) (drop (S m) q) w' /\ unwritable (addr + r) w')).

Lemma wp_read_byte {B} E m q' c w' (kont : Z -> K B) (Q : B -> world -> Prop) : moved (c :: q') w' -> 0 <= m < n ->
  (forall w'' r, moved q' w'' ->
     (r = 0 /\ written (w_k w') (w_k w'') ts s (addr + m) [c]) \/
     (r = -1 /\ written (w_k w') (w_k w'') ts s (addr + m) [] /\
       (addr + m >= MAXVA \/ user_byte (w_k w') ts s (addr + m) = None \/
        vm_inv hold (w_k w'') [] ts /\ has (entry (w_k w'') ts s (PGROUNDDOWN (addr + m))) PTE_COW = true)) ->
     wp E (kont r) Q w'') ->
  wp E (upd_pipe pi (fun p => p <| pi_nread := u32 (pi_nread p + 1) |>) ;;;
        me <- get_proc i ;;
        r <- copyout (p_pagetable me) (u64 (addr + m)) [c] ;; kont r) Q w'.
Proof.
  intros Hm Hmn HQ. destruct (moved_facts _ _ Hm) as (Hc & Hps & Hh). destruct Hm as [Henv (pp' & Hl & Hrep & Ho) (l' & Hv')].
  destruct (pipe_pop pp' _ Hrep c q' eq_refl) as (Hdata & Hcb & Hrep').
  kstep. eapply wp_upd_pipe; [exact Hl|]. kstep. eapply wp_get_proc; [by cbn; rewrite Hps|].
  rewrite u64_small by lia. rewrite Hroot. kstep.
  match goal with |- wp _ _ _ ?w0 => set (w1 := w0) end. assert (Hv1 : vm_inv hold (w_k w1) l' ts) by by apply (vm_inv_same _ (w_k w')).
  assert (Hmv : forall w2, w_env w2 = w_env w1 -> only_mem (w_k w1) (w_k w2) ->
    (exists l2, vm_inv hold (w_k w2) l2 ts) -> moved q' w2).
  { intros w2 He2 Ho2 Hv2. split; [by rewrite He2| |done].
    exists (pp' <| pi_nread := u32 (pi_nread pp' + 1) |>). split_and!; [|done|].
    - rewrite Ho2. cbn. apply lookup_insert_eq.
    - by eapply only_pipe_step. }
  apply (wp_copyout hold l' ts s root t (addr + m) [c] w1); [by cbn; rewrite Hh; apply not_in_one|done|done|lia|by constructor|..].
  - intros w2 l2 (He2 & Ho2 & _ & _ & Hv2 & Hw2 & _). apply HQ; [apply Hmv; eauto|]. left. by split.
  - intros m2 w2 l2 (He2 & Ho2 & _ & _ & Hv2 & Hw2 & _) Hlt Hst. apply HQ; [apply Hmv; eauto|]. right. split; [done|].
    destruct m2; [|cbn in Hlt; lia]. split; [done|]. unfold stuck in Hst. change (Z.of_nat 0) with 0 in Hst. rewrite Z.add_0_r in Hst.
    destruct Hst as [?|[?|[-> ?]]]; [by left|by right; left|right; right; by split].
Qed.

(** C16. [piperead], when there is something to read or no writer left, takes bytes off the front of the
    queue, in order, to the reader's memory: as
    many as were asked for and are there, without waiting for more; nothing else in any
    process's memory changes, the other bytes stay in order, and the writers are woken.
    Only at a byte that [copyout] cannot store - past the address space, in no page of the process, or
    in a copy-on-write page with no memory for the copy - does it stop before, and then it has taken that byte
    out of the pipe, one more than it delivers. *)
Theorem piperead_correct : q <> [] \/ pi_writeopen pp = 0 -> LkPipe pi ∉ k_held (w_k w) ->
  wp total (piperead pi addr n) read_done w.
Proof.
  intros Hready Hlk. unfold piperead. kstep. apply (wp_curproc _ _ i); [done|]. do 2 kstep.
  pose proof moved_start as Hm0. set (w0 := w <| w_k ::= _ |>) in *.
  kstep. apply wp_loop_env. cbn [loop Nat.add]. kstep.
  kstep. eapply wp_get_pipe; [exact Hpipe|]. rewrite (pipe_empty pp q Hq).
  assert (bool_decide (q = []) && negb (pi_writeopen pp =? 0) = false) as ->.
  { case_bool_decide; [|done]. destruct Hready as [|Hw]; [done|by rewrite Hw]. }
  do 3 kstep. apply (wp_loop _ (fun m w' => exists j, m = Z.of_nat j /\ (j <= length q)%nat /\ m <= Z.max 0 n /\
      moved (drop j q) w' /\ written (w_k w) (w_k w') ts s addr (take j q)) (fun m _ => Z.to_nat (n - m))).
  - exists 0%nat. split_and!; [done|lia|lia|by rewrite drop_0|]. rewrite take_0. exact (written_nil (w_k w) ts s addr).
  - lia.
  - intros m w' (j & -> & Hj & Hjn & Hm & Hwr).
    assert (Hfin : forall r q' w1, moved q' w1 -> (r = Z.of_nat j) ->
      written (w_k w) (w_k w1) ts s addr (take j q) ->
      (r = Z.min (Z.max 0 n) (Z.of_nat (length q)) /\ q' = drop j q) \/
      (r < Z.min n (Z.of_nat (length q)) /\ q' = drop (S j) q /\ unwritable (addr + r) w1) ->
      wp total (wakeup (ChPipeWrite pi) ;;; release (LkPipe pi) ;;; ret r) read_done w1).
    { intros r q' w1 Hm1 -> Hw1 Hor. eapply wp_pipe_end; [done|]. intros w2 Hd Hram Hkm. exists j.
      split_and!; [done|done|lia|by eapply written_ram|]. destruct Hor as [[? ->]|(? & -> & ?)]; [by left|right].
      split; [done|]. split; [done|]. by eapply unwritable_same. }
    destruct (Z.ltb_spec (Z.of_nat j) n) as [Hlt|Hge]; cycle 1.
    { apply wp_ret. apply (Hfin _ _ _ Hm); [done|done|]. left. split; [lia|done]. }
    destruct (moved_facts _ _ Hm) as (_ & _ & _). pose proof Hm as [_ (pp' & Hl' & Hrep' & _) _].
    kstep. eapply wp_get_pipe; [exact Hl'|]. rewrite (pipe_empty pp' _ Hrep'). case_bool_decide as Hd.
    { apply wp_ret. apply (Hfin _ _ _ Hm); [done|done|]. left. split; [|done].
      apply (f_equal length) in Hd. rewrite length_drop in Hd. cbn in Hd. lia. }
    destruct (drop j q) as [|c q'] eqn:Ed; [done|]. destruct (pipe_pop pp' _ Hrep' c q' eq_refl) as (Hc & _ & _).
    kstep. unfold arr_get. rewrite (proj2 (Z.ltb_ge _ _)) by (unfold PIPESIZE; zlia). rewrite Hc. kstep.
    apply (wp_read_byte _ _ q' c _ (fun r => if r =? -1 then ret (inr (Z.of_nat j)) else ret (inl (Z.of_nat j + 1)))); [done|lia|].
    destruct (drop_cons_facts _ _ _ _ Ed) as (Hjl & Hdrop & Htake).
    assert (Hlt' : Z.of_nat (length (take j q)) = Z.of_nat j) by (rewrite length_take; lia).
    intros w'' r Hm'' [[-> Hw'']|(-> & Hw'' & Hcause)]; cbn [Z.eqb Pos.eqb]; apply wp_ret.
    + split; [|lia]. exists (S j). rewrite Hdrop, Htake. split_and!; [lia|lia|lia|done|].
      eapply written_app; [done|]. by rewrite Hlt'.
    + apply (Hfin _ _ _ Hm''); [done| |right; split; [lia|split; [done|]]].
      { rewrite <- (app_nil_r (take j q)). eapply written_app; [done|]. by rewrite Hlt'. }
      destruct Hcause as [?|[Hno|?]]; [by left| |by right; right].
      destruct (decide (addr + Z.of_nat j >= MAXVA)) as [Hge|Hlt2]; [by left|]. right. left. rewrite <- Hno, Hwr by lia.
      rewrite Hlt', (proj2 (Z.ltb_ge _ (addr + Z.of_nat j))), andb_false_r by lia. done.
Qed.

End Fifo.

(** ** [pipewrite] *)

(** No other process than [i] sleeps on [c]. *)
Definition none_sleeps (i : nat) (c : chan) (k : kernel) : Prop := forall j p,
  k_proc k !! j = Some p -> j <> i -> ~ (p_state p = SLEEPING /\ p_chan p = c).

Section Writer.
Context {L : Layout} {LO : LayoutOk L}.
Context (i : nat) (root pi : Z) (ub : Z -> option Z).

(** Process [i] reads [ub] in its memory; the pipe holds [q]. *)
Record writing (held : list lockid) (q : list Z) (k : kernel) : Prop := Writing {
  wr_cur : k_cur k = Some i;
  wr_held : k_held k = held;
  wr_proc : exists p, k_proc k !! i = Some p /\ p_pagetable p = root;
  wr_len : length (k_proc k) = NPROC;
  wr_mem : exists hold l ts s t, vm_inv hold k l ts /\ ts !! s = Some (root, t) /\
    forall va, 0 <= va < MAXVA -> user_byte k ts s va = ub va;
  wr_pipe : exists pp, k_pipe k !! pi = Some pp /\ pipe_rep pp q }.

Lemma writing_frame held held' q q' k k' : writing held q k -> k_ram k' = k_ram k -> k_kmem k' = k_kmem k ->
  k_cur k' = k_cur k -> k_held k' = held' -> length (k_proc k') = length (k_proc k) ->
  (forall p, k_proc k !! i = Some p -> exists p', k_proc k' !! i = Some p' /\ p_pagetable p' = p_pagetable p) ->
  (exists pp, k_pipe k' !! pi = Some pp /\ pipe_rep pp q') -> writing held' q' k'.
Proof.
  intros [W1 _ (p & W3 & W3') W4 (hold & l & ts & s & t & V1 & V2 & V3) _] Hram Hkm Hcur Hh Hlen Hp Hpp. split; [congruence|done| |congruence| |done].
  - destruct (Hp p W3) as (p' & ? & ?). exists p'. by split; [|congruence].
  - exists hold, l, ts, s, t. split; [by eapply vm_inv_same|]. split; [done|]. intros va Hva. rewrite <- V3 by done.
    unfold user_byte, entry. by rewrite Hram.
Qed.

(** The turn of the others while the writer sleeps: a reader takes bytes off the front of the queue,
    perhaps none.  It may close the pipe or kill the writer, too. *)
Definition reader_turn (f : kernel -> kernel) : Prop := forall q k p,
  writing [LkProc i] q k -> k_proc k !! i = Some p -> p_state p = SLEEPING -> p_chan p = ChPipeWrite pi ->
  exists m, writing [LkProc i] (drop m q) (f k).

(** Why [pipewrite] gives up. *)
Definition stopped (k : kernel) : Prop :=
  (exists pp, k_pipe k !! pi = Some pp /\ pi_readopen pp = 0) \/ (exists p, k_proc k !! i = Some p /\ p_killed p <> 0).

Lemma woken_self c j p : j = i -> woken c (Some i) j p = p.
Proof. intros ->. unfold woken. by rewrite bool_decide_false by auto. Qed.

Lemma woken_none c k : k_cur k = Some i -> none_sleeps i c (k <| k_proc ::= imap (woken c (k_cur k)) |>).
Proof.
  intros -> j p. cbn. rewrite list_lookup_imap. intros (p0 & Hp & ->)%fmap_Some Hj.
  unfold woken. rewrite (bool_decide_true (Some j <> Some i)) by congruence. cbn [andb]. case_bool_decide as Hs; [by intros []|done].
Qed.

(** [wakeup] of the readers. *)
Lemma wp_wakeup_readers E held q w (Q : unit -> world -> Prop) : writing held q (w_k w) -> (forall j, LkProc j ∉ held) ->
  (forall k', writing held q k' -> none_sleeps i (ChPipeRead pi) k' -> (stopped k' -> stopped (w_k w)) -> (stopped (w_k w) -> stopped k') ->
    Q tt (World k' (w_env w))) -> wp E (wakeup (ChPipeRead pi)) Q w.
Proof.
  intros Hw Hl HQ. pose proof Hw as [W1 W2 (p & W3 & W3') W4 _ W6]. apply wp_wakeup; [done|intros j; by rewrite W2|].
  set (k' := (w_k w) <| k_proc ::= imap (woken (ChPipeRead pi) (k_cur (w_k w))) |>).
  assert (Hself : k_proc k' !! i = Some p) by (cbn; by rewrite list_lookup_imap, W3, W1; cbn; rewrite woken_self).
  replace (with_procs _ w) with (World k' (w_env w)) by by destruct w as [[] ?]. apply HQ.
  - eapply writing_frame; [exact Hw|done..| | |done]; [cbn; by rewrite length_imap|]. intros p0 Hp0. rewrite W3 in Hp0. injection Hp0 as <-. by exists p.
  - by apply woken_none.
  - intros [H|(p0 & H & Hk)]; [by left|right]. exists p. rewrite Hself in H. injection H as <-. done.
  - intros [H|(p0 & H & Hk)]; [by left|right]. exists p. rewrite W3 in H. injection H as <-. done.
Qed.

Lemma writing_asleep q k : writing [LkPipe pi] q k -> writing [LkProc i] q (asleep (ChPipeWrite pi) i [] k).
Proof.
  intros Hw. eapply writing_frame; [exact Hw|done..| | |apply Hw]; [cbn; by rewrite length_alter|].
  intros p Hp. rewrite (asleep_proc _ _ _ _ p Hp). by eexists.
Qed.

Lemma writing_awake q k : writing [LkProc i] q k -> writing [LkPipe pi] q (awake i (LkPipe pi) k).
Proof.
  intros Hw. eapply writing_frame; [exact Hw|done..| | |apply Hw]; [cbn; by rewrite length_alter|].
  intros p Hp. cbn. rewrite list_lookup_alter_eq, Hp. by eexists.
Qed.

(** A byte is appended. *)
Lemma reads_byte k ts s a c : reads k ts s a [c] -> 0 <= c < 256.
Proof.
  intros H. specialize (H 0%nat (Nat.lt_0_succ _)). revert H. unfold user_byte. cbv zeta.
  destruct (_ && _); [|done]. intros [= <-]. apply u8_range.
Qed.

(** The bytes user code reads from [addr] on. *)
Definition user_bytes (addr : Z) (bs : list Z) : Prop := forall j c, bs !! j = Some c -> ub (addr + Z.of_nat j) = Some c.

Lemma user_bytes_snoc addr bs c : user_bytes addr bs -> ub (addr + Z.of_nat (length bs)) = Some c -> user_bytes addr (bs ++ [c]).
Proof.
  intros Hb Hc j x Hj. apply lookup_app_Some in Hj as [Hj|[Hlen Hj]]; [by apply Hb|].
  apply list_lookup_singleton_Some in Hj as [Hz <-]. by replace j with (length bs) by lia.
Qed.

Section Pipewrite.
Context (q : list Z) (addr n : Z) (w : world).
Context (Ha : 0 <= addr) (Han : addr + n <= 2 ^ 64).

(** The bytes [bs] have gone in after [q], and [q'] is what the readers have left. *)
Definition sent (bs q' : list Z) : Prop :=
  user_bytes addr bs /\ Z.of_nat (length bs) <= Z.max 0 n /\ exists d, q ++ bs = d ++ q'.

Lemma sent_push bs q' c : sent bs q' -> Z.of_nat (length bs) < n -> ub (addr + Z.of_nat (length bs)) = Some c -> sent (bs ++ [c]) (q' ++ [c]).
Proof.
  intros (H1 & H2 & d & H3) Hlt Hc. split; [by apply user_bytes_snoc|]. rewrite length_app. cbn [length]. split; [lia|].
  exists d. by rewrite !app_assoc, H3.
Qed.
Lemma sent_drop bs q' m : sent bs q' -> sent bs (drop m q').
Proof. intros (H1 & H2 & d & H3). split_and!; [done..|]. exists (d ++ take m q'). by rewrite <- app_assoc, take_drop. Qed.

(** The outcomes. *)
Definition wrote_all (r : Z) (w' : world) : Prop := exists bs q', sent bs q' /\ writing [] q' (w_k w') /\
  ((r = -1 /\ Z.of_nat (length bs) < n /\ stopped (w_k w')) \/
   (r = Z.of_nat (length bs) /\ none_sleeps i (ChPipeRead pi) (w_k w') /\ (stopped (w_k w) -> n <= 0) /\
     (r = Z.max 0 n \/ r < n /\ (addr + r >= MAXVA \/ ub (addr + r) = None)))).
Definition waits_full (w' : world) : Prop := exists bs q' p, sent bs q' /\ writing [LkProc i] q' (w_k w') /\
  Z.of_nat (length q') = PIPESIZE /\ Z.of_nat (length bs) < n /\ none_sleeps i (ChPipeRead pi) (w_k w') /\
  k_proc (w_k w') !! i = Some p /\ p_state p = SLEEPING /\ p_chan p = ChPipeWrite pi.

(** A round of the loop that is not the last. *)
Record round (m : Z) (w' : world) : Prop := Round {
  rd_sent : exists bs q', m = Z.of_nat (length bs) /\ sent bs q' /\ writing [LkPipe pi] q' (w_k w');
  rd_turns : Forall reader_turn (w_env w');
  rd_stop : stopped (w_k w) -> m = 0 /\ stopped (w_k w') }.

Lemma stopped_dec k pp p : k_pipe k !! pi = Some pp -> k_proc k !! i = Some p ->
  stopped k <-> pi_readopen pp = 0 \/ p_killed p <> 0.
Proof.
  intros Hpp Hp. unfold stopped. rewrite Hpp, Hp. split.
  - intros [(? & [= <-] & ?)|(? & [= <-] & ?)]; tauto.
  - intros [?|?]; [left; by exists pp|right; by exists p].
Qed.

Lemma wp_stop_test E held q' pp w' (Q : bool -> world -> Prop) : writing held q' (w_k w') -> (LkProc i ∉ held) -> k_pipe (w_k w') !! pi = Some pp ->
  (stopped (w_k w') -> Q true w') -> (~ stopped (w_k w') -> Q false w') ->
  wp E (if pi_readopen pp =? 0 then ret true else k <- killed i ;; ret (negb (k =? 0))) Q w'.
Proof.
  intros Hw Hl Hpp Q1 Q0. destruct (wr_proc _ _ _ Hw) as (p & Hp & _). pose proof (stopped_dec _ _ _ Hpp Hp) as Hs.
  destruct (Z.eqb_spec (pi_readopen pp) 0) as [E0|E0]; [apply wp_ret, Q1; tauto|].
  kstep. apply (wp_killed _ _ _ p); [done|by rewrite (wr_held _ _ _ Hw)|]. apply wp_ret.
  destruct (Z.eqb_spec (p_killed p) 0); cbn [negb]; [apply Q0|apply Q1]; tauto.
Qed.

(** The pipe is full: the writer sleeps until a reader has had its turn. *)
Lemma wp_pipe_full bs q' w' (Q : Z + option Z -> world -> Prop) : sent bs q' -> writing [LkPipe pi] q' (w_k w') -> Forall reader_turn (w_env w') ->
  Z.of_nat (length q') = PIPESIZE -> Z.of_nat (length bs) < n ->
  (forall k' e m, writing [LkPipe pi] (drop m q') k' -> Forall reader_turn e -> S (length e) = length (w_env w') ->
    Q (inl (Z.of_nat (length bs))) (World k' e)) ->
  wp (XPost (fun _ _ => False) (fun _ _ => False) waits_full)
    (wakeup (ChPipeRead pi) ;;; sleep (ChPipeWrite pi) (LkPipe pi) ;;; ret (inl (Z.of_nat (length bs)))) Q w'.
Proof.
  intros Hs Hw Ht Hfull Hlt HQ. kstep. eapply wp_wakeup_readers; [exact Hw|intros j; by apply not_in_one|].
  intros k1 Hw1 Hn1 _ _. destruct (wr_proc _ _ _ Hw1) as (p & Hp & Hpt). kstep.
  eapply wp_sleep_at; [apply Hw1|exact Hp|apply Hw1|by apply not_in_one|]. cbn [w_k w_env]. pose proof (writing_asleep _ _ Hw1) as Hwa.
  pose proof (asleep_proc (ChPipeWrite pi) i [] _ p Hp) as Hpa. destruct (w_env w') as [|f e].
  - exists bs, q', (p <| p_chan := ChPipeWrite pi |> <| p_state := SLEEPING |>). split_and!; try done.
    intros j pj Hj Hne. apply (Hn1 j pj); [|done]. cbn in Hj. by rewrite list_lookup_alter_ne in Hj by congruence.
  - apply Forall_cons in Ht as [Hf Ht]. destruct (Hf q' _ _ Hwa Hpa eq_refl eq_refl) as [m Hwf]. cbv zeta.
    split; [apply Hwf|]. split; [destruct (wr_proc _ _ _ Hwf) as (p' & ? & _); by eexists|].
    apply wp_ret. by apply (HQ _ e m (writing_awake _ _ Hwf)).
Qed.

(** There is room: a byte of user memory goes into the pipe, unless it cannot be read. *)
Lemma wp_pipe_put E bs q' pp w' (Q : Z + option Z -> world -> Prop) : sent bs q' -> writing [LkPipe pi] q' (w_k w') ->
  k_pipe (w_k w') !! pi = Some pp -> pipe_rep pp q' -> Z.of_nat (length q') < PIPESIZE -> Z.of_nat (length bs) < n ->
  (forall c w'', sent (bs ++ [c]) (q' ++ [c]) -> writing [LkPipe pi] (q' ++ [c]) (w_k w'') -> w_env w'' = w_env w' ->
    Q (inl (Z.of_nat (length bs) + 1)) w'') ->
  (addr + Z.of_nat (length bs) >= MAXVA \/ ub (addr + Z.of_nat (length bs)) = None -> Q (inr (Some (Z.of_nat (length bs)))) w') ->
  wp E (me <- get_proc i ;;
    let! (r, ch) := copyin (p_pagetable me) (u64 (addr + Z.of_nat (length bs))) 1 in
    if r =? -1 then ret (inr (Some (Z.of_nat (length bs))))
    else
      c <- arr_get ch 0 ;;
      data <- arr_set (pi_data pp) (pi_nwrite pp mod PIPESIZE) c ;;
      upd_pipe pi (fun p => p <| pi_data := data |> <| pi_nwrite := u32 (pi_nwrite p + 1) |>) ;;;
      ret (inl (Z.of_nat (length bs) + 1))) Q w'.
Proof.
  intros Hs Hw Hpp Hrep Hroom Hlt Q1 Q0. pose proof Hw as [_ _ (p & Hp & Hpt) _ (hold & l & ts & s & t & V1 & V2 & V3) _].
  kstep. eapply wp_get_proc; [exact Hp|]. kstep. rewrite u64_small by lia. rewrite Hpt.
  apply (wp_copyin hold l ts s root t (addr + Z.of_nat (length bs)) 1 w'); [done|done|lia|lia|..].
  - intros ch Hch Hrd Hmax. destruct ch as [|c [|]]; cbn in Hch; try lia. cbn [Z.eqb Pos.eqb].
    assert (Hcb : 0 <= c < 256) by by eapply (reads_byte (w_k w')).
    assert (Hub : ub (addr + Z.of_nat (length bs)) = Some c).
    { specialize (Hrd 0%nat (Nat.lt_0_succ _)). cbn in Hrd. rewrite Z.add_0_r in Hrd. rewrite <- Hrd. symmetry. apply V3. lia. }
    kstep. apply (wp_arr_get _ _ _ c); [lia|done|]. kstep.
    pose proof (pr_ring _ _ Hrep) as (Hbl & _). assert (0 <= pi_nwrite pp mod PIPESIZE < PIPESIZE) by (unfold PIPESIZE; zlia).
    apply wp_arr_set; [by rewrite Hbl|]. kstep. eapply wp_upd_pipe; [exact Hpp|]. apply wp_ret. eapply Q1; [by apply sent_push| |done].
    eapply writing_frame; [exact Hw|done..|apply Hw|done| |].
    + intros p0 Hp0. by exists p0.
    + eexists. split; [apply lookup_insert_eq|]. by apply pipe_push.
  - intros ch Hch Hrd Hf. destruct ch as [|]; cbn in Hch; [|lia]. apply wp_ret. cbn [Z.eqb Pos.eqb]. apply Q0.
    cbn in Hf. rewrite Z.add_0_r in Hf. destruct Hf as [?|Hf]; [by left|]. destruct (decide (addr + Z.of_nat (length bs) < MAXVA)); [right|left; lia].
    rewrite <- Hf. symmetry. apply V3. lia.
Qed.

Lemma wp_pipewrite_end E bs q' w' : sent bs q' -> writing [LkPipe pi] q' (w_k w') -> (stopped (w_k w) -> n <= 0) ->
  let r := Z.of_nat (length bs) in (r = Z.max 0 n \/ r < n /\ (addr + r >= MAXVA \/ ub (addr + r) = None)) ->
  wp E (wakeup (ChPipeRead pi) ;;; release (LkPipe pi) ;;; ret r) wrote_all w'.
Proof.
  intros Hs Hw Hst r Hr. kstep. eapply wp_wakeup_readers; [exact Hw|intros j; by apply not_in_one|].
  intros k1 Hw1 Hn1 _ _. kstep. eapply (wp_release _ _ _ []); [cbn [w_k]; rewrite (wr_held _ _ _ Hw1); apply release_held_head|].
  apply wp_ret. exists bs, q'. split; [done|]. split; [|right; by split_and!].
  eapply writing_frame; [exact Hw1|done..|by intros p0 ?; exists p0|apply Hw1].
Qed.

End Pipewrite.
End Writer.

(** * Examples *)

Section Examples.
#[local] Existing Instances demo_layout demo_layout_ok.

(** A process with one writable page and a pipe that holds two bytes, at the end of the
    ring and of the counters. *)
Definition demo_end : proc := proc0 <| p_pagetable := demo_page 0 |> <| p_sz := 4096 |>.
Definition demo_pipe : pipe :=
  Pipe (<[511%nat := 104]> (<[0%nat := 105]> (replicate 512 0))) 4294967295 1 1 1.
Definition piped (w : world) : world := w <| w_k ::= fun k =>
  k <| k_cur := Some 0%nat |> <| k_proc := demo_end :: replicate 63 proc0 |>
    <| k_pipe := {[ 7 := demo_pipe ]} |> |>.

Lemma piped_held w : k_held (w_k (piped w)) = k_held (w_k w).
Proof. done. Qed.
Lemma piped_inv hold w l ts : vm_inv hold (w_k w) l ts -> vm_inv hold (w_k (piped w)) l ts.
Proof. by apply vm_inv_same. Qed.

Lemma piped_facts w : k_cur (w_k (piped w)) = Some 0%nat /\ k_proc (w_k (piped w)) !! 0%nat = Some demo_end /\
  length (k_proc (w_k (piped w))) = NPROC /\ k_pipe (w_k (piped w)) !! 7 = Some demo_pipe.
Proof. done. Qed.

Lemma demo_pipe_rep : pipe_rep demo_pipe [104; 105].
Proof.
  split; try done; [|repeat constructor; done]. split_and!; [done..|].
  intros [|[|[|j]]] x; cbn; intros H; by simplify_eq.
Qed.

Lemma piperead_correct_witness : exists r l t w',
  piperead 7 4 5 (piped (demo_map 22)) = Ok r w' /\
  read_done hold_none (demo_spaces t) 0 0 7 [104; 105] 4 5 (piped (demo_map 22)) r w' /\
  vm_inv hold_none (w_k (piped (demo_map 22))) l (demo_spaces t).
Proof.
  destruct demo22 as (l & t & Hh & Hv & _).
  assert (A1 : 0 <= 4) by lia. assert (A2 : 4 + 5 <= 2 ^ 64) by lia. assert (A3 : [104; 105] <> []) by discriminate.
  destruct (piped_facts (demo_map 22)) as (H1 & H2 & H3 & H4).
  assert (Hk : k_held (w_k (piped (demo_map 22))) = []) by (rewrite piped_held; vm_compute; exact eq_refl).
  assert (Hlk : LkPipe 7 ∉ k_held (w_k (piped (demo_map 22)))) by (rewrite Hk; apply not_elem_of_nil).
  pose proof (piperead_correct hold_none l (demo_spaces t) 0%nat 0%nat (demo_page 0) t demo_end 7 demo_pipe
    [104; 105] 4 5 (piped (demo_map 22)) H1 H2 eq_refl Hk H3 (piped_inv _ _ _ _ Hv) eq_refl
    H4 demo_pipe_rep A1 A2 (or_introl A3) Hlk) as H.
  apply wp_total_Ok in H as (r & w' & Er & Hr). exists r, l, t, w'.
  exact (conj Er (conj Hr (piped_inv _ _ _ _ Hv))).
Defined.

(** A full pipe, and a reader that takes one byte each turn. *)
Definition demo_full : pipe := Pipe (replicate 512 9) 0 512 1 1.
Definition writer_of (w : world) : kernel := (w_k (piped w)) <| k_pipe := {[ 7 := demo_full ]} |>.
Definition demo_writer : kernel := writer_of (demo_map 22).
Definition demo_reader (k : kernel) : kernel := k <| k_pipe ::= alter (fun p =>
  if pi_nread p =? pi_nwrite p then p else p <| pi_nread := u32 (pi_nread p + 1) |>) 7 |>.

Lemma writer_facts w : k_cur (writer_of w) = Some 0%nat /\ k_held (writer_of w) = k_held (w_k w) /\
  k_proc (writer_of w) !! 0%nat = Some demo_end /\ length (k_proc (writer_of w)) = NPROC /\ k_pipe (writer_of w) !! 7 = Some demo_full.
Proof. done. Qed.
Lemma vm_inv_pipes hold k ps l ts : vm_inv hold k l ts -> vm_inv hold (k <| k_pipe := ps |>) l ts.
Proof. by apply vm_inv_same. Qed.

Lemma demo_full_rep : pipe_rep demo_full (replicate 512 9).
Proof.
  split; try done; [|apply Forall_replicate; lia]. split_and!; [done..|]. intros j x Hj.
  pose proof (lookup_lt_Some _ _ _ Hj) as Hl. rewrite length_replicate in Hl. cbn [pi_data pi_nread demo_full]. unfold PIPESIZE.
  rewrite Z.mod_small by lia. by replace (Z.to_nat (0 + Z.of_nat j)) with j by lia.
Qed.

Lemma demo_reader_turn i root ub : reader_turn i root 7 ub demo_reader.
Proof.
  intros q k p Hw _ _ _. destruct (wr_pipe _ _ _ _ _ _ _ Hw) as (pp & Hpp & Hrep). pose proof (pipe_empty pp q Hrep) as He.
  assert (Hl : k_pipe (demo_reader k) !! 7 = Some (if bool_decide (q = []) then pp else pp <| pi_nread := u32 (pi_nread pp + 1) |>)).
  { cbn. by rewrite lookup_alter_eq, Hpp, <- He. }
  exists 1%nat. eapply writing_frame; [exact Hw|done..|apply Hw|done|by intros p0 ?; exists p0|].
  eexists. split; [exact Hl|]. case_bool_decide as Hq; [by subst|]. destruct q as [|c q]; [done|]. by eapply pipe_pop.
Qed.

End Examples.
