(* ===== verification/File.v ===== *)
(** Open files: kernel/file.c, and [pipealloc] of kernel/pipe.c. *)

From S2P Require Export Fs Console Pipe.

(** What uninitialised memory on a kernel stack holds: the padding of a [struct stat]
    that is copied out. *)
Class Uninit : Type := uninit : nat -> list Z.

Definition set_readable_writable (r w : Z) (f : file) : file :=
  f <| f_readable := r |> <| f_writable := w |>.

Section Files.
Context {L : Layout} {U : Uninit}.

Definition filealloc : K (option nat) :=
  acquire LkFtable ;;;
  r <- for_ret (seq 0 NFILE) (fun i =>
    f <- get_file i ;;
    if f_ref f =? 0 then
      upd_file i (fun f => f <| f_ref := 1 |>) ;;;
      release LkFtable ;;;
      ret (Some i)
    else ret None) ;;
  match r with
  | Some i => ret (Some i)
  | None => release LkFtable ;;; ret None
  end.

Definition filedup (i : nat) : K nat :=
  acquire LkFtable ;;;
  f <- get_file i ;;
  if f_ref f <? 1 then panic "filedup" else
  upd_file i (fun f => f <| f_ref ::= Z.add 1 |>) ;;;
  release LkFtable ;;;
  ret i.

(** [ip] where the code gives it to [iput] or [ilock]. *)
Definition file_inode (f : file) : K nat := from_option_or_fault "ip" (f_ip f).

Definition fileclose (i : nat) : K unit :=
  acquire LkFtable ;;;
  f <- get_file i ;;
  if f_ref f <? 1 then panic "fileclose" else
  upd_file i (fun f => f <| f_ref ::= fun n => n - 1 |>) ;;;
  f <- get_file i ;;
  if f_ref f >? 0 then release LkFtable
  else
    let ff := f in
    upd_file i (fun f => f <| f_ref := 0 |>) ;;;
    upd_file i (fun f => f <| f_type := FD_NONE |>) ;;;
    release LkFtable ;;;
    match f_type ff with
    | FD_PIPE => pipeclose (f_pipe ff) (negb (f_writable ff =? 0))
    | FD_INODE | FD_DEVICE =>
      begin_op ;;;
      ip <- file_inode ff ;;
      iput ip ;;;
      end_op
    | FD_NONE => ret tt
    end.

(** [struct stat] in memory: four bytes of padding before the size. *)
Definition stat_bytes (st : stat) : list Z :=
  le_bytes 4 (u32 (st_dev st)) ++ le_bytes 4 (st_ino st) ++ le_bytes 2 (u16 (st_type st))
  ++ le_bytes 2 (u16 (st_nlink st)) ++ uninit 4 ++ le_bytes 8 (st_size st).

Definition filestat (i : nat) (addr : Z) : K Z :=
  me <- curproc ;;
  f <- get_file i ;;
  match f_type f with
  | FD_INODE | FD_DEVICE =>
    ip <- file_inode f ;;
    ilock ip ;;;
    st <- stati ip ;;
    iunlock ip ;;;
    p <- get_proc me ;;
    r <- copyout (p_pagetable p) addr (stat_bytes st) ;;
    if r <? 0 then ret (-1) else ret 0
  | _ => ret (-1)
  end.

(** The functions of [devsw[major]], which are the console's. *)
Definition devsw_at (major : Z) : K (option device) :=
  if (major <? 0) || (major >=? NDEV) then ret None
  else d <- getk k_devsw ;; arr_get d major.
Definition dev_read (d : device) (addr n : Z) : K Z :=
  match d with DevConsole => let! (r, _) := consoleread true addr n in ret r end.
Definition dev_write (d : device) (addr n : Z) : K Z :=
  match d with DevConsole => consolewrite (SrcUser addr) n end.

Definition fileread (i : nat) (addr n : Z) : K Z :=
  f <- get_file i ;;
  if f_readable f =? 0 then ret (-1)
  else
    match f_type f with
    | FD_PIPE => piperead (f_pipe f) addr n
    | FD_DEVICE =>
      d <- devsw_at (f_major f) ;;
      match d with Some d => dev_read d addr n | None => ret (-1) end
    | FD_INODE =>
      ip <- file_inode f ;;
      ilock ip ;;;
      f <- get_file i ;;
      let! (r, _) := readi ip true addr (f_off f) (u32 n) in
      when (r >? 0) (upd_file i (fun f => f <| f_off ::= fun o => u32 (o + r) |>)) ;;;
      iunlock ip ;;;
      ret r
    | FD_NONE => panic "fileread"
    end.

Definition filewrite (i : nat) (addr n : Z) : K Z :=
  f <- get_file i ;;
  if f_writable f =? 0 then ret (-1)
  else
    match f_type f with
    | FD_PIPE => pipewrite (f_pipe f) addr n
    | FD_DEVICE =>
      d <- devsw_at (f_major f) ;;
      match d with Some d => dev_write d addr n | None => ret (-1) end
    | FD_INODE =>
      let max := (MAXOPBLOCKS - 1 - 1 - 2) / 2 * BSIZE in
      ip <- file_inode f ;;
      done <- loop (Z.to_nat (n / max) + 2) (fun j =>
        if j <? n then
          let n1 := if n - j >? max then max else n - j in
          begin_op ;;;
          ilock ip ;;;
          f <- get_file i ;;
          r <- writei ip (SrcUser (u64 (addr + j))) (f_off f) n1 ;;
          when (r >? 0) (upd_file i (fun f => f <| f_off ::= fun o => u32 (o + r) |>)) ;;;
          iunlock ip ;;;
          end_op ;;;
          if negb (r =? n1) then ret (inr j) else ret (inl (j + r))
        else ret (inr j)) 0 ;;
      ret (if done =? n then n else -1)
    | FD_NONE => panic "filewrite"
    end.

(** * [pipealloc] of kernel/pipe.c: the two ends, or the result -1 *)

Definition pipe_bad (pi : Z) (f0 f1 : option nat) : K (option (nat * nat)) :=
  when (negb (pi =? 0)) (kfree pi) ;;;
  match f0 with Some i => fileclose i | None => ret tt end ;;;
  match f1 with Some i => fileclose i | None => ret tt end ;;;
  ret None.

Definition pipealloc : K (option (nat * nat)) :=
  f0 <- filealloc ;;
  match f0 with
  | None => pipe_bad 0 None None
  | Some i0 =>
    f1 <- filealloc ;;
    match f1 with
    | None => pipe_bad 0 f0 None
    | Some i1 =>
      pi <- kalloc ;;
      if pi =? 0 then pipe_bad pi f0 f1
      else
        modk (fun k => k <| k_pipe ::= <[pi := Pipe (replicate (Z.to_nat PIPESIZE) 5) 0 0 1 1]> |>) ;;;
        upd_file i0 (fun f => f <| f_type := FD_PIPE |> <| f_readable := 1 |> <| f_writable := 0 |>
          <| f_pipe := pi |>) ;;;
        upd_file i1 (fun f => f <| f_type := FD_PIPE |> <| f_readable := 0 |> <| f_writable := 1 |>
          <| f_pipe := pi |>) ;;;
        ret (Some (i0, i1))
    end
  end.
End Files.
