(* ===== verification/ProcLife.v ===== *)
(** The life of a process: the parts of kernel/proc.c that use files - [userinit],
    [fork], [exit], [wait] and [waitx]. *)

From S2P Require Export File.

(** [safestrcpy(name, s, sizeof(name))] *)
Definition set_name (s old : list Z) : list Z :=
  let bs := safestrcpy_bytes (at_list s) 16 in bs ++ drop (length bs) old.

Definition initcode : list Z :=
  [23; 5; 0; 0; 19; 5; 69; 2;
   151; 5; 0; 0; 147; 133; 53; 2;
   147; 8; 112; 0; 115; 0; 0; 0;
   147; 8; 32; 0; 115; 0; 0; 0;
   239; 240; 159; 255; 47; 105; 110; 105;
   116; 0; 0; 36; 0; 0; 0; 0;
   0; 0; 0; 0].

Section ProcLife.
Context {L : Layout} {U : Uninit}.

Definition userinit : K unit :=
  o <- allocproc ;;
  modk (fun k => k <| k_initproc := o |>) ;;;
  i <- from_option_or_fault "allocproc" o ;;
  p <- get_proc i ;;
  uvmfirst (p_pagetable p) initcode ;;;
  upd_proc i (fun p => p <| p_sz := PGSIZE |>) ;;;
  upd_tf (p_trapframe p) (fun t => t <| epc := 0 |> <| tf_sp := PGSIZE |>) ;;;
  upd_proc i (fun p => p <| p_name ::= set_name (bytes "initcode") |>) ;;;
  cwd <- namei (bytes "/") ;;
  upd_proc i (fun p => p <| p_cwd := cwd |>) ;;;
  upd_proc i (fun p => p <| p_state := RUNNABLE |>) ;;;
  release (LkProc i).

Definition fork : K Z :=
  me <- curproc ;;
  o <- allocproc ;;
  match o with
  | None => ret (-1)
  | Some np =>
    p <- get_proc me ;;
    c <- get_proc np ;;
    r <- uvmcopy (p_pagetable p) (p_pagetable c) (p_sz p) ;;
    if r <? 0 then
      freeproc np ;;;
      release (LkProc np) ;;;
      ret (-1)
    else
      upd_proc np (fun c => c <| p_sz := p_sz p |>) ;;;
      tf <- get_tf (p_trapframe p) ;;
      upd_tf (p_trapframe c) (fun _ => tf) ;;;
      upd_tf (p_trapframe c) (fun t => t <| a0 := 0 |>) ;;;
      for_do (seq 0 NOFILE) (fun fd =>
        p <- get_proc me ;;
        match nth fd (p_ofile p) None with
        | Some f =>
          f <- filedup f ;;
          upd_proc np (fun c => c <| p_ofile ::= <[fd := Some f]> |>)
        | None => ret tt
        end) ;;;
      cwd <- from_option_or_fault "cwd" (p_cwd p) ;;
      cwd <- idup cwd ;;
      upd_proc np (fun c => c <| p_cwd := Some cwd |>) ;;;
      upd_proc np (fun c => c <| p_name ::= set_name (cstring (p_name p)) |>) ;;;
      let pid := p_pid c in
      release (LkProc np) ;;;
      acquire LkWait ;;;
      upd_proc np (fun c => c <| p_parent := Some me |>) ;;;
      release LkWait ;;;
      acquire (LkProc np) ;;;
      upd_proc np (fun c => c <| p_state := RUNNABLE |>) ;;;
      release (LkProc np) ;;;
      ret pid
  end.

(** The channel a process in [wait] sleeps on; [wakeup] of a null parent wakes nobody
    but the processes whose channel is null. *)
Definition proc_chan (p : option nat) : chan :=
  match p with Some i => ChProc i | None => ChNone end.

Definition reparent (i : nat) : K unit :=
  for_do (seq 0 NPROC) (fun j =>
    pp <- get_proc j ;;
    when (bool_decide (p_parent pp = Some i))
      (init <- getk k_initproc ;;
       upd_proc j (fun pp => pp <| p_parent := init |>) ;;;
       wakeup (proc_chan init))).

Definition exit (status : Z) : K unit :=
  i <- curproc ;;
  init <- getk k_initproc ;;
  if bool_decide (Some i = init) then panic "init exiting" else
  for_do (seq 0 NOFILE) (fun fd =>
    p <- get_proc i ;;
    match nth fd (p_ofile p) None with
    | Some f =>
      fileclose f ;;;
      upd_proc i (fun p => p <| p_ofile ::= <[fd := None]> |>)
    | None => ret tt
    end) ;;;
  begin_op ;;;
  p <- get_proc i ;;
  cwd <- from_option_or_fault "cwd" (p_cwd p) ;;
  iput cwd ;;;
  end_op ;;;
  upd_proc i (fun p => p <| p_cwd := None |>) ;;;
  acquire LkWait ;;;
  reparent i ;;;
  p <- get_proc i ;;
  wakeup (proc_chan (p_parent p)) ;;;
  acquire (LkProc i) ;;;
  ticks <- getk k_ticks ;;
  upd_proc i (fun p => p <| p_xstate := status |>) ;;;
  upd_proc i (fun p => p <| p_state := ZOMBIE |>) ;;;
  upd_proc i (fun p => p <| p_etime := ticks |>) ;;;
  release LkWait ;;;
  sched ;;;
  panic "zombie exit".

(** [copyout] of a child's exit status, unless the address is null. *)
Definition copy_xstate (me : nat) (addr xstate : Z) : K bool :=
  if addr =? 0 then ret true
  else
    p <- get_proc me ;;
    r <- copyout (p_pagetable p) addr (le_bytes 4 (u32 xstate)) ;;
    ret (negb (r <? 0)).

(** The scan for an exited child: the result of [wait], or whether there are children. *)
Fixpoint wait_scan (js : list nat) (me : nat) (addr : Z) (havekids : bool) : K (Z + bool) :=
  match js with
  | [] => ret (inr havekids)
  | j :: js' =>
    pp <- get_proc j ;;
    if negb (bool_decide (p_parent pp = Some me)) then wait_scan js' me addr havekids
    else
      acquire (LkProc j) ;;;
      pp <- get_proc j ;;
      if bool_decide (p_state pp = ZOMBIE) then
        let pid := p_pid pp in
        ok <- copy_xstate me addr (p_xstate pp) ;;
        if negb ok then
          release (LkProc j) ;;;
          release LkWait ;;;
          ret (inl (-1))
        else
          freeproc j ;;;
          release (LkProc j) ;;;
          release LkWait ;;;
          ret (inl pid)
      else
        release (LkProc j) ;;;
        wait_scan js' me addr true
  end.

Definition wait (addr : Z) : K Z :=
  me <- curproc ;;
  acquire LkWait ;;;
  loop_env 0 (fun _ : unit =>
    r <- wait_scan (seq 0 NPROC) me addr false ;;
    match r with
    | inl v => ret (inr v)
    | inr havekids =>
      stop <- (if negb havekids then ret true else k <- killed me ;; ret (negb (k =? 0))) ;;
      if stop : bool then release LkWait ;;; ret (inr (-1))
      else sleep (ChProc me) LkWait ;;; ret (inl tt)
    end) tt.

(** The scan of [waitx]: the result and the times stored through its pointers. *)
Fixpoint waitx_scan (js : list nat) (me : nat) (addr : Z) (havekids : bool)
    : K (Z * (Z * Z) + bool) :=
  match js with
  | [] => ret (inr havekids)
  | j :: js' =>
    np <- get_proc j ;;
    if negb (bool_decide (p_parent np = Some me)) then waitx_scan js' me addr havekids
    else
      acquire (LkProc j) ;;;
      np <- get_proc j ;;
      if bool_decide (p_state np = ZOMBIE) then
        let pid := p_pid np in
        let rtime := p_rtime np in
        let wtime := u32 (p_etime np - p_ctime np - p_rtime np) in
        ok <- copy_xstate me addr (p_xstate np) ;;
        if negb ok then
          release (LkProc j) ;;;
          release LkWait ;;;
          ret (inl (-1, (wtime, rtime)))
        else
          freeproc j ;;;
          release (LkProc j) ;;;
          release LkWait ;;;
          ret (inl (pid, (wtime, rtime)))
      else
        release (LkProc j) ;;;
        waitx_scan js' me addr true
  end.

(** The result, and [wtime] and [rtime] where they are stored. *)
Definition waitx (addr : Z) : K (Z * option (Z * Z)) :=
  me <- curproc ;;
  acquire LkWait ;;;
  loop_env 0 (fun _ : unit =>
    r <- waitx_scan (seq 0 NPROC) me addr false ;;
    match r with
    | inl (v, times) => ret (inr (v, Some times))
    | inr havekids =>
      p <- get_proc me ;;
      if negb havekids || negb (p_killed p =? 0) then release LkWait ;;; ret (inr (-1, None))
      else sleep (ChProc me) LkWait ;;; ret (inl tt)
    end) tt.
End ProcLife.
