(* ===== verification/Exec.v ===== *)
(** [exec]: kernel/exec.c. *)

From S2P Require Export ProcLife.

(** * kernel/elf.h *)

Definition ELF_MAGIC : Z := 1179403647.
Definition ELF_PROG_LOAD : Z := 1.

Definition get64 (off : nat) (data : list Z) : Z := le_val (get_bytes off 8 data).

(** The fields of the headers the code uses. *)
Record elfhdr : Type := Elfhdr { eh_magic : Z; eh_entry : Z; eh_phoff : Z; eh_phnum : Z }.
Definition elfhdr_size : Z := 64.
Definition elfhdr_of (bs : list Z) : elfhdr :=
  Elfhdr (get32 0 bs) (get64 24 bs) (get64 32 bs) (get16 56 bs).

Record proghdr : Type := Proghdr {
  ph_type : Z;
  ph_flags : Z;
  ph_off : Z;
  ph_vaddr : Z;
  ph_filesz : Z;
  ph_memsz : Z }.
Definition proghdr_size : Z := 56.
Definition proghdr_of (bs : list Z) : proghdr :=
  Proghdr (get32 0 bs) (get32 4 bs) (get64 8 bs) (get64 16 bs) (get64 32 bs) (get64 40 bs).

(** * kernel/exec.c *)

Definition flags2perm (flags : Z) : Z :=
  let perm := if has flags 1 then PTE_X else 0 in
  if has flags 2 then Z.lor perm PTE_W else perm.

Section Exec.
Context {L : Layout} {U : Uninit}.

(** [readi] into the physical page at [pa]: what was read is stored, also when it is
    not all that was asked for. *)
Definition loadseg (pagetable va : Z) (ip : nat) (offset sz : Z) : K Z :=
  loop (Z.to_nat (sz / PGSIZE) + 2) (fun i =>
    if i <? sz then
      pa <- walkaddr pagetable (u64 (va + i)) ;;
      if pa =? 0 then panic "loadseg: address should exist"
      else
        let n := if sz - i <? PGSIZE then sz - i else PGSIZE in
        let! (r, bs) := readi ip false pa (u32 (offset + i)) n in
        modk (fun k => k <| k_ram ::= fun m => store_bytes m pa bs |>) ;;;
        if negb (u32 r =? n) then ret (inr (-1)) else ret (inl (u32 (i + PGSIZE)))
    else ret (inr 0)) 0.

(** The label [bad:]. *)
Definition exec_bad (pagetable sz : Z) (ip : option nat) : K Z :=
  when (negb (pagetable =? 0)) (proc_freepagetable pagetable sz) ;;;
  match ip with Some i => iunlockput i ;;; end_op | None => ret tt end ;;;
  ret (-1).

(** The loop over the program headers: the size of the image, after a failure or at the
    end. *)
Definition load_segments (pagetable : Z) (ip : nat) (elf : elfhdr) : K (Z + Z) :=
  loop (Z.to_nat (eh_phnum elf) + 1) (fun '(i, off, sz) =>
    if i <? eh_phnum elf then
      let! (r, bs) := readi ip false 0 (u32 off) proghdr_size in
      if negb (r =? proghdr_size) then ret (inr (inl sz)) else
      let ph := proghdr_of bs in
      let next sz := (i + 1, s32 (off + proghdr_size), sz) in
      if negb (ph_type ph =? ELF_PROG_LOAD) then ret (inl (next sz))
      else if ph_memsz ph <? ph_filesz ph then ret (inr (inl sz))
      else if u64 (ph_vaddr ph + ph_memsz ph) <? ph_vaddr ph then ret (inr (inl sz))
      else if negb (ph_vaddr ph mod PGSIZE =? 0) then ret (inr (inl sz))
      else
        sz1 <- uvmalloc pagetable sz (u64 (ph_vaddr ph + ph_memsz ph)) (flags2perm (ph_flags ph)) ;;
        if sz1 =? 0 then ret (inr (inl sz))
        else
          r <- loadseg pagetable (ph_vaddr ph) ip (u32 (ph_off ph)) (u32 (ph_filesz ph)) ;;
          if r <? 0 then ret (inr (inl sz1)) else ret (inl (next sz1))
    else ret (inr (inr sz))) (0, s32 (eh_phoff elf), 0).

(** [sp -= n; sp -= sp % 16;] *)
Definition push (sp n : Z) : Z := let sp := u64 (sp - n) in sp - sp mod 16.

(** The argument strings: the stack pointer and the addresses of the strings, or none
    after a failure. *)
Fixpoint push_args (pagetable sp stackbase : Z) (argc : Z) (argv : list (list Z)) (ustack : list Z)
    : K (option (Z * list Z)) :=
  match argv with
  | [] => ret (Some (sp, ustack))
  | arg :: argv' =>
    if argc >=? MAXARG then ret None
    else
      let sp := push sp (Z.of_nat (length arg) + 1) in
      if sp <? stackbase then ret None
      else
        r <- copyout pagetable sp (arg ++ [0]) ;;
        if r <? 0 then ret None
        else push_args pagetable sp stackbase (argc + 1) argv' (ustack ++ [sp])
  end.

(** What follows the last slash of the path. *)
Fixpoint last_elem (path last : list Z) : list Z :=
  match path with
  | [] => last
  | c :: path' => last_elem path' (if c =? slash then path' else last)
  end.

(** The stack and the commitment to the new image, once the program is loaded. *)
Definition exec_commit (path : list Z) (argv : list (list Z)) (elf : elfhdr) (pagetable sz : Z) : K Z :=
  me <- curproc ;;
  p <- get_proc me ;;
  let oldsz := p_sz p in
  let sz := PGROUNDUP sz in
  sz1 <- uvmalloc pagetable sz (u64 (sz + 2 * PGSIZE)) PTE_W ;;
  if sz1 =? 0 then exec_bad pagetable sz None
  else
    let sz := sz1 in
    uvmclear pagetable (u64 (sz - 2 * PGSIZE)) ;;;
    let stackbase := u64 (sz - PGSIZE) in
    r <- push_args pagetable sz stackbase 0 argv [] ;;
    match r with
    | None => exec_bad pagetable sz None
    | Some (sp, ustack) =>
      let ustack := ustack ++ [0] in
      let sp := push sp (8 * Z.of_nat (length ustack)) in
      if sp <? stackbase then exec_bad pagetable sz None
      else
        r <- copyout pagetable sp (concat (le_bytes 8 <$> ustack)) ;;
        if r <? 0 then exec_bad pagetable sz None
        else
          upd_tf (p_trapframe p) (fun t => t <| a1 := sp |>) ;;;
          upd_proc me (fun p => p <| p_name ::= set_name (last_elem path path) |>) ;;;
          p <- get_proc me ;;
          let oldpagetable := p_pagetable p in
          upd_proc me (fun p => p <| p_pagetable := pagetable |> <| p_sz := sz |>) ;;;
          upd_tf (p_trapframe p) (fun t => t <| epc := eh_entry elf |> <| tf_sp := sp |>) ;;;
          proc_freepagetable oldpagetable oldsz ;;;
          ret (Z.of_nat (length argv))
    end.

Definition exec (path : list Z) (argv : list (list Z)) : K Z :=
  me <- curproc ;;
  begin_op ;;;
  o <- namei path ;;
  match o with
  | None => end_op ;;; ret (-1)
  | Some ip =>
    ilock ip ;;;
    let! (r, bs) := readi ip false 0 0 elfhdr_size in
    if negb (r =? elfhdr_size) then exec_bad 0 0 (Some ip) else
    let elf := elfhdr_of bs in
    if negb (eh_magic elf =? ELF_MAGIC) then exec_bad 0 0 (Some ip) else
    pagetable <- proc_pagetable me ;;
    if pagetable =? 0 then exec_bad 0 0 (Some ip) else
    r <- load_segments pagetable ip elf ;;
    match r with
    | inl sz => exec_bad pagetable sz (Some ip)
    | inr sz =>
      iunlockput ip ;;;
      end_op ;;;
      exec_commit path argv elf pagetable sz
    end
  end.
End Exec.
