(* ===== verification/Syscall.v ===== *)
(** System calls: kernel/syscall.c, kernel/sysproc.c and kernel/sysfile.c. *)

From S2P Require Export Exec.

(** * kernel/syscall.h, kernel/fcntl.h *)

Definition SYS_fork : Z := 1.
Definition SYS_exit : Z := 2.
Definition SYS_wait : Z := 3.
Definition SYS_pipe : Z := 4.
Definition SYS_read : Z := 5.
Definition SYS_kill : Z := 6.
Definition SYS_exec : Z := 7.
Definition SYS_fstat : Z := 8.
Definition SYS_chdir : Z := 9.
Definition SYS_dup : Z := 10.
Definition SYS_getpid : Z := 11.
Definition SYS_sbrk : Z := 12.
Definition SYS_sleep : Z := 13.
Definition SYS_uptime : Z := 14.
Definition SYS_open : Z := 15.
Definition SYS_write : Z := 16.
Definition SYS_mknod : Z := 17.
Definition SYS_unlink : Z := 18.
Definition SYS_link : Z := 19.
Definition SYS_mkdir : Z := 20.
Definition SYS_close : Z := 21.
Definition SYS_waitx : Z := 22.
Definition SYS_setpriority : Z := 23.
Definition O_RDONLY : Z := 0.
Definition O_WRONLY : Z := 1.
Definition O_RDWR : Z := 2.
Definition O_CREATE : Z := 512.
Definition O_TRUNC : Z := 1024.

Section Syscalls.
Context {L : Layout} {U : Uninit}.

(** * kernel/syscall.c: arguments *)

(** The current process's record. *)
Definition self : K proc := i <- curproc ;; get_proc i.

(** The result and the word. *)
Definition fetchaddr (addr : Z) : K (Z * Z) :=
  p <- self ;;
  if (addr >=? p_sz p) || (u64 (addr + 8) >? p_sz p) then ret (-1, 0)
  else
    let! (r, bs) := copyin (p_pagetable p) addr 8 in
    if negb (r =? 0) then ret (-1, 0) else ret (0, le_val bs).

(** The result, the bytes stored in [buf], which end with the NUL when it is not -1. *)
Definition fetchstr (addr max : Z) : K (Z * list Z) :=
  p <- self ;;
  let! (r, bs) := copyinstr (p_pagetable p) addr max in
  if r <? 0 then ret (-1, bs) else ret (Z.of_nat (length (cstring bs)), bs).

Definition argraw (n : Z) : K Z :=
  p <- self ;;
  t <- get_tf (p_trapframe p) ;;
  if n =? 0 then ret (a0 t)
  else if n =? 1 then ret (a1 t)
  else if n =? 2 then ret (a2 t)
  else if n =? 3 then ret (a3 t)
  else if n =? 4 then ret (a4 t)
  else if n =? 5 then ret (a5 t)
  else panic "argraw".

Definition argint (n : Z) : K Z := v <- argraw n ;; ret (s32 v).
Definition argaddr (n : Z) : K Z := argraw n.
Definition argstr (n max : Z) : K (Z * list Z) := addr <- argaddr n ;; fetchstr addr max.

(** An [int] or -1 as the [uint64] a system call returns. *)
Definition ret_int (v : Z) : K Z := ret (u64 v).

(** * kernel/sysproc.c *)

Definition sys_exit : K Z := n <- argint 0 ;; exit n ;;; ret 0.
Definition sys_getpid : K Z := p <- self ;; ret_int (p_pid p).
Definition sys_fork : K Z := r <- fork ;; ret_int r.
Definition sys_wait : K Z := p <- argaddr 0 ;; r <- wait p ;; ret_int r.

Definition sys_sbrk : K Z :=
  n <- argint 0 ;;
  p <- self ;;
  let addr := p_sz p in
  r <- growproc n ;;
  if r <? 0 then ret_int (-1) else ret addr.

Definition sys_sleep : K Z :=
  n <- argint 0 ;;
  acquire LkTicks ;;;
  ticks0 <- getk k_ticks ;;
  loop_env 0 (fun _ : unit =>
    ticks <- getk k_ticks ;;
    (* both sides of the comparison are unsigned *)
    if u32 (ticks - ticks0) <? u32 n then
      me <- curproc ;;
      k <- killed me ;;
      if negb (k =? 0) then release LkTicks ;;; x <- ret_int (-1) ;; ret (inr x)
      else sleep ChTicks LkTicks ;;; ret (inl tt)
    else release LkTicks ;;; ret (inr 0)) tt.

Definition sys_kill : K Z := pid <- argint 0 ;; r <- kill pid ;; ret_int r.

Definition sys_uptime : K Z :=
  acquire LkTicks ;;;
  xticks <- getk k_ticks ;;
  release LkTicks ;;;
  ret xticks.

(** [wtime] and [rtime] are uninitialised when [waitx] does not store to them. *)
Definition sys_waitx : K Z :=
  addr <- argaddr 0 ;;
  addr1 <- argaddr 1 ;;
  addr2 <- argaddr 2 ;;
  let! (r, times) := waitx addr in
  let '(wtime, rtime) := match times with
                         | Some (w, r) => (le_bytes 4 w, le_bytes 4 r)
                         | None => (uninit 4, uninit 4)
                         end in
  p <- self ;;
  r1 <- copyout (p_pagetable p) addr1 wtime ;;
  if r1 <? 0 then ret_int (-1)
  else
    r2 <- copyout (p_pagetable p) addr2 rtime ;;
    if r2 <? 0 then ret_int (-1) else ret_int r.

(** After the loop [p] is the process, or one past the end of the table. *)
Definition sys_set_priority : K Z :=
  pid <- argint 0 ;;
  priority <- argint 1 ;;
  if (priority <? 0) || (priority >? 100) then ret_int (-1)
  else
    r <- for_ret (seq 0 NPROC) (fun i =>
      p <- get_proc i ;; ret (if p_pid p =? pid then Some i else None)) ;;
    let i := default NPROC r in
    p <- get_proc i ;;
    let old_sp := s32 (p_sp p) in
    upd_proc i (fun p => p <| p_sp := priority |>) ;;;
    when (priority <? old_sp) yield ;;;
    ret_int old_sp.

(** * kernel/sysfile.c *)

(** The descriptor and the file. *)
Definition argfd (n : Z) : K (option (Z * nat)) :=
  fd <- argint n ;;
  if (fd <? 0) || (fd >=? Z.of_nat NOFILE) then ret None
  else
    p <- self ;;
    f <- arr_get (p_ofile p) fd ;;
    ret (f' ← f; Some (fd, f')).

Definition set_ofile (fd : nat) (f : option nat) : K unit :=
  i <- curproc ;; upd_proc i (fun p => p <| p_ofile ::= <[fd := f]> |>).

(** The descriptor, or -1. *)
Definition fdalloc (f : nat) : K Z :=
  r <- for_ret (seq 0 NOFILE) (fun fd =>
    p <- self ;;
    o <- arr_get (p_ofile p) (Z.of_nat fd) ;;
    match o with
    | None => set_ofile fd (Some f) ;;; ret (Some (Z.of_nat fd))
    | Some _ => ret None
    end) ;;
  ret (default (-1) r).

Definition sys_dup : K Z :=
  r <- argfd 0 ;;
  match r with
  | None => ret_int (-1)
  | Some (_, f) =>
    fd <- fdalloc f ;;
    if fd <? 0 then ret_int (-1) else filedup f ;;; ret_int fd
  end.

Definition sys_getreadcount : K Z := n <- getk k_readcount ;; ret_int n.

Definition sys_read : K Z :=
  modk (fun k => k <| k_readcount ::= fun n => s32 (n + 1) |>) ;;;
  p <- argaddr 1 ;;
  n <- argint 2 ;;
  r <- argfd 0 ;;
  match r with
  | None => ret_int (-1)
  | Some (_, f) => x <- fileread f p n ;; ret_int x
  end.

Definition sys_write : K Z :=
  p <- argaddr 1 ;;
  n <- argint 2 ;;
  r <- argfd 0 ;;
  match r with
  | None => ret_int (-1)
  | Some (_, f) => x <- filewrite f p n ;; ret_int x
  end.

Definition sys_close : K Z :=
  r <- argfd 0 ;;
  match r with
  | None => ret_int (-1)
  | Some (fd, f) => set_ofile (Z.to_nat fd) None ;;; fileclose f ;;; ret 0
  end.

Definition sys_fstat : K Z :=
  st <- argaddr 1 ;;
  r <- argfd 0 ;;
  match r with
  | None => ret_int (-1)
  | Some (_, f) => x <- filestat f st ;; ret_int x
  end.

Definition nlink_add (i : nat) (d : Z) : K unit :=
  upd_inode i (fun ip => ip <| i_nlink ::= fun n => s16 (n + d) |>).

(** The label [bad:] of [sys_link]. *)
Definition link_bad (ip : nat) : K Z :=
  ilock ip ;;;
  nlink_add ip (-1) ;;;
  iupdate ip ;;;
  iunlockput ip ;;;
  end_op ;;;
  ret_int (-1).

Definition sys_link : K Z :=
  let! (r0, old) := argstr 0 MAXPATH in
  if r0 <? 0 then ret_int (-1) else
  let! (r1, new) := argstr 1 MAXPATH in
  if r1 <? 0 then ret_int (-1) else
  begin_op ;;;
  o <- namei (cstring old) ;;
  match o with
  | None => end_op ;;; ret_int (-1)
  | Some i =>
    ilock i ;;;
    ip <- get_inode i ;;
    if i_type ip =? T_DIR then iunlockput i ;;; end_op ;;; ret_int (-1)
    else
      nlink_add i 1 ;;;
      iupdate i ;;;
      iunlock i ;;;
      o <- nameiparent (cstring new) ;;
      match o with
      | None => link_bad i
      | Some (d, name) =>
        ilock d ;;;
        dp <- get_inode d ;;
        ip <- get_inode i ;;
        bad <- (if negb (i_dev dp =? i_dev ip) then ret true
                else r <- dirlink d name (i_inum ip) ;; ret (r <? 0)) ;;
        if bad : bool then iunlockput d ;;; link_bad i
        else iunlockput d ;;; iput i ;;; end_op ;;; ret 0
      end
  end.

Definition isdirempty (d : nat) : K bool :=
  dp <- get_inode d ;;
  loop (Z.to_nat (i_size dp / 16) + 2) (fun off =>
    dp <- get_inode d ;;
    if off <? i_size dp then
      let! (r, bs) := readi d false 0 off 16 in
      if negb (r =? 16) then panic "isdirempty: readi" else
      if negb (de_inum (dirent_of bs) =? 0) then ret (inr false) else ret (inl (off + 16))
    else ret (inr true)) 32.

(** The label [bad:] of [sys_unlink]. *)
Definition unlink_bad (d : nat) : K Z := iunlockput d ;;; end_op ;;; ret_int (-1).

Definition sys_unlink : K Z :=
  let! (r, path) := argstr 0 MAXPATH in
  if r <? 0 then ret_int (-1) else
  begin_op ;;;
  o <- nameiparent (cstring path) ;;
  match o with
  | None => end_op ;;; ret_int (-1)
  | Some (d, name) =>
    ilock d ;;;
    if (namecmp name (bytes ".") =? 0) || (namecmp name (bytes "..") =? 0) then unlink_bad d else
    o <- dirlookup d name ;;
    match o with
    | None => unlink_bad d
    | Some (i, off) =>
      ilock i ;;;
      ip <- get_inode i ;;
      if i_nlink ip <? 1 then panic "unlink: nlink < 1" else
      nonempty <- (if i_type ip =? T_DIR then e <- isdirempty i ;; ret (negb e) else ret false) ;;
      if nonempty : bool then iunlockput i ;;; unlink_bad d
      else
        r <- writei d (SrcKern (replicate 16 0)) off 16 ;;
        if negb (r =? 16) then panic "unlink: writei" else
        ip <- get_inode i ;;
        when (i_type ip =? T_DIR) (nlink_add d (-1) ;;; iupdate d) ;;;
        iunlockput d ;;;
        nlink_add i (-1) ;;;
        iupdate i ;;;
        iunlockput i ;;;
        end_op ;;;
        ret 0
    end
  end.

(** The label [fail:] of [create]. *)
Definition create_fail (i d : nat) : K (option nat) :=
  upd_inode i (fun ip => ip <| i_nlink := 0 |>) ;;;
  iupdate i ;;;
  iunlockput i ;;;
  iunlockput d ;;;
  ret None.

(** The inode is returned locked. *)
Definition create (path : list Z) (type major minor : Z) : K (option nat) :=
  o <- nameiparent path ;;
  match o with
  | None => ret None
  | Some (d, name) =>
    ilock d ;;;
    o <- dirlookup d name ;;
    match o with
    | Some (i, _) =>
      iunlockput d ;;;
      ilock i ;;;
      ip <- get_inode i ;;
      if (type =? T_FILE) && ((i_type ip =? T_FILE) || (i_type ip =? T_DEVICE)) then ret (Some i)
      else iunlockput i ;;; ret None
    | None =>
      dp <- get_inode d ;;
      o <- ialloc (i_dev dp) type ;;
      match o with
      | None => iunlockput d ;;; ret None
      | Some i =>
        ilock i ;;;
        upd_inode i (fun ip => ip <| i_major := major |> <| i_minor := minor |> <| i_nlink := 1 |>) ;;;
        iupdate i ;;;
        ip <- get_inode i ;;
        ok <- (if type =? T_DIR then
                 r <- dirlink i (bytes ".") (i_inum ip) ;;
                 if r <? 0 then ret false
                 else r <- dirlink i (bytes "..") (i_inum dp) ;; ret (negb (r <? 0))
               else ret true) ;;
        if negb ok then create_fail i d else
        r <- dirlink d name (i_inum ip) ;;
        if r <? 0 then create_fail i d
        else
          when (type =? T_DIR) (nlink_add d 1 ;;; iupdate d) ;;;
          iunlockput d ;;;
          ret (Some i)
      end
    end
  end.

Definition open_bad (i : nat) : K Z := iunlockput i ;;; end_op ;;; ret_int (-1).

(** [sys_open] once the inode is found and locked. *)
Definition open_inode (i : nat) (omode : Z) : K Z :=
  ip <- get_inode i ;;
  if (i_type ip =? T_DEVICE) && ((i_major ip <? 0) || (i_major ip >=? NDEV)) then open_bad i else
  f <- filealloc ;;
  match f with
  | None => open_bad i
  | Some f =>
    fd <- fdalloc f ;;
    if fd <? 0 then fileclose f ;;; open_bad i
    else
      upd_file f (fun fl => if i_type ip =? T_DEVICE
        then fl <| f_type := FD_DEVICE |> <| f_major := i_major ip |>
        else fl <| f_type := FD_INODE |> <| f_off := 0 |>) ;;;
      upd_file f (fun fl => fl <| f_ip := Some i |>
        <| f_readable := cbool (negb (has omode O_WRONLY)) |>
        <| f_writable := cbool (has omode O_WRONLY || has omode O_RDWR) |>) ;;;
      when (has omode O_TRUNC && (i_type ip =? T_FILE)) (itrunc i) ;;;
      iunlock i ;;;
      end_op ;;;
      ret_int fd
  end.

Definition sys_open : K Z :=
  omode <- argint 1 ;;
  let! (n, path) := argstr 0 MAXPATH in
  if n <? 0 then ret_int (-1) else
  begin_op ;;;
  if has omode O_CREATE then
    o <- create (cstring path) T_FILE 0 0 ;;
    match o with
    | None => end_op ;;; ret_int (-1)
    | Some i => open_inode i omode
    end
  else
    o <- namei (cstring path) ;;
    match o with
    | None => end_op ;;; ret_int (-1)
    | Some i =>
      ilock i ;;;
      ip <- get_inode i ;;
      if (i_type ip =? T_DIR) && negb (omode =? O_RDONLY) then open_bad i
      else open_inode i omode
    end.

(** [argstr] and [create] in the order of the condition of [sys_mkdir] and [sys_mknod]. *)
Definition create_arg (type major minor : Z) : K Z :=
  let! (r, path) := argstr 0 MAXPATH in
  o <- (if r <? 0 then ret None else create (cstring path) type major minor) ;;
  match o with
  | None => end_op ;;; ret_int (-1)
  | Some i => iunlockput i ;;; end_op ;;; ret 0
  end.

Definition sys_mkdir : K Z := begin_op ;;; create_arg T_DIR 0 0.

Definition sys_mknod : K Z :=
  begin_op ;;;
  major <- argint 1 ;;
  minor <- argint 2 ;;
  create_arg T_DEVICE (s16 major) (s16 minor).

Definition sys_chdir : K Z :=
  me <- curproc ;;
  begin_op ;;;
  let! (r, path) := argstr 0 MAXPATH in
  o <- (if r <? 0 then ret None else namei (cstring path)) ;;
  match o with
  | None => end_op ;;; ret_int (-1)
  | Some i =>
    ilock i ;;;
    ip <- get_inode i ;;
    if negb (i_type ip =? T_DIR) then iunlockput i ;;; end_op ;;; ret_int (-1)
    else
      iunlock i ;;;
      p <- get_proc me ;;
      cwd <- from_option_or_fault "cwd" (p_cwd p) ;;
      iput cwd ;;;
      end_op ;;;
      upd_proc me (fun p => p <| p_cwd := Some i |>) ;;;
      ret 0
  end.

(** The pages and the strings of [argv]; [false] for the label [bad:]. *)
Fixpoint fetch_args (fuel : nat) (uargv i : Z) (argv : list (Z * list Z)) : K (bool * list (Z * list Z)) :=
  match fuel with
  | O => out_of_fuel
  | S fuel' =>
    if i >=? MAXARG then ret (false, argv)
    else
      let! (r, uarg) := fetchaddr (u64 (uargv + 8 * i)) in
      if r <? 0 then ret (false, argv)
      else if uarg =? 0 then ret (true, argv)
      else
        page <- kalloc ;;
        if page =? 0 then ret (false, argv)
        else
          let! (r, bs) := fetchstr uarg PGSIZE in
          modk (fun k => k <| k_ram ::= fun m => store_bytes m page bs |>) ;;;
          if r <? 0 then ret (false, argv ++ [(page, [])])
          else fetch_args fuel' uargv (i + 1) (argv ++ [(page, cstring bs)])
  end.

Definition sys_exec : K Z :=
  uargv <- argaddr 1 ;;
  let! (r, path) := argstr 0 MAXPATH in
  if r <? 0 then ret_int (-1) else
  let! (ok, argv) := fetch_args (Z.to_nat MAXARG + 1) uargv 0 [] in
  if ok : bool then
    r <- exec (cstring path) (snd <$> argv) ;;
    for_do (fst <$> argv) kfree ;;;
    ret_int r
  else
    for_do (fst <$> argv) kfree ;;;
    ret_int (-1).

(** Both descriptors are taken back and the files closed. *)
Definition pipe_undo (fd0 fd1 : Z) (rf wf : nat) : K Z :=
  when (fd0 >=? 0) (set_ofile (Z.to_nat fd0) None) ;;;
  when (fd1 >=? 0) (set_ofile (Z.to_nat fd1) None) ;;;
  fileclose rf ;;;
  fileclose wf ;;;
  ret_int (-1).

Definition sys_pipe : K Z :=
  fdarray <- argaddr 0 ;;
  o <- pipealloc ;;
  match o with
  | None => ret_int (-1)
  | Some (rf, wf) =>
    fd0 <- fdalloc rf ;;
    if fd0 <? 0 then pipe_undo (-1) (-1) rf wf else
    fd1 <- fdalloc wf ;;
    if fd1 <? 0 then pipe_undo fd0 (-1) rf wf else
    p <- self ;;
    r <- copyout (p_pagetable p) fdarray (le_bytes 4 fd0) ;;
    if r <? 0 then pipe_undo fd0 fd1 rf wf else
    r <- copyout (p_pagetable p) (u64 (fdarray + 4)) (le_bytes 4 fd1) ;;
    if r <? 0 then pipe_undo fd0 fd1 rf wf else ret 0
  end.

(** * kernel/syscall.c: the table *)

Definition syscalls (num : Z) : option (K Z) :=
  if num =? SYS_fork then Some sys_fork
  else if num =? SYS_exit then Some sys_exit
  else if num =? SYS_wait then Some sys_wait
  else if num =? SYS_pipe then Some sys_pipe
  else if num =? SYS_read then Some sys_read
  else if num =? SYS_kill then Some sys_kill
  else if num =? SYS_exec then Some sys_exec
  else if num =? SYS_fstat then Some sys_fstat
  else if num =? SYS_chdir then Some sys_chdir
  else if num =? SYS_dup then Some sys_dup
  else if num =? SYS_getpid then Some sys_getpid
  else if num =? SYS_sbrk then Some sys_sbrk
  else if num =? SYS_sleep then Some sys_sleep
  else if num =? SYS_uptime then Some sys_uptime
  else if num =? SYS_open then Some sys_open
  else if num =? SYS_write then Some sys_write
  else if num =? SYS_mknod then Some sys_mknod
  else if num =? SYS_unlink then Some sys_unlink
  else if num =? SYS_link then Some sys_link
  else if num =? SYS_mkdir then Some sys_mkdir
  else if num =? SYS_close then Some sys_close
  else if num =? SYS_waitx then Some sys_waitx
  else if num =? SYS_setpriority then Some sys_set_priority
  else None.

Definition syscall : K unit :=
  p <- self ;;
  t <- get_tf (p_trapframe p) ;;
  let num := s32 (a7 t) in
  match (if (num >? 0) && (num <=? SYS_setpriority) then syscalls num else None) with
  | Some handler =>
    r <- handler ;;
    upd_tf (p_trapframe p) (fun t => t <| a0 := r |>)
  | None =>
    printf (line "%d %s: unknown sys call %d")
      [PInt (p_pid p); PStr (Some (cstring (p_name p))); PInt num] ;;;
    upd_tf (p_trapframe p) (fun t => t <| a0 := u64 (-1) |>)
  end.
End Syscalls.
