(* ===== verification/Trap.v ===== *)
(** Traps: kernel/trap.c, and [forkret] of kernel/proc.c.

    The supervisor registers are the record [csrs].  [usertrap] and [forkret] end in
    the trampoline with a page table, [ToUser]; where [usertrap] executes [return], it
    goes back to whatever its caller's return address is, [Returned]. *)

From S2P Require Export Syscall.

Definition getcsr {A} (f : csrs -> A) : K A := getk (fun k => f (k_csr k)).
Definition setcsr (f : csrs -> csrs) : K unit := modk (fun k => k <| k_csr ::= f |>).

(** [cpuid] of kernel/proc.c *)
Definition cpuid : K Z := id <- getcsr r_tp ;; ret (s32 id).

Definition SSTATUS_SIE : Z := 2.
Definition intr_on : K unit := setcsr (fun c => c <| sstatus ::= fun s => Z.lor s SSTATUS_SIE |>).
Definition intr_off : K unit :=
  setcsr (fun c => c <| sstatus ::= fun s => Z.land s (Z.lnot SSTATUS_SIE) |>).

(** How a function that leaves the kernel ends: a jump to [userret] in the trampoline
    with the user's page table, or a plain return. *)
Inductive trap_exit : Type := ToUser (pc satp : Z) | Returned.

Section Trap.
Context {L : Layout} {U : Uninit}.

Definition trapinithart : K unit := setcsr (fun c => c <| stvec := kernelvec |>).

(** 2 for a timer interrupt, 1 for another device, 0 if not recognized. *)
Definition devintr : K Z :=
  cause <- getcsr scause ;;
  hart <- cpuid ;;
  if negb (Z.land cause (2 ^ 63) =? 0) && (Z.land cause 255 =? 9) then
    irq <- plic_claim hart ;;
    (if irq =? UART0_IRQ then uartintr
     else if irq =? VIRTIO0_IRQ then virtio_disk_intr
     else when (negb (irq =? 0)) (printf (line "unexpected interrupt irq=%d") [PInt irq])) ;;;
    when (negb (irq =? 0)) (plic_complete hart irq) ;;;
    ret 1
  else if cause =? 2 ^ 63 + 1 then
    when (hart =? 0) clockintr ;;;
    setcsr (fun c => c <| sip ::= fun s => Z.land s (Z.lnot 2) |>) ;;;
    ret 2
  else ret 0.

Definition usertrapret : K trap_exit :=
  p <- self ;;
  intr_off ;;;
  setcsr (fun c => c <| stvec := TRAMPOLINE + (uservec - trampoline) |>) ;;;
  ksatp <- getcsr satp ;;
  hart <- getcsr r_tp ;;
  upd_tf (p_trapframe p) (fun t => t <| kernel_satp := ksatp |>
    <| kernel_sp := u64 (p_kstack p + PGSIZE) |> <| kernel_trap := usertrap_addr |>
    <| kernel_hartid := hart |>) ;;;
  setcsr (fun c => c <| sstatus ::= fun x => Z.lor (Z.land x (Z.lnot SSTATUS_SPP)) SSTATUS_SPIE |>) ;;;
  t <- get_tf (p_trapframe p) ;;
  setcsr (fun c => c <| sepc := epc t |>) ;;;
  let usatp := MAKE_SATP (p_pagetable p) in
  ret (ToUser (TRAMPOLINE + (userret - trampoline)) usatp).

(** What follows the dispatch on the cause in [usertrap]. *)
Definition usertrap_end (i : nat) (which_dev : Z) : K trap_exit :=
  k <- killed i ;;
  when (negb (k =? 0)) (exit (-1)) ;;;
  when (which_dev =? 2) yield ;;;
  usertrapret.

Definition usertrap : K trap_exit :=
  s <- getcsr sstatus ;;
  if negb (Z.land s SSTATUS_SPP =? 0) then panic "usertrap: not from user mode" else
  setcsr (fun c => c <| stvec := kernelvec |>) ;;;
  i <- curproc ;;
  p <- get_proc i ;;
  pc <- getcsr sepc ;;
  upd_tf (p_trapframe p) (fun t => t <| epc := pc |>) ;;;
  cause <- getcsr scause ;;
  if cause =? 8 then
    k <- killed i ;;
    when (negb (k =? 0)) (exit (-1)) ;;;
    upd_tf (p_trapframe p) (fun t => t <| epc ::= fun a => u64 (a + 4) |>) ;;;
    intr_on ;;;
    syscall ;;;
    usertrap_end i 0
  else if cause =? 15 then
    addr <- getcsr stval ;;
    let va := PGROUNDDOWN addr in
    when (va >=? MAXVA) (upd_proc i (fun p => p <| p_killed := 1 |>) ;;; exit (-1)) ;;;
    r <- cow_page_fault (p_pagetable p) va ;;
    if negb (r =? 0) then ret Returned else usertrap_end i 0
  else
    which_dev <- devintr ;;
    when (which_dev =? 0)
      (p <- get_proc i ;;
       printf (line "usertrap(): unexpected scause %p pid=%d") [PPtr cause; PInt (p_pid p)] ;;;
       pc <- getcsr sepc ;;
       addr <- getcsr stval ;;
       printf (line "            sepc=%p stval=%p") [PPtr pc; PPtr addr] ;;;
       setkilled i) ;;;
    usertrap_end i which_dev.

Definition kerneltrap : K unit :=
  pc <- getcsr sepc ;;
  status <- getcsr sstatus ;;
  cause <- getcsr scause ;;
  if Z.land status SSTATUS_SPP =? 0 then panic "kerneltrap: not from supervisor mode" else
  s <- getcsr sstatus ;;
  if negb (Z.land s SSTATUS_SIE =? 0) then panic "kerneltrap: interrupts enabled" else
  which_dev <- devintr ;;
  if which_dev =? 0 then
    printf (line "scause %p") [PPtr cause] ;;;
    pc <- getcsr sepc ;;
    addr <- getcsr stval ;;
    printf (line "sepc=%p stval=%p") [PPtr pc; PPtr addr] ;;;
    panic "kerneltrap"
  else
    me <- myproc ;;
    running <- match me with
               | Some i => p <- get_proc i ;; ret (bool_decide (p_state p = RUNNING))
               | None => ret false
               end ;;
    when ((which_dev =? 2) && running) yield ;;;
    setcsr (fun c => c <| sepc := pc |>) ;;;
    setcsr (fun c => c <| sstatus := status |>).

Definition forkret : K trap_exit :=
  i <- curproc ;;
  release (LkProc i) ;;;
  first <- getk k_first ;;
  when (negb (first =? 0))
    (modk (fun k => k <| k_first := 0 |>) ;;;
     fsinit ROOTDEV) ;;;
  usertrapret.
End Trap.
