(* ===== verification/Calls.v ===== *)
(** Properties of the system calls and of the trap handler: arguments, descriptors,
    priorities, unknown calls, and a store that copy-on-write does not resolve. *)

From S2P Require Export Trap Copy.

(** * The current process *)

Section Self.
Context (E : xpost world) (w : world) (i : nat) (p : proc).
Context (Hcur : k_cur (w_k w) = Some i) (Hp : k_proc (w_k w) !! i = Some p).

Lemma wp_self (Q : proc -> world -> Prop) : Q p w -> wp E self Q w.
Proof. intros HQ. unfold self. kstep. apply (wp_curproc _ _ i); [done|]. by eapply wp_get_proc. Qed.
End Self.

Lemma wp_get_tf E pa t (Q : trapframe -> world -> Prop) w : k_tf (w_k w) !! pa = Some t -> Q t w ->
  wp E (get_tf pa) Q w.
Proof. intros H HQ. unfold wp, get_tf, bind, getk, gets. by rewrite H. Qed.

Lemma wp_upd_tf E pa t f (Q : unit -> world -> Prop) w : k_tf (w_k w) !! pa = Some t ->
  Q tt (w <| w_k ::= fun k => k <| k_tf ::= <[pa := f t]> |> |>) -> wp E (upd_tf pa f) Q w.
Proof. intros H HQ. unfold upd_tf. kstep. apply (wp_get_tf _ _ t); [done|]. by apply wp_modk. Qed.

(** * Descriptors *)

(** The state after the current process's descriptor [fd] is set. *)
Definition with_ofile (i fd : nat) (f : option nat) (w : world) : world :=
  World (upd_procs i (fun p => p <| p_ofile ::= <[fd := f]> |>) (w_k w)) (w_env w).

Section Fdalloc.
Context {L : Layout} {U : Uninit}.

(** [fdalloc] gives a file the lowest free descriptor of the process and no other, or
    -1, changing nothing, when all [NOFILE] are in use. *)
Theorem fdalloc_correct w i p f :
  k_cur (w_k w) = Some i -> k_proc (w_k w) !! i = Some p -> length (p_ofile p) = NOFILE ->
  fdalloc f w = match list_find (fun o => o = None) (p_ofile p) with
                | Some (fd, _) => Ok (Z.of_nat fd) (with_ofile i fd (Some f) w)
                | None => Ok (-1) w
                end.
Proof.
  intros Hcur Hp Hlen. apply wp_exact. unfold fdalloc. kstep. rewrite <- Hlen.
  apply (wp_scan_list _ (fun o => o = None)).
  - intros fd o Ho Hn. kstep. eapply wp_self; [done..|]. kstep.
    apply (wp_arr_get _ _ _ o); [lia|by rewrite Nat2Z.id|]. destruct o; [|done]. by apply wp_ret.
  - intros fd o Hf Ho ->. rewrite Hf. kstep. eapply wp_self; [done..|]. kstep.
    apply (wp_arr_get _ _ _ None); [lia|by rewrite Nat2Z.id|]. unfold set_ofile. do 2 kstep.
    eapply wp_curproc; [done|]. eapply wp_upd_procs; [done|]. apply wp_ret. split; [done|].
    by apply wp_ret.
  - intros ->. by apply wp_ret.
Qed.

(** * Arguments *)

(** C32. [fetchaddr] never reads outside the process: an address at or above its size, or one
    whose eight bytes pass the end, gives -1 before anything is read - the addition
    cannot hide it by wrapping around; otherwise the result is the 64-bit word user
    code sees there, or -1 when some byte of it cannot be read. *)
Theorem fetchaddr_correct {LO : LayoutOk L} hold l ts s root t i p addr w :
  k_cur (w_k w) = Some i -> k_proc (w_k w) !! i = Some p -> p_pagetable p = root ->
  vm_inv hold (w_k w) l ts -> ts !! s = Some (root, t) ->
  0 <= p_sz p <= TRAPFRAME -> 0 <= addr < 2 ^ 64 ->
  wp total (fetchaddr addr) (fun '(r, v) w' => w' = w /\
    (addr + 8 > p_sz p -> r = -1) /\
    (r = 0 -> exists bs, length bs = 8%nat /\ reads (w_k w) ts s addr bs /\ v = le_val bs) /\
    (r <> 0 -> r = -1 /\ (addr + 8 > p_sz p \/
      exists n, 0 <= n < 8 /\ user_byte (w_k w) ts s (addr + n) = None))) w.
Proof.
  intros Hcur Hp <- Hv Hs Hsz Ha. unfold fetchaddr. kstep. eapply wp_self; [done..|].
  assert (HT : TRAPFRAME = 274877898752) by done. assert (HM : MAXVA = 274877906944) by done.
  destruct ((addr >=? p_sz p) || (u64 (addr + 8) >? p_sz p)) eqn:Eb.
  - apply wp_ret. split; [done|]. assert (addr + 8 > p_sz p).
    { destruct (Z.geb_spec addr (p_sz p)); [lia|]. rewrite u64_small in Eb by lia. lia. }
    split_and!; [done|lia|]. intros _. split; [done|by left].
  - assert (addr + 8 <= p_sz p) by (rewrite u64_small in Eb by lia; lia).
    kstep. eapply (wp_copyin hold l ts s (p_pagetable p) t addr 8 w); [done|done|done|lia|..].
    + intros bs Hl Hr _. apply wp_ret. split_and!; [done|lia| |done].
      intros _. exists bs. split_and!; [lia|done|done].
    + intros bs Hl Hr Hf. apply wp_ret. split_and!; [done|lia|lia|]. intros _. split; [done|right].
      exists (Z.of_nat (length bs)). destruct Hf; [lia|]. split; [lia|done].
Qed.

(** * Priorities *)

Lemma argint_eq w i p t n : k_cur (w_k w) = Some i -> k_proc (w_k w) !! i = Some p ->
  k_tf (w_k w) !! p_trapframe p = Some t -> n = 0 \/ n = 1 \/ n = 2 ->
  argint n w = Ok (s32 (if n =? 0 then a0 t else if n =? 1 then a1 t else a2 t)) w.
Proof.
  intros Hcur Hp Ht Hn. apply wp_exact. unfold argint, argraw. do 2 kstep. eapply wp_self; [done..|].
  kstep. apply (wp_get_tf _ _ t); [done|]. destruct Hn as [->|[->| ->]]; cbn [Z.eqb]; do 2 apply wp_ret; done.
Qed.

Lemma find_pid_eq w pid : length (k_proc (w_k w)) = NPROC ->
  for_ret (seq 0 NPROC) (fun i => p <- get_proc i ;; ret (if p_pid p =? pid then Some i else None)) w
  = Ok (fst <$> list_find (fun q => p_pid q = pid) (k_proc (w_k w))) w.
Proof.
  intros Hlen. apply wp_exact. apply (wp_scan_procs (fun q => p_pid q = pid)); [done|..].
  - intros j q Hq Hn. kstep. eapply wp_get_proc; [done|]. apply wp_ret. by rewrite (proj2 (Z.eqb_neq _ _)).
  - intros j q Hf Hq Hpid. rewrite Hf. kstep. eapply wp_get_proc; [done|]. apply wp_ret.
    by rewrite Hpid, Z.eqb_refl.
  - by intros ->.
Qed.

(** C33. [set_priority(pid, priority)] on every path: a priority outside 0..100 gives -1 and
    changes nothing; otherwise the static priority of the first process with the pid
    is set, the caller yields exactly when that raised it, and the old one is returned.
    The code does not notice that no process has the pid: it goes on with the element
    past the end of the table. *)
Theorem sys_set_priority_correct w i p t pid priority :
  k_cur (w_k w) = Some i -> k_proc (w_k w) !! i = Some p -> k_tf (w_k w) !! p_trapframe p = Some t ->
  s32 (a0 t) = pid -> s32 (a1 t) = priority -> length (k_proc (w_k w)) = NPROC ->
  sys_set_priority w =
    if (priority <? 0) || (priority >? 100) then Ok (u64 (-1)) w
    else
      match list_find (fun q => p_pid q = pid) (k_proc (w_k w)) with
      | Some (j, q) =>
        (when (priority <? s32 (p_sp q)) yield ;;; ret_int (s32 (p_sp q)))
          (World (upd_procs j (fun q => q <| p_sp := priority |>) (w_k w)) (w_env w))
      | None => Fault "proc" w
      end.
Proof.
  intros Hcur Hp Ht Epid Epr Hlen. unfold sys_set_priority.
  rewrite (bind_Ok _ _ _ _ _ (argint_eq w i p t 0 Hcur Hp Ht ltac:(lia))).
  rewrite (bind_Ok _ _ _ _ _ (argint_eq w i p t 1 Hcur Hp Ht ltac:(lia))).
  cbn [Z.eqb Pos.eqb]. rewrite Epid, Epr. destruct (_ || _); [done|].
  rewrite (bind_Ok _ _ _ _ _ (find_pid_eq w pid Hlen)). cbv zeta.
  destruct (list_find _ _) as [[j q]|] eqn:Ef; cbn [fmap option_fmap option_map fst default].
  - apply list_find_Some in Ef as (Hq & _ & _).
    rewrite (bind_Ok _ _ _ q w) by by (apply wp_exact; eapply wp_get_proc).
    by rewrite (bind_Ok _ _ _ tt _ (wp_exact _ _ (Ok tt _) (wp_upd_procs _ _ _ _ _ _ Hq eq_refl))).
  - unfold bind at 1, get_proc, bind at 1, getk, gets.
    by rewrite (lookup_ge_None_2 (k_proc _)) by lia.
Qed.
End Fdalloc.

(** * Traps *)

Section Traps.
Context {L : Layout} {U : Uninit} {LO : LayoutOk L}.

Lemma spp_clear x : Z.testbit (Z.lor (Z.land x (Z.lnot SSTATUS_SPP)) SSTATUS_SPIE) 8 = false.
Proof.
  rewrite Z.lor_spec, Z.land_spec. change (Z.testbit (Z.lnot SSTATUS_SPP) 8) with false.
  by rewrite andb_false_r.
Qed.

(** The way back to user mode: the process's own table, the saved program counter, and
    the previous-privilege bit clear. *)
Lemma wp_usertrapret E w i p t (Q : trap_exit -> world -> Prop) :
  k_cur (w_k w) = Some i -> k_proc (w_k w) !! i = Some p -> k_tf (w_k w) !! p_trapframe p = Some t ->
  (forall w', w_env w' = w_env w -> k_ram (w_k w') = k_ram (w_k w) -> k_kmem (w_k w') = k_kmem (w_k w) ->
    k_proc (w_k w') = k_proc (w_k w) -> k_held (w_k w') = k_held (w_k w) ->
    sepc (k_csr (w_k w')) = epc t -> stvec (k_csr (w_k w')) = TRAMPOLINE + (uservec - trampoline) ->
    Z.testbit (sstatus (k_csr (w_k w'))) 8 = false ->
    Q (ToUser (TRAMPOLINE + (userret - trampoline)) (MAKE_SATP (p_pagetable p))) w') ->
  wp E usertrapret Q w.
Proof.
  intros Hcur Hp Ht HQ. unfold usertrapret, intr_off, setcsr, getcsr. kstep. eapply wp_self; [done..|].
  do 8 kstep. kstep. eapply wp_upd_tf; [exact Ht|]. do 2 kstep. kstep.
  eapply wp_get_tf; [apply lookup_insert_eq|]. do 2 kstep. cbv zeta. apply wp_ret. apply HQ; try done.
  apply spp_clear.
Qed.

(** C14. A store that faults in user mode, at an address below [MAXVA], in a process that has not been
    killed.  On a page mapped copy-on-write, with memory left,
    [usertrap] makes the page private and goes back to the same instruction of the same
    process in the trampoline.  In every other case - the page is read-only or not
    mapped, or there is no memory - it leaves the process as it is, not killed, and
    executes a plain [return], which in supervisor mode goes to whatever address
    [ra] holds. *)
Theorem usertrap_store hold l ts s tr w i p t addr :
  k_cur (w_k w) = Some i -> k_proc (w_k w) !! i = Some p -> k_tf (w_k w) !! p_trapframe p = Some t ->
  k_held (w_k w) = [] -> p_killed p = 0 ->
  vm_inv hold (w_k w) l ts -> ts !! s = Some (p_pagetable p, tr) ->
  Z.land (sstatus (k_csr (w_k w))) SSTATUS_SPP = 0 -> scause (k_csr (w_k w)) = 15 ->
  stval (k_csr (w_k w)) = addr -> 0 <= addr < MAXVA ->
  let e := entry (w_k w) ts s (PGROUNDDOWN addr) in
  wp total usertrap (fun r w' => k_proc (w_k w') = k_proc (w_k w) /\ w_env w' = w_env w /\
    (forall j vb, 0 <= vb < MAXVA -> user_byte (w_k w') ts j vb = user_byte (w_k w) ts j vb) /\
    if has e PTE_V && has e PTE_U && has e PTE_COW && negb (bool_decide (l = []))
    then r = ToUser (TRAMPOLINE + (userret - trampoline)) (MAKE_SATP (p_pagetable p)) /\
      sepc (k_csr (w_k w')) = sepc (k_csr (w_k w)) /\
      let e' := entry (w_k w') ts s (PGROUNDDOWN addr) in
      has e' PTE_W = true /\
      forall j vb, maps (w_k w') ts j vb (PTE2PA e') -> j = s /\ vb = PGROUNDDOWN addr
    else r = Returned) w.
Proof.
  intros Hcur Hp Ht Hh Hk Hv Hs HSPP Hcause <- Haddr e. unfold usertrap, getcsr, setcsr.
  destruct (round_upage _ Haddr) as (Hup & _ & _). do 2 kstep. rewrite HSPP. do 4 kstep.
  eapply wp_curproc; [done|]. kstep. eapply wp_get_proc; [done|]. do 3 kstep.
  eapply wp_upd_tf; [exact Ht|]. do 2 kstep.
  change (scause _) with (scause (k_csr (w_k w))). rewrite Hcause. cbn [Z.eqb Pos.eqb]. do 3 kstep.
  match goal with |- wp _ _ _ ?w' => set (w1 := w') end. 
  change (stval (k_csr (w_k w1))) with (stval (k_csr (w_k w))).
  assert (Hv1 : vm_inv hold (w_k w1) l ts) by by apply (vm_inv_same hold (w_k w)).
  destruct (PGROUNDDOWN _ >=? MAXVA) eqn:Eg; [destruct (upage_px _ Hup); lia|]. do 3 kstep.
  eapply wp_mono; [apply (wp_cow_page_fault hold l ts s _ tr _ w1); [|done..]|].
  { cbn. rewrite Hh. apply not_elem_of_nil. }
  change (entry (w_k w1) ts s (PGROUNDDOWN (stval (k_csr (w_k w))))) with e.
  intros r w2 H. destruct (_ && _).
  - destruct H as (-> & Henv & Ho & l' & Hv2 & (_ & _ & HW & _ & Hpr) & _ & Hub). cbn [Z.eqb negb].
    assert (Hp2 : k_proc (w_k w2) = k_proc (w_k w)) by by rewrite Ho.
    assert (Hc2 : k_cur (w_k w2) = Some i) by by rewrite Ho.
    assert (Ht2 : k_tf (w_k w2) = k_tf (w_k w1)) by by rewrite Ho.
    assert (Hh2 : k_held (w_k w2) = k_held (w_k w)) by by rewrite Ho. rewrite Hh in Hh2.
    unfold usertrap_end. kstep. apply (wp_killed _ _ _ p); [by rewrite Hp2|rewrite Hh2; apply not_elem_of_nil|].
    rewrite Hk. do 4 kstep.
    eapply (wp_usertrapret _ _ i p); [done|by rewrite Hp2|rewrite Ht2; apply lookup_insert_eq|].
    intros w3 He3 Hr3 Hk3 Hp3 _ Hpc _ _. 
    assert (Hent : forall j vb, entry (w_k w3) ts j vb = entry (w_k w2) ts j vb).
    { intros. apply entry_ext. intros. by rewrite Hr3. }
    cbv zeta. rewrite Hent. split_and!; [by rewrite Hp3|by rewrite He3|..|done|done|done|].
    + intros j vb Hvb. etransitivity; [|by apply Hub]. unfold user_byte. cbv zeta. by rewrite Hent, Hr3.
    + intros j vb Hm. apply Hpr. unfold maps in *. by rewrite Hent in Hm.
  - destruct H as [-> ->]. cbn [Z.eqb negb]. apply wp_ret. split_and!; done.
Qed.
End Traps.

(** * Examples *)

Section Examples.
#[local] Existing Instances demo_layout demo_layout_ok.
#[local] Instance demo_uninit : Uninit := fun n => replicate n 170.

(** A process with one page, mapped with the flags [perm], in a trap for a store at 8. *)
Definition demo_trap_proc : proc := proc0 <| p_pagetable := demo_page 0 |> <| p_sz := 4096 |>
  <| p_trapframe := 77 |> <| p_pid := 3 |> <| p_sp := 50 |> <| p_ofile := Some 4%nat :: replicate 15 None |>.
Definition demo_trap_tf : trapframe := trapframe0 <| a0 := 3 |> <| a1 := 60 |>.
Definition trap_in (w : world) : world := w <| w_k ::= fun k =>
  k <| k_cur := Some 0%nat |> <| k_proc := demo_trap_proc :: replicate 63 proc0 |>
    <| k_tf := {[ 77 := demo_trap_tf ]} |> <| k_csr := Csrs 0 1000 0 15 8 0 0 0 |> |>.
Definition demo_trap (perm : Z) : world := trap_in (demo_map perm).

Lemma trap_in_held w : k_held (w_k (trap_in w)) = k_held (w_k w).
Proof. done. Qed.
Lemma trap_in_inv hold w l ts : vm_inv hold (w_k w) l ts -> vm_inv hold (w_k (trap_in w)) l ts.
Proof. by apply vm_inv_same. Qed.
Lemma trap_in_entry w ts i va : entry (w_k (trap_in w)) ts i va = entry (w_k w) ts i va.
Proof. done. Qed.

Lemma demo_trap_inv perm : 0 <= perm < 1024 -> has (pte_of (demo_page 2) perm) PTE_V = true ->
  (if mappages (demo_page 0) 0 PGSIZE (demo_page 2) perm demo_world1 is Ok r _ then r else -1) = 0 ->
  exists l t, k_held (w_k (demo_trap perm)) = [] /\ vm_inv hold_none (w_k (demo_trap perm)) l (demo_spaces t) /\
    entry (w_k (demo_trap perm)) (demo_spaces t) 0 0 = pte_of (demo_page 2) perm.
Proof.
  assert (Hup : upage 0) by done.
  intros H1 H2 H3. destruct (demo_map_inv perm H1 H2 H3) as (l & t & Hh & Hv & He). clear H1 H2 H3.
  exists l, t. unfold demo_trap. rewrite trap_in_held, trap_in_entry. split; [exact Hh|].
  split; [exact (trap_in_inv _ _ _ _ Hv)|]. rewrite He by exact Hup. rewrite decide_True by exact eq_refl. exact eq_refl.
Qed.

Lemma fdalloc_correct_witness :
  fdalloc 9 (demo_trap 22) = Ok 1 (with_ofile 0 1 (Some 9%nat) (demo_trap 22)).
Proof. exact (fdalloc_correct (demo_trap 22) 0 demo_trap_proc 9 eq_refl eq_refl eq_refl). Defined.

Lemma sys_set_priority_correct_witness :
  sys_set_priority (demo_trap 22) =
    Ok 50 (World (upd_procs 0 (fun q => q <| p_sp := 60 |>) (w_k (demo_trap 22))) []).
Proof.
  exact (sys_set_priority_correct (demo_trap 22) 0 demo_trap_proc demo_trap_tf 3 60
    eq_refl eq_refl eq_refl eq_refl eq_refl eq_refl).
Defined.

Lemma fetchaddr_correct_witness : exists t bs,
  fetchaddr 8 (demo_trap 22) = Ok (0, le_val bs) (demo_trap 22) /\
  reads (w_k (demo_trap 22)) (demo_spaces t) 0 8 bs.
Proof.
  assert (Hr : fst (returns (fetchaddr 8 (demo_trap 22)) (-1, 0)) = 0) by (vm_compute; exact eq_refl).
  destruct (demo_trap_inv 22) as (l & t & _ & Hv & _);
    [lia|vm_compute; exact eq_refl|vm_compute; exact eq_refl|].
  assert (Hsz : 0 <= p_sz demo_trap_proc <= TRAPFRAME)
    by (change TRAPFRAME with 274877898752; change (p_sz demo_trap_proc) with 4096; lia).
  pose proof (fetchaddr_correct hold_none l (demo_spaces t) 0%nat (demo_page 0) t 0%nat demo_trap_proc 8
    (demo_trap 22) eq_refl eq_refl eq_refl Hv eq_refl Hsz ltac:(lia)) as H.
  apply wp_total_Ok in H as ([r v] & w' & Er & -> & _ & H0 & _).
  rewrite Er in Hr. cbn [returns fst] in Hr. subst r. destruct (H0 eq_refl) as (bs & _ & Hrd & ->).
  exists t, bs. exact (conj Er Hrd).
Defined.

(** The page is read-only (flags V, R, X, U): the trap handler returns. *)
Lemma usertrap_store_witness : exists w', usertrap (demo_trap 27) = Ok Returned w' /\
  k_proc (w_k w') = k_proc (w_k (demo_trap 27)).
Proof.
  assert (Hc : has (pte_of (demo_page 2) 27) PTE_COW = false) by (vm_compute; exact eq_refl).
  destruct (demo_trap_inv 27) as (l & t & Hh & Hv & He);
    [lia|vm_compute; exact eq_refl|vm_compute; exact eq_refl|].
  pose proof (usertrap_store hold_none l (demo_spaces t) 0%nat t (demo_trap 27) 0%nat demo_trap_proc
    demo_trap_tf 8 eq_refl eq_refl eq_refl Hh eq_refl Hv eq_refl eq_refl eq_refl eq_refl
    ltac:(split; [lia|exact eq_refl])) as H.
  cbv zeta in H. change (PGROUNDDOWN 8) with 0 in H. rewrite He, Hc, andb_false_r in H. cbn [andb] in H.
  apply wp_total_Ok in H as (r & w' & Er & Hp & _ & _ & ->). exists w'. exact (conj Er Hp).
Defined.
End Examples.
