(* ===== verification/Locks.v ===== *)
(** Lock types: which spinlocks a kernel function takes and leaves.

    [typed h m post] gives the kernel function [m] a type: started with exactly the
    locks [h] held (the last acquired first), it leaves the locks [post a] held when it
    returns [a], and the four tables of the kernel keep their sizes.  [Balanced m] is the
    type nearly every function has: it leaves the locks as it found them, whatever they
    were.  One instance per function derives it from the function's text, so an early
    return that forgets a [release] does not type.  The result is that no system call
    and no trap goes back to user space with a spinlock held. *)

From S2P Require Export Calls Fair.

(** * The judgement *)

(** The sizes of the process table, the buffer cache, the inode and the file table. *)
Definition sizes (k : kernel) : list nat :=
  [length (k_proc k); length (bc_buf (k_bcache k)); length (k_inode k); length (k_file k)].

(** What the rest of the system does while a process waits leaves this hart's locks and
    the tables' sizes alone. *)
Record env_typed (f : kernel -> kernel) : Prop := EnvTyped {
  env_typed_held : forall k, k_held (f k) = k_held k;
  env_typed_sizes : forall k, sizes (f k) = sizes k }.

Definition typed {A} (h : list lockid) (m : K A) (post : A -> list lockid) : Prop := forall w,
  k_held (w_k w) = h -> Forall env_typed (w_env w) ->
  match m w with
  | Ok a w' => k_held (w_k w') = post a /\ sizes (w_k w') = sizes (w_k w) /\ Forall env_typed (w_env w')
  | _ => True
  end.

Class Balanced {A} (m : K A) : Prop := balanced : forall h, typed h m (fun _ => h).

(** * Rules *)

Lemma typed_ret {A} h (a : A) post : post a = h -> typed h (ret a) post.
Proof. intros H w Hh He. cbn. by rewrite Hh. Qed.

Lemma typed_bind {A B} mid h (m : K A) (f : A -> K B) post :
  typed h m mid -> (forall a, typed (mid a) (f a) post) -> typed h (bind m f) post.
Proof.
  intros Hm Hf w Hh He. unfold bind. specialize (Hm w Hh He). destruct (m w) as [a w'| | | |]; [|done..].
  destruct Hm as (Hh' & Hs & He'). specialize (Hf a w' Hh' He'). destruct (f a w'); [|done..]. by rewrite <- Hs.
Qed.

Lemma typed_bind_ret {A B} h (a : A) (f : A -> K B) post : typed h (f a) post -> typed h (bind (ret a) f) post.
Proof. done. Qed.

Lemma typed_bind_fault {A B} h s (f : A -> K B) post : typed h (bind (fault s) f) post.
Proof. done. Qed.
Lemma typed_bind_panic {A B} h s (f : A -> K B) post : typed h (bind (panic s) f) post.
Proof. done. Qed.

Lemma typed_seq {A B} h (m : K A) (f : A -> K B) post :
  typed h m (fun _ => h) -> (forall a, typed h (f a) post) -> typed h (bind m f) post.
Proof. apply (typed_bind (fun _ => h)). Qed.

Lemma typed_call {A} h (m : K A) post : Balanced m -> (forall a, post a = h) -> typed h m post.
Proof.
  intros Hm Hp w Hh He. specialize (Hm h w Hh He). destruct (m w); [|done..]. by rewrite Hp.
Qed.

Lemma typed_panic {A} h s (post : A -> list lockid) : typed h (panic s) post.
Proof. done. Qed.
Lemma typed_fault {A} h s (post : A -> list lockid) : typed h (fault s) post.
Proof. done. Qed.
Lemma typed_blocked {A} h (post : A -> list lockid) : typed h blocked post.
Proof. done. Qed.
Lemma typed_out_of_fuel {A} h (post : A -> list lockid) : typed h out_of_fuel post.
Proof. done. Qed.

Lemma typed_loop {A S} h n (body : S -> K (S + A)) s post :
  (forall s, typed h (body s) (fun r => match r with inl _ => h | inr a => post a end)) ->
  typed h (loop n body s) post.
Proof.
  intros Hb. revert s. induction n as [|n IH]; intros s; [done|]. cbn [loop].
  eapply typed_bind; [apply Hb|]. intros [s'|a]; [apply IH|by apply typed_ret].
Qed.

Lemma typed_loop_env {A S} h n (body : S -> K (S + A)) s post :
  (forall s, typed h (body s) (fun r => match r with inl _ => h | inr a => post a end)) ->
  typed h (loop_env n body s) post.
Proof. intros Hb w. by apply typed_loop. Qed.

Lemma typed_loop_input {A S} h (body : S -> K (S + A)) s post :
  (forall s, typed h (body s) (fun r => match r with inl _ => h | inr a => post a end)) ->
  typed h (loop_input body s) post.
Proof. intros Hb w. by apply typed_loop. Qed.

Lemma typed_for_do {X} h (xs : list X) (body : X -> K unit) post : post tt = h ->
  (forall x, typed h (body x) (fun _ => h)) -> typed h (for_do xs body) post.
Proof.
  intros Hp Hb. induction xs as [|x xs IH]; [by apply typed_ret|]. cbn [for_do]. by apply typed_seq.
Qed.

Lemma typed_for_ret {A X} h (xs : list X) (body : X -> K (option A)) post : post None = h ->
  (forall x, typed h (body x) (fun r => match r with Some a => post (Some a) | None => h end)) ->
  typed h (for_ret xs body) post.
Proof.
  intros Hp Hb. induction xs as [|x xs IH]; [by apply typed_ret|]. cbn [for_ret].
  eapply typed_bind; [apply Hb|]. intros [a|]; [by apply typed_ret|done].
Qed.
Lemma typed_acquire h lk post : post tt = lk :: h -> typed h (acquire lk) post.
Proof.
  intros Hp w Hh He. unfold acquire, bind, getk, gets. rewrite Hh. unfold acquire_held.
  case_decide; [done|]. cbn. by rewrite Hp.
Qed.

Lemma typed_release h lk post : post tt = h -> typed (lk :: h) (release lk) post.
Proof.
  intros Hp w Hh He. unfold release, bind, getk, gets. rewrite Hh, release_held_head. cbn. by rewrite Hp.
Qed.

(** Releasing the lock below the last acquired. *)
Lemma typed_release_below h a lk post : post tt = a :: h -> typed (a :: lk :: h) (release lk) post.
Proof.
  intros Hp. destruct (decide (lk = a)) as [->|Hn]; [by apply typed_release|].
  intros w Hh He. unfold release, bind, getk, gets. rewrite Hh, release_held_ne, release_held_head by done.
  cbn. by rewrite Hp.
Qed.

Lemma typed_swtch h post : post tt = h -> typed h swtch post.
Proof.
  intros Hp w Hh He. unfold swtch. destruct (w_env w) as [|f e]; [done|].
  apply Forall_cons in He as [[Hf Hs] He]. cbn [w_k w_env].
  by rewrite Hf, Hs, Hp.
Qed.

Lemma balanced_modk f : (forall k, k_held (f k) = k_held k /\ sizes (f k) = sizes k) -> Balanced (modk f).
Proof. intros H h w Hh He. cbn. destruct (H (w_k w)) as [-> ->]. done. Qed.
#[export] Instance balanced_getk {A} (f : kernel -> A) : Balanced (getk f).
Proof. by intros h w Hh He. Qed.

Create HintDb ktyped.
(** The functions are told apart by name. *)
#[local] Hint Constants Opaque : typeclass_instances.

(** The text of a function followed to a type: the locks change at [acquire] and
    [release]; a loop, a branch or a call in the middle of a sequence is expected to be
    balanced, and where it is not the proof names the type with [typed_bind]. *)
Ltac typ_modk := apply balanced_modk; intros; split; [reflexivity|first [reflexivity|
  unfold sizes; cbn; by rewrite ?length_insert]].

Ltac typ_step :=
  lazymatch goal with
  | |- typed ?h (bind (acquire ?lk) _) _ => apply (typed_bind (fun _ => lk :: h)); [by apply typed_acquire|intros _]
  | |- typed (?lk :: ?h) (bind (release ?lk) _) _ => apply (typed_bind (fun _ => h)); [by apply typed_release|intros _]
  | |- typed (?a :: ?lk :: ?h) (bind (release ?lk) _) _ =>
    apply (typed_bind (fun _ => a :: h)); [by apply typed_release_below|intros _]
  | |- typed _ (acquire _) _ => by apply typed_acquire
  | |- typed _ (release _) _ => first [by apply typed_release | by apply typed_release_below]
  | |- typed _ (bind (from_option_or_fault _ (Some _)) _) _ => apply typed_bind_ret
  | |- typed _ (bind (from_option_or_fault _ None) _) _ => apply typed_bind_fault
  | |- typed _ (bind (from_option_or_fault _ ?o) _) _ => destruct o as [?|]; cbn [from_option_or_fault]
  | |- typed _ (from_option_or_fault _ ?o) _ => destruct o as [?|]; cbn [from_option_or_fault]
  | |- typed _ (bind (fault _) _) _ => apply typed_bind_fault
  | |- typed _ (bind (panic _) _) _ => apply typed_bind_panic
  | |- typed _ (bind _ _) _ => apply typed_seq; [|intros ?]
  | |- typed _ (ret _) _ => apply typed_ret; first [reflexivity|by repeat case_match]
  | |- typed _ (panic _) _ => apply typed_panic
  | |- typed _ (fault _) _ => apply typed_fault
  | |- typed _ blocked _ => apply typed_blocked
  | |- typed _ out_of_fuel _ => apply typed_out_of_fuel
  | |- typed _ (loop _ _ _) _ => apply typed_loop; intros ?
  | |- typed _ (loop_env _ _ _) _ => apply typed_loop_env; intros ?
  | |- typed _ (loop_input _ _) _ => apply typed_loop_input; intros ?
  | |- typed _ (for_do _ _) _ => apply typed_for_do; [reflexivity|intros ?]
  | |- typed _ (for_ret _ _) _ => apply typed_for_ret; [reflexivity|intros ?]
  | |- typed _ (when ?b _) _ => destruct b; unfold when
  | |- typed _ (if ?b then _ else _) _ => destruct b
  | |- typed _ (match ?x with _ => _ end) _ => destruct x
  | |- typed _ (let _ := _ in _) _ => cbv zeta
  | |- typed _ _ _ => first [apply typed_call; [typeclasses eauto|reflexivity] | solve [eauto 1 with ktyped]]
  | |- Balanced _ => intros ?
  end; cbn beta iota.
Ltac typ := repeat typ_step.
#[export] Hint Extern 5 (Balanced (modk _)) => typ_modk : typeclass_instances.

(** [by_typ f]: the definition [f] is typed by its text. *)
Tactic Notation "by_typ" reference(f) := unfold f; typ.

(** * The kernel's functions, file by file *)


(** ** File State *)
#[export] Instance get_proc_balanced (i : nat) : Balanced (get_proc i).
Proof. by_typ get_proc. Qed.
#[export] Instance put_proc_balanced (i : nat) (p : proc) : Balanced (put_proc i p).
Proof. by_typ put_proc. Qed.
#[export] Instance upd_proc_balanced (i : nat) (f : proc -> proc) : Balanced (upd_proc i f).
Proof. by_typ upd_proc. Qed.
#[export] Instance get_buf_balanced (i : nat) : Balanced (get_buf i).
Proof. by_typ get_buf. Qed.
#[export] Instance upd_buf_balanced (i : nat) (f : buf -> buf) : Balanced (upd_buf i f).
Proof. by_typ upd_buf. Qed.
#[export] Instance get_inode_balanced (i : nat) : Balanced (get_inode i).
Proof. by_typ get_inode. Qed.
#[export] Instance upd_inode_balanced (i : nat) (f : inode -> inode) : Balanced (upd_inode i f).
Proof. by_typ upd_inode. Qed.
#[export] Instance get_file_balanced (i : nat) : Balanced (get_file i).
Proof. by_typ get_file. Qed.
#[export] Instance upd_file_balanced (i : nat) (f : file -> file) : Balanced (upd_file i f).
Proof. by_typ upd_file. Qed.
#[export] Instance get_pipe_balanced (pi : Z) : Balanced (get_pipe pi).
Proof. by_typ get_pipe. Qed.
#[export] Instance upd_pipe_balanced (pi : Z) (f : pipe -> pipe) : Balanced (upd_pipe pi f).
Proof. by_typ upd_pipe. Qed.
#[export] Instance get_tf_balanced (pa : Z) : Balanced (get_tf pa).
Proof. by_typ get_tf. Qed.
#[export] Instance upd_tf_balanced (pa : Z) (f : trapframe -> trapframe) : Balanced (upd_tf pa f).
Proof. by_typ upd_tf. Qed.
#[export] Instance get_sl_balanced (s : slid) : Balanced (get_sl s).
Proof. by_typ get_sl. Qed.
#[export] Instance upd_sl_balanced (s : slid) (f : sleeplock -> sleeplock) : Balanced (upd_sl s f).
Proof. by_typ upd_sl. Qed.
#[export] Instance arr_get_balanced {A} (l : list A) (i : Z) : Balanced (arr_get l i).
Proof. by_typ arr_get. Qed.
#[export] Instance arr_set_balanced {A} (l : list A) (i : Z) (x : A) : Balanced (arr_set l i x).
Proof. by_typ arr_set. Qed.
#[export] Instance mmio_read_balanced (a : Z) : Balanced (mmio_read a).
Proof. by_typ mmio_read. Qed.
#[export] Instance mmio_write_balanced (a v : Z) : Balanced (mmio_write a v).
Proof. by_typ mmio_write. Qed.

(** ** File Lock *)
#[export] Instance holding_balanced (lk : lockid) : Balanced (holding lk).
Proof. by_typ holding. Qed.
#[export] Instance noff_balanced : Balanced noff.
Proof. by_typ noff. Qed.

(** ** Giving up the CPU (file Proc) *)
#[export] Instance myproc_balanced : Balanced myproc.
Proof. by_typ myproc. Qed.
#[export] Instance curproc_balanced : Balanced curproc.
Proof. by_typ curproc. Qed.
#[export] Instance allocpid_balanced : Balanced allocpid.
Proof. by_typ allocpid. Qed.
#[export] Instance swtch_balanced : Balanced swtch.
Proof. intros h. by apply typed_swtch. Qed.
#[export] Instance intr_get_balanced : Balanced intr_get.
Proof. by_typ intr_get. Qed.
#[export] Instance sched_balanced : Balanced sched.
Proof. by_typ sched. Qed.
#[export] Instance yield_balanced : Balanced yield.
Proof. by_typ yield. Qed.
Lemma typed_sleep h c lk : typed (lk :: h) (sleep c lk) (fun _ => lk :: h).
Proof. unfold sleep. typ. Qed.
#[export] Hint Resolve typed_sleep : ktyped.

Section Kernel.
Context {L : Layout} {U : Uninit}.

(** ** File Kalloc *)
#[export] Instance modify_count_balanced (pa : Z) (f : Z -> Z) : Balanced (modify_count pa f).
Proof. by_typ modify_count. Qed.
#[export] Instance inc_count_balanced (pa : Z) : Balanced (inc_count pa).
Proof. by_typ inc_count. Qed.
#[export] Instance dec_count_balanced (pa : Z) : Balanced (dec_count pa).
Proof. by_typ dec_count. Qed.
#[export] Instance set_count_balanced (pa cnt : Z) : Balanced (set_count pa cnt).
Proof. by_typ set_count. Qed.
#[export] Instance get_count_balanced (pa : Z) : Balanced (get_count pa).
Proof. by_typ get_count. Qed.
#[export] Instance safe_inc_count_balanced (pa : Z) : Balanced (safe_inc_count pa).
Proof. by_typ safe_inc_count. Qed.
#[export] Instance memset_page_balanced (pa c : Z) : Balanced (memset_page pa c).
Proof. by_typ memset_page. Qed.
#[export] Instance kfree_balanced (pa : Z) : Balanced (kfree pa).
Proof. by_typ kfree. Qed.
#[export] Instance kalloc_balanced : Balanced kalloc.
Proof. by_typ kalloc. Qed.
#[export] Instance freerange_balanced (pa_start pa_end : Z) : Balanced (freerange pa_start pa_end).
Proof. by_typ freerange. Qed.
#[export] Instance kinit_balanced : Balanced kinit.
Proof. by_typ kinit. Qed.

(** ** File Vm *)
#[export] Instance clear_page_balanced (pa : Z) : Balanced (clear_page pa).
Proof. by_typ clear_page. Qed.
#[export] Instance load_pte_balanced (a : Z) : Balanced (load_pte a).
Proof. by_typ load_pte. Qed.
#[export] Instance store_pte_balanced (a v : Z) : Balanced (store_pte a v).
Proof. by_typ store_pte. Qed.
#[export] Instance walk_level_balanced (pagetable level va : Z) (alloc : bool) :
  Balanced (walk_level pagetable level va alloc).
Proof. by_typ walk_level. Qed.
#[export] Instance walk_levels_balanced (levels : list Z) (pagetable va : Z) (alloc : bool) :
  Balanced (walk_levels levels pagetable va alloc).
Proof. revert pagetable. induction levels as [|l ls IH]; intros pt h; cbn [walk_levels]; typ. Qed.
#[export] Instance walk_balanced (pagetable va : Z) (alloc : bool) : Balanced (walk pagetable va alloc).
Proof. by_typ walk. Qed.
#[export] Instance walkaddr_balanced (pagetable va : Z) : Balanced (walkaddr pagetable va).
Proof. by_typ walkaddr. Qed.
#[export] Instance mappages_balanced (pagetable va size pa perm : Z) :
  Balanced (mappages pagetable va size pa perm).
Proof. by_typ mappages. Qed.
#[export] Instance kvmmap_balanced (kpgtbl va pa sz perm : Z) : Balanced (kvmmap kpgtbl va pa sz perm).
Proof. by_typ kvmmap. Qed.
#[export] Instance uvmunmap_balanced (pagetable va npages : Z) (do_free : bool) :
  Balanced (uvmunmap pagetable va npages do_free).
Proof. by_typ uvmunmap. Qed.
#[export] Instance uvmcreate_balanced : Balanced uvmcreate.
Proof. by_typ uvmcreate. Qed.
#[export] Instance uvmfirst_balanced (pagetable : Z) (src : list Z) : Balanced (uvmfirst pagetable src).
Proof. by_typ uvmfirst. Qed.
#[export] Instance uvmdealloc_balanced (pagetable oldsz newsz : Z) :
  Balanced (uvmdealloc pagetable oldsz newsz).
Proof. by_typ uvmdealloc. Qed.
#[export] Instance uvmalloc_balanced (pagetable oldsz newsz xperm : Z) :
  Balanced (uvmalloc pagetable oldsz newsz xperm).
Proof. by_typ uvmalloc. Qed.
#[export] Instance freewalk_fuel_balanced (fuel : nat) (pagetable : Z) :
  Balanced (freewalk_fuel fuel pagetable).
Proof. revert pagetable. induction fuel as [|n IH]; intros pt h; cbn [freewalk_fuel]; typ. Qed.
#[export] Instance freewalk_balanced (pagetable : Z) : Balanced (freewalk pagetable).
Proof. by_typ freewalk. Qed.
#[export] Instance uvmfree_balanced (pagetable sz : Z) : Balanced (uvmfree pagetable sz).
Proof. by_typ uvmfree. Qed.
#[export] Instance uvmcopy_balanced (old new sz : Z) : Balanced (uvmcopy old new sz).
Proof. by_typ uvmcopy. Qed.
#[export] Instance uvmclear_balanced (pagetable va : Z) : Balanced (uvmclear pagetable va).
Proof. by_typ uvmclear. Qed.
#[export] Instance cow_page_fault_balanced (pt va : Z) : Balanced (cow_page_fault pt va).
Proof. by_typ cow_page_fault. Qed.
#[export] Instance copyout_balanced (pagetable dstva : Z) (src : list Z) :
  Balanced (copyout pagetable dstva src).
Proof. by_typ copyout. Qed.
#[export] Instance copyin_balanced (pagetable srcva len : Z) : Balanced (copyin pagetable srcva len).
Proof. by_typ copyin. Qed.
#[export] Instance copyinstr_balanced (pagetable srcva max : Z) : Balanced (copyinstr pagetable srcva max).
Proof. by_typ copyinstr. Qed.
#[export] Instance proc_mapstacks_balanced (kpgtbl : Z) : Balanced (proc_mapstacks kpgtbl).
Proof. by_typ proc_mapstacks. Qed.
#[export] Instance kvmmake_balanced : Balanced kvmmake.
Proof. by_typ kvmmake. Qed.
#[export] Instance kvminit_balanced : Balanced kvminit.
Proof. by_typ kvminit. Qed.

(** ** File Proc *)
#[export] Instance wakeup_balanced (c : chan) : Balanced (wakeup c).
Proof. by_typ wakeup. Qed.
#[export] Instance kill_balanced (pid : Z) : Balanced (kill pid).
Proof. by_typ kill. Qed.
#[export] Instance setkilled_balanced (i : nat) : Balanced (setkilled i).
Proof. by_typ setkilled. Qed.
#[export] Instance killed_balanced (i : nat) : Balanced (killed i).
Proof. by_typ killed. Qed.
#[export] Instance either_copyout_balanced (user_dst : bool) (dst : Z) (src : list Z) :
  Balanced (either_copyout user_dst dst src).
Proof. by_typ either_copyout. Qed.
#[export] Instance either_copyin_balanced (s : usrc) (len : Z) : Balanced (either_copyin s len).
Proof. by_typ either_copyin. Qed.
#[export] Instance procinit_balanced : Balanced procinit.
Proof. by_typ procinit. Qed.
#[export] Instance proc_pagetable_balanced (i : nat) : Balanced (proc_pagetable i).
Proof. by_typ proc_pagetable. Qed.
#[export] Instance proc_freepagetable_balanced (pagetable sz : Z) :
  Balanced (proc_freepagetable pagetable sz).
Proof. by_typ proc_freepagetable. Qed.
#[export] Instance freeproc_balanced (i : nat) : Balanced (freeproc i).
Proof. by_typ freeproc. Qed.
(** [allocproc] returns the process with its lock held. *)
Lemma typed_allocproc h : typed h allocproc (fun o => match o with Some i => LkProc i :: h | None => h end).
Proof.
  unfold allocproc.
  apply (typed_bind (fun o => match o with Some i => LkProc i :: h | None => h end)); [typ|]. intros [i|]; typ.
Qed.
#[export] Instance growproc_balanced (n : Z) : Balanced (growproc n).
Proof. by_typ growproc. Qed.

(** ** File Sched *)
(** The scheduler's scan keeps the lock of the process it has chosen so far. *)
Lemma typed_scan h ps highest min_dp :
  typed (best_lock highest ++ h) (scan ps highest min_dp) (fun r => best_lock r ++ h).
Proof.
  revert highest min_dp. induction ps as [|i ps IH]; intros highest min_dp; cbn [scan]; [typ|].
  typ_step. typ_step; [typ|]. typ_step; [typ; apply IH|]. destruct highest as [b|]; [|apply (IH (Some i))].
  cbn [best_lock app]. typ_step; [typ|]. typ_step; typ_step; [apply (IH (Some i))|apply (IH (Some b))].
Qed.
#[export] Instance set_cur_balanced (p : option nat) : Balanced (set_cur p).
Proof. by_typ set_cur. Qed.
#[export] Instance scheduler_round_balanced : Balanced scheduler_round.
Proof. intros h. eapply typed_bind; [apply (typed_scan h _ None)|]. intros [b|]; cbn [best_lock app]; typ. Qed.
#[export] Instance scheduler_balanced (rounds : nat) : Balanced (scheduler rounds).
Proof. by_typ scheduler. Qed.
#[export] Instance update_time_balanced : Balanced update_time.
Proof. by_typ update_time. Qed.
#[export] Instance int_op_balanced (x : Z) : Balanced (int_op x).
Proof. by_typ int_op. Qed.
#[export] Instance int_div_balanced (a b : Z) : Balanced (int_div a b).
Proof. by_typ int_div. Qed.
#[export] Instance recompute_priority_balanced (i : nat) : Balanced (recompute_priority i).
Proof. by_typ recompute_priority. Qed.
#[export] Instance clockintr_balanced : Balanced clockintr.
Proof. by_typ clockintr. Qed.

(** ** File Sleeplock *)
#[export] Instance initsleeplock_balanced (s : slid) : Balanced (initsleeplock s).
Proof. by_typ initsleeplock. Qed.
#[export] Instance acquiresleep_balanced (s : slid) : Balanced (acquiresleep s).
Proof. by_typ acquiresleep. Qed.
#[export] Instance releasesleep_balanced (s : slid) : Balanced (releasesleep s).
Proof. by_typ releasesleep. Qed.
#[export] Instance holdingsleep_balanced (s : slid) : Balanced (holdingsleep s).
Proof. by_typ holdingsleep. Qed.

(** ** File Virtio *)
#[export] Instance plicinit_balanced : Balanced plicinit.
Proof. by_typ plicinit. Qed.
#[export] Instance plicinithart_balanced (hart : Z) : Balanced (plicinithart hart).
Proof. by_typ plicinithart. Qed.
#[export] Instance plic_claim_balanced (hart : Z) : Balanced (plic_claim hart).
Proof. by_typ plic_claim. Qed.
#[export] Instance plic_complete_balanced (hart irq : Z) : Balanced (plic_complete hart irq).
Proof. by_typ plic_complete. Qed.
#[export] Instance getv_balanced {A} (f : vdisk -> A) : Balanced (getv f).
Proof. by_typ getv. Qed.
#[export] Instance modv_balanced (f : vdisk -> vdisk) : Balanced (modv f).
Proof. by_typ modv. Qed.
#[export] Instance virtio_disk_init_balanced : Balanced virtio_disk_init.
Proof. by_typ virtio_disk_init. Qed.
#[export] Instance alloc_desc_balanced : Balanced alloc_desc.
Proof. by_typ alloc_desc. Qed.
#[export] Instance free_desc_balanced (i : Z) : Balanced (free_desc i).
Proof. by_typ free_desc. Qed.
#[export] Instance free_chain_balanced (i : Z) : Balanced (free_chain i).
Proof. by_typ free_chain. Qed.
#[export] Instance alloc3_from_balanced (n : nat) (idx : list Z) : Balanced (alloc3_from n idx).
Proof. revert idx. induction n as [|n IH]; intros idx h; cbn [alloc3_from]; typ. Qed.
#[export] Instance alloc3_desc_balanced : Balanced alloc3_desc.
Proof. by_typ alloc3_desc. Qed.
#[export] Instance set_desc_balanced (i : Z) (d : virtq_desc) : Balanced (set_desc i d).
Proof. by_typ set_desc. Qed.
#[export] Instance set_info_balanced (i : Z) (f : dinfo -> dinfo) : Balanced (set_info i f).
Proof. by_typ set_info. Qed.
#[export] Instance submit_balanced (b : nat) (write : bool) (idx0 idx1 idx2 : Z) :
  Balanced (submit b write idx0 idx1 idx2).
Proof. by_typ submit. Qed.
#[export] Instance virtio_disk_rw_balanced (b : nat) (write : bool) : Balanced (virtio_disk_rw b write).
Proof. by_typ virtio_disk_rw. Qed.
#[export] Instance virtio_disk_intr_balanced : Balanced virtio_disk_intr.
Proof. by_typ virtio_disk_intr. Qed.

(** ** File Bio *)
#[export] Instance get_next_balanced (p : bptr) : Balanced (get_next p).
Proof. by_typ get_next. Qed.
#[export] Instance get_prev_balanced (p : bptr) : Balanced (get_prev p).
Proof. by_typ get_prev. Qed.
#[export] Instance set_next_balanced (p q : bptr) : Balanced (set_next p q).
Proof. by_typ set_next. Qed.
#[export] Instance set_prev_balanced (p q : bptr) : Balanced (set_prev p q).
Proof. by_typ set_prev. Qed.
#[export] Instance insert_head_balanced (i : nat) : Balanced (insert_head i).
Proof. by_typ insert_head. Qed.
#[export] Instance binit_balanced : Balanced binit.
Proof. by_typ binit. Qed.
#[export] Instance find_buf_balanced (step : bptr -> K bptr) (P : buf -> bool) (p : bptr) :
  (forall q, Balanced (step q)) -> Balanced (find_buf step P p).
Proof. intros Hs. by_typ find_buf. Qed.
#[export] Instance bget_balanced (dev blockno : Z) : Balanced (bget dev blockno).
Proof. by_typ bget. Qed.
#[export] Instance bread_balanced (dev blockno : Z) : Balanced (bread dev blockno).
Proof. by_typ bread. Qed.
#[export] Instance bwrite_balanced (i : nat) : Balanced (bwrite i).
Proof. by_typ bwrite. Qed.
#[export] Instance brelse_balanced (i : nat) : Balanced (brelse i).
Proof. by_typ brelse. Qed.
#[export] Instance bpin_balanced (i : nat) : Balanced (bpin i).
Proof. by_typ bpin. Qed.
#[export] Instance bunpin_balanced (i : nat) : Balanced (bunpin i).
Proof. by_typ bunpin. Qed.

(** ** File Log *)
#[export] Instance getl_balanced {A} (f : log -> A) : Balanced (getl f).
Proof. by_typ getl. Qed.
#[export] Instance modl_balanced (f : log -> log) : Balanced (modl f).
Proof. by_typ modl. Qed.
#[export] Instance upd_data_balanced (b : nat) (f : list Z -> list Z) : Balanced (upd_data b f).
Proof. by_typ upd_data. Qed.
#[export] Instance install_trans_balanced (recovering : bool) : Balanced (install_trans recovering).
Proof. by_typ install_trans. Qed.
#[export] Instance read_head_balanced : Balanced read_head.
Proof. by_typ read_head. Qed.
#[export] Instance write_head_balanced : Balanced write_head.
Proof. by_typ write_head. Qed.
#[export] Instance recover_from_log_balanced : Balanced recover_from_log.
Proof. by_typ recover_from_log. Qed.
#[export] Instance initlog_balanced (dev : Z) (sb : superblock) : Balanced (initlog dev sb).
Proof. by_typ initlog. Qed.
#[export] Instance begin_op_balanced : Balanced begin_op.
Proof. by_typ begin_op. Qed.
#[export] Instance write_log_balanced : Balanced write_log.
Proof. by_typ write_log. Qed.
#[export] Instance commit_balanced : Balanced commit.
Proof. by_typ commit. Qed.
#[export] Instance end_op_balanced : Balanced end_op.
Proof. by_typ end_op. Qed.
#[export] Instance log_write_balanced (b : nat) : Balanced (log_write b).
Proof. by_typ log_write. Qed.

(** ** File Printf *)
#[export] Instance ReadReg_balanced (reg : Z) : Balanced (ReadReg reg).
Proof. by_typ ReadReg. Qed.
#[export] Instance WriteReg_balanced (reg v : Z) : Balanced (WriteReg reg v).
Proof. by_typ WriteReg. Qed.
#[export] Instance uartinit_balanced : Balanced uartinit.
Proof. by_typ uartinit. Qed.
#[export] Instance getu_balanced {A} (f : uart -> A) : Balanced (getu f).
Proof. by_typ getu. Qed.
#[export] Instance modu_balanced (f : uart -> uart) : Balanced (modu f).
Proof. by_typ modu. Qed.
#[export] Instance stop_if_panicked_balanced : Balanced stop_if_panicked.
Proof. by_typ stop_if_panicked. Qed.
#[export] Instance uartstart_balanced : Balanced uartstart.
Proof. by_typ uartstart. Qed.
#[export] Instance uartputc_balanced (c : Z) : Balanced (uartputc c).
Proof. by_typ uartputc. Qed.
#[export] Instance uartputc_sync_balanced (c : Z) : Balanced (uartputc_sync c).
Proof. by_typ uartputc_sync. Qed.
#[export] Instance uartgetc_balanced : Balanced uartgetc.
Proof. by_typ uartgetc. Qed.
#[export] Instance consputc_balanced (c : Z) : Balanced (consputc c).
Proof. by_typ consputc. Qed.
#[export] Instance printint_digits_balanced (x base : Z) : Balanced (printint_digits x base).
Proof. by_typ printint_digits. Qed.
#[export] Instance printint_balanced (xx base : Z) (sign : bool) : Balanced (printint xx base sign).
Proof. by_typ printint. Qed.
#[export] Instance printptr_balanced (x : Z) : Balanced (printptr x).
Proof. by_typ printptr. Qed.
#[export] Instance printf_loop_balanced (fmt : list Z) (args : list parg) : Balanced (printf_loop fmt args).
Proof.
  revert fmt args. fix IH 1. intros fmt args h. destruct fmt as [|c fmt]; cbn [printf_loop]; [typ|].
  typ_step; [typ|]. destruct fmt as [|c' fmt]; [typ|]. typ.
Qed.
#[export] Instance printf_balanced (fmt : list Z) (args : list parg) : Balanced (printf fmt args).
Proof. intros h. unfold printf. typ_step; [typ|]. destruct (negb _); cbn [when]; typ. Qed.
#[export] Instance panic__balanced (s : list Z) : Balanced (panic_ s).
Proof. by_typ panic_. Qed.
#[export] Instance printfinit_balanced : Balanced printfinit.
Proof. by_typ printfinit. Qed.
#[export] Instance procdump_balanced : Balanced procdump.
Proof. by_typ procdump. Qed.
#[export] Instance print_proc_balanced : Balanced print_proc.
Proof. by_typ print_proc. Qed.

(** ** File Console *)
#[export] Instance getc_balanced {A} (f : console -> A) : Balanced (getc f).
Proof. by_typ getc. Qed.
#[export] Instance modc_balanced (f : console -> console) : Balanced (modc f).
Proof. by_typ modc. Qed.
#[export] Instance consolewrite_balanced (src : usrc) (n : Z) : Balanced (consolewrite src n).
Proof. by_typ consolewrite. Qed.
#[export] Instance consoleread_balanced (user_dst : bool) (dst n : Z) : Balanced (consoleread user_dst dst n).
Proof.
  intros h. unfold consoleread. cbv zeta. typ_step.
  apply (typed_bind (fun r => match r with None => h | Some _ => LkCons :: h end)); [typ|]. intros [[m out]|]; typ.
Qed.
#[export] Instance kill_line_balanced : Balanced kill_line.
Proof. by_typ kill_line. Qed.
#[export] Instance consoleintr_balanced (c : Z) : Balanced (consoleintr c).
Proof. by_typ consoleintr. Qed.
#[export] Instance consoleinit_balanced : Balanced consoleinit.
Proof. by_typ consoleinit. Qed.
#[export] Instance uartintr_balanced : Balanced uartintr.
Proof. by_typ uartintr. Qed.

(** ** File Fs *)
#[export] Instance getsb_balanced : Balanced getsb.
Proof. by_typ getsb. Qed.
#[export] Instance get_data_balanced (b : nat) : Balanced (get_data b).
Proof. by_typ get_data. Qed.
#[export] Instance readsb_balanced (dev : Z) : Balanced (readsb dev).
Proof. by_typ readsb. Qed.
#[export] Instance fsinit_balanced (dev : Z) : Balanced (fsinit dev).
Proof. by_typ fsinit. Qed.
#[export] Instance bzero_balanced (dev bno : Z) : Balanced (bzero dev bno).
Proof. by_typ bzero. Qed.
#[export] Instance balloc_in_balanced (dev b : Z) (bp : nat) : Balanced (balloc_in dev b bp).
Proof. by_typ balloc_in. Qed.
#[export] Instance balloc_balanced (dev : Z) : Balanced (balloc dev).
Proof. by_typ balloc. Qed.
#[export] Instance bfree_balanced (dev b : Z) : Balanced (bfree dev b).
Proof. by_typ bfree. Qed.
#[export] Instance iinit_balanced : Balanced iinit.
Proof. by_typ iinit. Qed.
#[export] Instance iget_scan_balanced (dev inum : Z) (ips : list nat) (empty : option nat) :
  Balanced (iget_scan dev inum ips empty).
Proof. revert empty. induction ips as [|i ips IH]; intros e h; cbn [iget_scan]; typ. Qed.
#[export] Instance iget_balanced (dev inum : Z) : Balanced (iget dev inum).
Proof. by_typ iget. Qed.
#[export] Instance ialloc_balanced (dev type : Z) : Balanced (ialloc dev type).
Proof. by_typ ialloc. Qed.
#[export] Instance iupdate_balanced (i : nat) : Balanced (iupdate i).
Proof. by_typ iupdate. Qed.
#[export] Instance idup_balanced (i : nat) : Balanced (idup i).
Proof. by_typ idup. Qed.
#[export] Instance ilock_balanced (i : nat) : Balanced (ilock i).
Proof. by_typ ilock. Qed.
#[export] Instance iunlock_balanced (i : nat) : Balanced (iunlock i).
Proof. by_typ iunlock. Qed.
#[export] Instance itrunc_balanced (i : nat) : Balanced (itrunc i).
Proof. by_typ itrunc. Qed.
#[export] Instance iput_balanced (i : nat) : Balanced (iput i).
Proof. by_typ iput. Qed.
#[export] Instance iunlockput_balanced (i : nat) : Balanced (iunlockput i).
Proof. by_typ iunlockput. Qed.
#[export] Instance bmap_balanced (i : nat) (bn : Z) : Balanced (bmap i bn).
Proof. by_typ bmap. Qed.
#[export] Instance stati_balanced (i : nat) : Balanced (stati i).
Proof. by_typ stati. Qed.
#[export] Instance readi_balanced (i : nat) (user_dst : bool) (dst off n : Z) :
  Balanced (readi i user_dst dst off n).
Proof. by_typ readi. Qed.
#[export] Instance writei_balanced (i : nat) (src : usrc) (off n : Z) : Balanced (writei i src off n).
Proof. by_typ writei. Qed.
#[export] Instance dirlookup_balanced (dp : nat) (name : list Z) : Balanced (dirlookup dp name).
Proof. by_typ dirlookup. Qed.
#[export] Instance dirlink_balanced (dp : nat) (name : list Z) (inum : Z) : Balanced (dirlink dp name inum).
Proof. by_typ dirlink. Qed.
#[export] Instance namex_loop_balanced (fuel : nat) (path : list Z) (nameiparent : bool) (name : list Z) (i : nat) :
  Balanced (namex_loop fuel path nameiparent name i).
Proof.
  revert path name i. induction fuel as [|n IH]; intros path name i h; cbn [namex_loop]; typ.
Qed.
#[export] Instance namex_balanced (path : list Z) (nameiparent : bool) : Balanced (namex path nameiparent).
Proof. by_typ namex. Qed.
#[export] Instance namei_balanced (path : list Z) : Balanced (namei path).
Proof. by_typ namei. Qed.
#[export] Instance nameiparent_balanced (path : list Z) : Balanced (nameiparent path).
Proof. by_typ nameiparent. Qed.

(** ** File Pipe *)
#[export] Instance pipeclose_balanced (pi : Z) (writable : bool) : Balanced (pipeclose pi writable).
Proof. by_typ pipeclose. Qed.
#[export] Instance pipewrite_balanced (pi addr n : Z) : Balanced (pipewrite pi addr n).
Proof.
  intros h. unfold pipewrite. typ_step; [typ|]. typ_step.
  apply (typed_bind (fun r => match r with None => h | Some _ => LkPipe pi :: h end)); [typ|]. intros [i|]; typ.
Qed.
#[export] Instance piperead_balanced (pi addr n : Z) : Balanced (piperead pi addr n).
Proof.
  intros h. unfold piperead. typ_step; [typ|]. typ_step.
  apply (typed_bind (fun stop : bool => if stop then h else LkPipe pi :: h)); [typ|]. intros [|]; typ.
Qed.

(** ** File File *)
#[export] Instance filealloc_balanced : Balanced filealloc.
Proof.
  intros h. unfold filealloc. typ_step.
  apply (typed_bind (fun o => match o with Some _ => h | None => LkFtable :: h end)); [typ|]. intros [i|]; typ.
Qed.
#[export] Instance filedup_balanced (i : nat) : Balanced (filedup i).
Proof. by_typ filedup. Qed.
#[export] Instance file_inode_balanced (f : file) : Balanced (file_inode f).
Proof. by_typ file_inode. Qed.
#[export] Instance fileclose_balanced (i : nat) : Balanced (fileclose i).
Proof. by_typ fileclose. Qed.
#[export] Instance filestat_balanced (i : nat) (addr : Z) : Balanced (filestat i addr).
Proof. by_typ filestat. Qed.
#[export] Instance devsw_at_balanced (major : Z) : Balanced (devsw_at major).
Proof. by_typ devsw_at. Qed.
#[export] Instance dev_read_balanced (d : device) (addr n : Z) : Balanced (dev_read d addr n).
Proof. by_typ dev_read. Qed.
#[export] Instance dev_write_balanced (d : device) (addr n : Z) : Balanced (dev_write d addr n).
Proof. by_typ dev_write. Qed.
#[export] Instance fileread_balanced (i : nat) (addr n : Z) : Balanced (fileread i addr n).
Proof. by_typ fileread. Qed.
#[export] Instance filewrite_balanced (i : nat) (addr n : Z) : Balanced (filewrite i addr n).
Proof. by_typ filewrite. Qed.
#[export] Instance pipe_bad_balanced (pi : Z) (f0 f1 : option nat) : Balanced (pipe_bad pi f0 f1).
Proof. by_typ pipe_bad. Qed.
#[export] Instance pipealloc_balanced : Balanced pipealloc.
Proof. by_typ pipealloc. Qed.

(** ** File ProcLife *)
#[export] Instance userinit_balanced : Balanced userinit.
Proof.
  intros h. eapply typed_bind; [apply typed_allocproc|]. intros [i|]; typ.
Qed.
#[export] Instance fork_balanced : Balanced fork.
Proof.
  intros h. unfold fork. typ_step; [typ|]. eapply typed_bind; [apply typed_allocproc|]. intros [np|]; typ.
Qed.
#[export] Instance reparent_balanced (i : nat) : Balanced (reparent i).
Proof. by_typ reparent. Qed.
#[export] Instance exit_balanced (status : Z) : Balanced (exit status).
Proof. by_typ exit. Qed.
#[export] Instance copy_xstate_balanced (me : nat) (addr xstate : Z) : Balanced (copy_xstate me addr xstate).
Proof. by_typ copy_xstate. Qed.
Lemma typed_wait_scan h js me addr havekids :
  typed (LkWait :: h) (wait_scan js me addr havekids) (fun r => match r with inl _ => h | inr _ => LkWait :: h end).
Proof. revert havekids. induction js as [|j js IH]; intros b; cbn [wait_scan]; typ; apply IH. Qed.
#[export] Instance wait_balanced (addr : Z) : Balanced (wait addr).
Proof.
  intros h. unfold wait. typ_step; [typ|]. typ_step. apply typed_loop_env. intros _.
  eapply typed_bind; [apply typed_wait_scan|]. intros [?|?]; typ.
Qed.
Lemma typed_waitx_scan h js me addr havekids :
  typed (LkWait :: h) (waitx_scan js me addr havekids) (fun r => match r with inl _ => h | inr _ => LkWait :: h end).
Proof. revert havekids. induction js as [|j js IH]; intros b; cbn [waitx_scan]; typ; apply IH. Qed.
#[export] Instance waitx_balanced (addr : Z) : Balanced (waitx addr).
Proof.
  intros h. unfold waitx. typ_step; [typ|]. typ_step. apply typed_loop_env. intros _.
  eapply typed_bind; [apply typed_waitx_scan|]. intros [?|?]; typ.
Qed.

(** ** File Exec *)
#[export] Instance loadseg_balanced (pagetable va : Z) (ip : nat) (offset sz : Z) :
  Balanced (loadseg pagetable va ip offset sz).
Proof. by_typ loadseg. Qed.
#[export] Instance exec_bad_balanced (pagetable sz : Z) (ip : option nat) :
  Balanced (exec_bad pagetable sz ip).
Proof. by_typ exec_bad. Qed.
#[export] Instance load_segments_balanced (pagetable : Z) (ip : nat) (elf : elfhdr) :
  Balanced (load_segments pagetable ip elf).
Proof. by_typ load_segments. Qed.
#[export] Instance push_args_balanced (pagetable sp stackbase : Z) (argc : Z) (argv : list (list Z)) (ustack : list Z) :
  Balanced (push_args pagetable sp stackbase argc argv ustack).
Proof.
  revert sp argc ustack. induction argv as [|a l IH]; intros sp argc us h; cbn [push_args]; typ.
Qed.
#[export] Instance exec_commit_balanced (path : list Z) (argv : list (list Z)) (elf : elfhdr) (pagetable sz : Z) :
  Balanced (exec_commit path argv elf pagetable sz).
Proof. by_typ exec_commit. Qed.
#[export] Instance exec_balanced (path : list Z) (argv : list (list Z)) : Balanced (exec path argv).
Proof. by_typ exec. Qed.

(** ** File Syscall *)
#[export] Instance self_balanced : Balanced self.
Proof. by_typ self. Qed.
#[export] Instance fetchaddr_balanced (addr : Z) : Balanced (fetchaddr addr).
Proof. by_typ fetchaddr. Qed.
#[export] Instance fetchstr_balanced (addr max : Z) : Balanced (fetchstr addr max).
Proof. by_typ fetchstr. Qed.
#[export] Instance argraw_balanced (n : Z) : Balanced (argraw n).
Proof. by_typ argraw. Qed.
#[export] Instance argint_balanced (n : Z) : Balanced (argint n).
Proof. by_typ argint. Qed.
#[export] Instance argaddr_balanced (n : Z) : Balanced (argaddr n).
Proof. by_typ argaddr. Qed.
#[export] Instance argstr_balanced (n max : Z) : Balanced (argstr n max).
Proof. by_typ argstr. Qed.
#[export] Instance ret_int_balanced (v : Z) : Balanced (ret_int v).
Proof. by_typ ret_int. Qed.
#[export] Instance sys_exit_balanced : Balanced sys_exit.
Proof. by_typ sys_exit. Qed.
#[export] Instance sys_getpid_balanced : Balanced sys_getpid.
Proof. by_typ sys_getpid. Qed.
#[export] Instance sys_fork_balanced : Balanced sys_fork.
Proof. by_typ sys_fork. Qed.
#[export] Instance sys_wait_balanced : Balanced sys_wait.
Proof. by_typ sys_wait. Qed.
#[export] Instance sys_sbrk_balanced : Balanced sys_sbrk.
Proof. by_typ sys_sbrk. Qed.
#[export] Instance sys_sleep_balanced : Balanced sys_sleep.
Proof. by_typ sys_sleep. Qed.
#[export] Instance sys_kill_balanced : Balanced sys_kill.
Proof. by_typ sys_kill. Qed.
#[export] Instance sys_uptime_balanced : Balanced sys_uptime.
Proof. by_typ sys_uptime. Qed.
#[export] Instance sys_waitx_balanced : Balanced sys_waitx.
Proof. by_typ sys_waitx. Qed.
#[export] Instance sys_set_priority_balanced : Balanced sys_set_priority.
Proof. by_typ sys_set_priority. Qed.
#[export] Instance argfd_balanced (n : Z) : Balanced (argfd n).
Proof. by_typ argfd. Qed.
#[export] Instance set_ofile_balanced (fd : nat) (f : option nat) : Balanced (set_ofile fd f).
Proof. by_typ set_ofile. Qed.
#[export] Instance fdalloc_balanced (f : nat) : Balanced (fdalloc f).
Proof. by_typ fdalloc. Qed.
#[export] Instance sys_dup_balanced : Balanced sys_dup.
Proof. by_typ sys_dup. Qed.
#[export] Instance sys_getreadcount_balanced : Balanced sys_getreadcount.
Proof. by_typ sys_getreadcount. Qed.
#[export] Instance sys_read_balanced : Balanced sys_read.
Proof. by_typ sys_read. Qed.
#[export] Instance sys_write_balanced : Balanced sys_write.
Proof. by_typ sys_write. Qed.
#[export] Instance sys_close_balanced : Balanced sys_close.
Proof. by_typ sys_close. Qed.
#[export] Instance sys_fstat_balanced : Balanced sys_fstat.
Proof. by_typ sys_fstat. Qed.
#[export] Instance nlink_add_balanced (i : nat) (d : Z) : Balanced (nlink_add i d).
Proof. by_typ nlink_add. Qed.
#[export] Instance link_bad_balanced (ip : nat) : Balanced (link_bad ip).
Proof. by_typ link_bad. Qed.
#[export] Instance sys_link_balanced : Balanced sys_link.
Proof. by_typ sys_link. Qed.
#[export] Instance isdirempty_balanced (d : nat) : Balanced (isdirempty d).
Proof. by_typ isdirempty. Qed.
#[export] Instance unlink_bad_balanced (d : nat) : Balanced (unlink_bad d).
Proof. by_typ unlink_bad. Qed.
#[export] Instance sys_unlink_balanced : Balanced sys_unlink.
Proof. by_typ sys_unlink. Qed.
#[export] Instance create_fail_balanced (i d : nat) : Balanced (create_fail i d).
Proof. by_typ create_fail. Qed.
#[export] Instance create_balanced (path : list Z) (type major minor : Z) :
  Balanced (create path type major minor).
Proof. by_typ create. Qed.
#[export] Instance open_bad_balanced (i : nat) : Balanced (open_bad i).
Proof. by_typ open_bad. Qed.
#[export] Instance open_inode_balanced (i : nat) (omode : Z) : Balanced (open_inode i omode).
Proof. by_typ open_inode. Qed.
#[export] Instance sys_open_balanced : Balanced sys_open.
Proof. by_typ sys_open. Qed.
#[export] Instance create_arg_balanced (type major minor : Z) : Balanced (create_arg type major minor).
Proof. by_typ create_arg. Qed.
#[export] Instance sys_mkdir_balanced : Balanced sys_mkdir.
Proof. by_typ sys_mkdir. Qed.
#[export] Instance sys_mknod_balanced : Balanced sys_mknod.
Proof. by_typ sys_mknod. Qed.
#[export] Instance sys_chdir_balanced : Balanced sys_chdir.
Proof. by_typ sys_chdir. Qed.
#[export] Instance fetch_args_balanced (fuel : nat) (uargv i : Z) (argv : list (Z * list Z)) :
  Balanced (fetch_args fuel uargv i argv).
Proof.
  revert i argv. induction fuel as [|n IH]; intros i argv h; cbn [fetch_args]; typ.
Qed.
#[export] Instance sys_exec_balanced : Balanced sys_exec.
Proof. by_typ sys_exec. Qed.
#[export] Instance pipe_undo_balanced (fd0 fd1 : Z) (rf wf : nat) : Balanced (pipe_undo fd0 fd1 rf wf).
Proof. by_typ pipe_undo. Qed.
#[export] Instance sys_pipe_balanced : Balanced sys_pipe.
Proof. by_typ sys_pipe. Qed.
Lemma syscalls_balanced num handler : syscalls num = Some handler -> Balanced handler.
Proof. unfold syscalls. repeat (destruct (_ =? _); [intros [= <-]; typeclasses eauto|]). done. Qed.

#[export] Instance syscall_balanced : Balanced syscall.
Proof.
  intros h. unfold syscall. do 2 (typ_step; [typ|]). cbv zeta. destruct (if (_ : bool) then _ else _) eqn:E; [|typ].
  destruct (_ && _) in E; [|done]. apply syscalls_balanced in E. typ.
Qed.

(** ** File Trap *)
#[export] Instance getcsr_balanced {A} (f : csrs -> A) : Balanced (getcsr f).
Proof. by_typ getcsr. Qed.
#[export] Instance cpuid_balanced : Balanced cpuid.
Proof. by_typ cpuid. Qed.
#[export] Instance setcsr_balanced (f : csrs -> csrs) : Balanced (setcsr f).
Proof. by_typ setcsr. Qed.
#[export] Instance intr_on_balanced : Balanced intr_on.
Proof. by_typ intr_on. Qed.
#[export] Instance intr_off_balanced : Balanced intr_off.
Proof. by_typ intr_off. Qed.
#[export] Instance trapinithart_balanced : Balanced trapinithart.
Proof. by_typ trapinithart. Qed.
#[export] Instance devintr_balanced : Balanced devintr.
Proof. by_typ devintr. Qed.
#[export] Instance usertrapret_balanced : Balanced usertrapret.
Proof. by_typ usertrapret. Qed.
#[export] Instance usertrap_end_balanced (i : nat) (which_dev : Z) : Balanced (usertrap_end i which_dev).
Proof. by_typ usertrap_end. Qed.
#[export] Instance usertrap_balanced : Balanced usertrap.
Proof. by_typ usertrap. Qed.
#[export] Instance kerneltrap_balanced : Balanced kerneltrap.
Proof. by_typ kerneltrap. Qed.
(** [forkret] starts with the lock [sched] was called with, and releases it. *)
Lemma typed_forkret i h w : k_cur (w_k w) = Some i -> k_held (w_k w) = LkProc i :: h ->
  Forall env_typed (w_env w) ->
  match forkret w with Ok _ w' => k_held (w_k w') = h /\ sizes (w_k w') = sizes (w_k w) | _ => True end.
Proof.
  intros Hc Hh He. unfold forkret.
  assert (E : curproc w = Ok i w) by (unfold curproc, myproc, bind, getk, gets; by rewrite Hc).
  rewrite (bind_Ok _ _ _ _ _ E).
  assert (T : typed (LkProc i :: h) (release (LkProc i) ;;; first <- getk k_first ;;
    when (negb (first =? 0)) (modk (fun k => k <| k_first := 0 |>) ;;; fsinit ROOTDEV) ;;; usertrapret)
    (fun _ => h)) by typ.
  specialize (T w Hh He). case_match; [|done..]. by destruct T as (? & ? & _).
Qed.
End Kernel.

(** * Back to user space *)

Section Exits.
Context {L : Layout} {U : Uninit}.

(** C23. The lock discipline of the kernel is a type discipline: a trap from user space
    - every system call, page fault, device and timer interrupt - that starts with no spinlock
    held and goes back to user space holds no spinlock then, on every path through the kernel,
    errors included, and the kernel's four tables have kept their sizes. *)
Theorem usertrap_locks w e w' :
  k_held (w_k w) = [] -> Forall env_typed (w_env w) -> usertrap w = Ok e w' ->
  k_held (w_k w') = [] /\ sizes (w_k w') = sizes (w_k w).
Proof.
  intros Hh He E. pose proof (usertrap_balanced [] w Hh He) as H. rewrite E in H. by destruct H as (? & ? & _).
Qed.
End Exits.

(** ** An example: [uptime], which takes and releases [tickslock] *)
Definition demo_ecall : world := (demo_trap 22) <| w_k ::= fun k =>
  k <| k_tf := {[ 77 := trapframe0 <| a7 := SYS_uptime |> ]} |> <| k_csr := Csrs 0 1000 0 8 0 0 0 0 |>
    <| k_ticks := 12 |> |> <| w_env := [fun k => k <| k_ticks ::= Z.add 1 |>] |>.

#[local] Existing Instances demo_layout demo_uninit.

Lemma usertrap_locks_witness : exists e w', usertrap demo_ecall = Ok e w' /\
  a0 <$> k_tf (w_k w') !! 77 = Some 12 /\ k_held (w_k w') = [] /\ sizes (w_k w') = [64; 30; 50; 100]%nat.
Proof.
  assert (Hr : (match usertrap demo_ecall with Ok _ w' => a0 <$> k_tf (w_k w') !! 77 | _ => None end) = Some 12)
    by (vm_compute; exact eq_refl).
  destruct (usertrap demo_ecall) as [e w'| | | |] eqn:E; [|done..].
  assert (He : Forall env_typed (w_env demo_ecall)) by (repeat constructor).
  destruct (usertrap_locks demo_ecall e w' eq_refl He E) as [Hh Hs].
  exists e, w'. split; [reflexivity|]. exact (conj Hr (conj Hh Hs)).
Defined.
