(* ===== verification/User.v ===== *)
(** User programs: the system calls they make, and the user library
    (user/ulib.c, user/printf.c).

    A user program is a function of the monad of the prelude over [user]: the calls it has
    made so far, and the kernel as a strategy [u_os] that answers a call from the calls up
    to it.  The kernel is not part of a user program; what a theorem needs of it is a
    hypothesis on the strategy.  A program that exits is [Blocked], and so is one that has
    made the [u_left] calls its run lasts: it does not go on.

    A pointer is the list of the bytes from it to the end of the object it points into;
    reading or writing past the end is undefined behaviour, [None] or [Fault].  A C string
    is such a list with a NUL in it. *)

From S2P Require Export Prelude.

(** * System calls (user/user.h) *)

Inductive call : Type :=
| CFork
| CExit (status : Z)
| CWait
| CPipe
| CWrite (fd : Z) (bs : list Z)
| CRead (fd n : Z)
| CClose (fd : Z)
| CKill (pid : Z)
| CExec (path : list Z) (argv : list (list Z))
| COpen (path : list Z) (mode : Z)
| CMknod (path : list Z) (major minor : Z)
| CUnlink (path : list Z)
| CFstat (fd : Z)
| CLink (old new : list Z)
| CMkdir (path : list Z)
| CChdir (path : list Z)
| CDup (fd : Z)
| CGetpid
| CSbrk (n : Z)
| CSleep (n : Z)
| CUptime
| CWaitx
| CSetpriority (pid priority : Z)
| CGetreadcount.

(** What a system call returns, and the bytes it stores through its pointer. *)
Record sysret : Type := SysRet { r_val : Z; r_data : list Z }.

Record user : Type := User { u_os : list call -> sysret; u_left : nat; u_calls : list call }.

Abbreviation U A := (M user A).

Definition sys (c : call) : U sysret := fun u =>
  let cs := u_calls u ++ [c] in
  match u_left u with
  | O => Blocked (User (u_os u) 0 cs)
  | S n => Ok (u_os u cs) (User (u_os u) n cs)
  end.
Definition sys_int (c : call) : U Z := r <- sys c ;; ret (r_val r).
Definition do_sys (c : call) : U unit := _ <- sys c ;; ret tt.

(** [exit] does not return. *)
Definition exit {A} (status : Z) : U A := fun u =>
  Blocked (User (u_os u) (u_left u) (u_calls u ++ [CExit status])).

(** A loop each round of which makes a system call. *)
Definition loop_calls {S R} (body : S -> U (S + R)) (s : S) : U R := fun u =>
  loop (Datatypes.S (u_left u)) body s u.

Definition write (fd : Z) (bs : list Z) : U Z := sys_int (CWrite fd bs).
(** The result and the bytes read; more of them than asked for would overrun the buffer. *)
Definition read (fd n : Z) : U (Z * list Z) :=
  r <- sys (CRead fd n) ;;
  if Z.of_nat (length (r_data r)) <=? Z.max 0 n then ret (r_val r, r_data r) else fault "read".
Definition open (path : list Z) (mode : Z) : U Z := sys_int (COpen path mode).
Definition close (fd : Z) : U unit := do_sys (CClose fd).

Lemma wp_sys E c os n cs (Q : sysret -> user -> Prop) :
  Q (os (cs ++ [c])) (User os n (cs ++ [c])) -> wp E (sys c) Q (User os (S n) cs).
Proof. done. Qed.

Lemma wp_read E fd k os n cs (Q : Z * list Z -> user -> Prop) :
  Z.of_nat (length (r_data (os (cs ++ [CRead fd k])))) <= Z.max 0 k ->
  Q (r_val (os (cs ++ [CRead fd k])), r_data (os (cs ++ [CRead fd k]))) (User os n (cs ++ [CRead fd k])) ->
  wp E (read fd k) Q (User os (S n) cs).
Proof.
  intros Hl HQ. unfold read. apply wp_bind, wp_sys. rewrite (proj2 (Z.leb_le _ _)) by done. by apply wp_ret.
Qed.

(** The bytes a trace of calls has written to a descriptor. *)
Definition written (fd : Z) (cs : list call) : list Z :=
  concat ((fun c => match c with CWrite fd' bs => if fd' =? fd then bs else [] | _ => [] end) <$> cs).

(** * user/ulib.c *)

Fixpoint strcpy (s t : list Z) : option (list Z) :=
  match t, s with
  | c :: t', _ :: s' => if c =? 0 then Some (0 :: s') else cons c <$> strcpy s' t'
  | _, _ => None
  end.

Fixpoint strcmp (p q : list Z) : option Z :=
  match p, q with
  | c :: p', d :: q' => if negb (c =? 0) && (c =? d) then strcmp p' q' else Some (c - d)
  | _, _ => None
  end.

Fixpoint strlen (s : list Z) : option nat :=
  match s with
  | [] => None
  | c :: s' => if c =? 0 then Some 0%nat else S <$> strlen s'
  end.

Fixpoint memset (dst : list Z) (c : Z) (n : nat) : option (list Z) :=
  match n, dst with
  | O, _ => Some dst
  | S n', _ :: dst' => cons (u8 c) <$> memset dst' c n'
  | S _, [] => None
  end.

(** The offset of the character, none for a null pointer. *)
Fixpoint strchr (s : list Z) (c : Z) : option (option nat) :=
  match s with
  | [] => None
  | x :: s' =>
    if x =? 0 then Some None
    else if x =? c then Some (Some 0%nat)
    else option_map S <$> strchr s' c
  end.

(** The bytes stored in [buf], which has room for [max]. *)
Fixpoint gets_loop (n : nat) (buf : list Z) : U (list Z) :=
  match n with
  | O => ret (buf ++ [0])
  | S n' =>
    let! (cc, d) := read 0 1 in
    if cc <? 1 then ret (buf ++ [0])
    else
      c <- from_option_or_fault "c" (head d) ;;
      if (c =? 10) || (c =? 13) then ret (buf ++ [c] ++ [0]) else gets_loop n' (buf ++ [c])
  end.
Definition gets (max : nat) : U (list Z) := gets_loop (max - 1) [].

(** The result and the [struct stat] read. *)
Definition stat (n : list Z) : U (Z * list Z) :=
  fd <- open n 0 ;;
  if fd <? 0 then ret (-1, [])
  else
    r <- sys (CFstat fd) ;;
    close fd ;;;
    ret (r_val r, r_data r).

(** [int] arithmetic: overflow is undefined. *)
Definition int_ok (x : Z) : bool := (-2147483648 <=? x) && (x <? 2147483648).
Definition as_int (x : Z) : option Z := if int_ok x then Some x else None.

(** [n*10 + *s++ - '0'], evaluated from the left. *)
Fixpoint atoi_loop (n : Z) (s : list Z) : option Z :=
  match s with
  | [] => None
  | c :: s' =>
    if (48 <=? c) && (c <=? 57) then
      x ← as_int (n * 10); x ← as_int (x + c); n ← as_int (x - 48); atoi_loop n s'
    else Some n
  end.
Definition atoi (s : list Z) : option Z := atoi_loop 0 s.

(** [memmove] within one object [o], between the offsets [d] and [s]. *)
Fixpoint move_up (n d s : nat) (o : list Z) : option (list Z) :=
  match n with
  | O => Some o
  | S n' => x ← o !! s; _ ← o !! d; move_up n' (S d) (S s) (<[d := x]> o)
  end.
Fixpoint move_down (n d s : nat) (o : list Z) : option (list Z) :=
  match n with
  | O => Some o
  | S n' => x ← o !! (s + n')%nat; _ ← o !! (d + n')%nat; move_down n' d s (<[(d + n')%nat := x]> o)
  end.
Definition memmove (d s n : nat) (o : list Z) : option (list Z) :=
  if (d <? s)%nat then move_up n d s o else move_down n d s o.
Definition memcpy (d s n : nat) (o : list Z) : option (list Z) := memmove d s n o.

Fixpoint memcmp (p1 p2 : list Z) (n : nat) : option Z :=
  match n, p1, p2 with
  | O, _, _ => Some 0
  | S n', c :: p1', d :: p2' => if negb (c =? d) then Some (c - d) else memcmp p1' p2' n'
  | _, _, _ => None
  end.

(** * user/printf.c *)

Definition digits : list Z := bytes "0123456789ABCDEF".

Definition putc (fd c : Z) : U unit := do_sys (CWrite fd [u8 c]).

(** The digits, the last one first; [buf] has sixteen bytes. *)
Definition printint_digits (x base : Z) : U (list Z) :=
  loop 17 (fun '(x, buf) =>
    d <- from_option_or_fault "digits" (digits !! Z.to_nat (x mod base)) ;;
    if (length buf <? 16)%nat then
      let x' := x / base in
      if negb (x' =? 0) then ret (inl (x', buf ++ [d])) else ret (inr (buf ++ [d]))
    else fault "buf") (x, []).

Definition printint (fd xx base : Z) (sgn : bool) : U unit :=
  let neg := sgn && (xx <? 0) in
  x <- (if neg then from_option_or_fault "int overflow" (as_int (- xx)) else ret (u32 xx)) ;;
  buf <- printint_digits x base ;;
  buf <- (if neg then if (length buf <? 16)%nat then ret (buf ++ [45]) else fault "buf"
          else ret buf) ;;
  for_do (rev buf) (putc fd).

Definition printptr (fd x : Z) : U unit :=
  putc fd 48 ;;;
  putc fd 120 ;;;
  for_do (Z.of_nat <$> seq 0 16) (fun i =>
    d <- from_option_or_fault "digits" (digits !! Z.to_nat (Z.shiftr (u64 (Z.shiftl x (4 * i))) 60)) ;;
    putc fd d).

(** An argument is a 64-bit register or a string. *)
Inductive uarg : Type := AVal (x : Z) | AStr (s : option (list Z)).

(** The loop over the format; [percent] is the state ['%']. *)
Fixpoint vprintf (fd : Z) (fmt : list Z) (percent : bool) (ap : list uarg) : U unit :=
  match fmt with
  | [] => ret tt
  | c :: fmt' =>
    if negb percent then
      if c =? 37 then vprintf fd fmt' true ap else putc fd c ;;; vprintf fd fmt' false ap
    else if c =? 100 (* d *) then
      match ap with
      | AVal x :: ap' => printint fd (s32 x) 10 true ;;; vprintf fd fmt' false ap'
      | _ => fault "va_arg"
      end
    else if c =? 108 (* l *) then
      match ap with
      | AVal x :: ap' => printint fd (s32 x) 10 false ;;; vprintf fd fmt' false ap'
      | _ => fault "va_arg"
      end
    else if c =? 120 (* x *) then
      match ap with
      | AVal x :: ap' => printint fd (s32 x) 16 false ;;; vprintf fd fmt' false ap'
      | _ => fault "va_arg"
      end
    else if c =? 112 (* p *) then
      match ap with
      | AVal x :: ap' => printptr fd x ;;; vprintf fd fmt' false ap'
      | _ => fault "va_arg"
      end
    else if c =? 115 (* s *) then
      match ap with
      | AStr s :: ap' => for_do (default (bytes "(null)") s) (putc fd) ;;; vprintf fd fmt' false ap'
      | _ => fault "va_arg"
      end
    else if c =? 99 (* c *) then
      match ap with
      | AVal x :: ap' => putc fd x ;;; vprintf fd fmt' false ap'
      | _ => fault "va_arg"
      end
    else if c =? 37 then putc fd c ;;; vprintf fd fmt' false ap
    else putc fd 37 ;;; putc fd c ;;; vprintf fd fmt' false ap
  end.

Definition fprintf (fd : Z) (fmt : list Z) (ap : list uarg) : U unit := vprintf fd fmt false ap.
Definition printf (fmt : list Z) (ap : list uarg) : U unit := vprintf 1 fmt false ap.
