(* ===== verification/Shell.v ===== *)
(** The shell: user/sh.c.

    The parser works on a buffer with a NUL-terminated line in it.  A pointer into the
    buffer is an offset; [ps_s] is the parser's position (the variable [s] of [parsecmd],
    which every function updates through [ps]), and [ps_err] what was printed on
    descriptor 2.  A string of the command tree is the pair of its start and its end
    ([argv] and [eargv], [file] and [efile]) until [nulterminate] has stored the NULs, and
    a C string from then on: [cmd] is a tree over either.  The memory of the nodes comes
    from [malloc] and is taken to be there.  Theorems are in files Parse and Show. *)

From S2P Require Export User.

(** * Commands *)

Definition MAXARGS : nat := 10.
Definition O_RDONLY : Z := 0.
Definition O_WRONLY : Z := 1.
Definition O_RDWR : Z := 2.
Definition O_CREATE : Z := 512.
Definition O_TRUNC : Z := 1024.

Inductive cmd (S : Type) : Type :=
| EXEC (argv : list S)
| REDIR (c : cmd S) (file : S) (mode fd : Z)
| PIPE (left right : cmd S)
| LIST (left right : cmd S)
| BACK (c : cmd S).
Arguments EXEC {S} argv.
Arguments REDIR {S} c file mode fd.
Arguments PIPE {S} left right.
Arguments LIST {S} left right.
Arguments BACK {S} c.

(** * The parser *)

Record parser : Type := Parser { ps_buf : list Z; ps_s : nat; ps_err : list Z }.
Abbreviation P A := (M parser A).

Definition getp {A} (f : parser -> A) : P A := Prelude.gets f.
(** The character at an offset. *)
Definition char_at (s : nat) : P Z := b <- getp ps_buf ;; from_option_or_fault "buf" (b !! s).
Definition set_pos (s : nat) : P unit := modify (fun p => Parser (ps_buf p) s (ps_err p)).
Definition eprint (bs : list Z) : P unit := modify (fun p => Parser (ps_buf p) (ps_s p) (ps_err p ++ bs)).
(** The shell's [panic]. *)
Definition die {A} (s : string) : P A := eprint (line s) ;;; panic s.

Definition is_in (cs : list Z) (c : Z) : bool :=
  match strchr (cs ++ [0]) c with Some (Some _) => true | _ => false end.
Definition whitespace : list Z := [32; 9; 13; 10; 11].
Definition symbols : list Z := bytes "<|>&;()".

(** [while(s < es && ...) s++;] *)
Definition skip_while (ok : Z -> bool) (es s : nat) : P nat :=
  loop (S (es - s)) (fun s =>
    if (s <? es)%nat then
      c <- char_at s ;; if ok c then ret (inl (S s)) else ret (inr s)
    else ret (inr s)) s.

(** The token, its start and its end. *)
Definition gettoken (es : nat) : P (Z * nat * nat) :=
  s <- getp ps_s ;;
  q <- skip_while (is_in whitespace) es s ;;
  c <- char_at q ;;
  let! (tok, eq) :=
    if c =? 0 then ret (c, q)
    else if is_in (bytes "|();&<") c then ret (c, S q)
    else if c =? 62 (* > *) then
      c' <- char_at (S q) ;;
      if c' =? 62 then ret (43 (* + *), S (S q)) else ret (c, S q)
    else
      s <- skip_while (fun c => negb (is_in whitespace c) && negb (is_in symbols c)) es q ;;
      ret (97 (* a *), s) in
  s <- skip_while (is_in whitespace) es eq ;;
  set_pos s ;;;
  ret (tok, q, eq).

Definition peek (es : nat) (toks : list Z) : P bool :=
  s <- getp ps_s ;;
  s <- skip_while (is_in whitespace) es s ;;
  set_pos s ;;;
  c <- char_at s ;;
  ret (negb (c =? 0) && is_in toks c).

(** A string of the tree while it is parsed. *)
Definition span : Type := nat * nat.

Definition parseredirs (c : cmd span) (es : nat) : P (cmd span) :=
  loop (S es) (fun c =>
    p <- peek es (bytes "<>") ;;
    if p : bool then
      let! (tok, _, _) := gettoken es in
      let! (t, q, eq) := gettoken es in
      if negb (t =? 97) then die "missing file for redirection"
      else if tok =? 60 then ret (inl (REDIR c (q, eq) O_RDONLY 0))
      else if tok =? 62 then ret (inl (REDIR c (q, eq) (Z.lor (Z.lor O_WRONLY O_CREATE) O_TRUNC) 1))
      else if tok =? 43 then ret (inl (REDIR c (q, eq) (Z.lor O_WRONLY O_CREATE) 1))
      else ret (inl c)
    else ret (inr c)) c.

(** [cmd->argv[argc] = q] where [cmd] is the [EXEC] node inside the redirections. *)
Fixpoint add_arg {S} (c : cmd S) (a : S) : cmd S :=
  match c with
  | EXEC argv => EXEC (argv ++ [a])
  | REDIR c f m fd => REDIR (add_arg c a) f m fd
  | _ => c
  end.

(** The part of [parseexec] that parses a simple command. *)
Definition parsesimple (es : nat) : P (cmd span) :=
  c <- parseredirs (EXEC []) es ;;
  loop (S es) (fun '(c, argc) =>
    p <- peek es (bytes "|)&;") ;;
    if p : bool then ret (inr c)
    else
      let! (tok, q, eq) := gettoken es in
      if tok =? 0 then ret (inr c)
      else if negb (tok =? 97) then die "syntax"
      else
        let c := add_arg c (q, eq) in
        let argc := S argc in
        if (MAXARGS <=? argc)%nat then die "too many args"
        else c <- parseredirs c es ;; ret (inl (c, argc))) (c, 0%nat).

(** The four functions call one another; a call one level down has one unit of fuel less. *)
Fixpoint parseline (fuel es : nat) : P (cmd span) :=
  match fuel with
  | O => out_of_fuel
  | S n =>
    c <- parsepipe n es ;;
    c <- loop (S es) (fun c =>
      p <- peek es (bytes "&") ;;
      if p : bool then gettoken es ;;; ret (inl (BACK c)) else ret (inr c)) c ;;
    p <- peek es (bytes ";") ;;
    if p : bool then gettoken es ;;; c' <- parseline n es ;; ret (LIST c c') else ret c
  end
with parsepipe (fuel es : nat) : P (cmd span) :=
  match fuel with
  | O => out_of_fuel
  | S n =>
    c <- parseexec n es ;;
    p <- peek es (bytes "|") ;;
    if p : bool then gettoken es ;;; c' <- parsepipe n es ;; ret (PIPE c c') else ret c
  end
with parseexec (fuel es : nat) : P (cmd span) :=
  match fuel with
  | O => out_of_fuel
  | S n =>
    p <- peek es (bytes "(") ;;
    if p : bool then parseblock n es else parsesimple es
  end
with parseblock (fuel es : nat) : P (cmd span) :=
  match fuel with
  | O => out_of_fuel
  | S n =>
    p <- peek es (bytes "(") ;;
    if negb p then die "parseblock"
    else
      gettoken es ;;;
      c <- parseline n es ;;
      p <- peek es (bytes ")") ;;
      if negb p then die "syntax - missing )"
      else gettoken es ;;; parseredirs c es
  end.

(** Four levels for each character, and four for the end of the line. *)
Definition parse_fuel (es : nat) : nat := 4 * (es + 2).

(** [*p = 0] *)
Definition put_nul (p : nat) : P unit :=
  b <- getp ps_buf ;;
  if (p <? length b)%nat then modify (fun st => Parser (<[p := 0]> b) (ps_s st) (ps_err st)) else fault "buf".

Fixpoint nulterminate (c : cmd span) : P unit :=
  match c with
  | EXEC argv => for_do argv (fun a => put_nul (snd a))
  | REDIR c f _ _ => nulterminate c ;;; put_nul (snd f)
  | PIPE l r => nulterminate l ;;; nulterminate r
  | LIST l r => nulterminate l ;;; nulterminate r
  | BACK c => nulterminate c
  end.

(** A C string from an offset of the buffer on. *)
Fixpoint cstring (l : list Z) : list Z :=
  match l with
  | [] => []
  | c :: l' => if c =? 0 then [] else c :: cstring l'
  end.

Definition parsecmd : P (cmd span) :=
  b <- getp ps_buf ;;
  es <- from_option_or_fault "strlen" (strlen b) ;;
  c <- parseline (parse_fuel es) es ;;
  peek es [] ;;;
  s <- getp ps_s ;;
  if negb (s =? es)%nat then
    eprint (bytes "leftovers: " ++ cstring (drop s b) ++ [10]) ;;;
    die "syntax"
  else nulterminate c ;;; ret c.

(** The tree with the strings its pointers point to. *)
Fixpoint strings (b : list Z) (c : cmd span) : cmd (list Z) :=
  match c with
  | EXEC argv => EXEC ((fun a => cstring (drop (fst a) b)) <$> argv)
  | REDIR c f m fd => REDIR (strings b c) (cstring (drop (fst f) b)) m fd
  | PIPE l r => PIPE (strings b l) (strings b r)
  | LIST l r => LIST (strings b l) (strings b r)
  | BACK c => BACK (strings b c)
  end.

(** * Running commands *)

(** [panic] in the shell's own process. *)
Definition sh_panic {A} (s : string) : U A := fprintf 2 (bytes "%s" ++ [10]) [AStr (Some (bytes s))] ;;; exit 1.

Definition fork1 : U Z :=
  pid <- sys_int CFork ;;
  if pid =? -1 then sh_panic "fork" else ret pid.

Definition wait0 : U unit := do_sys CWait.

Fixpoint runcmd (c : cmd (list Z)) : U unit :=
  match c with
  | EXEC [] => exit 1
  | EXEC (a0 :: _ as argv) =>
    do_sys (CExec a0 argv) ;;;
    fprintf 2 (bytes "exec %s failed" ++ [10]) [AStr (Some a0)] ;;;
    exit 0
  | REDIR c file mode fd =>
    close fd ;;;
    r <- open file mode ;;
    if r <? 0 then
      fprintf 2 (bytes "open %s failed" ++ [10]) [AStr (Some file)] ;;;
      exit 1
    else runcmd c ;;; exit 0
  | LIST l r =>
    pid <- fork1 ;;
    when (pid =? 0) (runcmd l) ;;;
    wait0 ;;;
    runcmd r ;;;
    exit 0
  | PIPE l r =>
    p <- sys CPipe ;;
    if r_val p <? 0 then sh_panic "pipe"
    else
      p0 <- from_option_or_fault "p" (r_data p !! 0%nat) ;;
      p1 <- from_option_or_fault "p" (r_data p !! 1%nat) ;;
      pid <- fork1 ;;
      when (pid =? 0)
        (close 1 ;;; do_sys (CDup p1) ;;; close p0 ;;; close p1 ;;; runcmd l) ;;;
      pid <- fork1 ;;
      when (pid =? 0)
        (close 0 ;;; do_sys (CDup p0) ;;; close p0 ;;; close p1 ;;; runcmd r) ;;;
      close p0 ;;;
      close p1 ;;;
      wait0 ;;;
      wait0 ;;;
      exit 0
  | BACK c =>
    pid <- fork1 ;;
    when (pid =? 0) (runcmd c) ;;;
    exit 0
  end.

(** The result and what [buf] holds. *)
Definition getcmd (nbuf : nat) : U (Z * list Z) :=
  write 2 (bytes "$ ") ;;;
  l <- User.gets nbuf ;;
  let buf := l ++ replicate (nbuf - length l) 0 in
  if bool_decide (buf !! 0%nat = Some 0) then ret (-1, buf) else ret (0, buf).

(** [parsecmd] in a child of the shell. *)
Definition parse_in (buf : list Z) : U (cmd (list Z)) := fun u =>
  match parsecmd (Parser buf 0 []) with
  | Ok c st => ret (strings (ps_buf st) c) u
  | Panic _ st => (for_do (ps_err st) (putc 2) ;;; exit 1) u
  | Fault s _ => Fault s u
  | Blocked _ => Blocked u
  | OutOfFuel => OutOfFuel
  end.

Definition main : U unit :=
  (* Ensure that three file descriptors are open. *)
  loop_calls (fun _ : unit =>
    fd <- open (bytes "console") O_RDWR ;;
    if fd >=? 0 then
      if fd >=? 3 then close fd ;;; ret (inr tt) else ret (inl tt)
    else ret (inr tt)) tt ;;;
  (* Read and run input commands. *)
  loop_calls (fun _ : unit =>
    let! (r, buf) := getcmd 100 in
    if r >=? 0 then
      if bool_decide (take 3 buf = bytes "cd ") then
        (* Chdir must be called by the parent, not the child. *)
        n <- from_option_or_fault "strlen" (strlen buf) ;;
        let path := cstring (drop 3 (<[(n - 1)%nat := 0]> buf)) in
        r <- sys_int (CChdir path) ;;
        when (r <? 0) (fprintf 2 (bytes "cannot cd %s" ++ [10]) [AStr (Some path)]) ;;;
        ret (inl tt)
      else
        pid <- fork1 ;;
        when (pid =? 0) (c <- parse_in buf ;; runcmd c) ;;;
        wait0 ;;;
        ret (inl tt)
    else ret (inr tt)) tt ;;;
  exit 0.
