(* ===== verification/Parse.v ===== *)
(** The shell's parser is total and correct.

    On every NUL-terminated line [parsecmd] terminates without leaving its buffer and
    either returns a well-formed tree or stops with one of the shell's syntax errors.  That
    it inverts printing is file Show. *)

From S2P Require Export Shell.

(** * Characters *)

Definition is_word (c : Z) : bool := negb (is_in whitespace c) && negb (is_in symbols c).

Lemma strchr_spec cs c : Forall (fun x => x <> 0) cs ->
  ((c ∈ cs) /\ exists i, strchr (cs ++ [0]) c = Some (Some i)) \/ ((c ∉ cs) /\ strchr (cs ++ [0]) c = Some None).
Proof.
  induction 1 as [|x cs Hx Hcs IH]; cbn [app strchr]; [right; split; [apply not_elem_of_nil|done]|].
  rewrite (proj2 (Z.eqb_neq x 0)) by done. setoid_rewrite elem_of_cons.
  destruct (Z.eqb_spec x c) as [->|Hn]; [left; split; [by left|by exists 0%nat]|].
  destruct IH as [[Hi [i ->]]|[Hi ->]]; [left; split; [by right|by exists (S i)]|right].
  split; [by intros [?|?]|done].
Qed.

Lemma is_in_spec cs c : Forall (fun x => x <> 0) cs -> is_in cs c = true <-> c ∈ cs.
Proof.
  intros H. unfold is_in. destruct (strchr_spec cs c H) as [[Hc [i ->]]|[Hc ->]]; split; try done.
Qed.

Lemma is_in_false cs c : Forall (fun x => x <> 0) cs -> is_in cs c = false <-> c ∉ cs.
Proof. intros H. rewrite <- (is_in_spec cs c H). by destruct (is_in cs c). Qed.

Lemma nonzero_lit (l : list Z) : forallb (fun x => negb (x =? 0)) l = true -> Forall (fun x => x <> 0) l.
Proof.
  induction l as [|x l IH]; cbn; [constructor|]. intros [Hx Hl]%andb_true_iff. constructor; [|by apply IH].
  intros ->. done.
Qed.

(** A character in a literal set, decided. *)
Ltac lit_in := rewrite is_in_spec by (by apply nonzero_lit).
Ltac lit_out := rewrite is_in_false by (by apply nonzero_lit).

Lemma is_word_spec c : is_word c = true <-> (c ∉ whitespace) /\ (c ∉ symbols).
Proof.
  unfold is_word. rewrite andb_true_iff, !negb_true_iff.
  rewrite !is_in_false by (by apply nonzero_lit). done.
Qed.

(** The words of a line: its longest stretches without blank and symbol. *)
Fixpoint words_from (cur l : list Z) : list (list Z) :=
  match l with
  | [] => if cur is [] then [] else [cur]
  | c :: l' => if is_word c then words_from (cur ++ [c]) l' else (if cur is [] then [] else [cur]) ++ words_from [] l'
  end.
Definition line_words : list Z -> list (list Z) := words_from [].

Lemma line_words_skip c r : is_word c = false -> line_words (c :: r) = line_words r.
Proof. intros H. unfold line_words. cbn. by rewrite H. Qed.

Lemma line_words_word w r : w <> [] -> Forall (fun c => is_word c = true) w ->
  match r with [] => True | c :: _ => is_word c = false end -> line_words (w ++ r) = w :: line_words r.
Proof.
  intros Hne Hw Hr. unfold line_words. assert (H : forall cur, words_from cur (w ++ r) = words_from (cur ++ w) r).
  { clear Hne. induction Hw as [|c w Hc _ IH]; intros cur; cbn; [by rewrite app_nil_r|].
    rewrite Hc, IH. by rewrite <- app_assoc. }
  rewrite H. cbn [app]. destruct w as [|x w]; [done|]. destruct r as [|c r]; [done|]. cbn. by rewrite Hr.
Qed.

(** * Skipping characters *)

Fixpoint drop_while (ok : Z -> bool) (r : list Z) : list Z :=
  match r with
  | c :: r' => if ok c then drop_while ok r' else r
  | [] => []
  end.
Definition trim : list Z -> list Z := drop_while (is_in whitespace).

Lemma drop_while_suffix ok r : drop_while ok r `suffix_of` r.
Proof. induction r as [|c r IH]; cbn; [done|]. destruct (ok c); [by apply suffix_cons_r|done]. Qed.
Lemma drop_while_head ok r c r' : drop_while ok r = c :: r' -> ok c = false.
Proof. induction r as [|x r IH]; cbn; [done|]. destruct (ok x) eqn:E; [done|]. by intros [= <- <-]. Qed.
Lemma drop_while_length ok r : (length (drop_while ok r) <= length r)%nat.
Proof. apply suffix_length, drop_while_suffix. Qed.
Lemma trim_length r : (length (trim r) <= length r)%nat.
Proof. apply drop_while_length. Qed.
Lemma trim_suffix r : trim r `suffix_of` r.
Proof. apply drop_while_suffix. Qed.
Lemma trim_trim r : trim (trim r) = trim r.
Proof.
  unfold trim. destruct (drop_while _ r) as [|c r'] eqn:E; [done|]. cbn. by rewrite (drop_while_head _ _ _ _ E).
Qed.
Lemma trim_cons c r : c ∉ whitespace -> trim (c :: r) = c :: r.
Proof. intros H. unfold trim. cbn. by rewrite (proj2 (is_in_false whitespace c ltac:(by apply nonzero_lit))). Qed.
Lemma trim_space r : trim (32 :: r) = trim r.
Proof. done. Qed.

(** The token at the start of a trimmed text, and what follows it. *)
Definition lex (r : list Z) : Z * list Z :=
  match r with
  | [] => (0, [])
  | c :: r1 =>
    if is_in (bytes "|();&<") c then (c, r1)
    else if c =? 62 then
      match r1 with
      | c' :: r2 => if c' =? 62 then (43, r2) else (62, r1)
      | [] => (62, [])
      end
    else (97, drop_while is_word r)
  end.

Lemma lex_suffix r : (lex r).2 `suffix_of` r.
Proof.
  destruct r as [|c r1]; cbn; [done|]. destruct (is_in _ c); [by apply suffix_cons_r|].
  destruct (c =? 62); [|apply (drop_while_suffix is_word (c :: r1))]. destruct r1 as [|c' r2]; [by apply suffix_nil|].
  destruct (c' =? 62); cbn; [by do 2 apply suffix_cons_r|by apply suffix_cons_r].
Qed.

(** A token other than the end of the line has a character. *)
Lemma lex_length r : r <> [] -> trim r = r -> (length (lex r).2 < length r)%nat.
Proof.
  intros Hr Ht. destruct r as [|c r1]; [done|]. cbn. destruct (is_in _ c) eqn:E1; [cbn; lia|].
  destruct (c =? 62) eqn:E2.
  - destruct r1 as [|c' r2]; cbn; [lia|]. destruct (c' =? 62); cbn; lia.
  - cbn. assert (Hw : is_word c = true).
    { apply is_word_spec. split.
      - intros Hc. unfold trim in Ht. cbn in Ht.
        rewrite (proj2 (is_in_spec whitespace c ltac:(by apply nonzero_lit)) Hc) in Ht.
        apply (f_equal length) in Ht. pose proof (drop_while_length (is_in whitespace) r1). cbn in Ht. lia.
      - apply (is_in_false (bytes "|();&<")) in E1; [|by apply nonzero_lit]. apply Z.eqb_neq in E2.
        unfold symbols. cbn in *. set_solver. }
    rewrite Hw. pose proof (drop_while_length is_word r1). lia.
Qed.

(** * The tokenizer *)

Section Line.
(** The buffer, and the NUL that ends the line. *)
Context (B : list Z) (es : nat) (Hes : strlen B = Some es).

Definition text : list Z := take es B.

Lemma strlen_spec b n : strlen b = Some n ->
  b !! n = Some 0 /\ (n < length b)%nat /\ Forall (fun c => c <> 0) (take n b).
Proof.
  revert n. induction b as [|c b IH]; intros n; cbn; [done|].
  destruct (Z.eqb_spec c 0) as [->|Hc]; [intros [= <-]; split_and!; [done|cbn; lia|constructor]|].
  intros (m & Hm & ->)%fmap_Some. destruct (IH m Hm) as (? & ? & ?). split_and!; [done|lia|by constructor].
Qed.

Lemma length_text : length text = es.
Proof. unfold text. rewrite length_take. pose proof (strlen_spec B es Hes). lia. Qed.
Lemma text_nonzero : Forall (fun c => c <> 0) text.
Proof. apply (strlen_spec B es Hes). Qed.

(** The offset at which the rest [r] of the line starts, and the parser there. *)
Definition rest (r : list Z) : Prop := r `suffix_of` text.
Definition pos (r : list Z) : nat := (es - length r)%nat.
Definition at_rest (r e : list Z) : parser := Parser B (pos r) e.

Lemma rest_suffix r r' : r' `suffix_of` r -> rest r -> rest r'.
Proof. unfold rest. intros. by transitivity r. Qed.
Lemma rest_length r : rest r -> (length r <= es)%nat.
Proof. intros H. rewrite <- length_text. by apply suffix_length. Qed.
Lemma rest_nonzero r : rest r -> Forall (fun c => c <> 0) r.
Proof. intros [k Hk]. pose proof text_nonzero as H. rewrite Hk in H. by apply Forall_app in H as [_ ?]. Qed.
Lemma drop_pos r : rest r -> drop (pos r) text = r.
Proof.
  intros [k Hk]. unfold pos. rewrite <- length_text, Hk, length_app.
  replace (length k + length r - length r)%nat with (length k) by lia. apply drop_app_length.
Qed.

Lemma lookup_pos r i : rest r -> (i < length r)%nat -> B !! (pos r + i)%nat = r !! i.
Proof.
  intros Hr Hi. pose proof (rest_length r Hr). rewrite <- (drop_pos r Hr) at 2. rewrite lookup_drop.
  unfold text. rewrite lookup_take_lt; [done|]. unfold pos. lia.
Qed.
Lemma lookup_es : B !! es = Some 0.
Proof. apply (strlen_spec B es Hes). Qed.

Definition first (r : list Z) : Z := match r with c :: _ => c | [] => 0 end.

Lemma lookup_first r : rest r -> B !! pos r = Some (first r).
Proof.
  intros Hr. destruct r as [|c r]; cbn.
  - unfold pos. rewrite Nat.sub_0_r. apply lookup_es.
  - rewrite <- (Nat.add_0_r (pos _)), lookup_pos by (done || cbn; lia). done.
Qed.
Lemma pos_cons c r : rest (c :: r) -> S (pos (c :: r)) = pos r.
Proof. intros H%rest_length. unfold pos. cbn in *. lia. Qed.
Lemma pos_lt c r : rest (c :: r) -> (pos (c :: r) < es)%nat.
Proof. intros H%rest_length. unfold pos. cbn in *. lia. Qed.
Lemma pos_nil : pos [] = es.
Proof. unfold pos. cbn. lia. Qed.
Lemma rest_cons c r : rest (c :: r) -> rest r.
Proof. apply rest_suffix. by apply suffix_cons_r. Qed.
Lemma rest_trim r : rest r -> rest (trim r).
Proof. apply rest_suffix, trim_suffix. Qed.
Lemma rest_lex r : rest r -> rest (lex r).2.
Proof. apply rest_suffix, lex_suffix. Qed.
Hint Resolve rest_cons rest_trim rest_lex : core.

(** A place between words. *)
Definition between (r : list Z) : Prop := rest r /\ exists ws, line_words text = ws ++ line_words r.

Lemma between_rest r : between r -> rest r.
Proof. by intros []. Qed.
Lemma line_words_trim r : line_words (trim r) = line_words r.
Proof.
  induction r as [|c r IH]; [done|]. unfold trim in *. cbn [drop_while]. destruct (is_in whitespace c) eqn:Ec; [|done].
  rewrite IH, line_words_skip; [done|]. unfold is_word. by rewrite Ec.
Qed.
Lemma between_trim r : between r -> between (trim r).
Proof. intros [Hr Hw]. split; [by auto|]. by rewrite line_words_trim. Qed.

Section Rules.
Context (E : xpost parser).

Lemma wp_getp {A} (f : parser -> A) (Q : A -> parser -> Prop) st : Q (f st) st -> wp E (getp f) Q st.
Proof. done. Qed.

Lemma wp_char_at r e r0 (Q : Z -> parser -> Prop) : rest r -> Q (first r) (at_rest r0 e) ->
  wp E (char_at (pos r)) Q (at_rest r0 e).
Proof.
  intros Hr HQ. apply wp_bind, wp_getp. cbn [ps_buf at_rest]. by rewrite lookup_first.
Qed.

Lemma wp_skip_while ok r e r0 (Q : nat -> parser -> Prop) : rest r ->
  Q (pos (drop_while ok r)) (at_rest r0 e) -> wp E (skip_while ok es (pos r)) Q (at_rest r0 e).
Proof.
  intros Hr HQ. unfold skip_while. apply (wp_loop E (fun s st => st = at_rest r0 e /\
    exists r', rest r' /\ s = pos r' /\ drop_while ok r' = drop_while ok r) (fun s _ => (es - s)%nat)).
  - split; [done|]. by exists r.
  - lia.
  - intros s st (-> & r' & Hr' & -> & Hd). destruct r' as [|c r'].
    + rewrite pos_nil, Nat.ltb_irrefl. apply wp_ret. cbn in Hd. rewrite <- Hd in HQ. by rewrite pos_nil in HQ.
    + rewrite (proj2 (Nat.ltb_lt _ _)) by by apply (pos_lt c). wp_step. apply wp_char_at; [done|]. cbn [first].
      cbn in Hd. destruct (ok c); apply wp_ret.
      * split; [split; [done|]; exists r'; rewrite (pos_cons c) by done; eauto|].
        pose proof (rest_length _ Hr'). rewrite (pos_cons c) by done. unfold pos in *. cbn in *. lia.
      * by rewrite Hd.
Qed.

Lemma wp_set_pos r r0 e (Q : unit -> parser -> Prop) :
  Q tt (at_rest r e) -> wp E (set_pos (pos r)) Q (at_rest r0 e).
Proof. done. Qed.

Lemma wp_peek toks r e (Q : bool -> parser -> Prop) : rest r ->
  Q (negb (first (trim r) =? 0) && is_in toks (first (trim r))) (at_rest (trim r) e) ->
  wp E (peek es toks) Q (at_rest r e).
Proof.
  intros Hr HQ. unfold peek. wp_step. apply wp_getp. cbn [ps_s at_rest].
  wp_step. apply wp_skip_while; [done|]. wp_step. apply wp_set_pos. wp_step. apply wp_char_at; [by auto|].
  by apply wp_ret.
Qed.

Lemma wp_gettoken r e (Q : Z * nat * nat -> parser -> Prop) : rest r ->
  Q ((lex (trim r)).1, pos (trim r), pos (lex (trim r)).2) (at_rest (trim (lex (trim r)).2) e) ->
  wp E (gettoken es) Q (at_rest r e).
Proof.
  intros Hr HQ. unfold gettoken. wp_step. apply wp_getp. cbn [ps_s at_rest].
  wp_step. apply wp_skip_while; [done|]. change (drop_while (is_in whitespace) r) with (trim r).
  assert (Hr1 : rest (trim r)) by auto. set (r1 := trim r) in *.
  wp_step. apply wp_char_at; [done|]. wp_step.
  apply (wp_mono E _ (fun x st => x = ((lex r1).1, pos (lex r1).2) /\ st = at_rest r e)).
  - pose proof (rest_nonzero _ Hr1) as Hnz. destruct r1 as [|c r2] eqn:Er1.
    { by apply wp_ret. }
    apply Forall_inv in Hnz. cbn [first]. rewrite (proj2 (Z.eqb_neq _ _) Hnz). unfold lex.
    destruct (is_in (bytes "|();&<") c); [apply wp_ret; by rewrite pos_cons|].
    destruct (Z.eqb_spec c 62) as [->|_].
    + rewrite pos_cons by done. wp_step. apply wp_char_at; [by eauto|].
      destruct r2 as [|c' r3]; cbn [first]; [by apply wp_ret|].
      destruct (c' =? 62); apply (wp_ret E); [|done]. by rewrite pos_cons by eauto.
    + wp_step. apply wp_skip_while; [done|]. by apply wp_ret.
  - intros [tok eq] st [[= -> ->] ->]. cbn beta iota. wp_step.
    apply wp_skip_while; [by auto|]. wp_step. apply wp_set_pos. by apply wp_ret.
Qed.
End Rules.

(** * Command trees *)

(** A word of the line: not empty, and without NUL, blank or symbol. *)
Definition valid_word (w : list Z) : Prop := w <> [] /\ Forall (fun c => c <> 0 /\ is_word c = true) w.
Definition valid_redir (mode fd : Z) : Prop := (mode, fd) ∈ [(0, 0); (1537, 1); (513, 1)].

(** The trees the parser builds. *)
Fixpoint well_formed (c : cmd (list Z)) : Prop :=
  match c with
  | EXEC argv => Forall valid_word argv /\ (length argv < MAXARGS)%nat
  | REDIR c file mode fd => well_formed c /\ valid_word file /\ valid_redir mode fd
  | PIPE l r => well_formed l /\ well_formed r
  | LIST l r => well_formed l /\ well_formed r
  | BACK c => well_formed c
  end.

Definition delim (r : list Z) : Prop := match r with [] => True | c :: _ => is_word c = false end.

(** Every string of the tree has the property. *)
Fixpoint all_strings (V : list Z -> Prop) (c : cmd (list Z)) : Prop :=
  match c with
  | EXEC argv => Forall V argv
  | REDIR c file _ _ => all_strings V c /\ V file
  | PIPE l r => all_strings V l /\ all_strings V r
  | LIST l r => all_strings V l /\ all_strings V r
  | BACK c => all_strings V c
  end.

(** The two offsets delimit the word in the buffer. *)
Definition span_is (w : list Z) (a : span) : Prop := exists r,
  rest (w ++ r) /\ valid_word w /\ delim r /\ a = (pos (w ++ r), pos r).

Fixpoint tree_is (cs : cmd (list Z)) (c : cmd span) : Prop :=
  match cs, c with
  | EXEC ws, EXEC argv => Forall2 span_is ws argv
  | REDIR cs w m fd, REDIR c f m' fd' => tree_is cs c /\ span_is w f /\ m = m' /\ fd = fd'
  | PIPE ls rs, PIPE l r => tree_is ls l /\ tree_is rs r
  | LIST ls rs, LIST l r => tree_is ls l /\ tree_is rs r
  | BACK cs, BACK c => tree_is cs c
  | _, _ => False
  end.

(** The arguments of the command inside the redirections. *)
Fixpoint args {S} (c : cmd S) : nat :=
  match c with EXEC argv => length argv | REDIR c _ _ _ => args c | _ => 0 end.

Lemma drop_while_split ok r : exists w, r = w ++ drop_while ok r /\ Forall (fun c => ok c = true) w.
Proof.
  induction r as [|c r (w & Hw & Hok)]; cbn; [by exists []|]. destruct (ok c) eqn:E.
  - exists (c :: w). split; [cbn; by f_equal|by constructor].
  - by exists [].
Qed.

Lemma delim_drop_while r : delim (drop_while is_word r).
Proof. destruct (drop_while is_word r) eqn:E; [done|]. by apply drop_while_head in E. Qed.

Lemma not_word c : c ∈ symbols -> is_word c = false.
Proof. intros Hc. apply not_true_iff_false. rewrite is_word_spec. by intros [_ ?]. Qed.

Lemma line_words_split r : exists ws, line_words r = ws ++ line_words (drop_while is_word r).
Proof.
  destruct (drop_while_split is_word r) as (w & Hw & Hok). destruct (decide (w = [])) as [->|Hne].
  { exists []. by rewrite Hw at 1. }
  exists [w]. rewrite Hw at 1. apply line_words_word; [done|done|]. apply (delim_drop_while r).
Qed.

Lemma line_words_lex r : exists ws, line_words r = ws ++ line_words (lex r).2.
Proof.
  destruct r as [|c r1]; [by exists []|]. unfold lex. destruct (is_in (bytes "|();&<") c) eqn:E1.
  - exists []. apply line_words_skip, not_word. apply is_in_spec in E1; [|by apply nonzero_lit].
    unfold symbols. cbn in *. set_solver.
  - assert (Hgt : is_word 62 = false) by done. destruct (Z.eqb_spec c 62) as [->|_]; [|apply line_words_split].
    exists []. destruct r1 as [|c' r2]; [done|]. destruct (Z.eqb_spec c' 62) as [->|_].
    + by rewrite !line_words_skip.
    + by rewrite line_words_skip.
Qed.

Lemma between_lex r : between r -> between (lex r).2.
Proof.
  intros [Hr [ws Hw]]. split; [by auto|]. destruct (line_words_lex r) as [ws' Hw']. exists (ws ++ ws').
  by rewrite Hw, Hw', app_assoc.
Qed.
Hint Resolve between_rest between_trim between_lex : core.

Lemma lex_word r : rest r -> trim r = r -> (lex r).1 = 97 -> exists w, span_is w (pos r, pos (lex r).2) /\
  line_words r = w :: line_words (lex r).2.
Proof.
  intros Hr Ht H. pose proof (rest_nonzero r Hr) as Hnz.
  assert (Hne : r <> []) by (by intros ->). pose proof (lex_length r Hne Ht) as Hlt.
  assert (Hd : (lex r).2 = drop_while is_word r).
  { destruct r as [|c r1]; [done|]. unfold lex in *. destruct (is_in (bytes "|();&<") c) eqn:E1.
    - cbn in H. subst c. done.
    - destruct (c =? 62); [|done]. destruct r1 as [|c' r2]; [done|]. by destruct (c' =? 62). }
  rewrite Hd in *. destruct (drop_while_split is_word r) as (w & Hw & Hok). exists w.
  assert (Hwn : w <> []) by (intros ->; cbn in Hw; rewrite <- Hw in Hlt; lia).
  split; [|rewrite Hw at 1; apply line_words_word; [done|done|apply (delim_drop_while r)]]. exists (drop_while is_word r).
  rewrite <- Hw. split_and!; [done| |by apply delim_drop_while|done]. split.
  - done.
  - rewrite Hw in Hnz. apply Forall_app in Hnz as [Hnz _]. by apply Forall_and.
Qed.

Lemma span_between w r a : between r -> line_words r = w :: a -> w ∈ line_words text.
Proof. intros [_ [ws Hws]] H. rewrite Hws, H. apply elem_of_app. right. by left. Qed.

Lemma span_valid w a : span_is w a -> valid_word w.
Proof. by intros (r & _ & ? & _). Qed.

Lemma tree_add_arg cs c w a : tree_is cs c -> span_is w a -> tree_is (add_arg cs w) (add_arg c a).
Proof.
  intros H Hw. revert c H. induction cs as [ws|cs IH f m fd| | |]; intros [| | | |]; cbn; try done.
  - intros H. apply Forall2_app; [done|by constructor].
  - intros (? & ?). split; [by apply IH|done].
Qed.
Lemma args_add_arg cs (w : list Z) : (args (add_arg cs w) <= S (args cs))%nat.
Proof. induction cs; cbn; [rewrite length_app; cbn|..]; lia. Qed.
(** Well formed, with words of the line as strings. *)
Definition good_word (w : list Z) : Prop := valid_word w /\ w ∈ line_words text.
Fixpoint good (c : cmd (list Z)) : Prop :=
  match c with
  | EXEC argv => Forall good_word argv /\ (length argv < MAXARGS)%nat
  | REDIR c file mode fd => good c /\ good_word file /\ valid_redir mode fd
  | PIPE l r => good l /\ good r
  | LIST l r => good l /\ good r
  | BACK c => good c
  end.
Lemma good_well_formed c : good c -> well_formed c /\ all_strings (fun w => w ∈ line_words text) c.
Proof.
  induction c as [argv|c IH f m fd|l IHl r IHr|l IHl r IHr|c IH]; cbn; unfold good_word; [|tauto..].
  intros [H Hl]. split; [split; [|done]|]; (eapply Forall_impl; [exact H|]); by intros ? [].
Qed.

Lemma good_add_arg cs w : good cs -> good_word w -> (S (args cs) < MAXARGS)%nat -> good (add_arg cs w).
Proof.
  intros H Hw. induction cs as [ws|cs IH f m fd| | |]; cbn in *; intros Ha; try done.
  - destruct H as [H _]. split; [apply Forall_app; split; [done|by constructor]|]. rewrite length_app. cbn. lia.
  - destruct H as (? & ?). split; [by apply IH|done].
Qed.

(** * Totality *)

Definition syntax_errors : list string :=
  ["missing file for redirection"; "parseblock"; "syntax - missing )"; "syntax"; "too many args"]%string.

(** The outcomes of the parser: a return, or one of its syntax errors, printed, and only if [why]. *)
Definition parses (why : Prop) : xpost parser :=
  XPost (fun s st => s ∈ syntax_errors /\ (exists out, ps_err st = out ++ line s) /\ why) (fun _ _ => False) (fun _ => False).

Lemma wp_die {A} (why : Prop) s (Q : A -> parser -> Prop) st : s ∈ syntax_errors -> why -> wp (parses why) (die s) Q st.
Proof. intros Hs Hw. split; [done|]. split; [|done]. by eexists. Qed.
Ltac syntax_error := apply wp_die; [unfold syntax_errors; rewrite !elem_of_cons; tauto|try done].

(** A function that goes on from [r] has left a tree and a later position. *)
Definition parsed (e r : list Z) (n : nat) (c : cmd span) (st : parser) : Prop := exists r' cs,
  st = at_rest r' e /\ between r' /\ (length r' + n <= length r)%nat /\ tree_is cs c /\ good cs.

Lemma parsed_mono e r r1 n n1 c st : (length r1 + n <= length r + n1)%nat -> parsed e r1 n1 c st -> parsed e r n c st.
Proof. intros H (r' & cs & ? & ? & ? & ? & ?). exists r', cs. split_and!; [done|done|lia|done|done]. Qed.

Lemma peek_true toks r : negb (first r =? 0) && is_in toks (first r) = true -> r <> [].
Proof. by intros H ->. Qed.

Lemma lex_trim_length r : trim r <> [] -> (length (trim (lex (trim r)).2) < length r)%nat.
Proof.
  intros H. pose proof (lex_length _ H (trim_trim r)). pose proof (trim_length r).
  pose proof (trim_length (lex (trim r)).2). lia.
Qed.

Lemma trim_length_le r : (length (trim r) <= length r)%nat.
Proof. apply trim_length. Qed.

Lemma parseredirs_total cs c r e : between r -> tree_is cs c -> good cs ->
  wp (parses True) (parseredirs c es) (fun c' st => exists r' cs', st = at_rest r' e /\ between r' /\
    (length r' <= length r)%nat /\ tree_is cs' c' /\ good cs' /\ args cs' = args cs) (at_rest r e).
Proof.
  intros Hr Hc Hwf. apply (wp_loop (parses True) (fun c st => exists r' cs', st = at_rest r' e /\ between r' /\
    (length r' <= length r)%nat /\ tree_is cs' c /\ good cs' /\ args cs' = args cs)
    (fun _ st => (es - ps_s st)%nat)).
  - by exists r, cs.
  - cbn. unfold pos. lia.
  - clear Hc Hwf. intros c1 st (r1 & cs1 & -> & Hr1 & Hl1 & Hc1 & Hwf1 & Ha1).
    wp_step. apply wp_peek; [by auto|]. destruct (negb _ && _) eqn:Ep.
    2: { apply wp_ret. exists (trim r1), cs1. pose proof (trim_length_le r1). split_and!; [done|by auto|lia|done..]. }
    pose proof (peek_true _ _ Ep) as Hne. pose proof (trim_length_le r1).
    wp_step. apply wp_gettoken; [by auto|]. rewrite trim_trim. set (r2 := trim (lex (trim r1)).2).
    assert (Hr2 : between r2) by (unfold r2; auto).
    assert (Hl2 : (length r2 < length r1)%nat) by by apply lex_trim_length.
    wp_step. apply wp_gettoken; [by auto|].
    assert (Ht2 : trim r2 = r2) by (apply trim_trim). rewrite Ht2.
    destruct (Z.eqb_spec (lex r2).1 97) as [E97|]; cbn [negb]; [|syntax_error].
    destruct (lex_word r2 ltac:(auto) Ht2 E97) as (w & Hw & Hlw). pose proof (span_between _ _ _ Hr2 Hlw). set (r3 := trim (lex r2).2).
    assert (Hr3 : between r3) by (unfold r3; auto).
    assert (Hl3 : (length r3 < length r2)%nat).
    { unfold r3. rewrite <- Ht2 at 1. apply lex_trim_length. rewrite Ht2. by intros E; rewrite E in E97. }
    pose proof (rest_length _ (between_rest _ Hr1)). pose proof (rest_length _ (between_rest _ Hr3)).
    assert (Hmu : (es - pos r3 < es - pos r1)%nat) by (unfold pos; lia).
    assert (Hgo : forall m fd, valid_redir m fd -> wp (parses True) (ret (inl (REDIR c1 (pos r2, pos (lex r2).2) m fd)))
      (fun (x : cmd span + cmd span) st => match x with
       | inl c => (exists r' cs', st = at_rest r' e /\ between r' /\ (length r' <= length r)%nat /\ tree_is cs' c /\
           good cs' /\ args cs' = args cs) /\ (es - ps_s st < es - pos r1)%nat
       | inr c => exists r' cs', st = at_rest r' e /\ between r' /\ (length r' <= length r)%nat /\ tree_is cs' c /\
           good cs' /\ args cs' = args cs
       end) (at_rest r3 e)).
    { intros m fd Hv. apply wp_ret. split; [|done]. exists r3, (REDIR cs1 w m fd). cbn.
      pose proof (span_valid _ _ Hw). split_and!; [done|done|lia|done..]. }
    destruct ((lex (trim r1)).1 =? 60); [apply Hgo; by left|].
    destruct ((lex (trim r1)).1 =? 62); [apply Hgo; by right; left|].
    destruct ((lex (trim r1)).1 =? 43); [apply Hgo; by right; right; left|].
    apply (wp_ret (parses True)). split; [|done]. exists r3, cs1. split_and!; [done|done|lia|done..].
Qed.

Lemma parsesimple_total r e : between r -> wp (parses True) (parsesimple es) (parsed e r 0) (at_rest r e).
Proof.
  intros Hr. unfold parsesimple. wp_step.
  eapply wp_mono; [apply (parseredirs_total (EXEC [])); [done|constructor|split; [constructor|cbn; unfold MAXARGS; lia]]|].
  intros c st (r1 & cs & -> & Hr1 & Hl1 & Hc & Hwf & Ha). cbn beta.
  apply (wp_loop (parses True) (fun '(c, argc) st => exists r' cs', st = at_rest r' e /\ between r' /\
    (length r' <= length r)%nat /\ tree_is cs' c /\ good cs' /\ (args cs' <= argc)%nat)
    (fun _ st => (es - ps_s st)%nat)).
  - exists r1, cs. split_and!; [done..|by rewrite Ha].
  - cbn. unfold pos. lia.
  - clear r1 cs c Hr1 Hl1 Hc Hwf Ha. intros [c argc] st (r1 & cs & -> & Hr1 & Hl1 & Hc & Hwf & Ha).
    pose proof (trim_length_le r1).
    assert (Hend : forall r', between r' -> (length r' <= length r1)%nat -> parsed e r 0 c (at_rest r' e)).
    { intros r' Hr' Hl'. exists r', cs. split_and!; [done|done|lia|done|done]. }
    wp_step. apply wp_peek; [by auto|]. destruct (negb _ && _) eqn:Ep; [apply wp_ret, Hend; by auto|].
    wp_step. apply wp_gettoken; [by auto|]. rewrite trim_trim. set (r2 := trim (lex (trim r1)).2).
    assert (Hr2 : between r2) by (unfold r2; auto).
    destruct (Z.eqb_spec (lex (trim r1)).1 0) as [E0|N0].
    { apply wp_ret, Hend; [done|]. unfold r2. pose proof (trim_length_le (lex (trim r1)).2).
      pose proof (suffix_length _ _ (lex_suffix (trim r1))). lia. }
    assert (Hne : trim r1 <> []) by (intros E; by rewrite E in N0).
    assert (Hl2 : (length r2 < length r1)%nat) by by apply lex_trim_length.
    destruct (Z.eqb_spec (lex (trim r1)).1 97) as [E97|]; cbn [negb]; [|syntax_error].
    destruct (lex_word (trim r1) ltac:(auto) (trim_trim r1) E97) as (w & Hw & Hlw).
    pose proof (span_between _ _ _ (between_trim _ Hr1) Hlw). cbv zeta.
    destruct (Nat.leb_spec MAXARGS (S argc)); [syntax_error|].
    pose proof (span_valid _ _ Hw). wp_step. eapply wp_mono.
    { apply (parseredirs_total (add_arg cs w)); [done|by apply tree_add_arg|]. apply good_add_arg; [done|by split|lia]. }
    intros c' st (r3 & cs' & -> & Hr3 & Hl3 & Hc' & Hwf' & Ha'). apply wp_ret.
    pose proof (args_add_arg cs w). pose proof (rest_length _ (between_rest _ Hr1)). split.
    + exists r3, cs'. split_and!; [done|done|lia|done|done|lia].
    + cbn. unfold pos. lia.
Qed.

(** A [peek] that finds a symbol, and the [gettoken] that takes it. *)
Lemma wp_peek_take {A} toks r e (m : P A) (m' : P A) (Q : A -> parser -> Prop) : between r ->
  (forall r', between r' -> (length r' < length r)%nat -> wp (parses True) m Q (at_rest r' e)) ->
  (forall r', between r' -> (length r' <= length r)%nat -> wp (parses True) m' Q (at_rest r' e)) ->
  wp (parses True) (p <- peek es toks ;; if p : bool then gettoken es ;;; m else m') Q (at_rest r e).
Proof.
  intros Hr Hm Hm'. wp_step. apply wp_peek; [by auto|]. pose proof (trim_length_le r).
  destruct (negb _ && _) eqn:Ep; [|by apply Hm'; [auto|]]. wp_step. apply wp_gettoken; [by auto|].
  rewrite trim_trim. apply Hm; [by auto|]. by apply lex_trim_length, (peek_true toks).
Qed.

Lemma parser_total n :
  (forall r e, between r -> (4 * length r + 4 <= n)%nat -> wp (parses True) (parseline n es) (parsed e r 0) (at_rest r e)) /\
  (forall r e, between r -> (4 * length r + 3 <= n)%nat -> wp (parses True) (parsepipe n es) (parsed e r 0) (at_rest r e)) /\
  (forall r e, between r -> (4 * length r + 2 <= n)%nat -> wp (parses True) (parseexec n es) (parsed e r 0) (at_rest r e)) /\
  (forall r e, between r -> (4 * length r + 1 <= n)%nat -> wp (parses True) (parseblock n es) (parsed e r 0) (at_rest r e)).
Proof.
  induction n as [|n (IHl & IHp & IHe & IHb)]; [split_and!; intros; lia|]. split_and!; intros r e Hr Hn.
  - cbn [parseline]. wp_step. eapply wp_mono; [apply IHp; [done|lia]|].
    intros c st (r1 & cs & -> & Hr1 & Hl1 & Hc & Hwf). cbn beta. wp_step.
    apply (wp_loop (parses True) (fun c st => parsed e r 0 c st) (fun _ st => (es - ps_s st)%nat)).
    + exists r1, cs. done.
    + cbn. unfold pos. lia.
    + clear r1 cs c Hr1 Hl1 Hc Hwf. intros c st (r1 & cs & -> & Hr1 & Hl1 & Hc & Hwf).
      pose proof (rest_length _ (between_rest _ Hr1)). apply wp_peek_take; [done|..].
      * intros r2 Hr2 Hl2. apply wp_ret. split; [|cbn; unfold pos; lia]. exists r2, (BACK cs).
        split_and!; [done|done|lia|done|done].
      * intros r2 Hr2 Hl2. wp_step. apply wp_peek_take; [done|..].
        -- intros r3 Hr3 Hl3. wp_step. eapply wp_mono; [apply IHl; [done|lia]|].
           intros c' st (r4 & cs' & -> & Hr4 & Hl4 & Hc' & Hwf'). apply wp_ret. exists r4, (LIST cs cs').
           split_and!; [done|done|lia|done|done].
        -- intros r3 Hr3 Hl3. apply wp_ret. exists r3, cs. split_and!; [done|done|lia|done|done].
  - cbn [parsepipe]. wp_step. eapply wp_mono; [apply IHe; [done|lia]|].
    intros c st (r1 & cs & -> & Hr1 & Hl1 & Hc & Hwf). cbn beta. apply wp_peek_take; [done|..].
    + intros r3 Hr3 Hl3. wp_step. eapply wp_mono; [apply IHp; [done|lia]|].
      intros c' st (r4 & cs' & -> & Hr4 & Hl4 & Hc' & Hwf'). apply wp_ret. exists r4, (PIPE cs cs').
      split_and!; [done|done|lia|done|done].
    + intros r3 Hr3 Hl3. apply wp_ret. exists r3, cs. split_and!; [done|done|lia|done|done].
  - cbn [parseexec]. wp_step. apply wp_peek; [by auto|]. pose proof (trim_length_le r).
    destruct (negb _ && _).
    + eapply wp_mono; [apply IHb; [by auto|lia]|]. intros c st. apply parsed_mono. lia.
    + eapply wp_mono; [apply parsesimple_total; by auto|]. intros c st. apply parsed_mono. lia.
  - cbn [parseblock]. wp_step. apply wp_peek; [by auto|].
    destruct (negb _ && _) eqn:Ep; cbn [negb]; [|syntax_error].
    wp_step. apply wp_gettoken; [by auto|]. rewrite trim_trim. set (r2 := trim (lex (trim r)).2).
    assert (Hr2 : between r2) by (unfold r2; auto).
    assert (Hl2 : (length r2 < length r)%nat) by by apply lex_trim_length, (peek_true _ _ Ep).
    wp_step. eapply wp_mono; [apply IHl; [done|lia]|].
    intros c st (r3 & cs & -> & Hr3 & Hl3 & Hc & Hwf). cbn beta. wp_step. apply wp_peek; [by auto|].
    clear Ep. destruct (negb _ && _) eqn:Ep; cbn [negb]; [|syntax_error].
    wp_step. apply wp_gettoken; [by auto|]. rewrite trim_trim. set (r4 := trim (lex (trim r3)).2).
    assert (Hr4 : between r4) by (unfold r4; auto).
    assert (Hl4 : (length r4 < length r3)%nat) by by apply lex_trim_length, (peek_true _ _ Ep).
    eapply wp_mono; [by apply (parseredirs_total cs)|].
    intros c' st (r5 & cs' & -> & Hr5 & Hl5 & Hc' & Hwf' & _). exists r5, cs'. split_and!; [done|done|lia|done|done].
Qed.

(** * Storing the NULs *)

(** The buffer with some delimiters of [B] overwritten by NULs. *)
Definition nulled (b : list Z) : Prop := length b = length B /\
  forall i, b !! i = B !! i \/ b !! i = Some 0 /\ exists x, B !! i = Some x /\ (x = 0 \/ is_word x = false).

(** Every string of the tree ends with a NUL. *)
Fixpoint ended (b : list Z) (c : cmd span) : Prop :=
  match c with
  | EXEC argv => Forall (fun a => b !! snd a = Some 0) argv
  | REDIR c f _ _ => ended b c /\ b !! snd f = Some 0
  | PIPE l r => ended b l /\ ended b r
  | LIST l r => ended b l /\ ended b r
  | BACK c => ended b c
  end.

Definition keeps_nul (b b' : list Z) : Prop := forall i : nat, b !! i = Some 0 -> b' !! i = Some 0.

Lemma ended_mono b b' c : keeps_nul b b' -> ended b c -> ended b' c.
Proof.
  intros H. induction c as [argv|c IH f m fd|l IHl r IHr|l IHl r IHr|c IH]; cbn; try naive_solver.
  intros Ha. eapply Forall_impl; [exact Ha|]. intros a. apply H.
Qed.

Lemma wp_put_nul E w a b s e (Q : unit -> parser -> Prop) : span_is w a -> nulled b ->
  (nulled (<[snd a := 0]> b) -> keeps_nul b (<[snd a := 0]> b) -> <[snd a := 0]> b !! snd a = Some 0 ->
   Q tt (Parser (<[snd a := 0]> b) s e)) ->
  wp E (put_nul (snd a)) Q (Parser b s e).
Proof.
  intros (r & Hr & _ & Hd & ->) [Hlen Hb] HQ. cbn [snd] in *.
  assert (Hr' : rest r) by (eapply rest_suffix; [|exact Hr]; by exists w).
  pose proof (lookup_first r Hr') as Hx. pose proof (lookup_lt_Some _ _ _ Hx) as Hlt.
  apply wp_bind, wp_getp. cbn [ps_buf]. rewrite (proj2 (Nat.ltb_lt _ _)) by lia. apply wp_modify, HQ.
  - split; [by rewrite length_insert|]. intros i. destruct (decide (i = pos r)) as [->|Hn].
    + right. split; [apply list_lookup_insert_eq; lia|]. exists (first r). split; [done|].
      destruct r as [|c r]; [by left|by right].
    + rewrite list_lookup_insert_ne by done. apply Hb.
  - intros i Hi. destruct (decide (i = pos r)) as [->|Hn]; [apply list_lookup_insert_eq; lia|].
    by rewrite list_lookup_insert_ne by done.
  - apply list_lookup_insert_eq. lia.
Qed.

Lemma wp_nulterminate E cs c b s e : tree_is cs c -> nulled b ->
  wp E (nulterminate c) (fun _ st => exists b', st = Parser b' s e /\ nulled b' /\ keeps_nul b b' /\ ended b' c)
    (Parser b s e).
Proof.
  revert cs b. induction c as [argv|c IH f m fd|l IHl r IHr|l IHl r IHr|c IH]; intros cs b Hc Hb;
    destruct cs as [ws|cs w m' fd'|ls rs|ls rs|cs]; cbn in Hc; try done; cbn [nulterminate ended].
  - revert b Hb. induction Hc as [|w a ws argv Hw _ IH]; intros b Hb; cbn [for_do].
    { apply wp_ret. exists b. split_and!; [done|done|by intros i|constructor]. }
    apply wp_bind. eapply wp_put_nul; [done|done|]. intros Hb1 Hk1 H0. eapply wp_mono; [by apply IH|].
    intros _ st (b' & -> & Hb' & Hk & He). exists b'. split_and!; [done|done|by intros i Hi; apply Hk, Hk1|].
    constructor; [by apply Hk|done].
  - destruct Hc as (Hc & Hf & _). apply wp_bind. eapply wp_mono; [by apply (IH cs)|].
    intros _ st (b1 & -> & Hb1 & Hk1 & He1). eapply wp_put_nul; [done|done|]. intros Hb2 Hk2 H0.
    eexists. split_and!; [done|done|by intros i Hi; apply Hk2, Hk1| |done]. by apply (ended_mono b1).
  - destruct Hc as [Hl Hr]. apply wp_bind. eapply wp_mono; [by apply (IHl ls)|].
    intros _ st (b1 & -> & Hb1 & Hk1 & He1). eapply wp_mono; [by apply (IHr rs)|].
    intros _ st (b2 & -> & Hb2 & Hk2 & He2). exists b2.
    split_and!; [done|done|by intros i Hi; apply Hk2, Hk1|by apply (ended_mono b1)|done].
  - destruct Hc as [Hl Hr]. apply wp_bind. eapply wp_mono; [by apply (IHl ls)|].
    intros _ st (b1 & -> & Hb1 & Hk1 & He1). eapply wp_mono; [by apply (IHr rs)|].
    intros _ st (b2 & -> & Hb2 & Hk2 & He2). exists b2.
    split_and!; [done|done|by intros i Hi; apply Hk2, Hk1|by apply (ended_mono b1)|done].
  - by apply (IH cs).
Qed.

Lemma cstring_word b q w : (forall i x, w !! i = Some x -> b !! (q + i)%nat = Some x) ->
  Forall (fun c => c <> 0) w -> b !! (q + length w)%nat = Some 0 -> cstring (drop q b) = w.
Proof.
  intros Hw Hnz H0. revert q Hw H0. induction Hnz as [|x w Hx _ IH]; intros q Hw H0.
  - cbn in H0. rewrite Nat.add_0_r in H0. by rewrite (drop_S _ 0).
  - pose proof (Hw 0%nat x eq_refl) as H. rewrite Nat.add_0_r in H. rewrite (drop_S _ x) by done. cbn.
    rewrite (proj2 (Z.eqb_neq _ _)) by done. f_equal. apply IH.
    + intros i y Hy. rewrite Nat.add_succ_comm. by apply Hw.
    + rewrite Nat.add_succ_comm. exact H0.
Qed.

(** Overwriting delimiters leaves the words alone. *)
Lemma span_string b w a : nulled b -> span_is w a -> b !! snd a = Some 0 -> cstring (drop (fst a) b) = w.
Proof.
  intros [_ Hb] (r & Hr & [_ Hw] & _ & ->) H0. cbn [fst snd] in *.
  pose proof (rest_length _ Hr) as Hl. rewrite length_app in Hl.
  apply cstring_word; [|eapply Forall_impl; [exact Hw|]; by intros ? []|].
  - intros i x Hx. pose proof (lookup_lt_Some _ _ _ Hx). pose proof (Forall_lookup_1 _ _ _ _ Hw Hx) as [Hnz Hok].
    assert (HB : B !! (pos (w ++ r) + i)%nat = Some x).
    { rewrite lookup_pos; [|done|rewrite length_app; lia]. by apply lookup_app_l_Some. }
    destruct (Hb (pos (w ++ r) + i)%nat) as [->|(_ & y & Hy & Hyw)]; [done|]. simplify_eq.
    destruct Hyw; congruence.
  - replace (pos (w ++ r) + length w)%nat with (pos r); [done|]. unfold pos. rewrite length_app. lia.
Qed.

Lemma tree_strings b cs c : nulled b -> tree_is cs c -> ended b c -> strings b c = cs.
Proof.
  intros Hb. revert c. induction cs as [ws|cs IH w m fd|l IHl r IHr|l IHl r IHr|cs IH];
    intros [argv|c f m' fd'|l' r'|l' r'|c] Hc He; cbn in *; try done.
  - f_equal. induction Hc as [|w a ws argv Hw _ IH]; [done|]. apply Forall_cons in He as [Ha He]. cbn.
    f_equal; [by apply span_string|by apply IH].
  - destruct Hc as (Hc & Hw & -> & ->), He as [He Hf]. f_equal; [by apply IH|by apply span_string].
  - destruct Hc, He. f_equal; [by apply IHl|by apply IHr].
  - destruct Hc, He. f_equal; [by apply IHl|by apply IHr].
  - f_equal. by apply IH.
Qed.

Lemma nulled_refl : nulled B.
Proof. split; [done|]. intros i. by left. Qed.

Lemma rest_text : rest text.
Proof. by exists []. Qed.
Lemma pos_text : pos text = 0%nat.
Proof. unfold pos. rewrite length_text. lia. Qed.

(** * Lines without symbols *)

Section Plain.
Context (Hp : Forall (fun c => c ∉ symbols) text).
Abbreviation parses := (parses (MAXARGS <= length (line_words text))%nat).

Lemma plain_first r : rest r -> trim r = [] \/ exists c r', trim r = c :: r' /\ is_word c = true.
Proof.
  intros Hr. destruct (trim r) as [|c r'] eqn:E; [by left|right]. exists c, r'. split; [done|].
  unfold is_word. rewrite andb_true_iff, !negb_true_iff. split; [by eapply drop_while_head|].
  apply is_in_false; [by apply nonzero_lit|]. assert (Hs : rest (c :: r')) by (rewrite <- E; by auto).
  destruct Hs as [k Hk]. rewrite Forall_forall in Hp. apply Hp. rewrite Hk. apply elem_of_app. right. by left.
Qed.

Lemma plain_token r : rest r -> (lex (trim r)).1 = if decide (trim r = []) then 0 else 97.
Proof.
  intros Hr. destruct (plain_first r Hr) as [->|(c & r' & -> & Hc)]; [done|]. unfold lex. rewrite decide_False by done.
  apply is_word_spec in Hc as [_ Hc].
  assert (E1 : is_in (bytes "|();&<") c = false).
  { apply is_in_false; [by apply nonzero_lit|]. intros Hi. apply Hc. unfold symbols. cbn in *. set_solver. }
  rewrite E1. destruct (Z.eqb_spec c 62) as [->|_]; [|done]. exfalso. apply Hc. unfold symbols. cbn. set_solver.
Qed.

Lemma wp_plain_peek E toks r e (Q : bool -> parser -> Prop) : rest r -> Forall (fun x => x <> 0) toks ->
  (forall x, x ∈ toks -> x ∈ symbols) -> Q false (at_rest (trim r) e) -> wp E (peek es toks) Q (at_rest r e).
Proof.
  intros Hr Ht Hs HQ. apply wp_peek; [done|]. destruct (plain_first r Hr) as [H0|(c & r' & H0 & Hc)]; rewrite H0 in *; [done|].
  cbn [first]. apply is_word_spec in Hc as [_ Hc]. rewrite (proj2 (is_in_false toks c Ht)); [by rewrite andb_false_r|].
  intros Hi. by apply Hc, Hs.
Qed.

Ltac plain_peek := apply wp_plain_peek; [by auto|by apply nonzero_lit|intros x Hx; unfold symbols; cbn in *; set_solver|].

Lemma plain_redirs E c r e (Q : cmd span -> parser -> Prop) : rest r -> Q c (at_rest (trim r) e) ->
  wp E (parseredirs c es) Q (at_rest r e).
Proof.
  intros Hr HQ. unfold parseredirs. cbn [loop]. wp_step. wp_step. plain_peek. apply wp_ret. by apply wp_ret.
Qed.

(** Everything has been read, and the tree is the command of the words. *)
Definition read_all (e : list Z) (c : cmd span) (st : parser) : Prop := exists r,
  st = at_rest r e /\ rest r /\ trim r = [] /\ tree_is (EXEC (line_words text)) c.

Lemma plain_simple_trim e : wp parses (parsesimple es) (read_all e) (at_rest (trim text) e).
Proof.
  assert (Htr : rest (trim text)) by (apply rest_trim; by exists []).
  unfold parsesimple. wp_step. apply plain_redirs; [done|]. rewrite trim_trim.
  apply (wp_loop parses (fun '(c, argc) st => exists r ws, st = at_rest r e /\ rest r /\
    line_words text = ws ++ line_words r /\ tree_is (EXEC ws) c /\ argc = length ws) (fun _ st => (es - ps_s st)%nat)).
  - exists (trim text), []. rewrite line_words_trim. split_and!; [done|apply rest_trim; by exists []|done|constructor|done].
  - cbn. unfold pos. lia.
  - intros [c argc] st (r & ws & -> & Hr & Hl & Hc & ->). wp_step. plain_peek. wp_step.
    apply wp_gettoken; [by auto|]. rewrite trim_trim, (plain_token r Hr). set (r2 := trim (lex (trim r)).2).
    assert (Hr2 : rest r2) by (unfold r2; auto). case_decide as H0; cbn [Z.eqb Pos.eqb negb].
    { apply wp_ret. exists r2. rewrite <- (line_words_trim r), H0 in Hl. change (line_words []) with (@nil (list Z)) in Hl. rewrite app_nil_r in Hl.
      split_and!; [done|done|unfold r2; by rewrite H0|by rewrite Hl]. }
    destruct (lex_word (trim r)) as (w & Hw & Hlw); [by auto|apply trim_trim|by rewrite (plain_token r), decide_False by done|].
    rewrite line_words_trim in Hlw. rewrite Hlw in Hl. cbv zeta.
    destruct (Nat.leb_spec MAXARGS (S (length ws))) as [Hmax|_].
    { syntax_error. rewrite Hl, length_app. cbn [length]. lia. }
    wp_step. apply plain_redirs; [done|]. apply wp_ret.
    pose proof (lex_trim_length r H0) as Hlt. pose proof (rest_length _ Hr). split.
    + exists (trim r2), (ws ++ [w]). unfold r2. rewrite !line_words_trim, <- app_assoc. split_and!; [done|by auto|done| |by rewrite length_app, Nat.add_comm].
      by apply (tree_add_arg (EXEC ws)).
    + fold r2 in Hlt. pose proof (trim_length r2). cbn. unfold pos. lia.
Qed.

Lemma plain_line n e : (3 <= n)%nat -> wp parses (parseline n es) (read_all e) (at_rest text e).
Proof.
  intros Hn. destruct n as [|[|[|n]]]; try lia. cbn [parseline parsepipe parseexec].
  assert (Ht0 : rest text) by (by exists []). wp_step. wp_step. wp_step. plain_peek.
  assert (Hin : forall r, rest r -> trim r = [] -> rest (trim r) /\ trim (trim r) = []) by (intros r Hr Ht; rewrite Ht; split; [rewrite <- Ht; auto|done]).
  eapply wp_mono; [apply plain_simple_trim|]. intros c st (r & -> & Hr & Ht & Hc).
  wp_step. plain_peek. apply wp_ret. destruct (Hin r Hr Ht) as [Hr1 Ht1].
  wp_step. cbn [loop]. wp_step. wp_step. plain_peek. apply wp_ret. apply wp_ret. destruct (Hin _ Hr1 Ht1) as [Hr2 Ht2].
  wp_step. plain_peek. apply wp_ret. destruct (Hin _ Hr2 Ht2) as [Hr3 Ht3].
  by exists (trim (trim (trim r))).
Qed.
End Plain.

(** The end of [parsecmd], once the line is parsed. *)
Lemma wp_parse_end (E : xpost parser) cs c r e : rest r -> tree_is cs c ->
  (trim r <> [] -> wp E (die "syntax" : P (cmd span)) (fun _ _ => False)
     (Parser B (pos (trim r)) (e ++ bytes "leftovers: " ++ cstring (drop (pos (trim r)) B) ++ [10]))) ->
  wp E (peek es [] ;;;
        s <- getp ps_s ;;
        if negb (s =? es)%nat then
          eprint (bytes "leftovers: " ++ cstring (drop s B) ++ [10]) ;;; die "syntax"
        else nulterminate c ;;; ret c)
    (fun c st => trim r = [] /\ strings (ps_buf st) c = cs /\ ps_err st = e) (at_rest r e).
Proof.
  intros Hr Hc Hdie. wp_step. apply wp_peek; [done|]. wp_step. apply wp_getp. cbn [ps_s at_rest].
  destruct (Nat.eqb_spec (pos (trim r)) es) as [Ep|Ep]; cbn [negb].
  - assert (Ht : trim r = []).
    { destruct (trim r) as [|x r'] eqn:E'; [done|]. assert (Hr' : rest (x :: r')) by (rewrite <- E'; auto).
      pose proof (pos_lt x r' Hr'). lia. }
    wp_step. eapply wp_mono; [by apply (wp_nulterminate _ cs), nulled_refl|].
    intros _ st (b' & -> & Hb' & _ & He). apply wp_ret. split_and!; [done| |done]. by apply tree_strings.
  - wp_step. apply wp_modify. eapply wp_mono; [apply Hdie|done].
    intros Ht. by rewrite Ht, pos_nil in Ep.
Qed.

(** [parsecmd] parses the whole line, and then ends. *)
Lemma wp_parsecmd (E : xpost parser) (Q : cmd span -> parser -> Prop) :
  wp E (parseline (parse_fuel es) es) (fun c st => wp E (peek es [] ;;;
        s <- getp ps_s ;;
        if negb (s =? es)%nat then
          eprint (bytes "leftovers: " ++ cstring (drop s B) ++ [10]) ;;; die "syntax"
        else nulterminate c ;;; ret c) Q st) (at_rest text []) -> wp E parsecmd Q (Parser B 0 []).
Proof.
  intros H. unfold parsecmd. wp_step. apply wp_getp. cbn [ps_buf]. rewrite Hes. wp_step. apply wp_ret. wp_step.
  unfold at_rest in H. by rewrite pos_text in H.
Qed.
End Line.

Lemma wp_both {W A} (E E' : xpost W) (m : M W A) (Q Q' : A -> W -> Prop) w :
  wp E m Q w -> wp E' m Q' w -> wp E' m (fun a w' => Q a w' /\ Q' a w') w.
Proof. unfold wp. destruct (m w); auto. Qed.

(** C25. The shell's parser is total: on every NUL-terminated line, whatever its bytes,
    [parsecmd] terminates - the fuel of [parse_fuel] is enough - and reads and writes only
    inside the buffer.  Either it prints nothing and returns a well-formed command, all of whose strings are
    words of the line and whose commands have fewer than MAXARGS arguments; or it prints one of the five
    syntax errors of the source and exits, which it does only if the line has a symbol or
    at least MAXARGS words.  A line without symbols is parsed to the command of its words in order. *)
Theorem parsecmd_total B es (line := take es B) : strlen B = Some es ->
  wp (parses ((exists c, c ∈ line /\ c ∈ symbols) \/ (MAXARGS <= length (line_words line))%nat))
    parsecmd (fun c st => let cs := strings (ps_buf st) c in
      well_formed cs /\ all_strings (fun w => w ∈ line_words line) cs /\ ps_err st = [] /\
      (Forall (fun c => c ∉ symbols) line -> cs = EXEC (line_words line))) (Parser B 0 []).
Proof.
  intros Hes.
  assert (HT : wp (parses True) parsecmd (fun c st => let cs := strings (ps_buf st) c in
    well_formed cs /\ all_strings (fun w => w ∈ line_words line) cs /\ ps_err st = []) (Parser B 0 [])).
  { apply (wp_parsecmd B es Hes). eapply wp_mono; [apply (parser_total B es Hes (parse_fuel es)); [|rewrite length_text by done; unfold parse_fuel; lia]|].
    { split; [apply rest_text|by exists []]. }
    intros c st (r & cs & -> & Hr & _ & Hc & Hwf). eapply wp_mono; [apply (wp_parse_end B es Hes _ cs); [by destruct Hr|done|]|].
    - intros _. apply wp_die; [unfold syntax_errors; rewrite !elem_of_cons; tauto|done].
    - intros c' st (_ & -> & He). by destruct (good_well_formed B es cs Hwf). }
  destruct (decide (Forall (fun c => c ∉ symbols) line)) as [Hp|Hp].
  - assert (HP : wp (parses (MAXARGS <= length (line_words line))%nat) parsecmd
      (fun c st => strings (ps_buf st) c = EXEC (line_words line)) (Parser B 0 [])).
    { apply (wp_parsecmd B es Hes). eapply wp_mono; [apply (plain_line B es Hes Hp); unfold parse_fuel; lia|].
      intros c st (r & -> & Hr & Ht & Hc). eapply wp_mono; [apply (wp_parse_end B es Hes _ (EXEC (line_words line))); [done|done|by rewrite Ht]|].
      by intros c' st (_ & ? & _). }
    eapply (wp_both _ _ _ _ _ _ HT) in HP. eapply wp_weaken; [| | |eapply wp_mono; [exact HP|]]; [|done|done|].
    + intros s st (H1 & H2 & H3). split_and!; [done|done|by right].
    + intros c st [(H1 & H2 & H3) H4]. by split_and!.
  - eapply wp_weaken; [| | |eapply wp_mono; [exact HT|]]; [|done|done|].
    + intros s st (H1 & H2 & _). split_and!; [done|done|left]. apply not_Forall_Exists, Exists_exists in Hp as (c & Hc & Hs); [|apply _].
      exists c. split; [done|]. by apply dec_stable in Hs.
    + intros c st (H1 & H2 & H3). by split_and!.
Qed.
