(* ===== verification/Show.v ===== *)
(** The shell's parser inverts printing.

    [show] writes a command tree as a line, with parentheses where the grammar needs them.
    Parsing the line gives the tree back, so the grammar the four mutually recursive
    functions of user/sh.c implement is unambiguous on printed trees, and every well-formed
    tree is the meaning of some line. *)

From S2P Require Export Parse.

(** * Printing *)

Definition show_word (w : list Z) : list Z := 32 :: w.
Definition show_op (mode fd : Z) : list Z := if fd =? 0 then [60] else if mode =? 1537 then [62] else [62; 62].
(** A redirection: the file, the mode and the descriptor. *)
Definition redirection : Type := list Z * Z * Z.
Definition show_redir (d : redirection) : list Z :=
  let '(file, mode, fd) := d in 32 :: show_op mode fd ++ 32 :: file.
Definition paren (b : bool) (l : list Z) : list Z := if b then 40 :: l ++ [41] else l.

(** Levels: 0 a command for [parseexec], 1 for [parsepipe], 2 and 3 for [parseline], without
    and with a list. *)
Fixpoint show (lvl : nat) (c : cmd (list Z)) : list Z :=
  match c with
  | EXEC argv => concat (show_word <$> argv)
  | REDIR c file mode fd => show 0 c ++ show_redir (file, mode, fd)
  | PIPE l r => paren (lvl <? 1)%nat (show 0 l ++ 124 :: show 1 r)
  | BACK c => paren (lvl <? 2)%nat (show 2 c ++ [38])
  | LIST l r => paren (lvl <? 3)%nat (show 2 l ++ 59 :: show 3 r)
  end.

Definition wrap (c : cmd (list Z)) (ds : list redirection) : cmd (list Z) :=
  foldl (fun c '(file, mode, fd) => REDIR c file mode fd) c ds.
Definition show_redirs (ds : list redirection) : list Z := concat (show_redir <$> ds).
Definition valid_redirection (d : redirection) : Prop :=
  let '(file, mode, fd) := d in valid_word file /\ valid_redir mode fd.

(** * What comes next in a text *)

(** After blanks, the end of the line or one of these symbols. *)
Definition follows (toks : list Z) (k : list Z) : Prop :=
  match trim k with [] => True | x :: _ => x ∈ toks end.
Definition sees (toks r : list Z) : bool := negb (first (trim r) =? 0) && is_in toks (first (trim r)).

Lemma symbols_lit : symbols = [60; 124; 62; 38; 59; 40; 41].
Proof. done. Qed.
Lemma one_char_lit : bytes "|();&<" = [124; 40; 41; 59; 38; 60].
Proof. done. Qed.

(** Membership of literals. *)
Ltac lits := rewrite ?symbols_lit, ?one_char_lit in *; unfold whitespace in *;
  rewrite ?elem_of_cons, ?elem_of_nil in *; try lia.

Lemma symbols_not_white x : x ∈ symbols -> x ∉ whitespace.
Proof. intros H H'. lits. Qed.

Lemma valid_word_cons w : valid_word w -> exists x w', w = x :: w' /\ x <> 0 /\ (x ∉ whitespace) /\ (x ∉ symbols) /\
  Forall (fun c => is_word c = true) w.
Proof.
  intros [Hne Hw]. destruct w as [|x w]; [done|]. pose proof (Forall_inv Hw) as [Hx Hxw].
  apply is_word_spec in Hxw as [? ?]. exists x, w. split_and!; [done..|]. eapply Forall_impl; [exact Hw|]. by intros ? [].
Qed.

Lemma trim_word w k : valid_word w -> trim (w ++ k) = w ++ k.
Proof. intros (x & w' & -> & _ & Hx & _)%valid_word_cons. by apply trim_cons. Qed.

Lemma follows_delim toks k : toks ⊆ symbols -> follows toks k -> delim k.
Proof.
  unfold follows. intros Hs H. destruct k as [|x k]; [done|]. cbn. unfold is_word.
  destruct (is_in whitespace x) eqn:E; [done|].
  apply (is_in_false whitespace) in E; [|by apply nonzero_lit]. rewrite trim_cons in H by done.
  cbn. apply negb_false_iff. lit_in. by apply Hs.
Qed.

Lemma follows_cons toks x k : x ∈ toks -> toks ⊆ symbols -> follows toks (x :: k).
Proof. intros Hx Hs. unfold follows. rewrite trim_cons; [done|]. by apply symbols_not_white, Hs. Qed.
Lemma follows_mono toks toks' k : toks ⊆ toks' -> follows toks k -> follows toks' k.
Proof. unfold follows. intros Hs. destruct (trim k); [done|]. apply Hs. Qed.

Lemma sees_true toks r x k : trim r = x :: k -> x ∈ toks -> Forall (fun x => x <> 0) toks -> sees toks r = true.
Proof.
  unfold sees. intros -> Hx Hz. cbn [first]. rewrite (proj2 (is_in_spec toks x Hz) Hx).
  rewrite (proj2 (Z.eqb_neq _ _)); [done|]. by apply (proj1 (Forall_forall _ toks) Hz).
Qed.
Lemma sees_follows toks ts r k : trim r = trim k -> follows ts k -> (forall x, x ∈ ts -> x ∉ toks) ->
  Forall (fun x => x <> 0) toks -> sees toks r = false.
Proof.
  unfold sees, follows. intros -> Hf Hd Hz. destruct (trim k) as [|x r']; [done|]. cbn [first].
  rewrite (proj2 (is_in_false toks x Hz)); [by rewrite andb_false_r|]. by apply Hd.
Qed.
Lemma sees_word toks w k r : valid_word w -> trim r = w ++ k -> toks ⊆ symbols ->
  Forall (fun x => x <> 0) toks -> sees toks r = false.
Proof.
  unfold sees. intros (x & w' & -> & _ & _ & Hx & _)%valid_word_cons -> Hs Hz. cbn [app first].
  rewrite (proj2 (is_in_false toks x Hz)); [by rewrite andb_false_r|]. naive_solver.
Qed.

Lemma drop_while_app ok w k : Forall (fun c => ok c = true) w -> drop_while ok (w ++ k) = drop_while ok k.
Proof. induction 1 as [|x w Hx _ IH]; cbn; [done|]. by rewrite Hx. Qed.

Lemma lex_valid_word w k : valid_word w -> delim k -> lex (w ++ k) = (97, k).
Proof.
  intros (x & w' & -> & _ & _ & Hx & Hw)%valid_word_cons Hk. cbn [app]. unfold lex.
  replace (is_in (bytes "|();&<") x) with false; [|symmetry; lit_out].
  2: { intros Hc. lits. }
  rewrite (proj2 (Z.eqb_neq x 62)); [|intros ->; lits].
  change (x :: w' ++ k) with ((x :: w') ++ k). rewrite drop_while_app by done.
  destruct k as [|c k]; [done|]. cbn in Hk |- *. by rewrite Hk.
Qed.

Lemma lex_symbol x k : x ∈ bytes "|();&<" -> lex (x :: k) = (x, k).
Proof. intros H. unfold lex. by rewrite (proj2 (is_in_spec (bytes "|();&<") x ltac:(by apply nonzero_lit)) H). Qed.

(** * Parsing what was printed *)

Section Roundtrip.
Context (B : list Z) (es : nat) (Hes : strlen B = Some es) (e : list Z).
Abbreviation rest := (rest B es).
Abbreviation at_rest := (at_rest B es).
Abbreviation pos := (pos es).
Abbreviation span_is := (span_is B es).
Abbreviation tree_is := (tree_is B es).

(** A function that starts at [r] has parsed the tree [cs] and stands before [k]. *)
Definition got (cs : cmd (list Z)) (k r : list Z) (c : cmd span) (st : parser) : Prop := exists r',
  st = at_rest r' e /\ rest r' /\ (length r' <= length r)%nat /\ trim r' = trim k /\ tree_is cs c.

Hint Resolve rest_cons rest_trim rest_lex : core.

Lemma wp_peek_sees toks r (Q : bool -> parser -> Prop) : rest r ->
  Q (sees toks r) (at_rest (trim r) e) -> wp total (peek es toks) Q (at_rest r e).
Proof. by apply wp_peek. Qed.

(** Taking a symbol that is there. *)
Lemma wp_take r x k (Q : Z * nat * nat -> parser -> Prop) : rest r -> trim r = x :: k -> x ∈ bytes "|();&<" ->
  (rest k -> (length k < length r)%nat -> Q (x, pos (x :: k), pos k) (at_rest (trim k) e)) ->
  wp total (gettoken es) Q (at_rest r e).
Proof.
  intros Hr Ht Hx HQ. apply wp_gettoken; [done..|]. rewrite Ht, lex_symbol by done. cbn [fst snd].
  pose proof (rest_trim B es r Hr) as Hr'. rewrite Ht in Hr'. apply HQ; [by eapply rest_cons|].
  pose proof (trim_length r) as H. rewrite Ht in H. cbn in H. lia.
Qed.

(** Taking a word that is there. *)
Lemma wp_take_word r w k (Q : Z * nat * nat -> parser -> Prop) : rest r -> trim r = w ++ k -> valid_word w -> delim k ->
  (forall q eq, rest k -> (length k < length r)%nat -> span_is w (q, eq) -> Q (97, q, eq) (at_rest (trim k) e)) ->
  wp total (gettoken es) Q (at_rest r e).
Proof.
  intros Hr Ht Hw Hk HQ. apply wp_gettoken; [done..|]. rewrite Ht, lex_valid_word by done. cbn [fst snd].
  pose proof (rest_trim B es r Hr) as Hr'. rewrite Ht in Hr'. apply HQ.
  - eapply rest_suffix; [|exact Hr']. by exists w.
  - pose proof (trim_length r) as H. rewrite Ht, length_app in H. destruct Hw as [Hne _].
    destruct w; [done|]. cbn in H. lia.
  - by exists k.
Qed.

Lemma lex_op mode fd k : valid_redir mode fd ->
  exists x, x ∈ [60; 62; 43] /\ lex (show_op mode fd ++ 32 :: k) = (x, 32 :: k) /\
    (exists y l, show_op mode fd = y :: l /\ y ∈ [60; 62]) /\
    (x = 60 -> mode = O_RDONLY /\ fd = 0) /\ (x = 62 -> mode = Z.lor (Z.lor O_WRONLY O_CREATE) O_TRUNC /\ fd = 1) /\
    (x = 43 -> mode = Z.lor O_WRONLY O_CREATE /\ fd = 1).
Proof.
  unfold valid_redir. rewrite !elem_of_cons, elem_of_nil. intros [[= -> ->]|[[= -> ->]|[[= -> ->]|[]]]].
  - exists 60. split_and!; [by left|done|exists 60, []; by split; [|left]|done..].
  - exists 62. split_and!; [by right; left|done|exists 62, []; split; [done|by right; left]|done..].
  - exists 43. split_and!; [by right; right; left|done|exists 62, [62]; split; [done|by right; left]|done..].
Qed.

(** The switch on the operator. *)
Lemma wp_redir_switch x m fd c1 a (Q : cmd span + cmd span -> parser -> Prop) st : x ∈ [60; 62; 43] ->
  (x = 60 -> m = O_RDONLY /\ fd = 0) -> (x = 62 -> m = Z.lor (Z.lor O_WRONLY O_CREATE) O_TRUNC /\ fd = 1) ->
  (x = 43 -> m = Z.lor O_WRONLY O_CREATE /\ fd = 1) -> Q (inl (REDIR c1 a m fd)) st ->
  wp total (if x =? 60 then ret (inl (REDIR c1 a O_RDONLY 0))
    else if x =? 62 then ret (inl (REDIR c1 a (Z.lor (Z.lor O_WRONLY O_CREATE) O_TRUNC) 1))
    else if x =? 43 then ret (inl (REDIR c1 a (Z.lor O_WRONLY O_CREATE) 1)) else ret (inl c1)) Q st.
Proof.
  intros Hx E60 E62 E43 HQ. rewrite !elem_of_cons, elem_of_nil in Hx.
  destruct Hx as [->|[->|[->|[]]]]; cbn [Z.eqb Pos.eqb]; apply wp_ret.
  - by destruct (E60 eq_refl) as [-> ->].
  - by destruct (E62 eq_refl) as [-> ->].
  - by destruct (E43 eq_refl) as [-> ->].
Qed.

Lemma show_redirs_cons d ds k : show_redirs (d :: ds) ++ k = show_redir d ++ show_redirs ds ++ k.
Proof. unfold show_redirs. cbn. by rewrite <- app_assoc. Qed.
Lemma delim_show_redirs ds k : delim k -> delim (show_redirs ds ++ k).
Proof. destruct ds as [|[[f m] fd] ds]; [done|]. intros _. by cbn. Qed.

Lemma redirs_got ds : forall cs c r k, Forall valid_redirection ds -> delim k -> sees [60; 62] k = false ->
  rest r -> trim r = trim (show_redirs ds ++ k) -> tree_is cs c ->
  wp total (parseredirs c es) (got (wrap cs ds) k r) (at_rest r e).
Proof.
  intros cs c r k Hds Hk Hno Hr Ht Hc.
  apply (wp_loop total (fun c st => exists r' cs' ds', st = at_rest r' e /\ rest r' /\ (length r' <= length r)%nat /\
    trim r' = trim (show_redirs ds' ++ k) /\ tree_is cs' c /\ Forall valid_redirection ds' /\
    wrap cs' ds' = wrap cs ds) (fun _ st => (es - ps_s st)%nat)).
  - by exists r, cs, ds.
  - cbn. unfold Parse.pos. lia.
  - clear Hc Ht Hds. intros c1 st (r1 & cs1 & ds1 & -> & Hr1 & Hl1 & Ht1 & Hc1 & Hds1 & Hw1).
    pose proof (trim_length r1). wp_step. apply wp_peek_sees; [done|].
    destruct ds1 as [|[[f m] fd] ds1].
    + change (bytes "<>") with [60; 62]. unfold sees in *. change (show_redirs [] ++ k) with k in Ht1.
      rewrite Ht1, Hno. apply wp_ret. exists (trim r1). cbn in Hw1. rewrite <- Hw1, <- Ht1, trim_trim.
      split_and!; [done|by auto|lia|done|done].
    + apply Forall_cons in Hds1 as [[Hf Hm] Hds1]. rewrite show_redirs_cons in Ht1.
      destruct (lex_op m fd (f ++ show_redirs ds1 ++ k) Hm) as (x & Hx & Hlex & (y & l & Hy & Hyin) & E60 & E62 & E43).
      assert (Ht1' : trim r1 = show_op m fd ++ 32 :: f ++ show_redirs ds1 ++ k).
      { rewrite Ht1. unfold show_redir. cbn [app]. rewrite trim_space, <- app_assoc. cbn [app]. rewrite Hy.
        apply trim_cons. intros Hin. lits. }
      rewrite (sees_true _ _ y (l ++ 32 :: f ++ show_redirs ds1 ++ k)); [|by rewrite Ht1', Hy|done|by repeat constructor].
      wp_step. apply wp_gettoken; [by auto..|]. rewrite trim_trim, Ht1', Hlex. cbn [fst snd].
      rewrite trim_space, trim_word by done.
      assert (Hr2 : rest (f ++ show_redirs ds1 ++ k)).
      { pose proof (rest_lex B es (trim r1) (rest_trim B es r1 Hr1)) as H'. rewrite Ht1', Hlex in H'. by eapply rest_cons. }
      wp_step. apply (wp_take_word _ f (show_redirs ds1 ++ k)); [done|by apply trim_word|done|by apply delim_show_redirs|].
      intros q eq Hr3 Hl3 Hsp. cbn [Z.eqb Pos.eqb negb].
      pose proof (rest_length B es Hes _ Hr1). pose proof (rest_length B es Hes _ Hr3).
      pose proof (trim_length (show_redirs ds1 ++ k)).
      assert (Hlen : (length (show_redirs ds1 ++ k) < length r1)%nat).
      { rewrite Ht1' in H. rewrite length_app in H. cbn [length] in H. rewrite length_app in H. lia. }
      apply (wp_redir_switch x m fd); [done..|]. split; [|cbn; unfold Parse.pos; lia].
      exists (trim (show_redirs ds1 ++ k)), (REDIR cs1 f m fd), ds1.
      split_and!; [done|by auto|lia|by rewrite trim_trim|done|done|exact Hw1].
Qed.

Definition words (ws : list (list Z)) : list Z := concat (show_word <$> ws).
Definition ends_exec : list Z := [124; 41; 38; 59].

Lemma ends_exec_symbols : ends_exec ⊆ symbols.
Proof. intros x H. unfold ends_exec in H. lits. Qed.

Lemma follows_no_redir k : follows ends_exec k -> sees [60; 62] k = false.
Proof. intros H. apply (sees_follows _ ends_exec k k); [done|done| |by repeat constructor]. unfold ends_exec. intros x ? ?. lits. Qed.

Lemma trim_words w ws k : valid_word w -> trim (words (w :: ws) ++ k) = w ++ words ws ++ k.
Proof.
  intros Hw. change (trim (32 :: (w ++ words ws) ++ k) = w ++ words ws ++ k). rewrite trim_space, <- app_assoc.
  by apply trim_word.
Qed.
Lemma delim_words ws k : delim k -> delim (words ws ++ k).
Proof. destruct ws as [|w ws]; [done|]. by intros _. Qed.
Lemma sees_words toks w ws k : valid_word w -> toks ⊆ symbols -> Forall (fun x => x <> 0) toks ->
  sees toks (words (w :: ws) ++ k) = false.
Proof. intros Hw Hs Hz. by apply (sees_word toks w (words ws ++ k)); [|apply trim_words|..]. Qed.
Lemma sees_trim toks r r' : trim r = trim r' -> sees toks r = sees toks r'.
Proof. unfold sees. by intros ->. Qed.

(** The loop of [parseexec] between two arguments, or after the last one. *)
Definition between (ws : list (list Z)) (ds : list redirection) (k r : list Z) (c : cmd span) (argc : nat)
    (st : parser) : Prop := exists r', st = at_rest r' e /\ rest r' /\ (length r' <= length r)%nat /\
  ((exists ws1 w ws2, ws = ws1 ++ w :: ws2 /\ trim r' = trim (words (w :: ws2) ++ show_redirs ds ++ k) /\
      tree_is (EXEC ws1) c /\ argc = length ws1) \/
   (trim r' = trim k /\ tree_is (wrap (EXEC ws) ds) c)).

(** The redirections after [ws1], which are read only when no argument is left. *)
Lemma redirs_between ws1 ws2 ds k r r' c : Forall valid_word ws2 -> Forall valid_redirection ds -> follows ends_exec k ->
  rest r' -> (length r' <= length r)%nat -> trim r' = trim (words ws2 ++ show_redirs ds ++ k) -> tree_is (EXEC ws1) c ->
  wp total (parseredirs c es) (fun c st => between (ws1 ++ ws2) ds k r c (length ws1) st) (at_rest r' e).
Proof.
  intros Hws Hds Hk Hr' Hl Ht Hc. assert (Hd : delim k) by (eapply follows_delim; [apply ends_exec_symbols|done]).
  destruct ws2 as [|w ws2].
  - eapply wp_mono; [apply (redirs_got ds (EXEC ws1) c r' k); [done|done|by apply follows_no_redir|done..]|].
    intros c' st (r2 & -> & Hr2 & Hl2 & Ht2 & Hc2). exists r2. rewrite app_nil_r. split_and!; [done|done|lia|by right].
  - apply Forall_cons in Hws as [Hw Hws].
    eapply wp_mono; [apply (redirs_got [] (EXEC ws1) c r' (words (w :: ws2) ++ show_redirs ds ++ k)); [done| | |done..]|].
    + by apply (delim_words (w :: ws2)), delim_show_redirs.
    + apply sees_words; [done| |by repeat constructor]. intros x H. lits.
    + intros c' st (r2 & -> & Hr2 & Hl2 & Ht2 & Hc2). exists r2. split_and!; [done|done|lia|].
      left. exists ws1, w, ws2. done.
Qed.

Lemma simple_got ws ds k r : Forall valid_word ws -> (length ws < MAXARGS)%nat -> Forall valid_redirection ds ->
  follows ends_exec k -> rest r -> trim r = trim (words ws ++ show_redirs ds ++ k) ->
  wp total (parsesimple es) (got (wrap (EXEC ws) ds) k r) (at_rest r e).
Proof.
  intros Hws Hlen Hds Hk Hr Ht. assert (Hd : delim k) by (eapply follows_delim; [apply ends_exec_symbols|done]).
  unfold parsesimple. wp_step. eapply wp_mono; [apply (redirs_between [] ws ds k r); [done..|constructor]|].
  intros c st Hst. cbn [app length] in Hst.
  apply (wp_loop total (fun '(c, argc) st => between ws ds k r c argc st) (fun _ st => (es - ps_s st)%nat)).
  - exact Hst.
  - destruct Hst as (r' & -> & _). cbn. unfold Parse.pos. lia.
  - clear c st Hst. intros [c argc] st (r1 & -> & Hr1 & Hl1 & H). pose proof (trim_length r1).
    pose proof (rest_length B es Hes _ Hr1). wp_step. apply wp_peek_sees; [done|].
    change (bytes "|)&;") with ends_exec.
    destruct H as [(ws1 & w & ws2 & -> & Ht1 & Hc & ->)|[Ht1 Hc]].
    + apply Forall_app in Hws as [Hws1 [Hw Hws2]%Forall_cons]. rewrite length_app in Hlen. cbn [length] in Hlen.
      rewrite (sees_trim _ _ _ Ht1), sees_words; [|done|apply ends_exec_symbols|by repeat constructor].
      rewrite trim_words in Ht1 by done. wp_step.
      apply (wp_take_word _ w (words ws2 ++ show_redirs ds ++ k)); [by auto|by rewrite trim_trim|done| |].
      { by apply delim_words, delim_show_redirs. }
      intros q eq Hr2 Hl2 Hsp. cbn [Z.eqb Pos.eqb negb]. cbv zeta.
      destruct (Nat.leb_spec MAXARGS (S (length ws1))); [lia|]. wp_step. set (k2 := words ws2 ++ _) in *.
      pose proof (trim_length k2). eapply wp_mono.
      { apply (redirs_between (ws1 ++ [w]) ws2 ds k (trim k2)); [done|done|done|by auto|done|by apply trim_trim|].
        by apply (tree_add_arg B es (EXEC ws1)). }
      intros c' st (r3 & -> & Hr3 & Hl3 & H'). apply wp_ret. rewrite length_app, Nat.add_1_r, <- app_assoc in H'.
      pose proof (rest_length B es Hes _ Hr3). pose proof (rest_length B es Hes _ Hr2).
      split; [|cbn; unfold Parse.pos; lia]. exists r3. split_and!; [done|done|lia|exact H'].
    + assert (Hend : forall r', rest r' -> (length r' <= length r1)%nat -> trim r' = trim k ->
        got (wrap (EXEC ws) ds) k r c (at_rest r' e)) by (intros r' ? ? ?; exists r'; split_and!; [done|done|lia|done..]).
      destruct (sees ends_exec r1) eqn:Es; [apply wp_ret, Hend; [by auto|done|by rewrite trim_trim]|].
      assert (Hk0 : trim k = []).
      { unfold follows in Hk. destruct (trim k) as [|x k'] eqn:Ek; [done|].
        rewrite (sees_true _ _ x k') in Es; [done|done|done|by repeat constructor]. }
      wp_step. apply wp_gettoken; [by auto..|]. rewrite trim_trim, Ht1, Hk0. cbn.
      apply (wp_ret total), Hend; [by apply suffix_nil|cbn; lia|by rewrite Hk0].
Qed.

(** ** The four functions *)

Definition exec_got (c : cmd (list Z)) : Prop := forall ds k r n, Forall valid_redirection ds -> follows ends_exec k ->
  rest r -> (4 * length r + 2 <= n)%nat -> trim r = trim (show 0 c ++ show_redirs ds ++ k) ->
  wp total (parseexec n es) (got (wrap c ds) k r) (at_rest r e).

Definition pipe_got (c : cmd (list Z)) : Prop := forall k r n, follows [41; 38; 59] k ->
  rest r -> (4 * length r + 3 <= n)%nat -> trim r = trim (show 1 c ++ k) ->
  wp total (parsepipe n es) (got c k r) (at_rest r e).

Definition line_got (c : cmd (list Z)) : Prop := forall k r n, follows [41] k ->
  rest r -> (4 * length r + 4 <= n)%nat -> trim r = trim (show 3 c ++ k) ->
  wp total (parseline n es) (got c k r) (at_rest r e).

(** [parseline] on a command, [j] times [&], and a semicolon with a line. *)
Fixpoint backs (j : nat) (c : cmd (list Z)) : cmd (list Z) :=
  match j with O => c | S j' => backs j' (BACK c) end.
Definition show_tail (o : option (cmd (list Z))) (k : list Z) : list Z :=
  match o with None => k | Some d => 59 :: show 3 d ++ k end.
Definition list_tail (c : cmd (list Z)) (o : option (cmd (list Z))) : cmd (list Z) :=
  match o with None => c | Some d => LIST c d end.

Definition back_got (c : cmd (list Z)) : Prop := forall j o k r n,
  match o with Some d => line_got d | None => True end -> follows [41] k ->
  rest r -> (4 * length r + 4 <= n)%nat -> trim r = trim (show 2 c ++ replicate j 38 ++ show_tail o k) ->
  wp total (parseline n es) (got (list_tail (backs j c) o) k r) (at_rest r e).

Lemma sub_symbols l : forallb (fun x => bool_decide (x ∈ symbols)) l = true -> l ⊆ symbols.
Proof.
  induction l as [|x l IH]; cbn; [by intros _ ? ?%elem_of_nil|]. intros [Hx Hl]%andb_true_iff y.
  rewrite elem_of_cons. apply bool_decide_eq_true in Hx. intros [->|Hy]; [done|by apply IH].
Qed.

Lemma got_shift c k k' r r' c' st : (length r' <= length r)%nat -> trim k = trim k' -> got c k r' c' st -> got c k' r c' st.
Proof. intros Hl Hk (r1 & ? & ? & ? & ? & ?). exists r1. split_and!; [done|done|lia|congruence|done]. Qed.

(** A [peek] that sees the symbol [x], and the [gettoken] that takes it. *)
Lemma wp_see_take {A} toks x r k (m m' : P A) (Q : A -> parser -> Prop) : rest r -> trim r = x :: k ->
  x ∈ toks -> Forall (fun x => x <> 0) toks -> x ∈ bytes "|();&<" ->
  (rest (trim k) -> (length (trim k) < length r)%nat -> wp total m Q (at_rest (trim k) e)) ->
  wp total (p <- peek es toks ;; if p : bool then gettoken es ;;; m else m') Q (at_rest r e).
Proof.
  intros Hr Ht Hx Hz Hxs Hm. pose proof (trim_length r). wp_step. apply wp_peek_sees; [done|].
  rewrite (sees_true _ _ x k) by done. wp_step. apply (wp_take _ x k); [by auto|by rewrite trim_trim|done|].
  intros Hk Hl. pose proof (trim_length k). apply Hm; [by auto|]. lia.
Qed.

Lemma wp_see_not {A} toks ts r k (m m' : P A) (Q : A -> parser -> Prop) : rest r -> trim r = trim k ->
  follows ts k -> forallb (fun x => negb (is_in toks x)) ts = true -> Forall (fun x => x <> 0) toks ->
  wp total m' Q (at_rest (trim r) e) ->
  wp total (p <- peek es toks ;; if p : bool then m else m') Q (at_rest r e).
Proof.
  intros Hr Ht Hf Hd Hz Hm. wp_step. apply wp_peek_sees; [done|].
  rewrite (sees_follows toks ts r k); [done|done|done| |done]. intros x Hx Hx'.
  apply list_elem_of_In in Hx. pose proof (proj1 (List.forallb_forall _ _) Hd x Hx) as Hn.
  apply (is_in_spec toks x Hz) in Hx'. cbn beta in Hn. by rewrite Hx' in Hn.
Qed.

(** A parenthesised line. *)
Lemma block_got c : line_got c -> show 0 c = paren true (show 3 c) -> exec_got c.
Proof.
  intros Hc Hs ds k r n Hds Hk Hr Hn Ht. assert (Hd : delim k) by (eapply follows_delim; [apply ends_exec_symbols|done]).
  rewrite Hs in Ht. cbn [paren] in Ht. rewrite <- app_comm_cons, <- app_assoc in Ht.
  rewrite trim_cons in Ht by (intros ?; lits). pose proof (trim_length r).
  destruct n as [|n]; [lia|]. cbn [parseexec]. wp_step. apply wp_peek_sees; [done|].
  rewrite (sees_true _ _ _ _ Ht); [|by left|by repeat constructor].
  destruct n as [|n]; [lia|]. cbn [parseblock]. wp_step. apply wp_peek_sees; [by auto|]. rewrite trim_trim.
  erewrite sees_true; [|rewrite trim_trim; exact Ht|by left|by repeat constructor]. cbn [negb].
  wp_step. eapply wp_take; [by auto|rewrite trim_trim; exact Ht|lits; tauto|]. intros Hr2 Hl2.
  set (k2 := show 3 c ++ _) in *. pose proof (trim_length k2). wp_step. eapply wp_mono.
  { apply (Hc ([41] ++ show_redirs ds ++ k)); [by apply follows_cons; [left|apply sub_symbols]|by auto|lia|by rewrite trim_trim]. }
  intros c' st (r3 & -> & Hr3 & Hl3 & Ht3 & Hc'). cbn [app] in Ht3. rewrite (trim_cons 41) in Ht3 by (intros ?; lits).
  pose proof (trim_length r3). wp_step. apply wp_peek_sees; [done|].
  rewrite (sees_true _ _ _ _ Ht3); [|by left|by repeat constructor]. cbn [negb].
  wp_step. eapply wp_take; [by auto|rewrite trim_trim; exact Ht3|lits; tauto|]. intros Hr4 Hl4.
  set (k4 := show_redirs ds ++ k) in *. pose proof (trim_length k4).
  eapply wp_mono; [apply (redirs_got ds c c' (trim k4) k); [done|done|by apply follows_no_redir|by auto|by rewrite trim_trim|done]|].
  intros c2 st. apply got_shift; [lia|done].
Qed.

Lemma pipe_of_exec c : exec_got c -> show 1 c = show 0 c -> pipe_got c.
Proof.
  intros Hc Hs k r n Hk Hr Hn Ht. destruct n as [|n]; [lia|]. cbn [parsepipe]. wp_step. eapply wp_mono.
  { apply (Hc [] k); [done| |done|lia|by rewrite <- Hs].
    eapply follows_mono; [|exact Hk]. intros x. unfold ends_exec. rewrite !elem_of_cons. tauto. }
  intros c' st (r1 & -> & Hr1 & Hl1 & Ht1 & Hc'). pose proof (trim_length r1).
  apply (wp_see_not _ [41; 38; 59] _ k); [done..|by repeat constructor|]. apply wp_ret.
  exists (trim r1). split_and!; [done|by auto|lia|by rewrite trim_trim|done].
Qed.

Lemma exec_simple ws : Forall valid_word ws -> (length ws < MAXARGS)%nat -> exec_got (EXEC ws).
Proof.
  intros Hws Hlen ds k r n Hds Hk Hr Hn Ht. pose proof (trim_length r).
  destruct n as [|n]; [lia|]. cbn [parseexec]. wp_step. apply wp_peek_sees; [done|].
  replace (sees (bytes "(") r) with false.
  - eapply wp_mono; [apply (simple_got ws ds k (trim r)); [done..|by auto|by rewrite trim_trim]|].
    intros c st. by apply got_shift.
  - symmetry. rewrite (sees_trim _ _ _ Ht). change (show 0 (EXEC ws)) with (words ws). destruct ws as [|w ws].
    + destruct ds as [|[[f m] fd] ds].
      * apply (sees_follows _ ends_exec _ k); [done|done| |by repeat constructor].
        intros x Hx. unfold ends_exec in *. change (bytes "(") with [40]. lits.
      * cbn [words fmap list_fmap concat app]. rewrite show_redirs_cons. apply Forall_inv in Hds as [_ Hm].
        destruct (lex_op m fd (f ++ show_redirs ds ++ k) Hm) as (x & Hx & Hlex & (y & l & Hy & Hyin) & _).
        unfold sees. replace (trim _) with (y :: l ++ 32 :: f ++ show_redirs ds ++ k).
        { cbn [first]. change (bytes "(") with [40]. rewrite (proj2 (is_in_false [40] y ltac:(by repeat constructor))).
          - by rewrite andb_false_r.
          - intros Hc. lits. }
        unfold show_redir. cbn [app]. rewrite trim_space, Hy, <- app_assoc. symmetry. apply trim_cons. intros Hc. lits.
    + apply Forall_inv in Hws. apply sees_words; [done|by apply sub_symbols|by repeat constructor].
Qed.

Lemma back_of_pipe c : pipe_got c -> show 2 c = show 1 c -> back_got c.
Proof.
  intros Hc Hs j o k r n Ho Hk Hr Hn Ht. destruct n as [|n]; [lia|]. cbn [parseline]. wp_step. rewrite Hs in Ht.
  eapply wp_mono; [apply (Hc (replicate j 38 ++ show_tail o k)); [|done|lia|done]|].
  { destruct j as [|j]; [|by apply follows_cons; [right; left|apply sub_symbols]].
    destruct o as [d|]; [by apply follows_cons; [right; right; left|apply sub_symbols]|].
    eapply follows_mono; [|exact Hk]. intros x. rewrite !elem_of_cons. tauto. }
  intros c0 st H. cbn beta. wp_step. clear Ht. set (tail := show_tail o k) in *.
  apply (wp_loop total (fun c' st => exists j', got (backs (j - j') c) (replicate j' 38 ++ tail) r c' st /\ (j' <= j)%nat)
    (fun _ st => (es - ps_s st)%nat)).
  - exists j. rewrite Nat.sub_diag. split; [exact H|lia].
  - destruct H as (r1 & -> & _). cbn. unfold Parse.pos. lia.
  - clear c0 st H. intros c1 st (j' & (r1 & -> & Hr1 & Hl1 & Ht1 & Hc1) & Hj). pose proof (rest_length B es Hes _ Hr1).
    destruct j' as [|j'].
    + apply (wp_see_not _ [59; 41] _ tail); [done|done| |done|by repeat constructor|].
      { unfold tail. destruct o; [by apply follows_cons; [left|apply sub_symbols]|].
        eapply follows_mono; [|exact Hk]. intros x. rewrite !elem_of_cons. tauto. }
      apply wp_ret. cbn beta iota. pose proof (trim_length r1). rewrite Nat.sub_0_r in Hc1. cbn [replicate app] in Ht1.
      unfold tail in *. destruct o as [d|].
      * cbn [show_tail] in Ht1. rewrite (trim_cons 59) in Ht1 by (intros ?; lits). eapply wp_see_take; [by auto| | | | |].
        { rewrite trim_trim. exact Ht1. } { by left. } { by repeat constructor. } { lits; tauto. }
        intros Hr2 Hl2. wp_step. eapply wp_mono; [apply (Ho k); [done|done|lia|by rewrite trim_trim]|].
        intros c2 st (r3 & -> & Hr3 & Hl3 & Ht3 & Hc3). apply wp_ret. exists r3. split_and!; [done|done|lia|done|done].
      * apply (wp_see_not _ [41] _ k); [by auto|by rewrite trim_trim|done|done|by repeat constructor|].
        apply wp_ret. exists (trim (trim r1)). rewrite !trim_trim. split_and!; [done|by auto|lia|done|done].
    + cbn [replicate app] in Ht1. rewrite (trim_cons 38) in Ht1 by (intros ?; lits).
      eapply wp_see_take; [done|exact Ht1|by left|by repeat constructor|lits; tauto|]. intros Hr2 Hl2. apply wp_ret.
      pose proof (rest_length B es Hes _ Hr2). split; [|cbn; unfold Parse.pos; lia]. exists j'. split; [|lia].
      eexists. split_and!; [done|done|lia|by apply trim_trim|].
      replace (j - j')%nat with (S (j - S j')) by lia. clear -Hc1. revert Hc1.
      generalize (j - S j')%nat as i. intros i. revert c. induction i as [|i IH]; intros c H; [exact H|]. by apply IH.
Qed.

Lemma line_of_back c : back_got c -> show 3 c = show 2 c -> line_got c.
Proof. intros Hc Hs k r n Hk Hr Hn Ht. rewrite Hs in Ht. by apply (Hc 0%nat None). Qed.

Lemma pipe_pipe l r : exec_got l -> pipe_got r -> pipe_got (PIPE l r).
Proof.
  intros Hl Hr k s n Hk Hs Hn Ht. destruct n as [|n]; [lia|]. cbn [parsepipe show paren Nat.ltb Nat.leb] in *.
  rewrite <- app_assoc in Ht. wp_step. eapply wp_mono.
  { apply (Hl [] ([124] ++ show 1 r ++ k)); [done|by apply follows_cons; [left|apply ends_exec_symbols]|done|lia|done]. }
  intros c st (s1 & -> & Hs1 & Hl1 & Ht1 & Hc). cbn [app] in Ht1. rewrite (trim_cons 124) in Ht1 by (intros ?; lits).
  eapply wp_see_take; [done|exact Ht1|by left|by repeat constructor|lits; tauto|]. intros Hs2 Hl2.
  wp_step. eapply wp_mono; [apply (Hr k); [done|done|lia|by rewrite trim_trim]|].
  intros c' st (s3 & -> & Hs3 & Hl3 & Ht3 & Hc'). apply wp_ret. exists s3. split_and!; [done|done|lia|done|done].
Qed.

Lemma all_got c : well_formed c -> exec_got c /\ pipe_got c /\ back_got c /\ line_got c.
Proof.
  induction c as [ws|c IH f m fd|l IHl r IHr|l IHl r IHr|c IH]; cbn [well_formed]; intros Hwf.
  - destruct Hwf as [Hw Hlen]. assert (H0 : exec_got (EXEC ws)) by by apply exec_simple.
    assert (H1 : pipe_got (EXEC ws)) by by apply pipe_of_exec.
    assert (H2 : back_got (EXEC ws)) by by apply back_of_pipe. split_and!; [done..|by apply line_of_back].
  - destruct Hwf as (Hwf & Hf & Hm). destruct (IH Hwf) as (H & _).
    assert (H0 : exec_got (REDIR c f m fd)).
    { intros ds k r n Hds Hk Hr Hn Ht. apply (H ((f, m, fd) :: ds)); [by constructor|done..|].
      rewrite Ht. cbn [show]. rewrite <- app_assoc. by rewrite show_redirs_cons. }
    assert (H1 : pipe_got (REDIR c f m fd)) by by apply pipe_of_exec.
    assert (H2 : back_got (REDIR c f m fd)) by by apply back_of_pipe. split_and!; [done..|by apply line_of_back].
  - destruct Hwf as [Hl Hr]. destruct (IHl Hl) as (H0l & _), (IHr Hr) as (_ & H1r & _).
    assert (H1 : pipe_got (PIPE l r)) by by apply pipe_pipe.
    assert (H2 : back_got (PIPE l r)) by by apply back_of_pipe.
    assert (H3 : line_got (PIPE l r)) by by apply line_of_back.
    split_and!; [by apply block_got|done..].
  - destruct Hwf as [Hl Hr]. destruct (IHl Hl) as (_ & _ & H2l & _), (IHr Hr) as (_ & _ & _ & H3r).
    assert (H3 : line_got (LIST l r)).
    { intros k s n Hk Hs Hn Ht. apply (H2l 0%nat (Some r)); [done..|]. rewrite Ht. cbn [show paren Nat.ltb Nat.leb].
      by rewrite <- app_assoc. }
    assert (H0 : exec_got (LIST l r)) by by apply block_got.
    assert (H1 : pipe_got (LIST l r)) by by apply pipe_of_exec.
    split_and!; [done..|by apply back_of_pipe|done].
  - destruct (IH Hwf) as (_ & _ & H2c & _).
    assert (H2 : back_got (BACK c)).
    { intros j o k s n Ho Hk Hs Hn Ht. apply (H2c (S j)); [done..|]. rewrite Ht. cbn [show paren Nat.ltb Nat.leb].
      by rewrite <- app_assoc. }
    assert (H3 : line_got (BACK c)) by by apply line_of_back.
    assert (H0 : exec_got (BACK c)) by by apply block_got.
    split_and!; [done|by apply pipe_of_exec|done|done].
Qed.
End Roundtrip.

Lemma show_nonzero c lvl : well_formed c -> Forall (fun x => x <> 0) (show lvl c).
Proof.
  assert (Hw : forall w, valid_word w -> Forall (fun x => x <> 0) w).
  { intros w [_ Hw]. eapply Forall_impl; [exact Hw|]. by intros ? []. }
  assert (Hp : forall b l, Forall (fun x => x <> 0) l -> Forall (fun x => x <> 0) (paren b l)).
  { intros [|] l Hl; [|done]. constructor; [done|]. apply Forall_app. split; [done|by repeat constructor]. }
  revert lvl. induction c as [ws|c IH f m fd|l IHl r IHr|l IHl r IHr|c IH]; intros lvl; cbn [well_formed show]; intros Hwf.
  - destruct Hwf as [Hwf _]. induction Hwf as [|w ws Hww _ IH]; [constructor|].
    cbn. constructor; [done|]. apply Forall_app. split; [by apply Hw|done].
  - destruct Hwf as (Hwf & Hf & _). apply Forall_app. split; [by apply IH|]. constructor; [done|]. apply Forall_app.
    split; [|constructor; [done|by apply Hw]]. unfold show_op. repeat case_match; by repeat constructor.
  - destruct Hwf. apply Hp, Forall_app. split; [by apply IHl|constructor; [done|by apply IHr]].
  - destruct Hwf. apply Hp, Forall_app. split; [by apply IHl|constructor; [done|by apply IHr]].
  - apply Hp, Forall_app. split; [by apply IH|by repeat constructor].
Qed.

Lemma strlen_app l k : Forall (fun x => x <> 0) l -> strlen (l ++ 0 :: k) = Some (length l).
Proof.
  induction 1 as [|x l Hx _ IH]; [done|]. cbn. rewrite (proj2 (Z.eqb_neq _ _)) by done. by rewrite IH.
Qed.

(** C24. Parsing inverts printing: for every well-formed command tree, the shell reads the line
    [show] prints for it - followed by blanks such as the newline, and by whatever the buffer holds after
    the NUL - as exactly that tree: the same commands, arguments, files, pipes, lists and
    background jobs, with no error. *)
Theorem parsecmd_show c blanks junk : well_formed c -> trim blanks = [] -> Forall (fun x => x <> 0) blanks ->
  exists p st, parsecmd (Parser (show 3 c ++ blanks ++ 0 :: junk) 0 []) = Ok p st /\
    strings (ps_buf st) p = c /\ ps_err st = [].
Proof.
  intros Hwf Hb Hnz. set (B := show 3 c ++ blanks ++ 0 :: junk).
  assert (Hn : Forall (fun x => x <> 0) (show 3 c ++ blanks)) by (apply Forall_app; split; [by apply show_nonzero|done]).
  assert (Hes : strlen B = Some (length (show 3 c ++ blanks))).
  { unfold B. rewrite app_assoc. by apply strlen_app. }
  set (es := length (show 3 c ++ blanks)) in *.
  assert (Ht : text B es = show 3 c ++ blanks).
  { unfold text, B, es. rewrite app_assoc. by rewrite take_app_length. }
  assert (H : wp total parsecmd (fun p st => trim blanks = [] /\ strings (ps_buf st) p = c /\ ps_err st = [])
    (Parser B 0 [])).
  { unfold parsecmd. wp_step. apply wp_getp. cbn [ps_buf]. rewrite Hes. wp_step. apply wp_ret. wp_step.
    replace (Parser B 0 []) with (at_rest B es (text B es) []) by (unfold at_rest; by rewrite pos_text).
    destruct (all_got B es Hes [] c Hwf) as (_ & _ & _ & Hl). eapply wp_mono.
    { apply (Hl blanks); [unfold follows; by rewrite Hb|apply rest_text| |by rewrite Ht].
      rewrite length_text by done. unfold parse_fuel. lia. }
    intros p st (r' & -> & Hr' & _ & Htr & Hp). rewrite Hb in Htr. eapply wp_mono.
    - apply (wp_parse_end B es Hes total c); [done|done|]. by rewrite Htr.
    - by intros q st (_ & ? & ?). }
  apply wp_total_Ok in H as (p & st & -> & _ & Hs & He). by exists p, st.
Qed.

(** ** Examples: [ls -l | grep a >> log ; (wc < x ; echo hi) &] *)
Definition demo_cmd : cmd (list Z) :=
  LIST (PIPE (EXEC [bytes "ls"; bytes "-l"]) (REDIR (EXEC [bytes "grep"; bytes "a"]) (bytes "log") 513 1))
    (BACK (LIST (REDIR (EXEC [bytes "wc"]) (bytes "x") 0 0) (EXEC [bytes "echo"; bytes "hi"]))).

Lemma demo_well_formed : well_formed demo_cmd.
Proof.
  cbn [well_formed demo_cmd]. unfold valid_word, valid_redir, MAXARGS.
  split_and!; try done; try (cbn; lia); try (by right; right; left); try (by left);
  repeat match goal with
  | |- Forall _ _ => constructor
  | |- _ /\ _ => split
  end; try done.
Qed.

Lemma parsecmd_show_witness : show 3 demo_cmd = bytes " ls -l| grep a >> log;( wc < x; echo hi)&" /\
  exists p st, parsecmd (Parser (show 3 demo_cmd ++ [10] ++ 0 :: [0; 0]) 0 []) = Ok p st /\
    strings (ps_buf st) p = demo_cmd /\ ps_err st = [].
Proof.
  split; [reflexivity|]. apply (parsecmd_show demo_cmd [10] [0; 0]); [apply demo_well_formed|done|by repeat constructor].
Defined.

(** A plain line, and one with a syntax error. *)
Lemma parsecmd_total_witness :
  (exists c st, parsecmd (Parser (bytes " ls  -l" ++ [10; 0]) 0 []) = Ok c st /\
    strings (ps_buf st) c = EXEC [bytes "ls"; bytes "-l"]) /\
  wp (parses ((exists c, c ∈ bytes "ls ) >" ++ [10] /\ c ∈ symbols) \/ (MAXARGS <= 1)%nat)) parsecmd
    (fun c st => well_formed (strings (ps_buf st) c)) (Parser (bytes "ls ) >" ++ [10; 0]) 0 []).
Proof.
  split.
  - destruct (wp_returned _ _ _ _ (parsecmd_total (bytes " ls  -l" ++ [10; 0]) 8 eq_refl)) as (c & st & E & _ & _ & _ & H).
    { vm_compute. exact eq_refl. }
    exists c, st. split; [exact E|]. rewrite H; [reflexivity|]. apply (bool_decide_unpack _). vm_compute. exact I.
  - eapply wp_mono; [exact (parsecmd_total (bytes "ls ) >" ++ [10; 0]) 7 eq_refl)|]. intros c st [H _]. exact H.
Defined.
