(* ===== verification/Grep.v ===== *)
(** grep: user/grep.c.

    The matcher is Kernighan and Pike's; a C string is the list of its characters, so the
    character at its end is the NUL.  The theorems: [match_] accepts exactly the texts
    with a part in the language of the pattern, and [grep] writes exactly the lines that
    match, however [read] cuts the input into pieces. *)

From S2P Require Export User.

Definition star : Z := 42.
Definition dot : Z := 46.
Definition dollar : Z := 36.
Definition caret : Z := 94.

(** * The matcher *)

(** [matchhere] on the rest of the pattern is the parameter [m]. *)
Fixpoint matchstar (m : list Z -> bool) (c : Z) (text : list Z) : bool :=
  if m text then true
  else
    match text with
    | [] => false
    | t :: text' => if (t =? c) || (c =? dot) then matchstar m c text' else false
    end.

Fixpoint matchhere (re text : list Z) : bool :=
  match re with
  | [] => true
  | c :: re1 =>
    match re1 with
    | d :: re2 =>
      if d =? star then matchstar (matchhere re2) c text
      else
        match text with
        | [] => false
        | t :: text' => if (c =? dot) || (c =? t) then matchhere re1 text' else false
        end
    | [] =>
      if c =? dollar then match text with [] => true | _ => false end
      else
        match text with
        | [] => false
        | t :: text' => if (c =? dot) || (c =? t) then matchhere re1 text' else false
        end
    end
  end.

(** The [do ... while] loop of [match]. *)
Fixpoint match_any (re text : list Z) : bool :=
  if matchhere re text then true
  else match text with [] => false | _ :: text' => match_any re text' end.

Definition match_ (re text : list Z) : bool :=
  match re with
  | c :: re' => if c =? caret then matchhere re' text else match_any re text
  | [] => match_any re text
  end.

(** * The program *)

Definition BUFSZ : Z := 1024.

(** The loop over the lines in the buffer: what is left after the last newline. *)
Definition grep_lines (pattern p : list Z) : U (list Z) :=
  loop (S (length p)) (fun p =>
    match strchr (p ++ [0]) 10 with
    | Some (Some q) =>
      when (match_ pattern (take q p)) (write 1 (take (S q) p) ;;; ret tt) ;;;
      ret (inl (drop (S q) p))
    | _ => ret (inr p)
    end) p.

(** [buf] holds the [m] bytes of an unfinished line. *)
Definition grep (pattern : list Z) (fd : Z) : U unit :=
  loop_calls (fun buf =>
    let! (n, d) := read fd (BUFSZ - Z.of_nat (length buf) - 1) in
    if n >? 0 then
      buf <- grep_lines pattern (buf ++ d) ;; ret (inl buf)
    else ret (inr tt)) [].

(** [argv] without [argv[0]]. *)
Definition main (argv : list (list Z)) : U unit :=
  match argv with
  | [] => fprintf 2 (line "usage: grep pattern [file ...]") [] ;;; exit 1
  | [pattern] => grep pattern 0 ;;; exit 0
  | pattern :: files =>
    for_do files (fun file =>
      fd <- open file 0 ;;
      if fd <? 0 then printf (line "grep: cannot open %s") [AStr (Some file)] ;;; exit 1
      else grep pattern fd ;;; close fd) ;;;
    exit 0
  end.

(** * What a pattern means *)

(** A character, or any number of them. *)
Inductive atom : Type := One (c : Z) | Star (c : Z).

(** The atoms of a pattern, and whether it ends in [$]. *)
Fixpoint atoms (re : list Z) : list atom * bool :=
  match re with
  | [] => ([], false)
  | c :: re1 =>
    match re1 with
    | d :: re2 =>
      if d =? star then let '(l, b) := atoms re2 in (Star c :: l, b)
      else let '(l, b) := atoms re1 in (One c :: l, b)
    | [] => if c =? dollar then ([], true) else ([One c], false)
    end
  end.

Definition in_class (c x : Z) : Prop := c = dot \/ x = c.

(** The texts a list of atoms stands for. *)
Inductive lang : list atom -> list Z -> Prop :=
| lang_nil : lang [] []
| lang_one c x l t : in_class c x -> lang l t -> lang (One c :: l) (x :: t)
| lang_star c s l t : Forall (in_class c) s -> lang l t -> lang (Star c :: l) (s ++ t).

Lemma in_class_spec c x : (c =? dot) || (c =? x) = true <-> in_class c x.
Proof. unfold in_class. rewrite orb_true_iff, !Z.eqb_eq. naive_solver. Qed.

Lemma matchstar_spec m c text : matchstar m c text = true <->
  exists s t, text = s ++ t /\ Forall (in_class c) s /\ m t = true.
Proof.
  assert (Hnow : forall text, m text = true -> exists s t, text = s ++ t /\ Forall (in_class c) s /\ m t = true)
    by (intros t ?; by exists [], t).
  induction text as [|x text IH]; cbn [matchstar].
  - destruct (m []) eqn:E; split; [by intros; apply Hnow|done|done|].
    intros (s & t & H & _ & ?). symmetry in H. apply app_nil in H as [-> ->]. congruence.
  - destruct (m (x :: text)) eqn:E; [split; [by intros; apply Hnow|done]|].
    rewrite orb_comm, (Z.eqb_sym x). destruct (_ || _) eqn:Ex.
    + apply in_class_spec in Ex. rewrite IH. split.
      * intros (s & t & -> & ? & ?). exists (x :: s), t. split_and!; [done|by constructor|done].
      * intros (s & t & H & Hs & ?). destruct s as [|y s]; [cbn in H; congruence|]. injection H as <- H. apply Forall_cons in Hs as [_ Hs]. by exists s, t.
    + split; [done|]. intros (s & t & H & Hs & ?). destruct s as [|y s]; [cbn in H; congruence|]. injection H as <- H.
      apply Forall_cons in Hs as [Hx _]. apply in_class_spec in Hx. congruence.
Qed.

(** A character of the pattern that is not special. *)
Lemma one_spec c (l : list atom) (b : bool) text : 
  (exists x text', text = x :: text' /\ in_class c x /\
     exists s t, text' = s ++ t /\ lang l s /\ (b = true -> t = [])) <->
  exists s t, text = s ++ t /\ lang (One c :: l) s /\ (b = true -> t = []).
Proof.
  split.
  - intros (x & ? & -> & Hx & s & t & -> & Hs & Ht). exists (x :: s), t. split_and!; [done|by constructor|done].
  - intros (s & t & -> & Hs & Ht). inversion Hs as [|? x ? s' Hx Hl|]; subst. exists x, (s' ++ t). eauto 8.
Qed.

Lemma matchhere_one c (m : list Z -> bool) text :
  match text with [] => false | x :: text' => if (c =? dot) || (c =? x) then m text' else false end = true <->
  exists x text', text = x :: text' /\ in_class c x /\ m text' = true.
Proof.
  destruct text as [|x text]; [naive_solver|]. destruct (_ || _) eqn:E.
  - apply in_class_spec in E. naive_solver.
  - split; [done|]. intros (? & ? & [= <- <-] & Hx & _). apply in_class_spec in Hx. congruence.
Qed.

Lemma matchhere_spec re text : matchhere re text = true <->
  exists s t, text = s ++ t /\ lang (atoms re).1 s /\ ((atoms re).2 = true -> t = []).
Proof.
  remember (length re) as n eqn:Hn. assert (length re <= n)%nat as Hle by lia. clear Hn.
  revert re Hle text. induction n as [|n IH]; intros [|c re1] Hle text; cbn [length] in Hle; try lia.
  1, 2: split; [|done]; intros _; exists [], text; split_and!; [done|constructor|done].
  cbn [matchhere atoms]. destruct re1 as [|d re2].
  - destruct (Z.eqb_spec c dollar) as [->|Hc]; cbn [fst snd].
    + destruct text as [|x text]; split; [|done|done|].
      * intros _. exists [], []. split_and!; [done|constructor|done].
      * intros (s & t & Hst & Hs & Ht). inversion Hs; subst. by rewrite Ht in Hst.
    + rewrite matchhere_one, <- (one_spec c [] false). split.
      * intros (x & text' & -> & Hx & _). exists x, text'. split_and!; [done..|]. exists [], text'.
        split_and!; [done|constructor|done].
      * intros (x & text' & -> & Hx & _). by exists x, text'.
  - destruct (d =? star).
    + destruct (atoms re2) as [l b] eqn:E. cbn [fst snd]. rewrite matchstar_spec. split.
      * intros (s & t & -> & Hs & Ht). apply IH in Ht as (s2 & t2 & -> & Hs2 & Ht2); [|cbn in Hle; lia].
        rewrite E in *. exists (s ++ s2), t2. split_and!; [by rewrite app_assoc|by constructor|done].
      * intros (s & t & -> & Hs & Ht). inversion Hs as [| |? s1 ? s2 Hs1 Hs2]; subst. exists s1, (s2 ++ t).
        split_and!; [by rewrite app_assoc|done|]. apply IH; [cbn in Hle; lia|]. rewrite E. by exists s2, t.
    + destruct (atoms (d :: re2)) as [l b] eqn:E. cbn [fst snd]. rewrite matchhere_one, <- (one_spec c l b).
      split; intros (x & text' & -> & Hx & H); exists x, text'; (split_and!; [done..|]); cbn in Hle.
      * apply IH in H; [|cbn; lia]. by rewrite E in H.
      * apply IH; [cbn; lia|]. by rewrite E.
Qed.

Lemma match_any_spec re text : match_any re text = true <-> exists a t, text = a ++ t /\ matchhere re t = true.
Proof.
  induction text as [|x text IH]; cbn [match_any].
  - destruct (matchhere re []) eqn:E; split; [by exists [], []|done|done|].
    intros (a & t & H & ?). symmetry in H. apply app_nil in H as [-> ->]. congruence.
  - destruct (matchhere re (x :: text)) eqn:E; [split; [by exists [], (x :: text)|done]|]. rewrite IH. split.
    + intros (a & t & -> & ?). by exists (x :: a), t.
    + intros (a & t & H & ?). destruct a as [|y a]; [cbn in H; congruence|]. injection H as _ H. by exists a, t.
Qed.

Definition anchored (re : list Z) : bool := match re with c :: _ => c =? caret | [] => false end.
Definition body (re : list Z) : list Z := if anchored re then tail re else re.

(** C26. The matcher of grep decides the language of the pattern: a text matches exactly
    when it has a part - at its start for a pattern that begins with [^], at its end for one that
    ends with [$] - that the pattern's atoms stand for, where [.] stands for any character and
    [c*] for any number of characters [c]. *)
Theorem match_correct re text : match_ re text = true <->
  exists a s t, text = a ++ s ++ t /\ lang (atoms (body re)).1 s /\
    (anchored re = true -> a = []) /\ ((atoms (body re)).2 = true -> t = []).
Proof.
  unfold match_, body, anchored. destruct re as [|c re]; [|destruct (c =? caret)]; cbn [tail].
  - rewrite match_any_spec. setoid_rewrite matchhere_spec. naive_solver.
  - rewrite matchhere_spec. split; [intros (s & t & ? & ? & ?); by exists [], s, t|].
    intros (a & s & t & -> & Hs & Ha & Ht). rewrite Ha by done. by exists s, t.
  - rewrite match_any_spec. setoid_rewrite matchhere_spec. naive_solver.
Qed.

Example match_example : match_ (bytes "^a.*c$") (bytes "abbbc") = true /\ match_ (bytes "b*d") (bytes "abc") = false.
Proof. done. Qed.

(** * The lines of the input *)

(** The complete lines of [p], and what follows the last newline; [cur] is the line so far. *)
Fixpoint lines (cur p : list Z) : list (list Z) * list Z :=
  match p with
  | [] => ([], cur)
  | c :: p' =>
    if c =? 10 then (cur :: (lines [] p').1, (lines [] p').2) else lines (cur ++ [c]) p'
  end.

(** The lines that match, with their newlines. *)
Definition matching (pattern : list Z) (ls : list (list Z)) : list (list Z) :=
  (fun l => l ++ [10]) <$> filter (fun l => match_ pattern l = true) ls.

Lemma lines_app cur p q : lines cur (p ++ q) =
  ((lines cur p).1 ++ (lines (lines cur p).2 q).1, (lines (lines cur p).2 q).2).
Proof.
  revert cur. induction p as [|c p IH]; intros cur; cbn [app lines]; [cbn; by destruct (lines cur q)|].
  destruct (c =? 10); [|apply IH]. by rewrite IH.
Qed.

Lemma lines_cur cur p : 10 ∉ p -> lines cur p = ([], cur ++ p).
Proof.
  revert cur. induction p as [|c p IH]; intros cur H; cbn [lines]; [by rewrite app_nil_r|].
  apply not_elem_of_cons in H as [Hc Hp]. rewrite (proj2 (Z.eqb_neq _ _)) by done. rewrite IH by done.
  by rewrite <- app_assoc.
Qed.

Lemma lines_first l p : 10 ∉ l -> lines [] (l ++ 10 :: p) = (l :: (lines [] p).1, (lines [] p).2).
Proof. intros H. rewrite lines_app, lines_cur by done. cbn. by destruct (lines [] p). Qed.

Lemma lines_rest_nonzero p cur : Forall (fun c => c <> 0) p -> Forall (fun c => c <> 0) cur ->
  Forall (fun c => c <> 0) (lines cur p).2.
Proof.
  intros Hp. revert cur. induction Hp as [|c p Hc _ IH]; intros cur Hcur; cbn [lines]; [done|].
  destruct (c =? 10); [by apply IH|]. apply IH, Forall_app. split; [done|by constructor].
Qed.

Lemma lines_rest_open p cur : 10 ∉ cur -> 10 ∉ (lines cur p).2.
Proof.
  revert cur. induction p as [|c p IH]; intros cur Hcur; cbn [lines]; [done|].
  destruct (Z.eqb_spec c 10); [apply IH, not_elem_of_nil|]. apply IH. rewrite not_elem_of_app, not_elem_of_cons.
  split_and!; [done|congruence|apply not_elem_of_nil].
Qed.

Lemma lines_buf buf p : 10 ∉ buf -> lines [] (buf ++ p) = lines buf p.
Proof. intros H. rewrite lines_app, lines_cur by done. cbn. by destruct (lines buf p). Qed.

(** [strchr] stops at the newline, or at the NUL. *)
Lemma strchr_newline p : Forall (fun c => c <> 0) p ->
  (exists l p', p = l ++ 10 :: p' /\ (10 ∉ l) /\ strchr (p ++ [0]) 10 = Some (Some (length l))) \/
  ((10 ∉ p) /\ strchr (p ++ [0]) 10 = Some None).
Proof.
  induction 1 as [|c p Hc _ IH]; [right; split; [apply not_elem_of_nil|done]|]. cbn [app strchr].
  rewrite (proj2 (Z.eqb_neq c 0)) by done. destruct (Z.eqb_spec c 10) as [->|Hn].
  - left. exists [], p. split_and!; [done|apply not_elem_of_nil|done].
  - destruct IH as [(l & p' & -> & Hl & ->)|[Hp ->]]; [left|right].
    + exists (c :: l), p'. split_and!; [done|by apply not_elem_of_cons|done].
    + split; [by apply not_elem_of_cons|done].
Qed.

(** * The program *)

Section Run.
(** The kernel: the reads of [fd] give [chunks] one after the other, and then end of file. *)
Context (os : list call -> sysret) (fd : Z) (chunks : list (list Z)).
Definition is_read (c : call) : bool := match c with CRead _ _ => true | _ => false end.
Definition reads (cs : list call) : nat := length (filter (fun c => is_read c = true) cs).
Definition answer (k : nat) : sysret :=
  match chunks !! k with Some d => SysRet (Z.of_nat (length d)) d | None => SysRet 0 [] end.
Context (Hos : forall cs n, os (cs ++ [CRead fd n]) = answer (reads cs)).
Context (pattern : list Z).

Definition out (ls : list (list Z)) : list call := CWrite 1 <$> matching pattern ls.

Lemma reads_trace_app cs cs' : reads (cs ++ cs') = (reads cs + reads cs')%nat.
Proof. unfold reads. by rewrite filter_app, length_app. Qed.
Lemma written_trace_app fd' cs cs' : written fd' (cs ++ cs') = written fd' cs ++ written fd' cs'.
Proof. unfold written. by rewrite fmap_app, concat_app. Qed.
Lemma written_out ls : written 1 (out ls) = concat (matching pattern ls).
Proof. unfold written, out. rewrite <- list_fmap_compose. by rewrite list_fmap_id. Qed.
Lemma reads_out ls : reads (out ls) = 0%nat.
Proof. unfold out, reads. induction (matching pattern ls) as [|l l' IH]; [done|]. cbn [fmap list_fmap]. by rewrite filter_cons_False. Qed.
Lemma matching_cons l ls : matching pattern (l :: ls) =
  (if match_ pattern l then [l ++ [10]] else []) ++ matching pattern ls.
Proof. unfold matching. rewrite filter_cons. by destruct (match_ pattern l). Qed.
Lemma matching_app ls ls' : matching pattern (ls ++ ls') = matching pattern ls ++ matching pattern ls'.
Proof. unfold matching. by rewrite filter_app, fmap_app. Qed.

Lemma grep_lines_run p n cs : Forall (fun c => c <> 0) p -> (length (matching pattern (lines [] p).1) <= n)%nat ->
  grep_lines pattern p (User os n cs) =
    Ok (lines [] p).2 (User os (n - length (matching pattern (lines [] p).1)) (cs ++ out (lines [] p).1)).
Proof.
  unfold grep_lines. intros Hp. assert (Hf : (length p < S (length p))%nat) by lia.
  revert Hf. generalize (S (length p)) as fuel. intros fuel. revert p Hp n cs.
  induction fuel as [|fuel IH]; intros p Hp n cs Hf Hn; [lia|]. apply wp_exact. cbn [loop].
  destruct (strchr_newline p Hp) as [(l & p' & -> & Hl & ->)|[Hno ->]].
  - rewrite lines_first in * by done. cbn [fst snd] in *. unfold out in *. rewrite matching_cons in *.
    rewrite take_app_length. replace (S (length l)) with (length (l ++ [10])) by (rewrite length_app; cbn; lia).
    replace (l ++ 10 :: p') with ((l ++ [10]) ++ p') by (by rewrite <- app_assoc).
    rewrite take_app_length, drop_app_length. apply Forall_app in Hp as [_ [_ Hp]%Forall_cons].
    rewrite length_app in Hf. cbn in Hf. assert (Hlt : (length p' < fuel)%nat) by lia.
    destruct (match_ pattern l); cbn [when].
    + rewrite length_app in Hn. cbn [length] in Hn. destruct n as [|n]; [lia|].
      repeat wp_step. eapply wp_Ok; [reflexivity|]. repeat wp_step. eapply wp_Ok; [by apply IH; [..|lia]|].
      cbn [app length Nat.sub fmap list_fmap]. by rewrite <- app_assoc.
    + repeat wp_step. eapply wp_Ok; [by apply IH|]. done.
  - rewrite lines_cur in * by done. repeat wp_step. cbn. rewrite Nat.sub_0_r. by rewrite app_nil_r.
Qed.

(** Every read gives at least one byte, and no more than there is room for. *)
Fixpoint fits (buf : list Z) (ds : list (list Z)) : Prop :=
  match ds with
  | [] => True
  | d :: ds' => d <> [] /\ Z.of_nat (length buf + length d) <= BUFSZ - 1 /\ fits (lines [] (buf ++ d)).2 ds'
  end.

Lemma grep_run fuel ds n buf cs : drop (reads cs) chunks = ds -> fits buf ds ->
  Forall (fun c => c <> 0) buf -> Forall (fun c => c <> 0) (concat ds) -> 10 ∉ buf ->
  (length ds + length (matching pattern (lines buf (concat ds)).1) < n)%nat -> (length ds < fuel)%nat ->
  exists u, loop fuel (fun buf =>
    let! (n, d) := read fd (BUFSZ - Z.of_nat (length buf) - 1) in
    if n >? 0 then buf <- grep_lines pattern (buf ++ d) ;; ret (inl buf) else ret (inr tt)) buf (User os n cs) = Ok tt u /\
  written 1 (u_calls u) = written 1 cs ++ concat (matching pattern (lines buf (concat ds)).1).
Proof.
  revert fuel n buf cs. induction ds as [|d ds IH]; intros fuel n buf cs Hds Hfit Hbuf Hnz Hopen Hn Hfuel;
    (destruct fuel as [|fuel]; [cbn in Hfuel; lia|]); (destruct n as [|n]; [lia|]); cbn [loop].
  - assert (Ha : answer (reads cs) = SysRet 0 []).
    { unfold answer. apply (f_equal length) in Hds. rewrite length_drop in Hds. cbn in Hds. by rewrite lookup_ge_None_2 by lia. }
    eexists. split.
    + apply wp_exact. do 2 wp_step. apply wp_read; rewrite Hos, Ha; cbn [r_val r_data length]; [lia|].
      repeat wp_step. done.
    + cbn [u_calls]. rewrite written_trace_app. cbn. by rewrite !app_nil_r.
  - destruct Hfit as (Hd & Hroom & Hfit). cbn [concat] in *. apply Forall_app in Hnz as [Hnzd Hnz].
    assert (Ha : answer (reads cs) = SysRet (Z.of_nat (length d)) d /\ drop (S (reads cs)) chunks = ds).
    { unfold answer. assert (Hc : chunks !! reads cs = Some d).
      { rewrite <- (Nat.add_0_r (reads cs)), <- lookup_drop, Hds. done. }
      rewrite Hc. split; [done|]. rewrite (drop_S _ d) in Hds by done. by injection Hds. }
    destruct Ha as [Ha Hds']. rewrite lines_buf in Hfit by done. rewrite lines_app in *. cbn [fst snd] in *.
    set (ls := (lines buf d).1) in *. set (buf' := (lines buf d).2) in *. rewrite matching_app, length_app in Hn.
    set (cs1 := cs ++ [CRead fd (BUFSZ - Z.of_nat (length buf) - 1)]).
    destruct (IH fuel (n - length (matching pattern ls))%nat buf' (cs1 ++ out ls)) as (u & Hu & Hw).
    + rewrite reads_trace_app, reads_out. unfold cs1. rewrite reads_trace_app. cbn. by rewrite Nat.add_0_r, Nat.add_1_r.
    + done.
    + by apply lines_rest_nonzero.
    + done.
    + by apply lines_rest_open.
    + cbn [length] in Hn. lia.
    + cbn in Hfuel. lia.
    + exists u. split.
      * apply wp_exact. do 2 wp_step. apply wp_read; rewrite Hos, Ha; cbn [r_val r_data]; [lia|]. fold cs1.
        wp_step.
        -- wp_step. eapply wp_Ok; [apply grep_lines_run|].
           ++ by apply Forall_app.
           ++ rewrite lines_buf by done. fold ls. cbn [length] in Hn. lia.
           ++ rewrite lines_buf by done. fold ls buf'. repeat wp_step. eapply wp_Ok; [exact Hu|]. done.
        -- exfalso. destruct d; [done|]. cbn [length] in *. blia.
      * rewrite Hw, matching_app, concat_app. unfold cs1. rewrite !written_trace_app, written_out. cbn.
        by rewrite app_nil_r, app_assoc.
Qed.

(** C27. grep writes exactly the matching lines of an input without NUL bytes, in order and with their
    newlines, however the kernel cuts the input into reads - in the middle of lines too - as long as every
    read gives at least one byte and fits the room left in the buffer; then it returns.  A last line
    without newline is not a line to it: it is never matched.  (After a NUL the rest of what is in the
    buffer would not be searched.) *)
Theorem grep_correct n : fits [] chunks -> Forall (fun c => c <> 0) (concat chunks) ->
  (length chunks + length (matching pattern (lines [] (concat chunks)).1) < n)%nat ->
  exists u, grep pattern fd (User os n []) = Ok tt u /\
    written 1 (u_calls u) = concat (matching pattern (lines [] (concat chunks)).1).
Proof.
  intros Hfit Hnz Hn. unfold grep, loop_calls. cbn [u_left].
  apply (grep_run (S n) chunks n [] []); [done|done|constructor|done|apply not_elem_of_nil|done|lia].
Qed.
End Run.

(** ** Example: [grep b] reads the lines [abc], [xyz] and [bc] in three pieces *)
Definition demo_chunks : list (list Z) := [bytes "ab"; bytes "c" ++ [10] ++ bytes "xyz" ++ [10]; bytes "bc" ++ [10]].
Definition demo_os (cs : list call) : sysret :=
  match last cs with Some (CRead _ _) => answer demo_chunks (pred (reads cs)) | _ => SysRet 0 [] end.

Lemma grep_correct_witness : exists u, grep (bytes "b") 0 (User demo_os 10 []) = Ok tt u /\
  written 1 (u_calls u) = bytes "abc" ++ [10] ++ bytes "bc" ++ [10].
Proof.
  apply (grep_correct demo_os 0 demo_chunks) with (pattern := bytes "b").
  - intros cs n. unfold demo_os. rewrite last_snoc, reads_trace_app. cbn. by rewrite Nat.add_1_r.
  - cbn. split_and!; done || (vm_compute; congruence).
  - repeat constructor; done.
  - vm_compute. lia.
Defined.
