(* ===== verification/Programs.v ===== *)
(** The small user programs: cat, echo, wc, ls, kill, ln, mkdir, rm, init, zombie,
    setpriority, getreadcount, stressfs and forktest.

    [args] is [argv] without the program's name.  A [main] that goes on for ever, and what
    follows [exit], is what the monad of file User makes of it.  The theorem: [cat] copies its
    input to its output, whatever pieces the kernel gives it in. *)

From S2P Require Export User Grep.

Definition err (s : string) (ap : list uarg) : U unit := fprintf 2 (line s) ap.
Definition str (s : list Z) : uarg := AStr (Some s).

(** * user/cat.c *)

Definition cat (fd : Z) : U unit :=
  n <- loop_calls (fun _ : unit =>
    let! (n, d) := read fd 512 in
    if n >? 0 then
      w <- write 1 (take (Z.to_nat n) d) ;;
      if negb (w =? n) then err "cat: write error" [] ;;; exit 1 else ret (inl tt)
    else ret (inr n)) tt ;;
  if n <? 0 then err "cat: read error" [] ;;; exit 1 else ret tt.

(** The arguments of cat and wc are files to be opened and processed one after the other. *)
Definition with_files (cannot_open : list Z -> U unit) (body : Z -> list Z -> U unit) (args : list (list Z)) : U unit :=
  for_do args (fun file =>
    fd <- open file 0 ;;
    if fd <? 0 then cannot_open file ;;; exit 1 else body fd file ;;; close fd).

Definition cat_main (args : list (list Z)) : U unit :=
  match args with
  | [] => cat 0 ;;; exit 0
  | _ => with_files (fun f => err "cat: cannot open %s" [str f]) (fun fd _ => cat fd) args ;;; exit 0
  end.

(** * user/echo.c *)

Fixpoint echo (args : list (list Z)) : U unit :=
  match args with
  | [] => exit 0
  | a :: args' =>
    write 1 a ;;;
    write 1 (match args' with [] => [10] | _ => [32] end) ;;;
    echo args'
  end.

(** * user/wc.c *)

(** [x++] on an [int]. *)
Definition incr (x : Z) : U Z := from_option_or_fault "int overflow" (as_int (x + 1)).

Record counts : Type := Counts { wc_l : Z; wc_w : Z; wc_c : Z; wc_inword : bool }.

(** The loop over the bytes of one read. *)
Fixpoint wc_bytes (bs : list Z) (s : counts) : U counts :=
  match bs with
  | [] => ret s
  | b :: bs' =>
    c <- incr (wc_c s) ;;
    l <- (if b =? 10 then incr (wc_l s) else ret (wc_l s)) ;;
    space <- from_option_or_fault "strchr" (strchr (bytes " " ++ [13; 9; 10; 11; 0]) b) ;;
    match space with
    | Some _ => wc_bytes bs' (Counts l (wc_w s) c false)
    | None =>
      if negb (wc_inword s) then w <- incr (wc_w s) ;; wc_bytes bs' (Counts l w c true)
      else wc_bytes bs' (Counts l (wc_w s) c true)
    end
  end.

Definition wc (fd : Z) (name : list Z) : U unit :=
  let! (n, s) := loop_calls (fun s =>
    let! (n, d) := read fd 512 in
    if n >? 0 then s <- wc_bytes (take (Z.to_nat n) d) s ;; ret (inl s) else ret (inr (n, s)))
    (Counts 0 0 0 false) in
  if n <? 0 then printf (line "wc: read error") [] ;;; exit 1
  else printf (line "%d %d %d %s") [AVal (wc_l s); AVal (wc_w s); AVal (wc_c s); str name].

Definition wc_main (args : list (list Z)) : U unit :=
  match args with
  | [] => wc 0 [] ;;; exit 0
  | _ => with_files (fun f => printf (line "wc: cannot open %s") [str f]) wc args ;;; exit 0
  end.

(** * user/ls.c *)

Definition DIRSIZ : nat := 14.
Definition T_DIR : Z := 1.
Definition T_FILE : Z := 2.
Definition T_DEVICE : Z := 3.

(** What follows the last slash. *)
Fixpoint after_slash (path last : list Z) : list Z :=
  match path with
  | [] => last
  | c :: path' => after_slash path' (if c =? 47 then path' else last)
  end.
Definition fmtname (path : list Z) : list Z :=
  let p := after_slash path path in
  if (DIRSIZ <=? length p)%nat then p else p ++ replicate (DIRSIZ - length p) 32.

(** Fields of [struct stat] and [struct dirent]. *)
Definition field (off n : nat) (d : list Z) : Z := le_val (take n (drop off d)).
Definition st_ino (d : list Z) : Z := field 4 4 d.
Definition st_type (d : list Z) : Z := s16 (field 8 2 d).
Definition st_size (d : list Z) : Z := field 16 8 d.
Fixpoint upto_nul (l : list Z) : list Z :=
  match l with
  | [] => []
  | c :: l' => if c =? 0 then [] else c :: upto_nul l'
  end.

Definition ls_entries (fd : Z) (path : list Z) : U unit :=
  loop_calls (fun _ : unit =>
    let! (n, de) := read fd 16 in
    if negb (n =? 16) then ret (inr tt)
    else if field 0 2 de =? 0 then ret (inl tt)
    else
      let buf := upto_nul (path ++ [47] ++ take DIRSIZ (drop 2 de)) in
      let! (r, st) := stat buf in
      if r <? 0 then printf (line "ls: cannot stat %s") [str buf] ;;; ret (inl tt)
      else
        printf (line "%s %d %d %d") [str (fmtname buf); AVal (st_type st); AVal (st_ino st); AVal (st_size st)] ;;;
        ret (inl tt)) tt.

Definition ls (path : list Z) : U unit :=
  fd <- open path 0 ;;
  if fd <? 0 then err "ls: cannot open %s" [str path]
  else
    r <- sys (CFstat fd) ;;
    if r_val r <? 0 then err "ls: cannot stat %s" [str path] ;;; close fd
    else
      let st := r_data r in
      (if (st_type st =? T_DEVICE) || (st_type st =? T_FILE) then
         printf (line "%s %d %d %l") [str (fmtname path); AVal (st_type st); AVal (st_ino st); AVal (st_size st)]
       else if st_type st =? T_DIR then
         if (512 <? length path + 1 + DIRSIZ + 1)%nat then printf (line "ls: path too long") []
         else ls_entries fd path
       else ret tt) ;;;
      close fd.

Definition ls_main (args : list (list Z)) : U unit :=
  match args with
  | [] => ls (bytes ".") ;;; exit 0
  | _ => for_do args ls ;;; exit 0
  end.

(** * user/kill.c, ln.c, mkdir.c, rm.c *)

Definition to_int (s : list Z) : U Z := from_option_or_fault "atoi" (atoi (s ++ [0])).

Definition kill_main (args : list (list Z)) : U unit :=
  match args with
  | [] => err "usage: kill pid..." [] ;;; exit 1
  | _ => for_do args (fun a => pid <- to_int a ;; do_sys (CKill pid)) ;;; exit 0
  end.

Definition ln_main (args : list (list Z)) : U unit :=
  match args with
  | [old; new] =>
    r <- sys_int (CLink old new) ;;
    when (r <? 0) (err "link %s %s: failed" [str old; str new]) ;;;
    exit 0
  | _ => err "Usage: ln old new" [] ;;; exit 1
  end.

(** mkdir and rm stop at the first file that fails. *)
Definition each_file (c : list Z -> call) (failed : string) (args : list (list Z)) : U unit :=
  for_ret args (fun f =>
    r <- sys_int (c f) ;;
    if r <? 0 then err failed [str f] ;;; ret (Some tt) else ret None) ;;;
  exit 0.

Definition mkdir_main (args : list (list Z)) : U unit :=
  match args with
  | [] => err "Usage: mkdir files..." [] ;;; exit 1
  | _ => each_file CMkdir "mkdir: %s failed to create" args
  end.

Definition rm_main (args : list (list Z)) : U unit :=
  match args with
  | [] => err "Usage: rm files..." [] ;;; exit 1
  | _ => each_file CUnlink "rm: %s failed to delete" args
  end.

(** * user/init.c *)

Definition CONSOLE : Z := 1.

Definition init_main : U unit :=
  fd <- open (bytes "console") 2 ;;
  when (fd <? 0)
    (do_sys (CMknod (bytes "console") CONSOLE 0) ;;; _ <- open (bytes "console") 2 ;; ret tt) ;;;
  do_sys (CDup 0) ;;;
  do_sys (CDup 0) ;;;
  loop_calls (fun _ : unit =>
    printf (line "init: starting sh") [] ;;;
    pid <- sys_int CFork ;;
    if pid <? 0 then printf (line "init: fork failed") [] ;;; exit 1
    else
      when (pid =? 0)
        (do_sys (CExec (bytes "sh") [bytes "sh"]) ;;;
         printf (line "init: exec sh failed") [] ;;;
         exit 1) ;;;
      loop_calls (fun _ : unit =>
        wpid <- sys_int CWait ;;
        if wpid =? pid then ret (inr tt)
        else if wpid <? 0 then printf (line "init: wait returned an error") [] ;;; exit 1
        else ret (inl tt)) tt ;;;
      ret (inl tt)) tt.

(** * user/zombie.c, setpriority.c, getreadcount.c *)

Definition zombie_main : U unit :=
  pid <- sys_int CFork ;;
  when (pid >? 0) (do_sys (CSleep 5)) ;;;
  exit 0.

(** The status [main] returns. *)
Definition setpriority_main (args : list (list Z)) : U Z :=
  match args with
  | [p; q] =>
    pid <- to_int p ;;
    if pid <? 0 then printf (line "Invalid pid value") [] ;;; exit 1
    else
      prio <- to_int q ;;
      if (prio <? 0) || (prio >? 100) then printf (line "Invalid priority value") [] ;;; exit 1
      else
        r <- sys_int (CSetpriority pid prio) ;;
        if r <? 0 then printf (line "setpriority failed") [] ;;; exit 1
        else printf (line "setpriority %d succeeded") [AVal r] ;;; ret 0
  | _ => printf (line "Usage: setpriority pid new_priority") [] ;;; exit 1
  end.

Definition getreadcount_main : U unit :=
  n <- sys_int CGetreadcount ;;
  printf (line "Current read count is %d") [AVal n] ;;;
  exit 0.

(** * user/stressfs.c and forktest.c *)

Definition stressfs_main : U unit :=
  printf (line "stressfs starting") [] ;;;
  let data := replicate 512 97 in
  r <- for_ret (Z.of_nat <$> seq 0 4) (fun i =>
    pid <- sys_int CFork ;; ret (if pid >? 0 then Some i else None)) ;;
  let i := default 4 r in
  printf (line "write %d") [AVal i] ;;;
  let path := bytes "stressfs" ++ [48 + i] in
  fd <- open path 514 ;;
  for_do (seq 0 20) (fun _ => do_sys (CWrite fd data)) ;;;
  close fd ;;;
  printf (line "read") [] ;;;
  fd <- open path 0 ;;
  for_do (seq 0 20) (fun _ => _ <- read fd 512 ;; ret tt) ;;;
  close fd ;;;
  do_sys CWait ;;;
  exit 0.

Definition print (s : list Z) : U unit := do_sys (CWrite 1 s).
Definition N : nat := 1000.

(** The [n]-th [fork], and then [n] times [wait]. *)
Definition forktest : U unit :=
  print (line "fork test") ;;;
  n <- loop (S N) (fun n =>
    if (n <? N)%nat then
      pid <- sys_int CFork ;;
      if pid <? 0 then ret (inr n) else when (pid =? 0) (exit 0) ;;; ret (inl (S n))
    else ret (inr n)) 0%nat ;;
  if (n =? N)%nat then print (line "fork claimed to work N times!") ;;; exit 1
  else
    for_do (seq 0 n) (fun _ =>
      r <- sys_int CWait ;; when (r <? 0) (print (line "wait stopped early") ;;; exit 1)) ;;;
    r <- sys_int CWait ;;
    if negb (r =? -1) then print (line "wait got too many") ;;; exit 1
    else print (line "fork test OK").
Definition forktest_main : U unit := forktest ;;; exit 0.

(** * cat copies its input *)

Section Cat.
(** The kernel gives [chunks] to the reads of [fd], and takes [room] bytes at most of each
    write. *)
Context (os : list call -> sysret) (fd : Z) (chunks : list (list Z)).
Context (Hread : forall cs n, os (cs ++ [CRead fd n]) = answer chunks (reads cs)).
Context (Hwrite : forall cs bs, r_val (os (cs ++ [CWrite 1 bs])) = Z.of_nat (length bs)).

Lemma cat_run fuel ds n cs : drop (reads cs) chunks = ds ->
  Forall (fun d => d <> [] /\ (length d <= 512)%nat) ds -> (2 * length ds < n)%nat -> (length ds < fuel)%nat ->
  exists u, loop fuel (fun _ : unit =>
    let! (n, d) := read fd 512 in
    if n >? 0 then
      w <- write 1 (take (Z.to_nat n) d) ;;
      if negb (w =? n) then err "cat: write error" [] ;;; exit 1 else ret (inl tt)
    else ret (inr n)) tt (User os n cs) = Ok 0 u /\ written 1 (u_calls u) = written 1 cs ++ concat ds.
Proof.
  revert fuel n cs. induction ds as [|d ds IH]; intros fuel n cs Hds Hok Hn Hfuel;
    (destruct fuel as [|fuel]; [cbn in Hfuel; lia|]); (destruct n as [|n]; [lia|]); cbn [loop].
  - assert (Ha : answer chunks (reads cs) = SysRet 0 []).
    { unfold answer. apply (f_equal length) in Hds. rewrite length_drop in Hds. cbn in Hds. by rewrite lookup_ge_None_2 by lia. }
    eexists. split.
    + apply wp_exact. do 2 wp_step. apply wp_read; rewrite Hread, Ha; cbn [r_val r_data length]; [lia|].
      repeat wp_step. done.
    + cbn [u_calls]. rewrite written_trace_app. cbn. by rewrite !app_nil_r.
  - apply Forall_cons in Hok as [[Hd Hlen] Hok].
    assert (Hc : chunks !! reads cs = Some d) by (rewrite <- (Nat.add_0_r (reads cs)), <- lookup_drop, Hds; done).
    assert (Ha : answer chunks (reads cs) = SysRet (Z.of_nat (length d)) d) by (unfold answer; by rewrite Hc).
    rewrite (drop_S _ d) in Hds by done. injection Hds as Hds. cbn [length] in *.
    set (cs1 := cs ++ [CRead fd 512]). set (cs2 := cs1 ++ [CWrite 1 d]).
    destruct n as [|n]; [lia|]. destruct (IH fuel n cs2) as (u & Hu & Hw).
    + unfold cs2, cs1. rewrite !reads_trace_app. cbn. by rewrite Nat.add_0_r, Nat.add_1_r.
    + done.
    + lia.
    + lia.
    + exists u. split.
      * apply wp_exact. do 2 wp_step. apply wp_read; rewrite Hread, Ha; cbn [r_val r_data]; [lia|]. fold cs1. wp_step.
        -- wp_step. rewrite Nat2Z.id, firstn_all. unfold write, sys_int. wp_step. apply wp_sys. fold cs2. wp_step.
           unfold cs2 at 1. rewrite Hwrite, Z.eqb_refl. cbn [negb]. wp_step. eapply wp_Ok; [exact Hu|done].
        -- exfalso. destruct d; [done|]. cbn [length] in *. blia.
      * rewrite Hw. unfold cs2, cs1. rewrite !written_trace_app. cbn. by rewrite !app_nil_r, <- app_assoc.
Qed.

(** [cat] writes the bytes it reads, all of them and in order, and returns at the end of the input. *)
Theorem cat_correct n : Forall (fun d => d <> [] /\ (length d <= 512)%nat) chunks -> (2 * length chunks < n)%nat ->
  exists u, cat fd (User os n []) = Ok tt u /\ written 1 (u_calls u) = concat chunks.
Proof.
  intros Hok Hn. destruct (cat_run (S n) chunks n [] eq_refl Hok Hn) as (u & Hu & Hw); [lia|]. exists u. split; [|done].
  apply wp_exact. unfold cat. wp_step. eapply wp_Ok; [exact Hu|]. repeat wp_step. done.
Qed.
End Cat.

(** [setpriority] cannot find a negative number in its arguments: [atoi] knows no sign. *)
Lemma atoi_loop_range n s v : 0 <= n -> atoi_loop n s = Some v -> 0 <= v < 2147483648 \/ v = n.
Proof.
  revert n. induction s as [|c s IH]; intros n Hn; cbn [atoi_loop]; [done|].
  destruct ((48 <=? c) && (c <=? 57)) eqn:Ec; [|intros [= ->]; by right].
  unfold as_int, int_ok. intros H.
  destruct (_ && _) in H; [|done]. cbn in H. destruct (_ && _) in H; [|done]. cbn in H.
  destruct (_ && _) eqn:E3 in H; [|done]. cbn in H. apply IH in H; [|blia]. left.
  destruct H as [?| ->]; [done|blia].
Qed.
Lemma atoi_nonneg s v : atoi s = Some v -> 0 <= v.
Proof. intros H%atoi_loop_range; [|done]. lia. Qed.
