(* ===== verification/Umalloc.v ===== *)
(** The allocator of user programs: user/umalloc.c.

    A header is known by its address; its two fields are two maps, so that storing one
    leaves the other as it was, and reading a field that was never stored is a [Fault].
    What the program keeps in the blocks it was given is not part of the state: the
    theorems assume nothing of the fields of headers other than those of free blocks and
    of blocks in use.  [base] is the address the linker gives to the static header; more
    memory comes from the system call [sbrk]. *)

From S2P Require Export User.

Record heap : Type := Heap { hp_ptr : gmap Z Z; hp_size : gmap Z Z; hp_freep : Z; hp_user : user }.
Abbreviation H A := (M heap A).

Definition geth {A} (f : heap -> A) : H A := Prelude.gets f.

(** [sizeof(Header)] *)
Definition HDR : Z := 16.

Definition get_ptr (p : Z) : H Z := m <- geth hp_ptr ;; from_option_or_fault "ptr" (m !! p).
Definition get_size (p : Z) : H Z := m <- geth hp_size ;; from_option_or_fault "size" (m !! p).
Definition set_ptr (p q : Z) : H unit :=
  modify (fun h => Heap (<[p := q]> (hp_ptr h)) (hp_size h) (hp_freep h) (hp_user h)).
Definition set_size (p n : Z) : H unit :=
  modify (fun h => Heap (hp_ptr h) (<[p := n]> (hp_size h)) (hp_freep h) (hp_user h)).
Definition set_freep (p : Z) : H unit :=
  modify (fun h => Heap (hp_ptr h) (hp_size h) p (hp_user h)).

(** [p + n] for a pointer to headers. *)
Definition plus (p n : Z) : Z := u64 (p + n * HDR).

(** A system call of the program. *)
Definition in_user {A} (f : U A) : H A := fun h =>
  match f (hp_user h) with
  | Ok a u => Ok a (Heap (hp_ptr h) (hp_size h) (hp_freep h) u)
  | Panic s u => Panic s (Heap (hp_ptr h) (hp_size h) (hp_freep h) u)
  | Fault s u => Fault s (Heap (hp_ptr h) (hp_size h) (hp_freep h) u)
  | Blocked u => Blocked (Heap (hp_ptr h) (hp_size h) (hp_freep h) u)
  | OutOfFuel => OutOfFuel
  end.

(** The free list has no more headers than there are with a [ptr]. *)
Definition ring_fuel : H nat := m <- geth hp_ptr ;; ret (S (size m)).

Section Umalloc.
Context (base : Z).

(** The free block before [bp] in the order of addresses, the last one if [bp] is
    outside of the range of the list. *)
Definition find_place (bp : Z) : H Z :=
  p <- geth hp_freep ;;
  n <- ring_fuel ;;
  loop n (fun p =>
    q <- get_ptr p ;;
    if (bp >? p) && (bp <? q) then ret (inr p)
    else if (p >=? q) && ((bp >? p) || (bp <? q)) then ret (inr p)
    else ret (inl q)) p.

Definition free (ap : Z) : H unit :=
  let bp := plus ap (-1) in
  p <- find_place bp ;;
  n <- get_size bp ;;
  q <- get_ptr p ;;
  (if plus bp n =? q then
     k <- get_size q ;;
     set_size bp (u32 (n + k)) ;;;
     q' <- get_ptr q ;;
     set_ptr bp q'
   else set_ptr bp q) ;;;
  m <- get_size p ;;
  (if plus p m =? bp then
     n <- get_size bp ;;
     set_size p (u32 (m + n)) ;;;
     q <- get_ptr bp ;;
     set_ptr p q
   else set_ptr p bp) ;;;
  set_freep p.

Definition morecore (nu : Z) : H Z :=
  let nu := if nu <? 4096 then 4096 else nu in
  (* the product is a uint64, the argument of sbrk an int *)
  p <- in_user (sys_int (CSbrk (s32 (nu * HDR)))) ;;
  if p =? -1 then ret 0
  else
    set_size p nu ;;;
    free (plus p 1) ;;;
    geth hp_freep.

Definition malloc (nbytes : Z) : H Z :=
  let nunits := u32 ((nbytes + HDR - 1) / HDR + 1) in
  prevp <- geth hp_freep ;;
  prevp <- (if prevp =? 0 then
              set_ptr base base ;;; set_freep base ;;; set_size base 0 ;;; ret base
            else ret prevp) ;;
  p <- get_ptr prevp ;;
  n <- ring_fuel ;;
  loop (2 * n + 2) (fun '(prevp, p) =>
    sz <- get_size p ;;
    if sz >=? nunits then
      p <- (if sz =? nunits then
              q <- get_ptr p ;; set_ptr prevp q ;;; ret p
            else
              set_size p (sz - nunits) ;;;
              let p := plus p (sz - nunits) in
              set_size p nunits ;;;
              ret p) ;;
      set_freep prevp ;;;
      ret (inr (plus p 1))
    else
      freep <- geth hp_freep ;;
      if p =? freep then
        p <- morecore nunits ;;
        if p =? 0 then ret (inr 0)
        else q <- get_ptr p ;; ret (inl (p, q))
      else q <- get_ptr p ;; ret (inl (p, q))) (prevp, p).
End Umalloc.

(** ** An example: a kernel that gives memory from 0x5000 to 0x1000000 *)
Definition demo_grow (b : Z) (c : call) : Z :=
  match c with CSbrk n => if b + n <=? 0x1000000 then b + n else b | _ => b end.
Definition demo_brk (cs : list call) : Z := foldl demo_grow 0x5000 cs.
(** The break before the last call. *)
Definition demo_sbrk (cs : list call) : sysret :=
  let b := demo_brk (removelast cs) in
  SysRet (match last cs with Some (CSbrk n) => if b + n <=? 0x1000000 then b else -1 | _ => 0 end) [].
Definition demo_heap : heap := Heap ∅ ∅ 0 (User demo_sbrk 10 []).

(** Blocks are cut from the end of a free one; a freed block is joined to its neighbours, and
    its end is used again. *)
Example malloc_example :
  returns ((p <- malloc 0x1000 100 ;; q <- malloc 0x1000 5000 ;; free p ;;; free q ;;; r <- malloc 0x1000 50 ;; ret [p; q; r])
    demo_heap) [] = [0x14f90; 0x13bf0; 0x14fc0].
Proof. vm_compute. reflexivity. Qed.

(** 16 times 2^28 units is 0 as an [int]: the program asks the kernel for nothing and hands out a
    block of 4 GB that is not there. *)
Example malloc_overflow :
  match malloc 0x1000 4294967280 demo_heap with Ok r h => (r, u_calls (hp_user h)) | _ => (0, []) end =
  (0x5000 + 16, [CSbrk 0]).
Proof. vm_compute. reflexivity. Qed.
