(* ===== verification/Malloc.v ===== *)
(** The allocator of user programs is correct: the free list of user/umalloc.c stands for
    a set of free memory, [malloc] takes a block out of it (after it has got more from the
    kernel, if need be) and [free] gives one back. *)

From stdpp Require Export sorting.
From S2P Require Export Umalloc.

(** What a [Forall] says of one element. *)
Tactic Notation "all_at" hyp(H) hyp(Hin) "as" simple_intropattern(pat) :=
  pose proof (proj1 (Forall_forall _ _) H _ Hin) as pat; cbv beta in *.
Tactic Notation "all_at" hyp(H) hyp(Hin) := let F := fresh "F" in all_at H Hin as F.

(** * Blocks *)

(** A block is the address of its header and its size in headers. *)
Abbreviation block := (Z * Z)%type.
Definition stop (b : block) : Z := b.1 + HDR * b.2.
Definition inside (b : block) (x : Z) : Prop := b.1 <= x < stop b.
Definition cover (N : list block) (x : Z) : Prop := exists b, b ∈ N /\ inside b x.
(** In order, with something between them. *)
Definition before (b c : block) : Prop := stop b < c.1.

Lemma cover_nil x : ~ cover [] x.
Proof. intros (b & Hb & _). by apply not_elem_of_nil in Hb. Qed.
Lemma cover_cons b N x : cover (b :: N) x <-> inside b x \/ cover N x.
Proof. unfold cover. setoid_rewrite elem_of_cons. naive_solver. Qed.
Lemma cover_app N N' x : cover (N ++ N') x <-> cover N x \/ cover N' x.
Proof. unfold cover. setoid_rewrite elem_of_app. naive_solver. Qed.

(** A block in front of a list, made one with the first block when they touch. *)
Definition join (b : block) (R : list block) : list block :=
  match R with
  | c :: R' => if stop b =? c.1 then (b.1, b.2 + c.2) :: R' else b :: R
  | [] => [b]
  end.

Lemma join_cover b R x : 0 <= b.2 -> Forall (fun c => 0 <= c.2) R -> cover (join b R) x <-> inside b x \/ cover R x.
Proof.
  intros Hb HR. unfold join. destruct R as [|c R]; [by rewrite cover_cons|]. inversion_clear HR as [|? ? Hc _].
  case_match eqn:E; [|by rewrite cover_cons]. rewrite !cover_cons. unfold inside, stop, HDR in *. cbn. 
  apply Z.eqb_eq in E. assert (b.1 <= x < b.1 + 16 * (b.2 + c.2) <-> (b.1 <= x < b.1 + 16 * b.2 \/ c.1 <= x < c.1 + 16 * c.2)) as -> by lia.
  tauto.
Qed.

Lemma join_sorted b R : 0 <= b.2 -> Forall (fun c => 0 < c.2) R -> StronglySorted before R -> Forall (fun c => stop b <= c.1) R ->
  StronglySorted before (join b R).
Proof.
  intros Hb HR Hs Hle. unfold join. destruct R as [|c R]; [repeat constructor|].
  inversion_clear Hs as [|? ? Hs' Hc]. inversion_clear HR as [|? ? Hc2 HR']. inversion_clear Hle as [|? ? Hbc _].
  case_match eqn:E; bool_hyps.
  - constructor; [done|]. eapply Forall_impl; [exact Hc|]. unfold before, stop, HDR in *. cbn. lia.
  - constructor; [by constructor|]. unfold before, stop, HDR in *. constructor; [lia|].
    eapply Forall_impl; [exact Hc|]. cbn. lia.
Qed.

Lemma join_shape b R : Forall (fun c => 0 < c.2) R -> exists n R', join b R = (b.1, n) :: R' /\ b.2 <= n.
Proof.
  intros HR. unfold join. destruct b as [b n], R as [|c R]; cbn; [by exists n, []|]. apply Forall_cons in HR as [Hc _].
  case_match; eexists _, _; (split; [done|lia]).
Qed.

Lemma join_elem b c R : c ∈ join b R ->
  c ∈ R \/ c = b \/ exists d, d ∈ R /\ c = (b.1, b.2 + d.2) /\ stop b = d.1.
Proof.
  unfold join. destruct R as [|d R].
  - intros ->%list_elem_of_singleton. by right; left.
  - case_match eqn:E; rewrite !elem_of_cons; [apply Z.eqb_eq in E|]; intros Hc; [|tauto].
    destruct Hc as [->|Hc]; [|by left; right]. right; right. exists d. rewrite elem_of_cons. by split; [left|].
Qed.

Lemma join_length b R : (length (join b R) <= S (length R))%nat.
Proof. unfold join. destruct R as [|c R]; [done|]. case_match; cbn; lia. Qed.

(** The list with the block [b] put in its place, between [p] and [N2]. *)
Lemma put_sorted N1 p b N2 : StronglySorted before (N1 ++ p :: N2) -> 0 <= p.2 -> 0 < b.2 -> Forall (fun c => 0 < c.2) N2 ->
  stop p <= b.1 -> Forall (fun c => stop b <= c.1) N2 ->
  StronglySorted before (N1 ++ join p (join b N2)).
Proof.
  intros Hs Hp Hb HN2 Hpb HbN. apply StronglySorted_app in Hs as (H12 & H1 & H2). apply StronglySorted_cons in H2 as [_ H2].
  assert (Hb2 : Forall (fun c => b.1 <= c.1 /\ 0 < c.2) (join b N2)).
  { apply Forall_forall. intros c [Hc|[->|(d & Hd & -> & _)]]%join_elem; [|lia|pose proof (proj1 (Forall_forall _ _) HN2 d Hd); cbn in *; lia].
    all_at HbN Hc. all_at HN2 Hc. unfold stop, HDR in *. lia. }
  apply StronglySorted_app. split_and!; [|done|].
  - intros x y Hx Hy. assert (Hxp : before x p) by (apply H12; [done|by left]). unfold before in *.
    apply join_elem in Hy as [Hy|[->|(d & _ & -> & _)]]; [|done|done].
    all_at Hb2 Hy. unfold stop, HDR in *. lia.
  - apply join_sorted; [done| | |].
    + eapply Forall_impl; [exact Hb2|]. by intros c [_ ?].
    + apply join_sorted; [lia|done|done|done].
    + eapply Forall_impl; [exact Hb2|]. cbn. lia.
Qed.

Lemma put_cover N1 p b N2 x : 0 <= p.2 -> 0 < b.2 -> Forall (fun c => 0 < c.2) N2 ->
  cover (N1 ++ join p (join b N2)) x <-> cover (N1 ++ p :: N2) x \/ inside b x.
Proof.
  intros Hp Hb HN2. assert (HN : Forall (fun c : block => 0 <= c.2) N2) by (eapply Forall_impl; [exact HN2|]; cbn; lia).
  rewrite !cover_app, cover_cons, join_cover; [rewrite join_cover by (done || lia); tauto|done|].
  apply Forall_forall. intros c [Hc|[->|(d & Hd & -> & _)]]%join_elem.
  - by apply (proj1 (Forall_forall _ _) HN).
  - lia.
  - all_at HN Hd. cbn in *. lia.
Qed.

(** The block is inside of one of the list. *)
Lemma put_has p b N2 : Forall (fun c => 0 < c.2) N2 -> p.1 <= b.1 -> 
  exists c, c ∈ join p (join b N2) /\ c.1 <= b.1 /\ stop b <= stop c.
Proof.
  intros HN Hpb. destruct (join_shape b N2 HN) as (n & R & -> & Hn). unfold join. destruct (stop p =? (b.1, n).1) eqn:E.
  - apply Z.eqb_eq in E. eexists. split; [by left|]. unfold stop, HDR in *. cbn in *. lia.
  - exists (b.1, n). split; [right; by left|]. unfold stop, HDR in *. cbn. lia.
Qed.

(** * The ring of headers *)

(** From [x] the pointers lead along [l] to [z]. *)
Fixpoint path (ptr : gmap Z Z) (x : Z) (l : list Z) (z : Z) : Prop :=
  match l with
  | [] => ptr !! x = Some z
  | y :: l' => ptr !! x = Some y /\ path ptr y l' z
  end.

Lemma path_app ptr x l1 y l2 z : path ptr x (l1 ++ y :: l2) z <-> path ptr x l1 y /\ path ptr y l2 z.
Proof.
  revert x. induction l1 as [|u l1 IH]; intros x; cbn [app path]; [done|]. rewrite IH. tauto.
Qed.

Lemma path_lookup ptr x l z i y : path ptr x l z -> (x :: l) !! i = Some y -> ptr !! y = Some (default z (l !! i)).
Proof.
  revert x i. induction l as [|u l IH]; intros x [|i] Hp Hi; cbn [path] in Hp.
  - by injection Hi as <-.
  - by destruct i.
  - injection Hi as <-. apply Hp.
  - destruct Hp as [_ Hp]. exact (IH u i Hp Hi).
Qed.

Lemma path_ext ptr ptr' x l z : (forall y, y = x \/ y ∈ l -> ptr' !! y = ptr !! y) -> path ptr x l z -> path ptr' x l z.
Proof.
  revert x. induction l as [|u l IH]; intros x H; cbn [path]; rewrite H by (by left); [done|].
  intros [? Hp]. split; [done|]. apply IH; [|done]. intros y Hy. apply H. right. set_solver.
Qed.

(** * The state of the allocator *)

Section Malloc.
Context (base : Z).

(** User memory ends far below this. *)
Definition LIMIT : Z := 68719476736.

(** [fl] are the free blocks in order, [al] the blocks in use, all below [top]. *)
Record rep (top : Z) (h : heap) (fl : list block) (al : gmap Z Z) : Prop := Rep {
  rp_base : 0 < base /\ base + HDR <= top <= LIMIT;
  rp_ring : path (hp_ptr h) base fl.*1 base;
  rp_sizes : Forall (fun b => hp_size h !! b.1 = Some b.2) ((base, 0) :: fl);
  rp_sorted : StronglySorted before ((base, 0) :: fl);
  rp_pos : Forall (fun b => 0 < b.2 /\ stop b <= top) fl;
  rp_low : forall x, cover fl x -> base + HDR <= x;
  rp_freep : hp_freep h ∈ base :: fl.*1;
  rp_al : forall a n, al !! a = Some n -> 0 < n /\ hp_size h !! a = Some n /\ base + HDR <= a /\ a + HDR * n <= top;
  rp_al_free : forall a n x, al !! a = Some n -> inside (a, n) x -> ~ cover fl x;
  rp_al_al : forall a n a' n' x, al !! a = Some n -> al !! a' = Some n' -> inside (a, n) x -> inside (a', n') x -> a = a' }.

Implicit Types (fl N : list block) (al : gmap Z Z) (h : heap).

Lemma rep_facts top h fl al b : rep top h fl al -> b ∈ fl -> base < b.1 /\ 0 < b.2 /\ stop b <= top /\ hp_size h !! b.1 = Some b.2.
Proof.
  intros H Hb. pose proof (proj1 (Forall_forall _ _) (rp_pos _ _ _ _ H) b Hb) as [Hp Ht].
  pose proof (rp_sorted _ _ _ _ H) as Hs. apply StronglySorted_cons in Hs as [Hs _].
  all_at Hs Hb as Hbb. unfold before, stop, HDR in Hbb. cbn in Hbb.
  pose proof (rp_sizes _ _ _ _ H) as Hz. apply Forall_cons in Hz as [_ Hz].
  split_and!; [lia|done|done|by apply (proj1 (Forall_forall _ _) Hz)].
Qed.

(** A block with room of its own lies before or after each free block. *)
Lemma apart b c : 0 < b.2 -> 0 < c.2 -> (forall x, inside b x -> ~ inside c x) -> stop b <= c.1 \/ stop c <= b.1.
Proof.
  intros Hb Hc H. unfold inside, stop, HDR in *.
  destruct (decide (b.1 + 16 * b.2 <= c.1)) as [|H1]; [by left|]. destruct (decide (c.1 + 16 * c.2 <= b.1)) as [|H2]; [by right|].
  exfalso. apply (H (Z.max b.1 c.1)); lia.
Qed.

(** [bp] is new memory for the free list. *)
Definition fresh (top : Z) h fl (b : block) : Prop := 0 < b.2 /\ base + HDR <= b.1 /\ stop b <= top /\
  hp_size h !! b.1 = Some b.2 /\ forall x, inside b x -> ~ cover fl x.

Lemma fresh_apart top h fl b c : fresh top h fl b -> 0 < c.2 -> c ∈ fl -> stop b <= c.1 \/ stop c <= b.1.
Proof. intros (Hb & _ & _ & _ & Hx) Hc Hin. apply apart; [done|done|]. intros x H1 H2. apply (Hx x H1). by exists c. Qed.

(** Where a new block goes. *)
Lemma place top h fl al b : rep top h fl al -> fresh top h fl b -> exists N1 p N2, (base, 0) :: fl = N1 ++ p :: N2 /\
  stop p <= b.1 /\ p.1 < b.1 /\ Forall (fun c => stop b <= c.1) N2.
Proof.
  intros H Hf. destruct Hf as (Hb2 & Hbb & Hbt & Hbs & Hbx).
  assert (Hgen : forall N, StronglySorted before N -> (forall c, c ∈ N -> 0 <= c.2 /\ (stop c <= b.1 /\ c.1 < b.1 \/ stop b <= c.1)) ->
    forall c0, stop c0 <= b.1 /\ c0.1 < b.1 -> exists N1 p N2, c0 :: N = N1 ++ p :: N2 /\ stop p <= b.1 /\ p.1 < b.1 /\ Forall (fun c => stop b <= c.1) N2).
  { induction N as [|c N IH]; intros Hs Hc c0 H0.
    { exists [], c0, []. split_and!; [done|apply H0|apply H0|constructor]. }
    apply StronglySorted_cons in Hs as [Hall Hs].
    destruct (Hc c ltac:(by left)) as [Hc2 [Hlt|Hge]].
    - destruct (IH Hs (fun d Hd => Hc d ltac:(by right)) c Hlt) as (N1 & p & N2 & E & Hp).
      exists (c0 :: N1), p, N2. by rewrite E.
    - exists [], c0, (c :: N). split_and!; [done|apply H0|apply H0|]. constructor; [done|].
      eapply Forall_impl; [exact Hall|]. intros d. unfold before, stop, HDR in *. lia. }
  pose proof (rp_sorted _ _ _ _ H) as Hs. apply StronglySorted_cons in Hs as [_ Hs].
  apply Hgen; [done| |unfold stop, HDR in *; cbn; lia].
  intros c Hc. destruct (rep_facts _ _ _ _ c H Hc) as (Hc1 & Hc2 & _). split; [lia|].
  assert (Ha : stop b <= c.1 \/ stop c <= b.1).
  { apply apart; [done|done|]. intros x H1 H2. apply (Hbx x H1). by exists c. }
  unfold stop, HDR in *. lia.
Qed.

(** The free list is no longer than the number of headers. *)
Lemma rep_nodup top h fl al : rep top h fl al -> StronglySorted Z.lt (base :: fl.*1).
Proof.
  intros H. change (base :: fl.*1) with ((base, 0) :: fl).*1. 
  assert (Hp : Forall (fun b : block => 0 <= b.2) ((base, 0) :: fl)).
  { constructor; [done|]. eapply Forall_impl; [apply (rp_pos _ _ _ _ H)|]. cbn. lia. }
  pose proof (rp_sorted _ _ _ _ H) as Hs. revert Hs Hp. generalize ((base, 0) :: fl). clear. 
  induction l as [|b N IH]; intros Hs Hp; [constructor|]. apply StronglySorted_cons in Hs as [Hall Hs].
  apply Forall_cons in Hp as [Hb Hp]. cbn [fmap list_fmap]. apply StronglySorted_cons. split; [|by apply IH].
  apply Forall_fmap. eapply Forall_impl; [exact Hall|]. unfold before, stop, HDR. cbn. lia.
Qed.

Lemma sorted_lookup (xs : list Z) i j x y : StronglySorted Z.lt xs -> xs !! i = Some x -> xs !! j = Some y -> (i < j)%nat -> x < y.
Proof.
  revert i j. induction xs as [|u xs IH]; intros [|i] [|j] Hs Hi Hj Hlt; try done; try lia; apply StronglySorted_cons in Hs as [Hall Hs].
  - injection Hi as ->. by apply (Forall_lookup_1 _ _ _ _ Hall Hj).
  - apply (IH i j); done || lia.
Qed.

Lemma path_keys ptr x l z : path ptr x l z -> list_to_set (x :: l) ⊆ dom ptr.
Proof.
  intros Hp y. rewrite elem_of_list_to_set. intros [i Hi]%list_elem_of_lookup_1. apply elem_of_dom.
  rewrite (path_lookup _ _ _ _ _ _ Hp Hi). by eexists.
Qed.

Lemma ring_size top h fl al : rep top h fl al -> (length (base :: fl.*1) <= size (hp_ptr h))%nat.
Proof.
  intros H. rewrite <- size_dom. rewrite <- (size_list_to_set (C := gset Z) (base :: fl.*1)).
  - apply subseteq_size, path_keys with (z := base), H.
  - pose proof (rep_nodup _ _ _ _ H) as Hs. apply NoDup_alt. intros i j x Hi Hj.
    destruct (Nat.lt_trichotomy i j) as [Hlt|[E|Hlt]]; [|done|].
    + pose proof (sorted_lookup _ _ _ _ _ Hs Hi Hj Hlt). lia.
    + pose proof (sorted_lookup _ _ _ _ _ Hs Hj Hi Hlt). lia.
Qed.

(** ** Steps of the programs *)

Lemma wp_geth {A} E (f : heap -> A) h (Q : A -> heap -> Prop) : Q (f h) h -> wp E (geth f) Q h.
Proof. done. Qed.
Lemma wp_get_ptr E p q h (Q : Z -> heap -> Prop) : hp_ptr h !! p = Some q -> Q q h -> wp E (get_ptr p) Q h.
Proof. intros Hp HQ. unfold get_ptr. wp_step. apply wp_geth. rewrite Hp. by apply (wp_ret E). Qed.
Lemma wp_get_size E p n h (Q : Z -> heap -> Prop) : hp_size h !! p = Some n -> Q n h -> wp E (get_size p) Q h.
Proof. intros Hp HQ. unfold get_size. wp_step. apply wp_geth. rewrite Hp. by apply (wp_ret E). Qed.

Lemma plus_small p n : 0 <= p + HDR * n < 18446744073709551616 -> plus p n = p + HDR * n.
Proof. intros H. unfold plus. rewrite u64_small; unfold HDR in *; lia. Qed.

(** The rounds from the header [i] of a ring of [len] to the header [t]. *)
Definition rounds (len i t : nat) : nat := if (i <=? t)%nat then (t - i)%nat else (len - i + t)%nat.

(** The place of a new block, by index: the headers up to [t] are before it. *)
Lemma place_index top h fl al b : rep top h fl al -> fresh top h fl b -> exists t p N1 m N2,
  (base, 0) :: fl = N1 ++ (p, m) :: N2 /\ stop (p, m) <= b.1 /\ p < b.1 /\ Forall (fun c => stop b <= c.1) N2 /\
  (base :: fl.*1) !! t = Some p /\
  forall i x, (base :: fl.*1) !! i = Some x -> if (i <=? t)%nat then x < b.1 else b.1 < x.
Proof.
  intros H Hf. destruct (place _ _ _ _ _ H Hf) as (N1 & [p m] & N2 & E & Hp1 & Hp2 & HN2). cbn [fst] in Hp2.
  assert (Exs : base :: fl.*1 = N1.*1 ++ p :: N2.*1) by (change (base :: fl.*1) with ((base, 0) :: fl).*1; by rewrite E, fmap_app).
  assert (Ht : (base :: fl.*1) !! length N1 = Some p) by (rewrite Exs; apply list_lookup_middle; by rewrite length_fmap).
  exists (length N1), p, N1, m, N2. split_and!; try done. intros i x Hi. destruct (Nat.leb_spec i (length N1)) as [Hle|Hgt].
  - destruct (decide (i = length N1)) as [->|Hne]; [rewrite Hi in Ht; by injection Ht as ->|].
    pose proof (sorted_lookup _ _ _ _ _ (rep_nodup _ _ _ _ H) Hi Ht ltac:(lia)). lia.
  - rewrite Exs, lookup_app_r in Hi by (rewrite length_fmap; lia). rewrite length_fmap in Hi.
    replace (i - length N1)%nat with (S (i - length N1 - 1)) in Hi by lia. cbn in Hi.
    apply list_elem_of_lookup_2, list_elem_of_fmap_1 in Hi as (c & -> & Hc). all_at HN2 Hc.
    destruct Hf as (? & _). unfold stop, HDR in *. lia.
Qed.

Lemma wp_find_place top h fl al b : rep top h fl al -> fresh top h fl b ->
  wp total (find_place b.1) (fun p h' => h' = h /\ exists N1 m N2, (base, 0) :: fl = N1 ++ (p, m) :: N2 /\
    stop (p, m) <= b.1 /\ p < b.1 /\ Forall (fun c => stop b <= c.1) N2) h.
Proof.
  intros H Hf. destruct (place_index _ _ _ _ _ H Hf) as (t & p & N1 & m & N2 & E & Hp1 & Hp2 & HN2 & Ht & Hside).
  assert (Hbase : base < b.1) by (destruct Hf as (_ & ? & _); unfold HDR in *; lia).
  pose proof (rep_nodup _ _ _ _ H) as Hs. pose proof (rp_ring _ _ _ _ H) as Hr. pose proof (ring_size _ _ _ _ H) as Hsz.
  set (len := length (base :: fl.*1)) in *. assert (Htl : (t < len)%nat) by (by apply lookup_lt_Some in Ht).
  unfold find_place. wp_step. apply wp_geth. wp_step. unfold ring_fuel. wp_step. apply wp_geth. apply (wp_ret total).
  destruct (list_elem_of_lookup_1 _ _ (rp_freep _ _ _ _ H)) as [i0 Hi0].
  apply (wp_loop_rounds total (fun n x h' => h' = h /\ exists i, (base :: fl.*1) !! i = Some x /\ n = rounds len i t) _ _ (rounds len i0 t)).
  - split; [done|]. by exists i0.
  - pose proof (lookup_lt_Some _ _ _ Hi0). unfold rounds. destruct (Nat.leb_spec i0 t); lia.
  - intros n x h' (-> & i & Hi & ->). pose proof (lookup_lt_Some _ _ _ Hi) as Hil. fold len in Hil.
    wp_step. eapply wp_get_ptr; [by eapply path_lookup|]. pose proof (Hside i x Hi) as Hx.
    assert (Hfound : i = t -> h = h /\ exists N1 m N2, (base, 0) :: fl = N1 ++ (x, m) :: N2 /\
      stop (x, m) <= b.1 /\ x < b.1 /\ Forall (fun c => stop b <= c.1) N2).
    { intros ->. rewrite Hi in Ht. injection Ht as ->. split; [done|]. by exists N1, m, N2. }
    rewrite !Z.gtb_ltb, !Z.geb_leb. destruct (fl.*1 !! i) as [q|] eqn:Eq; cbn [default]; unfold id.
    + assert (Hq : (base :: fl.*1) !! S i = Some q) by done. pose proof (lookup_lt_Some _ _ _ Hq) as Hql. fold len in Hql.
      pose proof (sorted_lookup _ _ _ _ _ Hs Hi Hq ltac:(lia)). pose proof (Hside (S i) q Hq) as Hqs.
      destruct (Z.ltb_spec x b.1), (Z.ltb_spec b.1 q), (Z.leb_spec q x), (Nat.leb_spec i t), (Nat.leb_spec (S i) t);
        try lia; cbn [andb orb]; apply (wp_ret total); try (apply Hfound; lia);
        (eexists; split; [|split; [done|exists (S i); by split]]); unfold rounds;
        destruct (Nat.leb_spec i t), (Nat.leb_spec (S i) t); lia.
    + apply lookup_ge_None_1 in Eq. assert (Hlast : i = (len - 1)%nat) by (unfold len in *; cbn [length] in *; lia).
      assert (Hbx : base <= x).
      { destruct i as [|i]; [by injection Hi as ->|]. pose proof (sorted_lookup _ 0 (S i) base x Hs eq_refl Hi ltac:(lia)). lia. }
      destruct (Z.ltb_spec x b.1), (Z.ltb_spec b.1 base), (Z.leb_spec base x), (Nat.leb_spec i t);
        try lia; cbn [andb orb]; apply (wp_ret total); try (apply Hfound; lia).
      eexists. split; [|split; [done|exists 0%nat; by split]]. unfold rounds.
      destruct (Nat.leb_spec i t), (Nat.leb_spec 0 t); lia.
Qed.

(** ** Joining a block to the one after it *)

(** The headers of [R] are linked in this order, the last one to [base]. *)
Definition linked h (R : list block) : Prop :=
  match R with [] => True | c :: R' => path (hp_ptr h) c.1 R'.*1 base end /\
  Forall (fun c => hp_size h !! c.1 = Some c.2) R.

Definition next_of (R : list block) : Z := match R with [] => base | c :: _ => c.1 end.

Definition only_at (x : Z) h h' : Prop := hp_freep h' = hp_freep h /\ hp_user h' = hp_user h /\
  forall y, y <> x -> hp_ptr h' !! y = hp_ptr h !! y /\ hp_size h' !! y = hp_size h !! y.

Lemma linked_only_at h h' x R : only_at x h h' -> x ∉ R.*1 -> linked h R -> linked h' R.
Proof.
  intros (_ & _ & Hx) Hn [Hp Hz]. split.
  - destruct R as [|c R]; [done|]. eapply path_ext; [|exact Hp]. intros y Hy. apply Hx. intros ->. apply Hn.
    cbn. rewrite elem_of_cons. tauto.
  - apply Forall_forall. intros c Hc. pose proof (proj1 (Forall_forall _ _) Hz c Hc) as <-. apply Hx.
    intros <-. by apply Hn, list_elem_of_fmap_2.
Qed.

Lemma wp_join b R h (Q : unit -> heap -> Prop) : linked h R -> hp_size h !! b.1 = Some b.2 -> b.1 ∉ R.*1 ->
  0 <= stop b < 18446744073709551616 -> (R = [] -> stop b <> base) -> Forall (fun c => 0 <= b.2 + c.2 < 4294967296) R ->
  (forall h', linked h' (join b R) -> only_at b.1 h h' -> Q tt h') ->
  wp total (if plus b.1 b.2 =? next_of R then
     k <- get_size (next_of R) ;;
     set_size b.1 (u32 (b.2 + k)) ;;;
     q <- get_ptr (next_of R) ;;
     set_ptr b.1 q
   else set_ptr b.1 (next_of R)) Q h.
Proof.
  intros [Hp Hz] Hb Hn Hst Hend Hlim HQ. rewrite plus_small by done. change (b.1 + HDR * b.2) with (stop b).
  destruct R as [|c R]; cbn [next_of].
  - rewrite (proj2 (Z.eqb_neq _ _)) by (by apply Hend). apply wp_modify, HQ.
    + split; cbn; [by rewrite lookup_insert_eq|]. by repeat constructor.
    + split_and!; [done|done|]. intros y Hy. cbn. by rewrite lookup_insert_ne.
  - apply Forall_cons in Hz as [Hc Hz]. apply Forall_cons in Hlim as [Hlim _]. cbn [join].
    assert (Hbc : b.1 <> c.1) by (intros E; apply Hn; rewrite E; by left).
    assert (Hbs : Forall (fun c0 : block => hp_size h !! c0.1 = Some c0.2 /\ c0.1 <> b.1) R).
    { apply Forall_forall. intros d Hd. split; [by apply (proj1 (Forall_forall _ _) Hz)|]. intros E. apply Hn. right.
      rewrite <- E. by apply list_elem_of_fmap_2. }
    assert (Hpath : forall x, path (<[b.1 := x]> (hp_ptr h)) c.1 R.*1 base).
    { intros x. eapply path_ext; [|exact Hp]. intros y Hy. rewrite lookup_insert_ne; [done|]. intros <-. apply Hn.
      cbn. rewrite elem_of_cons. tauto. }
    cbn [join] in HQ. destruct (stop b =? c.1) eqn:E.
    + wp_step. eapply wp_get_size; [exact Hc|]. wp_step. apply wp_modify. wp_step.
      assert (Hq : exists q, hp_ptr h !! c.1 = Some q /\ path (<[b.1 := q]> (hp_ptr h)) b.1 R.*1 base).
      { destruct R as [|d R]; cbn [fmap list_fmap path] in Hp |- *; [exists base|exists d.1]; rewrite lookup_insert_eq.
        - done.
        - destruct Hp as [Hp1 Hp2]. split; [done|]. split; [done|]. by apply (Hpath d.1). }
      destruct Hq as (q & Hq & Hpq). eapply wp_get_ptr; [exact Hq|]. apply wp_modify, HQ.
      * rewrite u32_small by done. split; [exact Hpq|cbn]. constructor; [by rewrite lookup_insert_eq|].
        eapply Forall_impl; [exact Hbs|]. intros d [Hd Hdb]. by rewrite lookup_insert_ne.
      * split_and!; [done|done|]. intros y Hy. cbn. by rewrite !lookup_insert_ne.
    + apply wp_modify, HQ.
      * split; cbn; [rewrite lookup_insert_eq; split; [done|apply Hpath]|]. constructor; [done|]. constructor; [done|].
        eapply Forall_impl; [exact Hbs|]. by intros d [Hd _].
      * split_and!; [done|done|]. intros y Hy. cbn. by rewrite lookup_insert_ne.
Qed.

(** ** [free] *)

Lemma cover_base fl x : cover ((base, 0) :: fl) x <-> cover fl x.
Proof. rewrite cover_cons. unfold inside, stop, HDR. cbn. intuition lia. Qed.

(** The free list with one block more. *)
Lemma put_block top fl N1 p N2 b : (base, 0) :: fl = N1 ++ p :: N2 -> 0 < b.2 -> stop b <= top ->
  StronglySorted before ((base, 0) :: fl) -> Forall (fun c => 0 < c.2 /\ stop c <= top) fl ->
  stop p <= b.1 -> p.1 < b.1 -> Forall (fun c => stop b <= c.1) N2 ->
  exists fl', N1 ++ join p (join b N2) = (base, 0) :: fl' /\ StronglySorted before ((base, 0) :: fl') /\
    Forall (fun c => 0 < c.2 /\ stop c <= top) fl' /\ (forall x, cover fl' x <-> cover fl x \/ inside b x) /\
    (length fl' <= S (length fl))%nat /\ exists c, c ∈ fl' /\ c.1 <= b.1 /\ stop b <= stop c.
Proof.
  intros E Hb Hbt Hs Hpos Hpb Hp1 HbN.
  assert (HN2 : Forall (fun c => 0 < c.2 /\ stop c <= top) N2).
  { destruct N1 as [|c N1]; injection E as _ ->; [done|]. by apply Forall_app in Hpos as [_ [_ ?]%Forall_cons]. }
  assert (HN2' : Forall (fun c : block => 0 < c.2) N2) by (eapply Forall_impl; [exact HN2|]; by intros c [? _]).
  assert (Hp2 : 0 <= p.2 /\ (N1 <> [] -> 0 < p.2)).
  { destruct N1 as [|c N1]; injection E as E1 E2; [subst p; cbn; split; [lia|done]|]. subst fl.
    apply Forall_app in Hpos as [_ [[? _] _]%Forall_cons]. split; [lia|done]. }
  assert (Hshape : exists fl', N1 ++ join p (join b N2) = (base, 0) :: fl').
  { destruct N1 as [|c N1]; injection E as E1 E2; [|subst c; by eexists]. subst p.
    destruct (join_shape b N2 HN2') as (n & R & -> & _). unfold join. cbn [fst]. rewrite (proj2 (Z.eqb_neq _ _)); [by eexists|].
    unfold stop, HDR in *. cbn in *. lia. }
  destruct Hshape as [fl' E']. exists fl'. split; [done|].
  assert (Hlen : (length fl' <= S (length fl))%nat).
  { apply (f_equal length) in E, E'. rewrite length_app in E, E'. cbn [length] in E, E'. pose proof (join_length p (join b N2)).
    pose proof (join_length b N2). lia. }
  rewrite E in Hs. pose proof (put_sorted _ _ _ _ Hs ltac:(lia) Hb HN2' Hpb HbN) as Hs'. rewrite E' in Hs'.
  assert (Hall : forall c, c ∈ N1 ++ p :: N2 -> (0 < c.2 /\ stop c <= top) \/ c = (base, 0)).
  { intros c Hc. rewrite <- E in Hc. apply elem_of_cons in Hc as [->|Hc]; [by right|]. left. by apply (proj1 (Forall_forall _ _) Hpos). }
  assert (Hpos' : Forall (fun c => 0 < c.2 /\ stop c <= top) fl').
  { apply StronglySorted_cons in Hs' as [Hbase _]. apply Forall_forall. intros c Hc.
    all_at Hbase Hc as Hbc.
    assert (Hor : (0 < c.2 /\ stop c <= top) \/ c = (base, 0)).
    { assert (Hin : c ∈ N1 ++ join p (join b N2)) by (rewrite E'; by right).
      apply elem_of_app in Hin as [Hin|Hin]; [apply Hall, elem_of_app; by left|].
      assert (Hjb : forall d, d ∈ join b N2 -> 0 < d.2 /\ stop d <= top).
      { intros d [Hd|[->|(e & He & -> & He2)]]%join_elem; [by apply (proj1 (Forall_forall _ _) HN2)|done|].
        destruct (proj1 (Forall_forall _ _) HN2 e He). unfold stop, HDR in *. cbn in *. lia. }
      apply join_elem in Hin as [Hin|[->|(d & Hd & -> & Hd2)]]; [by left; apply Hjb|apply Hall, elem_of_app; right; by left|].
      left. destruct (Hjb d Hd). destruct Hp2. unfold stop, HDR in *. cbn in *. lia. }
    destruct Hor as [?| ->]; [done|]. exfalso. unfold before, stop, HDR in Hbc. cbn in Hbc. lia. }
  split_and!; [done|done| |done|].
  - intros x. rewrite <- (cover_base fl'), <- (cover_base fl), <- E', E. apply put_cover; [lia|done|done].
  - destruct (put_has p b N2 HN2' ltac:(lia)) as (c & Hc & Hcb & Hcs). exists c.
    assert (Hin : c ∈ N1 ++ join p (join b N2)) by (apply elem_of_app; by right).
    rewrite E' in Hin. apply elem_of_cons in Hin as [->|Hin]; [|done]. exfalso.
    unfold stop, HDR in *. cbn in *. lia.
Qed.

Lemma linked_tail h N1 p N2 : path (hp_ptr h) base (tail (N1 ++ p :: N2)).*1 base -> (forall c N1', N1 = c :: N1' -> c.1 = base) ->
  (N1 = [] -> p.1 = base) ->
  path (hp_ptr h) p.1 N2.*1 base /\ (N1 <> [] -> path (hp_ptr h) base (tail N1).*1 p.1).
Proof.
  intros Hp Hc Hn. destruct N1 as [|c N1]; cbn [app tail] in Hp.
  - rewrite <- Hn in Hp at 1 by done. by split.
  - rewrite fmap_app, fmap_cons in Hp. by apply path_app in Hp as [? ?].
Qed.

(** The pointers and sizes of the new list. *)
Lemma ring_put h h' N1 p N2 J : path (hp_ptr h) base (tail (N1 ++ p :: N2)).*1 base ->
  (forall c N1', N1 = c :: N1' -> c.1 = base) -> (N1 = [] -> p.1 = base) ->
  Forall (fun c => hp_ptr h' !! c.1 = hp_ptr h !! c.1 /\ hp_size h' !! c.1 = Some c.2) N1 ->
  linked h' J -> (exists n R, J = (p.1, n) :: R) ->
  path (hp_ptr h') base (tail (N1 ++ J)).*1 base /\ Forall (fun c => hp_size h' !! c.1 = Some c.2) (N1 ++ J).
Proof.
  intros Hp Hc Hn HN1 [HJp HJs] (n & R & ->). destruct (linked_tail _ _ _ _ Hp Hc Hn) as [_ H1]. split.
  - destruct N1 as [|c N1]; cbn [app tail].
    + rewrite <- Hn at 1 by done. exact HJp.
    + rewrite fmap_app, fmap_cons. apply path_app. split; [|exact HJp].
      specialize (H1 ltac:(done)). cbn [tail] in H1. apply Forall_cons in HN1 as [[Hcp _] HN1].
      rewrite (Hc c N1 eq_refl) in Hcp. eapply path_ext; [|exact H1]. intros y [->|Hy]; [done|].
      apply list_elem_of_fmap_1 in Hy as (d & -> & Hd). by destruct (proj1 (Forall_forall _ _) HN1 d Hd).
  - apply Forall_app. split; [|done]. eapply Forall_impl; [exact HN1|]. by intros c [_ ?].
Qed.

(** What is known around a place in the list. *)
Record around (top : Z) h N1 (p m : Z) N2 : Prop := Around {
  ar_ring : path (hp_ptr h) base (tail (N1 ++ (p, m) :: N2)).*1 base;
  ar_head : (forall c N1', N1 = c :: N1' -> c.1 = base) /\ (N1 = [] -> p = base);
  ar_next : path (hp_ptr h) p N2.*1 base;
  ar_size : hp_size h !! p = Some m /\ 0 <= m /\ base <= p;
  ar_before : Forall (fun c => hp_size h !! c.1 = Some c.2 /\ c.1 < p) N1;
  ar_after : Forall (fun c => hp_size h !! c.1 = Some c.2 /\ 0 < c.2 /\ p < c.1 /\ stop c <= top) N2 }.

Lemma rep_around top h fl al N1 p m N2 : rep top h fl al -> (base, 0) :: fl = N1 ++ (p, m) :: N2 -> around top h N1 p m N2.
Proof.
  intros H E. pose proof (rp_ring _ _ _ _ H) as Hring. change fl with (tail ((base, 0) :: fl)) in Hring. rewrite E in Hring.
  assert (Hc1 : forall c N1', N1 = c :: N1' -> c.1 = base) by (intros c N1' ->; by injection E as <- _).
  assert (Hn1 : N1 = [] -> p = base) by (intros ->; by injection E as <- <- _).
  destruct (linked_tail _ _ _ _ Hring Hc1 Hn1) as [Hpath _].
  assert (Hin : forall c, c ∈ N1 ++ (p, m) :: N2 -> 0 <= c.2 /\ base <= c.1 /\ hp_size h !! c.1 = Some c.2 /\ (c <> (base, 0) -> 0 < c.2 /\ stop c <= top)).
  { intros c Hc. rewrite <- E in Hc. pose proof (proj1 (Forall_forall _ _) (rp_sizes _ _ _ _ H) c Hc) as Hz.
    apply elem_of_cons in Hc as [->|Hc]; [by split_and!|]. destruct (rep_facts _ _ _ _ _ H Hc) as (? & ? & ? & ?). by split_and!; [lia|lia|..]. }
  pose proof (rp_sorted _ _ _ _ H) as Hs. rewrite E in Hs. apply StronglySorted_app in Hs as (Hs1 & _ & Hs2).
  apply StronglySorted_cons in Hs2 as [Hs2 _]. destruct (Hin (p, m)) as (Hp1 & Hp2 & Hp3 & _); [apply elem_of_app; right; by left|].
  split; try done.
  - apply Forall_forall. intros c Hc. destruct (Hin c ltac:(apply elem_of_app; by left)) as (? & _ & ? & _). split; [done|].
    pose proof (Hs1 c (p, m) Hc ltac:(by left)) as Hb. unfold before, stop, HDR in Hb. cbn [fst snd] in Hb. lia.
  - apply Forall_forall. intros c Hc. destruct (Hin c ltac:(apply elem_of_app; right; by right)) as (? & _ & Hz & Hpos).
    all_at Hs2 Hc as Hb. unfold before, stop, HDR in Hb. cbn [fst snd] in Hb, Hp1, Hp2.
    destruct Hpos as [? ?]; [intros ->; cbn [fst snd] in Hb; lia|]. split_and!; [done|done|lia|done].
Qed.

(** The two joins of [free]. *)
Lemma wp_put top h N1 p m N2 b (Q : unit -> heap -> Prop) : around top h N1 p m N2 -> 0 < base -> top <= LIMIT ->
  0 < b.2 -> stop b <= top -> hp_size h !! b.1 = Some b.2 -> stop (p, m) <= b.1 -> p < b.1 -> Forall (fun c => stop b <= c.1) N2 ->
  (forall h', path (hp_ptr h') base (tail (N1 ++ join (p, m) (join b N2))).*1 base ->
    Forall (fun c => hp_size h' !! c.1 = Some c.2) (N1 ++ join (p, m) (join b N2)) ->
    hp_user h' = hp_user h -> hp_freep h' = p ->
    (forall y, y <> p -> y <> b.1 -> hp_size h' !! y = hp_size h !! y) -> Q tt h') ->
  wp total (n <- get_size b.1 ;;
    q <- get_ptr p ;;
    (if plus b.1 n =? q then
       k <- get_size q ;; set_size b.1 (u32 (n + k)) ;;; q' <- get_ptr q ;; set_ptr b.1 q'
     else set_ptr b.1 q) ;;;
    m <- get_size p ;;
    (if plus p m =? b.1 then
       n <- get_size b.1 ;; set_size p (u32 (m + n)) ;;; q <- get_ptr b.1 ;; set_ptr p q
     else set_ptr p b.1) ;;;
    set_freep p) Q h.
Proof.
  intros [Hring [Hc1 Hn1] Hnext (Hpm & Hm & Hbp) HN1 HN2] Hbase Htop Hb2 Hbt Hbs Hpb Hp1 HbN HQ. unfold LIMIT in Htop.
  assert (HN2' : Forall (fun c : block => 0 < c.2) N2) by (eapply Forall_impl; [exact HN2|]; by intros c (_ & ? & _)).
  assert (Hstop : b.1 < stop b) by (unfold stop, HDR in *; lia).
  wp_step. eapply wp_get_size; [exact Hbs|]. wp_step. eapply (wp_get_ptr _ _ (next_of N2)); [destruct N2; [exact Hnext|apply Hnext]|].
  wp_step. apply (wp_join b N2); [| |intros (c & Hc & Hin)%list_elem_of_fmap_1|lia|lia| |].
  { split; [destruct N2; [done|apply Hnext]|]. eapply Forall_impl; [exact HN2|]. by intros c [? _]. }
  { done. }
  { all_at HbN Hin. lia. }
  { apply Forall_forall. intros c Hc. all_at HbN Hc.
    destruct (proj1 (Forall_forall _ _) HN2 c Hc) as (_ & ? & _ & ?). unfold stop, HDR in *. lia. }
  intros h1 Hl1 Ho1. pose proof Ho1 as (Hf1 & Hu1 & Hsame1).
  assert (En : next_of (join b N2) = b.1) by (by destruct (join_shape b N2 HN2') as (n & R & -> & _)).
  assert (HJ : Forall (fun c => b.1 <= c.1 /\ 0 < c.2 /\ stop c <= top) (join b N2)).
  { apply Forall_forall. intros c [Hc|[->|(d & Hd & -> & He)]]%join_elem.
    - destruct (proj1 (Forall_forall _ _) HN2 c Hc) as (_ & ? & _ & ?). all_at HbN Hc. lia.
    - lia.
    - destruct (proj1 (Forall_forall _ _) HN2 d Hd) as (_ & ? & _ & ?). unfold stop, HDR in *. cbn in *. lia. }
  wp_step. eapply (wp_get_size _ _ m); [rewrite (proj2 (Hsame1 p ltac:(lia))); exact Hpm|]. wp_step. rewrite <- En.
  apply (wp_join (p, m) (join b N2)); [exact Hl1|cbn; rewrite (proj2 (Hsame1 p ltac:(lia))); exact Hpm| | | | |].
  { intros (c & Hc & Hin)%list_elem_of_fmap_1. all_at HJ Hin. cbn in Hc. lia. }
  { unfold stop, HDR in *. cbn in *. lia. }
  { destruct (join_shape b N2 HN2') as (n & R & -> & _). done. }
  { eapply Forall_impl; [exact HJ|]. intros c (? & ? & ?). unfold stop, HDR in *. cbn in *. lia. }
  intros h2 Hl2 (Hf2 & Hu2 & Hsame2). cbn [fst] in Hsame2.
  assert (Hsame : forall y, y <> p -> y <> b.1 -> hp_ptr h2 !! y = hp_ptr h !! y /\ hp_size h2 !! y = hp_size h !! y).
  { intros y Hyp Hyb. destruct (Hsame1 y Hyb) as [<- <-]. by apply Hsame2. }
  assert (Hshape : exists n R, join (p, m) (join b N2) = (p, n) :: R).
  { destruct (join_shape (p, m) (join b N2)) as (n & R & ? & _); [|by exists n, R]. eapply Forall_impl; [exact HJ|]. by intros c (_ & ? & _). }
  assert (HN1' : Forall (fun c => hp_ptr h2 !! c.1 = hp_ptr h !! c.1 /\ hp_size h2 !! c.1 = Some c.2) N1).
  { eapply Forall_impl; [exact HN1|]. intros c [Hc Hlt]. by destruct (Hsame c.1 ltac:(lia) ltac:(lia)) as [-> ->]. }
  destruct (ring_put h h2 N1 (p, m) N2 _ Hring Hc1 Hn1 HN1' Hl2 Hshape) as [Hp' Hz'].
  apply wp_modify, HQ; [done|done|cbn; congruence|done|]. intros y Hy1 Hy2. by apply Hsame.
Qed.

Lemma wp_free top h fl al b (Q : unit -> heap -> Prop) : rep top h fl al -> fresh top h fl b ->
  (forall a n x, al !! a = Some n -> inside (a, n) x -> ~ inside b x) ->
  (forall h' fl', rep top h' fl' al -> hp_user h' = hp_user h -> (forall x, cover fl' x <-> cover fl x \/ inside b x) ->
    (length fl' <= S (length fl))%nat -> (exists c, c ∈ fl' /\ c.1 <= b.1 /\ stop b <= stop c) -> Q tt h') ->
  wp total (free (b.1 + HDR)) Q h.
Proof.
  intros H Hf Hal HQ. pose proof Hf as (Hb2 & Hbb & Hbt & Hbs & Hbx). pose proof (rp_base _ _ _ _ H) as [Hbase Htop].
  pose proof Htop as Htop'. unfold LIMIT in Htop'. assert (Hstop : b.1 < stop b) by (unfold stop, HDR in *; lia).
  unfold free. rewrite plus_small by (unfold HDR in *; lia). replace (b.1 + HDR + HDR * -1) with b.1 by lia.
  wp_step. eapply wp_mono; [by apply (wp_find_place top h fl al b)|].
  intros p h0 (-> & N1 & m & N2 & E & Hpb & Hp1 & HbN).
  destruct (put_block top fl N1 (p, m) N2 b E Hb2 Hbt (rp_sorted _ _ _ _ H) (rp_pos _ _ _ _ H) Hpb Hp1 HbN)
    as (fl' & E' & Hs' & Hpos' & Hcov & Hlen' & Hhas).
  pose proof (rep_around _ _ _ _ _ _ _ _ H E) as Har.
  eapply (wp_put top h N1 p m N2 b); [done|done|by destruct Htop|done..|].
  intros h' Hring' Hsz' Hu' Hfp' Hsame. rewrite E' in Hring', Hsz'. cbn [tail] in Hring'.
  assert (Hal' : forall a n, al !! a = Some n -> a <> b.1 /\ a <> p).
  { intros a n Ha. destruct (rp_al _ _ _ _ H a n Ha) as (Hn & _ & Hab & _).
    assert (Hin : inside (a, n) a) by (unfold inside, stop, HDR; cbn [fst snd]; lia). split; intros ->.
    - apply (Hal _ _ _ Ha Hin). unfold inside. lia.
    - assert (Hp : (p, m) ∈ (base, 0) :: fl) by (rewrite E; apply elem_of_app; right; by left).
      apply elem_of_cons in Hp as [[= -> ->]|Hp]; [unfold HDR in Hab; lia|]. destruct (rep_facts _ _ _ _ _ H Hp) as (_ & Hm & _).
      apply (rp_al_free _ _ _ _ H p n p Ha Hin). exists (p, m). split; [done|]. unfold inside, stop, HDR in *. cbn [fst snd] in *. lia. }
  apply (HQ h' fl'); [|done|done|done|done]. split; try done; try apply H.
  - intros x [Hx|Hx]%Hcov; [by apply (rp_low _ _ _ _ H)|unfold inside in Hx; lia].
  - rewrite Hfp'. assert (Hp : p ∈ (N1 ++ join (p, m) (join b N2)).*1).
    { apply list_elem_of_fmap. destruct (join_shape b N2) as (n & R & Ej & _).
      { eapply Forall_impl; [apply (ar_after _ _ _ _ _ _ Har)|]. by intros c (_ & ? & _). }
      rewrite Ej. unfold join at 1. case_match; eexists; (split; [|apply elem_of_app; right; by left]); done. }
    rewrite E' in Hp. exact Hp.
  - intros a n Ha. destruct (rp_al _ _ _ _ H a n Ha) as (? & ? & ? & ?). destruct (Hal' a n Ha). by rewrite Hsame.
  - intros a n x Ha Hx [Hc|Hc]%Hcov; [by apply (rp_al_free _ _ _ _ H a n x)|by apply (Hal a n x)].
Qed.

(** ** [malloc] *)

(** What [malloc] leaves of the block [(p, sz)] when it takes [n] units from its end. *)
Definition left_over (p sz n : Z) : list block := if sz =? n then [] else [(p, sz - n)].

Lemma sorted_disjoint N b c x : StronglySorted before N -> Forall (fun d => 0 <= d.2) N -> b ∈ N -> c ∈ N ->
  inside b x -> inside c x -> b = c.
Proof.
  induction N as [|d N IH]; intros Hs Hp Hb Hc Hbx Hcx; [by apply not_elem_of_nil in Hb|].
  apply StronglySorted_cons in Hs as [Hall Hs]. apply Forall_cons in Hp as [Hd Hp].
  apply elem_of_cons in Hb as [->|Hb], Hc as [->|Hc]; [done|..|by apply IH].
  - all_at Hall Hc. all_at Hp Hc. unfold before, inside, stop, HDR in *. lia.
  - all_at Hall Hb. all_at Hp Hb. unfold before, inside, stop, HDR in *. lia.
Qed.

Lemma take_list top fl N1 prev p sz N2 n : (base, 0) :: fl = N1 ++ prev :: (p, sz) :: N2 ->
  StronglySorted before ((base, 0) :: fl) -> Forall (fun c => 0 < c.2 /\ stop c <= top) fl -> 0 < n <= sz ->
  let a := p + HDR * (sz - n) in
  exists fl', (base, 0) :: fl' = N1 ++ prev :: left_over p sz n ++ N2 /\ StronglySorted before ((base, 0) :: fl') /\
    Forall (fun c => 0 < c.2 /\ stop c <= top) fl' /\ (forall x, cover fl' x <-> cover fl x /\ ~ inside (a, n) x) /\
    (forall x, inside (a, n) x -> cover fl x).
Proof.
  intros E Hs Hpos Hn a. set (fl' := tail (N1 ++ prev :: left_over p sz n ++ N2)).
  assert (E' : (base, 0) :: fl' = N1 ++ prev :: left_over p sz n ++ N2).
  { unfold fl'. destruct N1 as [|c N1]; cbn [app tail] in *; congruence. }
  assert (Hsub : forall c, c ∈ left_over p sz n -> c = (p, sz - n) /\ n < sz).
  { intros c. unfold left_over. case_match eqn:Eq; [by intros ?%not_elem_of_nil|]. intros ->%list_elem_of_singleton. split; [done|blia]. }
  assert (Hp : (p, sz) ∈ (base, 0) :: fl) by (rewrite E; apply elem_of_app; right; right; by left).
  assert (Hpfl : (p, sz) ∈ fl) by (apply elem_of_cons in Hp as [[= -> ->]|Hp]; [lia|done]).
  all_at Hpos Hpfl as Hpp. cbn [fst snd] in Hpp.
  assert (Hnn : Forall (fun d : block => 0 <= d.2) ((base, 0) :: fl)).
  { constructor; [done|]. eapply Forall_impl; [exact Hpos|]. cbn. lia. }
  pose proof Hs as Hs0. rewrite E in Hs. apply StronglySorted_app in Hs as (H12 & H1 & H2).
  apply StronglySorted_cons in H2 as [Hpr [Hp2 H2]%StronglySorted_cons]. apply Forall_cons in Hpr as [Hpr1 Hpr2].
  assert (Hkeep : forall c, c ∈ N1 ++ prev :: left_over p sz n ++ N2 -> c ∈ (base, 0) :: fl \/ (c = (p, sz - n) /\ n < sz)).
  { intros c. rewrite E, !elem_of_app, !elem_of_cons, !elem_of_app. intros [?|[?|[?|?]]]; try tauto. right. by apply Hsub. }
  assert (Hs' : StronglySorted before (N1 ++ prev :: left_over p sz n ++ N2)).
  { apply StronglySorted_app. split_and!; [|done|].
    - intros x y Hx. rewrite elem_of_cons, elem_of_app. intros [->|[[-> _]%Hsub|Hy]].
      + apply H12; [done|by left].
      + assert (Hb : before x (p, sz)) by (apply H12; [done|right; by left]). exact Hb.
      + apply H12; [done|by right; right].
    - unfold left_over. destruct (sz =? n) eqn:Eq; cbn [app]; [by constructor|]. bool_hyps. constructor; [constructor; [done|]|].
      + eapply Forall_impl; [exact Hp2|]. unfold before, stop, HDR. cbn [fst snd]. lia.
      + by constructor. }
  exists fl'. rewrite E'. split_and!; [done|done| | |].
  - rewrite <- E' in Hs'. apply StronglySorted_cons in Hs' as [Hb _]. apply Forall_forall. intros c Hc.
    assert (Hc' : c ∈ (base, 0) :: fl') by (by right). rewrite E' in Hc'. all_at Hb Hc.
    destruct (Hkeep c Hc') as [[->|Hin]%elem_of_cons|[-> Hlt]]; [|by all_at Hpos Hin|unfold stop, HDR in *; cbn [fst snd] in *; lia].
    unfold before, stop, HDR in *. cbn [fst snd] in *. lia.
  - intros x. rewrite <- (cover_base fl'), <- (cover_base fl), E', E, !cover_app, !cover_cons, cover_app.
    assert (Hx : inside (p, sz) x -> ~ cover N1 x /\ ~ inside prev x /\ ~ cover N2 x).
    { intros Hx. split_and!.
      - intros (c & Hc & Hcx). assert (Hb : before c (p, sz)) by (apply H12; [done|right; by left]).
        unfold before, inside, stop, HDR in *. cbn [fst snd] in *. lia.
      - unfold before, inside, stop, HDR in *. cbn [fst snd] in *. lia.
      - intros (c & Hc & Hcx). all_at Hp2 Hc. unfold before, inside, stop, HDR in *. cbn [fst snd] in *. lia. }
    assert (Hlo : cover (left_over p sz n) x <-> inside (p, sz) x /\ ~ inside (a, n) x).
    { unfold left_over. destruct (sz =? n) eqn:Eq; bool_hyps.
      - split; [by intros ?%cover_nil|]. unfold inside, stop, a, HDR in *. cbn [fst snd]. lia.
      - rewrite cover_cons. pose proof (cover_nil x). unfold inside, stop, a, HDR in *. cbn [fst snd] in *. intuition lia. }
    assert (Han : inside (a, n) x -> inside (p, sz) x) by (unfold inside, stop, a, HDR in *; cbn [fst snd] in *; lia).
    rewrite Hlo. tauto.
  - intros x Hx. exists (p, sz). split; [done|]. unfold inside, stop, a, HDR in *. cbn [fst snd] in *. lia.
Qed.

(** The state after a block was taken: the headers of the list and of the blocks in use are there. *)
Lemma rep_take top h h' fl fl' al a n : rep top h fl al -> 0 < n ->
  path (hp_ptr h') base fl'.*1 base -> Forall (fun c => hp_size h' !! c.1 = Some c.2) ((base, 0) :: fl') ->
  StronglySorted before ((base, 0) :: fl') -> Forall (fun c => 0 < c.2 /\ stop c <= top) fl' ->
  hp_freep h' ∈ base :: fl'.*1 -> hp_size h' !! a = Some n ->
  (forall x, cover fl' x <-> cover fl x /\ ~ inside (a, n) x) -> (forall x, inside (a, n) x -> cover fl x) ->
  (forall x k, al !! x = Some k -> hp_size h' !! x = hp_size h !! x) ->
  base + HDR <= a -> a + HDR * n <= top -> rep top h' fl' (<[a := n]> al).
Proof.
  intros H Hn Hring Hsz Hs Hpos Hfp Ha Hcov Hin Hal Hab Hat. split; try done; try apply H.
  - intros x [Hx _]%Hcov. by apply (rp_low _ _ _ _ H).
  - intros x k [[<- <-]|[Hne Hx]]%lookup_insert_Some; [by split_and!|]. destruct (rp_al _ _ _ _ H x k Hx) as (? & ? & ? & ?).
    by rewrite (Hal x k Hx).
  - intros x k y [[<- <-]|[Hne Hx]]%lookup_insert_Some Hy [Hc Hni]%Hcov; [done|]. by apply (rp_al_free _ _ _ _ H x k y).
  - intros x k x' k' y [[<- <-]|[Hne Hx]]%lookup_insert_Some [[<- <-]|[Hne' Hx']]%lookup_insert_Some Hy Hy'; [done|..].
    + exfalso. by apply (rp_al_free _ _ _ _ H x' k' y Hx' Hy'), Hin.
    + exfalso. by apply (rp_al_free _ _ _ _ H x k y Hx Hy), Hin.
    + by apply (rp_al_al _ _ _ _ H x k x' k' y).
Qed.

(** The pointers and sizes without the block, or with less of it. *)
Lemma take_ring top h h' fl al N1 prev k p sz N2 n : rep top h fl al -> (base, 0) :: fl = N1 ++ (prev, k) :: (p, sz) :: N2 ->
  0 < n <= sz ->
  (if sz =? n then hp_ptr h' = <[prev := next_of N2]> (hp_ptr h) /\ hp_size h' = hp_size h
   else hp_ptr h' = hp_ptr h /\ hp_size h' = <[p + HDR * (sz - n) := n]> (<[p := sz - n]> (hp_size h))) ->
  path (hp_ptr h') base (tail (N1 ++ (prev, k) :: left_over p sz n ++ N2)).*1 base /\
  Forall (fun c => hp_size h' !! c.1 = Some c.2) (N1 ++ (prev, k) :: left_over p sz n ++ N2).
Proof.
  intros H E Hn Hh'. pose proof (rep_around _ _ _ _ _ _ _ _ H E) as [Hring [Hc1 Hn1] [Hnp Hnext] (Hk & Hk0 & Hbp) HN1 HN2].
  cbn [fst] in Hnp, Hnext. apply Forall_cons in HN2 as [(Hpz & Hsz & Hpp & Hpt) HN2]. cbn [fst snd] in *.
  pose proof (rp_sorted _ _ _ _ H) as Hs. rewrite E in Hs. apply StronglySorted_app in Hs as (_ & _ & Hs).
  apply StronglySorted_cons in Hs as [_ [Hp2 _]%StronglySorted_cons].
  unfold left_over. destruct (sz =? n) eqn:Eq; destruct Hh' as [Ep Es]; cbn [app];
    apply (ring_put h h' N1 (prev, k) ((p, sz) :: N2)); try done; try (by eexists _, _).
  - eapply Forall_impl; [exact HN1|]. intros c [Hc Hlt]. rewrite Ep, Es. rewrite lookup_insert_ne by lia. done.
  - split; [|rewrite Es; constructor; [done|]; eapply Forall_impl; [exact HN2|]; by intros c (? & _)].
    rewrite Ep. destruct N2 as [|c N2]; cbn [fst fmap list_fmap path next_of] in *; rewrite lookup_insert_eq; [done|].
    split; [done|]. destruct Hnext as [_ Hnext]. eapply path_ext; [|exact Hnext].
    intros y Hy. apply lookup_insert_ne. intros <-. destruct Hy as [Hy|Hy].
    + apply Forall_cons in HN2 as [(_ & _ & ? & _) _]. lia.
    + apply list_elem_of_fmap_1 in Hy as (d & -> & Hd). apply Forall_cons in HN2 as [_ HN2]. all_at HN2 Hd. lia.
  - bool_hyps. eapply Forall_impl; [exact HN1|]. intros c [Hc Hlt]. rewrite Ep, Es. unfold HDR in *.
    by rewrite !lookup_insert_ne by lia.
  - bool_hyps. split; rewrite ?Ep, ?Es; [done|]. unfold HDR in *. constructor; [|constructor].
    + cbn [fst snd]. by rewrite !lookup_insert_ne by lia.
    + cbn [fst snd]. by rewrite lookup_insert_ne, lookup_insert_eq by lia.
    + apply Forall_forall. intros c Hc. all_at Hp2 Hc. all_at HN2 Hc. unfold before, stop, HDR in *. cbn [fst snd] in *.
      rewrite !lookup_insert_ne by lia. tauto.
Qed.

(** The block [malloc] returns is the last part of a free one. *)
Definition taken (top : Z) h fl al n (r : Z) h' : Prop := exists a fl', r = a + HDR /\ al !! a = None /\
  rep top h' fl' (<[a := n]> al) /\ hp_user h' = hp_user h /\
  (forall x, cover fl' x <-> cover fl x /\ ~ inside (a, n) x) /\ (forall x, inside (a, n) x -> cover fl x).

Lemma wp_take_block {R} top h fl al N1 prev k p sz N2 n (Q : R + Z -> heap -> Prop) : rep top h fl al ->
  (base, 0) :: fl = N1 ++ (prev, k) :: (p, sz) :: N2 -> 0 < n <= sz ->
  (forall r h', taken top h fl al n r h' -> Q (inr r) h') ->
  wp total (p <- (if sz =? n then q <- get_ptr p ;; set_ptr prev q ;;; ret p
                  else set_size p (sz - n) ;;; let p := plus p (sz - n) in set_size p n ;;; ret p) ;;
            set_freep prev ;;;
            ret (inr (plus p 1))) Q h.
Proof.
  intros H E Hn HQ. destruct (take_list top fl N1 (prev, k) p sz N2 n E (rp_sorted _ _ _ _ H) (rp_pos _ _ _ _ H) Hn)
    as (fl' & E' & Hs' & Hpos' & Hcov & Hin).
  pose proof (rep_around _ _ _ _ _ _ _ _ H E) as [_ _ [_ Hnext] (Hk & Hk0 & Hbp) _ HN2].
  apply Forall_cons in HN2 as [(Hpz & Hsz & Hpp & Hpt) HN2]. pose proof (rp_base _ _ _ _ H) as [Hb Htop]. unfold LIMIT in Htop.
  cbn [fst snd] in *. set (a := p + HDR * (sz - n)) in *.
  assert (Hpa : p <= a /\ a + HDR * n = stop (p, sz)) by (unfold a, stop, HDR; cbn [fst snd]; lia).
  assert (Haa : inside (a, n) a) by (unfold inside, stop, HDR; cbn [fst snd]; lia).
  assert (Hpin : forall x y, al !! x = Some y -> x <> a /\ x <> p).
  { intros x y Hx. destruct (rp_al _ _ _ _ H x y Hx) as (Hy & _). assert (Hxx : inside (x, y) x) by (unfold inside, stop, HDR; cbn [fst snd]; lia).
    pose proof (rp_al_free _ _ _ _ H x y x Hx Hxx) as Hnc. split; intros ->; apply Hnc; [by apply Hin|].
    exists (p, sz). split; [|unfold inside, stop, HDR; cbn [fst snd]; lia].
    assert (Hp : (p, sz) ∈ (base, 0) :: fl) by (rewrite E; apply elem_of_app; right; right; by left).
    apply elem_of_cons in Hp as [[= -> ->]|Hp]; [lia|done]. }
  enough (Hfin : forall h', hp_user h' = hp_user h -> hp_freep h' = prev ->
    (if sz =? n then hp_ptr h' = <[prev := next_of N2]> (hp_ptr h) /\ hp_size h' = hp_size h
     else hp_ptr h' = hp_ptr h /\ hp_size h' = <[a := n]> (<[p := sz - n]> (hp_size h))) -> Q (inr (a + HDR)) h').
  { destruct (sz =? n) eqn:Eq; [apply Z.eqb_eq in Eq|].
    - wp_step. wp_step. eapply (wp_get_ptr _ _ (next_of N2)); [destruct N2; [exact Hnext|apply Hnext]|]. wp_step. apply wp_modify.
      apply (wp_ret total). wp_step. apply wp_modify. apply (wp_ret total). rewrite plus_small by (unfold stop, HDR in *; cbn [fst snd] in *; lia).
      replace (p + HDR * 1) with (a + HDR) by (unfold a, HDR; lia). by apply Hfin.
    - wp_step. wp_step. apply wp_modify. cbv zeta. wp_step. apply wp_modify. apply (wp_ret total). wp_step. apply wp_modify. apply (wp_ret total).
      rewrite !plus_small by (unfold stop, a, HDR in *; cbn [fst snd] in *; rewrite ?plus_small; unfold HDR; lia).
      fold a. replace (a + HDR * 1) with (a + HDR) by (unfold HDR; lia). by apply Hfin. }
  intros h' Hu Hf Hh'. destruct (take_ring top h h' fl al N1 prev k p sz N2 n H E Hn Hh') as [Hring Hsizes].
  rewrite <- E' in Hring, Hsizes. cbn [tail] in Hring. apply HQ. exists a, fl'. split_and!; try done.
  - destruct (al !! a) as [y|] eqn:Ea; [|done]. by destruct (Hpin a y Ea).
  - assert (Hprev : prev ∈ base :: fl'.*1).
    { change (base :: fl'.*1) with ((base, 0) :: fl').*1. rewrite E', fmap_app, fmap_cons. apply elem_of_app. right. by left. }
    eapply (rep_take top h h' fl fl'); try done; [lia|by rewrite Hf| | |by apply (rp_low _ _ _ _ H), Hin|lia].
    + destruct (sz =? n) eqn:Eq; destruct Hh' as [_ ->]; [|by rewrite lookup_insert_eq]. apply Z.eqb_eq in Eq.
      unfold a. rewrite Eq, Z.sub_diag, Z.mul_0_r, Z.add_0_r, <- Eq. exact Hpz.
    + intros x y Hx. destruct (Hpin x y Hx). destruct (sz =? n); destruct Hh' as [_ ->]; [done|by rewrite !lookup_insert_ne].
Qed.
(** ** More memory *)

(** What [sbrk] does for a positive argument: it fails, or it gives the memory from the
    break on, and the break goes up; there is a limit to it. *)
Definition sbrk_law (os : list call -> sysret) (brk : list call -> Z) : Prop := forall cs n, 0 < n ->
  let cs' := cs ++ [CSbrk n] in
  (r_val (os cs') = -1 /\ brk cs' = brk cs) \/
  (r_val (os cs') = brk cs /\ brk cs' = brk cs + n /\ brk cs + n <= LIMIT).

Context (os : list call -> sysret) (brk : list call -> Z) (Hos : sbrk_law os brk).

Definition top_of h : Z := brk (u_calls (hp_user h)).
(** The allocator as the program finds it. *)
Definition ready h fl al : Prop := u_os (hp_user h) = os /\ rep (top_of h) h fl al.

Lemma rep_same top top' h h' fl al : rep top h fl al -> top <= top' <= LIMIT -> hp_ptr h' = hp_ptr h ->
  hp_freep h' = hp_freep h -> (forall x n, hp_size h !! x = Some n -> x < top -> hp_size h' !! x = Some n) -> rep top' h' fl al.
Proof.
  intros H Ht Hp Hf Hz. pose proof (rp_base _ _ _ _ H). split; try apply H; rewrite ?Hp, ?Hf; try apply H.
  - lia.
  - pose proof (rp_sizes _ _ _ _ H) as Hs. apply Forall_cons in Hs as [Hs0 Hs]. constructor; [apply Hz; [done|cbn; unfold HDR in *; lia]|].
    apply Forall_forall. intros c Hc. destruct (rep_facts _ _ _ _ _ H Hc) as (_ & ? & ? & ?). apply Hz; [done|unfold stop, HDR in *; lia].
  - eapply Forall_impl; [apply (rp_pos _ _ _ _ H)|]. cbn. lia.
  - intros a n Ha. destruct (rp_al _ _ _ _ H a n Ha) as (? & Hs & ? & ?). split_and!; [done|apply Hz; [done|unfold HDR in *; lia]|done|lia].
Qed.

(** [morecore] fails, or the new memory is in the list and one block is large enough. *)
Definition more h fl al n (r : Z) h' : Prop := (r = 0 /\ ready h' fl al /\ top_of h' = top_of h) \/
  exists fl', r <> 0 /\ ready h' fl' al /\ hp_freep h' = r /\ (length fl' <= S (length fl))%nat /\ top_of h <= top_of h' /\
    (forall x, cover fl' x <-> cover fl x \/ top_of h <= x < top_of h') /\ exists c, c ∈ fl' /\ n <= c.2.

Lemma wp_sbrk {A} h n (f : Z -> H A) (Q : A -> heap -> Prop) cs left ptr sz fp : h = Heap ptr sz fp (User os (S left) cs) ->
  wp total (f (r_val (os (cs ++ [CSbrk n])))) Q (Heap ptr sz fp (User os left (cs ++ [CSbrk n]))) ->
  wp total (bind (in_user (sys_int (CSbrk n))) f) Q h.
Proof. by intros ->. Qed.

Lemma wp_morecore h fl al n : ready h fl al -> 0 < n < 134217728 -> (0 < u_left (hp_user h))%nat ->
  wp total (morecore n) (more h fl al n) h.
Proof.
  intros [Hu H] Hn Hl. unfold morecore. set (nu := if n <? 4096 then 4096 else n).
  assert (Hnu : n <= nu < 134217728 /\ 0 < nu) by (unfold nu; case_match; blia). cbv zeta. clearbody nu.
  rewrite s32_small by (unfold HDR; lia). pose proof (Hos (u_calls (hp_user h)) (nu * HDR) ltac:(unfold HDR; lia)) as Hlaw. cbv zeta in Hlaw.
  pose proof (rp_base _ _ _ _ H) as [Hb Htop]. unfold more, ready, top_of in *.
  destruct h as [ptr sz fp [os0 left cs]]. cbn [hp_user u_os u_left u_calls] in *. subst os0. destruct left as [|left]; [lia|].
  eapply wp_sbrk; [done|]. set (cs' := cs ++ [CSbrk (nu * HDR)]) in *. destruct Hlaw as [[-> Hbrk]|(-> & Hbrk & Hlim)].
  - cbn [Z.eqb Pos.eqb]. apply (wp_ret total). left. cbn. rewrite Hbrk. split_and!; [done|done| |done].
    eapply rep_same; [exact H|lia|done..].
  - rewrite (proj2 (Z.eqb_neq _ _)) by (unfold HDR in *; lia). wp_step. apply wp_modify. cbn [hp_ptr hp_size hp_freep hp_user].
    set (h2 := Heap ptr (<[brk cs := nu]> sz) fp (User os left cs')). set (b := (brk cs, nu)).
    assert (Hstop : stop b = brk cs') by (unfold stop, b, HDR in *; cbn [fst snd]; lia).
    assert (H2 : rep (brk cs') h2 fl al).
    { eapply rep_same; [exact H|unfold HDR in *; lia|done|done|]. intros x k Hx Hlt. cbn. by rewrite lookup_insert_ne by lia. }
    assert (Hbelow : forall x, cover fl x -> x < brk cs).
    { intros x (c & Hc & Hx). destruct (rep_facts _ _ _ _ _ H Hc) as (_ & _ & ? & _). unfold inside in Hx. cbn in *. lia. }
    wp_step. unfold LIMIT in *. rewrite plus_small by (unfold HDR in *; lia). replace (brk cs + HDR * 1) with (b.1 + HDR) by (unfold b; cbn [fst]; unfold HDR; lia).
    apply (wp_free (brk cs') h2 fl al b).
    + exact H2.
    + unfold fresh. rewrite Hstop. unfold b. cbn [fst snd]. split_and!; [lia|lia|lia|by cbn; rewrite lookup_insert_eq|].
      intros x Hx Hc%Hbelow. unfold inside in Hx. cbn [fst] in Hx. lia.
    + intros a k x Ha Hx Hbx. destruct (rp_al _ _ _ _ H a k Ha) as (_ & _ & _ & ?). unfold inside, stop, b, HDR in *. cbn [fst snd] in *. lia.
    + intros h' fl' H' Hu' Hcov Hlen (c & Hc & Hc1 & Hc2). apply wp_geth. right. exists fl'. rewrite Hu'. cbn [hp_user h2 u_calls u_os].
      split_and!; try done.
      * pose proof (rp_freep _ _ _ _ H') as Hf. apply elem_of_cons in Hf as [->|Hf]; [lia|]. apply list_elem_of_fmap_1 in Hf as (d & -> & Hd).
        destruct (rep_facts _ _ _ _ _ H' Hd) as (? & _). lia.
      * rewrite Hbrk. unfold HDR. lia.
      * intros x. rewrite Hcov. unfold inside. rewrite Hstop. done.
      * exists c. split; [done|]. unfold stop, b, HDR in *. cbn [fst snd] in *. lia.
Qed.
(** ** The walk around the ring *)

Definition next (len i : nat) : nat := if (S i =? len)%nat then 0%nat else S i.
(** How many headers after the next one of [i] is [t]? *)
Definition away (len i t : nat) : nat := if (i <? t)%nat then (t - i - 1)%nat else (len - 1 - i + t)%nat.

Lemma away_0 len i t : (i < len)%nat -> (t < len)%nat -> away len i t = 0%nat -> t = next len i.
Proof. unfold away, next. intros Hi Ht. destruct (Nat.ltb_spec i t), (Nat.eqb_spec (S i) len); lia. Qed.
Lemma away_next len i t : (i < len)%nat -> (t < len)%nat -> t <> next len i -> S (away len (next len i) t) = away len i t.
Proof.
  unfold away, next. intros Hi Ht Hne. destruct (Nat.eqb_spec (S i) len).
  - destruct (Nat.ltb_spec 0 t), (Nat.ltb_spec i t); lia.
  - destruct (Nat.ltb_spec i t), (Nat.ltb_spec (S i) t); lia.
Qed.
Lemma away_self len i : (i < len)%nat -> away len i i = (len - 1)%nat.
Proof. unfold away. rewrite Nat.ltb_irrefl. lia. Qed.
Lemma away_le len i t : (i < len)%nat -> (t < len)%nat -> (away len i t <= len - 1)%nat.
Proof. unfold away. intros Hi Ht. destruct (Nat.ltb_spec i t); lia. Qed.

(** Header [i] of the ring, and the one after it. *)
Lemma ring_next top h fl al i q : rep top h fl al -> (base :: fl.*1) !! i = Some q ->
  exists p sz, hp_ptr h !! q = Some p /\ hp_size h !! p = Some sz /\ (next (S (length fl)) i < S (length fl))%nat /\
    ((base, 0) :: fl) !! next (S (length fl)) i = Some (p, sz).
Proof.
  intros H Hi. pose proof (path_lookup _ _ _ _ _ _ (rp_ring _ _ _ _ H) Hi) as Hp. pose proof (lookup_lt_Some _ _ _ Hi) as Hlt.
  cbn [length] in Hlt. rewrite length_fmap in Hlt.
  assert (Hnext : exists sz, ((base, 0) :: fl) !! next (S (length fl)) i = Some (default base (fl.*1 !! i), sz) /\ (next (S (length fl)) i < S (length fl))%nat).
  { unfold next. destruct (Nat.eqb_spec (S i) (S (length fl))) as [E|E].
    - exists 0. rewrite (lookup_ge_None_2 fl.*1 i) by (rewrite length_fmap; lia). split; [done|lia].
    - destruct (lookup_lt_is_Some_2 fl i ltac:(lia)) as [[p sz] Hc]. exists sz. rewrite list_lookup_fmap, Hc. split; [exact Hc|lia]. }
  destruct Hnext as (sz & Hn & Hnl). exists (default base (fl.*1 !! i)), sz. split_and!; [done| |done|done].
  pose proof (rp_sizes _ _ _ _ H) as Hz. exact (Forall_lookup_1 _ _ _ _ Hz Hn).
Qed.

Lemma split_two {A} (l : list A) i x y : l !! i = Some x -> l !! S i = Some y -> l = take i l ++ x :: y :: drop (S (S i)) l.
Proof. intros Hx Hy. rewrite <- (take_drop_middle l i x Hx) at 1. f_equal. f_equal. by rewrite (drop_S l y (S i)). Qed.

Lemma same_header top h fl al i j x : rep top h fl al -> (base :: fl.*1) !! i = Some x -> (base :: fl.*1) !! j = Some x -> i = j.
Proof.
  intros H Hi Hj. pose proof (rep_nodup _ _ _ _ H) as Hs. destruct (Nat.lt_trichotomy i j) as [Hlt|[E|Hlt]]; [|done|].
  - pose proof (sorted_lookup _ _ _ _ _ Hs Hi Hj Hlt). lia.
  - pose proof (sorted_lookup _ _ _ _ _ Hs Hj Hi Hlt). lia.
Qed.

Lemma header_addr fl i p sz : ((base, 0) :: fl) !! i = Some (p, sz) -> (base :: fl.*1) !! i = Some p.
Proof. intros H. change (base :: fl.*1) with ((base, 0) :: fl).*1. by rewrite list_lookup_fmap, H. Qed.

Lemma header_lt fl i x : (base :: fl.*1) !! i = Some x -> (i < S (length fl))%nat.
Proof. intros H%lookup_lt_Some. cbn [length] in H. by rewrite length_fmap in H. Qed.

(** ** What [malloc] promises *)

(** The result of [malloc] for [n] units: none, or a block of its own; the free memory and the
    new block are what was free and what the kernel gave. *)
Definition malloced h fl al n (r : Z) h' : Prop := exists fl', top_of h <= top_of h' /\
  ((r = 0 /\ ready h' fl' al /\ forall x, cover fl' x <-> cover fl x \/ top_of h <= x < top_of h') \/
   exists a, r = a + HDR /\ al !! a = None /\ ready h' fl' (<[a := n]> al) /\
     (forall x, cover fl' x \/ inside (a, n) x <-> cover fl x \/ top_of h <= x < top_of h') /\
     (forall x, inside (a, n) x -> ~ cover fl' x)).

Section Loop.
Context (h0 : heap) (fl0 : list block) (al : gmap Z Z) (n : Z) (Hn : 0 < n < 134217728).

(** The walk: [prevp] is header [i]; before [morecore] the list is the one of the start;
    after it there is a block that is large enough on the way to [freep]. *)
Definition walking (k : nat) (st : Z * Z) h : Prop := exists fl i j, ready h fl al /\ top_of h0 <= top_of h /\
  (base :: fl.*1) !! i = Some st.1 /\ hp_ptr h !! st.1 = Some st.2 /\ (base :: fl.*1) !! j = Some (hp_freep h) /\
  (forall x, cover fl x <-> cover fl0 x \/ top_of h0 <= x < top_of h) /\
  let len := S (length fl) in
  ((0 < u_left (hp_user h))%nat /\ top_of h = top_of h0 /\ k = (away len i j + len + 1)%nat \/
   (exists t c, ((base, 0) :: fl) !! t = Some c /\ n <= c.2 /\ (away len i t <= away len i j)%nat) /\ k = away len i j).

Lemma taken_malloced h fl r h' : u_os (hp_user h) = os -> top_of h0 <= top_of h ->
  (forall x, cover fl x <-> cover fl0 x \/ top_of h0 <= x < top_of h) ->
  taken (top_of h) h fl al n r h' -> malloced h0 fl0 al n r h'.
Proof.
  intros Hos' Htop Hcov (a & fl' & -> & Ha & H' & Hu' & Hc' & Hin). exists fl'. unfold ready, top_of in *. rewrite Hu'.
  split; [done|]. right. exists a. split_and!; [done|done|done|done| |].
  - intros x. rewrite Hc', <- Hcov. pose proof (Hin x). destruct (decide (inside (a, n) x)); tauto.
  - by intros x Hx [_ Hni]%Hc'.
Qed.

(** After [morecore] the walk starts again, with a block that is large enough. *)
Lemma walking_more h fl r h1 fl1 : (forall x, cover fl x <-> cover fl0 x \/ top_of h0 <= x < top_of h) -> top_of h = top_of h0 ->
  ready h1 fl1 al -> hp_freep h1 = r -> top_of h <= top_of h1 -> (forall x, cover fl1 x <-> cover fl x \/ top_of h <= x < top_of h1) ->
  (exists c, c ∈ fl1 /\ n <= c.2) -> exists q, hp_ptr h1 !! r = Some q /\ walking (length fl1) (r, q) h1.
Proof.
  intros Hcov Htop0 H1 Hf1 Ht1 Hc1 (d & Hd & Hdn). pose proof (proj2 H1) as Hrep. pose proof (rp_freep _ _ _ _ Hrep) as Hfp. rewrite Hf1 in Hfp.
  destruct (list_elem_of_lookup_1 _ _ Hfp) as [j Hj]. destruct (ring_next _ _ _ _ j r Hrep Hj) as (q & _ & Hq & _).
  exists q. split; [done|]. pose proof (header_lt _ _ _ Hj) as Hjl. destruct (list_elem_of_lookup_1 _ _ Hd) as [t Ht].
  pose proof (lookup_lt_Some _ _ _ Ht) as Htl. pose proof (away_self _ _ Hjl) as Hself.
  exists fl1, j, j. rewrite Hf1. split_and!; try done; [lia| |].
  - intros x. rewrite Hc1, Hcov, Htop0. intuition lia.
  - right. split; [|lia]. exists (S t), d. split_and!; [exact Ht|done|]. rewrite Hself. apply away_le; lia.
Qed.

Lemma wp_malloc_round k prevp p h : walking k (prevp, p) h ->
  wp total (sz <- get_size p ;;
    if sz >=? n then
      p <- (if sz =? n then q <- get_ptr p ;; set_ptr prevp q ;;; ret p
            else set_size p (sz - n) ;;; let p := plus p (sz - n) in set_size p n ;;; ret p) ;;
      set_freep prevp ;;; ret (inr (plus p 1))
    else
      freep <- geth hp_freep ;;
      if p =? freep then
        p <- morecore n ;;
        if p =? 0 then ret (inr 0) else q <- get_ptr p ;; ret (inl (p, q))
      else q <- get_ptr p ;; ret (inl (p, q)))
    (fun r h' => match r with
      | inl st => exists k', (k' < k)%nat /\ walking k' st h'
      | inr r => malloced h0 fl0 al n r h' end) h.
Proof.
  intros (fl & i & j & [Hos' H] & Htop & Hi & Hp & Hj & Hcov & Hphase). cbn [fst snd] in *. cbv zeta in Hphase.
  set (len := S (length fl)) in *.
  assert (Hil : (i < len)%nat) by exact (header_lt _ _ _ Hi).
  assert (Hjl : (j < len)%nat) by exact (header_lt _ _ _ Hj).
  destruct (ring_next _ _ _ _ i prevp H Hi) as (p' & sz & Hp' & Hsz & Hnl & Hnx). fold len in Hnl, Hnx.
  rewrite Hp in Hp'. injection Hp' as <-. pose proof (header_addr _ _ _ _ Hnx) as Hpx.
  wp_step. eapply wp_get_size; [exact Hsz|]. destruct (sz >=? n) eqn:Efit; bool_hyps; [|].
  - assert (Hni : next len i = S i).
    { unfold next in *. destruct (S i =? len)%nat; [|done]. injection Hnx as _ <-. lia. }
    rewrite Hni in Hnx. destruct (((base, 0) :: fl) !! i) as [[q k0]|] eqn:Eq.
    2:{ apply lookup_ge_None_1 in Eq. cbn in Eq. lia. }
    pose proof (header_addr _ _ _ _ Eq) as Hq. rewrite Hi in Hq. injection Hq as <-.
    eapply (wp_take_block (top_of h) h fl al); [exact H|exact (split_two _ _ _ _ Eq Hnx)|lia|].
    intros r h' Htk. by eapply taken_malloced.
  - wp_step. apply wp_geth. destruct (p =? hp_freep h) eqn:Ef; bool_hyps.
    + subst p. pose proof (same_header _ _ _ _ _ _ _ H Hj Hpx) as ->.
      destruct Hphase as [(Hleft & Htop0 & ->)|[(t & c & Hc & Hcn & Hct) ->]].
      * wp_step. eapply wp_mono; [by apply (wp_morecore h fl al n)|]. intros r h1 [(-> & H1 & Ht1)|(fl1 & Hr & H1 & Hf1 & Hlen1 & Ht1 & Hc1 & d & Hd & Hdn)].
        -- apply (wp_ret total). exists fl. split; [lia|]. left. rewrite Ht1. by split_and!.
        -- rewrite (proj2 (Z.eqb_neq _ _)) by done.
           destruct (walking_more h fl r h1 fl1 Hcov Htop0 H1 Hf1 Ht1 Hc1 ltac:(by exists d)) as (q & Hq & Hw).
           wp_step. eapply wp_get_ptr; [exact Hq|]. apply (wp_ret total). exists (length fl1). split; [unfold len; lia|done].
      * exfalso. pose proof (lookup_lt_Some _ _ _ Hc) as Htl. cbn [length] in Htl. fold len in Htl.
        assert (E0 : away len i (next len i) = 0%nat).
        { unfold away, next in *. destruct (Nat.eqb_spec (S i) len); [destruct (Nat.ltb_spec i 0); lia|].
          destruct (Nat.ltb_spec i (S i)); lia. }
        rewrite E0 in Hct. rewrite (away_0 len i t) in Hc by lia. rewrite Hnx in Hc. injection Hc as <-. cbn in Hcn. lia.
    + assert (Hjn : j <> next len i) by (intros ->; rewrite Hpx in Hj; by injection Hj as ->).
      pose proof (away_next len i j Hil Hjl Hjn) as Haw.
      destruct (ring_next _ _ _ _ _ p H Hpx) as (q & _ & Hq & _). wp_step. eapply wp_get_ptr; [exact Hq|]. apply (wp_ret total).
      destruct Hphase as [(Hleft & Htop0 & ->)|[(t & c & Hc & Hcn & Hct) ->]].
      * exists (away len (next len i) j + len + 1)%nat. split; [lia|]. exists fl, (next len i), j. split_and!; try done. by left.
      * pose proof (lookup_lt_Some _ _ _ Hc) as Htl. cbn [length] in Htl. fold len in Htl.
        assert (Htn : t <> next len i) by (intros ->; rewrite Hnx in Hc; injection Hc as <-; cbn in Hcn; lia).
        pose proof (away_next len i t Hil Htl Htn). exists (away len (next len i) j). split; [lia|].
        exists fl, (next len i), j. split_and!; try done. right. split; [|done]. exists t, c. split_and!; [done|done|fold len; lia].
Qed.
End Loop.

(** ** The theorems *)

(** The allocator at any time: before the first call of [malloc] there is no list. *)
Definition allocator h fl al : Prop := ready h fl al \/
  u_os (hp_user h) = os /\ hp_freep h = 0 /\ fl = [] /\ al = ∅ /\ 0 < base /\ base + HDR <= top_of h <= LIMIT.

Lemma rep_start ptr sz top u : 0 < base -> base + HDR <= top <= LIMIT ->
  rep top (Heap (<[base := base]> ptr) (<[base := 0]> sz) base u) [] ∅.
Proof.
  intros Hb Ht. split; cbn; try done.
  - apply lookup_insert_eq.
  - repeat constructor. cbn. apply lookup_insert_eq.
  - repeat constructor.
  - by intros x ?%cover_nil.
  - by left.
Qed.

Lemma wp_malloc_ready h fl al nunits prevp p : ready h fl al -> 0 < nunits < 134217728 -> (0 < u_left (hp_user h))%nat ->
  prevp = hp_freep h -> hp_ptr h !! prevp = Some p ->
  wp total (n <- ring_fuel ;; loop (2 * n + 2) (fun '(prevp, p) =>
    sz <- get_size p ;;
    if sz >=? nunits then
      p <- (if sz =? nunits then q <- get_ptr p ;; set_ptr prevp q ;;; ret p
            else set_size p (sz - nunits) ;;; let p := plus p (sz - nunits) in set_size p nunits ;;; ret p) ;;
      set_freep prevp ;;; ret (inr (plus p 1))
    else
      freep <- geth hp_freep ;;
      if p =? freep then
        p <- morecore nunits ;;
        if p =? 0 then ret (inr 0) else q <- get_ptr p ;; ret (inl (p, q))
      else q <- get_ptr p ;; ret (inl (p, q))) (prevp, p)) (malloced h fl al nunits) h.
Proof.
  intros [Hos' H] Hn Hl -> Hp. pose proof (ring_size _ _ _ _ H) as Hsz. cbn [length] in Hsz. rewrite length_fmap in Hsz.
  destruct (list_elem_of_lookup_1 _ _ (rp_freep _ _ _ _ H)) as [j Hj]. pose proof (header_lt _ _ _ Hj) as Hjl.
  wp_step. unfold ring_fuel. wp_step. apply wp_geth. apply (wp_ret total).
  apply (wp_loop_rounds total (walking h fl al nunits) _ _ (away (S (length fl)) j j + S (length fl) + 1)).
  - exists fl, j, j. cbn [fst snd]. split_and!; try done; [intuition lia|]. left. by split_and!.
  - rewrite away_self by done. lia.
  - intros k [prevp q] h1 Hw. by apply (wp_malloc_round h fl al nunits Hn k).
Qed.

Lemma wp_malloc h fl al nbytes : allocator h fl al -> 0 <= nbytes <= 2147483616 -> (0 < u_left (hp_user h))%nat ->
  wp total (malloc base nbytes) (malloced h fl al ((nbytes + HDR - 1) / HDR + 1)) h.
Proof.
  intros Ha Hnb Hl. unfold malloc. set (nunits := (nbytes + HDR - 1) / HDR + 1).
  assert (Hn : 0 < nunits < 134217728) by (unfold nunits, HDR; zlia). clearbody nunits. rewrite u32_small by lia. cbv zeta.
  wp_step. apply wp_geth. wp_step. destruct Ha as [[Hos' H]|(Hos' & Hf & -> & -> & Hb & Ht)].
  - assert (Hf : hp_freep h <> 0).
    { pose proof (rp_base _ _ _ _ H) as [Hb _]. pose proof (rp_freep _ _ _ _ H) as Hf. apply elem_of_cons in Hf as [->|Hf]; [lia|].
      apply list_elem_of_fmap_1 in Hf as (c & -> & Hc). destruct (rep_facts _ _ _ _ _ H Hc) as (? & _). lia. }
    rewrite (proj2 (Z.eqb_neq _ _)) by done. apply (wp_ret total).
    destruct (list_elem_of_lookup_1 _ _ (rp_freep _ _ _ _ H)) as [j Hj].
    destruct (ring_next _ _ _ _ j _ H Hj) as (p & _ & Hp & _). wp_step. eapply wp_get_ptr; [exact Hp|].
    by apply wp_malloc_ready.
  - rewrite Hf. cbn [Z.eqb]. wp_step. apply wp_modify. wp_step. apply wp_modify. wp_step. apply wp_modify. apply (wp_ret total).
    cbn [hp_ptr hp_size hp_freep hp_user]. wp_step. eapply wp_get_ptr; [apply lookup_insert_eq|].
    eapply wp_mono; [apply wp_malloc_ready; [split; [exact Hos'|by apply rep_start]|done|done|done|apply lookup_insert_eq]|done].
Qed.

(** C29. [malloc] gives memory of its own: for any state of the allocator, with a kernel whose [sbrk]
    keeps its word, it returns; either there is no memory, the result is 0, and what was free
    is free still, or the result is the address after the header of a block of at least [nbytes] bytes that is
    in no free block and no block in use; the free blocks and the new one together are exactly what was
    free and what the kernel gave.  The bound is that of the [int] that [sbrk] takes. *)
Theorem malloc_correct h fl al nbytes : allocator h fl al -> 0 <= nbytes <= 2147483616 -> (0 < u_left (hp_user h))%nat ->
  exists r h' fl', malloc base nbytes h = Ok r h' /\ top_of h <= top_of h' /\
  ((r = 0 /\ allocator h' fl' al /\ forall x, cover fl' x <-> cover fl x \/ top_of h <= x < top_of h') \/
   exists a n, r = a + HDR /\ nbytes <= HDR * (n - 1) /\ al !! a = None /\ allocator h' fl' (<[a := n]> al) /\
     (forall x, cover fl' x \/ inside (a, n) x <-> cover fl x \/ top_of h <= x < top_of h') /\
     (forall x, inside (a, n) x -> ~ cover fl' x)).
Proof.
  intros Ha Hnb Hl. destruct (wp_total_Ok _ _ _ (wp_malloc h fl al nbytes Ha Hnb Hl)) as (r & h' & E & fl' & Ht & Hr).
  exists r, h', fl'. split; [exact E|]. split; [exact Ht|]. destruct Hr as [(-> & H' & Hc)|(a & -> & Hnone & H' & Hc & Hd)].
  - left. split_and!; [done|by left|done].
  - right. exists a, ((nbytes + HDR - 1) / HDR + 1). split_and!; [done| |done|by left|done|done]. unfold HDR. zlia.
Qed.

(** C30. [free] gives a block back: for a block in use it returns, the block's memory is free, joined
    to its free neighbours in the ordered list, and all the other blocks are as they were. *)
Theorem free_correct h fl al a n : allocator h fl al -> al !! a = Some n ->
  exists h' fl', free (a + HDR) h = Ok tt h' /\ hp_user h' = hp_user h /\ allocator h' fl' (delete a al) /\
    StronglySorted before fl' /\ forall x, cover fl' x <-> cover fl x \/ inside (a, n) x.
Proof.
  intros [[Hos' H]|(_ & _ & _ & -> & _)] Ha; [|done]. destruct (rp_al _ _ _ _ H a n Ha) as (Hn & Hs & Hb & Ht).
  assert (Hdel : rep (top_of h) h fl (delete a al)).
  { destruct H. split; try done.
    - intros b k [_ Hb']%lookup_delete_Some. by apply rp_al0.
    - intros b k x [_ Hb']%lookup_delete_Some. by apply rp_al_free0.
    - intros b k b' k' x [_ Hb1]%lookup_delete_Some [_ Hb2]%lookup_delete_Some. by apply (rp_al_al0 b k b' k' x). }
  destruct (wp_total_Ok (free (a + HDR)) (fun _ h' => exists fl', hp_user h' = hp_user h /\ rep (top_of h) h' fl' (delete a al) /\
    forall x, cover fl' x <-> cover fl x \/ inside (a, n) x) h) as ([] & h' & E & fl' & Hu & H' & Hc).
  - apply (wp_free (top_of h) h fl (delete a al) (a, n)); [exact Hdel| | |].
    + unfold fresh, stop. cbn [fst snd]. split_and!; [done|done|done|done|]. intros x Hx. by apply (rp_al_free _ _ _ _ H a n x).
    + intros b k x [Hne Hb']%lookup_delete_Some Hbx Hax. apply Hne. symmetry. by apply (rp_al_al _ _ _ _ H b k a n x).
    + intros h' fl' H' Hu Hc _ _. by exists fl'.
  - exists h', fl'. split_and!; [exact E|exact Hu| | |exact Hc].
    + left. unfold ready, top_of in *. by rewrite Hu.
    + pose proof (rp_sorted _ _ _ _ H') as Hs'. by apply StronglySorted_cons in Hs' as [_ ?].
Qed.
End Malloc.

(** ** Examples *)
Lemma demo_sbrk_law : sbrk_law demo_sbrk demo_brk.
Proof.
  intros cs n Hn cs'. unfold demo_sbrk, demo_brk, cs'. rewrite removelast_last, last_snoc, foldl_app. cbn [foldl demo_grow r_val].
  fold (demo_brk cs). destruct (demo_brk cs + n <=? 0x1000000) eqn:E; [|by left]. right. split_and!; [done|done|]. unfold LIMIT. blia.
Qed.

Lemma demo_allocator : allocator 0x1000 demo_sbrk demo_brk demo_heap [] ∅.
Proof. right. by split_and!. Qed.

Lemma malloc_correct_witness : exists r h' fl', malloc 0x1000 100 demo_heap = Ok r h' /\
  (exists a n, r = a + HDR /\ allocator 0x1000 demo_sbrk demo_brk h' fl' {[a := n]} /\ 100 <= HDR * (n - 1)).
Proof.
  destruct (malloc_correct 0x1000 demo_sbrk demo_brk demo_sbrk_law demo_heap [] ∅ 100 demo_allocator ltac:(lia) ltac:(cbn; lia))
    as (r & h' & fl' & E & _ & [(-> & _)|(a & n & -> & Hn & _ & H' & _)]).
  - exfalso. assert (En : returns (malloc 0x1000 100 demo_heap) 0 = 0x14f90) by (vm_compute; reflexivity).
    rewrite E in En. discriminate.
  - exists (a + HDR), h', fl'. split; [exact E|]. exists a, n. split_and!; [done| |done]. by rewrite insert_empty in H'.
Defined.

Lemma demo_used : exists h fl a n, allocator 0x1000 demo_sbrk demo_brk h fl {[a := n]}.
Proof.
  destruct (wp_total_Ok _ _ _ (wp_malloc 0x1000 demo_sbrk demo_brk demo_sbrk_law demo_heap [] ∅ 100 demo_allocator ltac:(lia) ltac:(cbn; lia)))
    as (r & h & E & fl & _ & [(-> & _)|(a & -> & _ & H & _)]).
  - exfalso. assert (En : returns (malloc 0x1000 100 demo_heap) 0 = 0x14f90) by (vm_compute; reflexivity).
    rewrite E in En. discriminate.
  - exists h, fl, a, ((100 + HDR - 1) / HDR + 1). left. by rewrite insert_empty in H.
Qed.

Lemma free_correct_witness : exists h fl a n h' fl', allocator 0x1000 demo_sbrk demo_brk h fl {[a := n]} /\
  free (a + HDR) h = Ok tt h' /\ allocator 0x1000 demo_sbrk demo_brk h' fl' ∅.
Proof.
  destruct demo_used as (h & fl & a & n & H).
  destruct (free_correct 0x1000 demo_sbrk demo_brk h fl {[a := n]} a n H (lookup_singleton_eq a n)) as (h' & fl' & E & _ & H' & _).
  exists h, fl, a, n, h', fl'. split; [exact H|]. split; [exact E|]. by rewrite delete_singleton_eq in H'.
Defined.
