(* ===== verification/Mkfs.v ===== *)
(** The builder of the file system image: mkfs/mkfs.c.

    The image is the list of the blocks of the file [fsfd]; it runs on a host with the same byte
    order as the target, so that [xint] and [xshort] compute what they do there.  The
    files to be put in the image are the parameter [host]: what the reads of a host file
    give, one after the other.  What mkfs prints on the host's terminal is left out.
    Theorems are in files Image and Build. *)

From S2P Require Export Ondisk.

Definition NINODES : Z := 200.
Definition nbitmap : Z := FSSIZE / (BSIZE * 8) + 1.
Definition ninodeblocks : Z := NINODES / IPB + 1.
Definition nlog : Z := LOGSIZE.
Definition zeroes : list Z := replicate (Z.to_nat BSIZE) 0.

(** The globals and the image. *)
Record mkfs : Type := Mkfs {
  mk_img : list (list Z);
  mk_sb : superblock;
  mk_freeinode : Z;
  mk_freeblock : Z }.
Abbreviation F A := (M mkfs A).

Definition set_img (f : list (list Z) -> list (list Z)) : F unit :=
  modify (fun m => Mkfs (f (mk_img m)) (mk_sb m) (mk_freeinode m) (mk_freeblock m)).

(** Convert to riscv byte order: the bytes of [y] in memory are those of [x], least
    significant first. *)
Definition xshort (x : Z) : Z := le_val (le_bytes 2 x).
Definition xint (x : Z) : Z := le_val (le_bytes 4 x).

Definition assert_ (b : bool) : F unit := if b then ret tt else panic "assert".

(** * Sectors and inodes *)

(** Writing past the end of the file extends it. *)
Definition wsect (sec : Z) (buf : list Z) : F unit :=
  set_img (fun img =>
    if (Z.to_nat sec <? length img)%nat then <[Z.to_nat sec := buf]> img
    else img ++ replicate (Z.to_nat sec - length img) zeroes ++ [buf]).

Definition rsect (sec : Z) : F (list Z) :=
  img <- gets mk_img ;;
  match img !! Z.to_nat sec with Some b => ret b | None => panic "read" end.

Definition winode (inum : Z) (ip : dinode) : F unit :=
  sb <- gets mk_sb ;;
  buf <- rsect (IBLOCK inum sb) ;;
  wsect (IBLOCK inum sb) (put_dinode (dinode_off inum) ip buf).

Definition rinode (inum : Z) : F dinode :=
  sb <- gets mk_sb ;;
  buf <- rsect (IBLOCK inum sb) ;;
  ret (get_dinode (dinode_off inum) buf).

(** [freeblock++] *)
Definition next_block : F Z :=
  b <- gets mk_freeblock ;;
  modify (fun m => Mkfs (mk_img m) (mk_sb m) (mk_freeinode m) (u32 (b + 1))) ;;;
  ret b.

Definition ialloc (type : Z) : F Z :=
  inum <- gets mk_freeinode ;;
  modify (fun m => Mkfs (mk_img m) (mk_sb m) (u32 (inum + 1)) (mk_freeblock m)) ;;;
  winode inum (Dinode (s16 (xshort type)) 0 0 (s16 (xshort 1)) (xint 0) (replicate 13 0)) ;;;
  ret inum.

(** The bitmap with the first [used] bits set. *)
Definition bitmap_byte (i : nat) (buf : list Z) : list Z :=
  alter (fun x => u8 (Z.lor x (Z.shiftl 1 (Z.of_nat i mod 8)))) (i / 8)%nat buf.
Definition balloc (used : Z) : F unit :=
  assert_ (used <? BSIZE * 8) ;;;
  sb <- gets mk_sb ;;
  wsect (sb_bmapstart sb) (foldl (fun buf i => bitmap_byte i buf) zeroes (seq 0 (Z.to_nat used))).

(** * Appending to a file *)

Definition set_addr (din : dinode) (i : Z) (a : Z) : dinode :=
  Dinode (di_type din) (di_major din) (di_minor din) (di_nlink din) (di_size din) (<[Z.to_nat i := a]> (di_addrs din)).
Definition set_size (din : dinode) (n : Z) : dinode :=
  Dinode (di_type din) (di_major din) (di_minor din) (di_nlink din) n (di_addrs din).
Definition addr (din : dinode) (i : Z) : F Z := from_option_or_fault "addrs" (di_addrs din !! Z.to_nat i).

(** The block of the file block [fbn], allocated when there is none, and the inode. *)
Definition file_block (fbn : Z) (din : dinode) : F (Z * dinode) :=
  if fbn <? NDIRECT then
    a <- addr din fbn ;;
    din <- (if xint a =? 0 then b <- next_block ;; ret (set_addr din fbn (xint b)) else ret din) ;;
    a <- addr din fbn ;;
    ret (xint a, din)
  else
    a <- addr din NDIRECT ;;
    din <- (if xint a =? 0 then b <- next_block ;; ret (set_addr din NDIRECT (xint b)) else ret din) ;;
    ind <- addr din NDIRECT ;;
    indirect <- rsect (xint ind) ;;
    let i := Z.to_nat (fbn - NDIRECT) in
    indirect <- (if get_word indirect i =? 0 then
                   b <- next_block ;;
                   let indirect := put_word i (xint b) indirect in
                   wsect (xint ind) indirect ;;;
                   ret indirect
                 else ret indirect) ;;
    ret (xint (get_word indirect i), din).

(** A round copies what fits in the block. *)
Definition append_round (st : list Z * Z * dinode) : F (list Z * Z * dinode + Z * dinode) :=
  let '(p, off, din) := st in
  let n := Z.of_nat (length p) in
  if n >? 0 then
    let fbn := off / BSIZE in
    assert_ (fbn <? MAXFILE) ;;;
    let! (x, din) := file_block fbn din in
    let n1 := Z.min n (u32 ((fbn + 1) * BSIZE - off)) in
    buf <- rsect x ;;
    wsect x (put_bytes (Z.to_nat (off - fbn * BSIZE)) (take (Z.to_nat n1) p) buf) ;;;
    ret (inl (drop (Z.to_nat n1) p, u32 (off + n1), din))
  else ret (inr (off, din)).

Definition iappend (inum : Z) (xp : list Z) : F unit :=
  din <- rinode inum ;;
  let! (off, din) := loop (S (length xp)) append_round (xp, xint (di_size din), din) in
  winode inum (set_size din (xint off)).

(** * The program *)

Definition sb_bytes (sb : superblock) : list Z :=
  concat (le_bytes 4 <$> [sb_magic sb; sb_size sb; sb_nblocks sb; sb_ninodes sb; sb_nlog sb; sb_logstart sb;
    sb_inodestart sb; sb_bmapstart sb]).

Definition dirent_for (inum : Z) (name : list Z) : list Z :=
  dirent_bytes (Dirent (xshort inum) (strncpy_bytes (at_list name) DIRSIZ)).

(** The name in the image: without the directory [user/] and without a leading underscore. *)
Definition shortname (arg : list Z) : list Z :=
  if bool_decide (take 5 arg = bytes "user/") then drop 5 arg else arg.
Definition skip_underscore (name : list Z) : list Z :=
  match name with c :: name' => if c =? 95 then name' else name | [] => [] end.

Section Main.
Context (host : list Z -> option (list (list Z))).

Definition add_file (rootino : Z) (arg : list Z) : F unit :=
  assert_ (negb (bool_decide (slash ∈ shortname arg))) ;;;
  match host arg with
  | None => panic "open"
  | Some chunks =>
    inum <- ialloc T_FILE ;;
    iappend rootino (dirent_for inum (skip_underscore (shortname arg))) ;;;
    for_do chunks (iappend inum)
  end.

Definition nmeta : Z := 2 + nlog + ninodeblocks + nbitmap.
Definition image_sb : superblock :=
  Superblock FSMAGIC (xint FSSIZE) (xint (FSSIZE - nmeta)) (xint NINODES) (xint nlog) (xint 2) (xint (2 + nlog))
    (xint (2 + nlog + ninodeblocks)).

(** [main] from the empty image; [args] are the files. *)
Definition main (args : list (list Z)) : F unit :=
  modify (fun m => Mkfs (mk_img m) image_sb 1 nmeta) ;;;
  for_do (Z.of_nat <$> seq 0 (Z.to_nat FSSIZE)) (fun i => wsect i zeroes) ;;;
  wsect 1 (put_bytes 0 (sb_bytes image_sb) zeroes) ;;;
  rootino <- ialloc T_DIR ;;
  assert_ (rootino =? ROOTINO) ;;;
  iappend rootino (dirent_for rootino (bytes ".")) ;;;
  iappend rootino (dirent_for rootino (bytes "..")) ;;;
  for_do args (add_file rootino) ;;;
  (* fix size of root inode dir *)
  din <- rinode rootino ;;
  let off := xint (di_size din) in
  let off := u32 ((off / BSIZE + 1) * BSIZE) in
  winode rootino (set_size din (xint off)) ;;;
  used <- gets mk_freeblock ;;
  balloc (s32 used).
End Main.
