(* ===== verification/Image.v ===== *)
(** The image mkfs builds: the invariant of the image and of its files, and that
    [iappend] appends.

    A file is its contents, the blocks that hold them in order, and its indirect block;
    [inv] says that the image holds such files, in blocks of their own, and that the
    blocks from [freeblock] on are free.  A file is kept to the exact number of blocks
    its size needs, so the theorems can say when the disk is large enough. *)

From S2P Require Export Mkfs.

Record file : Type := File { f_data : list Z; f_blocks : list Z; f_ind : Z }.
Implicit Types (img : list (list Z)) (f : file) (din : dinode) (m : mkfs).

(** * The image *)

(** The block at a number. *)
Definition blk img (a : Z) : list Z := default [] (img !! Z.to_nat a).
Definition dinode_at img (inum : Z) : dinode := get_dinode (dinode_off inum) (blk img (IBLOCK inum image_sb)).

(** The block numbers of a file, the indirect block last. *)
Definition own f : list Z := f_blocks f ++ (if f_ind f =? 0 then [] else [f_ind f]).

(** The number of a file's [i]th block, 0 if it has none. *)
Definition num f (i : nat) : Z := default 0 (f_blocks f !! i).

(** The inode [din] names the blocks of [f], and they hold its contents and zeroes after it. *)
Record file_ok img (fb : Z) din f : Prop := FileOk {
  fo_din : dinode_ok din;
  fo_direct : forall i, (i < 12)%nat -> di_addrs din !! i = Some (num f i);
  fo_ind : di_addrs din !! 12%nat = Some (f_ind f);
  fo_indirect : f_ind f <> 0 -> forall i, (i < 256)%nat -> get_word (blk img (f_ind f)) i = num f (12 + i);
  fo_has_ind : f_ind f = 0 -> (length (f_blocks f) <= 12)%nat;
  fo_len : (length (f_blocks f) <= 268)%nat;
  fo_own : Forall (fun a => nmeta <= a < fb) (own f);
  fo_nodup : NoDup (own f);
  fo_data : forall i x, f_data f !! i = Some x ->
    exists a, f_blocks f !! (i / 1024)%nat = Some a /\ blk img a !! (i mod 1024)%nat = Some x;
  fo_tail : forall i a, (length (f_data f) <= i)%nat -> f_blocks f !! (i / 1024)%nat = Some a ->
    blk img a !! (i mod 1024)%nat = Some 0 }.

(** The disk: [ino] gives the inodes. *)
Record inv (ino : Z -> dinode) m (fs : gmap Z file) : Prop := Inv {
  inv_sb : mk_sb m = image_sb;
  inv_len : length (mk_img m) = 2000%nat;
  inv_blocks : Forall (fun b => length b = 1024%nat) (mk_img m);
  inv_freeblock : nmeta <= mk_freeblock m <= FSSIZE;
  inv_free : forall a, mk_freeblock m <= a < FSSIZE -> blk (mk_img m) a = zeroes;
  inv_freeinode : 1 <= mk_freeinode m <= NINODES;
  inv_inodes : forall i, is_Some (fs !! i) <-> 1 <= i < mk_freeinode m;
  inv_files : forall i f, fs !! i = Some f -> file_ok (mk_img m) (mk_freeblock m) (ino i) f;
  inv_disj : forall i j f g, fs !! i = Some f -> fs !! j = Some g -> i <> j -> own f ## own g }.

(** The blocks a file of [n] bytes takes. *)
Definition nblocks (n : Z) : Z := (n + 1023) / 1024.
Definition cost (n : Z) : Z := nblocks n + (if 12 <? nblocks n then 1 else 0).
Definition nown f : Z := Z.of_nat (length (own f)).

(** * Blocks *)

Lemma xint_small x : 0 <= x < 4294967296 -> xint x = x.
Proof. apply (le_val_le_bytes_small 4). Qed.

Lemma blk_insert img a b a' : 0 <= a < Z.of_nat (length img) -> 0 <= a' ->
  blk (<[Z.to_nat a := b]> img) a' = if decide (a' = a) then b else blk img a'.
Proof.
  intros Ha Ha'. unfold blk. case_decide as E.
  - subst. by rewrite list_lookup_insert_eq by lia.
  - by rewrite list_lookup_insert_ne by lia.
Qed.

Lemma blk_length img a : Forall (fun b => length b = 1024%nat) img -> 0 <= a < Z.of_nat (length img) ->
  length (blk img a) = 1024%nat.
Proof.
  intros Hf Ha. unfold blk. destruct (lookup_lt_is_Some_2 img (Z.to_nat a)) as [b Hb]; [lia|].
  rewrite Hb. by apply (Forall_lookup_1 _ _ _ _ Hf Hb).
Qed.

Lemma nmeta_val : nmeta = 46. Proof. reflexivity. Qed.
Lemma FSSIZE_val : FSSIZE = 2000. Proof. reflexivity. Qed.

Lemma IBLOCK_val i : 0 <= i < 200 -> IBLOCK i image_sb = i / 16 + 32.
Proof. intros H. unfold IBLOCK. change IPB with 16. change (sb_inodestart image_sb) with 32. apply u32_small. zlia. Qed.
Lemma IBLOCK_range i : 0 <= i < 200 -> 0 <= IBLOCK i image_sb < nmeta.
Proof. intros H. rewrite IBLOCK_val, nmeta_val by done. zlia. Qed.

(** A write elsewhere keeps a file. *)
Lemma file_ok_frame img fb img' fb' din f : file_ok img fb din f -> fb <= fb' ->
  (forall a, a ∈ own f -> blk img' a = blk img a) -> file_ok img' fb' din f.
Proof.
  intros [] Hfb Heq. split; try done.
  - intros Hi i Hlt. rewrite Heq; [by apply fo_indirect0|]. unfold own.
    rewrite (proj2 (Z.eqb_neq _ _)) by done. set_solver.
  - eapply Forall_impl; [done|]. cbn. lia.
  - intros i x Hx. destruct (fo_data0 i x Hx) as (a & Ha & Hb). exists a. split; [done|].
    rewrite Heq; [done|]. apply elem_of_app. left. by eapply list_elem_of_lookup_2.
  - intros i a Hi Ha. rewrite Heq; [by apply (fo_tail0 i)|]. apply elem_of_app. left. by eapply list_elem_of_lookup_2.
Qed.

Lemma zeroes_lookup i : (i mod 1024 < 1024)%nat -> zeroes !! (i mod 1024)%nat = Some 0.
Proof. intros H. unfold zeroes. change (Z.to_nat BSIZE) with 1024%nat. by apply lookup_replicate_2. Qed.

Lemma elem_of_own a f : a ∈ own f <-> a ∈ f_blocks f \/ (f_ind f <> 0 /\ a = f_ind f).
Proof. unfold own. rewrite elem_of_app. case_match eqn:E; bool_hyps; set_solver. Qed.

Lemma own_num f i : (i < length (f_blocks f))%nat -> f_blocks f !! i = Some (num f i) /\ num f i ∈ own f.
Proof.
  intros Hi. unfold num. destruct (lookup_lt_is_Some_2 _ _ Hi) as [a Ha]. rewrite Ha. split; [done|].
  apply elem_of_own. left. by eapply list_elem_of_lookup_2.
Qed.

Lemma num_end f i : (length (f_blocks f) <= i)%nat -> num f i = 0.
Proof. intros Hi. unfold num. by rewrite lookup_ge_None_2. Qed.

Lemma own_range img fb din f a : file_ok img fb din f -> a ∈ own f -> nmeta <= a < fb.
Proof. intros H Ha. by apply (proj1 (Forall_forall _ _) (fo_own _ _ _ _ H) a Ha). Qed.

Lemma num_nonzero img fb din f i : file_ok img fb din f -> (i < length (f_blocks f))%nat -> nmeta <= num f i < fb.
Proof. intros H Hi. eapply own_range; [done|]. by apply own_num. Qed.

(** * Reading and writing blocks *)

Definition put_blk m a b : mkfs := Mkfs (<[Z.to_nat a := b]> (mk_img m)) (mk_sb m) (mk_freeinode m) (mk_freeblock m).

Lemma wp_rsect E a m Q : 0 <= a < Z.of_nat (length (mk_img m)) -> Q (blk (mk_img m) a) m -> wp E (rsect a) Q m.
Proof.
  intros Ha HQ. unfold rsect. wp_step. apply wp_gets. unfold blk in HQ.
  destruct (lookup_lt_is_Some_2 (mk_img m) (Z.to_nat a)) as [b Hb]; [lia|]. rewrite Hb in *. by apply (wp_ret E).
Qed.

Lemma wp_wsect E a b m Q : 0 <= a < Z.of_nat (length (mk_img m)) -> Q tt (put_blk m a b) -> wp E (wsect a b) Q m.
Proof.
  intros Ha HQ. unfold wsect, set_img. apply wp_modify. rewrite (proj2 (Nat.ltb_lt _ _)) by lia. exact HQ.
Qed.

Lemma wp_next_block E m Q : 0 <= mk_freeblock m < 4294967295 ->
  Q (mk_freeblock m) (Mkfs (mk_img m) (mk_sb m) (mk_freeinode m) (mk_freeblock m + 1)) -> wp E next_block Q m.
Proof.
  intros H HQ. unfold next_block. wp_step. apply wp_gets. wp_step. apply wp_modify. apply (wp_ret E).
  by rewrite u32_small by lia.
Qed.

Lemma wp_addr E din i a m (Q : Z -> mkfs -> Prop) : di_addrs din !! Z.to_nat i = Some a -> Q a m -> wp E (addr din i) Q m.
Proof. intros Ha HQ. unfold addr. rewrite Ha. by apply (wp_ret E). Qed.

(** * One file while it is being written *)

(** The inodes with inode [i] as in memory. *)
Definition with_ino (ino : Z -> dinode) (i : Z) din (j : Z) : dinode := if decide (j = i) then din else ino j.

Section Open.
Context (ino : Z -> dinode) (i : Z) (fs : gmap Z file).
Implicit Types (bn : nat).

(** The disk with the file [f] in place of file [i], its inode [din] in memory. *)
Definition opened din f m : Prop := inv (with_ino ino i din) m (<[i := f]> fs).

Lemma opened_file din f m : opened din f m -> file_ok (mk_img m) (mk_freeblock m) din f.
Proof.
  intros H. pose proof (inv_files _ _ _ H i f (lookup_insert_eq _ _ _)) as Hf. unfold with_ino in Hf.
  by rewrite decide_True in Hf.
Qed.

(** What a change of the file must keep. *)
Lemma opened_update din f m din' f' m' : opened din f m ->
  mk_sb m' = mk_sb m -> mk_freeinode m' = mk_freeinode m ->
  length (mk_img m') = 2000%nat -> Forall (fun b => length b = 1024%nat) (mk_img m') ->
  mk_freeblock m <= mk_freeblock m' <= FSSIZE ->
  (forall a, 0 <= a -> a ∉ own f' -> blk (mk_img m') a = blk (mk_img m) a) ->
  (forall a, a ∈ own f' -> a ∈ own f \/ mk_freeblock m <= a) ->
  file_ok (mk_img m') (mk_freeblock m') din' f' -> opened din' f' m'.
Proof.
  intros H Hsb Hfi Hl Hb Hfb Hout Hown Hok.
  assert (Hdis : forall j g, j <> i -> fs !! j = Some g -> own g ## own f' /\ (forall a, a ∈ own g -> 0 <= a)).
  { intros j g Hj Hg. rewrite <- (lookup_insert_ne fs i j f) in Hg by done.
    pose proof (inv_disj _ _ _ H j i g f Hg (lookup_insert_eq _ _ _) Hj) as Hd.
    pose proof (inv_files _ _ _ H j g Hg) as Hgo. split.
    - intros a Ha Ha'. destruct (Hown a Ha') as [|Hge]; [by apply (Hd a)|].
      pose proof (own_range _ _ _ _ _ Hgo Ha). lia.
    - intros a Ha. pose proof (own_range _ _ _ _ _ Hgo Ha). rewrite nmeta_val in *. lia. }
  split; try done.
  - by rewrite Hsb, (inv_sb _ _ _ H).
  - pose proof (inv_freeblock _ _ _ H). lia.
  - intros a Ha. rewrite Hout; [apply (inv_free _ _ _ H); lia|pose proof (inv_freeblock _ _ _ H); rewrite nmeta_val in *; lia|].
    intros Ha'. pose proof (own_range _ _ _ _ _ Hok Ha'). lia.
  - rewrite Hfi. apply (inv_freeinode _ _ _ H).
  - intros j. rewrite Hfi, <- (inv_inodes _ _ _ H j). destruct (decide (i = j)) as [<-|];
      by rewrite ?lookup_insert_eq, ?lookup_insert_ne.
  - intros j g. unfold with_ino. case_decide as E.
    + subst. rewrite lookup_insert_eq. by intros [= <-].
    + rewrite lookup_insert_ne by done. intros Hg. destruct (Hdis j g E Hg) as [Hd Hp].
      rewrite <- (lookup_insert_ne fs i j f) in Hg by done. pose proof (inv_files _ _ _ H j g Hg) as Hgo.
      unfold with_ino in Hgo. rewrite decide_False in Hgo by done.
      eapply file_ok_frame; [done|lia|]. intros a Ha. apply Hout; [by apply Hp|]. intros Ha'. by apply (Hd a).
  - intros j k g g'. destruct (decide (i = j)) as [<-|Hj], (decide (i = k)) as [<-|Hk]; [done|..];
      rewrite ?lookup_insert_eq, ?lookup_insert_ne by done.
    + intros [= <-] Hg Hne a Ha Ha'. by apply (proj1 (Hdis k g' (fun E => Hne (eq_sym E)) Hg) a).
    + intros Hg [= <-] _. by apply (Hdis j).
    + intros Hg Hg' Hne. apply (inv_disj _ _ _ H j k); [by rewrite lookup_insert_ne..|done].
Qed.
End Open.

(** * Giving a file a block *)

Definition add_block f a : file := File (f_data f) (f_blocks f ++ [a]) (f_ind f).

Lemma elem_of_own_add a b f : a ∈ own (add_block f b) <-> a ∈ own f \/ a = b.
Proof. rewrite !elem_of_own. cbn. rewrite elem_of_app, list_elem_of_singleton. tauto. Qed.

Lemma nown_add f a : nown (add_block f a) = nown f + 1.
Proof. unfold nown, own. cbn. rewrite !length_app. cbn. case_match; cbn; lia. Qed.

Lemma num_add f a i : num (add_block f a) i = if decide (i = length (f_blocks f)) then a else num f i.
Proof.
  unfold num. cbn. destruct (decide (i < length (f_blocks f))%nat) as [Hi|Hi].
  - by rewrite lookup_app_l, decide_False by lia.
  - rewrite lookup_app_r by lia. case_decide as E.
    + by rewrite E, Nat.sub_diag.
    + rewrite !lookup_ge_None_2; [done|lia|cbn; lia].
Qed.

Lemma NoDup_own_add f a : NoDup (own f) -> a ∉ own f -> NoDup (own (add_block f a)).
Proof.
  intros Hn Ha. unfold own in *. cbn [add_block f_blocks f_ind]. rewrite <- app_assoc. cbn [app].
  rewrite <- Permutation_middle. by constructor.
Qed.

(** The part of [file_ok] that is the same in every case. *)
Lemma file_ok_add img fb din f img' fb' din' a : file_ok img fb din f ->
  fb <= a < fb' -> nmeta <= fb -> (length (f_blocks f) < 268)%nat ->
  (f_ind f = 0 -> (length (f_blocks f) < 12)%nat) ->
  (forall b, b ∈ f_blocks f -> blk img' b = blk img b) -> blk img' a = zeroes -> dinode_ok din' ->
  (forall i, (i < 12)%nat -> di_addrs din' !! i = Some (num (add_block f a) i)) ->
  di_addrs din' !! 12%nat = Some (f_ind f) ->
  (f_ind f <> 0 -> forall i, (i < 256)%nat -> get_word (blk img' (f_ind f)) i = num (add_block f a) (12 + i)) ->
  file_ok img' fb' din' (add_block f a).
Proof.
  intros [] Ha Hm Hlen Hind Heq Hz Hdin Hd H12 Hi. split; cbn [add_block f_blocks f_ind f_data]; try done.
  - intros E. rewrite length_app. cbn. specialize (Hind E). lia.
  - rewrite length_app. cbn. lia.
  - apply Forall_forall. intros b Hb%elem_of_own_add. destruct Hb as [Hb| ->]; [|lia].
    apply (proj1 (Forall_forall _ _) fo_own0) in Hb. lia.
  - apply NoDup_own_add; [done|]. intros Hb. apply (proj1 (Forall_forall _ _) fo_own0) in Hb. lia.
  - intros j x Hx. destruct (fo_data0 j x Hx) as (b & Hb & Hbx). exists b.
    split; [by apply lookup_app_l_Some|]. rewrite Heq; [done|]. by eapply list_elem_of_lookup_2.
  - intros j b Hj [Hb|[_ Hb]]%lookup_app_Some.
    + rewrite Heq; [by apply (fo_tail0 j)|]. by eapply list_elem_of_lookup_2.
    + apply list_lookup_singleton_Some in Hb as [_ <-]. rewrite Hz. by apply zeroes_lookup, Nat.mod_upper_bound.
Qed.

Lemma dinode_ok_set_addr din i a : dinode_ok din -> 0 <= a < 4294967296 -> dinode_ok (set_addr din i a).
Proof.
  unfold dinode_ok, set_addr. cbn. rewrite length_insert. intros (? & ? & ? & ? & ? & ? & Hf) Ha.
  split_and!; try done; try lia. by apply Forall_insert.
Qed.

Lemma dinode_ok_set_size din n : dinode_ok din -> 0 <= n < 4294967296 -> dinode_ok (set_size din n).
Proof. unfold dinode_ok, set_size. cbn. intros (? & ? & ? & ? & ? & ? & ?) Hn. split_and!; done || lia. Qed.

Lemma addrs_length din : dinode_ok din -> length (di_addrs din) = 13%nat.
Proof. by intros (_ & _ & _ & _ & _ & H & _). Qed.

Lemma file_ok_direct img fb din f : file_ok img fb din f -> nmeta <= fb < 4294967295 ->
  (length (f_blocks f) < 12)%nat -> blk img fb = zeroes ->
  file_ok img (fb + 1) (set_addr din (Z.of_nat (length (f_blocks f))) fb) (add_block f fb).
Proof.
  intros H Hfb Hlen Hz. pose proof (addrs_length _ (fo_din _ _ _ _ H)) as Hl. rewrite nmeta_val in *.
  eapply file_ok_add; [done|rewrite ?nmeta_val; lia..|done|done|apply dinode_ok_set_addr; [apply H|lia]| | |].
  - intros i Hi. cbn [set_addr di_addrs]. rewrite Nat2Z.id, num_add. case_decide as E.
    + subst. by apply list_lookup_insert_eq; lia.
    + rewrite list_lookup_insert_ne by done. by apply H.
  - cbn [set_addr di_addrs]. rewrite Nat2Z.id, list_lookup_insert_ne by lia. apply H.
  - intros Hi i Hlt. rewrite num_add, decide_False by lia. by apply H.
Qed.

(** The indirect block, still empty. *)
Definition set_ind f a : file := File (f_data f) (f_blocks f) a.

Lemma file_ok_set_ind img fb din f : file_ok img fb din f -> nmeta <= fb < 4294967295 -> f_ind f = 0 ->
  blk img fb = zeroes -> file_ok img (fb + 1) (set_addr din NDIRECT fb) (set_ind f fb).
Proof.
  intros [] Hfb Hi Hz. pose proof (addrs_length _ fo_din0) as Hl. specialize (fo_has_ind0 Hi). rewrite nmeta_val in *.
  assert (Hown : own (set_ind f fb) = f_blocks f ++ [fb]).
  { unfold own, set_ind. cbn. by rewrite (proj2 (Z.eqb_neq _ _)) by lia. }
  assert (Hown0 : own f = f_blocks f) by (unfold own; rewrite Hi; apply app_nil_r). rewrite Hown0 in *.
  split; rewrite ?Hown; cbn [set_ind f_blocks f_ind f_data set_addr di_addrs]; try done.
  - apply dinode_ok_set_addr; [done|lia].
  - intros j Hj. change (Z.to_nat NDIRECT) with 12%nat. rewrite list_lookup_insert_ne by lia. by apply fo_direct0.
  - change (Z.to_nat NDIRECT) with 12%nat. apply list_lookup_insert_eq. lia.
  - intros _ j Hj. rewrite Hz. unfold num. cbn. rewrite lookup_ge_None_2 by lia. cbn.
    assert (Hg : forall n k, get_word (replicate n 0) k = 0).
    { intros n k. unfold get_word. rewrite drop_replicate, take_replicate. 
      generalize (4 `min` (n - 4 * k))%nat. induction n0 as [|n0 IH]; [done|]. cbn in *. unfold le_val in IH. by rewrite IH. }
    apply Hg.
  - apply Forall_app. rewrite nmeta_val. split; [|repeat constructor; lia].
    eapply Forall_impl; [done|]. cbn. lia.
  - apply NoDup_app. split_and!; [done| |apply NoDup_singleton]. intros x Hx Hx'%list_elem_of_singleton. subst.
    apply (proj1 (Forall_forall _ _) fo_own0) in Hx. lia.
Qed.

Lemma file_ok_indirect img fb din f : file_ok img fb din f -> nmeta <= fb < 4294967295 -> 0 < f_ind f ->
  (12 <= length (f_blocks f) < 268)%nat ->
  length (blk img (f_ind f)) = 1024%nat -> blk img fb = zeroes ->
  Z.of_nat (length img) = FSSIZE -> fb <= FSSIZE ->
  file_ok (<[Z.to_nat (f_ind f) := put_word (length (f_blocks f) - 12) fb (blk img (f_ind f))]> img) (fb + 1) din
    (add_block f fb).
Proof.
  intros H Hfb Hi Hlen Hbl Hz Himg Hfs.
  assert (Hin : f_ind f ∈ own f) by (apply elem_of_own; right; split; [lia|done]).
  pose proof (own_range _ _ _ _ _ H Hin) as Hr. rewrite nmeta_val in *.
  eapply file_ok_add; [done|rewrite ?nmeta_val; lia..| | |apply H| | |].
  - intros b Hb. assert (Hbo : b ∈ own f) by (apply elem_of_own; by left).
    pose proof (own_range _ _ _ _ _ H Hbo). rewrite nmeta_val in *. rewrite blk_insert by lia. rewrite decide_False; [done|]. intros ->. pose proof (fo_nodup _ _ _ _ H) as Hn. unfold own in Hn. rewrite (proj2 (Z.eqb_neq _ _)) in Hn by lia.
    apply NoDup_app in Hn as (_ & Hn & _). apply (Hn _ Hb). set_solver.
  - rewrite blk_insert, decide_False by lia. done.
  - intros j Hj. rewrite num_add, decide_False by lia. by apply H.
  - apply H.
  - intros _ j Hj. rewrite blk_insert by lia. rewrite decide_True by done. rewrite get_put_word by lia. rewrite num_add.
    destruct (decide (length (f_blocks f) - 12 = j)%nat) as [<-|Hne].
    + rewrite decide_True by lia. apply u32_small. lia.
    + rewrite decide_False by lia. apply H; lia.
Qed.

(** * Storing the bytes *)

(** The quotient and the remainder of an offset, for [lia]. *)
Ltac block_of j := pose proof (Nat.div_mod_eq j 1024); pose proof (Nat.mod_upper_bound j 1024 ltac:(lia)).

Definition set_data f (c : list Z) : file := File c (f_blocks f) (f_ind f).

Lemma file_ok_write img fb din f bn x q : file_ok img fb din f -> f_blocks f !! bn = Some x ->
  (length (f_data f) / 1024 = bn)%nat -> (length (f_data f) + length q <= 1024 * (bn + 1))%nat ->
  0 <= x < Z.of_nat (length img) -> length (blk img x) = 1024%nat ->
  file_ok (<[Z.to_nat x := put_bytes (length (f_data f) - bn * 1024) q (blk img x)]> img) fb din (set_data f (f_data f ++ q)).
Proof.
  intros H Hx Hbn Hq Hxr Hbl.
  assert (Hpos : forall a, a ∈ own f -> 0 <= a).
  { intros a Ha. pose proof (own_range _ _ _ _ _ H Ha). rewrite nmeta_val in *. lia. }
  assert (Hblk : forall a, a ∈ own f -> a <> x ->
    blk (<[Z.to_nat x := put_bytes (length (f_data f) - bn * 1024) q (blk img x)]> img) a = blk img a).
  { intros a Ha Hne. rewrite blk_insert by (done || by apply Hpos). by rewrite decide_False. }
  destruct H as [H1 H2 H3 H4 H5 H6 H7 H8 H9 H10]. split; cbn [set_data f_data f_blocks f_ind]; try done.
  - intros Hi j Hj. rewrite Hblk; [by apply H4|apply elem_of_own; by right|]. intros <-.
    unfold own in H8. rewrite (proj2 (Z.eqb_neq _ _)) in H8 by done.
    apply NoDup_app in H8 as (_ & Hn & _). apply (Hn (f_ind f)); [exact (list_elem_of_lookup_2 _ _ _ Hx)|by apply list_elem_of_singleton].
  - intros j y Hj. block_of j. set (o := (length (f_data f) - bn * 1024)%nat) in *.
    assert (Hin : forall a, f_blocks f !! (j / 1024)%nat = Some a -> a <> x -> (j < length (f_data f))%nat ->
      blk (<[Z.to_nat x := put_bytes o q (blk img x)]> img) a = blk img a).
    { intros a Ha Hne _. apply Hblk; [|done]. apply elem_of_own. left. by eapply list_elem_of_lookup_2. }
    assert (length (f_data f) = bn * 1024 + o /\ o < 1024)%nat as [Hlen Ho] by (block_of (length (f_data f)); lia).
    destruct (decide (j < length (f_data f))%nat) as [Hlt|Hge].
    + rewrite lookup_app_l in Hj by done. destruct (H9 j y Hj) as (a & Ha & Hy). exists a. split; [done|].
      destruct (decide (a = x)) as [->|Hne]; [|by rewrite Hin].
      assert (j / 1024 = bn)%nat as Hjb.
      { eapply NoDup_lookup; [|exact Ha|exact Hx]. unfold own in H8. by apply NoDup_app in H8 as [? _]. }
      rewrite blk_insert, decide_True by (done || lia). rewrite put_bytes_lookup, decide_False by (rewrite ?Hbl; lia). done.
    + rewrite lookup_app_r in Hj by lia. pose proof (lookup_lt_Some _ _ _ Hj) as Hjq.
      assert (j / 1024 = bn)%nat as -> by lia. exists x. split; [done|].
      rewrite blk_insert, decide_True by (done || lia).
      rewrite put_bytes_lookup, decide_True by (rewrite ?Hbl; lia). rewrite <- Hj. f_equal. lia.
  - intros j a Hj Ha. rewrite length_app in Hj. block_of j. block_of (length (f_data f)).
    destruct (decide (a = x)) as [->|Hne].
    + rewrite blk_insert, decide_True by (done || lia).
      assert (j / 1024 = bn)%nat as Hjb.
      { eapply NoDup_lookup; [|exact Ha|exact Hx]. unfold own in H8. by apply NoDup_app in H8 as [? _]. }
      rewrite put_bytes_lookup, decide_False by (rewrite ?Hbl; lia). apply (H10 j); [lia|done].
    + rewrite Hblk; [apply (H10 j); [lia|done]| |done]. apply elem_of_own. left. by eapply list_elem_of_lookup_2.
Qed.

(** What appending leaves alone: the blocks before the data blocks. *)
Definition kept m m' : Prop := mk_freeinode m' = mk_freeinode m /\
  forall a, 0 <= a < nmeta -> blk (mk_img m') a = blk (mk_img m) a.
#[export] Instance kept_po : PreOrder kept.
Proof.
  split; [by intros m|]. intros m m' m'' [H1 H2] [H3 H4]. split; [congruence|].
  intros a Ha. by rewrite H4, H2.
Qed.

Definition attrs din : Z * Z * Z * Z := (di_type din, di_major din, di_minor din, di_nlink din).

(** A file has an indirect block when it needs one. *)
Definition tight f : Prop := f_ind f = 0 <-> (length (f_blocks f) <= 12)%nat.

Section Append.
Context (ino : Z -> dinode) (i : Z) (fs : gmap Z file).
Abbreviation opened := (opened ino i fs).

Lemma opened_add_direct din f m : opened din f m -> mk_freeblock m < FSSIZE -> (length (f_blocks f) < 12)%nat ->
  opened (set_addr din (Z.of_nat (length (f_blocks f))) (mk_freeblock m)) (add_block f (mk_freeblock m))
    (Mkfs (mk_img m) (mk_sb m) (mk_freeinode m) (mk_freeblock m + 1)).
Proof.
  intros H Hfb Hlen. pose proof (opened_file _ _ _ _ _ _ H) as Hok. pose proof (inv_freeblock _ _ _ H).
  pose proof (inv_free _ _ _ H (mk_freeblock m)) as Hz. rewrite nmeta_val, FSSIZE_val in *.
  eapply opened_update; cbn [mk_img mk_sb mk_freeinode mk_freeblock]; [done|done|done|apply H|apply H|rewrite FSSIZE_val; lia|done| |].
  - intros a [| ->]%elem_of_own_add; [by left|right; done].
  - apply file_ok_direct; rewrite ?nmeta_val; [done|lia|done|apply Hz; lia].
Qed.

Lemma opened_set_ind din f m : opened din f m -> mk_freeblock m < FSSIZE -> f_ind f = 0 ->
  opened (set_addr din NDIRECT (mk_freeblock m)) (set_ind f (mk_freeblock m))
    (Mkfs (mk_img m) (mk_sb m) (mk_freeinode m) (mk_freeblock m + 1)).
Proof.
  intros H Hfb Hi. pose proof (opened_file _ _ _ _ _ _ H) as Hok. pose proof (inv_freeblock _ _ _ H).
  pose proof (inv_free _ _ _ H (mk_freeblock m)) as Hz. rewrite nmeta_val, FSSIZE_val in *.
  eapply opened_update; cbn [mk_img mk_sb mk_freeinode mk_freeblock]; [done|done|done|apply H|apply H|rewrite FSSIZE_val; lia|done| |].
  - intros a [Ha|[_ ->]]%elem_of_own; [left; apply elem_of_own; by left|right; done].
  - apply file_ok_set_ind; rewrite ?nmeta_val; [done|lia|done|apply Hz; lia].
Qed.

Lemma put_blk_blocks m a b : Forall (fun b => length b = 1024%nat) (mk_img m) -> length b = 1024%nat ->
  Forall (fun b => length b = 1024%nat) (mk_img (put_blk m a b)).
Proof. intros. by apply Forall_insert. Qed.

Lemma opened_add_indirect din f m : opened din f m -> mk_freeblock m < FSSIZE -> f_ind f <> 0 ->
  (12 <= length (f_blocks f) < 268)%nat ->
  let m' := put_blk m (f_ind f) (put_word (length (f_blocks f) - 12) (mk_freeblock m) (blk (mk_img m) (f_ind f))) in
  opened din (add_block f (mk_freeblock m)) (Mkfs (mk_img m') (mk_sb m) (mk_freeinode m) (mk_freeblock m + 1)).
Proof.
  intros H Hfb Hi Hlen m'. pose proof (opened_file _ _ _ _ _ _ H) as Hok. pose proof (inv_freeblock _ _ _ H) as Hf.
  pose proof (inv_free _ _ _ H (mk_freeblock m)) as Hz.
  pose proof (inv_len _ _ _ H) as Hl. rewrite nmeta_val, FSSIZE_val in *.
  assert (Hin : f_ind f ∈ own f) by (apply elem_of_own; by right).
  pose proof (own_range _ _ _ _ _ Hok Hin) as Hr. rewrite nmeta_val in Hr.
  pose proof (blk_length _ (f_ind f) (inv_blocks _ _ _ H) ltac:(lia)) as Hbl.
  eapply opened_update; cbn [mk_img mk_sb mk_freeinode mk_freeblock];
    [done|done|done| | |rewrite FSSIZE_val; lia| | |].
  - unfold m'. cbn. by rewrite length_insert.
  - apply put_blk_blocks; [apply H|]. rewrite length_put_word; lia.
  - intros a Ha Hna. unfold m'. cbn [put_blk mk_img]. rewrite blk_insert by lia. rewrite decide_False; [done|].
    intros ->. apply Hna, elem_of_own_add. by left.
  - intros a [| ->]%elem_of_own_add; [by left|right; done].
  - apply file_ok_indirect; rewrite ?nmeta_val, ?FSSIZE_val; try done; [lia..| |lia|lia]. apply Hz. lia.
Qed.

(** What [file_block] gives for the block [bn]. *)
Definition block_given din f m bn : Z * dinode -> mkfs -> Prop := fun '(x, din') m' => exists f',
  opened din' f' m' /\ tight f' /\ f_data f' = f_data f /\ attrs din' = attrs din /\ kept m m' /\
  f_blocks f' !! bn = Some x /\ length (f_blocks f') = Nat.max (length (f_blocks f)) (S bn) /\
  mk_freeblock m' - nown f' = mk_freeblock m - nown f.

Lemma block_given_old din f m bn : opened din f m -> tight f -> (bn < length (f_blocks f))%nat ->
  block_given din f m bn (num f bn, din) m.
Proof. intros H Ht Hbn. exists f. split_and!; try done. - by apply own_num. - lia. Qed.

Lemma xint_num img fb din f j : file_ok img fb din f -> fb <= FSSIZE -> xint (num f j) = num f j.
Proof.
  intros H Hfb. apply xint_small. rewrite FSSIZE_val in *. destruct (decide (j < length (f_blocks f))%nat) as [Hj|Hj].
  - pose proof (num_nonzero _ _ _ _ _ H Hj). rewrite nmeta_val in *. lia.
  - rewrite num_end; lia.
Qed.

Lemma wp_file_block_direct din f m bn : opened din f m -> tight f -> (bn <= length (f_blocks f))%nat -> (bn < 12)%nat ->
  (bn = length (f_blocks f) -> mk_freeblock m < FSSIZE) ->
  wp total (file_block (Z.of_nat bn) din) (block_given din f m bn) m.
Proof.
  intros H Ht Hbn H12 Hroom. pose proof (opened_file _ _ _ _ _ _ H) as Hok. pose proof (inv_freeblock _ _ _ H) as Hf.
  pose proof (addrs_length _ (fo_din _ _ _ _ Hok)) as Hal.
  unfold file_block. change NDIRECT with 12. rewrite (proj2 (Z.ltb_lt _ _)) by lia. wp_step.
  eapply wp_addr; [rewrite Nat2Z.id; by apply Hok|]. rewrite (xint_num _ _ _ _ _ Hok) by lia. wp_step.
  destruct (decide (bn < length (f_blocks f))%nat) as [Hlt|Hge].
  - pose proof (num_nonzero _ _ _ _ _ Hok Hlt) as Hnz. rewrite nmeta_val in *. rewrite (proj2 (Z.eqb_neq _ _)) by lia.
    apply (wp_ret total). wp_step. eapply wp_addr; [rewrite Nat2Z.id; by apply Hok|]. apply (wp_ret total).
    rewrite (xint_num _ _ _ _ _ Hok) by lia. by apply block_given_old.
  - assert (bn = length (f_blocks f)) as Heq by lia. specialize (Hroom Heq). rewrite num_end by lia. cbn [Z.eqb]. 
    rewrite nmeta_val, FSSIZE_val in *. wp_step. apply wp_next_block; [lia|]. apply (wp_ret total). wp_step.
    rewrite xint_small by lia. eapply wp_addr.
    { cbn [set_addr di_addrs]. rewrite Nat2Z.id. apply list_lookup_insert_eq. lia. }
    apply (wp_ret total). rewrite xint_small by lia. exists (add_block f (mk_freeblock m)). rewrite Heq. split_and!; try done.
    + apply opened_add_direct; [done|rewrite FSSIZE_val; lia|lia].
    + unfold tight in *. cbn. rewrite length_app. cbn. lia.
    + cbn. rewrite lookup_app_r, Nat.sub_diag by lia. done.
    + cbn. rewrite length_app. cbn. lia.
    + rewrite nown_add. cbn. lia.
Qed.

(** The indirect block, read and given the block [bn] if it has none. *)
Definition indirect_part (bn : nat) din : F (Z * dinode) :=
  ind <- addr din NDIRECT ;;
  indirect <- rsect (xint ind) ;;
  let i := Z.to_nat (Z.of_nat bn - NDIRECT) in
  indirect <- (if get_word indirect i =? 0 then
                 b <- next_block ;;
                 let indirect := put_word i (xint b) indirect in
                 wsect (xint ind) indirect ;;;
                 ret indirect
               else ret indirect) ;;
  ret (xint (get_word indirect i), din).

Lemma wp_indirect_part din f m bn : opened din f m -> f_ind f <> 0 ->
  (12 <= bn <= length (f_blocks f))%nat -> (bn < 268)%nat ->
  (bn = length (f_blocks f) -> mk_freeblock m < FSSIZE) ->
  wp total (indirect_part bn din) (block_given din f m bn) m.
Proof.
  intros H Hi Hbn H268 Hroom. pose proof (opened_file _ _ _ _ _ _ H) as Hok. pose proof (inv_freeblock _ _ _ H) as Hf.
  pose proof (inv_len _ _ _ H) as Hl.
  assert (Hin : f_ind f ∈ own f) by (apply elem_of_own; by right).
  pose proof (own_range _ _ _ _ _ Hok Hin) as Hr. rewrite nmeta_val, FSSIZE_val in *.
  pose proof (blk_length _ (f_ind f) (inv_blocks _ _ _ H) ltac:(lia)) as Hbl.
  unfold indirect_part. wp_step. eapply wp_addr; [exact (fo_ind _ _ _ _ Hok)|]. rewrite xint_small by lia. wp_step.
  apply wp_rsect; [lia|]. change NDIRECT with 12. replace (Z.to_nat (Z.of_nat bn - 12)) with (bn - 12)%nat by lia.
  wp_step. rewrite (fo_indirect _ _ _ _ Hok) by (done || lia). replace (12 + (bn - 12))%nat with bn by lia.
  destruct (decide (bn < length (f_blocks f))%nat) as [Hlt|Hge].
  - pose proof (num_nonzero _ _ _ _ _ Hok Hlt) as Hnz. rewrite nmeta_val in *. rewrite (proj2 (Z.eqb_neq _ _)) by lia.
    apply (wp_ret total). apply (wp_ret total).
    rewrite (fo_indirect _ _ _ _ Hok) by (done || lia). replace (12 + (bn - 12))%nat with bn by lia.
    rewrite xint_small by lia. apply block_given_old; [done| |done]. unfold tight. lia.
  - assert (bn = length (f_blocks f)) as Heq by lia. specialize (Hroom Heq). rewrite num_end by lia. cbn [Z.eqb].
    wp_step. apply wp_next_block; [lia|]. wp_step. rewrite xint_small by lia. apply wp_wsect; [cbn; lia|].
    apply (wp_ret total). apply (wp_ret total). rewrite get_put_word, decide_True, u32_small, xint_small by lia.
    exists (add_block f (mk_freeblock m)). rewrite Heq. split_and!; try done.
    + apply opened_add_indirect; [done|rewrite FSSIZE_val; lia|done|lia].
    + unfold tight in *. cbn. rewrite length_app. cbn. lia.
    + split; [done|]. intros a Ha. cbn. rewrite nmeta_val in Ha. rewrite blk_insert by lia. by rewrite decide_False by lia.
    + cbn. rewrite lookup_app_r, Nat.sub_diag by lia. done.
    + cbn. rewrite length_app. cbn. lia.
    + rewrite nown_add. cbn. lia.
Qed.

Lemma nown_set_ind f a : f_ind f = 0 -> a <> 0 -> nown (set_ind f a) = nown f + 1.
Proof. intros Hi Ha. unfold nown, own. cbn. rewrite Hi, (proj2 (Z.eqb_neq a _)) by done. rewrite !length_app. cbn. lia. Qed.

Lemma wp_file_block din f m bn : opened din f m -> tight f -> (bn <= length (f_blocks f))%nat -> (bn < 268)%nat ->
  (bn = length (f_blocks f) -> mk_freeblock m + (if decide (bn = 12%nat) then 2 else 1) <= FSSIZE) ->
  wp total (file_block (Z.of_nat bn) din) (block_given din f m bn) m.
Proof.
  intros H Ht Hbn H268 Hroom. destruct (decide (bn < 12)%nat) as [H12|H12].
  { apply wp_file_block_direct; [done..|]. intros E. specialize (Hroom E). case_decide; lia. }
  pose proof (opened_file _ _ _ _ _ _ H) as Hok. pose proof (inv_freeblock _ _ _ H) as Hf.
  unfold file_block. change NDIRECT with 12. rewrite (proj2 (Z.ltb_ge _ _)) by lia. change 12 with NDIRECT.
  wp_step. eapply wp_addr; [exact (fo_ind _ _ _ _ Hok)|]. wp_step.
  destruct (decide (f_ind f = 0)) as [Hi|Hi].
  - pose proof (proj1 Ht Hi). assert (bn = length (f_blocks f)) as Heq by lia. specialize (Hroom Heq).
    rewrite decide_True in Hroom by lia. rewrite nmeta_val, FSSIZE_val in *.
    rewrite Hi, xint_small by lia. cbn [Z.eqb]. wp_step. apply wp_next_block; [lia|]. apply (wp_ret total).
    rewrite xint_small by lia.
    eapply wp_mono; [apply (wp_indirect_part (set_addr din NDIRECT (mk_freeblock m)) (set_ind f (mk_freeblock m)))|].
    + apply opened_set_ind; [done|rewrite FSSIZE_val; lia|done].
    + cbn. lia.
    + cbn. lia.
    + done.
    + intros _. cbn [mk_freeblock]. rewrite FSSIZE_val. lia.
    + intros [x din'] m' (f' & H1 & H2 & H3 & H4 & H5 & H6 & H7 & H8). exists f'. split_and!; try done.
      * rewrite nown_set_ind in H8 by (done || lia). cbn in H8. lia.
  - assert (Hin : f_ind f ∈ own f) by (apply elem_of_own; by right).
    pose proof (own_range _ _ _ _ _ Hok Hin) as Hr. rewrite nmeta_val, FSSIZE_val in *.
    rewrite xint_small, (proj2 (Z.eqb_neq _ _)) by lia. apply (wp_ret total).
    apply wp_indirect_part; [done|done|lia|done|]. intros E. specialize (Hroom E). rewrite FSSIZE_val. case_decide; lia.
Qed.

Lemma opened_write din f m bn x q : opened din f m -> f_blocks f !! bn = Some x ->
  (length (f_data f) / 1024 = bn)%nat -> (length (f_data f) + length q <= 1024 * (bn + 1))%nat ->
  let m' := put_blk m x (put_bytes (length (f_data f) - bn * 1024) q (blk (mk_img m) x)) in
  opened din (set_data f (f_data f ++ q)) m' /\ kept m m'.
Proof.
  intros H Hx Hbn Hq m'. pose proof (opened_file _ _ _ _ _ _ H) as Hok. pose proof (inv_freeblock _ _ _ H) as Hf.
  pose proof (inv_len _ _ _ H) as Hl.
  assert (Hin : x ∈ own f) by (apply elem_of_own; left; by eapply list_elem_of_lookup_2).
  pose proof (own_range _ _ _ _ _ Hok Hin) as Hr. rewrite nmeta_val, FSSIZE_val in *.
  pose proof (blk_length _ x (inv_blocks _ _ _ H) ltac:(lia)) as Hbl. split.
  - unfold m'. eapply opened_update; cbn [put_blk mk_img mk_sb mk_freeinode mk_freeblock];
      [done|done|done| | |rewrite FSSIZE_val; lia| |by left|].
    + by rewrite length_insert.
    + apply put_blk_blocks; [apply H|]. rewrite length_put_bytes by (block_of (length (f_data f)); lia). done.
    + intros a Ha Hna. rewrite blk_insert, decide_False by (lia || done || (intros ->; by apply Hna)). done.
    + apply file_ok_write; try done; lia.
  - split; [done|]. intros a Ha. rewrite nmeta_val in Ha. cbn. by rewrite blk_insert, decide_False by lia.
Qed.

(** A file with exactly the blocks it needs. *)
Definition exact f : Prop := tight f /\ Z.of_nat (length (f_blocks f)) = nblocks (Z.of_nat (length (f_data f))).

Lemma exact_nown f : exact f -> nown f = cost (Z.of_nat (length (f_data f))).
Proof.
  intros [Ht He]. unfold nown, cost, own, tight in *. rewrite length_app, <- He.
  destruct (f_ind f =? 0) eqn:E, (12 <? Z.of_nat (length (f_blocks f))) eqn:E'; cbn; blia.
Qed.

(** There is room for the next block of a file that is going to have [n] bytes. *)
Lemma exact_room f bn k n : exact f -> bn = length (f_blocks f) -> Z.of_nat (bn * 1024) < n ->
  k + cost n <= FSSIZE -> k + nown f + (if decide (bn = 12%nat) then 2 else 1) <= FSSIZE.
Proof.
  intros He Hbl Hn Hroom. rewrite (exact_nown f He). destruct He as [_ Hb]. rewrite <- Hbl in Hb.
  assert (nblocks n >= Z.of_nat bn + 1) by (unfold nblocks in *; zlia). unfold cost in *. rewrite <- Hb.
  destruct (12 <? nblocks n) eqn:E1, (12 <? Z.of_nat bn) eqn:E2; case_decide; blia.
Qed.

(** The rest [p] of what is to be appended to the contents [c] of file [i]. *)
Definition appending c p0 din0 k m0 : list Z * Z * dinode -> mkfs -> Prop := fun '(p, off, din) m => exists f,
  opened din f m /\ exact f /\ off = Z.of_nat (length (f_data f)) /\ f_data f ++ p = c ++ p0 /\
  attrs din = attrs din0 /\ kept m0 m /\ mk_freeblock m = k + nown f.

Definition room c (p : list Z) k : Prop :=
  Z.of_nat (length (c ++ p)) <= MAXFILE * BSIZE /\ k + cost (Z.of_nat (length (c ++ p))) <= FSSIZE.

Lemma wp_append_round c p0 din0 k m0 p off din m : room c p0 k -> appending c p0 din0 k m0 (p, off, din) m ->
  wp total (append_round (p, off, din)) (fun r m' => match r with
    | inl st => appending c p0 din0 k m0 st m' /\ (length st.1.1 < length p)%nat
    | inr (off', din') => appending c p0 din0 k m0 ([], off', din') m'
    end) m.
Proof.
  intros [Hmax Hroom] (f & H & He & -> & Hc & Ha & Hk & Hfb). unfold append_round.
  destruct (decide (p = [])) as [->|Hp]; [apply (wp_ret total); by exists f|]. rename p into q.
  assert (Hql : (0 < length q)%nat) by (by destruct q; cbn; [|lia]).
  assert (Hlen : (length (f_data f) + length q = length (c ++ p0))%nat) by (by rewrite <- Hc, length_app).
  set (L := length (f_data f)) in *. set (bn := (L / 1024)%nat). pose proof (exact_nown _ He) as Hn.
  change (MAXFILE * BSIZE) with 274432 in Hmax. pose proof He as [Ht Hb]. fold L in Hn, Hb.
  replace (Z.of_nat L / BSIZE) with (Z.of_nat bn) by (unfold bn; change BSIZE with 1024; rewrite Nat2Z.inj_div; done).
  assert (bn * 1024 <= L < bn * 1024 + 1024)%nat by (block_of L; lia).
  assert (Hbn : (L / 1024 = bn)%nat) by done. clearbody bn.
  rewrite Z.gtb_ltb, (proj2 (Z.ltb_lt _ _)) by lia.
  wp_step. unfold assert_. change MAXFILE with 268. rewrite (proj2 (Z.ltb_lt _ _)) by lia.
  apply (wp_ret total). wp_step.
  eapply wp_mono; [apply (wp_file_block din f m bn H Ht)|].
  { unfold nblocks in *. zlia. } { lia. }
  { intros Hbl. rewrite Hfb. apply (exact_room f bn k (Z.of_nat (length (c ++ p0)))); done || lia. }
  intros [x din'] m' (f' & H1 & H2 & H3 & H4 & H5 & H6 & H7 & H8).
  change BSIZE with 1024. rewrite u32_small by lia.
  pose proof (opened_file _ _ _ _ _ _ H1) as Hok1. pose proof (inv_freeblock _ _ _ H1) as Hf1.
  assert (Hin : x ∈ own f') by (apply elem_of_own; left; by eapply list_elem_of_lookup_2).
  pose proof (own_range _ _ _ _ _ Hok1 Hin) as Hr. rewrite nmeta_val, FSSIZE_val in *.
  pose proof (inv_len _ _ _ H1) as Hl1.
  wp_step. apply wp_rsect; [lia|]. wp_step. apply wp_wsect; [lia|]. apply (wp_ret total).
  set (n1 := Z.to_nat (Z.min (Z.of_nat (length q)) ((Z.of_nat bn + 1) * 1024 - Z.of_nat L))).
  replace (Z.to_nat (Z.of_nat L - Z.of_nat bn * 1024)) with (length (f_data f') - bn * 1024)%nat by (rewrite H3; lia).
  assert (Hn1 : length (take n1 q) = n1) by (rewrite length_take; unfold n1; lia).
  destruct (opened_write din' f' m' bn x (take n1 q) H1 H6) as [Ho Hk']; [by rewrite H3|rewrite H3, Hn1; unfold n1; lia|].
  assert (Hn1r : (0 < n1 <= length q)%nat /\ (L + n1 <= bn * 1024 + 1024)%nat /\
    (n1 = length q \/ L + n1 = bn * 1024 + 1024)%nat) by (unfold n1; lia). clearbody n1.
  split; [|cbn; rewrite length_drop; lia].
  exists (set_data f' (f_data f' ++ take n1 q)). cbn [set_data f_data]. rewrite H3 in *.
  split_and!.
  - exact Ho.
  - unfold exact, tight, set_data, nblocks in *. cbn. rewrite length_app, Hn1, H7. split; [lia|]. fold L. zlia.
  - rewrite length_app, Hn1. fold L. rewrite u32_small; lia.
  - by rewrite <- app_assoc, take_drop.
  - congruence.
  - by etrans; [|etrans].
  - cbn. change (nown (set_data f' (f_data f ++ take n1 q))) with (nown f'). lia.
Qed.
End Append.

(** * Inodes *)

(** The image between two operations: every file as its inode on the disk has it. *)
Record image m (fs : gmap Z file) : Prop := Image {
  im_inv : inv (dinode_at (mk_img m)) m fs;
  im_exact : forall i f, fs !! i = Some f ->
    exact f /\ di_size (dinode_at (mk_img m) i) = Z.of_nat (length (f_data f)) }.

Lemma inv_ext ino ino' m fs : (forall i, is_Some (fs !! i) -> ino i = ino' i) -> inv ino m fs -> inv ino' m fs.
Proof. intros H []. split; try done. intros i f Hf. rewrite <- H by done. by apply inv_files0. Qed.

Lemma inv_inum ino m fs i : inv ino m fs -> is_Some (fs !! i) -> 1 <= i < 200.
Proof. intros H Hi. apply (inv_inodes _ _ _ H) in Hi. pose proof (inv_freeinode _ _ _ H). change NINODES with 200 in *. lia. Qed.

(** The image after [winode]. *)
Definition put_inode m i din : mkfs :=
  put_blk m (IBLOCK i image_sb) (put_dinode (dinode_off i) din (blk (mk_img m) (IBLOCK i image_sb))).

Lemma dinode_at_put m i din j : length (mk_img m) = 2000%nat -> Forall (fun b => length b = 1024%nat) (mk_img m) ->
  0 <= i < 200 -> 0 <= j < 200 -> dinode_ok din ->
  dinode_at (mk_img (put_inode m i din)) j = if decide (j = i) then din else dinode_at (mk_img m) j.
Proof.
  intros Hl Hb Hi Hj Hd. pose proof (IBLOCK_range i Hi). pose proof (IBLOCK_range j Hj). rewrite nmeta_val in *.
  pose proof (blk_length _ (IBLOCK i image_sb) Hb ltac:(lia)) as Hbl.
  destruct (put_dinode_spec i din _ Hd Hbl) as [_ Hg].
  unfold dinode_at, put_inode. cbn [put_blk mk_img]. rewrite blk_insert by lia. rewrite !IBLOCK_val in * by done.
  change IPB with 16 in Hg. destruct (decide (j / 16 + 32 = i / 16 + 32)) as [E|E].
  - rewrite Hg. destruct (decide (j mod 16 = i mod 16)) as [E'|E'].
    + rewrite decide_True by zlia. done.
    + rewrite decide_False by (by intros ->). rewrite E. done.
  - rewrite decide_False by (by intros ->). done.
Qed.

Lemma put_inode_blocks m i din : length (mk_img m) = 2000%nat -> Forall (fun b => length b = 1024%nat) (mk_img m) ->
  0 <= i < 200 -> dinode_ok din ->
  length (mk_img (put_inode m i din)) = 2000%nat /\
  Forall (fun b => length b = 1024%nat) (mk_img (put_inode m i din)) /\
  forall a, 0 <= a -> a <> IBLOCK i image_sb -> blk (mk_img (put_inode m i din)) a = blk (mk_img m) a.
Proof.
  intros Hl Hb Hi Hd. pose proof (IBLOCK_range i Hi) as Hr. rewrite nmeta_val in *.
  pose proof (blk_length _ (IBLOCK i image_sb) Hb ltac:(lia)) as Hbl.
  destruct (put_dinode_spec i din _ Hd Hbl) as [Hlen _]. split_and!.
  - cbn. by rewrite length_insert.
  - by apply put_blk_blocks.
  - intros a Ha Hne. cbn. rewrite blk_insert by lia. by rewrite decide_False.
Qed.

Lemma wp_winode E i din m Q : mk_sb m = image_sb -> length (mk_img m) = 2000%nat -> 0 <= i < 200 ->
  Q tt (put_inode m i din) -> wp E (winode i din) Q m.
Proof.
  intros Hsb Hl Hi HQ. pose proof (IBLOCK_range i Hi) as Hr. rewrite nmeta_val in *.
  unfold winode. wp_step. apply wp_gets. rewrite Hsb. wp_step. apply wp_rsect; [lia|].
  apply wp_wsect; [lia|exact HQ].
Qed.

Lemma wp_rinode E i m Q : mk_sb m = image_sb -> length (mk_img m) = 2000%nat -> 0 <= i < 200 ->
  Q (dinode_at (mk_img m) i) m -> wp E (rinode i) Q m.
Proof.
  intros Hsb Hl Hi HQ. pose proof (IBLOCK_range i Hi) as Hr. rewrite nmeta_val in *.
  unfold rinode. wp_step. apply wp_gets. rewrite Hsb. wp_step. apply wp_rsect; [lia|]. by apply (wp_ret E).
Qed.

(** Storing an inode that names the same blocks. *)
Lemma inv_put_inode ino m fs i f din : inv ino m fs -> fs !! i = Some f -> dinode_ok din -> di_addrs din = di_addrs (ino i) ->
  (forall j, is_Some (fs !! j) -> j <> i -> ino j = dinode_at (mk_img m) j) ->
  inv (dinode_at (mk_img (put_inode m i din))) (put_inode m i din) fs.
Proof.
  intros H Hf Hd Haddr Hino. pose proof (inv_inum _ _ _ i H (mk_is_Some _ _ Hf)) as Hi.
  pose proof (inv_len _ _ _ H) as Hl. pose proof (inv_blocks _ _ _ H) as Hb.
  destruct (put_inode_blocks m i din Hl Hb ltac:(lia) Hd) as (Hl' & Hb' & Hout).
  pose proof (IBLOCK_range i ltac:(lia)) as Hr.
  assert (Hdata : forall a, nmeta <= a -> blk (mk_img (put_inode m i din)) a = blk (mk_img m) a).
  { intros a Ha. rewrite nmeta_val in *. apply Hout; lia. }
  split; try done; try apply H.
  - intros a Ha. rewrite Hdata by (pose proof (inv_freeblock _ _ _ H); cbn in *; lia). by apply (inv_free _ _ _ H).
  - intros j g Hg. pose proof (inv_files _ _ _ H j g Hg) as Hok.
    pose proof (inv_inum _ _ _ j H (mk_is_Some _ _ Hg)) as Hj.
    apply (file_ok_frame (mk_img m) (mk_freeblock m)); [|cbn; lia|].
    + rewrite dinode_at_put by (done || lia). case_decide as E; [|by rewrite <- Hino].
      subst j. destruct Hok. split; rewrite ?Haddr; done.
    + intros a Ha. apply Hdata. by apply (own_range _ _ _ _ _ Hok) in Ha as [? _].
Qed.

(** The inode is stored again: the file is closed. *)
Lemma close_file i din f fs m0 m : opened (dinode_at (mk_img m0)) i fs din f m -> exact f ->
  (forall j g, fs !! j = Some g -> exact g /\ di_size (dinode_at (mk_img m0) j) = Z.of_nat (length (f_data g))) ->
  kept m0 m -> 1 <= i < 200 -> 0 <= Z.of_nat (length (f_data f)) < 4294967296 ->
  let din' := set_size din (Z.of_nat (length (f_data f))) in
  let m' := put_inode m i din' in
  image m' (<[i := f]> fs) /\
  (forall j, 0 <= j < 200 -> dinode_at (mk_img m') j = if decide (j = i) then din' else dinode_at (mk_img m0) j) /\
  (forall a, 0 <= a < nmeta -> a <> IBLOCK i image_sb -> blk (mk_img m') a = blk (mk_img m0) a).
Proof.
  intros Ho He1 He [Hk1 Hk2] Hi Hlen din' m'. pose proof (opened_file _ _ _ _ _ _ Ho) as Hok1.
  assert (Hdin : dinode_ok din') by (apply dinode_ok_set_size; [apply Hok1|lia]).
  assert (Hino : forall j, 0 <= j < 200 -> dinode_at (mk_img m) j = dinode_at (mk_img m0) j).
  { intros j Hj. unfold dinode_at. rewrite Hk2; [done|]. by apply IBLOCK_range. }
  assert (Hat : forall j, 0 <= j < 200 -> dinode_at (mk_img m') j = if decide (j = i) then din' else dinode_at (mk_img m0) j).
  { intros j Hj. unfold m'. rewrite dinode_at_put by (apply Ho || done || lia). case_decide; [done|by apply Hino]. }
  split_and!; [split|exact Hat|].
  - eapply inv_put_inode; [exact Ho|apply lookup_insert_eq|done| |].
    + unfold with_ino. by rewrite decide_True.
    + intros j Hj Hne. unfold with_ino. rewrite decide_False by done. symmetry. apply Hino.
      pose proof (inv_inum _ _ _ j Ho Hj). lia.
  - intros j g Hg. pose proof (inv_inum _ _ _ j Ho (mk_is_Some _ _ Hg)) as Hj. rewrite Hat by lia. case_decide as E.
    + subst j. rewrite lookup_insert_eq in Hg. by injection Hg as <-.
    + rewrite lookup_insert_ne in Hg by done. by apply He.
  - intros a Ha' Hne. destruct (put_inode_blocks m i _ (inv_len _ _ _ Ho) (inv_blocks _ _ _ Ho) ltac:(lia) Hdin) as (_ & _ & Hout).
    unfold m'. rewrite Hout; [by apply Hk2|lia|done].
Qed.

(** [iappend] in full. *)
Lemma wp_iappend i p m fs f : image m fs -> fs !! i = Some f -> room (f_data f) p (mk_freeblock m - nown f) ->
  wp total (iappend i p) (fun _ m' => exists f', image m' (<[i := f']> fs) /\ f_data f' = f_data f ++ p /\
    mk_freeblock m' - nown f' = mk_freeblock m - nown f /\ mk_freeinode m' = mk_freeinode m /\
    attrs (dinode_at (mk_img m') i) = attrs (dinode_at (mk_img m) i) /\
    (forall j, 0 <= j < 200 -> j <> i -> dinode_at (mk_img m') j = dinode_at (mk_img m) j) /\
    (forall a, 0 <= a < nmeta -> a <> IBLOCK i image_sb -> blk (mk_img m') a = blk (mk_img m) a)) m.
Proof.
  intros [H He] Hf Hroom. destruct (He i f Hf) as [Hex Hsz].
  pose proof (inv_inum _ _ _ i H (mk_is_Some _ _ Hf)) as Hi.
  unfold iappend. wp_step. apply wp_rinode; [apply H|apply H|lia|]. wp_step.
  destruct Hroom as [Hmax Hroom]. rewrite length_app in Hmax. change (MAXFILE * BSIZE) with 274432 in Hmax.
  rewrite Hsz, xint_small by lia. set (ino := dinode_at (mk_img m)) in *.
  eapply wp_mono; [apply (wp_loop total (appending ino i fs (f_data f) p (ino i) (mk_freeblock m - nown f) m)
    (fun st _ => length st.1.1) append_round _ (p, Z.of_nat (length (f_data f)), ino i)
    (fun '(off, din) m' => appending ino i fs (f_data f) p (ino i) (mk_freeblock m - nown f) m ([], off, din) m'))|].
  - exists f. split_and!; try done; [|lia]. unfold opened. rewrite insert_id by done.
    eapply inv_ext; [|exact H]. intros j _. unfold with_ino. by case_decide; subst.
  - cbn. lia.
  - intros [[q off] din] m1 HI. eapply wp_mono; [apply (wp_append_round ino i fs (f_data f) p (ino i)
      (mk_freeblock m - nown f) m); [split; [rewrite length_app; change (MAXFILE * BSIZE) with 274432; lia|done]|done]|].
    intros [st|[off' din']] m2; cbn; [intros [? ?]; split; [done|lia]|done].
  - intros [off din] m1 (f1 & Ho & He1 & -> & Hc & Ha & Hk & Hfb). rewrite app_nil_r in Hc.
    assert (Hlen : length (f_data f1) = (length (f_data f) + length p)%nat) by (by rewrite Hc, length_app).
    rewrite xint_small by lia. apply wp_winode; [apply Ho|apply Ho|lia|].
    destruct (close_file i din f1 fs m m1 Ho He1 He Hk ltac:(lia) ltac:(lia)) as (Him & Hat & Hout).
    exists f1. split_and!; try done.
    + cbn. lia.
    + apply Hk.
    + rewrite Hat, decide_True by (lia || done). done.
    + intros j Hj Hne. rewrite Hat by lia. by rewrite decide_False.
Qed.

(** * The image as a list of files *)

(** The files of an image, inode 1 first: type and contents. *)
Abbreviation contents := (list (Z * list Z)).
Definition size (e : Z * list Z) : Z := Z.of_nat (length e.2).
(** The blocks in use. *)
Definition usage (cs : contents) : Z := nmeta + foldr (fun e n => cost (size e) + n) 0 cs.

(** The image holds the files [cs]: each in blocks of its own that its inode names, with
    the size of its contents, nothing else in use. *)
Definition holds m (cs : contents) : Prop := exists fs, image m fs /\
  mk_freeinode m = 1 + Z.of_nat (length cs) /\ mk_freeblock m = usage cs /\
  forall k t c, cs !! k = Some (t, c) -> exists f, fs !! (1 + Z.of_nat k) = Some f /\ f_data f = c /\
    attrs (dinode_at (mk_img m) (1 + Z.of_nat k)) = (t, 0, 0, 1).

Lemma cost_mono a b : 0 <= a <= b -> cost a <= cost b.
Proof.
  intros H. unfold cost. assert (nblocks a <= nblocks b) by (unfold nblocks; zlia).
  destruct (12 <? nblocks a) eqn:E1, (12 <? nblocks b) eqn:E2; blia.
Qed.

Lemma usage_insert cs k e e' : cs !! k = Some e -> usage (<[k := e']> cs) = usage cs - cost (size e) + cost (size e').
Proof.
  unfold usage. revert k. induction cs as [|e0 cs IH]; intros [|k] H; try done.
  - injection H as ->. cbn [foldr]. change (<[0%nat := e']> (e :: cs)) with (e' :: cs). cbn [foldr]. lia.
  - change (<[S k := e']> (e0 :: cs)) with (e0 :: <[k := e']> cs). specialize (IH k H). cbn [foldr]. lia.
Qed.
Lemma usage_app cs cs' : usage (cs ++ cs') = usage cs + usage cs' - nmeta.
Proof. unfold usage. induction cs as [|e cs IH]; cbn [app foldr] in *; lia. Qed.

Lemma holds_attrs_inum m cs k e : holds m cs -> cs !! k = Some e -> 1 <= 1 + Z.of_nat k < 200.
Proof.
  intros (fs & [H _] & Hfi & _ & _) Hk. apply lookup_lt_Some in Hk.
  pose proof (inv_freeinode _ _ _ H). change NINODES with 200 in *. lia.
Qed.

(** Blocks other than the inodes' and the files'. *)
Definition fixed m m' : Prop := forall a, 0 <= a < 2 + nlog \/ a = nmeta - 1 -> blk (mk_img m') a = blk (mk_img m) a.
#[export] Instance fixed_po : PreOrder fixed.
Proof. split; [by intros m a|]. intros m m' m'' H1 H2 a Ha. by rewrite H2, H1. Qed.

Lemma fixed_inode m m' i : 0 <= i < 200 ->
  (forall a, 0 <= a < nmeta -> a <> IBLOCK i image_sb -> blk (mk_img m') a = blk (mk_img m) a) -> fixed m m'.
Proof.
  intros Hi H a Ha. pose proof (IBLOCK_val i Hi) as E. rewrite nmeta_val in *. change nlog with 30 in *.
  apply H; [lia|]. rewrite E. zlia.
Qed.

Lemma iappend_holds k t c p m cs : holds m cs -> cs !! k = Some (t, c) ->
  Z.of_nat (length (c ++ p)) <= MAXFILE * BSIZE -> usage (<[k := (t, c ++ p)]> cs) <= FSSIZE ->
  wp total (iappend (1 + Z.of_nat k) p) (fun _ m' => holds m' (<[k := (t, c ++ p)]> cs) /\ fixed m m') m.
Proof.
  intros Hh Hk Hmax Huse. pose proof (holds_attrs_inum _ _ _ _ Hh Hk) as Hi.
  destruct Hh as (fs & Him & Hfi & Hfb & Hcs). destruct (Hcs k t c Hk) as (f & Hf & <- & Hattr).
  pose proof (im_exact _ _ Him _ _ Hf) as [He _]. pose proof (exact_nown f He) as Hn.
  rewrite (usage_insert _ _ _ _ Hk) in Huse. unfold size in Huse. cbn [snd] in Huse.
  eapply wp_mono; [apply (wp_iappend _ p m fs f Him Hf)|].
  { split; [done|]. rewrite Hn, Hfb. lia. }
  intros _ m' (f' & Him' & Hd & Hb & Hfi' & Ha & Hother & Hfix). split; [|by eapply fixed_inode, Hfix; lia].
  pose proof (im_exact _ _ Him' _ _ (lookup_insert_eq _ _ _)) as [He' _]. pose proof (exact_nown f' He') as Hn'.
  exists (<[1 + Z.of_nat k := f']> fs). split_and!; [done|by rewrite Hfi', length_insert| |].
  - rewrite (usage_insert _ _ _ _ Hk). unfold size. cbn [snd]. rewrite <- Hd. lia.
  - intros j t' c' Hj. destruct (decide (j = k)) as [->|Hne].
    + rewrite list_lookup_insert_eq in Hj by (by eapply lookup_lt_Some). injection Hj as <- <-.
      exists f'. rewrite lookup_insert_eq. split_and!; [done|done|congruence].
    + rewrite list_lookup_insert_ne in Hj by done. destruct (Hcs j t' c' Hj) as (g & Hg & Hgd & Hga).
      exists g. rewrite lookup_insert_ne by lia. split_and!; [done|done|]. rewrite Hother; [done| |lia].
      pose proof (inv_inum _ _ _ _ (im_inv _ _ Him) (mk_is_Some _ _ Hg)). lia.
Qed.

(** A new, empty file. *)
Definition new_inode (type : Z) : dinode := Dinode type 0 0 1 0 (replicate 13 0).

Lemma dinode_ok_new t : -32768 <= t < 32768 -> dinode_ok (new_inode t).
Proof. intros Ht. unfold dinode_ok, new_inode. cbn. split_and!; try done; try lia; repeat constructor; lia. Qed.

Lemma file_ok_new img fb t : -32768 <= t < 32768 -> file_ok img fb (new_inode t) (File [] [] 0).
Proof.
  intros Ht. split; cbn; try done; try (by constructor); try lia; [by apply dinode_ok_new|].
  intros i Hi. do 12 (destruct i as [|i]; [done|]). lia.
Qed.

Definition bump m : mkfs := Mkfs (mk_img m) (mk_sb m) (mk_freeinode m + 1) (mk_freeblock m).

Lemma wp_ialloc_step t m Q : mk_sb m = image_sb -> length (mk_img m) = 2000%nat -> 1 <= mk_freeinode m < 200 -> 0 <= t < 32768 ->
  Q (mk_freeinode m) (put_inode (bump m) (mk_freeinode m) (new_inode t)) -> wp total (ialloc t) Q m.
Proof.
  intros Hsb Hl Hi Ht HQ. unfold ialloc. wp_step. apply wp_gets. wp_step. apply wp_modify. rewrite u32_small by lia.
  assert (Hx : s16 (xshort t) = t).
  { unfold xshort. rewrite (le_val_le_bytes_small 2) by (change (256 ^ Z.of_nat 2) with 65536; lia).
    rewrite <- (u16_small t) at 1 by lia. apply s16_u16. lia. }
  rewrite Hx. change (s16 (xshort 1)) with 1. change (xint 0) with 0. wp_step. apply wp_winode; [done|done|lia|].
  by apply (wp_ret total).
Qed.

(** The image with the new file. *)
Lemma image_ialloc t m fs : image m fs -> mk_freeinode m < 200 -> 0 <= t < 32768 ->
  let i := mk_freeinode m in
  let m' := put_inode (bump m) i (new_inode t) in
  image m' (<[i := File [] [] 0]> fs) /\
  (forall j, 0 <= j < 200 -> dinode_at (mk_img m') j = if decide (j = i) then new_inode t else dinode_at (mk_img m) j) /\
  fixed m m'.
Proof.
  intros [H He] Hn Ht i m'. pose proof (inv_freeinode _ _ _ H) as Hfr. fold i in Hn, Hfr.
  pose proof (inv_len _ _ _ H) as Hl. pose proof (inv_blocks _ _ _ H) as Hb.
  pose proof (dinode_ok_new t ltac:(lia)) as Hd. pose proof (IBLOCK_range i ltac:(lia)) as Hr.
  destruct (put_inode_blocks (bump m) i (new_inode t) Hl Hb ltac:(lia) Hd) as (Hl' & Hb' & Hout).
  assert (Hat : forall j, 0 <= j < 200 -> dinode_at (mk_img m') j = if decide (j = i) then new_inode t else dinode_at (mk_img m) j)
    by (intros j Hj; exact (dinode_at_put (bump m) i (new_inode t) j Hl Hb ltac:(lia) Hj Hd)).
  assert (Hdata : forall a, nmeta <= a -> blk (mk_img m') a = blk (mk_img m) a).
  { intros a Ha. rewrite nmeta_val in *. apply Hout; lia. }
  split_and!; [split; [split|]|done|eapply (fixed_inode _ _ i); [lia|intros a Ha Hne; apply Hout; [lia|done]]]; try done; try apply H.
  - intros a Ha. cbn in Ha. rewrite Hdata by (pose proof (inv_freeblock _ _ _ H); lia). by apply (inv_free _ _ _ H).
  - cbn. change NINODES with 200. fold i. lia.
  - intros j. cbn. fold i. destruct (decide (i = j)) as [<-|Hne].
    + rewrite lookup_insert_eq. split; [lia|done].
    + rewrite lookup_insert_ne, (inv_inodes _ _ _ H) by done. fold i. lia.
  - intros j g [[<- <-]|[Hne Hg]]%lookup_insert_Some; [rewrite Hat, decide_True by (lia || done); apply file_ok_new; lia|].
    pose proof (inv_files _ _ _ H j g Hg) as Hok. pose proof (inv_inum _ _ _ _ H (mk_is_Some _ _ Hg)).
    rewrite Hat, decide_False by (lia || done). eapply file_ok_frame; [done|done|].
    intros a Ha. apply Hdata. by apply (own_range _ _ _ _ _ Hok) in Ha as [? _].
  - intros j k g g' [[<- <-]|[Hj Hg]]%lookup_insert_Some [[<- <-]|[Hk Hg']]%lookup_insert_Some Hne a Ha Ha';
      try (by apply not_elem_of_nil in Ha); try (by apply not_elem_of_nil in Ha').
    by apply (inv_disj _ _ _ H j k g g' Hg Hg' Hne a).
  - intros j g [[<- <-]|[Hne Hg]]%lookup_insert_Some.
    + rewrite Hat, decide_True by (lia || done). split; [|done]. split; [by unfold tight; cbn; lia|done].
    + pose proof (inv_inum _ _ _ _ H (mk_is_Some _ _ Hg)). rewrite Hat, decide_False by (lia || done). by apply He.
Qed.

Lemma ialloc_holds t m cs : holds m cs -> mk_freeinode m < NINODES -> 0 <= t < 32768 ->
  wp total (ialloc t) (fun inum m' => inum = 1 + Z.of_nat (length cs) /\ holds m' (cs ++ [(t, [])]) /\ fixed m m') m.
Proof.
  intros (fs & Him & Hfi & Hfb & Hcs) Hn Ht. change NINODES with 200 in Hn. pose proof (im_inv _ _ Him) as H.
  pose proof (inv_freeinode _ _ _ H) as Hfr. apply wp_ialloc_step; [apply H|apply H|lia|lia|].
  destruct (image_ialloc t m fs Him Hn Ht) as (Him' & Hat & Hfix). set (i := mk_freeinode m) in *.
  split; [done|split; [|done]]. exists (<[i := File [] [] 0]> fs). split_and!; [done|..].
  - cbn. rewrite length_app. cbn. lia.
  - cbn. rewrite usage_app, Hfb. change (usage [(t, [])]) with nmeta. cbn [bump put_inode put_blk mk_freeblock]. lia.
  - intros k t' c' [Hk|[Hk1 Hk2]]%lookup_app_Some.
    + destruct (Hcs k t' c' Hk) as (g & Hg & Hgd & Hga). exists g. apply lookup_lt_Some in Hk.
      rewrite lookup_insert_ne by lia. split_and!; [done|done|]. rewrite Hat, decide_False by lia. done.
    + apply list_lookup_singleton_Some in Hk2 as [Hk2 [= <- <-]]. replace (1 + Z.of_nat k) with i by lia.
      exists (File [] [] 0). rewrite lookup_insert_eq, Hat, decide_True by (lia || done). done.
Qed.

(** The image before the first file. *)
Lemma holds_empty m : mk_sb m = image_sb -> length (mk_img m) = 2000%nat ->
  Forall (fun b => length b = 1024%nat) (mk_img m) -> mk_freeinode m = 1 -> mk_freeblock m = nmeta ->
  (forall a, nmeta <= a < FSSIZE -> blk (mk_img m) a = zeroes) -> holds m [].
Proof.
  intros Hsb Hl Hb Hfi Hfb Hz. exists ∅. split; [|split_and!; [by rewrite Hfi|by rewrite Hfb|done]].
  split; [split|]; try done.
  - rewrite Hfb, nmeta_val, FSSIZE_val. lia.
  - intros a Ha. apply Hz. by rewrite Hfb in Ha.
  - rewrite Hfi. by compute.
  - intros i. rewrite lookup_empty, Hfi. split; [by intros [? ?]|lia].
Qed.

(** [iappend] refines appending to a list: on an image that holds the files [cs] - each with
    its bytes in blocks of its own, direct ones or through the indirect block, exactly as many as
    its size needs - it adds the bytes [p] to the end of the file with the inode number given, and
    every other file is as it was; blocks and inodes keep the invariant of the image.  It always
    returns when the file stays within MAXFILE blocks and the disk has the blocks it takes. *)
Theorem iappend_correct k t c p m cs : holds m cs -> cs !! k = Some (t, c) ->
  Z.of_nat (length (c ++ p)) <= MAXFILE * BSIZE -> usage (<[k := (t, c ++ p)]> cs) <= FSSIZE ->
  exists m', iappend (1 + Z.of_nat k) p m = Ok tt m' /\ holds m' (<[k := (t, c ++ p)]> cs).
Proof.
  intros Hh Hk Hmax Huse. destruct (wp_total_Ok _ _ _ (iappend_holds k t c p m cs Hh Hk Hmax Huse)) as ([] & m' & E & H & _).
  by exists m'.
Qed.

Definition demo_image : mkfs := Mkfs (replicate (Z.to_nat FSSIZE) zeroes) image_sb 1 nmeta.

Lemma blank_blk n a : 0 <= a < Z.of_nat n -> blk (replicate n zeroes) a = zeroes.
Proof. intros Ha. unfold blk. by rewrite lookup_replicate_2 by lia. Qed.

Lemma demo_image_holds : holds demo_image [].
Proof.
  apply holds_empty; [done|apply length_replicate| |done|done|].
  - apply Forall_replicate. apply length_replicate.
  - intros a Ha. apply blank_blk. rewrite nmeta_val, FSSIZE_val in *. lia.
Qed.

Lemma iappend_correct_witness : exists m m', holds m [(T_FILE, [])] /\
  iappend 1 (bytes "hello") m = Ok tt m' /\ holds m' [(T_FILE, bytes "hello")].
Proof.
  destruct (wp_total_Ok _ _ _ (ialloc_holds T_FILE demo_image [] demo_image_holds ltac:(by compute) ltac:(by compute)))
    as (i & m & _ & _ & Hm & _).
  destruct (iappend_correct 0 T_FILE [] (bytes "hello") m [(T_FILE, [])] Hm eq_refl ltac:(by compute) ltac:(by compute))
    as (m' & E & H').
  exists m, m'. split; [exact Hm|]. split; [exact E|exact H'].
Defined.
