(* ===== verification/Build.v ===== *)
(** mkfs as a whole: the image that [main] of mkfs/mkfs.c leaves for the list of files on
    its command line. *)

From S2P Require Export Image.

(** * The files of the image *)

Section Main.
Context (host : list Z -> option (list (list Z))).
Implicit Types (a : list Z) (args : list (list Z)).

Definition content a : list Z := concat (default [] (host a)).
(** The name of a file in the image. *)
Definition name_of a : list Z := skip_underscore (shortname a).

(** The root directory: the files in the order of the command line, from inode 2 on. *)
Definition root_entries args : list Z :=
  dirent_for ROOTINO (bytes ".") ++ dirent_for ROOTINO (bytes "..") ++
  concat (imap (fun k a => dirent_for (2 + Z.of_nat k) (name_of a)) args).

Definition image_files args : contents :=
  (T_DIR, root_entries args) :: ((fun a => (T_FILE, content a)) <$> args).

Lemma length_dirent_for i n : length (dirent_for i n) = 16%nat.
Proof. unfold dirent_for, dirent_bytes. cbn [de_inum de_name]. by rewrite length_app, length_le_bytes, length_strncpy_bytes. Qed.

Lemma root_entries_app args a :
  root_entries (args ++ [a]) = root_entries args ++ dirent_for (2 + Z.of_nat (length args)) (name_of a).
Proof.
  unfold root_entries. rewrite imap_app, concat_app, <- !app_assoc. do 3 f_equal. cbn [imap concat]. 
  by rewrite app_nil_r, Nat.add_0_r.
Qed.

Lemma length_root_entries args : length (root_entries args) = (16 * (2 + length args))%nat.
Proof.
  induction args as [|a args IH] using rev_ind.
  - unfold root_entries. cbn [imap concat]. by rewrite !length_app, !length_dirent_for.
  - rewrite root_entries_app, !length_app, IH, length_dirent_for. cbn. lia.
Qed.

Lemma usage_mono (cs cs' : contents) : Forall2 (fun e e' => 0 <= size e <= size e') cs cs' -> usage cs <= usage cs'.
Proof.
  unfold usage. induction 1 as [|e e' cs cs' H _ IH]; [done|]. cbn [foldr]. pose proof (cost_mono _ _ H). lia.
Qed.

Lemma cost_nonneg n : 0 <= n -> 0 <= cost n.
Proof. intros H. exact (cost_mono 0 n ltac:(lia)). Qed.

Lemma usage_prefix (cs cs' : contents) : usage cs <= usage (cs ++ cs').
Proof.
  rewrite usage_app. unfold usage at 3. cut (0 <= foldr (fun e n => cost (size e) + n) 0 cs'); [lia|].
  induction cs' as [|e cs' IH]; [done|]. cbn [foldr]. pose proof (cost_nonneg (size e) ltac:(unfold size; lia)). lia.
Qed.

Lemma insert_last {A} (l : list A) x y : <[length l := y]> (l ++ [x]) = l ++ [y].
Proof. induction l as [|z l IH]; [done|]. exact (f_equal (cons z) IH). Qed.

(** ** One file *)

(** The image while the file [a] is being copied: [pre] is in place. *)
Definition copying args a pre : contents :=
  (T_DIR, root_entries (args ++ [a])) :: ((fun a => (T_FILE, content a)) <$> args) ++ [(T_FILE, pre)].

Lemma copying_done args a : copying args a (content a) = image_files (args ++ [a]).
Proof. unfold copying, image_files. by rewrite fmap_app. Qed.

Lemma usage_copying args a pre post : content a = pre ++ post -> usage (copying args a pre) <= usage (image_files (args ++ [a])).
Proof.
  intros H. rewrite <- copying_done. apply usage_mono. unfold copying. constructor; [unfold size; lia|].
  apply Forall2_app.
  - apply Forall2_same_length_lookup_2; [done|]. intros i e e' He He'. rewrite He in He'. injection He' as <-. unfold size. lia.
  - repeat constructor; unfold size; cbn [snd]; [lia|]. rewrite H, length_app. lia.
Qed.

Lemma wp_copy args a pre chunks m : holds m (copying args a pre) -> content a = pre ++ concat chunks ->
  Z.of_nat (length (content a)) <= MAXFILE * BSIZE -> usage (image_files (args ++ [a])) <= FSSIZE ->
  wp total (for_do chunks (iappend (2 + Z.of_nat (length args)))) (fun _ m' =>
    holds m' (image_files (args ++ [a])) /\ fixed m m') m.
Proof.
  intros Hh Hc Hmax Huse.
  apply (wp_for_do total (fun rest m1 => exists pre1, holds m1 (copying args a pre1) /\ content a = pre1 ++ concat rest /\ fixed m m1)).
  - by exists pre.
  - intros chunk rest m1 (pre1 & Hh1 & Hc1 & Hf1). cbn [concat] in Hc1. rewrite app_assoc in Hc1.
    assert (Hk : copying args a pre1 !! S (length args) = Some (T_FILE, pre1)).
    { unfold copying. cbn. apply list_lookup_middle. by rewrite length_fmap. }
    assert (Hins : <[S (length args) := (T_FILE, pre1 ++ chunk)]> (copying args a pre1) = copying args a (pre1 ++ chunk)).
    { pose proof (insert_last ((fun a => (T_FILE, content a)) <$> args) (T_FILE, pre1) (T_FILE, pre1 ++ chunk)) as Hl.
      rewrite length_fmap in Hl. exact (f_equal (cons _) Hl). }
    replace (2 + Z.of_nat (length args)) with (1 + Z.of_nat (S (length args))) by lia.
    eapply wp_mono; [apply (iappend_holds (S (length args)) T_FILE pre1 chunk m1 _ Hh1 Hk)|].
    + rewrite Hc1, length_app in Hmax. lia.
    + rewrite Hins. etrans; [by eapply usage_copying|done].
    + intros _ m2 [Hh2 Hf2]. rewrite Hins in Hh2. exists (pre1 ++ chunk). split_and!; [done|done|by etrans].
  - intros m1 (pre1 & Hh1 & Hc1 & Hf1). cbn in Hc1. rewrite app_nil_r in Hc1. subst pre1. by rewrite <- copying_done.
Qed.

Lemma wp_add_file args a m : holds m (image_files args) -> slash ∉ shortname a -> is_Some (host a) ->
  (length args <= 197)%nat -> Z.of_nat (length (content a)) <= MAXFILE * BSIZE ->
  usage (image_files (args ++ [a])) <= FSSIZE ->
  wp total (add_file host ROOTINO a) (fun _ m' => holds m' (image_files (args ++ [a])) /\ fixed m m') m.
Proof.
  intros Hh Hs [chunks Hch] Hn Hmax Huse. unfold add_file. rewrite bool_decide_false by done.
  wp_step. apply (wp_ret total). rewrite Hch. wp_step.
  assert (Hlen : length (image_files args) = S (length args)) by (cbn; by rewrite length_fmap).
  eapply wp_mono; [apply (ialloc_holds T_FILE m _ Hh)|].
  { destruct Hh as (fs & _ & -> & _). rewrite Hlen. change NINODES with 200. lia. }
  { done. }
  intros inum m1 (-> & Hh1 & Hf1). rewrite Hlen. wp_step.
  assert (Hk : (image_files args ++ [(T_FILE, [])]) !! 0%nat = Some (T_DIR, root_entries args)) by done.
  replace (1 + Z.of_nat (S (length args))) with (2 + Z.of_nat (length args)) by lia.
  assert (Hins : <[0%nat := (T_DIR, root_entries args ++ dirent_for (2 + Z.of_nat (length args)) (name_of a))]>
    (image_files args ++ [(T_FILE, [])]) = copying args a []) by (unfold copying; by rewrite root_entries_app).
  eapply wp_mono; [apply (iappend_holds 0 T_DIR _ (dirent_for (2 + Z.of_nat (length args)) (name_of a)) m1 _ Hh1 Hk)|].
  { rewrite length_app, length_root_entries, length_dirent_for. change (MAXFILE * BSIZE) with 274432. lia. }
  { rewrite Hins. etrans; [by apply (usage_copying args a [] (content a))|done]. }
  intros _ m2 [Hh2 Hf2]. rewrite Hins in Hh2.
  eapply wp_mono; [apply (wp_copy args a [] chunks m2 Hh2)|]; [|done|done|].
  { unfold content. by rewrite Hch. }
  intros _ m3 [Hh3 Hf3]. split; [done|]. by etrans; [|etrans].
Qed.
End Main.

(** * The bitmap *)

(** The bit of a block in the bitmap. *)
Definition bit (buf : list Z) (b : nat) : bool := Z.testbit (default 0 (buf !! (b / 8)%nat)) (Z.of_nat (b mod 8)).

Lemma bit_bitmap_byte i buf b : (i / 8 < length buf)%nat ->
  bit (bitmap_byte i buf) b = (i =? b)%nat || bit buf b.
Proof.
  intros Hi. unfold bit, bitmap_byte. pose proof (Nat.mod_upper_bound b 8 ltac:(lia)) as Hb8.
  pose proof (Nat.mod_upper_bound i 8 ltac:(lia)) as Hi8.
  destruct (decide (b / 8 = i / 8)%nat) as [E|E].
  - rewrite E. destruct (lookup_lt_is_Some_2 _ _ Hi) as [x Hx]. rewrite list_lookup_alter_eq, Hx. cbn [fmap option_fmap option_map default].
    change 8 with (Z.of_nat 8). rewrite <- Nat2Z.inj_mod. unfold u8, id. change 256 with (2 ^ 8).
    rewrite Z.mod_pow2_bits_low, Z.lor_spec, Z.shiftl_1_l, Z.pow2_bits_eqb, orb_comm by lia. f_equal.
    destruct (Nat.eqb_spec i b) as [->|Hne]; [apply Z.eqb_refl|]. apply Z.eqb_neq. intros Hs. apply Hne.
    pose proof (Nat.div_mod_eq i 8). pose proof (Nat.div_mod_eq b 8). lia.
  - rewrite list_lookup_alter_ne by done. destruct (Nat.eqb_spec i b) as [->|]; done.
Qed.

Lemma bitmap_bits n : Z.of_nat n <= 8192 ->
  let buf := foldl (fun buf i => bitmap_byte i buf) zeroes (seq 0 n) in
  length buf = 1024%nat /\ forall b, bit buf b = (b <? n)%nat.
Proof.
  induction n as [|n IH]; intros Hn; cbn zeta.
  - split; [apply length_replicate|]. intros b. unfold bit, zeroes. cbn [seq foldl].
    destruct (replicate _ _ !! _) as [x|] eqn:E; [apply lookup_replicate in E as [-> _]|]; by rewrite Z.bits_0.
  - destruct (IH ltac:(lia)) as [Hl Hb]. rewrite seq_S, foldl_app. cbn [foldl Nat.add].
    split; [unfold bitmap_byte; by rewrite length_alter|]. intros b.
    rewrite bit_bitmap_byte by (rewrite Hl; apply Nat.Div0.div_lt_upper_bound; lia). rewrite Hb.
    destruct (Nat.eqb_spec n b), (Nat.ltb_spec b n), (Nat.ltb_spec b (S n)); done || lia.
Qed.

(** * The whole image *)

(** A block that is neither a file's nor the inodes' may be written. *)
Lemma inv_put_meta m fs a b : inv (dinode_at (mk_img m)) m fs -> 0 <= a < 2 + nlog \/ a = nmeta - 1 -> length b = 1024%nat ->
  inv (dinode_at (mk_img (put_blk m a b))) (put_blk m a b) fs /\
  (forall i, 0 <= i < 200 -> dinode_at (mk_img (put_blk m a b)) i = dinode_at (mk_img m) i) /\
  (forall a', 0 <= a' -> blk (mk_img (put_blk m a b)) a' = if decide (a' = a) then b else blk (mk_img m) a').
Proof.
  intros H Ha Hb. rewrite nmeta_val in Ha. change nlog with 30 in Ha. pose proof (inv_len _ _ _ H) as Hl.
  assert (Hblk : forall a', 0 <= a' -> blk (mk_img (put_blk m a b)) a' = if decide (a' = a) then b else blk (mk_img m) a').
  { intros a' Ha'. cbn. apply blk_insert; lia. }
  assert (Hino : forall i, 0 <= i < 200 -> dinode_at (mk_img (put_blk m a b)) i = dinode_at (mk_img m) i).
  { intros i Hi. unfold dinode_at. rewrite IBLOCK_val by done. rewrite Hblk by zlia. by rewrite decide_False by zlia. }
  split; [|done]. pose proof (inv_freeblock _ _ _ H) as Hf. rewrite nmeta_val, FSSIZE_val in Hf.
  split; try apply H.
  - cbn. by rewrite length_insert.
  - apply put_blk_blocks; [apply H|done].
  - intros c Hc. cbn [put_blk mk_freeblock] in Hc. rewrite Hblk, decide_False by lia. by apply (inv_free _ _ _ H).
  - intros i f Hi. pose proof (inv_inum _ _ _ i H (mk_is_Some _ _ Hi)). rewrite Hino by lia.
    pose proof (inv_files _ _ _ H i f Hi) as Hok. eapply file_ok_frame; [exact Hok|done|]. intros c Hc.
    apply (own_range _ _ _ _ _ Hok) in Hc. rewrite nmeta_val in Hc. rewrite Hblk, decide_False by lia. done.
Qed.

(** What mkfs builds for the files [cs]. *)
Record built m (cs : contents) : Prop := Built {
  bt_files : exists fs, inv (dinode_at (mk_img m)) m fs /\
    mk_freeinode m = 1 + Z.of_nat (length cs) /\ mk_freeblock m = usage cs /\
    forall k t c, cs !! k = Some (t, c) -> exists f, fs !! (1 + Z.of_nat k) = Some f /\ f_data f = c /\ exact f /\
      attrs (dinode_at (mk_img m) (1 + Z.of_nat k)) = (t, 0, 0, 1) /\
      di_size (dinode_at (mk_img m) (1 + Z.of_nat k)) =
        (if decide (k = 0%nat) then (Z.of_nat (length c) / BSIZE + 1) * BSIZE else Z.of_nat (length c));
  bt_super : take 32 (blk (mk_img m) 1) = sb_bytes image_sb;
  bt_boot : blk (mk_img m) 0 = zeroes;
  bt_log : forall a, 2 <= a < 2 + nlog -> blk (mk_img m) a = zeroes;
  bt_bitmap : forall b, bit (blk (mk_img m) (sb_bmapstart image_sb)) b = (Z.of_nat b <? usage cs) }.

Definition super : list Z := put_bytes 0 (sb_bytes image_sb) zeroes.

Lemma super_spec : length super = 1024%nat /\ take 32 super = sb_bytes image_sb.
Proof. by vm_compute. Qed.

(** The blocks before the first file. *)
Definition blank m : Prop := blk (mk_img m) 1 = super /\ blk (mk_img m) 0 = zeroes /\
  forall a, 2 <= a < 2 + nlog -> blk (mk_img m) a = zeroes.

Lemma blank_fixed m m' : blank m -> fixed m m' -> blank m'.
Proof.
  intros (H1 & H2 & H3) Hf. split_and!; [by rewrite Hf by (left; by compute)..|].
  intros a Ha. rewrite Hf by (left; lia). by apply H3.
Qed.

Lemma wp_zero_blocks m : mk_img m = [] ->
  wp total (for_do (Z.of_nat <$> seq 0 (Z.to_nat FSSIZE)) (fun i => wsect i zeroes))
    (fun _ m' => m' = Mkfs (replicate (Z.to_nat FSSIZE) zeroes) (mk_sb m) (mk_freeinode m) (mk_freeblock m)) m.
Proof.
  intros Hm. set (N := Z.to_nat FSSIZE). clearbody N.
  apply (wp_for_do total (fun rest m1 => exists n, rest = Z.of_nat <$> seq n (N - n) /\ (n <= N)%nat /\
    m1 = Mkfs (replicate n zeroes) (mk_sb m) (mk_freeinode m) (mk_freeblock m))).
  - exists 0%nat. rewrite Nat.sub_0_r. split_and!; [done|lia|]. destruct m; cbn in *. by rewrite Hm.
  - intros x rest m1 (n & Hr & Hn & ->). destruct (N - n)%nat as [|k] eqn:E; [done|]. cbn in Hr.
    injection Hr as -> ->. unfold wsect, set_img. apply wp_modify. cbn [mk_img mk_sb mk_freeinode mk_freeblock].
    rewrite length_replicate, Nat2Z.id, Nat.ltb_irrefl, Nat.sub_diag. exists (S n).
    replace (N - S n)%nat with k by lia. split_and!; [done|lia|]. cbn [app replicate]. f_equal.
    by rewrite <- replicate_cons_app.
  - intros m1 (n & Hr & Hn & ->). symmetry in Hr. apply fmap_nil_inv in Hr.
    apply (f_equal length) in Hr. rewrite length_seq in Hr. cbn in Hr. by replace n with N by lia.
Qed.

(** Storing the root's size; the files are as they were. *)
Lemma put_root_size m fs f : image m fs -> fs !! 1 = Some f ->
  0 <= Z.of_nat (length (f_data f)) < 4294966272 ->
  let n := (Z.of_nat (length (f_data f)) / BSIZE + 1) * BSIZE in
  let m' := put_inode m 1 (set_size (dinode_at (mk_img m) 1) n) in
  inv (dinode_at (mk_img m')) m' fs /\ fixed m m' /\
  forall j, 0 <= j < 200 -> dinode_at (mk_img m') j =
    if decide (j = 1) then set_size (dinode_at (mk_img m) 1) n else dinode_at (mk_img m) j.
Proof.
  intros [H He] Hf Hlen n m'. assert (Hn : 0 <= n < 4294967296) by (unfold n; change BSIZE with 1024; zlia). clearbody n.
  assert (Hd : dinode_ok (set_size (dinode_at (mk_img m) 1) n)).
  { apply dinode_ok_set_size; [apply (fo_din _ _ _ _ (inv_files _ _ _ H 1 f Hf))|done]. }
  split_and!.
  - by apply (inv_put_inode _ _ _ _ _ _ H Hf).
  - apply (fixed_inode _ _ 1); [lia|]. intros a Ha Hne.
    destruct (put_inode_blocks m 1 _ (inv_len _ _ _ H) (inv_blocks _ _ _ H) ltac:(lia) Hd) as (_ & _ & Hout). apply Hout; [lia|done].
  - intros j Hj. apply dinode_at_put; [apply H|apply H|lia|done|done].
Qed.

Lemma wp_bitmap m c cs : holds m ((T_DIR, c) :: cs) -> blank m -> Z.of_nat (length c) < 4294966272 ->
  wp total (din <- rinode ROOTINO ;;
    let off := xint (di_size din) in
    let off := u32 ((off / BSIZE + 1) * BSIZE) in
    winode ROOTINO (set_size din (xint off)) ;;;
    used <- gets mk_freeblock ;;
    balloc (s32 used)) (fun _ m' => built m' ((T_DIR, c) :: cs)) m.
Proof.
  intros (fs & Him & Hfi & Hfb & Hcs) Hbl Hlen. destruct (Hcs 0%nat T_DIR c eq_refl) as (f & Hf & <- & _).
  cbn [Z.of_nat Z.add] in Hf. destruct (im_exact _ _ Him 1 f Hf) as [_ Hsz].
  pose proof (im_inv _ _ Him) as H. change ROOTINO with 1. wp_step. apply wp_rinode; [apply H|apply H|lia|].
  destruct (put_root_size m fs f Him Hf ltac:(lia)) as (H1 & Hf1 & Hino). cbv zeta.
  rewrite Hsz, (xint_small (Z.of_nat _)) by lia.
  rewrite u32_small, xint_small by (change BSIZE with 1024; zlia). set (n := (Z.of_nat _ / BSIZE + 1) * BSIZE) in *.
  wp_step. apply wp_winode; [apply H|apply H|lia|]. set (m1 := put_inode m 1 _) in *.
  wp_step. apply wp_gets. pose proof (inv_freeblock _ _ _ H1) as Hr. rewrite nmeta_val, FSSIZE_val in Hr.
  rewrite s32_small by lia. unfold balloc, assert_. change (BSIZE * 8) with 8192.
  rewrite (proj2 (Z.ltb_lt _ _)) by lia. wp_step. apply (wp_ret total). wp_step. apply wp_gets.
  rewrite (inv_sb _ _ _ H1). change (sb_bmapstart image_sb) with 45.
  apply wp_wsect; [rewrite (inv_len _ _ _ H1); lia|].
  destruct (bitmap_bits (Z.to_nat (mk_freeblock m1)) ltac:(lia)) as [Hbm Hbits].
  destruct (inv_put_meta m1 fs 45 _ H1 ltac:(by right) Hbm) as (H2 & Hino2 & Hblk2).
  destruct (blank_fixed _ _ Hbl Hf1) as (Hb1 & Hb0 & Hb2). split.
  - exists fs. split_and!; [done|done|done|]. intros k t c Hk. destruct (Hcs k t c Hk) as (g & Hg & Hgd & Hga). exists g.
    pose proof (inv_inum _ _ _ _ H (mk_is_Some _ _ Hg)) as Hi. destruct (im_exact _ _ Him _ _ Hg) as [Hge Hgs].
    rewrite Hino2, Hino by lia. split_and!; [done|done|done|..].
    + case_decide as E; [|done]. rewrite <- E at 1. exact Hga.
    + destruct (decide (k = 0%nat)) as [->|Hk0].
      * rewrite decide_True by done. injection Hk as <- <-. done.
      * rewrite decide_False by lia. by rewrite <- Hgd.
  - rewrite Hblk2, decide_False, Hb1 by lia. apply super_spec.
  - by rewrite Hblk2, decide_False by lia.
  - intros a Ha. change nlog with 30 in *. rewrite Hblk2, decide_False by lia. by apply Hb2.
  - intros b. change (sb_bmapstart image_sb) with 45. rewrite Hblk2, decide_True, Hbits by (done || lia).
    change (mk_freeblock m1) with (mk_freeblock m) in *. rewrite <- Hfb.
    destruct (Nat.ltb_spec b (Z.to_nat (mk_freeblock m))); symmetry; [apply Z.ltb_lt|apply Z.ltb_ge]; lia.
Qed.

Section Built.
Context (host : list Z -> option (list (list Z))).
Implicit Types (args : list (list Z)).

(** A file mkfs can take: a plain name, readable, and not too big. *)
Definition good_file (a : list Z) : Prop := (slash ∉ shortname a) /\ is_Some (host a) /\
  Z.of_nat (length (content host a)) <= MAXFILE * BSIZE.

Lemma usage_image_prefix args rest : usage (image_files host args) <= usage (image_files host (args ++ rest)).
Proof.
  unfold image_files. rewrite fmap_app, app_comm_cons. etrans; [|apply usage_prefix]. apply usage_mono.
  constructor; [unfold size; cbn [snd]; rewrite !length_root_entries, length_app; lia|].
  apply Forall2_same_length_lookup_2; [done|]. intros i e e' He He'. rewrite He in He'. injection He' as <-. unfold size. lia.
Qed.

(** The superblock and the root directory with its first two entries. *)
Lemma wp_root m (Q : unit -> mkfs -> Prop) (rest : Z -> F unit) : mk_img m = [] ->
  (forall m', holds m' (image_files host []) -> blank m' -> wp total (rest ROOTINO) Q m') ->
  wp total (modify (fun m => Mkfs (mk_img m) image_sb 1 nmeta) ;;;
    for_do (Z.of_nat <$> seq 0 (Z.to_nat FSSIZE)) (fun i => wsect i zeroes) ;;;
    wsect 1 super ;;;
    rootino <- ialloc T_DIR ;;
    assert_ (rootino =? ROOTINO) ;;;
    iappend rootino (dirent_for rootino (bytes ".")) ;;;
    iappend rootino (dirent_for rootino (bytes "..")) ;;; rest rootino) Q m.
Proof.
  intros Hm Hrest. wp_step. apply wp_modify. wp_step. eapply wp_mono; [by apply wp_zero_blocks|]. intros _ m1 ->.
  cbn [mk_sb mk_freeinode mk_freeblock mk_img].
  set (m0 := Mkfs (replicate (Z.to_nat FSSIZE) zeroes) image_sb 1 nmeta).
  assert (Hl0 : length (mk_img m0) = 2000%nat) by apply length_replicate.
  assert (H0 : forall a, 0 <= a < FSSIZE -> blk (mk_img m0) a = zeroes).
  { intros a Ha. apply blank_blk. rewrite FSSIZE_val in *. lia. }
  wp_step. apply wp_wsect; [rewrite Hl0; lia|]. destruct super_spec as [Hsl Hst].
  assert (Hblk : forall a, 0 <= a -> blk (mk_img (put_blk m0 1 super)) a = if decide (a = 1) then super else blk (mk_img m0) a).
  { intros a Ha. apply (blk_insert (mk_img m0) 1); lia. }
  assert (Hh : holds (put_blk m0 1 super) []).
  { apply holds_empty; [done| | |done|done|].
    - etrans; [apply length_insert|done].
    - apply put_blk_blocks; [|done]. apply Forall_replicate, length_replicate.
    - intros a Ha. rewrite nmeta_val, FSSIZE_val in Ha. rewrite Hblk, decide_False by lia. apply H0. rewrite FSSIZE_val. lia. }
  assert (Hbl : blank (put_blk m0 1 super)).
  { split_and!; [by rewrite Hblk by lia|rewrite Hblk by lia; by apply H0|]. intros a Ha. change nlog with 30 in Ha.
    rewrite Hblk, decide_False by lia. apply H0. rewrite FSSIZE_val. lia. }
  assert (Hfi : mk_freeinode (put_blk m0 1 super) < NINODES) by done. clearbody m0. wp_step.
  eapply wp_mono; [by apply (ialloc_holds T_DIR _ _ Hh Hfi)|]. intros i m2 (-> & Hh2 & Hf2).
  wp_step. apply (wp_ret total). cbn [length Z.of_nat Z.add app] in *. 
  wp_step. eapply wp_mono; [by apply (iappend_holds 0 T_DIR [] (dirent_for ROOTINO (bytes ".")) _ _ Hh2 eq_refl)|].
  intros _ m3 [Hh3 Hf3]. wp_step.
  eapply wp_mono; [by apply (iappend_holds 0 T_DIR _ (dirent_for ROOTINO (bytes "..")) _ _ Hh3 eq_refl)|].
  intros _ m4 [Hh4 Hf4]. apply Hrest.
  - assert (E : image_files host [] = [(T_DIR, dirent_for ROOTINO (bytes ".") ++ dirent_for ROOTINO (bytes ".."))]).
    { unfold image_files, root_entries. cbn [imap concat]. by rewrite app_nil_r. }
    rewrite E. exact Hh4.
  - eapply blank_fixed; [exact Hbl|]. by etrans; [|etrans].
Qed.

(** All the files of the command line. *)
Lemma wp_files args m : holds m (image_files host []) -> Forall good_file args -> (length args <= 198)%nat ->
  usage (image_files host args) <= FSSIZE ->
  wp total (for_do args (add_file host ROOTINO)) (fun _ m' => holds m' (image_files host args) /\ fixed m m') m.
Proof.
  intros Hh Hgood Hn Huse.
  apply (wp_for_do total (fun rest m1 => exists done, args = done ++ rest /\ holds m1 (image_files host done) /\ fixed m m1)).
  - by exists [].
  - intros a rest m1 (pre & -> & Hh1 & Hf1). apply Forall_app in Hgood as [_ Hgood]. inversion_clear Hgood as [|? ? (Hs & Hhost & Hmax) _].
    rewrite length_app in Hn. cbn in Hn.
    eapply wp_mono; [apply (wp_add_file host pre a m1 Hh1 Hs Hhost ltac:(lia) Hmax)|].
    + etrans; [apply (usage_image_prefix _ rest)|]. by rewrite <- app_assoc.
    + intros _ m2 [Hh2 Hf2]. exists (pre ++ [a]). rewrite <- app_assoc. split_and!; [done|done|by etrans].
  - intros m1 (pre & -> & Hh1 & Hf1). by rewrite app_nil_r in *.
Qed.

(** C28. mkfs builds the file system it is asked for: with files that have plain names, can be read
    and fit - each in MAXFILE blocks, together with their root directory in the disk and its inodes
    - [main] returns, and the image has the superblock, a root directory with the entries of [.],
    [..] and the files in order (its size rounded up to a whole block), the contents of every
    file under the inode number its entry names, in blocks of its own; the log is empty, and the bitmap
    marks exactly the blocks in use. *)
Theorem mkfs_correct args m : mk_img m = [] -> Forall good_file args -> (length args <= 198)%nat ->
  usage (image_files host args) <= FSSIZE ->
  exists m', main host args m = Ok tt m' /\ built m' (image_files host args).
Proof.
  intros Hm Hgood Hn Huse. cut (wp total (main host args) (fun _ m' => built m' (image_files host args)) m).
  { intros ([] & m' & E & H)%wp_total_Ok. exists m'. split; [exact E|exact H]. }
  unfold main. fold super. apply (wp_root m _ _ Hm). intros m1 Hh1 Hb1.
  wp_step. eapply wp_mono; [by apply (wp_files args m1)|]. intros _ m2 [Hh2 Hf2].
  apply wp_bitmap; [done|by eapply blank_fixed|]. rewrite length_root_entries. lia.
Qed.
End Built.

(** ** An example: two files, one read in two pieces *)
Definition demo_host (a : list Z) : option (list (list Z)) :=
  if bool_decide (a = bytes "README") then Some [bytes "xv6 is a "; bytes "re-implementation"]
  else if bool_decide (a = bytes "user/_sh") then Some [bytes "ELF"] else None.
Definition demo_args : list (list Z) := [bytes "README"; bytes "user/_sh"].

Lemma mkfs_correct_witness : exists m', main demo_host demo_args (Mkfs [] image_sb 1 0) = Ok tt m' /\
  built m' [(T_DIR, dirent_for 1 (bytes ".") ++ dirent_for 1 (bytes "..") ++
                    dirent_for 2 (bytes "README") ++ dirent_for 3 (bytes "sh"));
            (T_FILE, bytes "xv6 is a re-implementation"); (T_FILE, bytes "ELF")].
Proof.
  destruct (mkfs_correct demo_host demo_args (Mkfs [] image_sb 1 0)) as (m' & E & H).
  - reflexivity.
  - repeat (apply List.Forall_cons; [split; [by apply (bool_decide_unpack _); vm_compute|split; [by eexists|by vm_compute]]|]).
    apply List.Forall_nil.
  - cbn. lia.
  - by vm_compute.
  - exists m'. split; [exact E|exact H].
Defined.
