(* ===== verification/Boot.v ===== *)
(** Starting the machine: kernel/start.c, kernel/main.c, and the initialisers of kernel/vm.c and
    kernel/trap.c that write a register of the hart.

    [start] runs in machine mode on the registers of one hart, the record [mcsrs]; its last
    instruction, [mret], leaves for the mode and the address the registers name.  [main] is
    what follows in supervisor mode.  Hart 0 runs the initialisers one after the other,
    [main_init], before any interrupt and before any other hart has left its loop on
    [started]; the others only switch on paging and traps.  Theorems are in file Booted. *)

From S2P Require Export Trap.

(** * start.c *)

Definition MSTATUS_MPP_MASK : Z := Z.shiftl 3 11.
Definition MSTATUS_MPP_S : Z := Z.shiftl 1 11.
Definition MSTATUS_MIE : Z := Z.shiftl 1 3.
Definition SIE_SEIE : Z := Z.shiftl 1 9.
Definition SIE_STIE : Z := Z.shiftl 1 5.
Definition SIE_SSIE : Z := Z.shiftl 1 1.
Definition MIE_MTIE : Z := Z.shiftl 1 7.
Definition CLINT : Z := 33554432.
Definition CLINT_MTIMECMP (hartid : Z) : Z := CLINT + 16384 + 8 * hartid.
Definition CLINT_MTIME : Z := CLINT + 49144.

(** The machine-mode registers of a hart, the registers of the CLINT by address, and
    [timer_scratch]. *)
Record mcsrs : Type := Mcsrs {
  mhartid : Z;
  mstatus : Z;
  mepc : Z;
  msatp : Z;
  medeleg : Z;
  mideleg : Z;
  sie : Z;
  pmpaddr0 : Z;
  pmpcfg0 : Z;
  mscratch : Z;
  mtvec : Z;
  mie : Z;
  mtp : Z;
  clint : gmap Z Z;
  timer_scratch : list (list Z) }.
Definition eta_mcsrs (r : mcsrs) : mcsrs :=
  Mcsrs (mhartid r) (mstatus r) (mepc r) (msatp r) (medeleg r) (mideleg r) (sie r) (pmpaddr0 r) (pmpcfg0 r)
    (mscratch r) (mtvec r) (mie r) (mtp r) (clint r) (timer_scratch r).
#[export] Instance set_mstatus : Setter mstatus := ltac:(derive_setter eta_mcsrs).
#[export] Instance set_mepc : Setter mepc := ltac:(derive_setter eta_mcsrs).
#[export] Instance set_msatp : Setter msatp := ltac:(derive_setter eta_mcsrs).
#[export] Instance set_medeleg : Setter medeleg := ltac:(derive_setter eta_mcsrs).
#[export] Instance set_mideleg : Setter mideleg := ltac:(derive_setter eta_mcsrs).
#[export] Instance set_sie : Setter sie := ltac:(derive_setter eta_mcsrs).
#[export] Instance set_pmpaddr0 : Setter pmpaddr0 := ltac:(derive_setter eta_mcsrs).
#[export] Instance set_pmpcfg0 : Setter pmpcfg0 := ltac:(derive_setter eta_mcsrs).
#[export] Instance set_mscratch : Setter mscratch := ltac:(derive_setter eta_mcsrs).
#[export] Instance set_mtvec : Setter mtvec := ltac:(derive_setter eta_mcsrs).
#[export] Instance set_mie : Setter mie := ltac:(derive_setter eta_mcsrs).
#[export] Instance set_mtp : Setter mtp := ltac:(derive_setter eta_mcsrs).
#[export] Instance set_clint : Setter clint := ltac:(derive_setter eta_mcsrs).
#[export] Instance set_timer_scratch : Setter timer_scratch := ltac:(derive_setter eta_mcsrs).

Section Start.
(** The addresses of [main], of [timervec] and of [timer_scratch]. *)
Context (main_addr timervec timer_scratch_addr : Z).
Abbreviation MM A := (M mcsrs A).

Definition getm {A} (f : mcsrs -> A) : MM A := Prelude.gets f.
Definition setm (f : mcsrs -> mcsrs) : MM unit := modify f.

Definition read_clint (a : Z) : MM Z := c <- getm clint ;; from_option_or_fault "clint" (c !! a).
Definition write_clint (a v : Z) : MM unit := setm (fun m => m <| clint ::= <[a := v]> |>).

(** [scratch[i] = v] of hart [id] *)
Definition set_scratch (id : Z) (i : nat) (v : Z) : MM unit :=
  ts <- getm timer_scratch ;;
  s <- from_option_or_fault "timer_scratch" (if id <? 0 then None else ts !! Z.to_nat id) ;;
  setm (fun m => m <| timer_scratch ::= <[Z.to_nat id := <[i := v]> s]> |>).

Definition timerinit : MM unit :=
  id <- getm (fun m => s32 (mhartid m)) ;;
  let interval := 1000000 in
  t <- read_clint CLINT_MTIME ;;
  write_clint (CLINT_MTIMECMP id) (u64 (t + interval)) ;;;
  set_scratch id 3 (CLINT_MTIMECMP id) ;;;
  set_scratch id 4 interval ;;;
  setm (fun m => m <| mscratch := timer_scratch_addr + 40 * id |>) ;;;
  setm (fun m => m <| mtvec := timervec |>) ;;;
  setm (fun m => m <| mstatus ::= fun x => Z.lor x MSTATUS_MIE |>) ;;;
  setm (fun m => m <| mie ::= fun x => Z.lor x MIE_MTIE |>).

(** The processor's modes; [mret] goes to the one in the field MPP of mstatus, at [mepc]. *)
Inductive mode : Type := ModeU | ModeS | ModeM | ModeReserved.
Definition mpp (status : Z) : mode :=
  let f := Z.shiftr (Z.land status MSTATUS_MPP_MASK) 11 in
  if f =? 0 then ModeU else if f =? 1 then ModeS else if f =? 3 then ModeM else ModeReserved.
Definition leave_mret : MM (mode * Z) := getm (fun m => (mpp (mstatus m), mepc m)).

Definition start : MM (mode * Z) :=
  x <- getm mstatus ;;
  let x := Z.land x (Z.lnot MSTATUS_MPP_MASK) in
  let x := Z.lor x MSTATUS_MPP_S in
  setm (fun m => m <| mstatus := x |>) ;;;
  setm (fun m => m <| mepc := main_addr |>) ;;;
  setm (fun m => m <| msatp := 0 |>) ;;;
  setm (fun m => m <| medeleg := 65535 |>) ;;;
  setm (fun m => m <| mideleg := 65535 |>) ;;;
  setm (fun m => m <| sie ::= fun x => Z.lor (Z.lor (Z.lor x SIE_SEIE) SIE_STIE) SIE_SSIE |>) ;;;
  setm (fun m => m <| pmpaddr0 := 18014398509481983 |>) ;;;
  setm (fun m => m <| pmpcfg0 := 15 |>) ;;;
  timerinit ;;;
  id <- getm (fun m => s32 (mhartid m)) ;;
  setm (fun m => m <| mtp := u64 id |>) ;;;
  leave_mret.
End Start.

(** * main.c *)

(** Turning on paging; the fences order the hart's own accesses. *)
Definition kvminithart : K unit :=
  pt <- getk k_pagetable ;;
  setcsr (fun c => c <| satp := MAKE_SATP pt |>).

(** [initlock(&tickslock, ...)]: the locks of the model are free to begin with. *)
Definition trapinit : K unit := ret tt.
(** [initlock(&ftable.lock, ...)] *)
Definition fileinit : K unit := ret tt.

Section Boot.
Context {L : Layout} {U : Uninit}.

Definition main_init : K unit :=
  consoleinit ;;;
  printfinit ;;;
  printf [10] [] ;;;
  printf (line "xv6 kernel is booting") [] ;;;
  printf [10] [] ;;;
  kinit ;;;
  kvminit ;;;
  kvminithart ;;;
  procinit ;;;
  trapinit ;;;
  trapinithart ;;;
  plicinit ;;;
  (hart <- cpuid ;; plicinithart hart) ;;;
  binit ;;;
  iinit ;;;
  fileinit ;;;
  virtio_disk_init ;;;
  userinit.

(** The kernel and the variable [started] that the harts share. *)
Record machine : Type := Machine { m_world : world; started : Z }.

Definition in_kernel_state {A} (f : K A) : M machine A := fun m =>
  match f (m_world m) with
  | Ok a w => Ok a (Machine w (started m))
  | Panic s w => Panic s (Machine w (started m))
  | Fault s w => Fault s (Machine w (started m))
  | Blocked w => Blocked (Machine w (started m))
  | OutOfFuel => OutOfFuel
  end.

(** [while(started == 0);]: as long as no other hart sets it, the hart does not go on. *)
Definition wait_started : M machine unit := s <- Prelude.gets started ;; if s =? 0 then blocked else ret tt.

(** [main] and the first [rounds] rounds of the scheduler it ends in. *)
Definition main (rounds : nat) : M machine unit :=
  id <- in_kernel_state cpuid ;;
  (if id =? 0 then
     in_kernel_state main_init ;;;
     modify (fun m => Machine (m_world m) 1)
   else
     wait_started ;;;
     in_kernel_state (printf (line "hart %d starting") [PInt id] ;;;
                      kvminithart ;;;
                      trapinithart ;;;
                      plicinithart id)) ;;;
  in_kernel_state (scheduler rounds).
End Boot.
