(* ===== verification/Booted.v ===== *)
(** The machine after the boot: [main_init] takes the state entry.S leaves, all static data
    zero, to the state the theorems about the running kernel start from. *)

From S2P Require Export Boot Spaces Lru.

(** * start.c *)

(** [start] leaves for [main] in supervisor mode with paging off, the whole memory accessible,
    interrupts and exceptions delegated, and the timer of the hart armed; the other bits of
    mstatus, sie and mie are as they were. *)
Lemma start_spec main_addr timervec scratch m t s : let id := mhartid m in
  0 <= id < 2147483648 -> clint m !! CLINT_MTIME = Some t -> timer_scratch m !! Z.to_nat id = Some s -> (4 < length s)%nat ->
  start main_addr timervec scratch m = Ok (ModeS, main_addr)
    (Mcsrs id (Z.lor (Z.lor (Z.land (mstatus m) (Z.lnot MSTATUS_MPP_MASK)) MSTATUS_MPP_S) MSTATUS_MIE) main_addr 0 65535 65535
       (Z.lor (Z.lor (Z.lor (sie m) SIE_SEIE) SIE_STIE) SIE_SSIE) (2 ^ 54 - 1) 15 (scratch + 40 * id) timervec
       (Z.lor (mie m) MIE_MTIE) id (<[CLINT_MTIMECMP id := u64 (t + 1000000)]> (clint m))
       (<[Z.to_nat id := <[4%nat := 1000000]> (<[3%nat := CLINT_MTIMECMP id]> s)]> (timer_scratch m))).
Proof.
  intros id Hid Ht Hs Hl. assert (E32 : s32 id = id) by (unfold s32; rewrite u32_small by lia; destruct (id <? _) eqn:E; lia).
  assert (Emode : forall x, mpp (Z.lor (Z.lor (Z.land x (Z.lnot MSTATUS_MPP_MASK)) MSTATUS_MPP_S) MSTATUS_MIE) = ModeS).
  { intros x. unfold mpp. replace (Z.shiftr (Z.land _ MSTATUS_MPP_MASK) 11) with 1; [done|].
    apply Z.bits_inj'. intros n Hn. rewrite Z.shiftr_spec, Z.land_spec, !Z.lor_spec, Z.land_spec, Z.lnot_spec by lia.
    unfold MSTATUS_MPP_MASK, MSTATUS_MPP_S, MSTATUS_MIE. rewrite !Z.shiftl_spec by lia.
    replace (n + 11 - 11) with n by lia. replace (n + 11 - 3) with (n + 8) by lia.
    destruct (decide (n < 2)) as [Hlt|Hge].
    - assert (n = 0 \/ n = 1) as [-> | ->] by lia; cbn; by rewrite !andb_false_r.
    - rewrite (Z.bits_above_log2 3 n), (Z.bits_above_log2 1 n) by (cbn; lia). by rewrite andb_false_r. }
  unfold start, timerinit, set_scratch, read_clint, write_clint, leave_mret, getm, setm. destruct m as [hid ms ep sa de di si pa pc sc tv ie tp cl ts].
  cbn [mhartid clint timer_scratch mstatus] in *. subst id. unfold bind, Prelude.gets, modify. cbn. rewrite Ht. cbn. rewrite E32.
  unfold ret. rewrite (proj2 (Z.ltb_ge hid 0)) by lia. rewrite Hs. cbn.
  rewrite list_lookup_insert_eq by (by eapply lookup_lt_Some). cbn -[mpp]. rewrite Emode, E32, (u64_small hid) by lia.
  rewrite <- (list_insert_insert_eq ts (Z.to_nat hid) (<[4%nat := 1000000]> (<[3%nat := CLINT_MTIMECMP hid]> s)) (<[3%nat := CLINT_MTIMECMP hid]> s)).
  reflexivity.
Qed.

(** * Output on an idle UART *)

Definition tx_idle (v : Z) : Prop := Z.land (u8 v) LSR_TX_IDLE <> 0.

(** The characters [cs] have been sent. *)
Definition sent (cs : list Z) (ins : list Z) (k : kernel) : kernel :=
  k <| k_mmio_in := ins |> <| k_mmio_out ::= fun l => l ++ ((fun c => (Reg THR, u8 c)) <$> cs) |>.

Lemma putc_idle c v ins k e : k_panicked k = 0 -> k_mmio_in k = v :: ins -> tx_idle v -> c <> BACKSPACE ->
  consputc c (World k e) = Ok tt (World (sent [c] ins k) e).
Proof.
  intros Hp Hi Hv Hc. unfold consputc. rewrite (proj2 (Z.eqb_neq c BACKSPACE)) by done.
  unfold uartputc_sync, stop_if_panicked, bind, getk, gets. cbn [w_k]. rewrite Hp. cbn [Z.eqb negb].
  unfold ret, loop_input. cbn [w_k]. rewrite Hi. cbn [length loop].
  unfold bind, ReadReg, mmio_read, getk, gets. cbn [w_k]. unfold bind. cbn [w_k]. rewrite Hi. cbn.
  rewrite (proj2 (Z.eqb_neq _ 0) Hv). unfold ret, sent. by destruct k.
Qed.

Lemma sent_sent cs cs' ins ins' k : sent cs' ins' (sent cs ins k) = sent (cs ++ cs') ins' k.
Proof.
  unfold sent. rewrite fmap_app. set (f := fmap _).
  change (k <| k_mmio_in := ins' |> <| k_mmio_out := (k_mmio_out k ++ f cs) ++ f cs' |> =
    k <| k_mmio_in := ins' |> <| k_mmio_out := k_mmio_out k ++ f cs ++ f cs' |>). by rewrite app_assoc.
Qed.

(** A format without directives. *)
Lemma printf_plain cs vs ins k e : k_panicked k = 0 -> k_mmio_in k = vs ++ ins -> Forall tx_idle vs -> length vs = length cs ->
  Forall (fun c => c <> 37 /\ c <> BACKSPACE) cs -> printf_loop cs [] (World k e) = Ok tt (World (sent cs ins k) e).
Proof.
  revert vs k. induction cs as [|c cs IH]; intros [|v vs] k Hp Hi Hv Hl Hc; try done.
  - unfold sent. destruct k. cbv [set_field set_k_mmio_in set_k_mmio_out eta_kernel]. cbn in *. subst. by rewrite app_nil_r.
  - apply Forall_cons in Hv as [Hv Hvs]. apply Forall_cons in Hc as [[H37 Hb] Hc]. cbn [printf_loop].
    rewrite (proj2 (Z.eqb_neq c 37)) by done. cbn [negb]. unfold bind. rewrite (putc_idle c v (vs ++ ins)) by done.
    rewrite (IH vs) by (done || (injection Hl as ?; done)). by rewrite sent_sent.
Qed.

Lemma printf_idle cs vs ins k e : k_prlocking k = 1 -> LkPr ∉ k_held k -> k_panicked k = 0 -> k_mmio_in k = vs ++ ins ->
  Forall tx_idle vs -> length vs = length cs -> Forall (fun c => c <> 37 /\ c <> BACKSPACE) cs ->
  printf cs [] (World k e) = Ok tt (World (sent cs ins k) e).
Proof.
  intros Hpr Hh Hp Hi Hv Hl Hc. apply wp_exact. unfold printf. kstep. kstep. cbn [w_k]. rewrite Hpr. cbn [Z.eqb negb when].
  ksteps. eapply wp_Ok; [apply (printf_plain cs vs ins); done|]. ksteps. unfold sent. by destruct k.
Qed.

(** * Memory apart from the rest of the state *)

Section Booted.
Context {L : Layout} {LO : LayoutOk L}.

Definition with_mem (m : ram) (km : kmem) (k : kernel) : kernel := k <| k_ram := m |> <| k_kmem := km |>.

Lemma only_mem_with k k' : only_mem k k' -> exists m km, k' = with_mem m km k.
Proof. intros ->. by eexists _, _. Qed.

(** [mem] is about the memory and the allocator only. *)
Definition memory (m : ram) (km : kmem) := mem (with_mem m km kernel0).

Lemma memory_of k l ts rss own : mem k l ts rss own -> memory (k_ram k) (k_kmem k) l ts rss own.
Proof. by apply mem_same. Qed.
Lemma memory_mem m km k l ts rss own : memory m km l ts rss own -> mem (with_mem m km k) l ts rss own.
Proof. by apply mem_same. Qed.

Section Rules.
Context (E : xpost world) (k : kernel) (e : list (kernel -> kernel)) (Hh : LkKmem ∉ k_held k).
Context (m : ram) (km : kmem) (l : list Z) (ts : list space) (rss : list (list region)) (own : list Z).
Context (Hm : memory m km l ts rss own).

Lemma wp_kalloc_memory (Q : Z -> world -> Prop) : (0 < length l)%nat ->
  (forall q l' m' km', l = q :: l' -> 0 < q < 2 ^ 56 -> memory m' km' l' ts rss (own ++ [q]) -> Q q (World (with_mem m' km' k) e)) ->
  wp E kalloc Q (World (with_mem m km k) e).
Proof.
  intros Hl HQ. pose proof (memory_mem m km k _ _ _ _ Hm) as H.
  apply (wp_kalloc _ l); [done|apply (vm_kmem _ _ _ (me_mem _ _ _ _ _ H))|intros ->; cbn in Hl; lia|].
  intros q l' ->. pose proof (mem_alloc _ _ _ _ _ _ H) as Ha.
  destruct (me_page _ _ _ _ _ Ha q) as (Hq & _); [apply elem_of_app; right; by left|].
  destruct (page_ok_facts q Hq) as (_ & _ & _ & Hr & _).
  by apply (HQ q l' _ (k_kmem (alloc_page q (with_mem m km k))) eq_refl Hr), (memory_of _ _ _ _ _ Ha).
Qed.

Lemma wp_uvmcreate_memory (Q : Z -> world -> Prop) : (0 < length l)%nat ->
  (forall q l' m' km', l = q :: l' -> 0 < q < 2 ^ 56 -> memory m' km' l' (ts ++ [(q, root_only q)]) (rss ++ [[]]) own ->
     Q q (World (with_mem m' km' k) e)) ->
  wp E uvmcreate Q (World (with_mem m km k) e).
Proof.
  intros Hl HQ. pose proof (memory_mem m km k _ _ _ _ Hm) as H. unfold uvmcreate. apply wp_bind.
  apply (wp_kalloc _ l); [done|apply (vm_kmem _ _ _ (me_mem _ _ _ _ _ H))|intros ->; cbn in Hl; lia|].
  intros q l' ->. pose proof (mem_new _ _ _ _ _ _ H) as Ha.
  destruct (page_ok_facts q (Forall_inv (inv_pages _ _ (vm_kmem _ _ _ (me_mem _ _ _ _ _ H))))) as (_ & _ & _ & Hr & _).
  rewrite (proj2 (Z.eqb_neq q 0)) by lia. unfold memset_page. apply wp_bind, wp_modk, wp_ret.
  by apply (HQ q l' _ (k_kmem (new_space q (with_mem m km k))) eq_refl Hr), (memory_of _ _ _ _ _ Ha).
Qed.

Lemma wp_write_memory p f (Q : unit -> world -> Prop) : p ∈ own -> (forall x, ~ in_page p x -> f m x = m x) ->
  (memory (f m) km l ts rss own -> Q tt (World (with_mem (f m) km k) e)) ->
  wp E (modk (fun k => k <| k_ram ::= f |>)) Q (World (with_mem m km k) e).
Proof.
  intros Hp Hf HQ. apply wp_modk. apply HQ.
  exact (memory_of _ _ _ _ _ (mem_write _ _ _ _ _ p f Hm Hp Hf)).
Qed.

Lemma wp_map_memory i root t rs va pa perm (Q : Z -> world -> Prop) : ts !! i = Some (root, t) -> rss !! i = Some rs ->
  upage va -> 0 <= pa -> pa + 2 * PGSIZE <= 2 ^ 56 -> 0 <= perm < 1024 ->
  Forall (disjoint_from (page_region va pa perm)) rs -> (2 < length l)%nat ->
  (forall m' km' l' t', (length l <= length l' + 2)%nat ->
    memory m' km' l' (<[i := (root, t')]> ts) (<[i := rs ++ [page_region va pa perm]]> rss) own ->
    (forall p x, p ∈ own -> in_page p x -> m' x = m x) -> Q 0 (World (with_mem m' km' k) e)) ->
  wp E (mappages root va PGSIZE pa perm) Q (World (with_mem m km k) e).
Proof.
  intros Hi Hrs Hva Hpa Hpe Hpm Hd Hl HQ.
  apply (wp_map_one E l ts rss own i root t rs va pa perm); try done; [by apply memory_mem|].
  intros [k' e'] l' t' Ho He Hl' Hm' Hram. cbn [w_k w_env] in *. subst e'. pose proof Ho as (m' & km' & ->)%only_mem_with.
  apply (HQ m' km' l' t' Hl'); [|exact Hram]. exact (memory_of _ _ _ _ _ Hm').
Qed.
End Rules.

(** * virtio_disk_init *)

(** What a virtio block device answers while it is set up. *)
Definition virtio_answers (features status qmax : Z) : list Z :=
  [1953655158; 2; 2; 1431127377; features; status; 0; qmax].

(** The queue of the driver: empty, at the three pages. *)
Definition ready_disk (desc avail used : Z) (v : vdisk) : vdisk :=
  v <| vd_desc_pa := desc |> <| vd_avail_pa := avail |> <| vd_used_pa := used |> <| vd_desc := replicate NUM desc0 |>
    <| av_idx := 0 |> <| av_ring := replicate NUM 0 |> <| us_idx := 0 |> <| us_ring := replicate NUM 0 |>
    <| vd_free := replicate NUM 1 |>.

Section Virtio.
Context (E : xpost world) (e : list (kernel -> kernel)) (k : kernel) (Hh : LkKmem ∉ k_held k).

(** The world while the driver talks to the device. *)
Definition driver (m : ram) (km : kmem) (ins : list Z) (outs : list (Z * Z)) (v : vdisk) : world :=
  World (with_mem m km (k <| k_mmio_in := ins |> <| k_mmio_out := outs |> <| k_vdisk := v |>)) e.

Section Steps.
Context (m : ram) (km : kmem) (ins : list Z) (outs : list (Z * Z)) (v : vdisk).

Lemma wp_driver_read a x (Q : Z -> world -> Prop) :
  Q x (driver m km ins outs v) -> wp E (mmio_read a) Q (driver m km (x :: ins) outs v).
Proof. intros HQ. exact HQ. Qed.

Lemma wp_driver_write o a x (Q : unit -> world -> Prop) : o `prefix_of` outs ->
  (forall outs', o `prefix_of` outs' -> Q tt (driver m km ins outs' v)) -> wp E (mmio_write a x) Q (driver m km ins outs v).
Proof. intros Ho HQ. apply (HQ (outs ++ [(a, x)])). by apply prefix_app_r. Qed.

Lemma wp_driver_modv f (Q : unit -> world -> Prop) :
  Q tt (driver m km ins outs (f v)) -> wp E (modv f) Q (driver m km ins outs v).
Proof. intros HQ. exact HQ. Qed.

Lemma wp_driver_kalloc l ts rss own (Q : Z -> world -> Prop) : memory m km l ts rss own -> (0 < length l)%nat ->
  (forall q l' m' km', l = q :: l' -> 0 < q < 2 ^ 56 -> memory m' km' l' ts rss (own ++ [q]) -> Q q (driver m' km' ins outs v)) ->
  wp E kalloc Q (driver m km ins outs v).
Proof.
  intros Hm Hl HQ. set (k' := k <| k_mmio_in := ins |> <| k_mmio_out := outs |> <| k_vdisk := v |>).
  exact (wp_kalloc_memory E k' e Hh m km l ts rss own Hm Q Hl HQ).
Qed.
End Steps.

Ltac driver_step Hp :=
  lazymatch goal with
  | |- wp _ (bind _ _) _ _ => apply wp_bind
  | |- wp _ (mmio_read _) _ _ => apply wp_driver_read
  | |- wp _ (mmio_write _ _) _ _ => apply (wp_driver_write _ _ _ _ _ _ _ _ _ Hp); clear Hp; intros ? Hp
  | |- wp _ (modv _) _ _ => apply wp_driver_modv
  | |- wp _ (ret _) _ _ => apply wp_ret
  | |- wp _ (let _ := _ in _) _ _ => cbv zeta
  end; cbn [Z.eqb Pos.eqb negb].

Lemma wp_virtio_disk_init m km l ts rss own features status qmax ins (Q : unit -> world -> Prop) :
  k_mmio_in k = virtio_answers features status qmax ++ ins ->
  Z.land status VIRTIO_CONFIG_S_FEATURES_OK <> 0 -> 8 <= qmax ->
  memory m km l ts rss own -> (2 < length l)%nat ->
  (forall desc avail used l' m' km' outs, l = desc :: avail :: used :: l' -> k_mmio_out k `prefix_of` outs ->
     memory m' km' l' ts rss (((own ++ [desc]) ++ [avail]) ++ [used]) ->
     Q tt (driver m' km' ins outs (ready_disk desc avail used (k_vdisk k)))) ->
  wp E virtio_disk_init Q (World (with_mem m km k) e).
Proof.
  intros Hi Hst Hq Hm Hl HQ. assert (Hp : k_mmio_out k `prefix_of` k_mmio_out k) by done.
  assert (Ew : World (with_mem m km k) e = driver m km (virtio_answers features status qmax ++ ins) (k_mmio_out k) (k_vdisk k))
    by (rewrite <- Hi; unfold driver; by destruct k).
  rewrite Ew. clear Ew. unfold virtio_disk_init, virtio_answers. cbn [app].
  repeat driver_step Hp. rewrite (proj2 (Z.eqb_neq _ 0) Hst). repeat driver_step Hp.
  rewrite (proj2 (Z.eqb_neq qmax 0)), (proj2 (Z.ltb_ge qmax (Z.of_nat NUM))) by (try change (Z.of_nat NUM) with 8; lia).
  apply wp_bind, (wp_driver_kalloc _ _ _ _ _ l ts rss own); [done|lia|]. intros desc l1 m1 km1 -> Hd Hm1. cbn [length] in Hl.
  repeat driver_step Hp. apply (wp_driver_kalloc _ _ _ _ _ l1 ts rss _ _ Hm1); [lia|]. intros avail l2 m2 km2 -> Ha Hm2. cbn [length] in Hl.
  repeat driver_step Hp. apply (wp_driver_kalloc _ _ _ _ _ l2 ts rss _ _ Hm2); [lia|]. intros used l3 m3 km3 -> Hu Hm3.
  repeat driver_step Hp.
  rewrite (proj2 (Z.eqb_neq desc 0)), (proj2 (Z.eqb_neq avail 0)), (proj2 (Z.eqb_neq used 0)) by lia. cbn [orb].
  repeat driver_step Hp. exact (HQ desc avail used l3 m3 km3 _ eq_refl Hp Hm3).
Qed.
End Virtio.

(** * userinit *)

Section Userinit.
Context (E : xpost world) (e : list (kernel -> kernel)) (k : kernel).

(** The world while the first process is made. *)
Definition making (m : ram) (km : kmem) (held : list lockid) (ps : list proc) (pid : Z) (init : option nat)
    (tfs : gmap Z trapframe) (ino : list inode) : world :=
  World (Kernel held (k_cur k) m km (k_pagetable k) ps init pid tfs (k_ticks k) (k_bcache k) (k_disk k) (k_dwrites k)
    (k_vdisk k) (k_log k) (k_sb k) ino (k_file k) (k_pipe k) (k_devsw k) (k_cons k) (k_uart k) (k_prlocking k) (k_panicked k)
    (k_readcount k) (k_first k) (k_csr k) (k_mmio_in k) (k_mmio_out k)) e.

Section Steps.
Context (m : ram) (km : kmem) (held : list lockid) (p : proc) (ps : list proc) (pid : Z) (init : option nat)
  (tfs : gmap Z trapframe) (ino : list inode).

Lemma wp_making_acquire lk (Q : unit -> world -> Prop) : lk ∉ held ->
  Q tt (making m km (lk :: held) ps pid init tfs ino) -> wp E (acquire lk) Q (making m km held ps pid init tfs ino).
Proof. intros Hl HQ. by apply wp_acquire. Qed.
Lemma wp_making_release lk (Q : unit -> world -> Prop) :
  Q tt (making m km held ps pid init tfs ino) -> wp E (release lk) Q (making m km (lk :: held) ps pid init tfs ino).
Proof. intros HQ. eapply wp_release; [apply release_held_head|exact HQ]. Qed.
Lemma wp_making_get_proc (Q : proc -> world -> Prop) :
  Q p (making m km held (p :: ps) pid init tfs ino) -> wp E (get_proc 0) Q (making m km held (p :: ps) pid init tfs ino).
Proof. intros HQ. exact HQ. Qed.
Lemma wp_making_upd_proc f (Q : unit -> world -> Prop) :
  Q tt (making m km held (f p :: ps) pid init tfs ino) -> wp E (upd_proc 0 f) Q (making m km held (p :: ps) pid init tfs ino).
Proof. intros HQ. exact HQ. Qed.
Lemma wp_making_upd_tf pa t f (Q : unit -> world -> Prop) : tfs !! pa = Some t ->
  Q tt (making m km held ps pid init (<[pa := f t]> tfs) ino) -> wp E (upd_tf pa f) Q (making m km held ps pid init tfs ino).
Proof.
  intros Ht HQ. unfold upd_tf, get_tf. apply wp_bind, wp_bind, wp_getk. cbn [w_k making]. unfold making. cbn.
  rewrite Ht. apply (wp_ret E), (wp_modk E). exact HQ.
Qed.

Section Memory.
Context (l : list Z) (ts : list space) (rss : list (list region)) (own : list Z) (Hm : memory m km l ts rss own).
Context (Hh : LkKmem ∉ held).

Lemma wp_making_kalloc (Q : Z -> world -> Prop) : (0 < length l)%nat ->
  (forall q l' m' km', l = q :: l' -> 0 < q < 2 ^ 56 -> memory m' km' l' ts rss (own ++ [q]) -> Q q (making m' km' held ps pid init tfs ino)) ->
  wp E kalloc Q (making m km held ps pid init tfs ino).
Proof.
  intros Hl HQ. exact (wp_kalloc_memory E (w_k (making m km held ps pid init tfs ino)) e Hh m km l ts rss own Hm Q Hl HQ).
Qed.

Lemma wp_making_uvmcreate (Q : Z -> world -> Prop) : (0 < length l)%nat ->
  (forall q l' m' km', l = q :: l' -> 0 < q < 2 ^ 56 -> memory m' km' l' (ts ++ [(q, root_only q)]) (rss ++ [[]]) own ->
     Q q (making m' km' held ps pid init tfs ino)) ->
  wp E uvmcreate Q (making m km held ps pid init tfs ino).
Proof.
  intros Hl HQ. exact (wp_uvmcreate_memory E (w_k (making m km held ps pid init tfs ino)) e Hh m km l ts rss own Hm Q Hl HQ).
Qed.

Lemma wp_making_write q f (Q : unit -> world -> Prop) : q ∈ own -> (forall x, ~ in_page q x -> f m x = m x) ->
  (memory (f m) km l ts rss own -> Q tt (making (f m) km held ps pid init tfs ino)) ->
  wp E (modk (fun k => k <| k_ram ::= f |>)) Q (making m km held ps pid init tfs ino).
Proof.
  intros Hq Hf HQ.
  exact (wp_write_memory E (w_k (making m km held ps pid init tfs ino)) e m km l ts rss own Hm q f Q Hq Hf HQ).
Qed.

Lemma wp_making_map i root t rs va pa perm (Q : Z -> world -> Prop) : ts !! i = Some (root, t) -> rss !! i = Some rs ->
  upage va -> 0 <= pa -> pa + 2 * PGSIZE <= 2 ^ 56 -> 0 <= perm < 1024 ->
  Forall (disjoint_from (page_region va pa perm)) rs -> (2 < length l)%nat ->
  (forall m' km' l' t', (length l <= length l' + 2)%nat ->
    memory m' km' l' (<[i := (root, t')]> ts) (<[i := rs ++ [page_region va pa perm]]> rss) own ->
    (forall q x, q ∈ own -> in_page q x -> m' x = m x) -> Q 0 (making m' km' held ps pid init tfs ino)) ->
  wp E (mappages root va PGSIZE pa perm) Q (making m km held ps pid init tfs ino).
Proof.
  intros Hi Hrs Hva Hpa Hpe Hpm Hd Hl HQ.
  exact (wp_map_memory E (w_k (making m km held ps pid init tfs ino)) e Hh m km l ts rss own Hm i root t rs va pa perm Q
    Hi Hrs Hva Hpa Hpe Hpm Hd Hl HQ).
Qed.
End Memory.
End Steps.

(** The root directory in the first entry of the inode table. *)
Definition root_inodes : list inode :=
  <[0%nat := inode0 <| i_dev := ROOTDEV |> <| i_inum := ROOTINO |> <| i_ref := 1 |>]> (replicate NINODE inode0).

Lemma namei_root m km ps pid init tfs :
  namei (bytes "/") (making m km [LkProc 0] ps pid init tfs (replicate NINODE inode0)) =
    Ok (Some 0%nat) (making m km [LkProc 0] ps pid init tfs root_inodes).
Proof. vm_compute. reflexivity. Qed.

(** The first process, as [userinit] leaves it. *)
Definition first_proc (p : proc) (ticks tf ur : Z) : proc :=
  Proc RUNNABLE (p_chan p) (p_killed p) (p_xstate p) 1 (p_parent p) (p_kstack p) PGSIZE ur tf
    (context0 <| ctx_ra := forkret_addr |> <| ctx_sp := u64 (p_kstack p + PGSIZE) |>) (p_ofile p) (Some 0%nat)
    (set_name (bytes "initcode") (p_name p)) 0 ticks 0 0 0 0 0 PBS_DEF_SP PBS_DEF_RBI PBS_DEF_DP.
Definition first_trapframe : trapframe := junk_trapframe <| epc := 0 |> <| tf_sp := PGSIZE |>.

Lemma memory_page m km l ts rss own p : memory m km l ts rss own -> p ∈ own -> page_ok p /\ 0 < p /\ p + 2 * PGSIZE <= 2 ^ 56.
Proof.
  intros Hm Hp. destruct (me_page _ _ _ _ _ Hm p Hp) as (Hok & _). split; [done|]. pose proof layout_end.
  destruct Hok as [_ Hr]. unfold PHYSTOP, KERNBASE, PGSIZE in *. lia.
Qed.

Lemma wp_allocpid m km ps init tfs ino (Q : Z -> world -> Prop) :
  Q 1 (making m km [LkProc 0] ps 2 init tfs ino) -> wp E allocpid Q (making m km [LkProc 0] ps 1 init tfs ino).
Proof. intros HQ. vm_compute. exact HQ. Qed.

(** [proc_pagetable] with four free pages and more. *)
Lemma wp_proc_pagetable m km p ps pid init tfs ino l kr kt krs own (Q : Z -> world -> Prop) :
  memory m km l [(kr, kt)] [krs] own -> p_trapframe p ∈ own -> (6 < length l)%nat ->
  (forall ur ut m' km' l', 0 < ur -> (length l <= length l' + 5)%nat ->
     memory m' km' l' [(kr, kt); (ur, ut)] [krs; take 2 (first_regions (p_trapframe p) 0)] own ->
     Q ur (making m' km' [LkProc 0] (p :: ps) pid init tfs ino)) ->
  wp E (proc_pagetable 0) Q (making m km [LkProc 0] (p :: ps) pid init tfs ino).
Proof.
  intros Hm Htf Hl HQ. pose proof (memory_page _ _ _ _ _ _ _ Hm Htf) as (_ & Htf0 & Htfe).
  pose proof layout_facts as (_ & Het & Htr & _).
  assert (Hh : LkKmem ∉ [LkProc 0]) by (intros ?%list_elem_of_singleton; done). unfold proc_pagetable.
  apply wp_bind, (wp_making_uvmcreate m km _ _ _ _ _ _ l _ _ _ Hm Hh); [lia|]. intros ur l1 m1 km1 -> Hur Hm1. cbn [length] in Hl.
  rewrite (proj2 (Z.eqb_neq ur 0)) by lia.
  apply wp_bind, (wp_making_map m1 km1 _ _ _ _ _ _ l1 _ _ _ Hm1 Hh 1 ur (root_only ur) [] TRAMPOLINE trampoline _);
    [done|done|by vm_compute|lia|unfold PGSIZE; lia|by vm_compute|apply Forall_nil_2|lia|].
  intros m2 km2 l2 t2 Hl2 Hm2 _. change (0 <? 0) with false. cbn [list_insert insert app] in Hm2.
  apply wp_bind, wp_making_get_proc.
  apply wp_bind, (wp_making_map m2 km2 _ _ _ _ _ _ l2 _ _ _ Hm2 Hh 1 ur t2 _ TRAPFRAME (p_trapframe p) _ _ eq_refl eq_refl);
    [by vm_compute|lia|exact Htfe|by vm_compute|apply Forall_singleton; left; by vm_compute|lia|].
  intros m3 km3 l3 t3 Hl3 Hm3 _. change (0 <? 0) with false. apply wp_ret.
  apply (HQ ur t3 m3 km3 l3); [lia|cbn [length]; lia|exact Hm3].
Qed.

(** [allocproc] when the first entry of the table is free. *)
Definition allocated (p : proc) (ticks tf ur : Z) : proc :=
  Proc USED (p_chan p) (p_killed p) (p_xstate p) 1 (p_parent p) (p_kstack p) (p_sz p) ur tf
    (context0 <| ctx_ra := forkret_addr |> <| ctx_sp := u64 (p_kstack p + PGSIZE) |>) (p_ofile p) (p_cwd p)
    (p_name p) 0 ticks 0 0 0 0 0 PBS_DEF_SP PBS_DEF_RBI PBS_DEF_DP.

Lemma wp_allocproc_first m km p ps init tfs ino l kr kt krs own (Q : option nat -> world -> Prop) :
  p_state p = UNUSED -> memory m km l [(kr, kt)] [krs] own -> (7 < length l)%nat ->
  (forall tf ur ut m' km' l', (length l <= length l' + 6)%nat ->
     memory m' km' l' [(kr, kt); (ur, ut)] [krs; take 2 (first_regions tf 0)] (own ++ [tf]) ->
     Q (Some 0%nat) (making m' km' [LkProc 0] (allocated p (k_ticks k) tf ur :: ps) 2 init (<[tf := junk_trapframe]> tfs) ino)) ->
  wp E allocproc Q (making m km [] (p :: ps) 1 init tfs ino).
Proof.
  intros Hp Hm Hl HQ. unfold allocproc. apply wp_bind. change (seq 0 NPROC) with (0%nat :: seq 1 63). cbn [for_ret].
  apply wp_bind, wp_bind, wp_making_acquire; [apply not_elem_of_nil|]. apply wp_bind, wp_making_get_proc.
  rewrite decide_True by done. apply wp_ret, wp_ret.
  apply wp_bind, wp_allocpid. apply wp_bind, wp_making_upd_proc.
  assert (Hh : LkKmem ∉ [LkProc 0]) by (intros ?%list_elem_of_singleton; done).
  apply wp_bind, (wp_making_kalloc m km _ _ _ _ _ _ l _ _ _ Hm Hh); [lia|]. intros tf l1 m1 km1 -> Htf Hm1. cbn [length] in Hl.
  apply wp_bind, wp_making_upd_proc. rewrite (proj2 (Z.eqb_neq tf 0)) by lia.
  apply wp_bind, wp_modk. match goal with |- wp _ _ _ ?w => change w with
    (making m1 km1 [LkProc 0] (p <| p_pid := 1 |> <| p_state := USED |> <| p_trapframe := tf |> :: ps) 2 init
      (<[tf := junk_trapframe]> tfs) ino) end.
  apply wp_bind, (wp_proc_pagetable m1 km1 _ ps 2 init _ ino l1 kr kt krs _ _ Hm1); [apply elem_of_app; right; by left|lia|].
  intros ur ut m2 km2 l2 Hur Hl2 Hm2. cbn [p_trapframe] in Hm2.
  apply wp_bind, wp_making_upd_proc. rewrite (proj2 (Z.eqb_neq ur 0)) by lia.
  apply wp_bind, wp_getk. do 2 (apply wp_bind, wp_making_upd_proc). apply wp_ret.
  apply (HQ tf ur ut m2 km2 l2); [cbn [length]; lia|exact Hm2].
Qed.

Definition first_text (va : Z) : Z := default 0 (initcode !! Z.to_nat va).

Lemma first_store m pg va : (forall x, in_page pg x -> m x = 0) -> 0 <= va < PGSIZE ->
  store_bytes m pg initcode (pg + va) = first_text va.
Proof.
  intros Hz Hva. unfold first_text. destruct (decide (va < Z.of_nat (length initcode))) as [Hlt|Hge].
  - rewrite store_bytes_in by lia. replace (pg + va - pg) with va by lia.
    destruct (lookup_lt_is_Some_2 initcode (Z.to_nat va)) as [b Hb]; [lia|].
    by rewrite Hb, (nth_lookup_Some _ _ _ _ Hb).
  - rewrite store_bytes_out, Hz by (unfold in_page; lia). by rewrite lookup_ge_None_2 by lia.
Qed.

Lemma wp_userinit m km p ps l kr kt krs own (Q : unit -> world -> Prop) :
  p_state p = UNUSED -> memory m km l [(kr, kt)] [krs] own -> (10 < length l)%nat ->
  (forall tf pg ur ut m' km' l', memory m' km' l' [(kr, kt); (ur, ut)] [krs; first_regions tf pg] ((own ++ [tf]) ++ [pg]) ->
     (forall va, 0 <= va < PGSIZE -> m' (pg + va) = first_text va) ->
     Q tt (making m' km' [] (first_proc p (k_ticks k) tf ur :: ps) 2 (Some 0%nat) {[tf := first_trapframe]} root_inodes)) ->
  wp E userinit Q (making m km [] (p :: ps) 1 None ∅ (replicate NINODE inode0)).
Proof.
  intros Hp Hm Hl HQ. unfold userinit.
  apply wp_bind, (wp_allocproc_first m km p ps _ _ _ l kr kt krs own _ Hp Hm); [lia|]. intros tf ur ut m1 km1 l1 Hl1 Hm1.
  apply wp_bind, wp_modk. match goal with |- wp _ _ _ ?w => change w with
    (making m1 km1 [LkProc 0] (allocated p (k_ticks k) tf ur :: ps) 2 (Some 0%nat) (<[tf := junk_trapframe]> ∅) (replicate NINODE inode0)) end.
  apply wp_bind, wp_ret. apply wp_bind, wp_making_get_proc. cbn [p_pagetable allocated p_trapframe].
  assert (Hh : LkKmem ∉ [LkProc 0]) by (intros ?%list_elem_of_singleton; done).
  apply wp_bind. unfold uvmfirst. change (Z.of_nat (length initcode) >=? PGSIZE) with false. cbv iota.
  apply wp_bind, (wp_making_kalloc m1 km1 _ _ _ _ _ _ l1 _ _ _ Hm1 Hh); [lia|]. intros pg l2 m2 km2 -> Hpg Hm2. cbn [length] in Hl1.
  assert (Hin : pg ∈ (own ++ [tf]) ++ [pg]) by (apply elem_of_app; right; by left).
  destruct (memory_page _ _ _ _ _ _ _ Hm2 Hin) as (_ & _ & Hpge).
  unfold clear_page, memset_page. rewrite (proj2 (Z.eqb_neq pg 0)) by lia.
  apply wp_bind, (wp_making_write m2 km2 _ _ _ _ _ _ _ _ _ _ Hm2 pg (fun m => fill_bytes m pg PGSIZE 0));
    [done|intros x Hx; by apply fill_bytes_out|]. intros Hm3.
  apply wp_bind, (wp_making_map _ km2 _ _ _ _ _ _ l2 _ _ _ Hm3 Hh 1 ur ut _ 0 pg _ _ eq_refl eq_refl);
    [by vm_compute|lia|exact Hpge|by vm_compute|repeat (apply Forall_cons_2 || apply Forall_nil_2); left; by vm_compute|lia|].
  intros m4 km4 l4 t4 Hl4 Hm4 Hkeep.
  apply (wp_making_write m4 km4 _ _ _ _ _ _ _ _ _ _ Hm4 pg (fun m => store_bytes m pg initcode)); [done| |].
  { intros x Hx. apply store_bytes_out. unfold in_page, PGSIZE in Hx. cbn [length initcode]. lia. }
  intros Hm5. apply wp_bind, wp_making_upd_proc.
  apply wp_bind, (wp_making_upd_tf _ _ _ _ _ _ _ _ _ junk_trapframe); [apply lookup_insert_eq|].
  apply wp_bind, wp_making_upd_proc. apply wp_bind. eapply wp_Ok; [apply namei_root|].
  do 2 (apply wp_bind, wp_making_upd_proc). apply wp_making_release.
  rewrite insert_insert_eq, insert_empty.
  apply (HQ tf pg ur t4 _ km4 l4 Hm5). intros va Hva. apply first_store; [|done].
  intros x Hx. rewrite (Hkeep pg x Hin Hx). by apply fill_bytes_in.
Qed.
End Userinit.

(** * The whole of main_init *)

(** The state entry.S leaves: static data is zero; the memory, the disk, the registers and what the
    devices will answer are arbitrary. *)
Definition power_on (m : ram) (disk : Z -> list Z) (c : csrs) (ins : list Z) : kernel :=
  kernel0 <| k_ram := m |> <| k_disk := disk |> <| k_csr := c |> <| k_mmio_in := ins |>.

Definition banner : list Z := [10] ++ line "xv6 kernel is booting" ++ [10].
Definition uart_setup : list (Z * Z) := [(Reg IER, 0); (Reg LCR, LCR_BAUD_LATCH); (Reg 0, 3); (Reg 1, 0);
  (Reg LCR, LCR_EIGHT_BITS); (Reg FCR, Z.lor FCR_FIFO_ENABLE FCR_FIFO_CLEAR); (Reg IER, Z.lor IER_TX_ENABLE IER_RX_ENABLE)].

(** The process table after [procinit], the buffer cache after [binit]. *)
Definition boot_procs : list proc := imap (fun i p => p <| p_kstack := KSTACK (Z.of_nat i) |>) (replicate NPROC proc0).
Definition boot_buf (i : nat) : buf :=
  buf0 <| b_next := (match i with O => BHead | S j => BBuf j end) |> <| b_prev := (if (i =? 29)%nat then BHead else BBuf (S i)) |>.
Definition boot_cache : bcache := Bcache (boot_buf <$> seq 0 NBUF) (BBuf 0) (BBuf 29).

Section Main.
Context {U : Uninit}.
Context (disk : Z -> list Z) (e : list (kernel -> kernel)).

Definition booting (prl : Z) (m : ram) (km : kmem) (pt : Z) (ps : list proc) (bc : bcache) (vd : vdisk) (c : csrs)
    (ins : list Z) (outs : list (Z * Z)) : kernel :=
  Kernel [] None m km pt ps None 1 ∅ 0 bc disk [] vd (Log 0 0 0 0 0 0 (replicate (Z.to_nat LOGSIZE) 0))
    (Superblock 0 0 0 0 0 0 0 0) (replicate NINODE inode0) (replicate NFILE file0) ∅
    (<[CONSOLE := Some DevConsole]> (replicate (Z.to_nat NDEV) None)) (Console (replicate 128 0) 0 0 0) (Uart (replicate 32 0) 0 0)
    prl 0 0 1 c ins outs.

Abbreviation ps0 := (replicate NPROC proc0).
Abbreviation bc0 := (Bcache (replicate NBUF buf0) BHead BHead).
Abbreviation km0 := (Kmem 0 (fun _ => 0)).

Lemma consoleinit_eq m c ins : consoleinit (World (power_on m disk c ins) e) =
  Ok tt (World (booting 0 m km0 0 ps0 bc0 vdisk0 c ins uart_setup) e).
Proof. vm_compute. reflexivity. Qed.

Lemma procinit_eq m km pt bc vd c ins outs : procinit (World (booting 1 m km pt ps0 bc vd c ins outs) e) =
  Ok tt (World (booting 1 m km pt boot_procs bc vd c ins outs) e).
Proof. vm_compute. reflexivity. Qed.

Lemma binit_eq m km pt ps vd c ins outs : binit (World (booting 1 m km pt ps bc0 vd c ins outs) e) =
  Ok tt (World (booting 1 m km pt ps boot_cache vd c ins outs) e).
Proof. vm_compute. reflexivity. Qed.

Lemma iinit_eq m km pt ps bc vd c ins outs : iinit (World (booting 1 m km pt ps bc vd c ins outs) e) =
  Ok tt (World (booting 1 m km pt ps bc vd c ins outs) e).
Proof. vm_compute. reflexivity. Qed.

Lemma boot_cache_lru : lru boot_cache (rev (seq 0 NBUF)).
Proof. split; [symmetry; exact (Permutation_rev _)| |]; vm_compute; repeat split. Qed.

(** The console. *)
Lemma wp_console m c lsr ins (Q : unit -> world -> Prop) rest : Forall tx_idle lsr -> length lsr = 24%nat ->
  wp total rest Q (World (booting 1 m km0 0 ps0 bc0 vdisk0 c ins (uart_setup ++ ((fun c => (Reg THR, u8 c)) <$> banner))) e) ->
  wp total (consoleinit ;;; printfinit ;;; printf [10] [] ;;; printf (line "xv6 kernel is booting") [] ;;; printf [10] [] ;;; rest)
    Q (World (power_on m disk c (lsr ++ ins)) e).
Proof.
  intros Hi Hl HQ.
  assert (Hsplit : exists l1 l2 l3, lsr = l1 ++ l2 ++ l3 /\ length l1 = 1%nat /\ length l2 = 22%nat /\ length l3 = 1%nat).
  { exists (take 1 lsr), (take 22 (drop 1 lsr)), (drop 22 (drop 1 lsr)). rewrite !take_drop, !length_take, !length_drop. split; [done|lia]. }
  destruct Hsplit as (l1 & l2 & l3 & -> & Hl1 & Hl2 & Hl3). rewrite <- !app_assoc.
  apply Forall_app in Hi as [Hi1 [Hi2 Hi3]%Forall_app].
  assert (Hc : forall cs, Forall (fun c => (c =? 37) || (c =? BACKSPACE) = false) cs -> Forall (fun c => c <> 37 /\ c <> BACKSPACE) cs).
  { intros cs H. apply (Forall_impl _ _ _ H). intros x Hx. unfold BACKSPACE in *. lia. }
  apply wp_bind. eapply wp_Ok; [apply consoleinit_eq|]. apply wp_bind, wp_modk.
  set (b := booting 1 m km0 0 ps0 bc0 vdisk0 c).
  apply wp_bind. eapply wp_Ok; [apply (printf_idle [10] l1 (l2 ++ l3 ++ ins) (b (l1 ++ l2 ++ l3 ++ ins) uart_setup)); try done|].
  { by apply not_elem_of_nil. } { apply Hc. by repeat constructor. }
  apply wp_bind. eapply wp_Ok; [apply (printf_idle _ l2 (l3 ++ ins) (sent [10] (l2 ++ l3 ++ ins) (b (l1 ++ l2 ++ l3 ++ ins) uart_setup))); try done|].
  { by apply not_elem_of_nil. } { apply Hc. by repeat constructor. }
  apply wp_bind. eapply wp_Ok; [apply (printf_idle [10] l3 ins); try done|].
  { by apply not_elem_of_nil. } { apply Hc. by repeat constructor. }
  rewrite !sent_sent. exact HQ.
Qed.

(** The state in which [main_init] leaves the machine: [l] are the free pages, [kt] and [ut] the page
    tables of the kernel and of the first process [p], [stacks] the kernel stacks. *)
Record boot_state (k : kernel) (l : list Z) (kt ut : tree) (stacks : list Z) (p : proc) : Prop := BootedState {
  bt_locks : k_held k = [] /\ k_cur k = None;
  bt_console : exists outs, k_mmio_out k = (uart_setup ++ ((fun c => (Reg THR, u8 c)) <$> banner)) ++ outs;
  bt_registers : stvec (k_csr k) = kernelvec /\ satp (k_csr k) = MAKE_SATP (k_pagetable k);
  bt_kernel : kernel_table k l (k_pagetable k) kt stacks;
  bt_procs : k_proc k = p :: drop 1 boot_procs /\ k_initproc k = Some 0%nat;
  bt_first : p = first_proc (proc0 <| p_kstack := KSTACK 0 |>) 0 (p_trapframe p) (p_pagetable p);
  bt_frame : k_tf k !! p_trapframe p = Some first_trapframe;
  bt_apart : vm_mem k l [(k_pagetable k, kt); (p_pagetable p, ut)];
  bt_user : vm_inv hold_none k l [(p_pagetable p, ut)];
  bt_text : forall va, 0 <= va < PGSIZE -> user_byte k [(p_pagetable p, ut)] 0 va = Some (first_text va);
  bt_cache : k_bcache k = boot_cache;
  bt_inodes : k_inode k = root_inodes;
  bt_disk : exists desc avail used, k_vdisk k = ready_disk desc avail used vdisk0 }.

Lemma first_text_u8 va : u8 (first_text va) = first_text va.
Proof.
  unfold first_text. destruct (initcode !! Z.to_nat va) as [b|] eqn:Eb; [|done].
  assert (HF : Forall (fun b => u8 b = b) initcode) by (by repeat constructor). by apply (Forall_lookup_1 _ _ _ _ HF Eb).
Qed.

Lemma wp_cpuid E (Q : Z -> world -> Prop) w : Q (s32 (r_tp (k_csr (w_k w)))) w -> wp E cpuid Q w.
Proof. intros HQ. exact HQ. Qed.

Lemma wp_after_paging m km pt c ins outs l kt stacks features status qmax (Q : unit -> world -> Prop) :
  length stacks = NPROC -> memory m km l [(pt, kt)] [kernel_regions ++ stack_regions stacks] stacks -> (13 < length l)%nat ->
  Z.land status VIRTIO_CONFIG_S_FEATURES_OK <> 0 -> 8 <= qmax ->
  (uart_setup ++ ((fun c => (Reg THR, u8 c)) <$> banner)) `prefix_of` outs ->
  (forall w' l' ut p, w_env w' = e -> boot_state (w_k w') l' kt ut stacks p -> Q tt w') ->
  wp total (kvminithart ;;; procinit ;;; trapinit ;;; trapinithart ;;; plicinit ;;; (hart <- cpuid ;; plicinithart hart) ;;;
    binit ;;; iinit ;;; fileinit ;;; virtio_disk_init ;;; userinit) Q
    (World (booting 1 m km pt ps0 bc0 vdisk0 c (virtio_answers features status qmax ++ ins) outs) e).
Proof.
  intros Hs Hm Hl Hst Hq Hpre HQ. set (ans := virtio_answers features status qmax ++ ins).
  apply wp_bind, wp_bind, wp_getk. apply wp_modk.
  match goal with |- wp _ _ _ ?w => change w with
    (World (booting 1 m km pt ps0 bc0 vdisk0 (c <| satp := MAKE_SATP pt |>) ans outs) e) end.
  apply wp_bind. eapply wp_Ok; [apply procinit_eq|]. apply wp_bind, wp_ret. apply wp_bind, wp_modk.
  match goal with |- wp _ _ _ ?w => change w with
    (World (booting 1 m km pt boot_procs bc0 vdisk0 (c <| satp := MAKE_SATP pt |> <| stvec := kernelvec |>) ans outs) e) end.
  set (c' := c <| satp := MAKE_SATP pt |> <| stvec := kernelvec |>).
  apply wp_bind, wp_bind, wp_modk, wp_modk. apply wp_bind, wp_bind, wp_cpuid, wp_bind, wp_modk, wp_modk.
  match goal with |- wp _ _ _ ?w =>
    assert (exists outs', w = World (booting 1 m km pt boot_procs bc0 vdisk0 c' ans outs') e /\ outs `prefix_of` outs')
      as (outs' & -> & Hpre') end.
  { eexists. split; [reflexivity|]. repeat apply prefix_app_r. done. }
  assert (Hpre2 := transitivity Hpre Hpre'). clear Hpre Hpre' outs.
  apply wp_bind. eapply wp_Ok; [apply binit_eq|]. apply wp_bind. eapply wp_Ok; [apply iinit_eq|]. apply wp_bind, wp_ret.
  set (kb := booting 1 m km pt boot_procs boot_cache vdisk0 c' ans outs').
  assert (Hkb : LkKmem ∉ k_held kb) by apply not_elem_of_nil.
  apply wp_bind. change (World kb e) with (World (with_mem m km kb) e).
  apply (wp_virtio_disk_init total e kb Hkb m km l _ _ stacks features status qmax ins _ eq_refl Hst Hq Hm); [lia|].
  intros desc avail used l1 m1 km1 outs1 -> Hpre1 Hm1. cbn [length] in Hl.
  set (b := booting 1 m1 km1 pt boot_procs boot_cache (ready_disk desc avail used vdisk0) c' ins outs1).
  set (p0 := proc0 <| p_kstack := KSTACK 0 |>).
  change (driver e kb m1 km1 ins outs1 _) with (making e b m1 km1 [] (p0 :: drop 1 boot_procs) 1 None ∅ (replicate NINODE inode0)).
  apply (wp_userinit total e b m1 km1 p0 (drop 1 boot_procs) l1 pt kt _ _ _ eq_refl Hm1); [lia|].
  intros tf pg ur ut m2 km2 l2 Hm2 Htext. apply (HQ _ l2 ut (first_proc p0 0 tf ur)); [done|].
  set (k2 := w_k _). pose proof (memory_mem m2 km2 k2 _ _ _ _ Hm2) as Hk2. change (with_mem m2 km2 k2) with k2 in Hk2.
  assert (Hown : tf ∈ (((((stacks ++ [desc]) ++ [avail]) ++ [used]) ++ [tf]) ++ [pg]) /\
    pg ∈ (((((stacks ++ [desc]) ++ [avail]) ++ [used]) ++ [tf]) ++ [pg])) by set_solver.
  destruct Hown as [Htf Hpg]. split.
  - done.
  - destruct (transitivity Hpre2 Hpre1) as [o Ho]. exists o. exact Ho.
  - done.
  - rewrite <- !app_assoc in Hk2. by apply (mem_kernel_table _ _ _ _ _ _ _ _ Hs Hk2).
  - done.
  - done.
  - apply lookup_singleton_eq.
  - apply (me_mem _ _ _ _ _ Hk2).
  - by apply (first_user_inv k2 l2 pt ur kt ut _ _ tf pg Hk2).
  - intros va Hva. etransitivity; [exact (first_user_byte k2 l2 pt ur kt ut _ _ tf pg Hk2 Hpg Htf va Hva)|].
    change (k_ram k2 (pg + va)) with (m2 (pg + va)). by rewrite (Htext va Hva), first_text_u8.
  - done.
  - done.
  - by exists desc, avail, used.
Qed.

Lemma wp_main_init m c lsr features status qmax ins (Q : unit -> world -> Prop) :
  end_ + 4096 * 151 <= PHYSTOP -> Forall tx_idle lsr -> length lsr = 24%nat ->
  Z.land status VIRTIO_CONFIG_S_FEATURES_OK <> 0 -> 8 <= qmax ->
  (forall w' l kt ut stacks p, w_env w' = e -> boot_state (w_k w') l kt ut stacks p -> Q tt w') ->
  wp total main_init Q (World (power_on m disk c (lsr ++ virtio_answers features status qmax ++ ins)) e).
Proof.
  intros Hroom Hi Hl Hst Hq HQ. unfold main_init. apply wp_console; [done|done|].
  apply wp_bind. eapply wp_mono; [apply wp_kinit; [apply not_elem_of_nil|done]|].
  intros _ [k1 e1] [[Ho He] (l1 & Hk1 & Hl1)]. cbn [w_k w_env] in Ho, He, Hk1. subst e1.
  assert (Hn : (150 <= length l1)%nat) by (apply (free_length _ _ 150 Hk1 Hl1); lia).
  assert (Hc1 : forall p, page_ok p -> 0 <= count k1 p).
  { intros p Hp%Hl1. pose proof (inv_counts _ _ Hk1) as HF. rewrite Forall_forall in HF. by rewrite (HF p Hp). }
  apply only_mem_with in Ho as (m1 & km1 & ->).
  apply wp_bind, (wp_kvminit l1); [apply not_elem_of_nil|done|done|lia|].
  intros [k2 e2] t l2 stacks Ho He Ht Hl2. cbn [w_k w_env] in Ho, He, Ht. subst e2.
  assert (E2 : k2 = booting 1 (k_ram k2) (k_kmem k2) (k_pagetable k2) ps0 bc0 vdisk0 c
    (virtio_answers features status qmax ++ ins) (uart_setup ++ ((fun c => (Reg THR, u8 c)) <$> banner))) by exact Ho.
  pose proof (memory_of _ _ _ _ _ (kernel_mem _ _ _ _ _ Ht)) as Hm2.
  destruct (kt_stacks _ _ _ _ _ Ht) as [Hs _]. rewrite E2.
  apply (wp_after_paging _ _ _ c ins _ l2 t stacks features status qmax); try done; [lia|].
  intros w' l' ut p He Hb. by apply (HQ w' l' t ut stacks p).
Qed.

Lemma first_chosen k l kt ut stacks p : boot_state k l kt ut stacks p -> chosen (k_proc k) 0.
Proof.
  intros Hb. destruct (bt_procs _ _ _ _ _ _ Hb) as [Hp _]. rewrite Hp. exists p. split; [done|].
  split; [by rewrite (bt_first _ _ _ _ _ _ Hb)|].
  assert (Hrest : Forall (fun q => p_state q = UNUSED) (drop 1 boot_procs)) by (apply (bool_decide_unpack _); by vm_compute).
  intros [|j] q Hq Hr; [done|]. pose proof (Forall_lookup_1 _ _ _ _ Hrest Hq) as Hu. cbn beta in Hu. congruence.
Qed.

(** C35. Hart 0's [main]: from the state entry.S leaves, with at least 151 pages of memory behind the kernel, a UART
    that is ready when it is polled and a virtio disk that accepts the driver's features and has a queue of eight,
    the initialisers run to their end without a panic.  They leave no lock held; the
    console set up and the banner sent; the kernel's page table installed and correct; the buffer cache
    a well-formed list of the unused buffers; the driver's queue empty; and one process, the first the scheduler will choose,
    whose memory is one page with the bytes of initcode and zeros, in an address space that
    satisfies the copy-on-write invariant.  Then [started] is 1 and the hart is in the scheduler. *)
Theorem main_correct m c lsr features status qmax ins : let w := World (power_on m disk c
    (lsr ++ virtio_answers features status qmax ++ ins)) e in
  end_ + 4096 * 151 <= PHYSTOP -> Forall tx_idle lsr -> length lsr = 24%nat ->
  Z.land status VIRTIO_CONFIG_S_FEATURES_OK <> 0 -> 8 <= qmax -> s32 (r_tp c) = 0 ->
  exists w' l kt ut stacks p, main_init w = Ok tt w' /\ w_env w' = e /\ boot_state (w_k w') l kt ut stacks p /\
    lru (k_bcache (w_k w')) (rev (seq 0 NBUF)) /\ chosen (k_proc (w_k w')) 0 /\
    forall n, main n (Machine w 0) = in_kernel_state (scheduler n) (Machine w' 1).
Proof.
  intros w Hroom Hi Hl Hst Hq Htp.
  assert (H : exists w' l kt ut stacks p, main_init w = Ok tt w' /\ w_env w' = e /\ boot_state (w_k w') l kt ut stacks p).
  { assert (HW : wp total main_init (fun _ w' => w_env w' = e /\ exists l kt ut stacks p, boot_state (w_k w') l kt ut stacks p) w).
    { apply wp_main_init; [done..|]. intros w' l kt ut stacks p He Hb. split; [done|]. by exists l, kt, ut, stacks, p. }
    apply wp_total_Ok in HW as ([] & w' & E & He & l & kt & ut & stacks & p & Hb). by exists w', l, kt, ut, stacks, p. }
  destruct H as (w' & l & kt & ut & stacks & p & E & He & Hb). exists w', l, kt, ut, stacks, p.
  split_and!; [done|done|done| |by apply (first_chosen _ _ _ _ _ _ Hb)|].
  - rewrite (bt_cache _ _ _ _ _ _ Hb). exact boot_cache_lru.
  - intros n. unfold main. unfold bind at 1. unfold in_kernel_state at 1. change (cpuid (m_world (Machine w 0))) with (Ok (s32 (r_tp c)) w).
    cbv beta iota. rewrite Htp. change (0 =? 0) with true. cbv iota. unfold bind, in_kernel_state, modify. cbn [m_world started]. by rewrite E.
Qed.
End Main.
End Booted.

(** A machine with zero memory: it starts the first process. *)
Section Demo.
#[local] Existing Instances demo_layout demo_layout_ok.
#[local] Instance no_stack : Uninit := fun n => replicate n 0.

Lemma main_correct_witness : exists w', main_init (World (power_on (fun _ => 0) (fun _ => []) (Csrs 0 0 0 0 0 0 0 0)
    (replicate 24 LSR_TX_IDLE ++ virtio_answers 0 VIRTIO_CONFIG_S_FEATURES_OK 1024 ++ [])) []) = Ok tt w' /\
  k_initproc (w_k w') = Some 0%nat.
Proof.
  destruct (main_correct (fun _ => []) [] (fun _ => 0) (Csrs 0 0 0 0 0 0 0 0) (replicate 24 LSR_TX_IDLE) 0 VIRTIO_CONFIG_S_FEATURES_OK 1024 [])
    as (w' & l & kt & ut & stacks & p & E & _ & Hb & _); [by vm_compute| |done|by vm_compute|done|done|].
  - by repeat constructor.
  - exists w'. split; [exact E|]. apply (bt_procs _ _ _ _ _ _ Hb).
Defined.
End Demo.
